(* ===== verification/_CoqProject ===== *)
-Q . S2P
Prelude.v
Memory.v
StateMonad.v
Idioms.v
Qsort.v
Headers.v
Parser.v
Controller.v
Endian.v
Syncookie.v
ParsingHelpers.v
RewriteHelpers.v
XdpStats.v
Jhash.v
CString.v
ErrText.v
Scan.v
CmdLine.v
XdpLink.v
Loader.v
PossibleCpus.v
XattrMaps.v
Nlattr.v
Netlink.v
NetlinkTc.v
NetlinkOpen.v
LinkNet.v
Btf.v
BtfFromId.v
BtfExt.v
BpfSys.v
BpfAttr.v
BpfCalls.v
ElfObject.v
ObjReuse.v
Relocate.v
ObjLoad.v
ObjDescs.v
ObjLoadSpec.v
SecNames.v
Probes.v
ObjAccess.v
ObjList.v
ObjPriv.v
ProgLoad.v
ProgMaps.v
Pinning.v
ObjLoader.v
PerfRing.v
Xsk.v
XskProg.v
XskKernel.v
XskMaps.v
XskQueues.v
XskSocket.v
XskRings.v
ProgLinfo.v
BtfGraph.v
BtfDedup.v
BtfRoots.v
BtfDedupInv.v
BtfEquiv.v
BtfRefs.v
BtfCompact.v
BtfDedupSpec.v
BtfStrings.v
BtfDedupAll.v
