(* ===== verification/Prelude.v ===== *)
(** * syncookie-xdp

    A verification library for the XDP SYN-cookie filter, its helpers and
    loaders, and the parts of libbpf they stand on.  C code is modelled as
    executable functions on bytes, records and explicit states; [None] is an
    access outside an object (undefined behaviour), error codes are values of
    [result].

    ** The program and the files that model it

    The filter (src/src).  [Headers] and [Parser] are headers.h and parser.h:
    field positions and the three bounds-checked parsers.  [Controller] is
    controller.c: the cookie, the replies to SYN and ACK, and the decision.
    [Syncookie] is the XDP entry point of syncookie.c, with the kernel's
    connection table behind the class [BpfMap] and its laws [BpfMapLaws].
    [Endian] is bpf_endian.h.  Packets are byte lists; a frame record is the
    abstract view and [syncookie_fn_refines] relates the two.  [ProgMaps] is the
    maps the programs declare, as the loader reads them.

    The helpers (src/common, src/headers).  [ParsingHelpers] is
    parsing_helpers.h, [RewriteHelpers] rewrite_helpers.h, [Jhash] jhash.h.
    [XdpStats] is the per-CPU counters of xdp_stats_kern.h and the polling
    loop of xdp_stats.c; [PossibleCpus] counts the CPUs as bpf_util.h does and
    makes the array the counters are read into.

    The loaders (src/loader, src/common).  [CmdLine] is common_params.c,
    [XdpLink] common_user_bpf_xdp.c, [XattrMaps] common_libbpf.c, and [Loader]
    the main programs xdp_loader.c and xdp_stats.c.  [CString] holds the
    string functions they call and [Scan] those that read numbers.  [LinkNet]
    puts the loader on top of the netlink code of libbpf, [ObjLoader] on top
    of that and of its objects.

    libbpf (src/libbpf/src, src/libbpf/include).  [Nlattr] and [Netlink] are
    nlattr.c and netlink.c, [NetlinkTc] its dumps of traffic control and
    [NetlinkOpen] its socket; [ProgLinfo] is bpf_prog_linfo.c.  Of bpf.c,
    [BpfSys] creates maps and loads programs, [BpfAttr] lays out the record of
    a command in bytes and [BpfCalls] is the wrappers that fill it.  [Probes]
    is libbpf_probes.c, [ErrText] libbpf_errno.c and str_error.c, [Idioms]
    err.h, overflow.h and libc_compat.h.

    btf.c: [Btf] loads a section and looks things up, [BtfFromId] gets one
    from the kernel, [BtfExt] is its .BTF.ext half.  Deduplication takes the files [BtfGraph] (records, hashes,
    comparisons, sameness of types), [BtfDedup] (the state and every pass on
    types), [BtfRoots] (the map of representatives as a forest), [BtfDedupInv]
    (invariants, primitive types), [BtfEquiv] (structs: graph equivalence and
    merging), [BtfRefs] (reference types), [BtfCompact] (compaction and
    renumbering), [BtfDedupSpec] (what the passes on types promise),
    [BtfStrings] (strings: the index, the groups, the rewriting) and
    [BtfDedupAll] ([btf__dedup] as a whole).  [Qsort] is the C
    library's sort.

    libbpf.c: [ElfObject] opens an object, [Relocate] links its programs,
    [ObjLoad] creates the maps and loads the programs, with [ObjDescs] (which
    descriptors an object holds) and [ObjLoadSpec] (loading and closing);
    [ObjAccess] walks an object, [SecNames] finds types by section names,
    [ProgLoad] is [bpf_prog_load_xattr], [Pinning] pins and unpins, [ObjReuse]
    takes over a map by its descriptor, [ObjList] is the list of open objects
    (and list.h), [ObjPriv] the private data of the caller, and [PerfRing]
    reads a perf ring.

    AF_XDP: [Xsk] is the rings of xsk.h.  For xsk.c, [XskProg] is the program
    it loads, [XskKernel] the system calls, [XskMaps] the maps of that program
    and [XskSocket] memories and sockets.  [XskQueues] runs the program on the
    maps as they are written, [XskRings] the rings as they are handed out.

    [Prelude] (this file) has machine integers, error results and lists
    indexed by [Z]; [Memory] has loads, stores and byte order; [StateMonad]
    is for functions that fail, leave their objects or change a state, with
    the rules of [runs].

    ** How components interact

    The filter calls the parsers and the map; the loaders attach the filter
    and pin the maps [XdpStats] reads.  [XdpLink] and [Loader] are proved
    against the class [XdpNet] of operations on a link, with the laws
    [XdpNetLaws]; the instances of [LinkNet] fill it with the messages of
    [Netlink] and prove the laws from those of a kernel that answers them, so
    that what is proved of the loader holds down to the bytes sent.  The class
    [Libbpf] of operations on objects is filled by [ObjLoader] with those of
    [ProgLoad], [ObjAccess] and [Pinning]; its laws hold because these leave the
    devices alone ([spares]).  A BTF section loaded by [Btf] is related to its
    types by [represents]; [BtfExt] relocates information into the instruction order [ProgLinfo] looks up; deduplication
    works on the same records [desc].  [ProgLoad] composes opening,
    relocation and loading, which use [Btf], [BtfExt] and [BpfSys]; [ProgMaps]
    follows a declaration of a program through all of them to the request the
    kernel gets.  A memory or socket of [XskSocket] hands out rings, which
    [XskRings] shows to be those of [Xsk]; the entries [XskMaps] writes are
    those the instructions of [XskProg] look up ([XskQueues]).  Kernel, netlink socket, file system, libelf and the allocator are
    parameters: functions or classes whose laws state their documented
    behaviour, each instantiated by the witnesses.

    ** What the theorems show

    The filter: refinement of a decision table ([syncookie_fn_refines]), the
    handshake, that only a valid ACK changes the table, and the errors of the
    byte-order and key handling; as the table is declared the kernel refuses
    it, and the filter cannot be loaded ([connections_table_refused]).  Parsers and rewriters: what is skipped, that
    only the packet is read, round trips.  Statistics: exact counts under
    every interleaving, and for which sets of CPUs the array they are read
    into is long enough ([percpu_collect_spec]).  Loaders: what success
    guarantees, also over netlink ([attach_over_netlink],
    [loader_over_netlink]) and from the file to the device
    ([loader_over_objects]), and which inputs reach undefined behaviour.
    Netlink: refinement of the kernel operation, safety of attribute parsing,
    what dumps give the callback ([tc_dump_spec]) and that opening leaves no
    socket behind on an error ([netlink_open_spec]).

    The system call: every wrapper puts its arguments where the kernel reads
    them ([wrappers_bytes]); probes answer what the kernel would do and leave
    nothing open ([probe_map_type_spec]).  The tests for overflow are exact
    ([check_mul_overflow_spec]), error pointers come back as the errors they
    were ([err_ptr_roundtrip]), and texts fit their buffers ([strerror_text]).

    BTF: soundness and round trip of loading, sizes, map key and value types,
    relocation, line lookup; a section of the kernel is loaded as its bytes
    are ([get_from_id_spec]).  Deduplication: it ends ([dedup_total],
    [btf__dedup_total]), keeps every type and name the same up to the
    unfolding of references ([dedup_same], [btf__dedup_same], for
    [dont_resolve_fwds]), leaves well-formed types ([dedup_well_formed]) and
    stores every string once ([dedup_strings_spec]); resolving forward
    declarations can merge different structs ([fwd_resolution_merges_structs]).

    Objects: what an opened object looks like ([open_sound]), that relocated
    programs are linked ([relocate_links]), which descriptors loading opens
    and closing closes ([object_load_spec], [object_close_spec]), and all of
    it in one call ([prog_load_xattr_spec]).  Relocation and loading stay inside
    their objects, unless the file has BTF information that is not sound
    ([btf_sound]: its types and strings are a section, and every section that
    has line or function information is named).  Pinning is undone on errors and
    by unpinning ([object_pin_spec], [object_unpin_spec]); a map that takes
    over a descriptor is the map behind it ([reuse_fd_spec]); the list of
    objects is that of the open ones ([objects_refine]).

    Rings: refinement of a bounded queue ([ring_refines]); a perf ring gives
    its records in order and is drained ([read_simple_spec], [read_drains]).
    AF_XDP: the bytecode computes the C program in the comment above it
    ([xsk_prog_spec]), a queue is entered in both maps or neither
    ([update_bpf_maps_spec]), and which descriptors and mappings memories and
    sockets take and give back ([umem_create_spec], [umem_roundtrip],
    [socket_create_spec]).  Put together: the rings of a new memory are
    bounded queues ([umem_rings_are_queues]) and the packets of a queue that
    was entered reach its socket ([queue_entered]).

    ** Fuel and bounds

    Loops over buffers take the length of the buffer as fuel and are proved
    not to need more.  [MAX_RESOLVE_DEPTH] and [VLAN_MAX_DEPTH] are the code's
    own bounds.  In deduplication [resolve_loop] has the size of the map (the
    ids met are distinct, [Path_length]), [btf_dedup_is_equiv] the number of
    types (every level records a new pair) and [btf_dedup_ref_type] too (the
    types in progress are distinct); [dedup_total] shows they suffice.  The
    kernel may answer [EAGAIN] any number of times when a program is loaded:
    theorems have enough fuel for its answers as a hypothesis.  A perf ring
    with [n] records needs [n + 1] rounds; a record of size 0 needs more than
    any fuel.  Integers have their C width: [wrap w] reduces where the code
    does.

    ** Not modelled

    libelf, the kernel and the C library's files are parameters.  What only
    prints is left out: the macros of logging with [libbpf_set_print] and
    [libbpf_print], the layout of the reports, and warnings.  Headers that only declare have nothing to
    model: constants and structures of the kernel (src/headers/linux,
    include/uapi) are definitions beside the code that uses them, and the
    declarations of bpf_helpers.h are calls of the kernel.  Memory barriers of
    the rings are taken as making each step atomic.  In deduplication
    compaction's memmove as bytes (types are decoded records) and the freeing
    of memory are not modelled, nor is the path of an object, which the caller
    keeps.
*)

From stdpp Require Export base option list numbers.
From Stdlib Require Export ZArith Lia.
Open Scope Z_scope.

(** ** Machine integers

    A C integer of width [w] is a [Z]; [wrap w] is the conversion to the
    unsigned type of that width, [s32] the conversion to [int]. *)

Definition wrap (w x : Z) : Z := x mod 2 ^ w.
Abbreviation u8 := (wrap 8).
Abbreviation u16 := (wrap 16).
Abbreviation u32 := (wrap 32).
Abbreviation u64 := (wrap 64).
Definition s32 (x : Z) : Z := wrap 32 (x + 2 ^ 31) - 2 ^ 31.

Definition in_range (w x : Z) : Prop := 0 <= x < 2 ^ w.

Declare Scope c_scope.
Delimit Scope c_scope with c.
(** Arithmetic on [__u32] values: the result is reduced modulo 2^32. *)
Notation "x ⊞ y" := (wrap 32 (x + y)) (at level 50, left associativity) : c_scope.
Notation "x ⊟ y" := (wrap 32 (x - y)) (at level 50, left associativity) : c_scope.
Open Scope c_scope.

Create HintDb word discriminated.
Create HintDb mem discriminated.
Create Rewrite HintDb word.
Create Rewrite HintDb mem.

Lemma wrap_range w x : 0 <= w -> in_range w (wrap w x).
Proof. intros. unfold in_range, wrap. apply Z.mod_pos_bound. lia. Qed.

Lemma wrap_small w x : in_range w x -> wrap w x = x.
Proof. intros. apply Z.mod_small. assumption. Qed.

Lemma s32_small x : - 2 ^ 31 <= x < 2 ^ 31 -> s32 x = x.
Proof. intros. unfold s32. rewrite wrap_small by (unfold in_range; lia). lia. Qed.

Lemma wrap_wrap w x : wrap w (wrap w x) = wrap w x.
Proof. apply Zmod_mod. Qed.

Lemma wrap_add_l w x y : wrap w (wrap w x + y) = wrap w (x + y).
Proof. apply Zplus_mod_idemp_l. Qed.

Lemma wrap_add_r w x y : wrap w (x + wrap w y) = wrap w (x + y).
Proof. apply Zplus_mod_idemp_r. Qed.

Lemma wrap_add_mid w x y z : wrap w (x + (wrap w y + z)) = wrap w (x + (y + z)).
Proof. by rewrite <- wrap_add_r, wrap_add_l, wrap_add_r. Qed.

Lemma wrap_sub_l w x y : wrap w (wrap w x - y) = wrap w (x - y).
Proof. apply Zminus_mod_idemp_l. Qed.

Lemma wrap_sub_r w x y : wrap w (x - wrap w y) = wrap w (x - y).
Proof. apply Zminus_mod_idemp_r. Qed.

Lemma u32_sub_add x y : in_range 32 x -> x ⊟ y ⊞ y = x.
Proof.
  intros. rewrite wrap_add_l. replace (x - y + y) with x by lia.
  by apply wrap_small.
Qed.

Lemma u32_add_sub x y : in_range 32 x -> x ⊞ y ⊟ y = x.
Proof.
  intros. rewrite wrap_sub_l. replace (x + y - y) with x by lia.
  by apply wrap_small.
Qed.

Lemma wrap_inj_add w a b c :
  0 <= w -> in_range w a -> in_range w b -> wrap w (a + c) = wrap w (b + c) -> a = b.
Proof.
  unfold in_range, wrap. intros Hw Ha Hb H.
  assert (0 < 2 ^ w) by (by apply Z.pow_pos_nonneg).
  assert ((a - b) mod 2 ^ w = 0) as Hd.
  { replace (a - b) with ((a + c) - (b + c)) by lia.
    by rewrite Zminus_mod, H, Z.sub_diag, Zmod_0_l. }
  apply Z.mod_divide in Hd; [|by apply Z.pow_nonzero].
  destruct Hd as [k Hk]. set (M := 2 ^ w) in *. clearbody M.
  assert (k = 0) by nia. nia.
Qed.

#[export] Hint Rewrite wrap_wrap wrap_add_l wrap_add_r wrap_sub_l wrap_sub_r : word.
#[export] Hint Resolve wrap_range wrap_small : word.

(** Equality of two sums reduced modulo 2^w at any of their stages. *)
Ltac wrap_sum :=
  rewrite <- ?Z.add_assoc;
  repeat (progress rewrite ?wrap_add_r, ?wrap_add_l, ?wrap_add_mid; rewrite <- ?Z.add_assoc);
  f_equal; lia.

(** *** Bit operations stay within the width of their operands *)

Lemma in_range_bits w x :
  0 <= w -> in_range w x <-> 0 <= x /\ forall i, w <= i -> Z.testbit x i = false.
Proof.
  intros Hw. unfold in_range. split.
  - intros [H1 H2]. split; [done|]. intros i Hi.
    rewrite <- (Z.mod_small x (2 ^ w)) by lia. apply Z.mod_pow2_bits_high. lia.
  - intros [H1 H2]. split; [done|].
    enough (x = x mod 2 ^ w) as Hx.
    { rewrite Hx. apply Z.mod_pos_bound. lia. }
    apply Z.bits_inj'. intros i Hi.
    destruct (Z.lt_ge_cases i w).
    + by rewrite Z.mod_pow2_bits_low.
    + rewrite Z.mod_pow2_bits_high by lia. by apply H2.
Qed.

Lemma in_range_lxor w x y :
  0 <= w -> in_range w x -> in_range w y -> in_range w (Z.lxor x y).
Proof.
  intros Hw Hx Hy. rewrite in_range_bits in Hx, Hy |- * by done.
  destruct Hx, Hy. split; [by apply Z.lxor_nonneg|].
  intros. rewrite Z.lxor_spec. by rewrite H0, H2.
Qed.

Lemma in_range_lor w x y :
  0 <= w -> in_range w x -> in_range w y -> in_range w (Z.lor x y).
Proof.
  intros Hw Hx Hy. rewrite in_range_bits in Hx, Hy |- * by done.
  destruct Hx, Hy. split; [by apply Z.lor_nonneg|].
  intros. rewrite Z.lor_spec. by rewrite H0, H2.
Qed.

Lemma in_range_land_r w x y : 0 <= w -> in_range w y -> in_range w (Z.land x y).
Proof.
  intros Hw Hy. rewrite in_range_bits in Hy |- * by done.
  destruct Hy as [? Hy]. split; [apply Z.land_nonneg; auto|].
  intros. rewrite Z.land_spec, Hy by done. apply andb_false_r.
Qed.

Lemma in_range_le w1 w2 x : w1 <= w2 -> in_range w1 x -> in_range w2 x.
Proof.
  unfold in_range. intros ? [? ?]. split; [done|].
  eapply Z.lt_le_trans; [done|]. apply Z.pow_le_mono_r; lia.
Qed.

#[export] Hint Resolve in_range_lxor in_range_lor in_range_land_r : word.

(** [testbit] of a constructed word, by case analysis on the bit index. *)
Ltac bitblast_solve :=
  repeat (rewrite ?Z.land_spec, ?Z.lor_spec, ?Z.lxor_spec, ?Z.ldiff_spec,
            ?Z.shiftr_spec, ?Z.shiftl_spec, ?Z.testbit_ones by lia).

(** ** Results of fallible C functions

    [Ok v] is a value returned on success, [Err e] the non-zero error code. *)

Inductive result (A : Type) : Type :=
| Ok (a : A)
| Err (e : Z).
Arguments Ok {A} _.
Arguments Err {A} _.

Definition result_bind {A B} (r : result A) (f : A -> result B) : result B :=
  match r with Ok a => f a | Err e => Err e end.

Notation "'let!' x ':=' c 'in' k" := (result_bind c (fun x => k))
  (at level 10, x pattern, c at level 200, k at level 200) : c_scope.

Definition is_ok {A} (r : result A) : bool :=
  match r with Ok _ => true | Err _ => false end.

Lemma result_bind_ok {A B} (r : result A) (f : A -> result B) b :
  result_bind r f = Ok b <-> exists a, r = Ok a /\ f a = Ok b.
Proof.
  destruct r; cbn; split.
  - eauto.
  - by intros (? & [= ->] & ?).
  - done.
  - by intros (? & ? & ?).
Qed.

(** A computation that may also be undefined ([None], an access outside an
    object): [let?] goes on with the value of a successful one. *)
Abbreviation outcome A := (option (result A)).

Definition outcome_bind {A B} (c : outcome A) (f : A -> outcome B) : outcome B :=
  match c with
  | Some (Ok a) => f a
  | Some (Err e) => Some (Err e)
  | None => None
  end.

Notation "'let?' x ':=' c 'in' k" := (outcome_bind c (fun x => k))
  (at level 10, x pattern, c at level 200, k at level 200) : c_scope.

Lemma outcome_bind_ok {A B} (c : outcome A) (f : A -> outcome B) b :
  outcome_bind c f = Some (Ok b) <-> exists a, c = Some (Ok a) /\ f a = Some (Ok b).
Proof.
  destruct c as [[a|e]|]; cbn; split; try done.
  - eauto.
  - by intros (? & [= ->] & ?).
  - by intros (? & ? & ?).
  - by intros (? & ? & ?).
Qed.

(** errno values the code returns (asm-generic/errno-base.h). *)
Definition LIBBPF_ERRNO__INTERNAL := 4004.
Definition ENOENT := 2.
Definition E2BIG := 7.
Definition ENOMEM := 12.
Definition EBUSY := 16.
Definition EEXIST := 17.
Definition EINVAL := 22.
Definition ELOOP := 40.
Definition EOPNOTSUPP := 95.
Definition ENOTSUP := 95.

(** ** Lists indexed by [Z] *)

Section zlist.
Context {A : Type}.
Implicit Types l : list A.

Definition zlen l : Z := Z.of_nat (length l).

(** [l[i]]; [None] outside the array. *)
Definition znth l (i : Z) : option A :=
  if decide (0 <= i) then l !! Z.to_nat i else None.

(** [l[i] = x]; [None] outside the array. *)
Definition zset l (i : Z) (x : A) : option (list A) :=
  if decide (0 <= i < zlen l) then Some (<[Z.to_nat i := x]> l) else None.

Lemma znth_is_Some l i : is_Some (znth l i) <-> 0 <= i < zlen l.
Proof.
  unfold znth, zlen. case_decide.
  - rewrite lookup_lt_is_Some. lia.
  - split; [intros [? ?]; done|lia].
Qed.

Lemma znth_Some_range l i x : znth l i = Some x -> 0 <= i < zlen l.
Proof. intros H. apply znth_is_Some. eauto. Qed.

Lemma znth_None l i : znth l i = None <-> ~ 0 <= i < zlen l.
Proof. rewrite <- znth_is_Some, <- eq_None_not_Some. done. Qed.

Lemma zset_is_Some l i x : is_Some (zset l i x) <-> 0 <= i < zlen l.
Proof. unfold zset. case_decide; split; try done; by intros [? ?]. Qed.

Lemma zset_Some l i x l' :
  zset l i x = Some l' -> 0 <= i < zlen l /\ l' = <[Z.to_nat i := x]> l.
Proof. unfold zset. case_decide; [|done]. by intros [= <-]. Qed.

Lemma zlen_zset l i x l' : zset l i x = Some l' -> zlen l' = zlen l.
Proof. intros [? ->]%zset_Some. unfold zlen. by rewrite length_insert. Qed.

Lemma znth_zset l i x l' j :
  zset l i x = Some l' -> znth l' j = if decide (i = j) then Some x else znth l j.
Proof.
  intros [Hi ->]%zset_Some. unfold znth, zlen in *. case_decide.
  - case_decide; subst.
    + apply list_lookup_insert_eq. lia.
    + apply list_lookup_insert_ne. lia.
  - case_decide; [lia|done].
Qed.

Lemma zlen_app l k : zlen (l ++ k) = zlen l + zlen k.
Proof. unfold zlen. rewrite length_app. lia. Qed.

Lemma zlen_cons x l : zlen (x :: l) = 1 + zlen l.
Proof. unfold zlen. cbn [length]. lia. Qed.

Lemma zlen_nonneg l : 0 <= zlen l.
Proof. unfold zlen. lia. Qed.

Lemma znth_app_r l k i : 0 <= i -> znth (l ++ k) (zlen l + i) = znth k i.
Proof.
  unfold znth, zlen. intros. rewrite !decide_True by lia.
  rewrite lookup_app_r by lia. f_equal. lia.
Qed.

Lemma znth_app_l l k i : i < zlen l -> znth (l ++ k) i = znth l i.
Proof.
  unfold znth, zlen. intros. case_decide; [|done]. apply lookup_app_l. lia.
Qed.

Lemma znth_take l m i : 0 <= i < m -> znth (take (Z.to_nat m) l) i = znth l i.
Proof. intros Hi. unfold znth. case_decide; [|done]. apply lookup_take_lt. lia. Qed.

Lemma znth_repeat_inv (a b : A) n i : znth (repeat a n) i = Some b -> b = a.
Proof.
  unfold znth. case_decide; [|done]. intros H'%list_elem_of_lookup_2.
  revert H'. rewrite list_elem_of_In. by intros ?%repeat_spec.
Qed.

Lemma znth_repeat (a : A) n i : 0 <= i < Z.of_nat n -> znth (repeat a n) i = Some a.
Proof.
  intros Hi. destruct (proj2 (znth_is_Some (repeat a n) i)) as [b Hb].
  - unfold zlen. rewrite repeat_length. lia.
  - by rewrite Hb, (znth_repeat_inv _ _ _ _ Hb).
Qed.
End zlist.
#[export] Hint Rewrite @zlen_app @zlen_cons : mem.
