(* ===== verification/Memory.v ===== *)
(** * Byte memory

    A C object is the list of its bytes, each a [Z] in [0, 256).  Loads and
    stores name an offset and a width; [None] is an access outside the object
    (undefined behaviour in C, rejected by the kernel verifier in a BPF
    program).  Integers are stored in the byte order of the target. *)

From S2P Require Export Prelude.

(** The byte order of the compilation target (BPF follows the host). *)
Inductive endian := LE | BE.

#[export] Instance endian_eq_dec : EqDecision endian.
Proof. solve_decision. Defined.

Definition byte_ok (b : Z) : Prop := in_range 8 b.
Abbreviation bytes_ok := (Forall byte_ok).

(** Decides [bytes_ok]. *)
Definition bytes_okb (m : list Z) : bool := forallb (fun b => (0 <=? b) && (b <? 256)) m.

Lemma bytes_okb_ok m : bytes_okb m = true -> bytes_ok m.
Proof.
  unfold bytes_okb. induction m as [|b m IH]; [constructor|]. cbn.
  rewrite !andb_true_iff. intros [[H1 H2] H3]. constructor; [|by apply IH].
  unfold byte_ok, in_range. change (2 ^ 8) with 256. lia.
Qed.

(** ** Integers and their bytes *)

Fixpoint le_combine (bs : list Z) : Z :=
  match bs with
  | [] => 0
  | b :: bs => b + 256 * le_combine bs
  end.

Fixpoint le_split (n : nat) (v : Z) : list Z :=
  match n with
  | O => []
  | S n => v mod 256 :: le_split n (v / 256)
  end.

Definition combine (e : endian) (bs : list Z) : Z :=
  match e with LE => le_combine bs | BE => le_combine (rev bs) end.

Definition split (e : endian) (n : nat) (v : Z) : list Z :=
  match e with LE => le_split n v | BE => rev (le_split n v) end.

Lemma length_le_split n v : length (le_split n v) = n.
Proof. revert v; induction n; intros; cbn; [done|by rewrite IHn]. Qed.

Lemma length_split e n v : length (split e n v) = n.
Proof. destruct e; cbn; rewrite ?length_rev; apply length_le_split. Qed.

Lemma le_split_ok n v : bytes_ok (le_split n v).
Proof.
  revert v; induction n; intros; cbn; constructor; [|done].
  unfold byte_ok, in_range. change (2 ^ 8) with 256. apply Z.mod_pos_bound. lia.
Qed.

Lemma split_ok e n v : bytes_ok (split e n v).
Proof. destruct e; cbn; [|apply Forall_rev]; apply le_split_ok. Qed.

Lemma pow256_succ n : 2 ^ (8 * Z.of_nat (S n)) = 256 * 2 ^ (8 * Z.of_nat n).
Proof.
  rewrite Nat2Z.inj_succ, Z.mul_succ_r, Z.pow_add_r by lia.
  change (2 ^ 8) with 256. lia.
Qed.

Lemma le_combine_range bs :
  bytes_ok bs -> in_range (8 * Z.of_nat (length bs)) (le_combine bs).
Proof.
  induction 1 as [|b bs Hb _ IH].
  - cbn. unfold in_range. cbn. lia.
  - cbn [le_combine length]. unfold in_range in *. rewrite pow256_succ.
    unfold byte_ok, in_range in Hb. change (2 ^ 8) with 256 in Hb. nia.
Qed.

Lemma combine_range e bs :
  bytes_ok bs -> in_range (8 * Z.of_nat (length bs)) (combine e bs).
Proof.
  intros H. destruct e; cbn; [by apply le_combine_range|].
  rewrite <- (length_rev bs). by apply le_combine_range, Forall_rev.
Qed.

Lemma le_combine_split n v : le_combine (le_split n v) = wrap (8 * Z.of_nat n) v.
Proof.
  revert v; induction n; intros v; cbn [le_combine le_split].
  - unfold wrap. cbn. by rewrite Z.mod_1_r.
  - rewrite IHn. unfold wrap. rewrite pow256_succ.
    rewrite Z.rem_mul_r by (pose proof (Z.pow_pos_nonneg 2 (8 * Z.of_nat n)); lia).
    done.
Qed.

Lemma le_split_combine bs : bytes_ok bs -> le_split (length bs) (le_combine bs) = bs.
Proof.
  induction 1 as [|b bs Hb _ IH]; [done|].
  unfold byte_ok, in_range in Hb. change (2 ^ 8) with 256 in Hb.
  cbn [length le_split le_combine].
  replace (b + 256 * le_combine bs) with (le_combine bs * 256 + b) by lia.
  rewrite Z.add_mod, Z.mod_mul, Z.add_0_l, Z.mod_mod, Z.mod_small by lia.
  rewrite Z.div_add_l, Z.div_small, Z.add_0_r by lia. by rewrite IH.
Qed.

Lemma combine_split e n v : combine e (split e n v) = wrap (8 * Z.of_nat n) v.
Proof. destruct e; cbn; rewrite ?rev_involutive; apply le_combine_split. Qed.

Lemma split_combine e bs :
  bytes_ok bs -> split e (length bs) (combine e bs) = bs.
Proof.
  intros H. destruct e; cbn; [by apply le_split_combine|].
  rewrite <- (length_rev bs), le_split_combine by (by apply Forall_rev).
  apply rev_involutive.
Qed.

(** ** Access to a byte object *)

Definition get_bytes (m : list Z) (p : Z) (n : nat) : option (list Z) :=
  if decide (0 <= p /\ p + Z.of_nat n <= zlen m)
  then Some (take n (drop (Z.to_nat p) m)) else None.

Definition put_bytes (m : list Z) (p : Z) (bs : list Z) : option (list Z) :=
  if decide (0 <= p /\ p + zlen bs <= zlen m)
  then Some (take (Z.to_nat p) m ++ bs ++ drop (Z.to_nat (p + zlen bs)) m) else None.

Definition load (e : endian) (n : nat) (m : list Z) (p : Z) : option Z :=
  bs ← get_bytes m p n; Some (combine e bs).

Definition store (e : endian) (n : nat) (m : list Z) (p v : Z) : option (list Z) :=
  put_bytes m p (split e n v).

Section access.
Implicit Types (m bs : list Z) (p q : Z) (n k : nat) (e : endian).

Lemma get_bytes_is_Some m p n :
  is_Some (get_bytes m p n) <-> 0 <= p /\ p + Z.of_nat n <= zlen m.
Proof. unfold get_bytes. case_decide; split; try done; by intros [? ?]. Qed.

Lemma length_get_bytes m p n bs : get_bytes m p n = Some bs -> length bs = n.
Proof.
  unfold get_bytes, zlen. case_decide; intros; simplify_eq.
  rewrite length_take, length_drop. lia.
Qed.

Lemma get_bytes_ok m p n bs : bytes_ok m -> get_bytes m p n = Some bs -> bytes_ok bs.
Proof.
  unfold get_bytes. case_decide; intros; simplify_eq.
  by apply Forall_take, Forall_drop.
Qed.

Lemma put_bytes_is_Some m p bs :
  is_Some (put_bytes m p bs) <-> 0 <= p /\ p + zlen bs <= zlen m.
Proof. unfold put_bytes. case_decide; split; try done; by intros [? ?]. Qed.

Lemma zlen_put_bytes m p bs m' : put_bytes m p bs = Some m' -> zlen m' = zlen m.
Proof.
  unfold put_bytes, zlen. case_decide; intros; simplify_eq.
  rewrite !length_app, length_take, length_drop. lia.
Qed.

Lemma put_bytes_ok m p bs m' :
  bytes_ok m -> bytes_ok bs -> put_bytes m p bs = Some m' -> bytes_ok m'.
Proof.
  unfold put_bytes. case_decide; intros; simplify_eq.
  repeat apply Forall_app_2; auto using Forall_take, Forall_drop.
Qed.

Lemma get_put_same m p bs m' :
  put_bytes m p bs = Some m' -> get_bytes m' p (length bs) = Some bs.
Proof.
  intros H. pose proof (zlen_put_bytes _ _ _ _ H) as Hl.
  unfold get_bytes. rewrite Hl. unfold put_bytes in H.
  case_decide as Hd; [|done]. simplify_eq. unfold zlen in *.
  rewrite decide_True by lia. f_equal.
  rewrite drop_app_length' by (rewrite length_take; lia).
  by rewrite take_app_length.
Qed.

Lemma get_bytes_lookup m p n bs i :
  get_bytes m p n = Some bs -> (i < n)%nat -> bs !! i = m !! (Z.to_nat p + i)%nat.
Proof.
  unfold get_bytes. case_decide; intros; simplify_eq.
  by rewrite lookup_take_lt, lookup_drop.
Qed.

Lemma put_bytes_lookup m p bs m' i :
  put_bytes m p bs = Some m' ->
  (Z.of_nat i < p \/ p + zlen bs <= Z.of_nat i) -> m' !! i = m !! i.
Proof.
  unfold put_bytes, zlen. case_decide as Hd; intros; simplify_eq.
  destruct (decide (Z.of_nat i < p)).
  - rewrite lookup_app_l by (rewrite length_take; lia).
    by rewrite lookup_take_lt by lia.
  - rewrite lookup_app_r by (rewrite length_take; lia).
    rewrite lookup_app_r by (rewrite length_take; lia).
    rewrite lookup_drop, length_take. f_equal. lia.
Qed.

Lemma get_bytes_ext m m' p n :
  zlen m' = zlen m ->
  (forall i, p <= Z.of_nat i < p + Z.of_nat n -> m' !! i = m !! i) ->
  get_bytes m' p n = get_bytes m p n.
Proof.
  intros Hl H. unfold get_bytes. rewrite Hl. case_decide as Hd; [|done].
  f_equal. apply list_eq. intros i.
  destruct (decide (i < n)%nat).
  - rewrite !lookup_take_lt, !lookup_drop by done. apply H. lia.
  - by rewrite !lookup_take_ge by lia.
Qed.

(** The frame property: a store leaves disjoint bytes as they were. *)
Lemma get_put_disjoint m p bs m' q k :
  put_bytes m p bs = Some m' ->
  q + Z.of_nat k <= p \/ p + zlen bs <= q ->
  get_bytes m' q k = get_bytes m q k.
Proof.
  intros H Hd. apply get_bytes_ext; [by eapply zlen_put_bytes|].
  intros i Hi. eapply put_bytes_lookup; [done|lia].
Qed.

Lemma load_is_Some e n m p :
  is_Some (load e n m p) <-> 0 <= p /\ p + Z.of_nat n <= zlen m.
Proof.
  rewrite <- get_bytes_is_Some. unfold load.
  destruct (get_bytes m p n); cbn; split; eauto; by intros [? ?].
Qed.

Lemma load_range e n m p v :
  bytes_ok m -> load e n m p = Some v -> in_range (8 * Z.of_nat n) v.
Proof.
  unfold load. intros Hm H. destruct (get_bytes m p n) as [bs|] eqn:E; [|done].
  cbn in H. simplify_eq. rewrite <- (length_get_bytes _ _ _ _ E).
  eapply combine_range, get_bytes_ok; done.
Qed.

Lemma store_is_Some e n m p v :
  is_Some (store e n m p v) <-> 0 <= p /\ p + Z.of_nat n <= zlen m.
Proof. unfold store. rewrite put_bytes_is_Some. unfold zlen. by rewrite length_split. Qed.

Lemma zlen_store e n m p v m' : store e n m p v = Some m' -> zlen m' = zlen m.
Proof. apply zlen_put_bytes. Qed.

Lemma store_ok e n m p v m' : bytes_ok m -> store e n m p v = Some m' -> bytes_ok m'.
Proof. intros. eapply put_bytes_ok; [done|apply (split_ok e n v)|done]. Qed.

Lemma load_store_same e n m p v m' :
  store e n m p v = Some m' -> load e n m' p = Some (wrap (8 * Z.of_nat n) v).
Proof.
  intros H%get_put_same. rewrite length_split in H.
  unfold load. rewrite H. cbn. by rewrite combine_split.
Qed.

Lemma get_store_disjoint e n m p v m' q k :
  store e n m p v = Some m' ->
  q + Z.of_nat k <= p \/ p + Z.of_nat n <= q ->
  get_bytes m' q k = get_bytes m q k.
Proof.
  intros H Hd. eapply get_put_disjoint; [done|].
  unfold zlen. by rewrite length_split.
Qed.

Lemma load_store_disjoint e n m p v m' e' q k :
  store e n m p v = Some m' ->
  q + Z.of_nat k <= p \/ p + Z.of_nat n <= q ->
  load e' k m' q = load e' k m q.
Proof. intros. unfold load. by erewrite get_store_disjoint. Qed.

Lemma get_put_at m p bs m' n :
  put_bytes m p bs = Some m' -> length bs = n -> get_bytes m' p n = Some bs.
Proof. intros H <-. by eapply get_put_same. Qed.

Lemma drop_put_bytes m p bs m' k :
  put_bytes m p bs = Some m' -> p + zlen bs <= Z.of_nat k -> drop k m' = drop k m.
Proof.
  intros H Hk. apply list_eq. intros i. rewrite !lookup_drop.
  eapply put_bytes_lookup; [done|lia].
Qed.

Lemma drop_store e n m p v m' k :
  store e n m p v = Some m' -> p + Z.of_nat n <= Z.of_nat k -> drop k m' = drop k m.
Proof.
  intros H Hk. eapply drop_put_bytes; [exact H|].
  unfold zlen. by rewrite length_split.
Qed.

Lemma load_put_disjoint m p bs m' e' q k :
  put_bytes m p bs = Some m' ->
  q + Z.of_nat k <= p \/ p + zlen bs <= q ->
  load e' k m' q = load e' k m q.
Proof. intros. unfold load. by erewrite get_put_disjoint. Qed.
Lemma get_bytes_sub m p n bs q k :
  get_bytes m p n = Some bs -> p <= q -> q + Z.of_nat k <= p + Z.of_nat n ->
  get_bytes m q k = Some (take k (drop (Z.to_nat (q - p)) bs)).
Proof.
  unfold get_bytes. intros H Hq Hk. case_decide; [|done]. injection H as <-.
  rewrite decide_True by lia. f_equal. apply list_eq. intros i.
  destruct (decide (i < k)%nat); [|by rewrite !lookup_take_ge by lia].
  rewrite !lookup_take_lt, !lookup_drop, lookup_take_lt, lookup_drop by lia. f_equal. lia.
Qed.

(** Reading inside a block that was copied from another memory. *)
Lemma get_put_copy m0 s n bs m p m' q k :
  get_bytes m0 s n = Some bs -> put_bytes m p bs = Some m' ->
  p <= q -> q + Z.of_nat k <= p + Z.of_nat n ->
  get_bytes m' q k = get_bytes m0 (s + (q - p)) k.
Proof.
  intros Hg Hp Hq Hk. pose proof (length_get_bytes _ _ _ _ Hg) as Hn.
  pose proof (get_put_at _ _ _ _ n Hp Hn) as Hg'.
  rewrite (get_bytes_sub _ _ _ _ q k Hg') by lia.
  rewrite (get_bytes_sub _ _ _ _ (s + (q - p)) k Hg) by lia.
  do 4 f_equal. lia.
Qed.

Lemma load_put_copy m0 s n bs m p m' e q k :
  get_bytes m0 s n = Some bs -> put_bytes m p bs = Some m' ->
  p <= q -> q + Z.of_nat k <= p + Z.of_nat n ->
  load e k m' q = load e k m0 (s + (q - p)).
Proof. intros. unfold load. by erewrite get_put_copy. Qed.

Lemma get_bytes_drop m j q k :
  0 <= q -> get_bytes (drop j m) q k = get_bytes m (q + Z.of_nat j) k \/ zlen m < Z.of_nat j.
Proof.
  intros Hq. destruct (decide (zlen m < Z.of_nat j)); [by right|left].
  unfold get_bytes, zlen in *. rewrite length_drop.
  case_decide; case_decide; try lia; [|done].
  rewrite drop_drop. do 3 f_equal. lia.
Qed.

(** Equal loads come from equal bytes. *)
Lemma load_get_bytes e n m m' p q v :
  bytes_ok m -> bytes_ok m' -> load e n m p = Some v -> load e n m' q = Some v ->
  get_bytes m p n = get_bytes m' q n.
Proof.
  unfold load. intros Hm Hm' H1 H2.
  destruct (get_bytes m p n) as [b1|] eqn:E1; [|done].
  destruct (get_bytes m' q n) as [b2|] eqn:E2; [|done].
  cbn in H1, H2. injection H1 as H1. injection H2 as H2.
  pose proof (split_combine e b1 (get_bytes_ok _ _ _ _ Hm E1)) as P1.
  pose proof (split_combine e b2 (get_bytes_ok _ _ _ _ Hm' E2)) as P2.
  rewrite (length_get_bytes _ _ _ _ E1) in P1. rewrite (length_get_bytes _ _ _ _ E2) in P2.
  congruence.
Qed.

(** Two memories that agree piece by piece, the last piece running to the
    end, are equal. *)
Fixpoint same_pieces m m' p (cuts : list nat) : Prop :=
  match cuts with
  | [] => drop (Z.to_nat p) m = drop (Z.to_nat p) m'
  | n :: cuts => get_bytes m p n = get_bytes m' p n /\ p + Z.of_nat n <= zlen m
                 /\ same_pieces m m' (p + Z.of_nat n) cuts
  end.

Lemma same_pieces_drop m m' p cuts :
  0 <= p -> zlen m = zlen m' -> same_pieces m m' p cuts ->
  drop (Z.to_nat p) m = drop (Z.to_nat p) m'.
Proof.
  revert p. induction cuts as [|n cuts IH]; intros p Hp Hl; cbn; [done|].
  intros (Hg & Hb & Hs). apply IH in Hs; [|lia|done].
  unfold get_bytes in Hg. rewrite !decide_True in Hg by lia. injection Hg as Hg.
  rewrite <- (take_drop n (drop (Z.to_nat p) m)), <- (take_drop n (drop (Z.to_nat p) m')).
  rewrite Hg, !drop_drop. f_equal.
  replace (Z.to_nat p + n)%nat with (Z.to_nat (p + Z.of_nat n)) by lia. done.
Qed.

Lemma same_pieces_eq m m' cuts :
  zlen m = zlen m' -> same_pieces m m' 0 cuts -> m = m'.
Proof. intros Hl Hs. by apply same_pieces_drop in Hs. Qed.
End access.

(** ** Reading through a sequence of stores

    [mem_frame] rewrites every load of the goal through the stores of the
    context, whose offsets are concrete up to a common base. *)

Ltac mem_len :=
  repeat match goal with
  | H : store _ _ ?m _ _ = Some ?m' |- _ =>
      lazymatch goal with
      | _ : zlen m' = zlen m |- _ => fail
      | _ => pose proof (zlen_store _ _ _ _ _ _ H)
      end
  | H : put_bytes ?m _ _ = Some ?m' |- _ =>
      lazymatch goal with
      | _ : zlen m' = zlen m |- _ => fail
      | _ => pose proof (zlen_put_bytes _ _ _ _ H)
      end
  end.

Ltac mem_side := unfold zlen in *; cbn [length] in *; lia.

Ltac mem_frame :=
  repeat match goal with
  | H : store ?e ?n ?m ?p ?v = Some ?m' |- context [load ?e ?n ?m' ?p] =>
      rewrite (load_store_same _ _ _ _ _ _ H)
  | H : store _ _ _ _ _ = Some ?m' |- context [load ?e ?k ?m' ?q] =>
      rewrite (load_store_disjoint _ _ _ _ _ _ e q k H) by mem_side
  | H : store _ _ _ _ _ = Some ?m' |- context [get_bytes ?m' ?q ?k] =>
      rewrite (get_store_disjoint _ _ _ _ _ _ q k H) by mem_side
  | H : put_bytes _ ?p _ = Some ?m' |- context [get_bytes ?m' ?p ?n] =>
      rewrite (get_put_at _ _ _ _ n H) by assumption
  | H : put_bytes _ _ _ = Some ?m' |- context [drop ?k ?m'] =>
      rewrite (drop_put_bytes _ _ _ _ k H) by mem_side
  | H : store _ _ _ _ _ = Some ?m' |- context [drop ?k ?m'] =>
      rewrite (drop_store _ _ _ _ _ _ k H) by mem_side
  | H : put_bytes _ _ _ = Some ?m' |- context [load ?e ?k ?m' ?q] =>
      rewrite (load_put_disjoint _ _ _ _ e q k H) by mem_side
  | H : put_bytes _ _ _ = Some ?m' |- context [get_bytes ?m' ?q ?k] =>
      rewrite (get_put_disjoint _ _ _ _ q k H) by mem_side
  end.

(** ** Bit fields

    The field of [width] bits declared [pos] bits after the start of its
    byte: a little-endian target allocates bit fields from the least
    significant bit, a big-endian one from the most significant bit. *)

Definition bf_shift (e : endian) (pos width : Z) : Z :=
  match e with LE => pos | BE => 8 - pos - width end.

Definition bf_get (e : endian) (b pos width : Z) : Z :=
  Z.land (Z.shiftr b (bf_shift e pos width)) (Z.ones width).

Definition bf_set (e : endian) (b pos width v : Z) : Z :=
  let sh := bf_shift e pos width in
  Z.lor (Z.ldiff b (Z.shiftl (Z.ones width) sh)) (Z.shiftl (Z.land v (Z.ones width)) sh).

Lemma bf_get_range e b pos width : 0 <= width -> in_range width (bf_get e b pos width).
Proof.
  intros. unfold bf_get, in_range. rewrite Z.land_ones by done.
  apply Z.mod_pos_bound. lia.
Qed.

Lemma testbit_ones_if n i :
  0 <= n -> 0 <= i -> Z.testbit (Z.ones n) i = (i <? n).
Proof.
  intros. destruct (Z.ltb_spec i n).
  - by apply Z.ones_spec_low.
  - by apply Z.ones_spec_high.
Qed.

Lemma bf_get_testbit e b pos width i :
  0 <= bf_shift e pos width -> 0 <= width -> 0 <= i ->
  Z.testbit (bf_get e b pos width) i
  = Z.testbit b (i + bf_shift e pos width) && (i <? width).
Proof.
  intros. unfold bf_get.
  by rewrite Z.land_spec, Z.shiftr_spec, testbit_ones_if by done.
Qed.

Lemma bf_set_testbit e b pos width v i :
  0 <= bf_shift e pos width -> 0 <= width -> 0 <= i ->
  Z.testbit (bf_set e b pos width v) i
  = let sh := bf_shift e pos width in
    if (sh <=? i) && (i <? sh + width) then Z.testbit v (i - sh) else Z.testbit b i.
Proof.
  intros Hsh Hw Hi. unfold bf_set. cbv zeta. set (sh := bf_shift e pos width) in *.
  rewrite Z.lor_spec, Z.ldiff_spec, !Z.shiftl_spec by done.
  destruct (Z.leb_spec sh i); cbn [andb].
  - rewrite Z.land_spec, testbit_ones_if by lia.
    destruct (Z.ltb_spec (i - sh) width); destruct (Z.ltb_spec i (sh + width)); try lia;
      cbn; rewrite ?andb_false_r, ?andb_true_r, ?orb_false_r; done.
  - rewrite !(Z.testbit_neg_r _ (i - sh)) by lia. cbn.
    by rewrite andb_true_r, orb_false_r.
Qed.

Lemma bf_get_set_same e b pos width v :
  0 <= bf_shift e pos width -> 0 <= width -> in_range width v ->
  bf_get e (bf_set e b pos width v) pos width = v.
Proof.
  intros Hsh Hw Hv. apply Z.bits_inj'. intros i Hi.
  rewrite bf_get_testbit, bf_set_testbit by lia. cbv zeta.
  destruct (Z.ltb_spec i width).
  - rewrite andb_true_r.
    destruct (Z.leb_spec (bf_shift e pos width) (i + bf_shift e pos width)); [|lia].
    destruct (Z.ltb_spec (i + bf_shift e pos width) (bf_shift e pos width + width)); [|lia].
    cbn. f_equal. lia.
  - rewrite andb_false_r. symmetry. by apply (in_range_bits width).
Qed.

Lemma bf_get_set_other e b pos width v pos' width' :
  0 <= pos -> 0 <= pos' -> 0 <= width -> 0 <= width' ->
  pos + width <= 8 -> pos' + width' <= 8 ->
  pos + width <= pos' \/ pos' + width' <= pos ->
  bf_get e (bf_set e b pos width v) pos' width' = bf_get e b pos' width'.
Proof.
  intros ?????? Hd. assert (0 <= bf_shift e pos width) by (destruct e; cbn; lia).
  assert (0 <= bf_shift e pos' width') by (destruct e; cbn; lia).
  apply Z.bits_inj'. intros i Hi.
  rewrite !bf_get_testbit by lia.
  destruct (Z.ltb_spec i width'); rewrite ?andb_false_r, ?andb_true_r; [|done].
  rewrite bf_set_testbit by lia. cbv zeta.
  destruct (Z.leb_spec (bf_shift e pos width) (i + bf_shift e pos' width'));
  destruct (Z.ltb_spec (i + bf_shift e pos' width') (bf_shift e pos width + width));
  cbn [andb]; try done; exfalso; destruct e; cbn in *; lia.
Qed.

Lemma bf_set_byte e b pos width v :
  0 <= pos -> 0 <= width -> pos + width <= 8 -> byte_ok b -> byte_ok (bf_set e b pos width v).
Proof.
  intros ??? Hb. assert (0 <= bf_shift e pos width /\ bf_shift e pos width + width <= 8)
    by (destruct e; cbn; lia).
  unfold byte_ok in *. apply in_range_bits in Hb; [|lia]. apply in_range_bits; [lia|].
  destruct Hb as [Hb0 Hb]. split.
  - unfold bf_set. apply Z.lor_nonneg. split.
    + apply Z.ldiff_nonneg. by left.
    + apply Z.shiftl_nonneg, Z.land_nonneg. right. rewrite Z.ones_equiv.
      pose proof (Z.pow_pos_nonneg 2 width). lia.
  - intros i Hi. rewrite bf_set_testbit by lia. cbv zeta.
    destruct (Z.ltb_spec i (bf_shift e pos width + width)); [lia|].
    rewrite andb_false_r. by apply Hb.
Qed.

(** ** Stepping through a function that accesses memory *)

Lemma load_ex e n m p :
  0 <= p -> p + Z.of_nat n <= zlen m -> exists v, load e n m p = Some v.
Proof. intros. by apply load_is_Some. Qed.

Lemma store_ex e n m p v :
  0 <= p -> p + Z.of_nat n <= zlen m -> exists m', store e n m p v = Some m'.
Proof. intros. by apply store_is_Some. Qed.

Lemma get_bytes_ex m p n :
  0 <= p -> p + Z.of_nat n <= zlen m -> exists bs, get_bytes m p n = Some bs.
Proof. intros. by apply get_bytes_is_Some. Qed.

Lemma put_bytes_ex m p bs :
  0 <= p -> p + zlen bs <= zlen m -> exists m', put_bytes m p bs = Some m'.
Proof. intros. by apply put_bytes_is_Some. Qed.

Lemma get_same_sub m1 m2 p n q k :
  get_bytes m1 p n = get_bytes m2 p n -> 0 <= p -> p + Z.of_nat n <= zlen m2 ->
  p <= q -> q + Z.of_nat k <= p + Z.of_nat n -> get_bytes m1 q k = get_bytes m2 q k.
Proof.
  intros H ????. destruct (get_bytes_ex m2 p n) as [bs E]; [done..|].
  rewrite E in H. by rewrite (get_bytes_sub _ _ _ _ q k H), (get_bytes_sub _ _ _ _ q k E).
Qed.

Lemma mem_eq_bytes m m' :
  zlen m = zlen m' ->
  (forall i, 0 <= i < zlen m -> get_bytes m i 1 = get_bytes m' i 1) -> m = m'.
Proof.
  intros Hl H. apply list_eq. intros i. destruct (decide (Z.of_nat i < zlen m)) as [Hi|Hi].
  - specialize (H (Z.of_nat i) ltac:(lia)).
    destruct (get_bytes_ex m (Z.of_nat i) 1) as [bs E]; [lia|lia|].
    pose proof (get_bytes_lookup _ _ _ _ 0 E ltac:(lia)) as L1. rewrite H in E.
    pose proof (get_bytes_lookup _ _ _ _ 0 E ltac:(lia)) as L2.
    rewrite Nat2Z.id, Nat.add_0_r in L1, L2. congruence.
  - unfold zlen in *. by rewrite !lookup_ge_None_2 by lia.
Qed.

(** [mem_step] runs the next access of the goal, which is in bounds; a load is
    first expressed on the oldest memory that determines it. *)
Ltac mem_step :=
  mem_frame; cbn [mbind option_bind];
  lazymatch goal with
  | H : load ?e ?n ?m ?p = Some _ |- context [load ?e ?n ?m ?p ≫= _] =>
      rewrite H; cbn [mbind option_bind]
  | |- context [load ?e ?n ?m ?p ≫= _] =>
      let v := fresh "v" in let E := fresh "E" in
      destruct (load_ex e n m p) as [v E]; [mem_side|mem_side|];
      rewrite E; cbn [mbind option_bind]
  | |- context [store ?e ?n ?m ?p ?x ≫= _] =>
      let m' := fresh "m" in let E := fresh "E" in
      destruct (store_ex e n m p x) as [m' E]; [mem_side|mem_side|];
      rewrite E; cbn [mbind option_bind]; mem_len
  | H : get_bytes ?m ?p ?n = Some _ |- context [get_bytes ?m ?p ?n ≫= _] =>
      rewrite H; cbn [mbind option_bind]
  | |- context [get_bytes ?m ?p ?n ≫= _] =>
      let bs := fresh "bs" in let E := fresh "E" in
      destruct (get_bytes_ex m p n) as [bs E]; [mem_side|mem_side|];
      pose proof (length_get_bytes _ _ _ _ E);
      rewrite E; cbn [mbind option_bind]
  | |- context [put_bytes ?m ?p ?bs ≫= _] =>
      let m' := fresh "m" in let E := fresh "E" in
      destruct (put_bytes_ex m p bs) as [m' E]; [mem_side|mem_side|];
      rewrite E; cbn [mbind option_bind]; mem_len
  end.

(** Rewrites the loads of the goal whose value is known. *)
Ltac mem_known :=
  repeat match goal with
  | H : load ?e ?n ?m ?p = Some _ |- context [load ?e ?n ?m ?p] => rewrite H
  | H : get_bytes ?m ?p ?n = Some _ |- context [get_bytes ?m ?p ?n] => rewrite H
  end; cbn [default mbind option_bind from_option id].

(** Discharges the range of a loaded value, and of operations on such values. *)
Ltac mem_range :=
  first
    [ assumption
    | match goal with
      | E : load _ _ _ _ = Some ?v |- in_range _ ?v =>
          refine (load_range _ _ _ _ _ _ E); assumption
      | |- in_range _ (wrap _ _) => refine (wrap_range _ _ _); lia
      | |- in_range _ (bf_set _ _ _ _ _) =>
          refine (bf_set_byte _ _ _ _ _ _ _ _ _); [lia|lia|lia|]; unfold byte_ok; mem_range
      end ].

Ltac mem_wrap :=
  repeat match goal with
  | |- context [wrap (8 * Z.of_nat ?n) ?x] =>
      rewrite (wrap_small (8 * Z.of_nat n) x) by mem_range
  end.

(** Bit fields of a byte in which other bit fields were set. *)
Ltac mem_bits :=
  repeat first
    [ rewrite bf_get_set_other by lia
    | rewrite bf_get_set_same by
        (first [lia | unfold in_range; lia
               | match goal with e : endian |- _ => destruct e; cbn; lia end]) ].

(** ** Access to a part of a concatenation *)

Lemma load_app e n m x p :
  0 <= p -> p + Z.of_nat n <= zlen m -> load e n (m ++ x) p = load e n m p.
Proof.
  intros H0 H. unfold load, get_bytes, zlen in *. rewrite length_app.
  rewrite !decide_True by lia. cbn [mbind option_bind]. do 2 f_equal.
  rewrite drop_app_le, take_app_le by (rewrite ?length_drop; lia). done.
Qed.

Lemma get_bytes_app_r m1 m2 p n :
  0 <= p -> get_bytes (m1 ++ m2) (zlen m1 + p) n = get_bytes m2 p n.
Proof.
  intros Hp. unfold get_bytes. rewrite zlen_app. pose proof (zlen_nonneg m1).
  repeat case_decide; try lia; [|done]. do 2 f_equal. unfold zlen.
  rewrite drop_app_ge by lia. f_equal. lia.
Qed.

Lemma load_app_r e m1 m2 p n : 0 <= p -> load e n (m1 ++ m2) (zlen m1 + p) = load e n m2 p.
Proof. intros. unfold load. by rewrite get_bytes_app_r. Qed.

Lemma load_split e n v m : load e n (split e n v ++ m) 0 = Some (wrap (8 * Z.of_nat n) v).
Proof.
  unfold load, get_bytes, zlen. rewrite length_app, length_split.
  rewrite decide_True by lia. change (Z.to_nat 0) with 0%nat. rewrite drop_0.
  cbn [mbind option_bind]. rewrite take_app_length' by (by rewrite length_split). by rewrite combine_split.
Qed.
