(* ===== verification/StateMonad.v ===== *)
(** * Stateful C functions

    A computation that may fail with an error code, read outside an object
    ([None]) and change a state, with the rules that reason about it. *)

From S2P Require Export Memory.

Definition ST (S A : Type) : Type := S -> option (result A * S).

Section ops.
Context {S : Type}.

Definition ret {A} (a : A) : ST S A := fun s => Some (Ok a, s).
Definition fail {A} (e : Z) : ST S A := fun s => Some (Err e, s).
Definition get : ST S S := fun s => Some (Ok s, s).
Definition put (s : S) : ST S unit := fun _ => Some (Ok tt, s).
Definition modify (f : S -> S) : ST S unit := fun s => Some (Ok tt, f s).
(** A read that may be outside its object. *)
Definition lift {A} (o : option A) : ST S A := fun s => a ← o; Some (Ok a, s).
(** A computation without state. *)
Definition pure {A} (o : outcome A) : ST S A := fun s => r ← o; Some (r, s).

Definition bind {A B} (c : ST S A) (k : A -> ST S B) : ST S B := fun s =>
  match c s with
  | Some (Ok a, s) => k a s
  | Some (Err e, s) => Some (Err e, s)
  | None => None
  end.

(** The result of a computation as a value. *)
Definition try {A} (c : ST S A) : ST S (result A) := fun s =>
  match c s with Some (r, s) => Some (Ok r, s) | None => None end.

(** A loop over a list that stops at the first error. *)
Fixpoint each {A} (f : A -> ST S unit) (l : list A) : ST S unit :=
  match l with
  | [] => ret tt
  | a :: l => bind (f a) (fun _ => each f l)
  end.
End ops.

Notation "'let*' x ':=' c 'in' k" := (bind c (fun x => k))
  (at level 10, x pattern, c at level 200, k at level 200) : c_scope.

(** ** Reasoning

    [runs U E P c s]: from [s], [c] succeeds with [P], fails with [E], or leaves
    its objects, which implies [U]: [False] for a proof that it does not,
    [True] when it may. *)
Definition runs {S A} (U : Prop) (E : Z -> S -> Prop) (P : A -> S -> Prop) (c : ST S A) (s : S) : Prop :=
  match c s with Some (Ok a, s') => P a s' | Some (Err e, s') => E e s' | None => U end.

Section run.
Context {S : Type} (U : Prop) (E : Z -> S -> Prop).
Implicit Types s : S.

Lemma run_ret {A} (P : A -> S -> Prop) a s : P a s -> runs U E P (ret a) s.
Proof. done. Qed.

Lemma run_fail {A} (P : A -> S -> Prop) e s : E e s -> runs U E P (fail e) s.
Proof. done. Qed.

Lemma run_get (P : S -> S -> Prop) s : P s s -> runs U E P get s.
Proof. done. Qed.

Lemma run_modify (P : unit -> S -> Prop) f s : P tt (f s) -> runs U E P (modify f) s.
Proof. done. Qed.

Lemma run_lift {A} (P : A -> S -> Prop) o a s : o = Some a -> P a s -> runs U E P (lift o) s.
Proof. by intros -> ?. Qed.

Lemma run_read {A} (P : A -> S -> Prop) o s :
  (o = None -> U) -> (forall a, o = Some a -> P a s) -> runs U E P (lift o) s.
Proof. intros HU HP. unfold runs, lift. destruct o as [a|]; cbn; auto. Qed.

Lemma run_pure {A} (P : A -> S -> Prop) (o : outcome A) s :
  (o = None -> U) -> (forall e, o = Some (Err e) -> E e s) -> (forall a, o = Some (Ok a) -> P a s) -> runs U E P (pure o) s.
Proof. intros HU HE HP. unfold runs, pure. destruct o as [[a|e]|]; cbn; auto. Qed.

Lemma run_bind {A B} (P : B -> S -> Prop) (c : ST S A) (k : A -> ST S B) s :
  runs U E (fun a s => runs U E P (k a) s) c s -> runs U E P (bind c k) s.
Proof. unfold runs, bind. by destruct (c s) as [[[a|e] s']|]. Qed.

Lemma run_try {A} (P : result A -> S -> Prop) (c : ST S A) s :
  runs U (fun e => P (Err e)) (fun a => P (Ok a)) c s -> runs U E P (try c) s.
Proof. unfold runs, try. by destruct (c s) as [[[a|e] s']|]. Qed.

Lemma run_mono {A} (P Q : A -> S -> Prop) (c : ST S A) s :
  runs U E P c s -> (forall a s, P a s -> Q a s) -> runs U E Q c s.
Proof. unfold runs. destruct (c s) as [[[a|e] s']|]; auto. Qed.

Lemma run_seq {A B} (P : A -> S -> Prop) (Q : B -> S -> Prop) (c : ST S A) (k : A -> ST S B) s :
  runs U E P c s -> (forall a s, P a s -> runs U E Q (k a) s) -> runs U E Q (bind c k) s.
Proof. intros Hc Hk. apply run_bind. by eapply run_mono. Qed.

(** A loop keeps an invariant on what is left to do. *)
Lemma run_each {A} (I : list A -> S -> Prop) (f : A -> ST S unit) l s :
  (forall a l s, I (a :: l) s -> runs U E (fun _ => I l) (f a) s) -> I l s -> runs U E (fun _ => I []) (each f l) s.
Proof.
  intros Hf HI. revert s HI. induction l as [|a l IH]; intros s HI; cbn [each]; [by apply run_ret|].
  eapply run_seq; [by apply Hf|]. intros [] s' HI'. by apply IH.
Qed.
End run.

Lemma run_weaken {S A} (U : Prop) (E F : Z -> S -> Prop) (P : A -> S -> Prop) c s :
  (forall e s, E e s -> F e s) -> runs U E P c s -> runs U F P c s.
Proof. unfold runs. destruct (c s) as [[[a|e] s']|]; auto. Qed.

Lemma run_conj {S A} (U V : Prop) (E F : Z -> S -> Prop) (P Q : A -> S -> Prop) c s :
  runs U E P c s -> runs V F Q c s ->
  runs (U /\ V) (fun e s => E e s /\ F e s) (fun a s => P a s /\ Q a s) c s.
Proof. unfold runs. destruct (c s) as [[[a|e] s']|]; auto. Qed.

Lemma run_impl {S A} (U V : Prop) (E F : Z -> S -> Prop) (P Q : A -> S -> Prop) c s :
  runs U E P c s -> (U -> V) -> (forall e s, E e s -> F e s) -> (forall a s, P a s -> Q a s) -> runs V F Q c s.
Proof. unfold runs. destruct (c s) as [[[a|e] s']|]; auto. Qed.

Lemma run_elim {S A} (E : Z -> S -> Prop) (P : A -> S -> Prop) c s :
  runs False E P c s -> exists r s', c s = Some (r, s') /\ match r with Ok a => P a s' | Err e => E e s' end.
Proof. unfold runs. destruct (c s) as [[[a|e] s']|]; [eauto..|done]. Qed.

(** One step of a computation: binds, values, failures and case distinctions. *)
Ltac run_step :=
  match goal with
  | |- runs _ _ _ (bind _ _) _ => apply run_bind
  | |- runs _ _ _ (ret _) _ => apply run_ret
  | |- runs _ _ _ (fail _) _ => apply run_fail
  | |- runs _ _ _ (modify _) _ => apply run_modify
  | |- runs _ _ _ (if ?b then _ else _) _ => destruct b eqn:?
  | |- runs _ _ _ (match ?o with _ => _ end) _ => destruct o eqn:?
  end.
