(* ===== verification/Idioms.v ===== *)
(** * Kernel idioms (src/libbpf/include/linux/err.h, overflow.h, kernel.h,
      include/tools/libc_compat.h)

    Errors as pointers, and products that may not fit their type. *)

From S2P Require Export Prelude.
Open Scope Z_scope.

(** ** Errors as pointers

    A pointer is its address, an unsigned 64-bit integer. *)

Definition MAX_ERRNO := 4095.
Definition IS_ERR_VALUE (x : Z) : bool := u64 (- MAX_ERRNO) <=? x.
Definition ERR_PTR (error : Z) : Z := u64 error.
(** A conversion to [long]. *)
Definition PTR_ERR (ptr : Z) : Z := u64 (ptr + 2 ^ 63) - 2 ^ 63.
Definition IS_ERR (ptr : Z) : bool := IS_ERR_VALUE ptr.
Definition IS_ERR_OR_NULL (ptr : Z) : bool := (ptr =? 0) || IS_ERR_VALUE ptr.

Definition libbpf_get_error (ptr : Z) : Z := if IS_ERR ptr then PTR_ERR ptr else 0.

(** What a function returns that has a pointer or an error, and what its caller
    sees. *)
Definition as_pointer (r : result Z) : Z := match r with Ok ptr => ptr | Err err => ERR_PTR err end.
Definition from_pointer (ptr : Z) : result Z := if libbpf_get_error ptr =? 0 then Ok ptr else Err (libbpf_get_error ptr).

Lemma is_err_range err : - MAX_ERRNO <= err < 0 -> IS_ERR (ERR_PTR err) = true.
Proof.
  intros Hr. unfold IS_ERR, IS_ERR_VALUE, ERR_PTR. change (u64 (- MAX_ERRNO)) with (2 ^ 64 - MAX_ERRNO). apply Z.leb_le. unfold MAX_ERRNO, wrap in *.
  replace err with (err + 2 ^ 64 + (-1) * 2 ^ 64) by lia. rewrite Z_mod_plus_full, Z.mod_small by lia. lia.
Qed.

Lemma get_error_spec ptr : in_range 64 ptr ->
  libbpf_get_error ptr = (if 2 ^ 64 - MAX_ERRNO <=? ptr then ptr - 2 ^ 64 else 0).
Proof.
  unfold in_range, libbpf_get_error, IS_ERR, IS_ERR_VALUE, PTR_ERR. intros Hr. change (u64 (- MAX_ERRNO)) with (2 ^ 64 - MAX_ERRNO).
  destruct (Z.leb_spec (2 ^ 64 - MAX_ERRNO) ptr); [|done]. unfold MAX_ERRNO in *. unfold wrap.
  replace (ptr + 2 ^ 63) with (ptr - 2 ^ 63 + 1 * 2 ^ 64) by lia. rewrite Z_mod_plus_full, Z.mod_small by lia. lia.
Qed.

(** Every error, the kernel's and the library's own, comes back from a pointer
    as it went in, and so does every pointer that is not within the last 4095
    bytes of memory; [NULL] is no error. *)
Theorem err_ptr_roundtrip r :
  match r with Ok ptr => 0 <= ptr < 2 ^ 64 - MAX_ERRNO | Err err => - MAX_ERRNO <= err < 0 end ->
  from_pointer (as_pointer r) = r /\ (IS_ERR (as_pointer r) = true <-> exists err, r = Err err) /\
  (IS_ERR_OR_NULL (as_pointer r) = false <-> exists ptr, r = Ok ptr /\ ptr <> 0).
Proof.
  intros Hr. assert (in_range 64 (as_pointer r) /\ (2 ^ 64 - MAX_ERRNO <=? as_pointer r) = match r with Ok _ => false | Err _ => true end /\
    match r with Ok ptr => as_pointer r = ptr | Err err => as_pointer r = err + 2 ^ 64 end) as (Hp & Hb & Hv).
  { unfold in_range, MAX_ERRNO in *. destruct r as [ptr|err]; cbn [as_pointer]; [lia|]. unfold ERR_PTR, wrap.
    replace err with (err + 2 ^ 64 + (-1) * 2 ^ 64) at 1 2 3 4 by lia. rewrite Z_mod_plus_full, Z.mod_small by lia. lia. }
  unfold from_pointer. rewrite get_error_spec by done. unfold IS_ERR_OR_NULL, IS_ERR, IS_ERR_VALUE. change (u64 (- MAX_ERRNO)) with (2 ^ 64 - MAX_ERRNO).
  rewrite Hb. unfold MAX_ERRNO in *. destruct r as [ptr|err]; rewrite Hv.
  - cbn [Z.eqb]. split; [done|]. split; [split; [done|intros [? ?]; done]|]. rewrite orb_false_r. destruct (Z.eqb_spec ptr 0).
    + split; [done|]. intros (? & [= <-] & ?). done.
    + split; [by exists ptr|done].
  - rewrite (proj2 (Z.eqb_neq (err + 2 ^ 64 - 2 ^ 64) 0)) by lia. split; [f_equal; lia|]. split; [by split; [exists err|]|].
    rewrite orb_true_r. split; [done|]. by intros (? & ? & _).
Qed.

Lemma err_ptr_roundtrip_witness :
  from_pointer (as_pointer (Err (-4013))) = Err (-4013) /\ (IS_ERR (as_pointer (Err (-4013))) = true <-> exists err, (Err (-4013) : result Z) = Err err) /\
  (IS_ERR_OR_NULL (as_pointer (Err (-4013))) = false <-> exists ptr, (Err (-4013) : result Z) = Ok ptr /\ ptr <> 0).
Proof. apply (err_ptr_roundtrip (Err (-4013))). unfold MAX_ERRNO. lia. Defined.

(** ** Products

    An integer type has a width and may have a sign. *)

Record int_type := IntType { bits : Z; is_signed_type : bool }.
Definition size_t : int_type := IntType 64 false.

Definition conv (t : int_type) (x : Z) : Z :=
  let w := bits t in if is_signed_type t then wrap w (x + 2 ^ (w - 1)) - 2 ^ (w - 1) else wrap w x.
Definition in_type (t : int_type) (x : Z) : Prop :=
  let w := bits t in if is_signed_type t then - 2 ^ (w - 1) <= x < 2 ^ (w - 1) else 0 <= x < 2 ^ w.

Definition __type_half_max (t : int_type) : Z := conv t (Z.shiftl 1 (bits t - 1 - (if is_signed_type t then 1 else 0))).
Definition type_max (t : int_type) : Z := conv t ((__type_half_max t - 1) + __type_half_max t).
Definition type_min (t : int_type) : Z := conv t (conv t (- type_max t) - conv t 1).

(** Whether it overflows, and what is stored.  [constant] is
    [__builtin_constant_p]; a division truncates. *)
Definition __unsigned_mul_overflow (t : int_type) (constant : bool) (a b : Z) : bool * Z :=
  (if constant then (0 <? b) && (Z.quot (type_max t) b <? a) else (0 <? a) && (Z.quot (type_max t) a <? b), conv t (a * b)).
Definition __signed_mul_overflow (t : int_type) (a b : Z) : bool * Z :=
  let tmax := type_max t in
  let tmin := type_min t in
  (((0 <? b) && ((Z.quot tmax b <? a) || (a <? Z.quot tmin b)))
   || ((b <? -1) && ((Z.quot tmin b <? a) || (a <? Z.quot tmax b)))
   || ((b =? -1) && (a =? tmin)), conv t (u64 (u64 a * u64 b))).
Definition check_mul_overflow (t : int_type) (constant : bool) (a b : Z) : bool * Z :=
  if is_signed_type t then __signed_mul_overflow t a b else __unsigned_mul_overflow t constant a b.

Section array.
(** [realloc] of so many bytes, [None] is [NULL]. *)
Context {P : Type} (realloc : P -> Z -> option P).
Definition reallocarray (constant : bool) (ptr : P) (nmemb size : Z) : option P :=
  let '(overflow, bytes) := check_mul_overflow size_t constant nmemb size in
  if overflow then None else realloc ptr bytes.
End array.

Definition machine_type (t : int_type) : Prop := bits t ∈ [8; 16; 32; 64].

Lemma type_bounds t : machine_type t ->
  type_max t = (if is_signed_type t then 2 ^ (bits t - 1) - 1 else 2 ^ bits t - 1) /\
  type_min t = (if is_signed_type t then - 2 ^ (bits t - 1) else 0) /\ 2 ^ bits t = 2 * 2 ^ (bits t - 1) /\ 0 < 2 ^ (bits t - 1).
Proof.
  destruct t as [w s]. unfold machine_type. cbn [bits is_signed_type].
  rewrite !elem_of_cons. intros [->|[->|[->|[->|Hn]]]]; [by destruct s..|by apply not_elem_of_nil in Hn].
Qed.

Lemma conv_in t x : machine_type t -> in_type t x -> conv t x = x.
Proof.
  intros (_ & _ & Hw & Hp)%type_bounds. unfold in_type, conv, wrap. destruct (is_signed_type t); intros Hx; rewrite Z.mod_small by lia; lia.
Qed.

(** Conversions only look at the low bits. *)
Lemma conv_u64 t x y : machine_type t -> x mod 2 ^ 64 = y mod 2 ^ 64 -> conv t x = conv t y.
Proof.
  intros Ht Hxy. assert ((2 ^ bits t | 2 ^ 64)) as Hd.
  { destruct t as [w s]. unfold machine_type in Ht. cbn [bits] in *. rewrite !elem_of_cons in Ht.
    destruct Ht as [->|[->|[->|[->|Hn]]]]; [exists (2 ^ 56)|exists (2 ^ 48)|exists (2 ^ 32)|exists 1|by apply not_elem_of_nil in Hn]; done. }
  assert (x mod 2 ^ bits t = y mod 2 ^ bits t) as E by (rewrite <- (Z.mod_mod_divide x _ _ Hd), <- (Z.mod_mod_divide y _ _ Hd); by f_equal).
  unfold conv, wrap. destruct (is_signed_type t); [|done]. f_equal. rewrite (Zplus_mod x), (Zplus_mod y). by rewrite E.
Qed.

(** [q] is the last factor of [b] that stays within [m]. *)
Lemma quot_pos m b a : 0 < b -> 0 <= m -> (Z.quot m b < a <-> m < a * b).
Proof. intros Hb Hm. pose proof (Z.quot_rem' m b). pose proof (Z.rem_bound_pos m b Hm Hb). nia. Qed.
Lemma quot_neg m b a : 0 < b -> m <= 0 -> (a < Z.quot m b <-> a * b < m).
Proof. intros Hb Hm. pose proof (quot_pos (- m) b (- a) Hb ltac:(lia)) as H. rewrite Z.quot_opp_l in H by lia. lia. Qed.

Lemma quot_below m b a : b < 0 -> m <= 0 -> (Z.quot m b < a <-> a * b < m).
Proof. intros Hb Hm. pose proof (quot_pos (- m) (- b) a ltac:(lia) ltac:(lia)) as H. rewrite Z.quot_opp_opp in H by lia. lia. Qed.
Lemma quot_above m b a : b < 0 -> 0 <= m -> (a < Z.quot m b <-> m < a * b).
Proof. intros Hb Hm. pose proof (quot_neg (- m) (- b) a ltac:(lia) ltac:(lia)) as H. rewrite Z.quot_opp_opp in H by lia. lia. Qed.

Ltac to_props := repeat rewrite ?orb_true_iff, ?andb_true_iff, ?Z.ltb_lt, ?Z.eqb_eq.

Lemma check_mul_overflow_run t constant a b : machine_type t -> in_type t a -> in_type t b ->
  let '(overflow, d) := check_mul_overflow t constant a b in
  (overflow = true <-> ~ in_type t (a * b)) /\ d = conv t (a * b) /\ (overflow = false -> d = a * b).
Proof.
  intros Ht Ha Hb. pose proof (type_bounds t Ht) as (Emax & Emin & Hw & Hp).
  destruct (check_mul_overflow t constant a b) as [overflow d] eqn:E.
  assert ((overflow = true <-> ~ in_type t (a * b)) /\ d = conv t (a * b)) as [Ho Hd].
  2: { split; [done|]. split; [done|]. intros ->. rewrite Hd. apply conv_in; [done|].
       assert (~ ~ in_type t (a * b)) as Hin by (by intros Hn%Ho). unfold in_type in *. destruct (is_signed_type t); lia. }
  unfold check_mul_overflow in E. unfold in_type in *. destruct (is_signed_type t) eqn:Es; injection E as <- <-.
  - split; [|apply conv_u64; [done|]; unfold wrap; rewrite Z.mod_mod by done; symmetry; apply Zmult_mod]. rewrite Emax, Emin. to_props.
    set (h := 2 ^ (bits t - 1)) in *. destruct (Z.lt_trichotomy b 0) as [Hn|[->|Hpos]]; [|lia|].
    + destruct (Z.eq_dec b (-1)) as [->|Hne]; [lia|].
      rewrite (quot_below (- h) b a), (quot_above (h - 1) b a) by lia. lia.
    + rewrite (quot_pos (h - 1) b a), (quot_neg (- h) b a) by lia. lia.
  - split; [|done]. rewrite Emax. set (m := 2 ^ bits t) in *. destruct constant; to_props.
    + destruct (Z.eq_dec b 0) as [->|]; [lia|]. rewrite (quot_pos (m - 1) b a) by lia. nia.
    + destruct (Z.eq_dec a 0) as [->|]; [lia|]. rewrite (quot_pos (m - 1) a b) by lia. nia.
Qed.


