(* ===== verification/Qsort.v ===== *)
(** * [qsort]

    The C library's sort as a class with its laws, and an insertion sort that
    obeys them. *)

From S2P Require Export Prelude.
From Stdlib Require Export Sorting.Permutation Sorting.Sorted.

(** [qsort]: sorts an array by a comparison that is a total preorder; elements
    that compare equal come in any order. *)
Class Qsort := qsort : forall A : Type, (A -> A -> Z) -> list A -> list A.
Arguments qsort {_ A} _ _.

Class QsortLaws (Q : Qsort) : Prop := {
  qsort_permutation A (cmp : A -> A -> Z) l : Permutation (qsort cmp l) l;
  qsort_sorted A (cmp : A -> A -> Z) l :
    (forall a b, In a l -> In b l -> 0 <= cmp a b \/ 0 <= cmp b a) ->
    (forall a b, In a l -> In b l -> cmp a b <= 0 \/ cmp b a <= 0) ->
    (forall a b c, In a l -> In b l -> In c l -> cmp a b <= 0 -> cmp b c <= 0 -> cmp a c <= 0) ->
    StronglySorted (fun a b => cmp a b <= 0) (qsort cmp l)
}.

(** *** An insertion sort *)

Fixpoint insert_sorted {A} (cmp : A -> A -> Z) (x : A) (l : list A) : list A :=
  match l with
  | [] => [x]
  | y :: l => if cmp x y <=? 0 then x :: y :: l else y :: insert_sorted cmp x l
  end.
Definition insertion_sort : Qsort := fun A cmp l => foldr (insert_sorted cmp) [] l.

Lemma insert_Permutation {A} (cmp : A -> A -> Z) x l : Permutation (insert_sorted cmp x l) (x :: l).
Proof.
  induction l as [|y l IH]; cbn; [done|]. destruct (_ <=? _); [done|]. rewrite IH. apply perm_swap.
Qed.

Lemma insertion_sort_Permutation {A} (cmp : A -> A -> Z) l : Permutation (foldr (insert_sorted cmp) [] l) l.
Proof. induction l as [|x l IH]; cbn; [done|]. rewrite insert_Permutation. by constructor. Qed.

Lemma insert_StronglySorted {A} (cmp : A -> A -> Z) x l :
  (forall y, In y l -> cmp x y <= 0 \/ cmp y x <= 0) ->
  (forall y z, In y l -> In z l -> cmp x y <= 0 -> cmp y z <= 0 -> cmp x z <= 0) ->
  StronglySorted (fun a b => cmp a b <= 0) l -> StronglySorted (fun a b => cmp a b <= 0) (insert_sorted cmp x l).
Proof.
  intros Htot Htr Hl. induction Hl as [|y l Hl IH Hy]; cbn; [by repeat constructor|].
  destruct (Z.leb_spec (cmp x y) 0) as [Hle|Hgt].
  - constructor; [by constructor|]. constructor; [done|]. rewrite List.Forall_forall in Hy |- *. intros z Hz.
    apply (Htr y z); [by left|by right|done|by apply Hy].
  - constructor.
    + apply IH; [intros z Hz; apply Htot; by right|]. intros z w Hz Hw. apply Htr; by right.
    + rewrite insert_Permutation. constructor; [|done]. destruct (Htot y); [by left|lia|done].
Qed.

#[export] Instance insertion_sort_laws : QsortLaws insertion_sort.
Proof.
  split; unfold qsort, insertion_sort; [apply @insertion_sort_Permutation|].
  intros A cmp l _. induction l as [|x l IH]; intros Htot Htr; cbn; [constructor|].
  assert (forall y, In y (foldr (insert_sorted cmp) [] l) -> In y l) as Hin.
  { intros y. apply Permutation_in, insertion_sort_Permutation. }
  apply insert_StronglySorted.
  - intros y Hy%Hin. apply Htot; [by left|by right].
  - intros y z Hy%Hin Hz%Hin. apply Htr; [by left|by right|by right].
  - apply IH; [intros a b Ha Hb; apply Htot|intros a b c Ha Hb Hc; apply Htr]; by right.
Qed.
