(* ===== verification/Headers.v ===== *)
(** * Packet headers (src/src/headers.h)

    The packed header structures as byte layouts, the record of their fields,
    and [headers_t], the three header pointers of a packet.  A pointer into
    the packet is its offset from [ctx->data]; [None] is the NULL pointer. *)

From S2P Require Export Memory.

(** ** Fields of a packed structure *)

(** A member stored in whole bytes: its offset and its size. *)
Record field := Field { f_off : Z; f_len : nat }.
(** A bit field inside one byte: the byte, the number of bits declared before
    it in that byte, and its width. *)
Record bitfield := Bitfield { b_byte : Z; b_pos : Z; b_width : Z }.

Definition fld_get (e : endian) (m : list Z) (p : Z) (f : field) : option Z :=
  load e (f_len f) m (p + f_off f).
Definition fld_set (e : endian) (m : list Z) (p : Z) (f : field) (v : Z) : option (list Z) :=
  store e (f_len f) m (p + f_off f) v.
Definition bit_get (e : endian) (m : list Z) (p : Z) (f : bitfield) : option Z :=
  b ← load e 1 m (p + b_byte f); Some (bf_get e b (b_pos f) (b_width f)).
Definition bit_set (e : endian) (m : list Z) (p : Z) (f : bitfield) (v : Z) : option (list Z) :=
  b ← load e 1 m (p + b_byte f);
  store e 1 m (p + b_byte f) (bf_set e b (b_pos f) (b_width f) v).

(** ** struct ethernet_t *)
Definition sizeof_ethernet_t : Z := 14.
Definition eth_dst_addr : Z := 0.
Definition eth_src_addr : Z := 6.
Definition eth_ether_type : field := Field 12 2.

(** ** struct ipv4_t *)
Definition sizeof_ipv4_t : Z := 20.
Definition ip_version := Bitfield 0 0 4.
Definition ip_ihl := Bitfield 0 4 4.
Definition ip_dscp := Bitfield 1 0 6.
Definition ip_ecn := Bitfield 1 6 2.
Definition ip_total_len := Field 2 2.
Definition ip_identification := Field 4 2.
(** [flags] : 3 and [frag_offset] : 13 share the two bytes at offset 6. *)
Definition ip_frag_word := Field 6 2.
Definition ip_ttl := Field 8 1.
Definition ip_protocol := Field 9 1.
Definition ip_hdr_checksum := Field 10 2.
Definition ip_src_addr := Field 12 4.
Definition ip_dst_addr := Field 16 4.

(** ** struct tcp_t *)
Definition sizeof_tcp_t : Z := 20.
Definition tcp_src_port := Field 0 2.
Definition tcp_dst_port := Field 2 2.
Definition tcp_seq_no := Field 4 4.
Definition tcp_ack_no := Field 8 4.
Definition tcp_data_offset := Bitfield 12 0 4.
Definition tcp_res := Bitfield 12 4 4.
Definition tcp_cwr := Bitfield 13 0 1.
Definition tcp_ece := Bitfield 13 1 1.
Definition tcp_urg := Bitfield 13 2 1.
Definition tcp_ack := Bitfield 13 3 1.
Definition tcp_psh := Bitfield 13 4 1.
Definition tcp_rst := Bitfield 13 5 1.
Definition tcp_syn := Bitfield 13 6 1.
Definition tcp_fin := Bitfield 13 7 1.
Definition tcp_window := Field 14 2.
Definition tcp_checksum := Field 16 2.
Definition tcp_urgent_ptr := Field 18 2.

(** ** struct connection_t *)
Record connection_t := Connection {
  src_addr : Z; dst_addr : Z; src_port : Z; dst_port : Z }.
Definition sizeof_connection_t : Z := 12.

#[export] Instance connection_t_eq_dec : EqDecision connection_t.
Proof. solve_decision. Defined.

(** The object representation of a connection: what the map helpers read
    when they are given its address.  The structure has no padding. *)
Definition connection_bytes (e : endian) (c : connection_t) : list Z :=
  split e 4 (src_addr c) ++ split e 4 (dst_addr c)
  ++ split e 2 (src_port c) ++ split e 2 (dst_port c).

(** ** struct headers_t and struct hdr_cursor *)
Record headers_t := Headers {
  ether : option Z; ipv4 : option Z; tcp : option Z }.
Record hdr_cursor := Cursor { pos : Z }.

(** ** The fields as records *)

Record ethernet_fields := Ethernet {
  e_dst : list Z; e_src : list Z; e_type : Z }.
Record ipv4_fields := Ipv4 {
  i_version : Z; i_ihl : Z; i_dscp : Z; i_ecn : Z; i_total_len : Z; i_id : Z;
  i_frag : Z; i_ttl : Z; i_protocol : Z; i_checksum : Z; i_src : Z; i_dst : Z }.
Record tcp_flags := Flags {
  t_cwr : Z; t_ece : Z; t_urg : Z; t_ack : Z; t_psh : Z; t_rst : Z; t_syn : Z; t_fin : Z }.
Record tcp_fields := Tcp {
  t_src : Z; t_dst : Z; t_seq : Z; t_ackno : Z; t_offset : Z; t_res : Z;
  t_flags : tcp_flags; t_window : Z; t_checksum : Z; t_urgent : Z }.

(** A packet as the program sees it: three headers and what follows. *)
Record frame := Frame {
  fr_eth : ethernet_fields; fr_ip : ipv4_fields; fr_tcp : tcp_fields;
  fr_payload : list Z }.

Definition peek (e : endian) (m : list Z) (p : Z) (f : field) : Z :=
  default 0 (fld_get e m p f).
Definition peek_bit (e : endian) (m : list Z) (p : Z) (f : bitfield) : Z :=
  default 0 (bit_get e m p f).

Definition read_ethernet (e : endian) (m : list Z) (p : Z) : ethernet_fields :=
  Ethernet (default [] (get_bytes m (p + eth_dst_addr) 6))
           (default [] (get_bytes m (p + eth_src_addr) 6))
           (peek e m p eth_ether_type).

Definition read_ipv4 (e : endian) (m : list Z) (p : Z) : ipv4_fields :=
  Ipv4 (peek_bit e m p ip_version) (peek_bit e m p ip_ihl)
       (peek_bit e m p ip_dscp) (peek_bit e m p ip_ecn)
       (peek e m p ip_total_len) (peek e m p ip_identification)
       (peek e m p ip_frag_word) (peek e m p ip_ttl) (peek e m p ip_protocol)
       (peek e m p ip_hdr_checksum) (peek e m p ip_src_addr) (peek e m p ip_dst_addr).

Definition read_flags (e : endian) (m : list Z) (p : Z) : tcp_flags :=
  Flags (peek_bit e m p tcp_cwr) (peek_bit e m p tcp_ece) (peek_bit e m p tcp_urg)
        (peek_bit e m p tcp_ack) (peek_bit e m p tcp_psh) (peek_bit e m p tcp_rst)
        (peek_bit e m p tcp_syn) (peek_bit e m p tcp_fin).

Definition read_tcp (e : endian) (m : list Z) (p : Z) : tcp_fields :=
  Tcp (peek e m p tcp_src_port) (peek e m p tcp_dst_port)
      (peek e m p tcp_seq_no) (peek e m p tcp_ack_no)
      (peek_bit e m p tcp_data_offset) (peek_bit e m p tcp_res)
      (read_flags e m p)
      (peek e m p tcp_window) (peek e m p tcp_checksum) (peek e m p tcp_urgent_ptr).

(** The frame of a packet long enough for the three headers. *)
Definition read_frame (e : endian) (m : list Z) : option frame :=
  if decide (54 <= zlen m)
  then Some (Frame (read_ethernet e m 0) (read_ipv4 e m 14) (read_tcp e m 34)
                   (drop 54 m))
  else None.

(** Unfolds field accesses down to loads and stores at numeric offsets. *)
Ltac unfold_fields :=
  cbv [fld_get fld_set bit_get bit_set peek peek_bit
       read_ethernet read_ipv4 read_flags read_tcp
       f_off f_len b_byte b_pos b_width
       sizeof_ethernet_t eth_dst_addr eth_src_addr eth_ether_type
       sizeof_ipv4_t ip_version ip_ihl ip_dscp ip_ecn ip_total_len ip_identification
       ip_frag_word ip_ttl ip_protocol ip_hdr_checksum ip_src_addr ip_dst_addr
       sizeof_tcp_t tcp_src_port tcp_dst_port tcp_seq_no tcp_ack_no tcp_data_offset
       tcp_res tcp_cwr tcp_ece tcp_urg tcp_ack tcp_psh tcp_rst tcp_syn tcp_fin
       tcp_window tcp_checksum tcp_urgent_ptr].

(** ** The headers are exactly the bytes of the packet *)

Lemma read_frame_is_Some e m : is_Some (read_frame e m) <-> 54 <= zlen m.
Proof. unfold read_frame. case_decide; split; try done; by intros [? ?]. Qed.

Lemma peek_range e m p f :
  bytes_ok m -> in_range (8 * Z.of_nat (f_len f)) (peek e m p f).
Proof.
  intros Hm. unfold peek, fld_get.
  destruct (load _ _ _ _) eqn:E; cbn; [by eapply load_range|].
  unfold in_range. lia.
Qed.

Lemma peek_bit_range e m p f :
  0 <= b_width f -> in_range (b_width f) (peek_bit e m p f).
Proof.
  intros. unfold peek_bit, bit_get. destruct (load _ _ _ _); cbn.
  - by apply bf_get_range.
  - unfold in_range. lia.
Qed.
