(* ===== verification/Parser.v ===== *)
(** * Header parsers of the XDP program (src/src/parser.h)

    Each parser takes the cursor, the end of the packet and the address of the
    header pointer to fill in, and returns the next protocol or -1 together
    with the cursor and the pointer it left. *)

From S2P Require Export Headers.

(** An out-parameter [struct x **p]: [None] when the caller passed NULL,
    [Some q] when [*p] currently holds [q]. *)
Abbreviation out_ptr := (option (option Z)).

(** [if (p != NULL) *p = v;] *)
Definition assign_out (p : out_ptr) (v : Z) : out_ptr :=
  match p with Some _ => Some (Some v) | None => None end.

Section parser.
Context (e : endian) (m : list Z).

Definition parse_ether (nh : hdr_cursor) (data_end : Z) (etherhdr : out_ptr)
  : option (Z * hdr_cursor * out_ptr) :=
  let ptr := pos nh in
  if data_end <? ptr + sizeof_ethernet_t then Some (-1, nh, etherhdr)
  else
    ether_type ← fld_get e m ptr eth_ether_type;
    Some (ether_type, Cursor (ptr + sizeof_ethernet_t), assign_out etherhdr ptr).

Definition parse_ipv4 (nh : hdr_cursor) (data_end : Z) (iphdr : out_ptr)
  : option (Z * hdr_cursor * out_ptr) :=
  let ptr := pos nh in
  if data_end <? ptr + sizeof_ipv4_t then Some (-1, nh, iphdr)
  else
    protocol ← fld_get e m ptr ip_protocol;
    Some (protocol, Cursor (ptr + sizeof_ipv4_t), assign_out iphdr ptr).

(** Reads nothing of the packet: there is no next header. *)
Definition parse_tcphdr (nh : hdr_cursor) (data_end : Z) (tcphdr : out_ptr)
  : Z * hdr_cursor * out_ptr :=
  let ptr := pos nh in
  if data_end <? ptr + sizeof_tcp_t then (-1, nh, tcphdr)
  else (0, Cursor (ptr + sizeof_tcp_t), assign_out tcphdr ptr).
End parser.

(** A parser never faults when the cursor is at or after the packet's start. *)
Lemma parse_ether_total e m nh out :
  0 <= pos nh ->
  parse_ether e m nh (zlen m) out =
    if zlen m <? pos nh + 14 then Some (-1, nh, out)
    else Some (peek e m (pos nh) eth_ether_type, Cursor (pos nh + 14),
               assign_out out (pos nh)).
Proof.
  intros. unfold parse_ether. unfold_fields.
  destruct (Z.ltb_spec (zlen m) (pos nh + 14)); [done|]. by mem_step.
Qed.

Lemma parse_ipv4_total e m nh out :
  0 <= pos nh ->
  parse_ipv4 e m nh (zlen m) out =
    if zlen m <? pos nh + 20 then Some (-1, nh, out)
    else Some (peek e m (pos nh) ip_protocol, Cursor (pos nh + 20),
               assign_out out (pos nh)).
Proof.
  intros. unfold parse_ipv4. unfold_fields.
  destruct (Z.ltb_spec (zlen m) (pos nh + 20)); [done|]. by mem_step.
Qed.
