(* ===== verification/Controller.v ===== *)
(** * The SYN-cookie controller (src/src/controller.c)

    The handlers run on a packet and on the BPF map of validated connections.
    The map is kernel code: the section takes its two operations as a class. *)

From S2P Require Export Parser.

(** ** XDP verdicts (enum xdp_action) *)
Inductive xdp_action :=
| XDP_ABORTED | XDP_DROP | XDP_PASS | XDP_TX | XDP_REDIRECT.

#[export] Instance xdp_action_eq_dec : EqDecision xdp_action.
Proof. solve_decision. Defined.

(** ** BPF maps, seen from a program

    [bpf_map_lookup_elem] returns a pointer to the value or NULL;
    [bpf_map_update_elem] returns 0 or a negative error. *)
Class BpfMap (T : Type) := {
  bpf_map_lookup_elem : T -> list Z -> option (list Z);
  bpf_map_update_elem : T -> list Z -> list Z -> Z -> T * Z }.

Definition BPF_ANY : Z := 0.

(** What the helpers promise: an element just stored under a key is found
    under that key (linux/bpf.h: "Add or update the value of the entry
    associated to key"). *)
Class BpfMapLaws (T : Type) `{BpfMap T} : Prop :=
  lookup_update_same (t t' : T) (k v : list Z) :
    bpf_map_update_elem t k v BPF_ANY = (t', 0) -> bpf_map_lookup_elem t' k = Some v.

Section controller.
Context {T : Type} `{!BpfMap T} (e : endian).

(** The value stored under every key: [char insert = 'a'] . *)
Definition insert : list Z := [97].

(** [handle_ack] passes [&connection], the address of its own parameter,
    where the map expects the address of a [struct connection_t].  The map
    therefore reads the [sizeof_connection_t] bytes found at that stack
    slot; the compiler chooses what they are. *)
Variable amp_connection : list Z.

Definition compute_connection (m : list Z) (hdr : headers_t) : option connection_t :=
  ip ← ipv4 hdr;
  sa ← fld_get e m ip ip_src_addr;
  da ← fld_get e m ip ip_dst_addr;
  th ← tcp hdr;
  sp ← fld_get e m th tcp_src_port;
  dp ← fld_get e m th tcp_dst_port;
  Some (Connection sa da sp dp).

Definition compute_cookie (m : list Z) (hdr : headers_t) : option Z :=
  th ← tcp hdr;
  sp ← fld_get e m th tcp_src_port;
  let auth := u32 (Z.shiftl sp 16) in
  dp ← fld_get e m th tcp_dst_port;
  let auth := Z.lor auth dp in
  ip ← ipv4 hdr;
  sa ← fld_get e m ip ip_src_addr;
  let auth := Z.lxor auth sa in
  da ← fld_get e m ip ip_dst_addr;
  let auth := Z.lxor auth da in
  Some auth.

Definition handle_syn (m : list Z) (hdr : headers_t) (cookie : Z)
  : option (xdp_action * list Z) :=
  (* MAC *)
  eth ← ether hdr;
  tmp_addr ← get_bytes m (eth + eth_src_addr) 6;
  src ← get_bytes m (eth + eth_src_addr) 6;
  m ← put_bytes m (eth + eth_dst_addr) src;
  tmp_addr ← get_bytes m (eth + eth_dst_addr) 6;
  (* IP *)
  ip ← ipv4 hdr;
  ipaddr ← fld_get e m ip ip_src_addr;
  da ← fld_get e m ip ip_dst_addr;
  m ← fld_set e m ip ip_src_addr da;
  m ← fld_set e m ip ip_dst_addr ipaddr;
  (* TCP *)
  th ← tcp hdr;
  seq_no ← fld_get e m th tcp_seq_no;
  m ← fld_set e m th tcp_ack_no (seq_no ⊞ 1);
  m ← fld_set e m th tcp_seq_no cookie;
  m ← bit_set e m th tcp_ack 1;
  tcpport ← fld_get e m th tcp_src_port;
  dp ← fld_get e m th tcp_dst_port;
  m ← fld_set e m th tcp_src_port dp;
  m ← fld_set e m th tcp_dst_port tcpport;
  Some (XDP_TX, m).

Definition handle_ack (m : list Z) (tbl : T) (hdr : headers_t)
  : option (xdp_action * list Z * T) :=
  let (tbl, _) := bpf_map_update_elem tbl amp_connection insert BPF_ANY in
  (* MAC *)
  eth ← ether hdr;
  tmp_addr ← get_bytes m (eth + eth_src_addr) 6;
  src ← get_bytes m (eth + eth_src_addr) 6;
  m ← put_bytes m (eth + eth_dst_addr) src;
  tmp_addr ← get_bytes m (eth + eth_dst_addr) 6;
  (* IP *)
  ip ← ipv4 hdr;
  ipaddr ← fld_get e m ip ip_src_addr;
  da ← fld_get e m ip ip_dst_addr;
  m ← fld_set e m ip ip_src_addr da;
  m ← fld_set e m ip ip_dst_addr ipaddr;
  (* swap seqNo and ackNo *)
  th ← tcp hdr;
  seq_no ← fld_get e m th tcp_seq_no;
  ack_no ← fld_get e m th tcp_ack_no;
  m ← fld_set e m th tcp_seq_no ack_no;
  m ← fld_set e m th tcp_ack_no (seq_no ⊞ 1);
  (* return ack *)
  m ← bit_set e m th tcp_ack 1;
  m ← bit_set e m th tcp_syn 0;
  (* swap ports *)
  tcpport ← fld_get e m th tcp_src_port;
  dp ← fld_get e m th tcp_dst_port;
  m ← fld_set e m th tcp_src_port dp;
  m ← fld_set e m th tcp_dst_port tcpport;
  Some (XDP_TX, m, tbl).

Definition controller (m : list Z) (tbl : T) (hdr : headers_t)
  : option (xdp_action * list Z * T) :=
  connection ← compute_connection m hdr;
  match bpf_map_lookup_elem tbl (connection_bytes e connection) with
  | Some _ => Some (XDP_PASS, m, tbl)
  | None =>
    cookie ← compute_cookie m hdr;
    th ← tcp hdr;
    syn ← bit_get e m th tcp_syn;
    ack ← bit_get e m th tcp_ack;
    res ← bit_get e m th tcp_res;
    cwr ← bit_get e m th tcp_cwr;
    ece ← bit_get e m th tcp_ece;
    urg ← bit_get e m th tcp_urg;
    psh ← bit_get e m th tcp_psh;
    rst ← bit_get e m th tcp_rst;
    fin ← bit_get e m th tcp_fin;
    ack_no ← fld_get e m th tcp_ack_no;
    if ((syn =? 1) && (ack =? 1)) || (res =? 1) || (cwr =? 1) || (ece =? 1)
       || (urg =? 1) || (psh =? 1) || (rst =? 1) || (fin =? 1)
    then Some (XDP_DROP, m, tbl)
    else if syn =? 1 then
      r ← handle_syn m hdr cookie; Some (r.1, r.2, tbl)
    else if (ack =? 1) && (ack_no ⊟ 1 =? cookie) then handle_ack m tbl hdr
    else Some (XDP_DROP, m, tbl)
  end.
End controller.

(** ** The controller on frames *)

Definition connection_of (f : frame) : connection_t :=
  Connection (i_src (fr_ip f)) (i_dst (fr_ip f)) (t_src (fr_tcp f)) (t_dst (fr_tcp f)).

Definition cookie_of (f : frame) : Z :=
  Z.lxor (Z.lxor (Z.lor (u32 (Z.shiftl (t_src (fr_tcp f)) 16)) (t_dst (fr_tcp f)))
                 (i_src (fr_ip f))) (i_dst (fr_ip f)).

Definition swap_ip (i : ipv4_fields) : ipv4_fields :=
  Ipv4 (i_version i) (i_ihl i) (i_dscp i) (i_ecn i) (i_total_len i) (i_id i)
       (i_frag i) (i_ttl i) (i_protocol i) (i_checksum i) (i_dst i) (i_src i).

(** What both replies do to the link layer: the source address of the request
    becomes the destination, and stays the source. *)
Definition reply_eth (h : ethernet_fields) : ethernet_fields :=
  Ethernet (e_src h) (e_src h) (e_type h).

Definition with_syn_ack (syn ack : Z) (g : tcp_flags) : tcp_flags :=
  Flags (t_cwr g) (t_ece g) (t_urg g) ack (t_psh g) (t_rst g) syn (t_fin g).

Definition syn_reply (cookie : Z) (f : frame) : frame :=
  let t := fr_tcp f in
  Frame (reply_eth (fr_eth f)) (swap_ip (fr_ip f))
    (Tcp (t_dst t) (t_src t) cookie (t_seq t ⊞ 1) (t_offset t) (t_res t)
         (with_syn_ack (t_syn (t_flags t)) 1 (t_flags t))
         (t_window t) (t_checksum t) (t_urgent t))
    (fr_payload f).

Definition ack_reply (f : frame) : frame :=
  let t := fr_tcp f in
  Frame (reply_eth (fr_eth f)) (swap_ip (fr_ip f))
    (Tcp (t_dst t) (t_src t) (t_ackno t) (t_seq t ⊞ 1) (t_offset t) (t_res t)
         (with_syn_ack 0 1 (t_flags t))
         (t_window t) (t_checksum t) (t_urgent t))
    (fr_payload f).

(** The three headers of a packet whose parsing succeeded. *)
Definition parsed : headers_t := Headers (Some 0) (Some 14) (Some 34).

(** The decision table of [controller], on a frame and the map. *)
Section spec.
Context {T : Type} `{!BpfMap T} (e : endian).
Variable amp_connection : list Z.

Definition known (tbl : T) (f : frame) : bool :=
  bool_decide (is_Some (bpf_map_lookup_elem tbl (connection_bytes e (connection_of f)))).

(** A flag no SYN and no final ACK of a handshake may carry. *)
Definition unexpected_flags (t : tcp_fields) : bool :=
  let g := t_flags t in
  ((t_syn g =? 1) && (t_ack g =? 1)) || (t_res t =? 1) || (t_cwr g =? 1)
  || (t_ece g =? 1) || (t_urg g =? 1) || (t_psh g =? 1) || (t_rst g =? 1)
  || (t_fin g =? 1).

Definition valid_ack (f : frame) : bool :=
  let t := fr_tcp f in (t_ack (t_flags t) =? 1) && (t_ackno t ⊟ 1 =? cookie_of f).

Definition controller_spec (tbl : T) (f : frame) : xdp_action * frame * T :=
  if known tbl f then (XDP_PASS, f, tbl)
  else if unexpected_flags (fr_tcp f) then (XDP_DROP, f, tbl)
  else if t_syn (t_flags (fr_tcp f)) =? 1 then (XDP_TX, syn_reply (cookie_of f) f, tbl)
  else if valid_ack f then
    (XDP_TX, ack_reply f, (bpf_map_update_elem tbl amp_connection insert BPF_ANY).1)
  else (XDP_DROP, f, tbl).
End spec.

Section proofs.
Context {T : Type} `{!BpfMap T} (e : endian).
Variable amp_connection : list Z.

(** Compares the frame of the packet a handler left with a reply. *)
Ltac compare_frames :=
  unfold read_frame; rewrite decide_True by mem_side; f_equal;
  unfold syn_reply, ack_reply, reply_eth, swap_ip, with_syn_ack; unfold_fields;
  cbn [fr_eth fr_ip fr_tcp fr_payload e_dst e_src e_type i_version i_ihl i_dscp i_ecn
       i_total_len i_id i_frag i_ttl i_protocol i_checksum i_src i_dst t_src t_dst
       t_seq t_ackno t_offset t_res t_flags t_window t_checksum t_urgent
       t_cwr t_ece t_urg t_ack t_psh t_rst t_syn t_fin];
  mem_frame; mem_known; mem_wrap; mem_bits; reflexivity.

Ltac mem_ok :=
  repeat match goal with
  | H : store _ _ ?m _ _ = Some ?m' |- bytes_ok ?m' =>
      apply (store_ok _ _ _ _ _ _) in H; [exact H|clear H]
  | H : put_bytes ?m _ _ = Some ?m' |- bytes_ok ?m' =>
      apply (put_bytes_ok _ _ _ _) in H; [exact H|clear H|eapply get_bytes_ok; eassumption]
  end; try assumption.

Lemma handle_syn_frame m f cookie :
  bytes_ok m -> in_range 32 cookie -> read_frame e m = Some f ->
  exists m', handle_syn e m parsed cookie = Some (XDP_TX, m')
             /\ read_frame e m' = Some (syn_reply cookie f) /\ bytes_ok m'.
Proof.
  intros Hm Hc Hf. unfold read_frame in Hf. case_decide as Hl; [|done].
  injection Hf as <-. unfold handle_syn.
  unfold_fields; cbn [mbind option_bind ether ipv4 tcp parsed]. repeat mem_step.
  eexists; split; [reflexivity|]. split; [compare_frames|mem_ok].
Qed.

Lemma handle_ack_frame m tbl f :
  bytes_ok m -> read_frame e m = Some f ->
  exists m', handle_ack e amp_connection m tbl parsed
             = Some (XDP_TX, m', (bpf_map_update_elem tbl amp_connection insert BPF_ANY).1)
             /\ read_frame e m' = Some (ack_reply f) /\ bytes_ok m'.
Proof.
  intros Hm Hf. unfold read_frame in Hf. case_decide as Hl; [|done].
  injection Hf as <-. unfold handle_ack.
  destruct (bpf_map_update_elem tbl amp_connection insert BPF_ANY) as [tbl' r].
  unfold_fields; cbn [mbind option_bind ether ipv4 tcp parsed]. repeat mem_step.
  eexists; split; [reflexivity|]. split; [compare_frames|mem_ok].
Qed.

Lemma compute_connection_frame m f :
  read_frame e m = Some f -> compute_connection e m parsed = Some (connection_of f).
Proof.
  intros Hf. unfold read_frame in Hf. case_decide as Hl; [|done].
  injection Hf as <-. unfold compute_connection, connection_of.
  cbn [fr_ip fr_tcp i_src i_dst t_src t_dst read_ipv4 read_tcp].
  unfold_fields; cbn [mbind option_bind ipv4 tcp parsed]. repeat mem_step.
  by mem_known.
Qed.

Lemma compute_cookie_frame m f :
  read_frame e m = Some f -> compute_cookie e m parsed = Some (cookie_of f).
Proof.
  intros Hf. unfold read_frame in Hf. case_decide as Hl; [|done].
  injection Hf as <-. unfold compute_cookie, cookie_of.
  cbn [fr_ip fr_tcp i_src i_dst t_src t_dst read_ipv4 read_tcp].
  unfold_fields; cbn [mbind option_bind ipv4 tcp parsed]. repeat mem_step.
  by mem_known.
Qed.

Lemma cookie_range m f : bytes_ok m -> read_frame e m = Some f -> in_range 32 (cookie_of f).
Proof.
  intros Hm Hf. unfold read_frame in Hf. case_decide; [|done]. injection Hf as <-.
  unfold cookie_of. cbn [fr_ip fr_tcp i_src i_dst t_src t_dst read_ipv4 read_tcp].
  apply in_range_lxor; [lia| |by apply (peek_range e m 14 ip_dst_addr)].
  apply in_range_lxor; [lia| |by apply (peek_range e m 14 ip_src_addr)].
  apply in_range_lor; [lia|by apply wrap_range|].
  apply (in_range_le 16); [lia|]. by apply (peek_range e m 34 tcp_dst_port).
Qed.
End proofs.

Section refinement.
Context {T : Type} `{!BpfMap T} (e : endian).
Variable amp_connection : list Z.

(** The flag and acknowledgement reads of [controller], as frame fields. *)
Lemma controller_reads m f (K : Z -> Z -> Z -> Z -> Z -> Z -> Z -> Z -> Z -> Z -> Z ->
                                option (xdp_action * list Z * T)) :
  read_frame e m = Some f ->
  (th ← tcp parsed;
   syn ← bit_get e m th tcp_syn; ack ← bit_get e m th tcp_ack;
   res ← bit_get e m th tcp_res; cwr ← bit_get e m th tcp_cwr;
   ece ← bit_get e m th tcp_ece; urg ← bit_get e m th tcp_urg;
   psh ← bit_get e m th tcp_psh; rst ← bit_get e m th tcp_rst;
   fin ← bit_get e m th tcp_fin; ack_no ← fld_get e m th tcp_ack_no;
   K th syn ack res cwr ece urg psh rst fin ack_no)
  = let t := fr_tcp f in let g := t_flags t in
    K 34 (t_syn g) (t_ack g) (t_res t) (t_cwr g) (t_ece g) (t_urg g) (t_psh g)
      (t_rst g) (t_fin g) (t_ackno t).
Proof.
  intros Hf. unfold read_frame in Hf. case_decide as Hl; [|done].
  injection Hf as <-. cbv zeta.
  cbn [fr_tcp t_flags t_syn t_ack t_res t_cwr t_ece t_urg t_psh t_rst t_fin t_ackno
       read_tcp read_flags].
  unfold_fields; cbn [mbind option_bind tcp parsed]. repeat mem_step. by mem_known.
Qed.

Lemma controller_refines m tbl f :
  bytes_ok m -> read_frame e m = Some f ->
  exists m', controller e amp_connection m tbl parsed
             = Some ((controller_spec e amp_connection tbl f).1.1, m',
                     (controller_spec e amp_connection tbl f).2)
             /\ read_frame e m' = Some (controller_spec e amp_connection tbl f).1.2
             /\ bytes_ok m'.
Proof.
  intros Hm Hf. unfold controller, controller_spec, known.
  rewrite (compute_connection_frame e m f Hf). cbn [mbind option_bind].
  case_bool_decide as Hk.
  { destruct (bpf_map_lookup_elem _ _); [eauto|by destruct Hk]. }
  destruct (bpf_map_lookup_elem _ _); [by destruct Hk|]. clear Hk.
  rewrite (compute_cookie_frame e m f Hf). cbn [mbind option_bind].
  rewrite (controller_reads m f _ Hf). cbv zeta beta.
  fold (unexpected_flags (fr_tcp f)). destruct (unexpected_flags _); [eauto|].
  destruct (t_syn _ =? 1).
  { destruct (handle_syn_frame e m f (cookie_of f)) as (m' & -> & ? & ?);
      eauto using cookie_range. }
  fold (valid_ack f). destruct (valid_ack f); [|eauto].
  destruct (handle_ack_frame e amp_connection m tbl f) as (m' & -> & ? & ?); eauto.
Qed.
End refinement.
