(* ===== verification/Endian.v ===== *)
(** * Byte-order conversions (src/common/bpf_endian.h)

    [bpf_htons] and friends swap bytes on a little-endian target and are the
    identity on a big-endian one. *)

From S2P Require Export Memory.

(** [__builtin_bswap16] and [__builtin_bswap32]: the bytes in reverse order. *)
Definition bswap (n : nat) (x : Z) : Z := combine BE (split LE n x).

Definition bpf_htons (e : endian) (x : Z) : Z :=
  match e with LE => bswap 2 x | BE => u16 x end.
Definition bpf_ntohs (e : endian) (x : Z) : Z :=
  match e with LE => bswap 2 x | BE => u16 x end.
Definition bpf_htonl (e : endian) (x : Z) : Z :=
  match e with LE => bswap 4 x | BE => u32 x end.
Definition bpf_ntohl (e : endian) (x : Z) : Z :=
  match e with LE => bswap 4 x | BE => u32 x end.

Lemma bswap_range n x : in_range (8 * Z.of_nat n) (bswap n x).
Proof.
  unfold bswap. pose proof (combine_range BE _ (split_ok LE n x)) as H.
  by rewrite length_split in H.
Qed.

Lemma bswap_combine n bs : bytes_ok bs -> length bs = n -> bswap n (combine LE bs) = combine BE bs.
Proof. intros Hb <-. unfold bswap. by rewrite split_combine. Qed.

Lemma split_bswap n x : split LE n (bswap n x) = split BE n x.
Proof.
  unfold bswap. cbn [combine split].
  replace n with (length (rev (le_split n x))) at 1
    by (rewrite length_rev; apply length_le_split).
  apply le_split_combine, Forall_rev, le_split_ok.
Qed.

Lemma bswap_involutive n x : bswap n (bswap n x) = wrap (8 * Z.of_nat n) x.
Proof.
  unfold bswap at 1. rewrite split_bswap. cbn [combine split].
  rewrite rev_involutive. apply le_combine_split.
Qed.

(** Storing a converted value writes the network (big-endian) bytes. *)
Lemma split_htons e x : split e 2 (bpf_htons e x) = split BE 2 x.
Proof.
  destruct e; cbn [bpf_htons]; [apply split_bswap|].
  rewrite <- (combine_split BE 2 x) at 1.
  replace 2%nat with (length (split BE 2 x)) at 1 by apply length_split.
  apply split_combine, split_ok.
Qed.

Lemma ntohs_combine e bs :
  bytes_ok bs -> length bs = 2%nat -> bpf_ntohs e (combine e bs) = combine BE bs.
Proof.
  intros Hb Hl. destruct e; cbn [bpf_ntohs].
  - by apply bswap_combine.
  - apply wrap_small. pose proof (combine_range BE bs Hb) as H. by rewrite Hl in H.
Qed.

Lemma ntohl_combine e bs :
  bytes_ok bs -> length bs = 4%nat -> bpf_ntohl e (combine e bs) = combine BE bs.
Proof.
  intros Hb Hl. destruct e; cbn [bpf_ntohl].
  - by apply bswap_combine.
  - apply wrap_small. pose proof (combine_range BE bs Hb) as H. by rewrite Hl in H.
Qed.

Lemma ntohs_htons e x : bpf_ntohs e (bpf_htons e x) = u16 x.
Proof.
  destruct e; cbn [bpf_ntohs bpf_htons bpf_ntohl bpf_htonl].
  - apply bswap_involutive.
  - apply wrap_wrap.
Qed.

Lemma ntohl_htonl e x : bpf_ntohl e (bpf_htonl e x) = u32 x.
Proof.
  destruct e; cbn [bpf_ntohs bpf_htons bpf_ntohl bpf_htonl].
  - apply bswap_involutive.
  - apply wrap_wrap.
Qed.

Lemma bpf_htons_range e x : in_range 16 (bpf_htons e x).
Proof. destruct e; cbn [bpf_htons]; [apply (bswap_range 2)|by apply wrap_range]. Qed.

(** Reading a stored network value and converting it gives the big-endian
    integer, whatever the target. *)
Lemma load_ntohs e m p v :
  bytes_ok m -> load e 2 m p = Some v -> load BE 2 m p = Some (bpf_ntohs e v).
Proof.
  unfold load. intros Hm H. destruct (get_bytes m p 2) as [bs|] eqn:E; [|done].
  cbn in *. simplify_eq. rewrite ntohs_combine; eauto using get_bytes_ok, length_get_bytes.
Qed.

Lemma load_ntohl e m p v :
  bytes_ok m -> load e 4 m p = Some v -> load BE 4 m p = Some (bpf_ntohl e v).
Proof.
  unfold load. intros Hm H. destruct (get_bytes m p 4) as [bs|] eqn:E; [|done].
  cbn in *. simplify_eq. rewrite ntohl_combine; eauto using get_bytes_ok, length_get_bytes.
Qed.
