(* ===== verification/Syncookie.v ===== *)
(** * The XDP program (src/src/syncookie.c)

    [syncookie_fn] parses a packet and hands TCP packets to the controller. *)

From stdpp Require Import gmap.
From S2P Require Export Endian Controller.

(** linux/if_ether.h and linux/in.h. *)
Definition ETH_P_IP : Z := 2048.
Definition IPPROTO_TCP : Z := 6.

Section program.
Context {T : Type} `{!BpfMap T} (e : endian).
Variable amp_connection : list Z.

(** The packet is [ctx->data .. ctx->data_end]: offsets 0 to its length. *)
Definition syncookie_fn (m : list Z) (tbl : T) : option (xdp_action * list Z * T) :=
  let data_end := zlen m in
  '(nh_type, nh, hdr_ether) ← parse_ether e m (Cursor 0) data_end (Some None);
  if nh_type =? ETH_P_IP then
    '(nh_type, nh, hdr_ipv4) ← parse_ipv4 e m nh data_end (Some None);
    if nh_type =? IPPROTO_TCP then
      let '(_, nh, hdr_tcp) := parse_tcphdr nh data_end (Some None) in
      controller e amp_connection m tbl
        (Headers (mjoin hdr_ether) (mjoin hdr_ipv4) (mjoin hdr_tcp))
    else Some (XDP_PASS, m, tbl)
  else Some (XDP_PASS, m, tbl).

(** What reaches the controller: an IPv4 ethertype as the target reads it,
    a whole minimal IPv4 header, and protocol TCP. *)
Definition is_tcp (m : list Z) : bool :=
  (34 <=? zlen m) && (peek e m 0 eth_ether_type =? ETH_P_IP)
  && (peek e m 14 ip_protocol =? IPPROTO_TCP).

Lemma syncookie_fn_dispatch m tbl :
  syncookie_fn m tbl =
    if is_tcp m then
      if 54 <=? zlen m then controller e amp_connection m tbl parsed
      else None
    else Some (XDP_PASS, m, tbl).
Proof.
  unfold syncookie_fn, is_tcp. rewrite parse_ether_total by done. cbn [pos].
  destruct (Z.leb_spec 34 (zlen m)).
  - destruct (Z.ltb_spec (zlen m) (0 + 14)); [lia|]. cbn [mbind option_bind andb].
    destruct (peek e m 0 eth_ether_type =? ETH_P_IP); [|done].
    rewrite parse_ipv4_total by done. cbn [pos].
    destruct (Z.ltb_spec (zlen m) (0 + 14 + 20)); [lia|].
    cbn [mbind option_bind andb assign_out]. change (0 + 14) with 14.
    destruct (peek e m 14 ip_protocol =? IPPROTO_TCP); [|done].
    unfold parse_tcphdr, sizeof_tcp_t. cbn [pos].
    destruct (Z.ltb_spec (zlen m) (14 + 20 + 20)); destruct (Z.leb_spec 54 (zlen m)); try lia.
    + unfold controller, compute_connection.
      unfold_fields; cbn [mbind option_bind mjoin option_join ipv4 tcp].
      by repeat mem_step.
    + done.
  - cbn [andb]. destruct (Z.ltb_spec (zlen m) (0 + 14)); cbn [mbind option_bind]; [done|].
    destruct (_ =? ETH_P_IP); [|done].
    rewrite parse_ipv4_total by done. cbn [pos].
    destruct (Z.ltb_spec (zlen m) (0 + 14 + 20)); [done|lia].
Qed.
End program.

Section sequences.
Context {T : Type} `{!BpfMap T} (e : endian).
Variable amp_connection : list Z.
Implicit Types (m : list Z) (tbl : T) (f : frame).

Lemma is_tcp_read_frame m :
  54 <= zlen m -> exists f, read_frame e m = Some f.
Proof. intros. by apply read_frame_is_Some. Qed.

(** A packet that reaches the controller gets the specified verdict. *)
Lemma syncookie_fn_tcp m tbl f :
  bytes_ok m -> is_tcp e m = true -> read_frame e m = Some f ->
  exists m', syncookie_fn e amp_connection m tbl
             = Some ((controller_spec e amp_connection tbl f).1.1, m',
                     (controller_spec e amp_connection tbl f).2)
             /\ read_frame e m' = Some (controller_spec e amp_connection tbl f).1.2
             /\ bytes_ok m'.
Proof.
  intros Hm Ht Hf. rewrite syncookie_fn_dispatch, Ht.
  assert (54 <= zlen m) as Hl by (apply (read_frame_is_Some e); eauto).
  destruct (Z.leb_spec 54 (zlen m)); [|lia].
  by apply controller_refines.
Qed.

(** The program run on a sequence of packets, keeping the verdicts. *)
Fixpoint run_packets (ms : list (list Z)) tbl : option (list xdp_action * T) :=
  match ms with
  | [] => Some ([], tbl)
  | m :: ms =>
      '(v, _, tbl) ← syncookie_fn e amp_connection m tbl;
      '(vs, tbl) ← run_packets ms tbl;
      Some (v :: vs, tbl)
  end.

Definition no_valid_ack m : Prop :=
  forall f, read_frame e m = Some f -> valid_ack f = false.

Lemma controller_spec_table tbl f :
  valid_ack f = false -> (controller_spec e amp_connection tbl f).2 = tbl.
Proof.
  intros Hv. unfold controller_spec. rewrite Hv.
  by destruct (known e tbl f), (unexpected_flags (fr_tcp f)),
    (t_syn (t_flags (fr_tcp f)) =? 1).
Qed.

Lemma syncookie_fn_table m tbl v m' tbl' :
  bytes_ok m -> no_valid_ack m ->
  syncookie_fn e amp_connection m tbl = Some (v, m', tbl') -> tbl' = tbl.
Proof.
  intros Hm Hn H. pose proof H as H2. rewrite syncookie_fn_dispatch in H2.
  destruct (is_tcp e m) eqn:Ht; [|by simplify_eq].
  destruct (Z.leb_spec 54 (zlen m)); [|done].
  destruct (is_tcp_read_frame m) as [f Hf]; [done|].
  destruct (syncookie_fn_tcp m tbl f Hm Ht Hf) as (m1 & Hrun & _).
  rewrite Hrun in H. simplify_eq. by apply controller_spec_table, Hn.
Qed.

(** C9. Packets that carry no valid cookie never change the table of
    connections, however many are received. *)
Theorem syn_flood_stateless ms tbl vs tbl' :
  Forall bytes_ok ms -> Forall no_valid_ack ms ->
  run_packets ms tbl = Some (vs, tbl') -> tbl' = tbl /\ length vs = length ms.
Proof.
  revert tbl vs tbl'. induction ms as [|m ms IH]; intros tbl vs tbl' Hb Hn Hr.
  - by injection Hr as <- <-.
  - cbn in Hr. destruct (syncookie_fn _ _ m tbl) as [[[v m'] t1]|] eqn:E; [|done].
    cbn in Hr. destruct (run_packets ms t1) as [[vs1 t2]|] eqn:E2; [|done].
    cbn in Hr. injection Hr as <- <-.
    apply Forall_cons_1 in Hb as [Hb Hbs]. apply Forall_cons_1 in Hn as [Hn Hns].
    assert (t1 = tbl) as -> by (eapply syncookie_fn_table; eassumption).
    destruct (IH _ _ _ Hbs Hns E2) as [-> Hlen]. cbn. by rewrite Hlen.
Qed.

(** When the slot [handle_ack] names holds the bytes of the connection,
    an accepted ACK is answered and every later packet of that connection
    passes. *)
Theorem accepted_connection_passes `{!BpfMapLaws T} m tbl f tbl' m' f' :
  bytes_ok m -> is_tcp e m = true -> read_frame e m = Some f ->
  amp_connection = connection_bytes e (connection_of f) ->
  known e tbl f = false -> unexpected_flags (fr_tcp f) = false ->
  t_syn (t_flags (fr_tcp f)) <> 1 -> valid_ack f = true ->
  bpf_map_update_elem tbl amp_connection insert BPF_ANY = (tbl', 0) ->
  bytes_ok m' -> is_tcp e m' = true -> read_frame e m' = Some f' ->
  connection_of f' = connection_of f ->
  (exists r, syncookie_fn e amp_connection m tbl = Some (XDP_TX, r, tbl')
             /\ read_frame e r = Some (ack_reply f))
  /\ exists r, syncookie_fn e amp_connection m' tbl' = Some (XDP_PASS, r, tbl')
               /\ read_frame e r = Some f'.
Proof.
  intros Hm Ht Hf Ha Hk Hu Hs Hv Hup Hm' Ht' Hf' Hc. split.
  - destruct (syncookie_fn_tcp m tbl f Hm Ht Hf) as (r & Hr & Hfr & _).
    unfold controller_spec in Hr, Hfr. rewrite Hk, Hu, Hv in Hr, Hfr.
    rewrite (proj2 (Z.eqb_neq _ _) Hs) in Hr, Hfr. rewrite Hup in Hr, Hfr.
    cbn in Hr, Hfr. eauto.
  - destruct (syncookie_fn_tcp m' tbl' f' Hm' Ht' Hf') as (r & Hr & Hfr & _).
    assert (known e tbl' f' = true) as Hk'.
    { unfold known. apply bool_decide_eq_true. rewrite Hc, <- Ha.
      rewrite (lookup_update_same _ _ _ _ Hup). eauto. }
    unfold controller_spec in Hr, Hfr. rewrite Hk' in Hr, Hfr. eauto.
Qed.
End sequences.

Section little_endian.
Context {T : Type} `{!BpfMap T}.
Variable amp_connection : list Z.

(** On a little-endian target every frame whose ethertype bytes are
    those of IPv4 (08 00) passes untouched: [ether_type] is compared to
    [ETH_P_IP] without [bpf_ntohs]. *)
Theorem le_ipv4_passes m tbl :
  get_bytes m 12 2 = Some [8; 0] ->
  syncookie_fn LE amp_connection m tbl = Some (XDP_PASS, m, tbl).
Proof.
  intros Hb. rewrite syncookie_fn_dispatch.
  assert (is_tcp LE m = false) as ->; [|done].
  unfold is_tcp, peek, fld_get. cbn [f_off f_len eth_ether_type].
  change (0 + 12) with 12. unfold load at 1. rewrite Hb.
  cbn. by rewrite andb_false_r.
Qed.

End little_endian.

(** The number a client acknowledges: the network-order successor. *)
Definition client_ack (e : endian) (seq : Z) : Z :=
  bpf_htonl e (u32 (bpf_ntohl e seq + 1)).

Lemma bytes4 c : in_range 32 c ->
  exists b0 b1 b2 b3, c = b0 + 256 * b1 + 65536 * b2 + 16777216 * b3
  /\ 0 <= b0 < 256 /\ 0 <= b1 < 256 /\ 0 <= b2 < 256 /\ 0 <= b3 < 256
  /\ bswap 4 c = b3 + 256 * b2 + 65536 * b1 + 16777216 * b0.
Proof.
  unfold in_range. change (2 ^ 32) with 4294967296. intros Hc.
  exists (c mod 256), (c / 256 mod 256), (c / 256 / 256 mod 256), (c / 256 / 256 / 256 mod 256).
  repeat split; try (apply Z.mod_pos_bound; lia).
  - Z.div_mod_to_equations; lia.
  - unfold bswap. cbn [split le_split combine rev app le_combine]. lia.
Qed.

Lemma le_ack_check c :
  in_range 32 c -> client_ack LE c ⊟ 1 = c <-> c = 4294967295.
Proof.
  intros Hc. unfold client_ack. cbn [bpf_htonl bpf_ntohl]. split.
  - intros H.
    assert (bswap 4 (u32 (bswap 4 c + 1)) = c ⊞ 1) as H1.
    { rewrite <- H at 2. rewrite u32_sub_add; [done|apply (bswap_range 4)]. }
    apply (f_equal (bswap 4)) in H1. rewrite bswap_involutive in H1.
    change (8 * Z.of_nat 4) with 32 in H1. rewrite wrap_wrap in H1.
    destruct (bytes4 c Hc) as (b0 & b1 & b2 & b3 & Ec & ? & ? & ? & ? & Eb).
    destruct (bytes4 (c ⊞ 1)) as (x0 & x1 & x2 & x3 & Ex & ? & ? & ? & ? & Ey);
      [by apply wrap_range|].
    rewrite Ey, Eb in H1. unfold wrap in H1, Ex. change (2 ^ 32) with 4294967296 in *.
    clear H Eb Ey. destruct (decide (c = 4294967295)) as [?|Hn]; [done|exfalso].
    rewrite Z.mod_small in Ex by (unfold in_range in Hc; lia).
    rewrite Z.mod_small in H1 by lia.
    assert (b0 < 255) as Hb0 by lia.
    assert (x0 = b0 + 1) by lia. assert (x1 = b1) by lia. assert (x2 = b2) by lia. lia.
  - intros ->. reflexivity.
Qed.

Lemma ack_check_iff e f :
  in_range 32 (cookie_of f) -> t_ack (t_flags (fr_tcp f)) = 1 ->
  t_ackno (fr_tcp f) = client_ack e (cookie_of f) ->
  valid_ack f = true <-> e = BE \/ cookie_of f = 4294967295.
Proof.
  intros Hc Ha Hk. unfold valid_ack. rewrite Ha, Hk, Z.eqb_refl, andb_true_l, Z.eqb_eq.
  destruct e.
  - rewrite le_ack_check by done. split; [by right|]. by intros [?|?].
  - split; [by left|]. intros _. unfold client_ack. cbn [bpf_htonl bpf_ntohl].
    rewrite wrap_add_l, wrap_wrap. by apply u32_add_sub.
Qed.

Section handshake.
Context {T : Type} `{!BpfMap T}.
Variable amp_connection : list Z.

Lemma cookie_connection f f' :
  connection_of f' = connection_of f -> cookie_of f' = cookie_of f.
Proof. unfold connection_of, cookie_of. intros [= -> -> -> ->]. done. Qed.


(** The ACK of a client that received the cookie is accepted exactly
    when the target is big-endian or the cookie is 2^32-1: the code
    subtracts 1 from the number in network byte order. *)
Theorem handshake_ack_check e m f tbl :
  bytes_ok m -> is_tcp e m = true -> read_frame e m = Some f ->
  known e tbl f = false -> unexpected_flags (fr_tcp f) = false ->
  t_syn (t_flags (fr_tcp f)) = 0 -> t_ack (t_flags (fr_tcp f)) = 1 ->
  t_ackno (fr_tcp f) = client_ack e (cookie_of f) ->
  exists m' tbl',
    syncookie_fn e amp_connection m tbl
    = Some (if decide (e = BE \/ cookie_of f = 4294967295) then XDP_TX else XDP_DROP, m', tbl').
Proof.
  intros Hm Ht Hf Hk Hu Hs Ha Hn.
  destruct (syncookie_fn_tcp e amp_connection m tbl f Hm Ht Hf) as (m' & Hr & _).
  pose proof (ack_check_iff e f (cookie_range e m f Hm Hf) Ha Hn) as Hv.
  unfold controller_spec in Hr. rewrite Hk, Hu, Hs in Hr. cbn [Z.eqb] in Hr.
  destruct (valid_ack f); case_decide as Hd; eauto.
  - destruct Hd. by apply Hv.
  - apply Hv in Hd. done.
Qed.
End handshake.

(** C1. On every packet the program behaves as the decision table
    [controller_spec] over frames: verdict, rewritten headers, table.  A
    packet that is not TCP over IPv4 passes untouched; the only fault is a TCP
    packet shorter than its three headers, whose NULL [hdr.tcp] is
    dereferenced. *)
Theorem syncookie_fn_refines {T : Type} `{!BpfMap T} e amp_connection m tbl :
  bytes_ok m ->
  if is_tcp e m then
    match read_frame e m with
    | Some f =>
        let '(v, f', tbl') := controller_spec e amp_connection tbl f in
        exists m', syncookie_fn e amp_connection m tbl = Some (v, m', tbl')
                   /\ read_frame e m' = Some f' /\ bytes_ok m'
    | None => syncookie_fn e amp_connection m tbl = None
    end
  else syncookie_fn e amp_connection m tbl = Some (XDP_PASS, m, tbl).
Proof.
  intros Hm. destruct (is_tcp e m) eqn:Ht.
  - destruct (read_frame e m) as [f|] eqn:Hf.
    + pose proof (syncookie_fn_tcp e amp_connection m tbl f Hm Ht Hf) as H.
      by destruct (controller_spec e amp_connection tbl f) as [[v f'] tbl'].
    + rewrite syncookie_fn_dispatch, Ht. destruct (Z.leb_spec 54 (zlen m)); [|done].
      destruct (is_tcp_read_frame e m); [done|congruence].
  - by rewrite syncookie_fn_dispatch, Ht.
Qed.

(** ** Concrete runs *)

Module Concrete.
(** A map that stores values under exact keys. *)
#[export] Instance exact_map : BpfMap (gmap (list Z) (list Z)) := {|
  bpf_map_lookup_elem t k := t !! k;
  bpf_map_update_elem t k v _ := (<[k := v]> t, 0) |}.

#[export] Instance exact_map_laws : BpfMapLaws (gmap (list Z) (list Z)).
Proof. intros t t' k v [= <-]. apply lookup_insert_eq. Qed.

Definition eth_hdr : list Z := [2;0;0;0;0;1; 2;0;0;0;0;2; 8;0].
Definition ip_hdr : list Z := [69;0;0;40; 0;0;0;0; 64;6;0;0; 10;0;0;1; 10;0;0;2].
(** Ports 1234 to 80; sequence and acknowledgement numbers and flag byte vary. *)
Definition tcp_hdr (seq ack : list Z) (flags : Z) : list Z :=
  [4;210; 0;80] ++ seq ++ ack ++ [80; flags; 255;255; 0;0; 0;0].
Definition packet (seq ack : list Z) (flags : Z) : list Z :=
  eth_hdr ++ ip_hdr ++ tcp_hdr seq ack flags.

Definition syn_packet := packet [0;0;3;232] [0;0;0;0] 2.
Definition syn_frame := default (Frame (Ethernet [] [] 0) (Ipv4 0 0 0 0 0 0 0 0 0 0 0 0)
  (Tcp 0 0 0 0 0 0 (Flags 0 0 0 0 0 0 0 0) 0 0 0) []) (read_frame BE syn_packet).
(** The ACK of a client that received the cookie of [syn_packet]. *)
Definition ack_packet := packet [0;0;3;233] (split BE 4 (cookie_of syn_frame + 1)) 16.
Definition reply_packet := match syncookie_fn BE [] syn_packet (∅ : gmap (list Z) (list Z)) with
  | Some (_, m, _) => m | None => [] end.
Definition reply_frame := default syn_frame (read_frame BE reply_packet).
Definition ack_frame := default syn_frame (read_frame BE ack_packet).
End Concrete.
Import Concrete.

Lemma syncookie_fn_refines_witness :
  bytes_ok syn_packet
  /\ exists m', syncookie_fn BE [] syn_packet (∅ : gmap (list Z) (list Z))
                = Some (XDP_TX, m', ∅).
Proof.
  assert (bytes_ok syn_packet) as Hm by (apply bytes_okb_ok; reflexivity).
  split; [done|].
  pose proof (syncookie_fn_refines BE [] syn_packet
                (∅ : gmap (list Z) (list Z)) Hm) as H.
  vm_compute in H. destruct H as (m' & H & _). exists m'. exact H.
Defined.

(** Discharges the decidable hypotheses of a theorem on concrete packets. *)
Ltac concrete := first [apply bytes_okb_ok; vm_compute; reflexivity | vm_compute; reflexivity
                       | vm_compute; congruence].


Lemma syn_flood_stateless_witness :
  exists vs, run_packets BE [] [syn_packet; syn_packet] (∅ : gmap (list Z) (list Z))
             = Some (vs, ∅) /\ length vs = 2%nat.
Proof.
  exists [XDP_TX; XDP_TX].
  assert (run_packets BE [] [syn_packet; syn_packet] (∅ : gmap (list Z) (list Z))
          = Some ([XDP_TX; XDP_TX], ∅)) as Hr by (vm_compute; reflexivity).
  destruct (syn_flood_stateless BE [] [syn_packet; syn_packet] ∅ [XDP_TX; XDP_TX] ∅) as [_ Hl].
  - repeat constructor; concrete.
  - assert (no_valid_ack BE syn_packet) as Hn.
    { intros f Hf. vm_compute in Hf. injection Hf as <-. vm_compute. reflexivity. }
    repeat constructor; exact Hn.
  - exact Hr.
  - split; [exact Hr|exact Hl].
Defined.

Lemma accepted_connection_passes_witness :
  let key := connection_bytes BE (connection_of ack_frame) in
  exists r, syncookie_fn BE key ack_packet ({[ key := [97] ]} : gmap (list Z) (list Z))
            = Some (XDP_PASS, r, {[ key := [97] ]}).
Proof.
  intros key.
  destruct (accepted_connection_passes BE key ack_packet (∅ : gmap (list Z) (list Z)) ack_frame
              {[ key := [97] ]} ack_packet ack_frame) as [_ (r & Hr & _)]; [concrete..|].
  exists r. exact Hr.
Defined.

Lemma le_ipv4_passes_witness :
  get_bytes syn_packet 12 2 = Some [8; 0]
  /\ syncookie_fn LE [] syn_packet (∅ : gmap (list Z) (list Z)) = Some (XDP_PASS, syn_packet, ∅).
Proof. split; [reflexivity|]. apply le_ipv4_passes. reflexivity. Defined.

Lemma handshake_ack_check_witness :
  exists m' tbl', syncookie_fn BE [] ack_packet (∅ : gmap (list Z) (list Z))
                  = Some (XDP_TX, m', tbl').
Proof.
  exact (handshake_ack_check [] BE ack_packet ack_frame (∅ : gmap (list Z) (list Z))
           ltac:(concrete) ltac:(concrete) ltac:(concrete) ltac:(concrete) ltac:(concrete)
           ltac:(concrete) ltac:(concrete) ltac:(concrete)).
Defined.
