(* ===== verification/ParsingHelpers.v ===== *)
(** * Packet parsing helpers (src/common/parsing_helpers.h)

    The header cursor and the parsers of the shared BPF library.  Each parser
    is a function of the packet bytes, the cursor and [data_end]; [None] is an
    access outside the packet.  The layouts of [struct ethhdr], [iphdr],
    [ipv6hdr], [icmphdr] and [icmp6hdr] are those of the linux/*.h wire
    formats; [vlan_hdr] and [icmphdr_common] are defined by the file. *)

From S2P Require Export Headers Endian.

Definition ETH_P_8021Q : Z := 0x8100.
Definition ETH_P_8021AD : Z := 0x88A8.
Definition ETH_P_IPV6 : Z := 0x86DD.
Definition IPPROTO_ICMPV6 : Z := 58.

Definition sizeof_ethhdr : Z := 14.
Definition h_proto := Field 12 2.
Definition sizeof_iphdr : Z := 20.
Definition iph_protocol := Field 9 1.
Definition sizeof_ipv6hdr : Z := 40.
Definition ip6_nexthdr := Field 6 1.
Definition sizeof_icmphdr : Z := 8.
Definition icmp_type := Field 0 1.
Definition sizeof_icmp6hdr : Z := 8.
Definition icmp6_type := Field 0 1.

(** ** struct vlan_hdr and struct icmphdr_common *)
Definition sizeof_vlan_hdr : Z := 4.
Definition h_vlan_TCI := Field 0 2.
Definition h_vlan_encapsulated_proto := Field 2 2.
Definition sizeof_icmphdr_common : Z := 4.
Definition icmp_common_type := Field 0 1.

Definition VLAN_MAX_DEPTH : nat := 5.

Section helpers.
Context (e : endian) (m : list Z) (data_end : Z).

Definition proto_is_vlan (proto : Z) : bool :=
  (proto =? bpf_htons e ETH_P_8021Q) || (proto =? bpf_htons e ETH_P_8021AD).

(** The unrolled loop over VLAN tags: at most [n] tags are skipped. *)
Fixpoint skip_vlan (n : nat) (vlh proto : Z) : option (Z * Z) :=
  match n with
  | O => Some (vlh, proto)
  | S n =>
      if negb (proto_is_vlan proto) then Some (vlh, proto)
      else if data_end <? vlh + sizeof_vlan_hdr then Some (vlh, proto)
      else
        proto ← fld_get e m vlh h_vlan_encapsulated_proto;
        skip_vlan n (vlh + sizeof_vlan_hdr) proto
  end.

(** Returns the ethertype (or -1), the cursor, and [*ethhdr] when written. *)
Definition parse_ethhdr (nh : hdr_cursor) : option (Z * hdr_cursor * option Z) :=
  let eth := pos nh in
  if data_end <? pos nh + sizeof_ethhdr then Some (-1, nh, None)
  else
    proto ← fld_get e m eth h_proto;
    '(vlh, proto) ← skip_vlan VLAN_MAX_DEPTH (pos nh + sizeof_ethhdr) proto;
    Some (bpf_ntohs e proto, Cursor vlh, Some eth).

(** The shape of the parsers of fixed-size headers. *)
Definition parse_fixed (size : Z) (next : field) (nh : hdr_cursor)
  : option (Z * hdr_cursor * option Z) :=
  let h := pos nh in
  if data_end <? h + size then Some (-1, nh, None)
  else
    t ← fld_get e m h next;
    Some (t, Cursor (h + size), Some h).

Definition parse_ip6hdr := parse_fixed sizeof_ipv6hdr ip6_nexthdr.
Definition parse_icmp6hdr := parse_fixed sizeof_icmp6hdr icmp6_type.
Definition parse_icmphdr := parse_fixed sizeof_icmphdr icmp_type.
Definition parse_icmphdr_common := parse_fixed sizeof_icmphdr_common icmp_common_type.

(** [iph->ihl]: the low half of the first byte on every target. *)
Definition iph_ihl (p : Z) : option Z := b ← load e 1 m p; Some (Z.land b 15).

Definition parse_iphdr (nh : hdr_cursor) : option (Z * hdr_cursor * option Z) :=
  let iph := pos nh in
  if data_end <? iph + sizeof_iphdr then Some (-1, nh, None)
  else
    ihl ← iph_ihl iph;
    let hdrsize := ihl * 4 in
    if data_end <? pos nh + hdrsize then Some (-1, nh, None)
    else
      protocol ← fld_get e m iph iph_protocol;
      Some (protocol, Cursor (pos nh + hdrsize), Some iph).

(** The [get_] family returns the header pointer or NULL. *)
Definition get_ethhdr (nh : hdr_cursor) : option Z * hdr_cursor :=
  let eth := pos nh in
  if data_end <? pos nh + sizeof_ethhdr then (None, nh)
  else (Some eth, Cursor (pos nh + sizeof_ethhdr)).

(** The loop of [get_ip6hdr]: a tag without room makes the function return
    NULL, here the inner [None]. *)
Fixpoint skip_vlan_strict (n : nat) (vlh proto : Z) : option (option (Z * Z)) :=
  match n with
  | O => Some (Some (vlh, proto))
  | S n =>
      if negb ((proto =? bpf_htons e ETH_P_8021Q) || (proto =? bpf_htons e ETH_P_8021AD))
      then Some (Some (vlh, proto))
      else if data_end <? vlh + sizeof_vlan_hdr then Some None
      else
        proto ← fld_get e m vlh h_vlan_encapsulated_proto;
        skip_vlan_strict n (vlh + sizeof_vlan_hdr) proto
  end.

Definition get_ip6hdr (eth : Z) (nh : hdr_cursor) : option (option Z * hdr_cursor) :=
  proto ← fld_get e m eth h_proto;
  r ← skip_vlan_strict VLAN_MAX_DEPTH (pos nh) proto;
  match r with
  | None => Some (None, nh)
  | Some (ip6h, proto) =>
      if negb (proto =? bpf_htons e ETH_P_IPV6) then Some (None, nh)
      else if data_end <? ip6h + sizeof_ipv6hdr then Some (None, nh)
      else Some (Some ip6h, Cursor (ip6h + sizeof_ipv6hdr))
  end.

Definition get_icmp6hdr (ip6h : Z) (nh : hdr_cursor) : option (option Z * hdr_cursor) :=
  nexthdr ← fld_get e m ip6h ip6_nexthdr;
  let icmp6h := pos nh in
  if negb (nexthdr =? IPPROTO_ICMPV6) then Some (None, nh)
  else if data_end <? icmp6h + sizeof_icmp6hdr then Some (None, nh)
  else Some (Some icmp6h, Cursor (icmp6h + sizeof_icmp6hdr)).
End helpers.

(** Unfolds the field accesses of this file. *)
Ltac unfold_helpers :=
  cbv [fld_get f_off f_len h_proto iph_protocol ip6_nexthdr icmp_type icmp6_type
       h_vlan_TCI h_vlan_encapsulated_proto icmp_common_type iph_ihl
       sizeof_ethhdr sizeof_iphdr sizeof_ipv6hdr sizeof_icmphdr sizeof_icmp6hdr
       sizeof_vlan_hdr sizeof_icmphdr_common].

(** ** The VLAN loop *)

(** The big-endian 16-bit number at [p]. *)
Definition be16 (m : list Z) (p : Z) : Z := default 0 (load BE 2 m p).

Definition is_vlan_type (t : Z) : bool := (t =? ETH_P_8021Q) || (t =? ETH_P_8021AD).

(** [k] VLAN tags sit in front of offset [vlh + 4 * k]: the ethertype before
    each of them, the one at [vlh - 2] first, announces a tag. *)
Definition vlan_tags (m : list Z) (vlh : Z) (k : nat) : Prop :=
  forall j, (j < k)%nat -> is_vlan_type (be16 m (vlh - 2 + 4 * Z.of_nat j)) = true.

Section vlan.
Context (e : endian) (m : list Z).
Hypothesis m_ok : bytes_ok m.

Lemma htons_eqb x y : in_range 16 x -> in_range 16 y ->
  (x =? bpf_htons e y) = (bpf_ntohs e x =? y).
Proof.
  intros Hx Hy. destruct (Z.eqb_spec x (bpf_htons e y)) as [->|Hne].
  - rewrite ntohs_htons, wrap_small by done. symmetry. apply Z.eqb_refl.
  - symmetry. apply Z.eqb_neq. intros <-. apply Hne.
    symmetry. transitivity (u16 x); [|by apply wrap_small].
    destruct e; cbn [bpf_htons bpf_ntohs]; [apply bswap_involutive|apply wrap_wrap].
Qed.

Lemma proto_is_vlan_ntohs x :
  in_range 16 x -> proto_is_vlan e x = is_vlan_type (bpf_ntohs e x).
Proof.
  intros Hx. unfold proto_is_vlan, is_vlan_type.
  by rewrite !htons_eqb by (done || (unfold in_range; done)).
Qed.

Lemma load_be16 p v : load e 2 m p = Some v -> be16 m p = bpf_ntohs e v /\ in_range 16 v.
Proof.
  intros H. split; [|by apply (load_range e 2 m p)].
  unfold be16. by rewrite (load_ntohs e m p v m_ok H).
Qed.

(** The loop stops after [k] tags, for the first of three reasons. *)
Lemma skip_vlan_spec n vlh proto :
  2 <= vlh -> vlh <= zlen m -> load e 2 m (vlh - 2) = Some proto ->
  exists k proto',
    skip_vlan e m (zlen m) n vlh proto = Some (vlh + 4 * Z.of_nat k, proto')
    /\ load e 2 m (vlh + 4 * Z.of_nat k - 2) = Some proto'
    /\ (k <= n)%nat /\ vlh + 4 * Z.of_nat k <= zlen m /\ vlan_tags m vlh k
    /\ (k = n \/ zlen m < vlh + 4 * Z.of_nat k + 4
        \/ is_vlan_type (be16 m (vlh + 4 * Z.of_nat k - 2)) = false).
Proof.
  revert vlh proto. induction n as [|n IH]; intros vlh proto Hv Hl Hp; cbn [skip_vlan].
  - exists 0%nat, proto. rewrite Z.mul_0_r, Z.add_0_r.
    repeat split; try done; [|by left]. intros j Hj. lia.
  - destruct (load_be16 _ _ Hp) as [Hb Hr].
    rewrite proto_is_vlan_ntohs, <- Hb by done.
    destruct (is_vlan_type (be16 m (vlh - 2))) eqn:Ht; cbn [negb].
    + unfold sizeof_vlan_hdr. destruct (Z.ltb_spec (zlen m) (vlh + 4)).
      * exists 0%nat, proto. rewrite Z.mul_0_r, Z.add_0_r.
        repeat split; try done; [lia| |right; left; lia]. intros j Hj. lia.
      * unfold_helpers. mem_step.
        destruct (IH (vlh + 4) v) as (k & p' & Hs & Hlo & Hk & Hle & Htg & Hst); [lia|lia| |].
        { by replace (vlh + 4 - 2) with (vlh + 2) by lia. }
        exists (S k), p'. replace (vlh + 4 * Z.of_nat (S k)) with (vlh + 4 + 4 * Z.of_nat k) by lia.
        repeat split; try done; [lia| |].
        { intros [|j] Hj; [by rewrite Z.mul_0_r, Z.add_0_r|].
          replace (vlh - 2 + 4 * Z.of_nat (S j)) with (vlh + 4 - 2 + 4 * Z.of_nat j) by lia.
          apply Htg. lia. }
        { destruct Hst as [->|[?|?]]; auto. }
    + exists 0%nat, proto. rewrite Z.mul_0_r, Z.add_0_r.
      repeat split; try done; [lia| |auto]. intros j Hj. lia.
Qed.

(** The strict loop agrees with the lenient one until room runs out. *)
Lemma skip_vlan_strict_spec n vlh proto q p' :
  skip_vlan e m (zlen m) n vlh proto = Some (q, p') ->
  skip_vlan_strict e m (zlen m) n vlh proto = Some (Some (q, p'))
  \/ (skip_vlan_strict e m (zlen m) n vlh proto = Some None /\ proto_is_vlan e p' = true).
Proof.
  revert vlh proto. induction n as [|n IH]; intros vlh proto;
    cbn [skip_vlan skip_vlan_strict]; [intros [= -> ->]; auto|].
  fold (proto_is_vlan e proto). destruct (proto_is_vlan e proto) eqn:Ht; cbn [negb].
  - destruct (zlen m <? vlh + sizeof_vlan_hdr); [intros [= -> ->]; auto|].
    destruct (fld_get _ _ _ _); cbn [mbind option_bind]; [apply IH|done].
  - intros [= -> ->]. auto.
Qed.
End vlan.

(** [parse_ethhdr] never reads outside the packet, whatever its length; it
    fails exactly when the Ethernet header does not fit, and otherwise skips
    at most five VLAN tags, stops inside the packet, and returns in host order
    the ethertype in front of the cursor; it stops early only for want of room
    or before a protocol that is not a VLAN. *)
Theorem parse_ethhdr_spec e m nh :
  bytes_ok m -> 0 <= pos nh ->
  if zlen m <? pos nh + 14 then parse_ethhdr e m (zlen m) nh = Some (-1, nh, None)
  else exists k,
    parse_ethhdr e m (zlen m) nh
    = Some (be16 m (pos nh + 12 + 4 * Z.of_nat k),
            Cursor (pos nh + 14 + 4 * Z.of_nat k), Some (pos nh))
    /\ (k <= 5)%nat /\ pos nh + 14 + 4 * Z.of_nat k <= zlen m
    /\ vlan_tags m (pos nh + 14) k
    /\ (k = 5%nat \/ zlen m < pos nh + 14 + 4 * Z.of_nat k + 4
        \/ is_vlan_type (be16 m (pos nh + 12 + 4 * Z.of_nat k)) = false).
Proof.
  intros Hm Hp. unfold parse_ethhdr. unfold_helpers.
  destruct (Z.ltb_spec (zlen m) (pos nh + 14)); [done|].
  destruct (load_ex e 2 m (pos nh + 12)) as [v E]; [lia|lia|].
  rewrite E. cbn [mbind option_bind].
  replace (pos nh + 12) with (pos nh + 14 - 2) in E by lia.
  destruct (skip_vlan_spec e m Hm VLAN_MAX_DEPTH (pos nh + 14) v ltac:(lia) ltac:(lia) E)
    as (k & p' & Hs & Hlo & Hk & Hle & Htg & Hst).
  exists k. rewrite Hs. cbn [mbind option_bind].
  replace (pos nh + 14 + 4 * Z.of_nat k - 2) with (pos nh + 12 + 4 * Z.of_nat k) in * by lia.
  split; [by rewrite (proj1 (load_be16 e m Hm _ _ Hlo))|].
  do 3 (split; [done|]). exact Hst.
Qed.

(** The two ways of reaching an IPv6 header agree: [get_ethhdr] followed by
    [get_ip6hdr] returns a header exactly when [parse_ethhdr] reports IPv6 and
    [parse_ip6hdr] succeeds after it, and then both leave the same pointer and
    the same cursor. *)
Theorem get_ip6hdr_equiv e m nh :
  bytes_ok m -> 0 <= pos nh ->
  forall p,
  (exists eth nh1 nh2,
     get_ethhdr (zlen m) nh = (Some eth, nh1)
     /\ get_ip6hdr e m (zlen m) eth nh1 = Some (Some p, nh2)
     /\ pos nh2 = p + 40)
  <-> (exists nh1 nh2 next,
     parse_ethhdr e m (zlen m) nh = Some (ETH_P_IPV6, nh1, Some (pos nh))
     /\ parse_ip6hdr e m (zlen m) nh1 = Some (next, nh2, Some p)
     /\ pos nh2 = p + 40).
Proof.
  intros Hm Hp p. unfold get_ethhdr, parse_ethhdr. unfold_helpers.
  destruct (Z.ltb_spec (zlen m) (pos nh + 14)).
  { split; intros (?&?&?&Hx&_); discriminate Hx. }
  unfold get_ip6hdr. unfold_helpers.
  destruct (load_ex e 2 m (pos nh + 12)) as [v E]; [lia|lia|].
  pose proof E as E'. replace (pos nh + 12) with (pos nh + 14 - 2) in E' by lia.
  destruct (skip_vlan_spec e m Hm VLAN_MAX_DEPTH (pos nh + 14) v ltac:(lia) ltac:(lia) E')
    as (k & p' & Hs & Hlo & Hk & Hle & _ & _).
  destruct (load_be16 e m Hm _ _ Hlo) as [_ Hr].
  rewrite E. cbn [mbind option_bind]. rewrite Hs. cbn [mbind option_bind].
  assert (forall p0, (p' =? bpf_htons e ETH_P_IPV6) = true -> proto_is_vlan e p0 = true ->
            p0 <> p') as Hnv.
  { intros p0 Ht Hv ->. rewrite proto_is_vlan_ntohs in Hv by done.
    rewrite htons_eqb in Ht by (done || (unfold in_range; done)).
    apply Z.eqb_eq in Ht. rewrite Ht in Hv. discriminate Hv. }
  set (q := pos nh + 14 + 4 * Z.of_nat k) in *. split.
  - intros (eth & nh1 & nh2 & [= <- <-] & Hg & Hpos). cbn [pos] in Hg.
    rewrite E in Hg. cbn [mbind option_bind] in Hg.
    destruct (skip_vlan_strict_spec e m _ _ _ _ _ Hs) as [Hst|[Hst _]]; rewrite Hst in Hg;
      cbn [mbind option_bind] in Hg; [|done].
    destruct (p' =? bpf_htons e ETH_P_IPV6) eqn:Ht; cbn [negb] in Hg; [|done].
    destruct (Z.ltb_spec (zlen m) (q + 40)); [done|].
    injection Hg as <- <-.
    rewrite htons_eqb in Ht by (done || (unfold in_range; done)). apply Z.eqb_eq in Ht.
    destruct (load_ex e 1 m (q + 6)) as [nx Enx]; [lia|lia|].
    exists (Cursor q), (Cursor (q + 40)), nx. rewrite Ht.
    unfold parse_ip6hdr, parse_fixed. unfold_helpers. cbn [pos].
    destruct (Z.ltb_spec (zlen m) (q + 40)); [lia|]. by rewrite Enx.
  - intros (nh1 & nh2 & next & [= Ht <-] & Hpi & Hpos).
    unfold parse_ip6hdr, parse_fixed in Hpi. unfold_helpers. cbn [pos] in Hpi.
    unfold sizeof_ipv6hdr in Hpi.
    destruct (Z.ltb_spec (zlen m) (q + 40)); [done|].
    destruct (fld_get e m q ip6_nexthdr); [|done]. cbn in Hpi. injection Hpi as -> <- <-.
    exists (pos nh), (Cursor (pos nh + 14)), (Cursor (q + 40)). cbn [pos]. split; [done|].
    split; [|done]. rewrite E. cbn [mbind option_bind].
    assert ((p' =? bpf_htons e ETH_P_IPV6) = true) as Ht'.
    { rewrite htons_eqb by (done || (unfold in_range; done)). by apply Z.eqb_eq. }
    destruct (skip_vlan_strict_spec e m _ _ _ _ _ Hs) as [Hst|[_ Hv]].
    + rewrite Hst. cbn [mbind option_bind]. rewrite Ht'. cbn [negb].
      destruct (Z.ltb_spec (zlen m) (q + 40)); [lia|done].
    + by destruct (Hnv p' Ht' Hv).
Qed.

(** ** Safety of the whole family *)

(** A parser's result is well behaved: it failed and changed nothing, or it
    found its header at the cursor, returned a 16-bit type, and moved the
    cursor forward inside the packet. *)
Definition parse_ok (len : Z) (nh : hdr_cursor) (r : option (Z * hdr_cursor * option Z)) : Prop :=
  match r with
  | None => False
  | Some (t, nh', h) =>
      (t = -1 /\ nh' = nh /\ h = None)
      \/ (in_range 16 t /\ h = Some (pos nh) /\ pos nh <= pos nh' <= len)
  end.

Section safety.
Context (e : endian) (m : list Z).
Hypothesis m_ok : bytes_ok m.

Lemma be16_range p : in_range 16 (be16 m p).
Proof.
  unfold be16. destruct (load BE 2 m p) eqn:E; cbn.
  - by apply (load_range BE 2 m p).
  - unfold in_range. lia.
Qed.

Lemma parse_fixed_ok size next nh :
  0 <= pos nh -> 0 <= f_off next -> f_off next + Z.of_nat (f_len next) <= size ->
  (f_len next <= 2)%nat ->
  parse_ok (zlen m) nh (parse_fixed e m (zlen m) size next nh).
Proof.
  intros Hp Ho Hn Hl. unfold parse_fixed, fld_get.
  destruct (Z.ltb_spec (zlen m) (pos nh + size)); cbn; [by left|].
  mem_step. right. split; [|split; [done|cbn; lia]].
  eapply in_range_le; [|by eapply load_range]. lia.
Qed.

Lemma parse_iphdr_ok nh : 0 <= pos nh -> parse_ok (zlen m) nh (parse_iphdr e m (zlen m) nh).
Proof.
  intros Hp. unfold parse_iphdr. unfold_helpers.
  destruct (Z.ltb_spec (zlen m) (pos nh + 20)); [by left|].
  destruct (load_ex e 1 m (pos nh)) as [b Eb]; [lia|lia|]. rewrite Eb. cbn [mbind option_bind].
  assert (0 <= Z.land b 15) by (apply Z.land_nonneg; auto with lia).
  destruct (Z.ltb_spec (zlen m) (pos nh + Z.land b 15 * 4)); [by left|].
  mem_step. right. split; [|split; [done|cbn; lia]].
  eapply (in_range_le 8); [lia|]. by apply (load_range e 1 m (pos nh + 9)).
Qed.

Lemma parse_ethhdr_ok nh : 0 <= pos nh -> parse_ok (zlen m) nh (parse_ethhdr e m (zlen m) nh).
Proof.
  intros Hp. unfold parse_ethhdr. unfold_helpers.
  destruct (Z.ltb_spec (zlen m) (pos nh + 14)); [by left|].
  destruct (load_ex e 2 m (pos nh + 12)) as [v E]; [lia|lia|].
  rewrite E. cbn [mbind option_bind].
  replace (pos nh + 12) with (pos nh + 14 - 2) in E by lia.
  destruct (skip_vlan_spec e m m_ok VLAN_MAX_DEPTH (pos nh + 14) v ltac:(lia) ltac:(lia) E)
    as (k & p' & Hs & Hlo & Hk & Hle & _).
  rewrite Hs. cbn [mbind option_bind parse_ok]. right. cbn [pos].
  rewrite <- (proj1 (load_be16 e m m_ok _ _ Hlo)).
  split; [apply be16_range|]. split; [done|lia].
Qed.
End safety.

(** The parsers of the file. *)
Definition parsers (e : endian) (m : list Z) (data_end : Z)
  : list (hdr_cursor -> option (Z * hdr_cursor * option Z)) :=
  [ parse_ethhdr e m data_end; parse_ip6hdr e m data_end; parse_iphdr e m data_end;
    parse_icmp6hdr e m data_end; parse_icmphdr e m data_end; parse_icmphdr_common e m data_end ].

(** Any chain of parsers, each run on the cursor the last one left. *)
Fixpoint run_parsers (ps : list (hdr_cursor -> option (Z * hdr_cursor * option Z)))
    (nh : hdr_cursor) : option (list Z * hdr_cursor) :=
  match ps with
  | [] => Some ([], nh)
  | p :: ps =>
      '(t, nh, _) ← p nh;
      '(ts, nh) ← run_parsers ps nh;
      Some (t :: ts, nh)
  end.

Lemma parsers_ok e m p nh :
  bytes_ok m -> 0 <= pos nh -> In p (parsers e m (zlen m)) -> parse_ok (zlen m) nh (p nh).
Proof.
  intros Hm Hp Hin. unfold parsers in Hin.
  destruct Hin as [<-|[<-|[<-|[<-|[<-|[<-|[]]]]]]];
    [by apply parse_ethhdr_ok| |by apply parse_iphdr_ok| | | ];
    apply parse_fixed_ok; cbn; (done || lia).
Qed.

(** C10. However the parsers are chained, from any cursor inside the packet, no
    access leaves the packet, the cursor never moves back and never passes the
    end of the packet. *)
Theorem run_parsers_safe e m ps nh :
  bytes_ok m -> 0 <= pos nh <= zlen m ->
  Forall (fun p => In p (parsers e m (zlen m))) ps ->
  exists ts nh', run_parsers ps nh = Some (ts, nh') /\ length ts = length ps
                 /\ pos nh <= pos nh' <= zlen m
                 /\ Forall (fun t => t = -1 \/ in_range 16 t) ts.
Proof.
  intros Hm. revert nh. induction ps as [|p ps IH]; intros nh Hp Hin; cbn [run_parsers].
  - exists [], nh. repeat split; try done; lia.
  - inversion_clear Hin as [|? ? Hp1 Hps].
    pose proof (parsers_ok e m p nh Hm ltac:(lia) Hp1) as Hok.
    destruct (p nh) as [[[t nh1] h]|]; [|done]. cbn [mbind option_bind].
    assert (pos nh <= pos nh1 <= zlen m /\ (t = -1 \/ in_range 16 t)) as [Hnh1 Ht].
    { destruct Hok as [(-> & -> & ->)|(? & ? & ?)]; (split; [lia|by auto]). }
    destruct (IH nh1 ltac:(lia) Hps) as (ts & nh2 & Hr & Hl & Hnh2 & Hts).
    exists (t :: ts), nh2. rewrite Hr. cbn. split; [done|]. split; [by rewrite Hl|].
    split; [lia|by constructor].
Qed.

(** [parse_iphdr] does not check that the header length is at least five
    words: a first byte whose low half is below 5 is accepted and leaves the
    cursor inside the twenty bytes of the fixed header. *)
Theorem parse_iphdr_short_ihl e m nh b :
  bytes_ok m -> 0 <= pos nh -> pos nh + 20 <= zlen m ->
  load e 1 m (pos nh) = Some b -> Z.land b 15 < 5 ->
  exists proto nh', parse_iphdr e m (zlen m) nh = Some (proto, nh', Some (pos nh))
                    /\ in_range 8 proto /\ pos nh' = pos nh + 4 * Z.land b 15
                    /\ pos nh' < pos nh + sizeof_iphdr.
Proof.
  intros Hm Hp Hl Hb Hi. unfold parse_iphdr. unfold_helpers.
  destruct (Z.ltb_spec (zlen m) (pos nh + 20)); [lia|]. rewrite Hb. cbn [mbind option_bind].
  destruct (Z.ltb_spec (zlen m) (pos nh + Z.land b 15 * 4)); [lia|].
  mem_step. do 2 eexists. split; [done|]. cbn [pos].
  split; [by apply (load_range e 1 m (pos nh + 9))|]. lia.
Qed.

(** ** Concrete runs *)

(** An IPv6 packet behind two VLAN tags. *)
Definition vlan_packet : list Z :=
  [2;0;0;0;0;1; 2;0;0;0;0;2; 136;168; 0;7; 129;0; 0;8; 134;221]
  ++ [96;0;0;0; 0;0;58;64] ++ repeat 0 32.

Lemma vlan_packet_ok : bytes_ok vlan_packet.
Proof. apply bytes_okb_ok. vm_compute. reflexivity. Qed.

Lemma parse_ethhdr_spec_witness :
  parse_ethhdr LE vlan_packet 62 (Cursor 0) = Some (ETH_P_IPV6, Cursor 22, Some 0).
Proof.
  pose proof (parse_ethhdr_spec LE vlan_packet (Cursor 0) vlan_packet_ok ltac:(done)) as H.
  change (zlen vlan_packet) with 62 in H. cbn [pos] in H.
  destruct H as (k & H & _). vm_compute in H. vm_compute. reflexivity.
Defined.

Lemma get_ip6hdr_equiv_witness :
  exists nh1 nh2 next,
    parse_ethhdr LE vlan_packet (zlen vlan_packet) (Cursor 0)
    = Some (ETH_P_IPV6, nh1, Some 0)
    /\ parse_ip6hdr LE vlan_packet (zlen vlan_packet) nh1 = Some (next, nh2, Some 22)
    /\ pos nh2 = 22 + 40.
Proof.
  apply (get_ip6hdr_equiv LE vlan_packet (Cursor 0) vlan_packet_ok ltac:(done) 22).
  exists 0, (Cursor 14), (Cursor 62). split; [reflexivity|]. split; reflexivity.
Defined.

Lemma run_parsers_safe_witness :
  let ps := [parse_ethhdr LE vlan_packet (zlen vlan_packet);
             parse_ip6hdr LE vlan_packet (zlen vlan_packet)] in
  exists ts nh', run_parsers ps (Cursor 0) = Some (ts, nh') /\ 0 <= pos nh' <= zlen vlan_packet.
Proof.
  intros ps.
  destruct (run_parsers_safe LE vlan_packet ps (Cursor 0) vlan_packet_ok)
    as (ts & nh' & H & _ & Hp & _).
  - split; [reflexivity|]. vm_compute. discriminate.
  - constructor; [by left|]. constructor; [by right; left|constructor].
  - exists ts, nh'. split; [exact H|exact Hp].
Defined.

Lemma parse_iphdr_short_ihl_witness :
  exists proto nh', parse_iphdr BE (repeat 0 20) 20 (Cursor 0) = Some (proto, nh', Some 0)
                    /\ pos nh' = 0.
Proof.
  destruct (parse_iphdr_short_ihl BE (repeat 0 20) (Cursor 0) 0) as (p & nh' & H & _ & Hp & _).
  - apply bytes_okb_ok. reflexivity.
  - done.
  - done.
  - reflexivity.
  - done.
  - exists p, nh'. split; [exact H|exact Hp].
Defined.
