(* ===== verification/RewriteHelpers.v ===== *)
(** * Packet rewriting helpers (src/common/rewrite_helpers.h)

    Popping and pushing a VLAN tag, and swapping addresses.  The kernel helper
    [bpf_xdp_adjust_head] is a parameter; what the code relies on is stated in
    [AdjustHead]. *)

From S2P Require Export ParsingHelpers.

(** [adjust_head m delta]: the packet after moving [ctx->data] by [delta]
    bytes, [None] when the helper returns an error. *)
Class AdjustHead := adjust_head : list Z -> Z -> option (list Z).

(** linux/bpf.h: "Adjust (move) xdp_md->data by delta bytes".  Moving forward
    cuts bytes off; moving back exposes headroom of unspecified content. *)
Class AdjustHeadLaws `{AdjustHead} : Prop := {
  adjust_head_pop m d m' : 0 <= d -> adjust_head m d = Some m' ->
    d <= zlen m /\ m' = drop (Z.to_nat d) m;
  adjust_head_push m d m' : 0 <= d -> adjust_head m (- d) = Some m' ->
    zlen m' = zlen m + d /\ drop (Z.to_nat d) m' = m;
  adjust_head_bytes m d m' : bytes_ok m -> adjust_head m d = Some m' -> bytes_ok m' }.

Section rewrite.
Context `{AdjustHead} (e : endian).

(** [eth] is the offset of the Ethernet header the caller found. *)
Definition vlan_tag_pop (m : list Z) (eth : Z) : option (Z * list Z) :=
  proto ← fld_get e m eth h_proto;
  if negb (proto_is_vlan e proto) then Some (-1, m)
  else
    let vlh := eth + sizeof_ethhdr in
    if zlen m <? vlh + sizeof_vlan_hdr then Some (-1, m)
    else
      tci ← fld_get e m vlh h_vlan_TCI;
      let vlid := bpf_ntohs e tci in
      proto ← fld_get e m vlh h_vlan_encapsulated_proto;
      eth_cpy ← get_bytes m eth 14;
      match adjust_head m sizeof_vlan_hdr with
      | None => Some (-1, m)
      | Some m =>
          if zlen m <? 0 + sizeof_ethhdr then Some (-1, m)
          else
            m ← put_bytes m 0 eth_cpy;
            m ← fld_set e m 0 h_proto proto;
            Some (vlid, m)
      end.

Definition vlan_tag_push (m : list Z) (eth vlid : Z) : option (Z * list Z) :=
  eth_cpy ← get_bytes m eth 14;
  match adjust_head m (- sizeof_vlan_hdr) with
  | None => Some (-1, m)
  | Some m =>
      if zlen m <? 0 + sizeof_ethhdr then Some (-1, m)
      else
        m ← put_bytes m 0 eth_cpy;
        let vlh := 0 + sizeof_ethhdr in
        if zlen m <? vlh + sizeof_vlan_hdr then Some (-1, m)
        else
          m ← fld_set e m vlh h_vlan_TCI (bpf_htons e vlid);
          proto ← fld_get e m 0 h_proto;
          m ← fld_set e m vlh h_vlan_encapsulated_proto proto;
          m ← fld_set e m 0 h_proto (bpf_htons e ETH_P_8021Q);
          Some (0, m)
  end.
End rewrite.

(** Swapping two blocks of [n] bytes at offsets [a] and [b] of a header, the
    shape of the three address swaps. *)
Definition swap_blocks (n : nat) (m : list Z) (a b : Z) : option (list Z) :=
  tmp ← get_bytes m a n;
  other ← get_bytes m b n;
  m ← put_bytes m a other;
  put_bytes m b tmp.

(** [h_dest] at 0 and [h_source] at 6; the source is saved first. *)
Definition swap_src_dst_mac (m : list Z) (eth : Z) : option (list Z) :=
  swap_blocks 6 m (eth + 6) eth.
(** [saddr] at 8 and [daddr] at 24 of [struct ipv6hdr]. *)
Definition swap_src_dst_ipv6 (m : list Z) (ipv6 : Z) : option (list Z) :=
  swap_blocks 16 m (ipv6 + 8) (ipv6 + 24).
(** [saddr] at 12 and [daddr] at 16 of [struct iphdr]. *)
Definition swap_src_dst_ipv4 (m : list Z) (iphdr : Z) : option (list Z) :=
  swap_blocks 4 m (iphdr + 12) (iphdr + 16).

Ltac unfold_rewrite :=
  cbv [fld_get fld_set f_off f_len h_proto h_vlan_TCI h_vlan_encapsulated_proto
       sizeof_ethhdr sizeof_vlan_hdr].

Section roundtrip.
Context `{AdjustHeadLaws} (e : endian).

Lemma proto_is_vlan_8021Q : proto_is_vlan e (bpf_htons e ETH_P_8021Q) = true.
Proof. unfold proto_is_vlan. by rewrite Z.eqb_refl. Qed.

(** What a push leaves: the old header with the 802.1Q type, the tag, and the
    packet that was there. *)
Lemma vlan_tag_push_bytes m vlid m' :
  bytes_ok m -> vlan_tag_push e m 0 vlid = Some (0, m') ->
  bytes_ok m' /\ zlen m' = zlen m + 4 /\ 14 <= zlen m
  /\ get_bytes m' 0 12 = get_bytes m 0 12
  /\ load e 2 m' 12 = Some (bpf_htons e ETH_P_8021Q)
  /\ load e 2 m' 14 = Some (bpf_htons e vlid)
  /\ load e 2 m' 16 = load e 2 m 12
  /\ drop 18 m' = drop 14 m.
Proof.
  intros Hm. unfold vlan_tag_push. unfold_rewrite.
  destruct (get_bytes m 0 14) as [cpy|] eqn:Ec; [|done]. cbn [mbind option_bind].
  pose proof (length_get_bytes _ _ _ _ Ec) as Hlc.
  assert (14 <= zlen m) as Hl14.
  { assert (is_Some (get_bytes m 0 14)) as Hs by eauto. apply get_bytes_is_Some in Hs. lia. }
  destruct (adjust_head m (- (4))) as [m1|] eqn:Ea; [|done].
  pose proof (adjust_head_bytes _ _ _ Hm Ea) as Hm1.
  destruct (adjust_head_push m 4 m1 ltac:(lia) Ea) as [Hl1 Hd1].
  destruct (Z.ltb_spec (zlen m1) (0 + 14)); [done|].
  mem_step. destruct (Z.ltb_spec (zlen m0) (0 + 14 + 4)); [done|].
  repeat mem_step.
  pose proof (load_put_copy _ _ _ _ _ _ _ e (0 + 12) 2 Ec E ltac:(lia) ltac:(lia)) as Hp12.
  change (0 + (0 + 12 - 0)) with 12 in Hp12. rewrite E1 in Hp12. symmetry in Hp12.
  intros [= <-].
  assert (bytes_ok m0) as Hm0.
  { eapply put_bytes_ok; [exact Hm1| |exact E]. exact (get_bytes_ok _ _ _ _ Hm Ec). }
  split. { eauto using store_ok. }
  split; [mem_side|]. split; [done|].
  change (0 + 14 + 0) with 14 in *. change (0 + 14 + 2) with 16 in *.
  change (0 + 12) with 12 in *.
  split. { mem_frame. by rewrite (get_put_copy _ _ _ _ _ _ _ 0 12 Ec E) by lia. }
  split. { mem_frame. f_equal. apply wrap_small, bpf_htons_range. }
  split. { mem_frame. f_equal. apply wrap_small, bpf_htons_range. }
  split. { mem_frame. rewrite Hp12. f_equal. apply wrap_small. by apply (load_range e 2 m 12). }
  mem_frame. by rewrite <- Hd1, drop_drop.
Qed.

(** What a pop leaves. *)
Lemma vlan_tag_pop_bytes m vlid m' :
  bytes_ok m -> vlan_tag_pop e m 0 = Some (vlid, m') -> 0 <= vlid ->
  bytes_ok m' /\ zlen m = zlen m' + 4 /\ 14 <= zlen m'
  /\ get_bytes m' 0 12 = get_bytes m 0 12
  /\ load e 2 m' 12 = load e 2 m 16
  /\ (exists t, load e 2 m 14 = Some t /\ vlid = bpf_ntohs e t)
  /\ (exists t, load e 2 m 12 = Some t /\ proto_is_vlan e t = true)
  /\ drop 14 m' = drop 18 m.
Proof.
  intros Hm. unfold vlan_tag_pop. unfold_rewrite. change (0 + 12) with 12.
  destruct (load e 2 m 12) as [pr|] eqn:Epr; [|done]. cbn [mbind option_bind].
  destruct (proto_is_vlan e pr) eqn:Hv; cbn [negb]; [|by intros [= <-]].
  destruct (Z.ltb_spec (zlen m) (0 + 14 + 4)); [by intros [= <-]|].
  change (0 + 14 + 0) with 14. change (0 + 14 + 2) with 16.
  destruct (load_ex e 2 m 14) as [tci Et]; [lia|lia|]. rewrite Et. cbn [mbind option_bind].
  destruct (load_ex e 2 m 16) as [pr2 Epr2]; [lia|lia|]. rewrite Epr2. cbn [mbind option_bind].
  destruct (get_bytes_ex m 0 14) as [cpy Ec]; [lia|lia|]. rewrite Ec. cbn [mbind option_bind].
  pose proof (length_get_bytes _ _ _ _ Ec) as Hlc.
  destruct (adjust_head m 4) as [m1|] eqn:Ea; [|by intros [= <-]].
  pose proof (adjust_head_bytes _ _ _ Hm Ea) as Hm1.
  destruct (adjust_head_pop m 4 m1 ltac:(lia) Ea) as [_ ->].
  assert (zlen (drop (Z.to_nat 4) m) = zlen m - 4) as Hl1 by (unfold zlen in *; rewrite length_drop; lia).
  destruct (Z.ltb_spec (zlen (drop (Z.to_nat 4) m)) (0 + 14)); [by intros [= <-]|].
  mem_step. mem_step. intros [= <- <-] _.
  assert (bytes_ok m0) as Hm0.
  { eapply put_bytes_ok; [exact Hm1| |exact E]. exact (get_bytes_ok _ _ _ _ Hm Ec). }
  split. { eauto using store_ok. }
  split; [mem_side|]. split; [mem_side|].
  split. { mem_frame. by rewrite (get_put_copy _ _ _ _ _ _ _ 0 12 Ec E) by lia. }
  split. { mem_frame. f_equal. apply wrap_small. by apply (load_range e 2 m 16). }
  split; [eauto|]. split; [eauto|].
  mem_frame. rewrite drop_drop. done.
Qed.

(** Popping the tag a push has just added gives back the packet and the
    low sixteen bits of the VLAN identifier. *)
Theorem vlan_push_pop m vlid m' m'' r :
  bytes_ok m ->
  vlan_tag_push e m 0 vlid = Some (0, m') ->
  adjust_head m' 4 <> None ->
  vlan_tag_pop e m' 0 = Some (r, m'') -> m'' = m /\ r = u16 vlid.
Proof.
  intros Hm Hpush Ha Hpop.
  destruct (vlan_tag_push_bytes m vlid m' Hm Hpush)
    as (Hm' & Hl' & Hl & G12 & L12 & L14 & L16 & D18).
  assert (0 <= r) as Hr.
  { revert Hpop. unfold vlan_tag_pop. unfold_rewrite.
    change (0 + 12) with 12. rewrite L12. cbn [mbind option_bind].
    rewrite proto_is_vlan_8021Q. cbn [negb].
    destruct (Z.ltb_spec (zlen m') (0 + 14 + 4)); [lia|].
    change (0 + 14 + 0) with 14. rewrite L14. cbn [mbind option_bind]. repeat mem_step.
    destruct (adjust_head m' 4) as [m1|] eqn:Ea; [|done].
    destruct (adjust_head_pop m' 4 m1 ltac:(lia) Ea) as [_ ->].
    assert (zlen (drop (Z.to_nat 4) m') = zlen m' - 4)
      by (unfold zlen in *; rewrite length_drop; lia).
    destruct (Z.ltb_spec (zlen (drop (Z.to_nat 4) m')) (0 + 14)); [lia|].
    repeat mem_step. intros [= <- _]. rewrite ntohs_htons. by apply wrap_range. }
  destruct (vlan_tag_pop_bytes m' r m'' Hm' Hpop Hr)
    as (Hm'' & Hl'' & Hl2 & G12' & L12' & (t & Et & ->) & _ & D14).
  split.
  - apply (same_pieces_eq _ _ [12%nat; 2%nat]); [lia|]. cbn [same_pieces].
    split; [congruence|]. split; [lia|]. split; [|split; [lia|]].
    + destruct (load_ex e 2 m 12) as [v Ev]; [lia|lia|].
      apply (load_get_bytes e 2 _ _ _ _ v); [done|done| |done].
      change (0 + Z.of_nat 12) with 12. congruence.
    + change (Z.to_nat _) with 14%nat. congruence.
  - rewrite L14 in Et. injection Et as <-. apply ntohs_htons.
Qed.

(** Pushing back the identifier a pop returned restores the packet when
    the popped tag was an 802.1Q tag (an 802.1ad tag comes back as 802.1Q). *)
Theorem vlan_pop_push m vlid m' m'' :
  bytes_ok m -> load BE 2 m 12 = Some ETH_P_8021Q ->
  vlan_tag_pop e m 0 = Some (vlid, m') -> 0 <= vlid ->
  vlan_tag_push e m' 0 vlid = Some (0, m'') -> m'' = m.
Proof.
  intros Hm Hq Hpop Hv Hpush.
  destruct (vlan_tag_pop_bytes m vlid m' Hm Hpop Hv)
    as (Hm' & Hl' & Hl & G12 & L12 & (t & Et & ->) & (p & Ep & _) & D14).
  destruct (vlan_tag_push_bytes m' _ m'' Hm' Hpush)
    as (Hm'' & Hl'' & _ & G12' & L12' & L14' & L16' & D18).
  assert (forall x, in_range 16 x -> bpf_htons e (bpf_ntohs e x) = x) as Hinv.
  { intros x Hx. transitivity (u16 x); [|by apply wrap_small].
    destruct e; cbn [bpf_htons bpf_ntohs]; [apply bswap_involutive|apply wrap_wrap]. }
  rewrite Hinv in L14' by (by apply (load_range e 2 m 14)).
  pose proof (load_ntohs e m 12 p Hm Ep) as Hb. rewrite Hq in Hb. injection Hb as Hb.
  rewrite Hb, Hinv in L12' by (by apply (load_range e 2 m 12)).
  apply (same_pieces_eq _ _ [12; 2; 2; 2]%nat); [lia|]. cbn [same_pieces].
  change (0 + Z.of_nat 12) with 12. change (12 + Z.of_nat 2) with 14.
  change (14 + Z.of_nat 2) with 16. change (16 + Z.of_nat 2) with 18.
  split; [congruence|]. split; [lia|].
  split; [by apply (load_get_bytes e 2 _ _ _ _ p)|]. split; [lia|].
  split; [by apply (load_get_bytes e 2 _ _ _ _ t)|]. split; [lia|].
  destruct (load_ex e 2 m 16) as [v Ev]; [lia|lia|].
  split; [apply (load_get_bytes e 2 _ _ _ _ v); congruence|]. split; [lia|].
  change (Z.to_nat 18) with 18%nat. congruence.
Qed.
End roundtrip.

(** ** Address swaps *)

(** The two blocks have changed places and the rest is untouched. *)
Definition swapped (n : nat) (m m' : list Z) (a b : Z) : Prop :=
  zlen m' = zlen m
  /\ get_bytes m' a n = get_bytes m b n /\ get_bytes m' b n = get_bytes m a n
  /\ forall q k, (q + Z.of_nat k <= a \/ a + Z.of_nat n <= q) ->
                 (q + Z.of_nat k <= b \/ b + Z.of_nat n <= q) ->
                 get_bytes m' q k = get_bytes m q k.

Lemma swap_blocks_spec n m a b :
  0 <= a -> 0 <= b -> a + Z.of_nat n <= zlen m -> b + Z.of_nat n <= zlen m ->
  a + Z.of_nat n <= b \/ b + Z.of_nat n <= a ->
  exists m', swap_blocks n m a b = Some m' /\ swapped n m m' a b.
Proof.
  intros Ha Hb Hla Hlb Hd. unfold swap_blocks. do 3 mem_step.
  destruct (put_bytes_ex m0 b bs) as [m1 E2]; [lia|mem_side|]. rewrite E2.
  exists m1. split; [done|]. pose proof (zlen_put_bytes _ _ _ _ E2).
  unfold swapped. split; [lia|].
  split. { mem_frame. congruence. }
  split. { mem_frame. congruence. }
  intros q k Hqa Hqb. by mem_frame.
Qed.

(** Swapping twice gives the memory back. *)
Lemma swapped_twice n m m' m'' a b :
  0 <= a -> 0 <= b -> a + Z.of_nat n <= zlen m -> b + Z.of_nat n <= zlen m ->
  swapped n m m' a b -> swapped n m' m'' a b -> m'' = m.
Proof.
  intros Pa Pb La Lb (Hl & Ha & Hb & Ho) (Hl' & Ha' & Hb' & Ho').
  apply mem_eq_bytes; [lia|]. intros i Hi.
  destruct (decide (i + 1 <= a \/ a + Z.of_nat n <= i)) as [Da|Da].
  - destruct (decide (i + 1 <= b \/ b + Z.of_nat n <= i)) as [Db|Db].
    + rewrite (Ho' i 1%nat), (Ho i 1%nat) by lia. reflexivity.
    + apply (get_same_sub _ _ b n); [congruence|lia..].
  - apply (get_same_sub _ _ a n); [congruence|lia..].
Qed.

Lemma swap_blocks_twice n m a b :
  0 <= a -> 0 <= b -> a + Z.of_nat n <= zlen m -> b + Z.of_nat n <= zlen m ->
  a + Z.of_nat n <= b \/ b + Z.of_nat n <= a ->
  exists m', swap_blocks n m a b = Some m' /\ swapped n m m' a b
             /\ swap_blocks n m' a b = Some m.
Proof.
  intros Pa Pb La Lb Hd. destruct (swap_blocks_spec n m a b) as (m' & Hs & Hsw); [done..|].
  exists m'. split; [done|]. split; [done|].
  destruct (swap_blocks_spec n m' a b) as (m'' & Hs' & Hsw'); [lia|lia| | |done|].
  1,2: destruct Hsw as [-> _]; lia.
  rewrite Hs'. f_equal. exact (swapped_twice n m m' m'' a b Pa Pb La Lb Hsw Hsw').
Qed.

(** The address swaps exchange source and destination, leave every other
    byte alone, and undo themselves, for Ethernet, IPv6 and IPv4 headers that
    fit in the packet. *)
Theorem address_swaps m p :
  0 <= p ->
  (p + 14 <= zlen m -> exists m', swap_src_dst_mac m p = Some m'
     /\ swapped 6 m m' (p + 6) p /\ swap_src_dst_mac m' p = Some m)
  /\ (p + 40 <= zlen m -> exists m', swap_src_dst_ipv6 m p = Some m'
     /\ swapped 16 m m' (p + 8) (p + 24) /\ swap_src_dst_ipv6 m' p = Some m)
  /\ (p + 20 <= zlen m -> exists m', swap_src_dst_ipv4 m p = Some m'
     /\ swapped 4 m m' (p + 12) (p + 16) /\ swap_src_dst_ipv4 m' p = Some m).
Proof.
  intros Hp. split; [|split]; intros Hl;
    unfold swap_src_dst_mac, swap_src_dst_ipv6, swap_src_dst_ipv4;
    apply swap_blocks_twice; lia.
Qed.

(** ** Concrete runs *)

(** A packet buffer with unlimited headroom filled with zeroes. *)
Definition zero_headroom : AdjustHead := fun m d =>
  if d <? 0 then Some (repeat 0 (Z.to_nat (- d)) ++ m)
  else if d <=? zlen m then Some (drop (Z.to_nat d) m) else None.

Lemma zero_headroom_laws : @AdjustHeadLaws zero_headroom.
Proof.
  split; unfold adjust_head, zero_headroom; intros m d m'.
  - intros Hd. destruct (Z.ltb_spec d 0); [lia|]. destruct (Z.leb_spec d (zlen m)); [|done].
    by intros [= <-].
  - intros Hd. destruct (Z.ltb_spec (- d) 0).
    + rewrite Z.opp_involutive. intros [= <-]. rewrite zlen_app. unfold zlen.
      rewrite repeat_length, drop_app_ge; rewrite repeat_length; [|done].
      rewrite Nat.sub_diag. split; [lia|done].
    + assert (d = 0) as -> by lia. change (- 0) with 0.
      destruct (Z.leb_spec 0 (zlen m)); [|unfold zlen in *; lia].
      intros [= <-]. rewrite drop_0. split; [lia|done].
  - intros Hm. destruct (Z.ltb_spec d 0); [|destruct (_ <=? _); [|done]]; intros [= <-].
    + apply Forall_app. split; [|done].
      induction (Z.to_nat (- d)); cbn; constructor; [|done]. by split.
    + by apply Forall_drop.
Qed.
#[local] Existing Instance zero_headroom.
#[local] Existing Instance zero_headroom_laws.

Definition plain_packet : list Z := [2;0;0;0;0;1; 2;0;0;0;0;2; 8;0] ++ repeat 7 4.
Definition tagged_packet : list Z :=
  [2;0;0;0;0;1; 2;0;0;0;0;2; 129;0; 0;42; 8;0] ++ repeat 7 4.

Lemma vlan_push_pop_witness :
  vlan_tag_push LE plain_packet 0 42 = Some (0, tagged_packet)
  /\ vlan_tag_pop LE tagged_packet 0 = Some (42, plain_packet) /\ 42 = u16 42.
Proof.
  assert (vlan_tag_push LE plain_packet 0 42 = Some (0, tagged_packet)) as Hpush by reflexivity.
  assert (vlan_tag_pop LE tagged_packet 0 = Some (42, plain_packet)) as Hpop by reflexivity.
  split; [exact Hpush|]. split; [exact Hpop|].
  refine (proj2 (vlan_push_pop LE plain_packet 42 tagged_packet plain_packet 42 _ Hpush _ Hpop)).
  - apply bytes_okb_ok. reflexivity.
  - discriminate.
Defined.

Lemma vlan_pop_push_witness :
  vlan_tag_push LE plain_packet 0 42 = Some (0, tagged_packet) /\ tagged_packet = tagged_packet.
Proof.
  split; [reflexivity|].
  apply (vlan_pop_push LE tagged_packet 42 plain_packet tagged_packet).
  - apply bytes_okb_ok. reflexivity.
  - reflexivity.
  - reflexivity.
  - lia.
  - reflexivity.
Defined.

Lemma address_swaps_witness :
  exists m', swap_src_dst_mac plain_packet 0 = Some m' /\ swap_src_dst_mac m' 0 = Some plain_packet.
Proof.
  destruct (proj1 (address_swaps plain_packet 0 ltac:(done))) as (m' & H1 & _ & H2).
  - vm_compute. discriminate.
  - exists m'. split; [exact H1|exact H2].
Defined.
