(* ===== verification/XdpStats.v ===== *)
(** * XDP statistics

    The BPF side that counts packets per verdict (src/common/xdp_stats_kern.h
    and its copy in src/loader/xdp_prog_kern.c) and the user-space side that
    sums the per-CPU counters (src/loader/xdp_stats.c).  The per-CPU array is a
    kernel map: a class of operations with the laws the programs rely on. *)

From S2P Require Export Prelude.

(** [XDP_REDIRECT + 1]. *)
Definition XDP_ACTION_MAX : Z := 5.

Record datarec := Datarec { rx_packets : Z; rx_bytes : Z }.

#[export] Instance datarec_eq_dec : EqDecision datarec.
Proof. solve_decision. Defined.

(** ** The per-CPU array map *)

(** [pc_lookup t cpu k] is the record the program running on [cpu] reaches for
    key [k], [pc_write] a store through that pointer, and [pc_values] the
    user-space lookup, which copies out one record per possible CPU. *)
Class PercpuArray (T : Type) := {
  nr_cpus : nat;
  pc_lookup : T -> nat -> Z -> option datarec;
  pc_write : T -> nat -> Z -> datarec -> T;
  pc_values : T -> Z -> option (list datarec) }.

Class PercpuArrayLaws (T : Type) `{PercpuArray T} : Prop := {
  (** array elements always exist *)
  pc_lookup_is_Some (t : T) cpu k :
    (cpu < nr_cpus)%nat -> 0 <= k < XDP_ACTION_MAX -> is_Some (pc_lookup t cpu k);
  pc_lookup_write (t : T) cpu k r cpu' k' :
    is_Some (pc_lookup t cpu k) ->
    pc_lookup (pc_write t cpu k r) cpu' k' =
      if decide (cpu = cpu' /\ k = k') then Some r else pc_lookup t cpu' k';
  pc_values_lookup (t : T) k : 0 <= k < XDP_ACTION_MAX ->
    pc_values t k = mapM (fun cpu => pc_lookup t cpu k) (seq 0 nr_cpus) }.

(** ** Counting, in the kernel *)
Section kernel.
Context {T : Type} `{PercpuArray T}.

(** [rec->rx_packets++; rec->rx_bytes += bytes;] *)
Definition datarec_add (r : datarec) (bytes : Z) : datarec :=
  Datarec (u64 (rx_packets r + 1)) (u64 (rx_bytes r + bytes)).

(** src/common/xdp_stats_kern.h: the length is a [__u32] difference. *)
Definition xdp_stats_record_action (t : T) (cpu : nat) (data data_end action : Z) : Z * T :=
  if XDP_ACTION_MAX <=? action then (0, t)
  else
    match pc_lookup t cpu action with
    | None => (0, t)
    | Some rec => (action, pc_write t cpu action (datarec_add rec (data_end ⊟ data)))
    end.

(** src/loader/xdp_prog_kern.c: the length is a pointer difference. *)
Definition prog_record_action (t : T) (cpu : nat) (data data_end action : Z) : Z * T :=
  if XDP_ACTION_MAX <=? action then (0, t)
  else
    match pc_lookup t cpu action with
    | None => (0, t)
    | Some rec => (action, pc_write t cpu action (datarec_add rec (u64 (data_end - data))))
    end.

Definition xdp_pass_func (t : T) (cpu : nat) (data data_end : Z) : Z * T :=
  prog_record_action t cpu data data_end 2.
Definition xdp_drop_func (t : T) (cpu : nat) (data data_end : Z) : Z * T :=
  prog_record_action t cpu data data_end 1.
Definition xdp_abort_func (t : T) (cpu : nat) (data data_end : Z) : Z * T :=
  prog_record_action t cpu data data_end 0.
End kernel.

(** ** Reading, in user space *)
Section user.
Context {T : Type} `{PercpuArray T}.

Record record := Record_ { timestamp : Z; total : datarec }.

(** The summing loop of [map_get_value_percpu_array]. *)
Definition sum_records (values : list datarec) : datarec :=
  fold_left (fun acc v => Datarec (u64 (rx_packets acc + rx_packets v))
                                  (u64 (rx_bytes acc + rx_bytes v)))
            values (Datarec 0 0).

(** Leaves [value] alone when the lookup fails. *)
Definition map_get_value_percpu_array (t : T) (key : Z) (value : datarec) : datarec :=
  match pc_values t key with
  | None => value
  | Some values => sum_records values
  end.

(** A plain array holds one record per key: the lookup of CPU 0 stands for it. *)
Definition map_get_value_array (t : T) (key : Z) (value : datarec) : datarec :=
  default value (pc_lookup t 0 key).

Definition BPF_MAP_TYPE_ARRAY : Z := 2.
Definition BPF_MAP_TYPE_PERCPU_ARRAY : Z := 6.

(** [value] is an uninitialised local: its content is a parameter.  Returns
    the boolean result and the record written through [rec]. *)
Definition map_collect (t : T) (map_type key now : Z) (value : datarec) (rec : record)
  : bool * record :=
  if map_type =? BPF_MAP_TYPE_ARRAY
  then (true, Record_ now (map_get_value_array t key value))
  else if map_type =? BPF_MAP_TYPE_PERCPU_ARRAY
  then (true, Record_ now (map_get_value_percpu_array t key value))
  else (false, Record_ now (total rec)).

(** One record per action, read in order at the times [clock]. *)
Definition stats_collect (t : T) (map_type : Z) (clock : Z -> Z) (value : datarec)
    (stats : list record) : list record :=
  map (fun '(k, rec) => (map_collect t map_type k (clock k) value rec).2)
      (combine (map Z.of_nat (seq 0 (Z.to_nat XDP_ACTION_MAX))) stats).

(** [calc_period] up to the conversion to seconds: zero exactly when the
    floating-point period it returns is zero. *)
Definition calc_period (r p : record) : Z := u64 (timestamp r - timestamp p).

(** What one line of the report is computed from; the two rates are [packets]
    and [8 * bytes] over [period]. *)
Record stats_line := Line {
  l_action : Z; l_total_packets : Z; l_packets : Z; l_total_kbytes : Z; l_bytes : Z;
  l_period : Z }.

(** The report stops at the first action whose period is zero. *)
Fixpoint stats_print_from (i : Z) (stats prev : list record) : list stats_line :=
  match stats, prev with
  | rec :: stats, prv :: prev =>
      let period := calc_period rec prv in
      if period =? 0 then []
      else Line i (rx_packets (total rec))
             (u64 (rx_packets (total rec) - rx_packets (total prv)))
             (rx_bytes (total rec) / 1000)
             (u64 (rx_bytes (total rec) - rx_bytes (total prv))) period
           :: stats_print_from (i + 1) stats prev
  | _, _ => []
  end.
Definition stats_print (stats prev : list record) : list stats_line :=
  stats_print_from 0 stats prev.

(** The endless loop of [stats_poll], over the map and clock it meets at each
    round: [prev] is the record of the round before. *)
Fixpoint stats_poll_loop (map_type : Z) (value : datarec) (record : list record)
    (rounds : list (T * (Z -> Z))) : list (list stats_line) :=
  match rounds with
  | [] => []
  | (t, clock) :: rounds =>
      let prev := record in
      let record := stats_collect t map_type clock value prev in
      stats_print record prev :: stats_poll_loop map_type value record rounds
  end.

Definition record_zero : record := Record_ 0 (Datarec 0 0).

Definition stats_poll (map_type : Z) (value : datarec) (rounds : list (T * (Z -> Z)))
  : list (list stats_line) :=
  match rounds with
  | [] => []
  | (t, clock) :: rounds =>
      stats_poll_loop map_type value
        (stats_collect t map_type clock value (replicate (Z.to_nat XDP_ACTION_MAX) record_zero))
        rounds
  end.
End user.

(** ** Specification: a trace of packets *)

(** A packet handled on a CPU with a verdict, [ev_len] bytes long. *)
Record event := Event { ev_cpu : nat; ev_action : Z; ev_data : Z; ev_end : Z }.

Definition ev_len (ev : event) : Z := ev_end ev - ev_data ev.

(** Ring addresses of a packet: 32-bit, in order. *)
Definition event_ok (n : nat) (ev : event) : Prop :=
  (ev_cpu ev < n)%nat /\ 0 <= ev_action ev < XDP_ACTION_MAX
  /\ 0 <= ev_data ev <= ev_end ev /\ ev_end ev < 2 ^ 32.

Fixpoint run_events {T} `{PercpuArray T} (evs : list event) (t : T) : T :=
  match evs with
  | [] => t
  | ev :: evs =>
      run_events evs (xdp_stats_record_action t (ev_cpu ev) (ev_data ev) (ev_end ev)
                                              (ev_action ev)).2
  end.

(** The packets and bytes of the events with verdict [k]. *)
Definition count_packets (k : Z) (evs : list event) : Z :=
  Z.of_nat (length (filter (fun ev => ev_action ev = k) evs)).
Definition count_bytes (k : Z) (evs : list event) : Z :=
  foldr (fun ev acc => (if decide (ev_action ev = k) then ev_len ev else 0) + acc) 0 evs.

Section proofs.
Context {T : Type} `{PercpuArrayLaws T}.
Implicit Types (t : T) (evs : list event).

Definition values_of t (k : Z) : list datarec :=
  default [] (mapM (fun cpu => pc_lookup t cpu k) (seq 0 nr_cpus)).

(** The sums without reduction. *)
Definition raw_packets (l : list datarec) : Z := foldr (fun r acc => rx_packets r + acc) 0 l.
Definition raw_bytes (l : list datarec) : Z := foldr (fun r acc => rx_bytes r + acc) 0 l.

Lemma sum_records_raw l :
  sum_records l = Datarec (u64 (raw_packets l)) (u64 (raw_bytes l)).
Proof.
  unfold sum_records.
  enough (forall acc, fold_left (fun acc v => Datarec (u64 (rx_packets acc + rx_packets v))
                                  (u64 (rx_bytes acc + rx_bytes v))) l
            (Datarec (u64 (rx_packets acc)) (u64 (rx_bytes acc)))
          = Datarec (u64 (rx_packets acc + raw_packets l)) (u64 (rx_bytes acc + raw_bytes l))) as Hg.
  { exact (Hg (Datarec 0 0)). }
  induction l as [|v l IH]; intros acc; cbn.
  - by rewrite !Z.add_0_r.
  - rewrite !wrap_add_l.
    specialize (IH (Datarec (rx_packets acc + rx_packets v) (rx_bytes acc + rx_bytes v))).
    cbn in IH. rewrite IH. unfold raw_packets, raw_bytes. f_equal; f_equal; lia.
Qed.

(** The contribution of one CPU, as a function of the CPU number. *)
Definition cpu_field (p : datarec -> Z) t (k : Z) (cpu : nat) : Z :=
  match pc_lookup t cpu k with Some r => p r | None => 0 end.

Fixpoint zsum (f : nat -> Z) (l : list nat) : Z :=
  match l with [] => 0 | x :: l => f x + zsum f l end.

Lemma zsum_ext f g l : (forall x, In x l -> f x = g x) -> zsum f l = zsum g l.
Proof.
  induction l as [|x l IH]; intros Hf; cbn; [done|].
  rewrite Hf by (by left). rewrite IH; [done|]. intros. apply Hf. by right.
Qed.

(** Changing one summand changes the sum by the difference. *)
Lemma zsum_update f g l c :
  NoDup l -> In c l -> (forall x, x <> c -> g x = f x) ->
  zsum g l = zsum f l + (g c - f c).
Proof.
  induction l as [|x l IH]; intros Hnd Hin Hg; [done|]. cbn.
  apply list.NoDup_cons in Hnd as [Hx Hnd]. rewrite list_elem_of_In in Hx.
  destruct Hin as [<-|Hin].
  - rewrite (zsum_ext g f l); [lia|]. intros y Hy. apply Hg. congruence.
  - rewrite IH by done. rewrite (Hg x); [lia|]. congruence.
Qed.

Lemma mapM_raw t k l :
  (forall cpu, In cpu l -> is_Some (pc_lookup t cpu k)) ->
  exists vs, mapM (fun cpu => pc_lookup t cpu k) l = Some vs
             /\ raw_packets vs = zsum (cpu_field rx_packets t k) l
             /\ raw_bytes vs = zsum (cpu_field rx_bytes t k) l.
Proof.
  induction l as [|c l IH]; intros Hs; [by exists []|].
  destruct (Hs c) as [r Hr]; [by left|].
  destruct IH as (vs & Hm & Hp & Hb); [intros; apply Hs; by right|].
  unfold raw_packets, raw_bytes in *. exists (r :: vs). cbn. rewrite Hr, Hm. cbn.
  unfold cpu_field at 1 3. rewrite Hr, Hp, Hb. done.
Qed.

(** What user space reads for a key is the sum over the CPUs, modulo 2^64. *)
Lemma read_sum t k v :
  0 <= k < XDP_ACTION_MAX ->
  map_get_value_percpu_array t k v
  = Datarec (u64 (zsum (cpu_field rx_packets t k) (seq 0 nr_cpus)))
            (u64 (zsum (cpu_field rx_bytes t k) (seq 0 nr_cpus))).
Proof.
  intros Hk. unfold map_get_value_percpu_array. rewrite pc_values_lookup by done.
  destruct (mapM_raw t k (seq 0 nr_cpus)) as (vs & -> & Hp & Hb).
  { intros cpu Hc. apply in_seq in Hc. apply pc_lookup_is_Some; [lia|done]. }
  by rewrite sum_records_raw, Hp, Hb.
Qed.

(** A write to one record changes the total of its key by the difference. *)
Lemma pc_write_total (p : datarec -> Z) t cpu k r r' k' :
  (cpu < nr_cpus)%nat -> pc_lookup t cpu k = Some r ->
  zsum (cpu_field p (pc_write t cpu k r') k') (seq 0 nr_cpus)
  = zsum (cpu_field p t k') (seq 0 nr_cpus) + (if decide (k = k') then p r' - p r else 0).
Proof.
  intros Hc Hr.
  assert (forall c, pc_lookup (pc_write t cpu k r') c k'
                    = if decide (cpu = c /\ k = k') then Some r' else pc_lookup t c k') as Hl
    by (intros; apply pc_lookup_write; by rewrite Hr).
  rewrite (zsum_update (cpu_field p t k') (cpu_field p (pc_write t cpu k r') k') _ cpu).
  - f_equal. unfold cpu_field. rewrite Hl. destruct (decide (k = k')) as [<-|Hk].
    + by rewrite decide_True, Hr by done.
    + rewrite decide_False by (intros [_ ?]; done). lia.
  - apply NoDup_seq.
  - apply in_seq. lia.
  - intros c Hcc. unfold cpu_field. rewrite Hl, decide_False by (intros [? _]; done). done.
Qed.

Lemma wrap_add_incr w x y z : wrap w (x + (wrap w (y + z) - y)) = wrap w (x + z).
Proof.
  unfold wrap. rewrite <- Zplus_mod_idemp_r, Zminus_mod_idemp_l, Zplus_mod_idemp_r.
  f_equal. lia.
Qed.

Lemma event_len_u32 n ev : event_ok n ev -> ev_end ev ⊟ ev_data ev = ev_len ev.
Proof.
  intros (_ & _ & Hd & He). apply wrap_small. unfold in_range, ev_len. lia.
Qed.

(** What is read after one event: one packet and its length are added to the
    counter of its verdict. *)
Lemma record_event t ev k v :
  event_ok nr_cpus ev -> 0 <= k < XDP_ACTION_MAX ->
  let t' := (xdp_stats_record_action t (ev_cpu ev) (ev_data ev) (ev_end ev) (ev_action ev)).2 in
  let r := map_get_value_percpu_array t k v in
  map_get_value_percpu_array t' k v
  = Datarec (u64 (rx_packets r + if decide (ev_action ev = k) then 1 else 0))
            (u64 (rx_bytes r + if decide (ev_action ev = k) then ev_len ev else 0)).
Proof.
  intros Hev Hk t' r. subst t' r. pose proof (event_len_u32 _ _ Hev) as Hlen.
  destruct Hev as (Hc & Ha & _ & _).
  destruct (pc_lookup_is_Some t (ev_cpu ev) (ev_action ev) Hc Ha) as [rec Hrec].
  rewrite !read_sum by done. cbn [rx_packets rx_bytes].
  unfold xdp_stats_record_action.
  destruct (Z.leb_spec XDP_ACTION_MAX (ev_action ev)); [lia|].
  rewrite Hrec, Hlen. cbn [snd].
  rewrite !(pc_write_total _ t (ev_cpu ev) (ev_action ev) rec) by done.
  rewrite !wrap_add_l. cbn [datarec_add rx_packets rx_bytes].
  by destruct (decide (ev_action ev = k)); rewrite ?wrap_add_incr.
Qed.

Lemma count_packets_cons k ev evs :
  count_packets k (ev :: evs) = (if decide (ev_action ev = k) then 1 else 0) + count_packets k evs.
Proof.
  unfold count_packets. rewrite filter_cons. destruct (decide _); cbn [length]; lia.
Qed.

(** Counting over any interleaving of the CPUs. *)
Lemma record_events t evs k v :
  Forall (event_ok nr_cpus) evs -> 0 <= k < XDP_ACTION_MAX ->
  let r := map_get_value_percpu_array t k v in
  map_get_value_percpu_array (run_events evs t) k v
  = Datarec (u64 (rx_packets r + count_packets k evs)) (u64 (rx_bytes r + count_bytes k evs)).
Proof.
  intros Hevs Hk r. subst r. revert t. induction Hevs as [|ev evs Hev _ IH]; intros t.
  - cbn [run_events count_bytes foldr]. change (count_packets k []) with 0.
    rewrite read_sum by done. cbn [rx_packets rx_bytes]. by rewrite !Z.add_0_r, !wrap_wrap.
  - cbn [run_events]. rewrite IH, record_event by done. cbn [rx_packets rx_bytes].
    rewrite !wrap_add_l, count_packets_cons. cbn [count_bytes foldr].
    fold (count_bytes k evs). f_equal; f_equal; lia.
Qed.

(** *** The periodic report *)

Definition actions : list Z := map Z.of_nat (seq 0 (Z.to_nat XDP_ACTION_MAX)).

Lemma actions_range k : In k actions -> 0 <= k < XDP_ACTION_MAX.
Proof.
  unfold actions. intros (n & <- & Hn)%in_map_iff. apply in_seq in Hn.
  unfold XDP_ACTION_MAX in *. lia.
Qed.

(** A snapshot depends neither on the records it overwrites nor on the
    uninitialised local. *)
Lemma stats_collect_percpu t clock v v' stats :
  length stats = 5%nat ->
  stats_collect t BPF_MAP_TYPE_PERCPU_ARRAY clock v stats
  = map (fun k => Record_ (clock k) (map_get_value_percpu_array t k v')) actions.
Proof.
  intros Hlen. destruct stats as [|? [|? [|? [|? [|? [|]]]]]]; try done.
  unfold stats_collect. change (combine (map Z.of_nat (seq 0 (Z.to_nat XDP_ACTION_MAX))) _)
    with [(0, r); (1, r0); (2, r1); (3, r2); (4, r3)].
  cbn [map]. change actions with [0; 1; 2; 3; 4]. cbn [map].
  unfold map_collect. cbn -[map_get_value_percpu_array].
  by repeat (rewrite read_sum by (unfold XDP_ACTION_MAX; lia)).
Qed.

Lemma stats_print_map f g n i :
  let l := map Z.of_nat (seq i n) in
  (forall k, In k l -> calc_period (f k) (g k) <> 0) ->
  stats_print_from (Z.of_nat i) (map f l) (map g l)
  = map (fun k => Line k (rx_packets (total (f k)))
             (u64 (rx_packets (total (f k)) - rx_packets (total (g k))))
             (rx_bytes (total (f k)) / 1000)
             (u64 (rx_bytes (total (f k)) - rx_bytes (total (g k))))
             (calc_period (f k) (g k))) l.
Proof.
  revert i. induction n as [|n IH]; intros i l Hp; [done|]. subst l.
  cbn [seq map stats_print_from].
  destruct (Z.eqb_spec (calc_period (f (Z.of_nat i)) (g (Z.of_nat i))) 0) as [E|_].
  { by destruct (Hp (Z.of_nat i)); [left|]. }
  f_equal. replace (Z.of_nat i + 1) with (Z.of_nat (S i)) by lia.
  apply IH. intros k Hk. apply Hp. by right.
Qed.

(** When the lookup of a counter fails, collecting it still succeeds and
    records the content of a local that was never initialised. *)
Lemma map_collect_failed_lookup (t : T) (k now : Z) (v : datarec) (rec : record) :
  pc_values t k = None ->
  map_collect t BPF_MAP_TYPE_PERCPU_ARRAY k now v rec = (true, Record_ now v).
Proof.
  intros Hv. unfold map_collect, map_get_value_percpu_array. cbn. by rewrite Hv.
Qed.

(** Batches of packets between the rounds, each with the clock of the round
    that follows it. *)
Fixpoint traffic t (batches : list (list event * (Z -> Z))) : list (T * (Z -> Z)) :=
  match batches with
  | [] => []
  | (evs, clock) :: batches => (run_events evs t, clock) :: traffic (run_events evs t) batches
  end.

(** What the reports should say: for each verdict the packets and bytes of
    that very batch, and the running totals. *)
Definition report t (evs : list event) (clock0 clock : Z -> Z) : list stats_line :=
  map (fun k =>
         let total := map_get_value_percpu_array (run_events evs t) k (Datarec 0 0) in
         Line k (rx_packets total) (u64 (count_packets k evs))
              (rx_bytes total / 1000) (u64 (count_bytes k evs)) (clock k - clock0 k)) actions.

Fixpoint reports t (clock0 : Z -> Z) (batches : list (list event * (Z -> Z)))
  : list (list stats_line) :=
  match batches with
  | [] => []
  | (evs, clock) :: batches =>
      report t evs clock0 clock :: reports (run_events evs t) clock batches
  end.

(** The clock advances between two readings of a counter. *)
Fixpoint clocks_ok (clock0 : Z -> Z) (batches : list (list event * (Z -> Z))) : Prop :=
  match batches with
  | [] => True
  | (_, clock) :: batches =>
      (forall k, In k actions -> 0 < clock k - clock0 k < 2 ^ 64) /\ clocks_ok clock batches
  end.

Definition snapshot t (clock : Z -> Z) : list record :=
  map (fun k => Record_ (clock k) (map_get_value_percpu_array t k (Datarec 0 0))) actions.

Lemma stats_print_batch t evs clock0 clock :
  Forall (event_ok nr_cpus) evs ->
  (forall k, In k actions -> 0 < clock k - clock0 k < 2 ^ 64) ->
  stats_print (snapshot (run_events evs t) clock) (snapshot t clock0)
  = report t evs clock0 clock.
Proof.
  intros Hevs Hc. unfold stats_print, snapshot.
  assert (forall k, In k actions ->
            calc_period (Record_ (clock k) (Datarec 0 0)) (Record_ (clock0 k) (Datarec 0 0))
            = clock k - clock0 k) as Hper.
  { intros k Hk. apply wrap_small. specialize (Hc k Hk). unfold in_range. cbn [timestamp]. lia. }
  unfold actions. rewrite (stats_print_map _ _ _ 0); fold actions.
  2: { intros k Hk. specialize (Hc k Hk). specialize (Hper k Hk).
       unfold calc_period in *. cbn [timestamp] in *. lia. }
  apply map_ext_in. intros k Hk. specialize (Hper k Hk). unfold calc_period in *.
  cbn [timestamp total] in *. rewrite Hper.
  rewrite (record_events t evs k (Datarec 0 0)) by (done || by apply actions_range).
  cbn [rx_packets rx_bytes]. rewrite !wrap_sub_l. by do 2 f_equal; f_equal; lia.
Qed.

Lemma stats_poll_loop_reports t v clock0 batches :
  Forall (fun b => Forall (event_ok nr_cpus) b.1) batches ->
  clocks_ok clock0 batches ->
  stats_poll_loop BPF_MAP_TYPE_PERCPU_ARRAY v (snapshot t clock0) (traffic t batches)
  = reports t clock0 batches.
Proof.
  revert t clock0. induction batches as [|[evs clock] batches IH]; intros t clock0 Hb Hc; [done|].
  apply Forall_cons_1 in Hb as [Hevs Hb]. destruct Hc as [Hc Hcs].
  cbn [traffic stats_poll_loop reports].
  rewrite (stats_collect_percpu _ clock v (Datarec 0 0)) by done.
  fold (snapshot (run_events evs t) clock).
  by rewrite stats_print_batch, IH.
Qed.
End proofs.

(** ** Properties *)
Section claims.
Context {T : Type} `{PercpuArrayLaws T}.

(** C13. The counters are exact.  However the packets of the CPUs interleave,
    collecting the counter of verdict [k] gives the previous reading plus the
    number of packets with that verdict and their total length, both modulo
    2^64; both BPF programs count the same and return their verdict. *)
Theorem stats_exact (t : T) (evs : list event) (k now : Z) (v v' : datarec) (rec : record) :
  Forall (event_ok nr_cpus) evs -> 0 <= k < XDP_ACTION_MAX ->
  map_collect (run_events evs t) BPF_MAP_TYPE_PERCPU_ARRAY k now v rec
  = (true, let r := total (map_collect t BPF_MAP_TYPE_PERCPU_ARRAY k now v' rec).2 in
           Record_ now (Datarec (u64 (rx_packets r + count_packets k evs))
                                (u64 (rx_bytes r + count_bytes k evs))))
  /\ forall ev, In ev evs ->
     prog_record_action t (ev_cpu ev) (ev_data ev) (ev_end ev) (ev_action ev)
     = xdp_stats_record_action t (ev_cpu ev) (ev_data ev) (ev_end ev) (ev_action ev)
     /\ (xdp_stats_record_action t (ev_cpu ev) (ev_data ev) (ev_end ev) (ev_action ev)).1
        = ev_action ev.
Proof.
  intros Hevs Hk. split.
  - unfold map_collect. cbn -[map_get_value_percpu_array].
    rewrite record_events by done. by rewrite !(read_sum t k) by done.
  - intros ev Hin. rewrite List.Forall_forall in Hevs. specialize (Hevs ev Hin).
    pose proof (event_len_u32 _ _ Hevs) as Hlen.
    destruct Hevs as (Hc & Ha & Hd & He).
    unfold prog_record_action, xdp_stats_record_action. rewrite Hlen.
    rewrite (wrap_small 64 (ev_end ev - ev_data ev)) by (unfold in_range; lia).
    destruct (Z.leb_spec XDP_ACTION_MAX (ev_action ev)); [lia|].
    destruct (pc_lookup_is_Some t (ev_cpu ev) (ev_action ev) Hc Ha) as [r Hr].
    rewrite Hr. done.
Qed.

(** Every report of the polling loop is the traffic since the previous
    one: for each of the five verdicts, in order, the packets and bytes
    counted between the two readings, the running totals and the elapsed
    time; what the records and the uninitialised local held does not matter. *)
Theorem stats_poll_reports (t : T) (v : datarec) (clock0 : Z -> Z)
    (batches : list (list event * (Z -> Z))) :
  Forall (fun b => Forall (event_ok nr_cpus) b.1) batches ->
  clocks_ok clock0 batches ->
  stats_poll BPF_MAP_TYPE_PERCPU_ARRAY v ((t, clock0) :: traffic t batches)
  = reports t clock0 batches.
Proof.
  intros Hb Hc. unfold stats_poll.
  rewrite (stats_collect_percpu t clock0 v (Datarec 0 0)) by done.
  fold (snapshot t clock0). by apply stats_poll_loop_reports.
Qed.
End claims.

(** ** A concrete per-CPU array: two CPUs *)

Definition two_cpus := nat -> Z -> datarec.

Definition two_cpus_ok (cpu : nat) (k : Z) : bool :=
  (cpu <? 2)%nat && (0 <=? k) && (k <? XDP_ACTION_MAX).

#[export] Instance two_cpus_array : PercpuArray two_cpus := {
  nr_cpus := 2;
  pc_lookup t cpu k := if two_cpus_ok cpu k then Some (t cpu k) else None;
  pc_write t cpu k r := fun cpu' k' => if decide (cpu = cpu' /\ k = k') then r else t cpu' k';
  pc_values t k := if two_cpus_ok 0 k then Some [t 0%nat k; t 1%nat k] else None }.

#[export] Instance two_cpus_laws : PercpuArrayLaws two_cpus.
Proof.
  split; cbn [nr_cpus pc_lookup pc_write pc_values two_cpus_array]; unfold two_cpus_ok.
  - intros t cpu k Hc Hk. change (cpu < 2)%nat in Hc. rewrite (proj2 (Nat.ltb_lt cpu 2) Hc).
    replace (0 <=? k) with true by lia. replace (k <? XDP_ACTION_MAX) with true by lia.
    by eexists.
  - intros t cpu k r cpu' k' Hs. destruct (decide (cpu = cpu' /\ k = k')) as [[<- <-]|]; [|done].
    by destruct (_ && _); [|destruct Hs as [? [=]]].
  - intros t k Hk. replace (0 <=? k) with true by lia.
    replace (k <? XDP_ACTION_MAX) with true by lia. reflexivity.
Qed.

Definition empty_counters : two_cpus := fun _ _ => Datarec 0 0.

(** Two packets dropped, one on each CPU, and one passed. *)
Definition three_packets : list event :=
  [Event 0 1 4096 4156; Event 1 2 8192 9692; Event 1 1 4096 4196].

Ltac events := repeat constructor; cbn; try lia; try (unfold XDP_ACTION_MAX; lia).

Lemma stats_exact_witness :
  map_collect (run_events three_packets empty_counters) BPF_MAP_TYPE_PERCPU_ARRAY 1 7
              (Datarec 3 3) record_zero
  = (true, Record_ 7 (Datarec 2 160)).
Proof.
  refine (eq_trans (proj1 (stats_exact empty_counters three_packets 1 7 (Datarec 3 3)
                             (Datarec 0 0) record_zero _ _)) _).
  - events.
  - unfold XDP_ACTION_MAX. lia.
  - vm_compute. reflexivity.
Defined.

Lemma stats_poll_reports_witness :
  stats_poll BPF_MAP_TYPE_PERCPU_ARRAY (Datarec 9 9)
    ((empty_counters, fun _ => 0)
       :: traffic empty_counters [(three_packets, fun _ => 1000); ([], fun _ => 2000)])
  = [[Line 0 0 0 0 0 1000; Line 1 2 2 0 160 1000; Line 2 1 1 1 1500 1000;
      Line 3 0 0 0 0 1000; Line 4 0 0 0 0 1000];
     [Line 0 0 0 0 0 1000; Line 1 2 0 0 0 1000; Line 2 1 0 1 0 1000;
      Line 3 0 0 0 0 1000; Line 4 0 0 0 0 1000]].
Proof.
  refine (eq_trans (stats_poll_reports empty_counters (Datarec 9 9) (fun _ => 0)
                      [(three_packets, fun _ => 1000); ([], fun _ => 2000)] _ _) _).
  - events.
  - cbn. repeat split; lia.
  - vm_compute. reflexivity.
Defined.
