(* ===== verification/Jhash.v ===== *)
(** * Jenkins hash (src/headers/jhash.h)

    The byte, word-array and fixed-arity variants, over 32-bit words. *)

From S2P Require Export Memory.

(** ** The hash functions *)

Definition rol32 (word shift : Z) : Z :=
  Z.lor (u32 (Z.shiftl word shift)) (Z.shiftr word (Z.land (u32 (- shift)) 31)).

(** The three words of internal state. *)
Record jstate := J { ja : Z; jb : Z; jc : Z }.

Definition __jhash_mix (s : jstate) : jstate :=
  let '(J a b c) := s in
  let a := a ⊟ c in let a := Z.lxor a (rol32 c 4) in let c := c ⊞ b in
  let b := b ⊟ a in let b := Z.lxor b (rol32 a 6) in let a := a ⊞ c in
  let c := c ⊟ b in let c := Z.lxor c (rol32 b 8) in let b := b ⊞ a in
  let a := a ⊟ c in let a := Z.lxor a (rol32 c 16) in let c := c ⊞ b in
  let b := b ⊟ a in let b := Z.lxor b (rol32 a 19) in let a := a ⊞ c in
  let c := c ⊟ b in let c := Z.lxor c (rol32 b 4) in let b := b ⊞ a in
  J a b c.

Definition __jhash_final (s : jstate) : jstate :=
  let '(J a b c) := s in
  let c := Z.lxor c b in let c := c ⊟ rol32 b 14 in
  let a := Z.lxor a c in let a := a ⊟ rol32 c 11 in
  let b := Z.lxor b a in let b := b ⊟ rol32 a 25 in
  let c := Z.lxor c b in let c := c ⊟ rol32 b 16 in
  let a := Z.lxor a c in let a := a ⊟ rol32 c 4 in
  let b := Z.lxor b a in let b := b ⊟ rol32 a 14 in
  let c := Z.lxor c b in let c := c ⊟ rol32 b 24 in
  J a b c.

Definition JHASH_INITVAL : Z := 0xdeadbeef.

(** [a += x; b += y; c += z; __jhash_mix(a, b, c);] *)
Definition mix_block (s : jstate) (x y z : Z) : jstate :=
  __jhash_mix (J (ja s ⊞ x) (jb s ⊞ y) (jc s ⊞ z)).

Section jhash.
Variables (e : endian) (m : list Z).

(** The loop over all but the last block; gives the cursor, the remaining
    length and the state. *)
Fixpoint jhash_loop (fuel : nat) (k length : Z) (s : jstate) : option (Z * Z * jstate) :=
  if length <=? 12 then Some (k, length, s)
  else match fuel with
       | O => None
       | S fuel =>
           x ← load e 4 m k; y ← load e 4 m (k + 4); z ← load e 4 m (k + 8);
           jhash_loop fuel (k + 12) (length ⊟ 12) (mix_block s x y z)
       end.

(** One case of the last switch: adds [k[i] << sh] when the length reaches it. *)
Definition tail_byte (k length i sh acc : Z) : option Z :=
  if i <? length then x ← load e 1 m (k + i); Some (acc ⊞ u32 (Z.shiftl x sh)) else Some acc.

Definition tail_word (k length i acc : Z) : option Z :=
  acc ← tail_byte k length (i + 3) 24 acc;
  acc ← tail_byte k length (i + 2) 16 acc;
  acc ← tail_byte k length (i + 1) 8 acc;
  tail_byte k length i 0 acc.

Definition jhash_tail (k length : Z) (s : jstate) : option Z :=
  c ← tail_word k length 8 (jc s);
  b ← tail_word k length 4 (jb s);
  a ← tail_word k length 0 (ja s);
  Some (jc (if 0 <? length then __jhash_final (J a b c) else J a b c)).

Definition jhash (length initval : Z) : option Z :=
  let v := JHASH_INITVAL ⊞ length ⊞ initval in
  '(k, length, s) ← jhash_loop (Z.to_nat length) 0 length (J v v v);
  jhash_tail k length s.
End jhash.

Section jhash2.
Variable k : list Z.

Fixpoint jhash2_loop (fuel : nat) (i length : Z) (s : jstate) : option (Z * Z * jstate) :=
  if length <=? 3 then Some (i, length, s)
  else match fuel with
       | O => None
       | S fuel =>
           x ← znth k i; y ← znth k (i + 1); z ← znth k (i + 2);
           jhash2_loop fuel (i + 3) (length ⊟ 3) (mix_block s x y z)
       end.

Definition add_word (length i n acc : Z) : option Z :=
  if n <? length then x ← znth k (i + n); Some (acc ⊞ x) else Some acc.

Definition jhash2_tail (i length : Z) (s : jstate) : option Z :=
  c ← add_word length i 2 (jc s);
  b ← add_word length i 1 (jb s);
  a ← add_word length i 0 (ja s);
  Some (jc (if 0 <? length then __jhash_final (J a b c) else J a b c)).

Definition jhash2_init (length initval : Z) : jstate :=
  let v := JHASH_INITVAL ⊞ u32 (Z.shiftl length 2) ⊞ initval in J v v v.

Definition jhash2 (length initval : Z) : option Z :=
  '(i, length, s) ← jhash2_loop (Z.to_nat length) 0 length (jhash2_init length initval);
  jhash2_tail i length s.
End jhash2.

Definition __jhash_nwords (a b c initval : Z) : Z :=
  jc (__jhash_final (J (a ⊞ initval) (b ⊞ initval) (c ⊞ initval))).

Definition jhash_3words (a b c initval : Z) : Z :=
  __jhash_nwords a b c (initval ⊞ JHASH_INITVAL ⊞ Z.shiftl 3 2).
Definition jhash_2words (a b initval : Z) : Z :=
  __jhash_nwords a b 0 (initval ⊞ JHASH_INITVAL ⊞ Z.shiftl 2 2).
Definition jhash_1word (a initval : Z) : Z :=
  __jhash_nwords a 0 0 (initval ⊞ JHASH_INITVAL ⊞ Z.shiftl 1 2).

(** ** Words and ranges *)

Ltac jfold := cbn [mbind option_bind ja jb jc].

Lemma final_range s : in_range 32 (jc (__jhash_final s)).
Proof. destruct s. cbn [__jhash_final jc]. apply wrap_range. lia. Qed.

(** ** The hash of a byte key *)

Section bytes.
Variables (e : endian) (m : list Z).

(** The loop stays inside the key and leaves at most one block. *)
Lemma jhash_loop_total fuel k length s :
  0 <= k -> 0 <= length -> k + length = zlen m -> length < 2 ^ 32 ->
  length <= 12 * Z.of_nat fuel + 12 ->
  exists k' length' s',
    (forall x, jhash_loop e (m ++ x) fuel k length s = Some (k', length', s')) /\ 0 <= k' /\ 0 <= length' <= 12 /\ k' + length' = zlen m.
Proof.
  revert k length s. induction fuel as [|fuel IH]; intros k length s Hk Hl Hm Hb Hf;
    cbn [jhash_loop]; destruct (Z.leb_spec length 12) as [H|H].
  1,3: eexists _, _, _; (split; [done|lia]).
  { lia. }
  destruct (load_ex e 4 m k) as [a Ha]; [lia..|].
  destruct (load_ex e 4 m (k + 4)) as [b Hb']; [lia..|].
  destruct (load_ex e 4 m (k + 8)) as [c Hc]; [lia..|].
  destruct (IH (k + 12) (length - 12) (mix_block s a b c)) as (k' & l' & s' & Hx & Hr); [lia..|].
  exists k', l', s'. split; [|done]. intros x.
  rewrite !load_app, Ha, Hb', Hc by lia. jfold.
  rewrite wrap_small by (unfold in_range; lia). apply Hx.
Qed.

Lemma tail_byte_total k length i sh acc :
  0 <= k -> 0 <= i -> k + length <= zlen m ->
  exists v, forall x, tail_byte e (m ++ x) k length i sh acc = Some v.
Proof.
  intros Hk Hi Hm. unfold tail_byte. destruct (Z.ltb_spec i length); [|eauto].
  destruct (load_ex e 1 m (k + i)) as [b Hb]; [lia..|].
  eexists. intros x. by rewrite load_app, Hb by lia.
Qed.

Lemma tail_word_total k length i acc :
  0 <= k -> 0 <= i -> k + length <= zlen m ->
  exists v, forall x, tail_word e (m ++ x) k length i acc = Some v.
Proof.
  intros Hk Hi Hm. unfold tail_word.
  destruct (tail_byte_total k length (i + 3) 24 acc) as [v Hv]; [lia..|].
  destruct (tail_byte_total k length (i + 2) 16 v) as [w Hw]; [lia..|].
  destruct (tail_byte_total k length (i + 1) 8 w) as [y Hy]; [lia..|].
  destruct (tail_byte_total k length i 0 y) as [z Hz]; [lia..|].
  exists z. intros x. rewrite Hv. jfold. rewrite Hw. jfold. rewrite Hy. jfold. apply Hz.
Qed.
End bytes.

(** ** The hash of an array of words *)

Fixpoint words_bytes (ws : list Z) : list Z :=
  match ws with
  | [] => []
  | w :: ws => split LE 4 w ++ words_bytes ws
  end.

Lemma zlen_words_bytes ws : zlen (words_bytes ws) = 4 * zlen ws.
Proof.
  induction ws as [|w ws IH]; [done|]. cbn [words_bytes].
  rewrite zlen_app, zlen_cons, IH. unfold zlen at 1. rewrite length_split. lia.
Qed.

Lemma get_bytes_word ws i w :
  znth ws i = Some w -> get_bytes (words_bytes ws) (4 * i) 4 = Some (split LE 4 w).
Proof.
  revert i. induction ws as [|v ws IH]; intros i Hi.
  - apply znth_Some_range in Hi. unfold zlen in Hi. cbn in Hi. lia.
  - pose proof (znth_Some_range _ _ _ Hi) as Hr. cbn [words_bytes].
    destruct (decide (i = 0)) as [->|Hne].
    + injection Hi as ->. unfold get_bytes. rewrite zlen_app.
      rewrite decide_True; [by cbn|].
      pose proof (zlen_nonneg (words_bytes ws)). unfold zlen at 1. rewrite length_split. lia.
    + replace (4 * i) with (zlen (split LE 4 v) + 4 * (i - 1))
        by (unfold zlen; rewrite length_split; lia).
      rewrite get_bytes_app_r by lia. apply IH.
      rewrite <- (znth_app_r [v]) by lia. cbn [app].
      by replace (zlen [v] + (i - 1)) with i by (unfold zlen; cbn; lia).
Qed.

Lemma load_word ws i w :
  znth ws i = Some w -> in_range 32 w -> load LE 4 (words_bytes ws) (4 * i) = Some w.
Proof.
  intros Hi Hw. unfold load. rewrite (get_bytes_word _ _ _ Hi). jfold.
  rewrite combine_split. by rewrite wrap_small.
Qed.

(** The four bytes of a word, added one by one. *)
Lemma tail_word_word ws i w length j acc :
  znth ws (i + j) = Some w -> in_range 32 w -> 0 <= i -> 0 <= j -> 4 * j + 4 <= length ->
  tail_word LE (words_bytes ws) (4 * i) length (4 * j) acc = Some (acc ⊞ w).
Proof.
  intros Hi Hw Hi0 Hj Hl. pose proof (get_bytes_word _ _ _ Hi) as Hg.
  pose proof (le_combine_split 4 w) as Hsum. cbn [split] in Hg.
  destruct (le_split 4 w) as [|b0 [|b1 [|b2 [|b3 [|]]]]] eqn:Hs; try done.
  assert (Hb : forall q b, 0 <= q -> [b0; b1; b2; b3] !! Z.to_nat q = Some b ->
            load LE 1 (words_bytes ws) (4 * i + (4 * j + q)) = Some b).
  { intros q b Hq Hb. pose proof (lookup_lt_Some _ _ _ Hb) as Hlt. cbn [List.length] in Hlt.
    unfold load. rewrite (get_bytes_sub _ _ _ _ _ 1 Hg) by lia.
    replace (4 * i + (4 * j + q) - 4 * (i + j)) with q by lia.
    rewrite (drop_S _ _ _ Hb). cbn. rewrite take_0. f_equal. cbn. lia. }
  pose proof (Hb 0 b0) as H0. rewrite Z.add_0_r in H0.
  unfold tail_word, tail_byte.
  repeat (match goal with |- context [?x <? length] =>
            replace (x <? length) with true by lia end).
  rewrite (Hb 3 b3), (Hb 2 b2), (Hb 1 b1), H0 by (lia || reflexivity). jfold.
  rewrite !Z.shiftl_mul_pow2 by lia.
  change (8 * Z.of_nat 4) with 32 in Hsum. rewrite wrap_small in Hsum by done.
  rewrite <- Hsum. cbn [le_combine]. f_equal. wrap_sum.
Qed.

Lemma tail_word_none e m k length i acc :
  length <= i -> tail_word e m k length i acc = Some acc.
Proof.
  intros. unfold tail_word, tail_byte.
  repeat (match goal with |- context [?x <? length] =>
            replace (x <? length) with false by lia end; jfold). done.
Qed.

(** On words, the loops of [jhash] and [jhash2] go in step. *)
Lemma loops_agree ws fuel fuel' i n s :
  Forall (in_range 32) ws -> 0 <= i -> 0 <= n -> i + n = zlen ws -> n < 2 ^ 30 ->
  n <= 3 * Z.of_nat fuel' + 3 -> n <= 3 * Z.of_nat fuel + 3 ->
  exists i' n' s', jhash2_loop ws fuel' i n s = Some (i', n', s')
    /\ jhash_loop LE (words_bytes ws) fuel (4 * i) (4 * n) s = Some (4 * i', 4 * n', s')
    /\ 0 <= i' /\ 0 <= n' <= 3 /\ i' + n' = zlen ws.
Proof.
  intros Hws. revert fuel i n s. induction fuel' as [|fuel' IH]; intros fuel i n s Hi Hn Hm Hb Hf Hf';
    destruct fuel as [|fuel]; cbn [jhash_loop jhash2_loop];
    destruct (Z.leb_spec n 3); destruct (Z.leb_spec (4 * n) 12); try lia.
  1-4: eexists _, _, _; (split_and!; [done|done|lia..]).
  assert (Hx : forall j, 0 <= j < 3 -> exists x, znth ws (i + j) = Some x
             /\ load LE 4 (words_bytes ws) (4 * i + 4 * j) = Some x).
  { intros j Hj. destruct (proj2 (znth_is_Some ws (i + j))) as [x Hx]; [lia|].
    exists x. split; [done|]. replace (4 * i + 4 * j) with (4 * (i + j)) by lia.
    apply load_word; [done|]. revert Hx. unfold znth. case_decide; [|done].
    intros Hx. by eapply Forall_lookup_1. }
  destruct (Hx 0) as (x & Hx1 & Hx2); [lia|]. rewrite Z.add_0_r in Hx1.
  rewrite Z.mul_0_r, Z.add_0_r in Hx2.
  destruct (Hx 1) as (y & Hy1 & Hy2); [lia|]. destruct (Hx 2) as (z & Hz1 & Hz2); [lia|].
  change (4 * 1) with 4 in Hy2. change (4 * 2) with 8 in Hz2. rewrite Hx1, Hx2, Hy1, Hy2, Hz1, Hz2. jfold.
  rewrite !wrap_small by (unfold in_range; lia).
  replace (4 * i + 12) with (4 * (i + 3)) by lia.
  replace (4 * n - 12) with (4 * (n - 3)) by lia.
  apply IH; lia.
Qed.

Lemma tails_agree ws i n s :
  Forall (in_range 32) ws -> 0 <= i -> 0 <= n <= 3 -> i + n = zlen ws ->
  jhash_tail LE (words_bytes ws) (4 * i) (4 * n) s = jhash2_tail ws i n s
  /\ is_Some (jhash2_tail ws i n s).
Proof.
  intros Hws Hi Hn Hm.
  assert (Hw : forall j acc, 0 <= j < 3 ->
     tail_word LE (words_bytes ws) (4 * i) (4 * n) (4 * j) acc = add_word ws n i j acc
     /\ is_Some (add_word ws n i j acc)).
  { intros j acc Hj. unfold add_word. destruct (Z.ltb_spec j n).
    - destruct (proj2 (znth_is_Some ws (i + j))) as [x Hx]; [lia|]. rewrite Hx. jfold.
      split; [|eauto]. apply tail_word_word; [done| |lia..].
      revert Hx. unfold znth. case_decide; [|done]. intros. by eapply Forall_lookup_1.
    - rewrite tail_word_none by lia. eauto. }
  unfold jhash_tail, jhash2_tail.
  destruct (Hw 2 (jc s)) as [H2 [c Hc]]; [lia|]. change (4 * 2) with 8 in H2.
  destruct (Hw 1 (jb s)) as [H1 [b Hb]]; [lia|]. change (4 * 1) with 4 in H1.
  destruct (Hw 0 (ja s)) as [H0 [a Ha]]; [lia|]. change (4 * 0) with 0 in H0.
  rewrite H2, Hc. jfold. rewrite H1, Hb. jfold. rewrite H0, Ha. jfold.
  replace (0 <? 4 * n) with (0 <? n); [eauto|].
  destruct (Z.ltb_spec 0 n), (Z.ltb_spec 0 (4 * n)); lia || done.
Qed.

(** ** Mixing loses nothing *)

Lemma lxor_cancel x y : Z.lxor (Z.lxor x y) y = x.
Proof. by rewrite Z.lxor_assoc, Z.lxor_nilpotent, Z.lxor_0_r. Qed.

Definition state_ok (s : jstate) : Prop :=
  in_range 32 (ja s) /\ in_range 32 (jb s) /\ in_range 32 (jc s).

(** One of the six rows of the mix, with the roles of the words rotated, and
    its inverse. *)
Definition round (r : Z) (s : jstate) : jstate :=
  let '(J a b c) := s in
  let a := a ⊟ c in let a := Z.lxor a (rol32 c r) in let c := c ⊞ b in J b c a.

Definition unround (r : Z) (s : jstate) : jstate :=
  let '(J b c a) := s in
  let c := c ⊟ b in let a := Z.lxor a (rol32 c r) in let a := a ⊞ c in J a b c.

Definition unmix (s : jstate) : jstate :=
  unround 4 (unround 6 (unround 8 (unround 16 (unround 19 (unround 4 s))))).

Lemma mix_rounds s :
  __jhash_mix s = round 4 (round 19 (round 16 (round 8 (round 6 (round 4 s))))).
Proof. by destruct s. Qed.

Lemma rol32_range w r : 0 <= r -> in_range 32 w -> in_range 32 (rol32 w r).
Proof.
  intros Hr Hw. unfold rol32. apply in_range_lor; [lia|by apply wrap_range|].
  unfold in_range in *. set (k := Z.land _ 31).
  assert (0 <= k) by (apply Z.land_nonneg; right; lia).
  split; [by apply Z.shiftr_nonneg, Hw|]. rewrite Z.shiftr_div_pow2 by done.
  apply Z.div_lt_upper_bound; [by apply Z.pow_pos_nonneg|].
  assert (0 < 2 ^ k) by (by apply Z.pow_pos_nonneg). nia.
Qed.

Lemma round_ok r s : 0 <= r -> state_ok s -> state_ok (round r s).
Proof.
  destruct s as [a b c]. unfold state_ok. cbn. intros Hr (Ha & Hb & Hc).
  split_and!; [done|by apply wrap_range|].
  apply in_range_lxor; [lia|by apply wrap_range|by apply rol32_range].
Qed.

Lemma unround_ok r s : 0 <= r -> state_ok s -> state_ok (unround r s).
Proof.
  destruct s as [b c a]. unfold state_ok. cbn. intros Hr (Hb & Hc & Ha).
  split_and!; [by apply wrap_range|done|by apply wrap_range].
Qed.

Lemma unround_round r s : state_ok s -> unround r (round r s) = s.
Proof.
  destruct s as [a b c]. intros (Ha & Hb & Hc). cbn in *.
  rewrite u32_add_sub by done. by rewrite lxor_cancel, u32_sub_add by done.
Qed.

Lemma round_unround r s : 0 <= r -> state_ok s -> round r (unround r s) = s.
Proof.
  destruct s as [b c a]. intros Hr (Hb & Hc & Ha). cbn in *.
  rewrite u32_sub_add by done. rewrite u32_add_sub, lxor_cancel; [done|].
  apply in_range_lxor; [lia|done|]. apply rol32_range; [done|by apply wrap_range].
Qed.

Lemma mix_ok s : state_ok s -> state_ok (__jhash_mix s).
Proof. intros. rewrite mix_rounds. repeat (apply round_ok; [lia|]). done. Qed.

Lemma unmix_ok s : state_ok s -> state_ok (unmix s).
Proof. intros. unfold unmix. repeat (apply unround_ok; [lia|]). done. Qed.

Lemma unmix_mix s : state_ok s -> unmix (__jhash_mix s) = s.
Proof.
  intros. unfold unmix. rewrite mix_rounds.
  rewrite !unround_round; [done|done|repeat (apply round_ok; [lia|]); done..].
Qed.

Lemma mix_unmix s : state_ok s -> __jhash_mix (unmix s) = s.
Proof.
  intros. unfold unmix. rewrite mix_rounds.
  rewrite !round_unround; [done|lia|done|lia| |lia| |lia| |lia| |lia|];
    repeat (apply unround_ok; [lia|]); done.
Qed.

Lemma add_range s x y z : state_ok (J (ja s ⊞ x) (jb s ⊞ y) (jc s ⊞ z)).
Proof. by split_and!; apply wrap_range. Qed.

Lemma mix_inj s s' : state_ok s -> state_ok s' -> __jhash_mix s = __jhash_mix s' -> s = s'.
Proof. intros H H' E. by rewrite <- (unmix_mix s), <- (unmix_mix s'), E. Qed.

(** The fixed-arity variants add the initial value to the words, the array
    version the words to the initial value. *)
Lemma jhash2_short n a b c initval :
  let v := JHASH_INITVAL ⊞ u32 (Z.shiftl n 2) ⊞ initval in
  jc (__jhash_final (J (v ⊞ a) (v ⊞ b) (v ⊞ c)))
  = __jhash_nwords a b c (initval ⊞ JHASH_INITVAL ⊞ Z.shiftl n 2).
Proof.
  intros v. subst v. unfold __jhash_nwords. do 2 f_equal.
  f_equal; wrap_sum.
Qed.

Definition words_ok (ws : list Z) : Prop := Forall (in_range 32) ws.

(** ** Properties *)

(** The byte hash reads exactly its key: whatever bytes follow the key,
    on either byte order, it returns the same hash and makes no access outside
    the key. *)
Theorem jhash_reads_key e m initval :
  zlen m < 2 ^ 32 ->
  exists h, forall x, jhash e (m ++ x) (zlen m) initval = Some h.
Proof.
  intros Hm. unfold jhash. set (v := _ ⊞ initval).
  destruct (jhash_loop_total e m (Z.to_nat (zlen m)) 0 (zlen m) (J v v v))
    as (k & l & s & Hl & Hk & Hr & Hkl); [pose proof (zlen_nonneg m); lia..|].
  destruct (tail_word_total e m k l 8 (jc s)) as [c Hc]; [lia..|].
  destruct (tail_word_total e m k l 4 (jb s)) as [b Hb]; [lia..|].
  destruct (tail_word_total e m k l 0 (ja s)) as [a Ha]; [lia..|].
  eexists. intros x. rewrite Hl. jfold. unfold jhash_tail.
  rewrite Hc. jfold. rewrite Hb. jfold. by rewrite Ha.
Qed.

(** On a little-endian target the byte hash of an array of words is the
    word hash of the array, and the fixed-arity variants are the word hash of
    one, two and three words; the word hash is always defined. *)
Theorem jhash_variants_agree ws initval :
  words_ok ws -> zlen ws < 2 ^ 30 ->
  is_Some (jhash2 ws (zlen ws) initval)
  /\ jhash LE (words_bytes ws) (4 * zlen ws) initval = jhash2 ws (zlen ws) initval
  /\ match ws with
     | [a; b; c] => jhash2 ws 3 initval = Some (jhash_3words a b c initval)
     | [a; b] => jhash2 ws 2 initval = Some (jhash_2words a b initval)
     | [a] => jhash2 ws 1 initval = Some (jhash_1word a initval)
     | _ => True
     end.
Proof.
  intros Hws Hl. pose proof (zlen_nonneg ws) as H0.
  rewrite <- Logic.and_assoc. split.
  - unfold jhash, jhash2, jhash2_init.
    rewrite Z.shiftl_mul_pow2, (wrap_small 32 (zlen ws * _)) by (unfold in_range; lia).
    replace (zlen ws * 2 ^ 2) with (4 * zlen ws) by lia.
    set (v := _ ⊞ initval).
    destruct (loops_agree ws (Z.to_nat (4 * zlen ws)) (Z.to_nat (zlen ws)) 0 (zlen ws) (J v v v))
      as (i & n & s & Hj2 & Hj & Hi & Hn & Hin); [done|lia..|].
    rewrite Hj2. change (4 * 0) with 0 in Hj. rewrite Hj. jfold.
    by destruct (tails_agree ws i n s).
  - destruct ws as [|a [|b [|c [|]]]]; try done.
    + apply (f_equal Some). refine (eq_trans _ (jhash2_short 1 a 0 0 initval)).
      by rewrite !Z.add_0_r, !wrap_wrap.
    + apply (f_equal Some). refine (eq_trans _ (jhash2_short 2 a b 0 initval)).
      by rewrite !Z.add_0_r, !wrap_wrap.
    + apply (f_equal Some), jhash2_short.
Qed.

(** Mixing a block loses nothing: for a fixed block the new state
    determines the old one and every state is reached, and for a fixed state
    distinct blocks give distinct states. *)
Theorem mix_block_bijective s t x y z :
  state_ok s -> state_ok t -> words_ok [x; y; z] ->
  (mix_block s x y z = mix_block t x y z -> s = t)
  /\ (exists r, state_ok r /\ mix_block r x y z = t)
  /\ forall x' y' z', words_ok [x'; y'; z'] ->
     mix_block s x y z = mix_block s x' y' z' -> [x; y; z] = [x'; y'; z'].
Proof.
  intros (Ha & Hb & Hc) Ht Hw. split_and!.
  - destruct Ht as (Ha' & Hb' & Hc'). unfold mix_block. intros E. apply mix_inj in E; [|apply add_range..].
    injection E as E1 E2 E3. destruct s, t. cbn in *. f_equal; by eapply (wrap_inj_add 32).
  - pose proof (unmix_ok t Ht) as (Hua & Hub & Huc).
    exists (J (ja (unmix t) ⊟ x) (jb (unmix t) ⊟ y) (jc (unmix t) ⊟ z)).
    split; [by split_and!; apply wrap_range|].
    unfold mix_block. cbn [ja jb jc]. rewrite !u32_sub_add by done.
    rewrite <- (mix_unmix t) at 4 by done. by destruct (unmix t).
  - unfold mix_block. intros x' y' z' Hw' E. apply mix_inj in E; [|apply add_range..].
    injection E as E1 E2 E3.
    unfold words_ok in *. rewrite !List.Forall_cons_iff in Hw, Hw'.
    destruct Hw as (Hx & Hy & Hz & _), Hw' as (Hx' & Hy' & Hz' & _).
    rewrite !(Z.add_comm (ja s)) in E1. rewrite !(Z.add_comm (jb s)) in E2.
    rewrite !(Z.add_comm (jc s)) in E3.
    apply (wrap_inj_add 32) in E1; [|done..]. apply (wrap_inj_add 32) in E2; [|done..].
    apply (wrap_inj_add 32) in E3; [|done..]. by subst.
Qed.

(** ** Witnesses *)

Lemma jhash_reads_key_witness :
  exists h, forall x, jhash LE ([97; 98; 99] ++ x) 3 0 = Some h.
Proof. apply (jhash_reads_key LE [97; 98; 99] 0). vm_compute. reflexivity. Defined.

Ltac small_words :=
  unfold state_ok, words_ok, in_range; cbn [ja jb jc]; rewrite ?List.Forall_cons_iff;
  repeat split; try apply List.Forall_nil; lia.

Lemma jhash_variants_agree_witness :
  jhash LE (words_bytes [7; 8; 9; 10; 11]) 20 5 = jhash2 [7; 8; 9; 10; 11] 5 5.
Proof.
  refine (proj1 (proj2 (jhash_variants_agree [7; 8; 9; 10; 11] 5 _ _))).
  - small_words.
  - vm_compute. reflexivity.
Defined.

Lemma mix_block_bijective_witness :
  exists r, state_ok r /\ mix_block r 4 5 6 = J 1 2 3.
Proof.
  refine (proj1 (proj2 (mix_block_bijective (J 0 0 0) (J 1 2 3) 4 5 6 _ _ _))).
  - small_words.
  - small_words.
  - small_words.
Defined.
