(* ===== verification/CString.v ===== *)
(** * C strings

    A string is the list of its characters, without the terminator; a buffer
    is a byte object that may hold one.  The functions of the C library the
    program calls on them. *)

From S2P Require Export Memory.
From Stdlib Require String Ascii.
Export String.StringSyntax.

Abbreviation str := (list Z).

(** A string literal. *)
Definition lit (s : String.string) : str :=
  List.map (fun c => Z.of_N (Ascii.N_of_ascii c)) (String.list_ascii_of_string s).
Arguments lit s%_string_scope.

#[export] Instance str_eq_dec : EqDecision str := _.

(** The string a buffer holds: the bytes before its first NUL, [None] when it
    holds none and reading would leave the buffer. *)
Fixpoint cstr (buf : list Z) : option str :=
  match buf with
  | [] => None
  | b :: buf => if b =? 0 then Some [] else s ← cstr buf; Some (b :: s)
  end.

(** [strncpy(dest, src, n)] into a buffer of [n] bytes. *)
Definition strncpy (n : nat) (src : str) : list Z := take n (src ++ repeat 0 n).

(** [snprintf(&buf[off], size, "%s", text)]. *)
Definition snprintf (buf : list Z) (off size : Z) (text : str) : option (list Z) :=
  if size =? 0 then Some buf
  else put_bytes buf off (take (Z.to_nat (size - 1)) text ++ [0]).

(** [printf("%-<n>s", s)]. *)
Definition pad_right (n : nat) (s : str) : str := s ++ repeat 32 (n - length s).

(** Characters of a string: none is NUL. *)
Definition str_ok (s : str) : Prop := Forall (fun c => c <> 0) s.

Lemma cstr_app s rest : str_ok s -> cstr (s ++ 0 :: rest) = Some s.
Proof.
  induction 1 as [|c s Hc _ IH]; [done|]. cbn.
  destruct (Z.eqb_spec c 0); [done|]. by rewrite IH.
Qed.

Lemma length_strncpy n s : length (strncpy n s) = n.
Proof. unfold strncpy. rewrite length_take, length_app, repeat_length. lia. Qed.

(** A short enough string is stored with its terminator; a longer one is cut
    and loses it. *)
Lemma cstr_strncpy n s :
  str_ok s -> cstr (strncpy n s) = if decide (length s < n)%nat then Some s else None.
Proof.
  intros Hs. unfold strncpy. case_decide as Hn.
  - rewrite take_app_ge by lia. destruct (n - length s)%nat as [|k] eqn:E; [lia|].
    destruct n as [|n]; [lia|]. cbn [repeat take]. by apply cstr_app.
  - rewrite take_app_le by lia. apply Forall_take with (n := n) in Hs.
    induction Hs as [|c l Hc _ IH]; [done|]. cbn.
    destruct (Z.eqb_spec c 0); [done|]. by rewrite IH.
Qed.
