(* ===== verification/ErrText.v ===== *)
(** * Error texts (src/libbpf/src/libbpf_errno.c, str_error.c)

    The message of an error number in a buffer of the caller. *)

From S2P Require Export CString.
From Stdlib Require Import DecimalString.
Open Scope Z_scope.
Delimit Scope string_scope with string.

Definition LIBBPF_ERRNO__START := 4000.
Definition LIBBPF_ERRNO__END := 4014.

(** By error number from the start; none is [NULL]. *)
Definition libbpf_strerror_table : list (option str) := List.map (option_map lit)
  [Some "Something wrong in libelf"; Some "BPF object format invalid"; Some "'version' section incorrect or lost";
   Some "Endian mismatch"; Some "Internal error in libbpf"; Some "Relocation failed"; None;
   Some "Kernel verifier blocks program loading"; Some "Program too big"; Some "Incorrect kernel version";
   Some "Kernel doesn't support this program type"; Some "Wrong pid in netlink message"; Some "Invalid netlink sequence";
   Some "Incorrect netlink message parsing"]%string.

(** [%d]. *)
Definition number_text (v : Z) : str := lit (NilEmpty.string_of_int (Z.to_int v)).

Section text.
(** [strerror_r]: what it returns and leaves in the buffer. *)
Context (strerror_r : Z -> list Z -> Z * list Z).

(** The result and the buffer; [None] as a buffer is [NULL].  An error number is
    an [int]; the smallest has no opposite. *)
Definition libbpf_strerror (err : Z) (buf : option (list Z)) : option (Z * option (list Z)) :=
  match buf with
  | None => Some (-1, None)
  | Some buf =>
      let size := zlen buf in
      if size =? 0 then Some (-1, Some buf) else
      if err =? - 2 ^ 31 then None else
      let err := Z.abs err in
      if err <? LIBBPF_ERRNO__START then
        let '(ret, buf) := strerror_r err buf in
        buf ← put_bytes buf (size - 1) [0]; Some (ret, Some buf)
      else if err <? LIBBPF_ERRNO__END then
        msg ← znth libbpf_strerror_table (err - LIBBPF_ERRNO__START);
        msg ← msg;
        buf ← snprintf buf 0 size msg;
        buf ← put_bytes buf (size - 1) [0]; Some (0, Some buf)
      else
        buf ← snprintf buf 0 size (lit "Unknown libbpf error " ++ number_text err);
        buf ← put_bytes buf (size - 1) [0]; Some (-1, Some buf)
  end.

Definition libbpf_strerror_r (err : Z) (dst : list Z) : option (list Z) :=
  let '(ret, dst) := strerror_r err dst in
  if ret =? 0 then Some dst
  else snprintf dst 0 (zlen dst) (lit "ERROR: strerror_r(" ++ number_text err ++ lit ")=" ++ number_text ret).
End text.

(** ** What is in the buffer *)

(** The text of an error of the library. *)
Definition libbpf_text (err : Z) : option str :=
  if err <? LIBBPF_ERRNO__END then msg ← znth libbpf_strerror_table (err - LIBBPF_ERRNO__START); msg
  else Some (lit "Unknown libbpf error " ++ number_text err).

(** Texts of letters. *)
Lemma lit_ok s : bool_decide (Forall (fun c => Ascii.N_of_ascii c <> 0%N) (String.list_ascii_of_string s)) = true -> str_ok (lit s).
Proof.
  intros Hs%bool_decide_eq_true. unfold str_ok, lit. induction Hs as [|c l Hc _ IH]; cbn; constructor; [lia|done].
Qed.

Lemma uint_ok u : str_ok (lit (NilEmpty.string_of_uint u)).
Proof. unfold str_ok, lit. induction u; cbn; constructor; done. Qed.

Lemma number_ok v : str_ok (number_text v).
Proof.
  unfold number_text. destruct (Z.to_int v) as [u|u]; cbn [NilEmpty.string_of_int]; [apply uint_ok|].
  unfold str_ok, lit. cbn. constructor; [done|]. apply uint_ok.
Qed.

Lemma libbpf_text_ok err text : libbpf_text err = Some text -> str_ok text.
Proof.
  unfold libbpf_text. destruct (err <? LIBBPF_ERRNO__END).
  - destruct (znth libbpf_strerror_table _) as [msg|] eqn:E; [|done]. cbn. intros ->.
    assert (Forall (fun m => match m with Some t => str_ok t | None => True end) libbpf_strerror_table) as Hall.
    { unfold libbpf_strerror_table. repeat constructor; cbn [option_map]; try done; by apply lit_ok; vm_compute. }
    unfold znth in E. destruct (decide _); [|done]. exact (proj1 (Forall_lookup _ _) Hall _ _ E).
  - intros <-%(inj Some). unfold str_ok. rewrite Forall_app. split; [by apply lit_ok; vm_compute|apply number_ok].
Qed.

(** What [snprintf] and the last NUL leave. *)
Lemma printed buf text : str_ok text -> 0 < zlen buf -> exists buf1 buf2,
  snprintf buf 0 (zlen buf) text = Some buf1 /\ put_bytes buf1 (zlen buf - 1) [0] = Some buf2 /\ zlen buf1 = zlen buf /\ zlen buf2 = zlen buf /\
  cstr buf1 = Some (take (length buf - 1) text) /\ cstr buf2 = Some (take (length buf - 1) text).
Proof.
  intros Ht Hb. unfold snprintf. rewrite (proj2 (Z.eqb_neq _ _)) by lia.
  replace (Z.to_nat (zlen buf - 1)) with (length buf - 1)%nat by (unfold zlen; lia). set (t := take (length buf - 1) text).
  assert (length t <= length buf - 1)%nat as Hl by (unfold t; rewrite length_take; lia).
  assert (str_ok t) as Hok by by apply Forall_take.
  unfold zlen in Hb. unfold put_bytes at 1. rewrite decide_True by (unfold zlen; rewrite length_app; cbn; lia).
  change (take (Z.to_nat 0) buf) with (@nil Z). rewrite app_nil_l. set (rest := drop _ buf).
  assert (length rest = length buf - length t - 1)%nat as Hrest by (unfold rest, zlen; rewrite length_drop, length_app; cbn; lia).
  assert (put_bytes ((t ++ [0]) ++ rest) (zlen buf - 1) [0] = Some (take (length buf - 1) ((t ++ [0]) ++ rest) ++ [0])) as E.
  { unfold put_bytes. rewrite decide_True by (unfold zlen; rewrite !length_app; cbn; lia).
    replace (Z.to_nat (zlen buf - 1)) with (length buf - 1)%nat by (unfold zlen; lia).
    rewrite (drop_ge _ (Z.to_nat _)) by (unfold zlen; rewrite !length_app; cbn; lia). by rewrite app_nil_r. }
  eexists _, _. split; [done|]. split; [exact E|]. split_and!.
  - unfold zlen. rewrite !length_app. cbn. lia.
  - unfold zlen. rewrite length_app, length_take, !length_app. cbn. lia.
  - rewrite <- app_assoc. cbn [app]. by apply cstr_app.
  - destruct (decide (length t = length buf - 1)%nat) as [Heq|Hne].
    + rewrite <- app_assoc, <- Heq, take_app_length. cbn [app]. by apply cstr_app.
    + rewrite (take_app_ge (t ++ [0])) by (rewrite length_app; cbn; lia). rewrite <- !app_assoc. cbn [app]. by apply cstr_app.
Qed.

(** The text of an error, negative or not, is a string within its buffer: that
    of the library's table or the number, cut to the buffer, and for a number
    below those of the library whatever [strerror_r] gives.  Without a buffer
    nothing is done.  The error of a failed load has no text: [NULL] is
    printed. *)
Theorem strerror_text strerror_r err buf : - 2 ^ 31 < err < 2 ^ 31 -> 0 < zlen buf ->
  (forall err buf, zlen (strerror_r err buf).2 = zlen buf) ->
  libbpf_strerror strerror_r err None = Some (-1, None) /\
  (Z.abs err < 4000 -> exists buf', libbpf_strerror strerror_r err (Some buf) = Some ((strerror_r (Z.abs err) buf).1, Some buf') /\
    zlen buf' = zlen buf /\ is_Some (cstr buf')) /\
  (4000 <= Z.abs err -> Z.abs err <> 4006 -> exists text buf', libbpf_text (Z.abs err) = Some text /\
    libbpf_strerror strerror_r err (Some buf) = Some (if Z.abs err <? 4014 then 0 else -1, Some buf') /\
    zlen buf' = zlen buf /\ cstr buf' = Some (take (length buf - 1) text)) /\
  (Z.abs err = 4006 -> libbpf_strerror strerror_r err (Some buf) = None).
Proof.
  intros Herr Hb Hlen. split; [done|]. unfold libbpf_strerror. rewrite (proj2 (Z.eqb_neq (zlen buf) 0)) by lia.
  rewrite (proj2 (Z.eqb_neq err _)) by lia. set (n := Z.abs err). split_and!.
  - intros Hn. rewrite (proj2 (Z.ltb_lt n LIBBPF_ERRNO__START) Hn). pose proof (Hlen n buf) as Hl. destruct (strerror_r n buf) as [ret b]. cbn [snd fst] in *.
    assert (put_bytes b (zlen buf - 1) [0] = Some (take (length b - 1) b ++ [0])) as ->.
    { unfold put_bytes, zlen in *. rewrite decide_True by (cbn; lia). rewrite (drop_ge b) by (cbn; lia). rewrite app_nil_r. do 3 f_equal. lia. }
    cbn [mbind option_bind]. eexists. split; [done|]. split.
    + unfold zlen in *. rewrite length_app, length_take. cbn. lia.
    + generalize (take (length b - 1) b). intros l. induction l as [|c l IH]; cbn; [by eexists|]. destruct (c =? 0); [by eexists|].
      destruct IH as [t ->]. by eexists.
  - intros Hn Hne. rewrite (proj2 (Z.ltb_ge n LIBBPF_ERRNO__START) Hn).
    assert (exists text, libbpf_text n = Some text) as [text Et].
    { unfold libbpf_text. destruct (Z.ltb_spec n LIBBPF_ERRNO__END) as [Hlt|_]; [|by eexists]. unfold LIBBPF_ERRNO__END, LIBBPF_ERRNO__START in *.
      assert (n = 4000 \/ n = 4001 \/ n = 4002 \/ n = 4003 \/ n = 4004 \/ n = 4005 \/ n = 4007 \/ n = 4008 \/ n = 4009 \/ n = 4010 \/ n = 4011 \/ n = 4012 \/ n = 4013) as Hc by lia.
      repeat destruct Hc as [->|Hc]; [by eexists..|]. subst n. rewrite Hc. by eexists. }
    destruct (printed buf text (libbpf_text_ok _ _ Et) Hb) as (b1 & b2 & E1 & E2 & _ & L2 & _ & C2). exists text, b2. split; [done|].
    unfold libbpf_text in Et. change 4014 with LIBBPF_ERRNO__END. destruct (n <? LIBBPF_ERRNO__END).
    + destruct (znth libbpf_strerror_table _) as [msg|]; [|done]. cbn [mbind option_bind] in *. rewrite Et. cbn [mbind option_bind]. rewrite E1. cbn [mbind option_bind]. by rewrite E2.
    + apply (inj Some) in Et as <-. rewrite E1. cbn [mbind option_bind]. by rewrite E2.
  - intros Hn. fold n in Hn. rewrite Hn. done.
Qed.

(** A [strerror_r] that knows nothing. *)
Definition ex_strerror (err : Z) (buf : list Z) : Z * list Z := (22, buf).

Lemma strerror_text_witness : let err := -4008 in let buf := repeat 255 8 in
  libbpf_strerror ex_strerror err None = Some (-1, None) /\
  (Z.abs err < 4000 -> exists buf', libbpf_strerror ex_strerror err (Some buf) = Some ((ex_strerror (Z.abs err) buf).1, Some buf') /\
    zlen buf' = zlen buf /\ is_Some (cstr buf')) /\
  (4000 <= Z.abs err -> Z.abs err <> 4006 -> exists text buf', libbpf_text (Z.abs err) = Some text /\
    libbpf_strerror ex_strerror err (Some buf) = Some (if Z.abs err <? 4014 then 0 else -1, Some buf') /\
    zlen buf' = zlen buf /\ cstr buf' = Some (take (length buf - 1) text)) /\
  (Z.abs err = 4006 -> libbpf_strerror ex_strerror err (Some buf) = None).
Proof. apply (strerror_text ex_strerror (-4008) (repeat 255 8)); [lia|reflexivity|reflexivity]. Defined.

Example ex_error_text : libbpf_strerror ex_strerror (-4008) (Some (repeat 255 8)) = Some (0, Some (lit "Program" ++ [0])).
Proof. vm_compute. reflexivity. Qed.
