(* ===== verification/Scan.v ===== *)
(** * Reading numbers from text

    The conversions of the C library the program reads texts of the system
    with: [strtol], and [%d] and [%u] of [sscanf]. *)

From S2P Require Export ErrText.
From Stdlib Require Import DecimalString DecimalPos.
Open Scope Z_scope.

Definition isspace (c : Z) : bool := (c =? 32) || ((9 <=? c) && (c <=? 13)).
Fixpoint skip_space (s : str) : str := match s with c :: s' => if isspace c then skip_space s' else s | [] => [] end.
Definition sign (s : str) : Z * str :=
  match s with c :: s' => if c =? 45 then (-1, s') else if c =? 43 then (1, s') else (1, s) | [] => (1, []) end.

(** The value of a digit of base [b]. *)
Definition digit (b c : Z) : option Z :=
  let d := if (48 <=? c) && (c <=? 57) then c - 48 else if (97 <=? c) && (c <=? 122) then c - 87
    else if (65 <=? c) && (c <=? 90) then c - 55 else b in
  if d <? b then Some d else None.
(** The number in front, how many digits it has and the rest. *)
Fixpoint digits (b acc : Z) (s : str) : Z * nat * str :=
  match s with
  | [] => (acc, O, [])
  | c :: s' => match digit b c with
      | Some d => let '(v, n, rest) := digits b (acc * b + d) s' in (v, S n, rest)
      | None => (acc, O, s)
      end
  end.

(** [strtol(s, NULL, 0)], of a string too short to overflow. *)
Definition strtol (s : str) : Z :=
  let '(sg, s) := sign (skip_space s) in
  let hex := match s with z :: x :: h :: _ => (z =? 48) && ((x =? 120) || (x =? 88)) && bool_decide (is_Some (digit 16 h)) | _ => false end in
  let '(v, _, _) := if hex then digits 16 0 (drop 2 s)
    else if bool_decide (head s = Some 48) then digits 8 0 s else digits 10 0 s in
  sg * v.

(** [%d] of [sscanf]. *)
Definition scan_int (s : str) : option (Z * str) :=
  let '(sg, s) := sign (skip_space s) in
  match digits 10 0 s with (_, O, _) => None | (v, S _, rest) => Some (sg * v, rest) end.
Definition scan_dot (s : str) : option str := match s with c :: s => if c =? 46 then Some s else None | [] => None end.

(** [%u], which takes a sign: the number, [None] if it does not fit. *)
Definition scan_unsigned (s : str) : option (option Z * str) :=
  let '(sg, s) := sign (skip_space s) in
  match digits 10 0 s with
  | (_, O, _) => None
  | (v, S _, rest) => Some (if v <? 2 ^ 32 then Some (u32 (sg * v)) else None, rest)
  end.

(** ** Reading back what was printed *)

(** Digits end where something else begins. *)
Definition no_digit (s : str) : Prop := match s with c :: _ => digit 10 c = None | [] => True end.

Lemma digits_end acc s rest v n : digits 10 acc s = (v, n, []) -> no_digit rest -> digits 10 acc (s ++ rest) = (v, n, rest).
Proof.
  revert acc v n. induction s as [|c s IH]; intros acc v n E Hr; cbn [digits app] in *.
  - injection E as <- <-. destruct rest as [|c rest]; [done|]. cbn in Hr. cbn [digits]. by rewrite Hr.
  - destruct (digit 10 c) as [d|]; [|done]. destruct (digits 10 (acc * 10 + d) s) as [[v1 n1] r1] eqn:E1. injection E as <- <- ->.
    by rewrite (IH _ _ _ E1 Hr).
Qed.

(** The number that digits behind [acc] make. *)
Fixpoint uint_value (acc : Z) (u : Decimal.uint) : Z :=
  match u with
  | Decimal.Nil => acc
  | Decimal.D0 u => uint_value (acc * 10 + 0) u
  | Decimal.D1 u => uint_value (acc * 10 + 1) u
  | Decimal.D2 u => uint_value (acc * 10 + 2) u
  | Decimal.D3 u => uint_value (acc * 10 + 3) u
  | Decimal.D4 u => uint_value (acc * 10 + 4) u
  | Decimal.D5 u => uint_value (acc * 10 + 5) u
  | Decimal.D6 u => uint_value (acc * 10 + 6) u
  | Decimal.D7 u => uint_value (acc * 10 + 7) u
  | Decimal.D8 u => uint_value (acc * 10 + 8) u
  | Decimal.D9 u => uint_value (acc * 10 + 9) u
  end.

Definition uint_text (u : Decimal.uint) : str := lit (NilEmpty.string_of_uint u).

Lemma digits_uint u : forall acc, digits 10 acc (uint_text u) = (uint_value acc u, length (uint_text u), []).
Proof.
  unfold uint_text, lit. induction u as [|u IH|u IH|u IH|u IH|u IH|u IH|u IH|u IH|u IH|u IH]; intros acc; [done|..];
    cbn [NilEmpty.string_of_uint String.list_ascii_of_string List.map digits uint_value length];
    match goal with |- context [digit 10 ?c] => let d := eval vm_compute in (digit 10 c) in change (digit 10 c) with d end;
    cbv iota; rewrite IH; reflexivity.
Qed.

Lemma uint_value_acc u : forall p, uint_value (Zpos p) u = Zpos (Pos.of_uint_acc u p).
Proof.
  induction u as [|u IH|u IH|u IH|u IH|u IH|u IH|u IH|u IH|u IH|u IH]; intros p; cbn [uint_value Pos.of_uint_acc]; [done|..];
    rewrite <- IH; f_equal; lia.
Qed.

Lemma uint_value_zero u : uint_value 0 u = Z.of_N (Pos.of_uint u).
Proof.
  induction u as [|u IH|u IH|u IH|u IH|u IH|u IH|u IH|u IH|u IH|u IH]; cbn [uint_value Pos.of_uint Z.of_N]; [done|exact IH|..];
    rewrite <- uint_value_acc; reflexivity.
Qed.

Lemma uint_value_ge u : forall acc, 0 <= acc -> 10 ^ zlen (uint_text u) * acc <= uint_value acc u.
Proof.
  unfold uint_text, lit, zlen. induction u as [|u IH|u IH|u IH|u IH|u IH|u IH|u IH|u IH|u IH|u IH]; intros acc Ha; cbn [uint_value]; [cbn; lia|..];
    cbn [NilEmpty.string_of_uint String.list_ascii_of_string List.map length]; rewrite Nat2Z.inj_succ, Z.pow_succ_r by lia;
    (etransitivity; [|apply IH; lia]); nia.
Qed.

(** Decimal numbers have no leading zero. *)
Lemma nzhead_no_zero u v : Decimal.nzhead u <> Decimal.D0 v.
Proof. induction u; cbn; congruence. Qed.

Lemma to_uint_head p : forall u, Pos.to_uint p <> Decimal.D0 u.
Proof.
  intros u E. pose proof (DecimalPos.Unsigned.to_of (Pos.to_uint p)) as H. rewrite DecimalPos.Unsigned.of_to in H. cbn in H.
  unfold Decimal.unorm in H. destruct (Decimal.nzhead (Pos.to_uint p)) eqn:Ez; try (rewrite E in H; discriminate H); [|by apply nzhead_no_zero in Ez].
  by apply DecimalPos.Unsigned.to_uint_nonzero in H.
Qed.

(** A number in decimal: read back, not longer than it must be, and starting
    with a digit. *)
Record prints (v : Z) : Prop := {
  prints_back : exists n, digits 10 0 (number_text v) = (v, S n, []);
  prints_short n : 0 < n -> v < 10 ^ n -> zlen (number_text v) <= n;
  prints_digit : match number_text v with c :: _ => 48 <= c <= 57 | [] => False end }.

Lemma number_prints v : 0 <= v -> prints v.
Proof.
  intros Hv. destruct v as [|p|p]; [|clear Hv|lia].
  { split; [by eexists|intros n Hn _; change (zlen (number_text 0)) with 1; lia|cbn; lia]. }
  assert (number_text (Zpos p) = uint_text (Pos.to_uint p)) as En by done.
  assert (uint_value 0 (Pos.to_uint p) = Zpos p) as Ev by (by rewrite uint_value_zero, DecimalPos.Unsigned.of_to).
  pose proof (to_uint_head p) as Hh. pose proof (DecimalPos.Unsigned.to_uint_nonnil p) as Hnil.
  split; rewrite ?En.
  - rewrite digits_uint, Ev. destruct (Pos.to_uint p); [done|..]; by eexists.
  - intros n Hn Hlt. rewrite <- Ev in Hlt. enough (10 ^ (zlen (uint_text (Pos.to_uint p)) - 1) < 10 ^ n) as Hp by (apply Z.pow_lt_mono_r_iff in Hp; lia).
    eapply Z.le_lt_trans; [|exact Hlt]. destruct (Pos.to_uint p) as [|u|u|u|u|u|u|u|u|u|u]; [done|by destruct (Hh u)|..];
      cbn [uint_value]; (etransitivity; [|apply uint_value_ge; lia]);
      unfold uint_text, lit, zlen; cbn [NilEmpty.string_of_uint String.list_ascii_of_string List.map length];
      rewrite Nat2Z.inj_succ, Z.sub_1_r, Z.pred_succ; nia.
  - destruct (Pos.to_uint p); [done|..]; cbn; lia.
Qed.

Lemma scan_printed v rest : 0 <= v < 2 ^ 32 -> no_digit rest -> scan_unsigned (number_text v ++ rest) = Some (Some v, rest).
Proof.
  intros Hv Hr. destruct (number_prints v ltac:(lia)) as [(n & E) _ Hc]. unfold scan_unsigned.
  assert (sign (skip_space (number_text v ++ rest)) = (1, number_text v ++ rest)) as ->.
  { destruct (number_text v) as [|c t]; [done|]. cbn [app skip_space]. unfold isspace.
    replace (c =? 32) with false by lia. replace (c <=? 13) with false by lia. rewrite andb_false_r. cbn [orb sign].
    replace (c =? 45) with false by lia. by replace (c =? 43) with false by lia. }
  rewrite (digits_end _ _ _ _ _ E Hr). replace (v <? 2 ^ 32) with true by lia. unfold wrap. by rewrite Z.mul_1_l, Z.mod_small by lia.
Qed.
