(* ===== verification/CmdLine.v ===== *)
(** * Command line (src/common/common_params.c, src/common/common_defines.h)

    Option tables, the help text and the option loop shared by the two
    user-space programs.  [getopt_long] and [if_nametoindex] are library
    code: the former is the sequence of options it yields, the latter a
    function of the name. *)

From S2P Require Export CString.

(** ** Configuration *)

Definition XDP_FLAGS_UPDATE_IF_NOEXIST : Z := Z.shiftl 1 0.
Definition XDP_FLAGS_SKB_MODE : Z := Z.shiftl 1 1.
Definition XDP_FLAGS_DRV_MODE : Z := Z.shiftl 1 2.
Definition XDP_FLAGS_HW_MODE : Z := Z.shiftl 1 3.
Definition XDP_FLAGS_MODES : Z :=
  Z.lor (Z.lor XDP_FLAGS_SKB_MODE XDP_FLAGS_DRV_MODE) XDP_FLAGS_HW_MODE.

Definition EXIT_OK : Z := 0.
Definition EXIT_FAIL : Z := 1.
Definition EXIT_FAIL_OPTION : Z := 2.
Definition EXIT_FAIL_XDP : Z := 30.
Definition EXIT_FAIL_BPF : Z := 40.

Definition IF_NAMESIZE : nat := 16.

(** [ifname] and [redirect_ifname] are NULL ([false]) or point at the buffer
    beside them. *)
Record config := Config {
  xdp_flags : Z;
  ifindex : Z;
  ifname : bool;
  ifname_buf : list Z;
  redirect_ifindex : Z;
  redirect_ifname : bool;
  redirect_ifname_buf : list Z;
  do_unload : bool;
  filename : list Z;
  progsec : list Z;
  src_mac : list Z;
  dest_mac : list Z }.

(** The initialiser of both programs: the fields not named are zero. *)
Definition config_init (flags : Z) : config :=
  Config flags (-1) false (repeat 0 IF_NAMESIZE) 0 false (repeat 0 IF_NAMESIZE) false
         (repeat 0 512) (repeat 0 32) (repeat 0 18) (repeat 0 18).

(** ** Option tables *)

(** [struct option]; a NULL name ends a table. *)
Record option_ := Option_ { name : option str; has_arg : Z; val : Z }.
Definition no_argument : Z := 0.
Definition required_argument : Z := 1.

Record option_wrapper := Wrapper {
  opt : option_; help : option str; metavar : option str; required : bool }.

(** The number of entries before the one without a name; [None] when there is
    none. *)
Fixpoint count_options (wrapper : list option_wrapper) : option nat :=
  match wrapper with
  | [] => None
  | w :: wrapper =>
      match name (opt w) with
      | None => Some O
      | Some _ => n ← count_options wrapper; Some (S n)
      end
  end.

(** [None]: the table has no end.  [Some None]: [malloc] failed. *)
Definition option_wrappers_to_options (malloc_ok : bool) (wrapper : list option_wrapper)
  : option (option (list option_)) :=
  num ← count_options wrapper;
  if malloc_ok then Some (Some (map opt (take num wrapper))) else Some None.

Definition BUFSIZE : Z := 30.

(** One line of the help text; [buf] is the local buffer before the call. *)
Definition print_option (buf : list Z) (w : option_wrapper) (nm : str)
  : option (str * list Z) :=
  let flag := if 64 <? val (opt w) then lit " -" ++ [u8 (val (opt w))] ++ lit "," else lit "    " in
  let text := lit " --" ++ nm in
  let pos := zlen text in
  buf ← snprintf buf 0 BUFSIZE text;
  buf ← match metavar w with
        | Some mv => snprintf buf pos (u64 (BUFSIZE - pos)) (lit " " ++ mv)
        | None => Some buf
        end;
  s ← cstr buf;
  hlp ← help w;
  Some (flag ++ pad_right 22 s ++ lit "  " ++ hlp ++ [10], buf).

Fixpoint _print_options (long_options : list option_wrapper) (req : bool) (buf : list Z)
  : option str :=
  match long_options with
  | [] => None
  | w :: long_options =>
      match name (opt w) with
      | None => Some []
      | Some nm =>
          if Bool.eqb (required w) req then
            '(line, buf) ← print_option buf w nm;
            rest ← _print_options long_options req buf;
            Some (line ++ rest)
          else _print_options long_options req buf
      end
  end.

Definition usage (prog_name doc : str) (long_options : list option_wrapper) (full : bool)
    (buf buf' : list Z) : option str :=
  let head := lit "Usage: " ++ prog_name ++ lit " [options]" ++ [10] in
  if negb full then
    Some (head ++ lit "Use --help (or -h) to see full option list." ++ [10])
  else
    req ← _print_options long_options true buf;
    other ← _print_options long_options false buf';
    Some (head ++ [10] ++ lit "DOCUMENTATION:" ++ [10] ++ lit " " ++ doc ++ [10]
            ++ lit "Required options:" ++ [10] ++ req ++ [10]
            ++ lit "Other options:" ++ [10] ++ other ++ [10]).

(** ** The option loop *)

(** What [getopt_long] yields before -1: an option character (or the small
    number of a long option) and its argument. *)
Definition getopt_event : Type := Z * str.

(** How the loop ends: with a configuration and the [verbose] flag, or by
    printing the usage (in full after [-h]) and leaving the process. *)
Inductive outcome :=
| Parsed (cfg : config) (verbose : bool)
| Exit (code : Z) (full_help : bool).

Section parse.
Variable if_nametoindex : str -> Z.

Definition clear_modes (flags : Z) : Z := Z.land flags (u32 (Z.lnot XDP_FLAGS_MODES)).

Definition set_flags (cfg : config) (flags : Z) : config :=
  Config flags (ifindex cfg) (ifname cfg) (ifname_buf cfg) (redirect_ifindex cfg)
    (redirect_ifname cfg) (redirect_ifname_buf cfg) (do_unload cfg) (filename cfg)
    (progsec cfg) (src_mac cfg) (dest_mac cfg).

Definition set_dev (cfg : config) (buf : list Z) (idx : Z) : config :=
  Config (xdp_flags cfg) idx true buf (redirect_ifindex cfg)
    (redirect_ifname cfg) (redirect_ifname_buf cfg) (do_unload cfg) (filename cfg)
    (progsec cfg) (src_mac cfg) (dest_mac cfg).

Definition set_redirect (cfg : config) (buf : list Z) (idx : Z) : config :=
  Config (xdp_flags cfg) (ifindex cfg) (ifname cfg) (ifname_buf cfg) idx true buf
    (do_unload cfg) (filename cfg) (progsec cfg) (src_mac cfg) (dest_mac cfg).

Definition set_unload (cfg : config) : config :=
  Config (xdp_flags cfg) (ifindex cfg) (ifname cfg) (ifname_buf cfg) (redirect_ifindex cfg)
    (redirect_ifname cfg) (redirect_ifname_buf cfg) true (filename cfg)
    (progsec cfg) (src_mac cfg) (dest_mac cfg).

(** The four string fields. *)
Definition set_strings (cfg : config) (file sec src dest : list Z) : config :=
  Config (xdp_flags cfg) (ifindex cfg) (ifname cfg) (ifname_buf cfg) (redirect_ifindex cfg)
    (redirect_ifname cfg) (redirect_ifname_buf cfg) (do_unload cfg) file sec src dest.

(** One iteration of the loop: the new configuration and verbosity, or [inr]
    the [full_help] flag with which the usage is printed. *)
Definition parse_option (cfg : config) (verbose : bool) (ev : getopt_event)
  : (config * bool) + bool :=
  let '(o, optarg) := ev in
  if o =? 100 (* 'd' *) then
    if (IF_NAMESIZE <=? length optarg)%nat then inr false
    else
      let cfg := set_dev cfg (strncpy IF_NAMESIZE optarg) (if_nametoindex optarg) in
      if ifindex cfg =? 0 then inr false else inl (cfg, verbose)
  else if o =? 114 (* 'r' *) then
    if (IF_NAMESIZE <=? length optarg)%nat then inr false
    else
      let cfg := set_redirect cfg (strncpy IF_NAMESIZE optarg) (if_nametoindex optarg) in
      if redirect_ifindex cfg =? 0 then inr false else inl (cfg, verbose)
  else if o =? 65 (* 'A' *) then
    inl (set_flags cfg (clear_modes (xdp_flags cfg)), verbose)
  else if o =? 83 (* 'S' *) then
    inl (set_flags cfg (Z.lor (clear_modes (xdp_flags cfg)) XDP_FLAGS_SKB_MODE), verbose)
  else if o =? 78 (* 'N' *) then
    inl (set_flags cfg (Z.lor (clear_modes (xdp_flags cfg)) XDP_FLAGS_DRV_MODE), verbose)
  else if o =? 3 then
    inl (set_flags cfg (Z.lor (clear_modes (xdp_flags cfg)) XDP_FLAGS_HW_MODE), verbose)
  else if o =? 70 (* 'F' *) then
    inl (set_flags cfg (Z.land (xdp_flags cfg) (u32 (Z.lnot XDP_FLAGS_UPDATE_IF_NOEXIST))), verbose)
  else if o =? 85 (* 'U' *) then inl (set_unload cfg, verbose)
  else if o =? 113 (* 'q' *) then inl (cfg, false)
  else if o =? 1 then
    inl (set_strings cfg (strncpy 512 optarg) (progsec cfg) (src_mac cfg) (dest_mac cfg), verbose)
  else if o =? 2 then
    inl (set_strings cfg (filename cfg) (strncpy 32 optarg) (src_mac cfg) (dest_mac cfg), verbose)
  else if o =? 76 (* 'L' *) then
    inl (set_strings cfg (filename cfg) (progsec cfg) (strncpy 18 optarg) (dest_mac cfg), verbose)
  else if o =? 82 (* 'R' *) then
    inl (set_strings cfg (filename cfg) (progsec cfg) (src_mac cfg) (strncpy 18 optarg), verbose)
  else inr (o =? 104 (* 'h' *)).

Fixpoint parse_loop (evs : list getopt_event) (cfg : config) (verbose : bool) : outcome :=
  match evs with
  | [] => Parsed cfg verbose
  | ev :: evs =>
      match parse_option cfg verbose ev with
      | inl (cfg, verbose) => parse_loop evs cfg verbose
      | inr full_help => Exit EXIT_FAIL_OPTION full_help
      end
  end.

(** [getopt_long] maps the arguments and the table to the options it yields,
    [None] when its behaviour is undefined. *)
Definition parse_cmdline_args {A} (getopt_long : A -> list option_ -> option (list getopt_event))
    (malloc_ok : bool) (args : A) (wrapper : list option_wrapper)
    (cfg : config) (verbose : bool) : option outcome :=
  opts ← option_wrappers_to_options malloc_ok wrapper;
  match opts with
  | None => Some (Exit EXIT_FAIL_OPTION false)
  | Some long_options =>
      evs ← getopt_long args long_options; Some (parse_loop evs cfg verbose)
  end.
End parse.

(** ** What the option loop computes *)

(** The argument of the last occurrence of option [o]. *)
Fixpoint last_arg (o : Z) (evs : list getopt_event) : option str :=
  match evs with
  | [] => None
  | (o', a) :: evs =>
      match last_arg o evs with
      | Some x => Some x
      | None => if o' =? o then Some a else None
      end
  end.

Definition given (o : Z) (evs : list getopt_event) : bool :=
  match last_arg o evs with Some _ => true | None => false end.

(** The mode bits an option selects, and those of the last such option. *)
Definition mode_of (o : Z) : option Z :=
  if o =? 65 then Some 0
  else if o =? 83 then Some XDP_FLAGS_SKB_MODE
  else if o =? 78 then Some XDP_FLAGS_DRV_MODE
  else if o =? 3 then Some XDP_FLAGS_HW_MODE
  else None.

Fixpoint last_mode (evs : list getopt_event) : option Z :=
  match evs with
  | [] => None
  | (o, _) :: evs =>
      match last_mode evs with Some m => Some m | None => mode_of o end
  end.

(** Options that let the loop go on. *)
Definition accepted (if_nametoindex : str -> Z) (ev : getopt_event) : bool :=
  let '(o, a) := ev in
  if (o =? 100) || (o =? 114) then (length a <? IF_NAMESIZE)%nat && negb (if_nametoindex a =? 0)
  else existsb (Z.eqb o) [65; 83; 78; 3; 70; 85; 113; 1; 2; 76; 82].

Definition final_flags (evs : list getopt_event) (flags : Z) : Z :=
  let flags := match last_mode evs with
               | Some mode => Z.lor (clear_modes flags) mode
               | None => flags
               end in
  if given 70 evs then Z.land flags (u32 (Z.lnot XDP_FLAGS_UPDATE_IF_NOEXIST)) else flags.

Definition last_string (o : Z) (n : nat) (evs : list getopt_event) (old : list Z) : list Z :=
  match last_arg o evs with Some a => strncpy n a | None => old end.
Definition last_index (idx : str -> Z) (o : Z) (evs : list getopt_event) (old : Z) : Z :=
  match last_arg o evs with Some a => idx a | None => old end.

(** The configuration in which the last occurrence of each option wins. *)
Definition final_config (idx : str -> Z) (evs : list getopt_event) (cfg : config) : config :=
  Config (final_flags evs (xdp_flags cfg))
    (last_index idx 100 evs (ifindex cfg)) (given 100 evs || ifname cfg)
    (last_string 100 IF_NAMESIZE evs (ifname_buf cfg))
    (last_index idx 114 evs (redirect_ifindex cfg)) (given 114 evs || redirect_ifname cfg)
    (last_string 114 IF_NAMESIZE evs (redirect_ifname_buf cfg))
    (given 85 evs || do_unload cfg)
    (last_string 1 512 evs (filename cfg)) (last_string 2 32 evs (progsec cfg))
    (last_string 76 18 evs (src_mac cfg)) (last_string 82 18 evs (dest_mac cfg)).

Section facts.
Variable idx : str -> Z.

(** A later mode option overrides an earlier one, and clearing the no-exist
    bit commutes with choosing a mode. *)
Lemma mode_override f m m' :
  In m [0; XDP_FLAGS_SKB_MODE; XDP_FLAGS_DRV_MODE; XDP_FLAGS_HW_MODE] ->
  Z.lor (clear_modes (Z.lor (clear_modes f) m)) m' = Z.lor (clear_modes f) m'.
Proof.
  intros Hm. f_equal. unfold clear_modes. rewrite Z.land_lor_distr_l, <- Z.land_assoc.
  rewrite Z.land_diag.
  replace (Z.land m _) with 0; [apply Z.lor_0_r|].
  by destruct Hm as [<-|[<-|[<-|[<-|[]]]]].
Qed.

Lemma mode_force f m :
  In m [0; XDP_FLAGS_SKB_MODE; XDP_FLAGS_DRV_MODE; XDP_FLAGS_HW_MODE] ->
  Z.lor (clear_modes (Z.land f (u32 (Z.lnot XDP_FLAGS_UPDATE_IF_NOEXIST)))) m
  = Z.land (Z.lor (clear_modes f) m) (u32 (Z.lnot XDP_FLAGS_UPDATE_IF_NOEXIST)).
Proof.
  intros Hm. unfold clear_modes. rewrite Z.land_lor_distr_l.
  rewrite <- !Z.land_assoc, (Z.land_comm (u32 (Z.lnot XDP_FLAGS_UPDATE_IF_NOEXIST)) (u32 _)).
  f_equal. by destruct Hm as [<-|[<-|[<-|[<-|[]]]]].
Qed.

Lemma mode_of_In o m :
  mode_of o = Some m -> In m [0; XDP_FLAGS_SKB_MODE; XDP_FLAGS_DRV_MODE; XDP_FLAGS_HW_MODE].
Proof. unfold mode_of. repeat case_match; intros; simplify_eq; cbn; auto. Qed.

Lemma last_mode_In evs m :
  last_mode evs = Some m -> In m [0; XDP_FLAGS_SKB_MODE; XDP_FLAGS_DRV_MODE; XDP_FLAGS_HW_MODE].
Proof.
  induction evs as [|[o a] evs IH]; [done|]. cbn [last_mode].
  destruct (last_mode evs); intros E; [by apply IH|by eapply mode_of_In].
Qed.

(** The flags stay a [__u32]. *)
Lemma final_flags_range evs f : in_range 32 f -> in_range 32 (final_flags evs f).
Proof.
  intros Hf. unfold final_flags.
  assert (in_range 32 (match last_mode evs with Some m => Z.lor (clear_modes f) m | None => f end)) as Hm.
  { destruct (last_mode evs) as [m|] eqn:E; [|done]. apply last_mode_In in E. apply in_range_lor; [lia| |].
    - unfold clear_modes. apply in_range_land_r; [lia|]. by apply wrap_range.
    - by destruct E as [<-|[<-|[<-|[<-|[]]]]]. }
  destruct (given 70 evs); [|done]. apply in_range_land_r; [lia|]. by apply wrap_range.
Qed.

Definition step_flags (o f : Z) : Z :=
  match mode_of o with
  | Some m => Z.lor (clear_modes f) m
  | None =>
      if o =? 70 then Z.land f (u32 (Z.lnot XDP_FLAGS_UPDATE_IF_NOEXIST)) else f
  end.

Lemma final_flags_cons o a evs f :
  final_flags evs (step_flags o f) = final_flags ((o, a) :: evs) f.
Proof.
  unfold final_flags, step_flags, given. cbn [last_mode last_arg].
  destruct (mode_of o) as [m|] eqn:Em.
  - replace (if o =? 70 then Some a else None) with (@None str)
      by (destruct (Z.eqb_spec o 70); [by subst|done]).
    destruct (last_mode evs) as [m'|]; [|by destruct (last_arg 70 evs)].
    rewrite mode_override by (by eapply mode_of_In). by destruct (last_arg 70 evs).
  - destruct (Z.eqb_spec o 70) as [->|]; [|by destruct (last_mode evs), (last_arg 70 evs)].
    destruct (last_mode evs) as [m'|] eqn:El, (last_arg 70 evs); try done;
      rewrite ?mode_force by (by eapply last_mode_In);
      by rewrite <- ?Z.land_assoc, ?Z.land_diag.
Qed.

Lemma last_string_cons o n o' a evs old :
  last_string o n ((o', a) :: evs) old
  = last_string o n evs (if o' =? o then strncpy n a else old).
Proof. unfold last_string. cbn [last_arg]. by destruct (last_arg o evs), (o' =? o). Qed.

Lemma last_index_cons o o' a evs old :
  last_index idx o ((o', a) :: evs) old
  = last_index idx o evs (if o' =? o then idx a else old).
Proof. unfold last_index. cbn [last_arg]. by destruct (last_arg o evs), (o' =? o). Qed.

Lemma given_cons o o' a evs : given o ((o', a) :: evs) = given o evs || (o' =? o).
Proof. unfold given. cbn [last_arg]. by destruct (last_arg o evs), (o' =? o). Qed.

(** Decides the comparisons of option characters. *)
Ltac eval_eqb :=
  repeat match goal with
         | |- context [Z.eqb ?x ?y] =>
             let b := eval vm_compute in (Z.eqb x y) in
             match b with
             | true => change (Z.eqb x y) with true
             | false => change (Z.eqb x y) with false
             end
         end; cbv iota beta.

(** One accepted option, then the rest. *)
Lemma parse_option_final cfg v ev evs :
  match parse_option idx cfg v ev with
  | inl (cfg', v') =>
      accepted idx ev = true
      /\ final_config idx evs cfg' = final_config idx (ev :: evs) cfg
      /\ v' && negb (given 113 evs) = v && negb (given 113 (ev :: evs))
  | inr full => accepted idx ev = false /\ full = (ev.1 =? 104)
  end.
Proof.
  destruct ev as [o a]. unfold final_config. rewrite <- final_flags_cons.
  rewrite !last_string_cons, !last_index_cons, !given_cons. cbn [fst].
  unfold parse_option, accepted.
  destruct (decide (o = 100 \/ o = 114)) as [Hd|Hd].
  - assert ((o =? 100) || (o =? 114) = true) as -> by (destruct Hd; subst; done).
    destruct (Nat.leb_spec IF_NAMESIZE (length a)) as [Hl|Hl].
    + replace (length a <? IF_NAMESIZE)%nat with false by (symmetry; by apply Nat.ltb_ge).
      destruct Hd; subst; done.
    + replace (length a <? IF_NAMESIZE)%nat with true by (symmetry; by apply Nat.ltb_lt).
      destruct Hd; subst; eval_eqb; unfold set_dev, set_redirect; cbn [ifindex redirect_ifindex];
        destruct (idx a =? 0); (done ||
        (rewrite ?orb_true_r, ?orb_false_r; done)).
  - assert ((o =? 100) || (o =? 114) = false) as -> by lia.
    do 2 (match goal with |- context [if o =? ?k then _ else _] =>
            destruct (Z.eqb_spec o k) as [->|_]; [lia|] end).
    do 11 (match goal with |- context [if o =? ?k then _ else _] =>
            destruct (Z.eqb_spec o k) as [->|];
            [eval_eqb; rewrite ?orb_true_r, ?orb_false_r, ?andb_false_r; cbn [negb andb];
             unfold set_flags, set_unload, set_strings; cbn; by rewrite ?Z.lor_0_r |] end).
    split; [|done]. cbn [existsb].
    repeat (match goal with |- context [o =? ?k] => replace (o =? k) with false by lia end).
    done.
Qed.

Definition first_rejected (evs : list getopt_event) : option Z :=
  fst <$> List.find (fun ev => negb (accepted idx ev)) evs.

Lemma find_None_Forall {A} (f : A -> bool) l :
  List.find (fun x => negb (f x)) l = None -> Forall (fun x => f x = true) l.
Proof.
  induction l as [|x l IH]; [constructor|]. cbn.
  destruct (f x) eqn:E; cbn; [|done]. constructor; auto.
Qed.

Lemma last_arg_In o evs a : last_arg o evs = Some a -> In (o, a) evs.
Proof.
  induction evs as [|[o' b] evs IH]; [done|]. cbn [last_arg].
  destruct (last_arg o evs); intros E; [right; by apply IH|].
  destruct (Z.eqb_spec o' o); [|done]. left. by simplify_eq.
Qed.
End facts.

(** ** The help text *)

(** The text a line is built from, before it is cut to the buffer. *)
Definition option_text (w : option_wrapper) (nm : str) : str :=
  lit " --" ++ nm ++ match metavar w with Some mv => lit " " ++ mv | None => [] end.

Definition option_line (w : option_wrapper) (nm : str) : str :=
  (if 64 <? val (opt w) then lit " -" ++ [u8 (val (opt w))] ++ lit "," else lit "    ")
    ++ pad_right 22 (take 29 (option_text w nm)) ++ lit "  " ++ default [] (help w) ++ [10].

(** A name this long leaves the buffer when a metavariable follows it. *)
Definition name_fits (w : option_wrapper) (nm : str) : bool :=
  match metavar w with None => true | Some _ => (length nm <=? 27)%nat end.

Definition entry_ok (w : option_wrapper) : Prop :=
  help w <> None /\ str_ok (default [] (name (opt w))) /\ str_ok (default [] (metavar w)).

Lemma str_ok_app s s' : str_ok s -> str_ok s' -> str_ok (s ++ s').
Proof. apply Forall_app_2. Qed.

Lemma lit_dashes_ok : str_ok (lit " --").
Proof. repeat constructor; done. Qed.

Lemma snprintf_buf buf text :
  length buf = 30%nat ->
  exists buf', snprintf buf 0 BUFSIZE text = Some buf' /\ length buf' = 30%nat
    /\ exists rest, buf' = take 29 text ++ 0 :: rest.
Proof.
  intros Hb. unfold snprintf. cbn [Z.eqb BUFSIZE]. change (Z.to_nat (BUFSIZE - 1)) with 29%nat.
  change (BUFSIZE =? 0) with false. cbv iota.
  unfold put_bytes, zlen. rewrite length_app, length_take. cbn [length].
  rewrite decide_True by lia. eexists. split; [done|]. split.
  - rewrite !length_app, !length_take, length_drop. cbn [length]. lia.
  - eexists. cbn [Z.to_nat take app]. by rewrite <- app_assoc.
Qed.

(** The second call appends the metavariable where the first one stopped. *)
Lemma snprintf_append buf text rest t2 :
  length buf = 30%nat -> buf = take 29 text ++ 0 :: rest -> zlen text < 2 ^ 64 ->
  let r := snprintf buf (zlen text) (u64 (BUFSIZE - zlen text)) t2 in
  if decide (length text <= 30)%nat
  then exists buf', r = Some buf' /\ length buf' = 30%nat
         /\ exists rest', buf' = take 29 (text ++ t2) ++ 0 :: rest'
  else r = None.
Proof.
  intros Hb Heq Hl r. subst r. unfold snprintf.
  assert (length (take 29 text) + 1 + length rest = 30)%nat as Hr.
  { rewrite <- Hb, Heq, length_app. cbn [length]. lia. }
  assert (0 <= zlen text) by apply zlen_nonneg.
  unfold BUFSIZE, put_bytes. case_decide as Hd.
  - rewrite wrap_small by (unfold in_range, zlen; lia).
    destruct (Z.eqb_spec (30 - zlen text) 0) as [E|E].
    + exists buf. split_and!; [done..|]. exists rest. rewrite take_app_le; [done|].
      unfold zlen in E. lia.
    + assert (length text <= 29)%nat by (unfold zlen in E; lia).
      rewrite take_ge in Heq by lia.
      rewrite decide_True
        by (unfold zlen in *; rewrite length_app, length_take; cbn [length]; lia).
      eexists. split; [done|]. split.
      * rewrite !length_app, length_take, length_drop. unfold zlen.
        rewrite !length_app, length_take. cbn [length]. lia.
      * eexists. rewrite take_app_ge by lia. rewrite <- !app_assoc. unfold zlen at 1.
        rewrite Nat2Z.id. rewrite Heq at 1. rewrite take_app_length.
        replace (Z.to_nat (30 - zlen text - 1)) with (29 - length text)%nat
          by (unfold zlen; lia).
        by cbn [app].
  - destruct (Z.eqb_spec (u64 (30 - zlen text)) 0) as [E|E].
    + exfalso. unfold wrap in E. apply Z.mod_divide in E as [k Hk]; [|lia].
      unfold zlen in *. assert (k = 0) by lia. lia.
    + rewrite decide_False; [done|]. intros [_ H']. rewrite (zlen_app _ [0]) in H'.
      pose proof (zlen_nonneg (take (Z.to_nat (u64 (30 - zlen text) - 1)) t2)).
      unfold zlen in *. cbn [length] in H'. lia.
Qed.

Lemma print_option_line buf w nm :
  length buf = 30%nat -> name (opt w) = Some nm -> entry_ok w -> zlen nm < 2 ^ 32 ->
  if name_fits w nm
  then exists buf', print_option buf w nm = Some (option_line w nm, buf')
                    /\ length buf' = 30%nat
  else print_option buf w nm = None.
Proof.
  intros Hb Hn (Hh & Hnm & Hmv) Hl. rewrite Hn in Hnm. cbn in Hnm.
  assert (str_ok (option_text w nm)) as Hot.
  { unfold option_text. apply str_ok_app; [apply lit_dashes_ok|apply str_ok_app; [done|]].
    destruct (metavar w); [|constructor]. by constructor. }
  unfold print_option, option_line, name_fits, option_text in *.
  destruct (help w) as [h|]; [|done]. set (text := lit " --" ++ nm) in *.
  assert (zlen text = 3 + zlen nm) as Ht by (unfold text; by rewrite zlen_app).
  destruct (snprintf_buf buf text Hb) as (buf1 & -> & Hb1 & rest & Heq). cbn [mbind option_bind].
  destruct (metavar w) as [mv|].
  - set (t2 := lit " " ++ mv) in *. pose proof (snprintf_append buf1 text rest t2 Hb1 Heq) as Hs.
    cbv zeta in Hs. rewrite app_assoc in *. fold text in Hot |- *.
    case_decide as Hd.
    + destruct Hs as (buf2 & -> & Hb2 & rest2 & ->); [lia|]. cbn [mbind option_bind].
      rewrite cstr_app by (by apply Forall_take). cbn [mbind option_bind default].
      destruct (Nat.leb_spec (length nm) 27); [eauto|unfold zlen in *; lia].
    + rewrite Hs by lia. destruct (Nat.leb_spec (length nm) 27); [unfold zlen in *; lia|done].
  - cbn [mbind option_bind]. rewrite app_nil_r in *. fold text in Hot |- *. subst buf1.
    rewrite cstr_app by (by apply Forall_take). cbn [mbind option_bind default].
    eauto.
Qed.

(** The lines of the entries of one kind, [None] when one leaves the buffer. *)
Fixpoint option_lines (ws : list option_wrapper) (req : bool) : option str :=
  match ws with
  | [] => Some []
  | w :: ws =>
      let nm := default [] (name (opt w)) in
      if Bool.eqb (required w) req then
        if name_fits w nm then rest ← option_lines ws req; Some (option_line w nm ++ rest)
        else None
      else option_lines ws req
  end.

Definition named (w : option_wrapper) : Prop := is_Some (name (opt w)).

Lemma print_options_lines ws last req buf :
  length buf = 30%nat -> Forall named ws -> name (opt last) = None -> Forall entry_ok ws ->
  Forall (fun w => zlen (default [] (name (opt w))) < 2 ^ 32) ws ->
  _print_options (ws ++ [last]) req buf = option_lines ws req.
Proof.
  intros Hb Hn Hlast. revert buf Hb. induction Hn as [|w ws [nm Hnm] _ IH];
    intros buf Hb Hok Hl; cbn [app _print_options option_lines].
  - by rewrite Hlast.
  - apply Forall_cons_1 in Hok as [Hw Hok]. apply Forall_cons_1 in Hl as [Hlw Hl].
    rewrite Hnm in *. cbn [from_option id] in *.
    destruct (Bool.eqb (required w) req); [|by apply IH].
    pose proof (print_option_line buf w nm Hb Hnm Hw Hlw) as Hp.
    destruct (name_fits w nm); [|by rewrite Hp].
    destruct Hp as (buf' & -> & Hb'). cbn [mbind option_bind]. by rewrite IH.
Qed.

(** ** The tables of the two programs *)

Definition row (nm : str) (arg v : Z) (hlp : str) (mv : option str) (req : bool) :=
  Wrapper (Option_ (Some nm) arg v) (Some hlp) mv req.
Definition end_of_options := Wrapper (Option_ None 0 0) None None false.

(** src/loader/xdp_loader.c *)
Definition loader_long_options : list option_wrapper :=
  [row (lit "help") no_argument 104 (lit "Show help") None false;
   row (lit "dev") required_argument 100 (lit "Operate on device <ifname>") (Some (lit "<ifname>")) true;
   row (lit "skb-mode") no_argument 83 (lit "Install XDP program in SKB (AKA generic) mode") None false;
   row (lit "native-mode") no_argument 78 (lit "Install XDP program in native mode") None false;
   row (lit "auto-mode") no_argument 65 (lit "Auto-detect SKB or native mode") None false;
   row (lit "force") no_argument 70 (lit "Force install, replacing existing program on interface") None false;
   row (lit "unload") no_argument 85 (lit "Unload XDP program instead of loading") None false;
   row (lit "quiet") no_argument 113 (lit "Quiet mode (no output)") None false;
   row (lit "filename") required_argument 1 (lit "Load program from <file>") (Some (lit "<file>")) false;
   row (lit "progsec") required_argument 2 (lit "Load program in <section> of the ELF file") (Some (lit "<section>")) false;
   end_of_options].

(** src/loader/xdp_stats.c *)
Definition stats_long_options : list option_wrapper :=
  [row (lit "help") no_argument 104 (lit "Show help") None false;
   row (lit "dev") required_argument 100 (lit "Operate on device <ifname>") (Some (lit "<ifname>")) true;
   row (lit "quiet") no_argument 113 (lit "Quiet mode (no output)") None false;
   end_of_options].

Lemma parse_loop_parsed idx evs cfg v cfg' v' :
  parse_loop idx evs cfg v = Parsed cfg' v' ->
  Forall (fun ev => accepted idx ev = true) evs /\ cfg' = final_config idx evs cfg.
Proof.
  revert cfg v. induction evs as [|ev evs IH]; intros cfg v H.
  - cbn in H. split; [constructor|]. by destruct cfg; simplify_eq.
  - cbn [parse_loop] in H. pose proof (parse_option_final idx cfg v ev evs) as Hp.
    destruct (parse_option idx cfg v ev) as [[cfg1 v1]|full]; [|done].
    destruct Hp as (Ha & H1 & _). apply IH in H as [Hf ->]. split; [by constructor|done].
Qed.

Lemma accepted_dev idx o a evs :
  (o = 100 \/ o = 114) -> Forall (fun ev => accepted idx ev = true) evs ->
  last_arg o evs = Some a -> (length a < IF_NAMESIZE)%nat /\ idx a <> 0.
Proof.
  intros Ho Hf Ha%last_arg_In. rewrite List.Forall_forall in Hf. specialize (Hf _ Ha).
  cbn -[IF_NAMESIZE Nat.ltb] in Hf. replace ((o =? 100) || (o =? 114)) with true in Hf by lia.
  apply andb_true_iff in Hf as [Hl Hi]. split; [by apply Nat.ltb_lt|].
  by destruct (Z.eqb_spec (idx a) 0).
Qed.

(** The mode bits of a flag word, as a number of selected modes. *)
Definition one_mode_at_most (flags : Z) : Prop :=
  In (Z.land flags XDP_FLAGS_MODES) [0; XDP_FLAGS_SKB_MODE; XDP_FLAGS_DRV_MODE; XDP_FLAGS_HW_MODE]
  /\ Z.land flags (u32 (Z.lnot (Z.lor XDP_FLAGS_MODES XDP_FLAGS_UPDATE_IF_NOEXIST))) = 0.

(** ** Properties *)

(** The option loop is decided by the first rejected option: without one
    it yields the configuration in which the last occurrence of each option
    wins (mode options override one another, [-F] clears the no-exist flag
    wherever it stands), with one the process exits with the option error and
    prints the full usage exactly for [-h]. *)
Theorem parse_loop_last_wins (idx : str -> Z) evs cfg v :
  parse_loop idx evs cfg v
  = match first_rejected idx evs with
    | None => Parsed (final_config idx evs cfg) (v && negb (given 113 evs))
    | Some o => Exit EXIT_FAIL_OPTION (o =? 104)
    end.
Proof.
  revert cfg v. induction evs as [|ev evs IH]; intros cfg v.
  - cbn. rewrite andb_true_r. by destruct cfg.
  - cbn [parse_loop]. pose proof (parse_option_final idx cfg v ev evs) as H.
    unfold first_rejected in *. cbn [List.find].
    destruct (parse_option idx cfg v ev) as [[cfg' v']|full].
    + destruct H as (-> & H1 & H2). cbn [negb]. by rewrite IH, H1, H2.
    + destruct H as [-> ->]. by destruct ev.
Qed.

(** A successful run of the loader's command line yields a usable
    configuration: at most one XDP mode and no foreign flag; the device, when
    [--dev] was given, is the one last named, its index non-zero and its name
    stored with its terminator, and otherwise index -1 and no name; the object
    file and section are the ones last given, but a name as long as its field
    is stored without terminator. *)
Theorem loader_config_wf (idx : str -> Z) evs cfg v :
  Forall (fun ev => str_ok ev.2) evs ->
  parse_loop idx evs (config_init (Z.lor XDP_FLAGS_UPDATE_IF_NOEXIST XDP_FLAGS_DRV_MODE)) true
  = Parsed cfg v ->
  one_mode_at_most (xdp_flags cfg)
  /\ match last_arg 100 evs with
     | Some dev => ifindex cfg = idx dev /\ idx dev <> 0 /\ ifname cfg = true
                   /\ cstr (ifname_buf cfg) = Some dev
     | None => ifindex cfg = -1 /\ ifname cfg = false
     end
  /\ match last_arg 1 evs with
     | Some f => cstr (filename cfg) = if decide (length f < 512)%nat then Some f else None
     | None => cstr (filename cfg) = Some []
     end
  /\ match last_arg 2 evs with
     | Some sec => cstr (progsec cfg) = if decide (length sec < 32)%nat then Some sec else None
     | None => cstr (progsec cfg) = Some []
     end.
Proof.
  intros Hok [Hacc ->]%parse_loop_parsed.
  assert (forall o a, last_arg o evs = Some a -> str_ok a) as Hs.
  { intros o a Ha%last_arg_In. rewrite List.Forall_forall in Hok. apply (Hok _ Ha). }
  unfold final_config, config_init, last_index, last_string. cbn [xdp_flags ifindex ifname
    ifname_buf filename progsec]. split_and!.
  - unfold final_flags. destruct (last_mode evs) as [m|] eqn:Em.
    + apply last_mode_In in Em. destruct (given 70 evs);
        destruct Em as [<-|[<-|[<-|[<-|[]]]]]; (split; [vm_compute; tauto|reflexivity]).
    + destruct (given 70 evs); (split; [vm_compute; tauto|reflexivity]).
  - destruct (last_arg 100 evs) as [dev|] eqn:Ed.
    + destruct (accepted_dev idx 100 dev evs) as [Hl Hi]; [by left|done..|].
      split_and!; [done|done|unfold given; by rewrite Ed|].
      rewrite cstr_strncpy by (by eapply Hs). by rewrite decide_True.
    + split; [done|]. unfold given. by rewrite Ed.
  - destruct (last_arg 1 evs) eqn:E; [|done]. apply cstr_strncpy. by eapply Hs.
  - destruct (last_arg 2 evs) eqn:E; [|done]. apply cstr_strncpy. by eapply Hs.
Qed.

(** The help text of a table is, line by line, the short option, the long
    option with its metavariable cut to the buffer and padded, and the help;
    but a metavariable behind a name of more than 27 characters is written
    outside the buffer.  Both programs' tables are free of such names. *)
Theorem print_options_text ws last req buf :
  length buf = Z.to_nat BUFSIZE -> Forall named ws -> name (opt last) = None ->
  Forall entry_ok ws -> Forall (fun w => zlen (default [] (name (opt w))) < 2 ^ 32) ws ->
  _print_options (ws ++ [last]) req buf = option_lines ws req
  /\ (is_Some (option_lines ws req) <->
      Forall (fun w => required w = req -> name_fits w (default [] (name (opt w))) = true) ws)
  /\ is_Some (option_lines (take 10 loader_long_options) req)
  /\ is_Some (option_lines (take 3 stats_long_options) req).
Proof.
  intros Hb Hn Hlast Hok Hl. split_and!.
  - by apply print_options_lines.
  - clear. induction ws as [|w ws IH]; cbn [option_lines].
    + split; [constructor|eauto].
    + rewrite List.Forall_cons_iff, <- IH. destruct (Bool.eqb (required w) req) eqn:E.
      * apply eqb_prop in E. destruct (name_fits _ _) eqn:Ef.
        -- destruct (option_lines ws req); cbn.
           ++ split; [intros _; split; eauto|eauto].
           ++ split; [by intros [? ?]|by intros [_ [? ?]]].
        -- split; [by intros [? ?]|intros [H _]; by specialize (H E)].
      * split; [|tauto]. intros H. split; [|done]. intros <-. by rewrite eqb_reflx in E.
  - destruct req; vm_compute; eauto.
  - destruct req; vm_compute; eauto.
Qed.

(** The table handed to [getopt_long] is the list of the named entries and
    nothing else: the all-zero entry [getopt_long] requires at its end is
    never copied. *)
Theorem option_table_unterminated wrapper opts :
  option_wrappers_to_options true wrapper = Some (Some opts) ->
  Forall (fun o => name o <> None) opts
  /\ exists w rest, map opt wrapper = opts ++ opt w :: rest /\ name (opt w) = None.
Proof.
  unfold option_wrappers_to_options. destruct (count_options wrapper) as [n|] eqn:Hn; [|done].
  cbn [mbind option_bind]. intros [= <-]. revert n Hn.
  induction wrapper as [|w wrapper IH]; intros n Hn; [done|]. cbn in Hn.
  destruct (name (opt w)) as [nm|] eqn:Hw.
  - destruct (count_options wrapper) as [k|]; [|done]. injection Hn as <-.
    destruct (IH k eq_refl) as (Hf & w' & rest & E & Hw'). cbn [firstn map]. rewrite E.
    split; [constructor; [congruence|done]|]. by exists w', rest.
  - injection Hn as <-. split; [constructor|]. by exists w, (map opt wrapper).
Qed.

(** ** Witnesses *)

Definition eth0_only : str -> Z := fun nm => if decide (nm = lit "eth0") then 2 else 0.

Definition example_options : list getopt_event :=
  [(100, lit "eth0"); (83, []); (70, []); (2, lit "xdp_drop")].

Lemma loader_config_wf_witness :
  one_mode_at_most (xdp_flags (final_config eth0_only example_options (config_init 5)))
  /\ cstr (progsec (final_config eth0_only example_options (config_init 5))) = Some (lit "xdp_drop").
Proof.
  assert (Forall (fun ev => str_ok ev.2) example_options) as Hok
    by (repeat constructor; vm_compute; done).
  pose proof (loader_config_wf eth0_only example_options
                (final_config eth0_only example_options (config_init 5)) true Hok eq_refl) as H.
  exact (conj (proj1 H) (proj2 (proj2 (proj2 H)))).
Defined.

Lemma print_options_text_witness :
  _print_options loader_long_options true (repeat 0 30)
  = Some (lit " -d, --dev <ifname>         Operate on device <ifname>" ++ [10]).
Proof.
  assert (Forall named (take 10 loader_long_options)) as Hn
    by (repeat (constructor; [eexists; reflexivity|]); constructor).
  assert (Forall entry_ok (take 10 loader_long_options)) as Hok
    by (repeat (constructor; [split_and!; [done|repeat constructor; done..]|]); constructor).
  assert (Forall (fun w => zlen (default [] (name (opt w))) < 2 ^ 32)
            (take 10 loader_long_options)) as Hl
    by (repeat (constructor; [reflexivity|]); constructor).
  exact (eq_trans (proj1 (print_options_text (take 10 loader_long_options) end_of_options true
            (repeat 0 30) eq_refl Hn eq_refl Hok Hl)) eq_refl).
Defined.

Lemma option_table_unterminated_witness :
  Forall (fun o => name o <> None) (map opt (take 3 stats_long_options)).
Proof. refine (proj1 (option_table_unterminated stats_long_options _ _)). reflexivity. Defined.
