(* ===== verification/XdpLink.v ===== *)
(** * Attaching programs to interfaces (src/common/common_user_bpf_xdp.c)

    The attach and detach helpers against the link interface of libbpf
    ([bpf_set_link_xdp_fd] and [bpf_get_link_xdp_id]), the checks on a map's
    description and the names of the verdicts.  What the kernel does with the
    requests is stated as laws of the interface. *)

From S2P Require Export CmdLine.

(** ** The link interface *)

(** [set_link] takes the interface, the program (or -1) and the flags, and
    gives the error and the new state; [get_link_id] gives the error and the
    id of the program. *)
Class XdpNet (W : Type) := {
  bpf_set_link_xdp_fd : Z -> Z -> Z -> W -> Z * W;
  bpf_get_link_xdp_id : Z -> Z -> W -> Z * Z }.

Section link.
Context {W : Type} `{XdpNet W}.

Definition xdp_link_attach (ifidx flags prog_fd : Z) (w : W) : Z * W :=
  let '(err, w) := bpf_set_link_xdp_fd ifidx prog_fd flags w in
  let '(err, w) :=
    if (err =? - EEXIST) && (Z.land flags XDP_FLAGS_UPDATE_IF_NOEXIST =? 0) then
      let old_flags := flags in
      let flags := clear_modes flags in
      let flags := Z.lor flags (if Z.land old_flags XDP_FLAGS_SKB_MODE =? 0
                                then XDP_FLAGS_SKB_MODE else XDP_FLAGS_DRV_MODE) in
      let '(err, w) := bpf_set_link_xdp_fd ifidx (-1) flags w in
      if err =? 0 then bpf_set_link_xdp_fd ifidx prog_fd old_flags w else (err, w)
    else (err, w) in
  if err <? 0 then (EXIT_FAIL_XDP, w) else (EXIT_OK, w).

Definition xdp_link_detach (ifidx flags expected_prog_id : Z) (w : W) : Z * W :=
  let '(err, curr_prog_id) := bpf_get_link_xdp_id ifidx flags w in
  if negb (err =? 0) then (EXIT_FAIL_XDP, w)
  else if curr_prog_id =? 0 then (EXIT_OK, w)
  else if negb (expected_prog_id =? 0) && negb (curr_prog_id =? expected_prog_id) then (EXIT_FAIL, w)
  else
    let '(err, w) := bpf_set_link_xdp_fd ifidx (-1) flags w in
    if err <? 0 then (EXIT_FAIL_XDP, w) else (EXIT_OK, w).
End link.

(** ** Map descriptions and verdict names *)

Record bpf_map_info := MapInfo {
  mi_type : Z; mi_key_size : Z; mi_value_size : Z; mi_max_entries : Z }.

(** [get_info] is the BPF syscall behind [bpf_obj_get_info_by_fd]: an error
    or the description of the map. *)
Definition check_map_fd_info (get_info : Z -> result bpf_map_info) (map_fd : Z)
    (exp : bpf_map_info) : Z :=
  if map_fd <? 0 then EXIT_FAIL
  else match get_info map_fd with
  | Err _ => EXIT_FAIL_BPF
  | Ok info =>
      if negb (mi_key_size exp =? 0) && negb (mi_key_size exp =? mi_key_size info) then EXIT_FAIL
      else if negb (mi_value_size exp =? 0) && negb (mi_value_size exp =? mi_value_size info) then EXIT_FAIL
      else if negb (mi_max_entries exp =? 0) && negb (mi_max_entries exp =? mi_max_entries info) then EXIT_FAIL
      else if negb (mi_type exp =? 0) && negb (mi_type exp =? mi_type info) then EXIT_FAIL
      else 0
  end.

(** [XDP_UNKNOWN + 1] names, in the order of the verdicts. *)
Definition xdp_action_names : list str :=
  [lit "XDP_ABORTED"; lit "XDP_DROP"; lit "XDP_PASS"; lit "XDP_TX"; lit "XDP_REDIRECT";
   lit "XDP_UNKNOWN"].

Definition action2str (action : Z) : option str := znth xdp_action_names action.

(** ** What the kernel does with a request

    A network device runs at most one XDP program, in one mode.  [link_set]
    is the effect of a request for mode [m] on the program attached: a mode
    the device does not have is refused; installing is refused while a program
    runs in another mode, or, with the no-exist flag, in the same mode; the
    driver may refuse the program; removing concerns the requested mode only. *)
Definition attachment := option (Z * Z).

Definition link_set (att : attachment) (m fd : Z) (noexist supported : bool) (refused : Z)
  : Z * attachment :=
  if negb supported then (- EOPNOTSUPP, att)
  else if 0 <=? fd then
    match att with
    | Some (m', _) =>
        if negb (m =? m') then (- EEXIST, att)
        else if noexist then (- EBUSY, att)
        else if negb (refused =? 0) then (- refused, att) else (0, Some (m, fd))
    | None => if negb (refused =? 0) then (- refused, att) else (0, Some (m, fd))
    end
  else
    match att with
    | Some (m', _) => if m =? m' then (0, None) else (0, att)
    | None => (0, att)
    end.

(** The id can be asked for one mode at most.  A device that runs a single
    program reports it whatever mode was asked for. *)
Definition XDP_FLAGS_MASK : Z := Z.lor XDP_FLAGS_UPDATE_IF_NOEXIST XDP_FLAGS_MODES.
Definition query_ok (flags : Z) : bool :=
  (Z.land flags (u32 (Z.lnot XDP_FLAGS_MASK)) =? 0)
  && existsb (Z.eqb (Z.land flags XDP_FLAGS_MODES))
       [0; XDP_FLAGS_SKB_MODE; XDP_FLAGS_DRV_MODE; XDP_FLAGS_HW_MODE].

(** The arguments have the types [int], [int] and [__u32]. *)
Definition c_args (ifidx fd flags : Z) : Prop :=
  - 2 ^ 31 <= ifidx < 2 ^ 31 /\ - 2 ^ 31 <= fd < 2 ^ 31 /\ in_range 32 flags.

(** [attached] observes the link, [mode] is the mode a request ends up in,
    [supports] the modes a device has, [refuses] the positive error of a driver that does not take the program,
    [prog_id] the id of an attached program. *)
Class XdpNetLaws (W : Type) `{XdpNet W} := {
  attached : W -> Z -> attachment;
  mode : Z -> Z -> Z;
  supports : Z -> Z -> bool;
  refuses : Z -> Z -> Z -> Z;
  prog_id : Z -> Z;
  mode_requested ifidx flags :
    In (Z.land flags XDP_FLAGS_MODES) [XDP_FLAGS_SKB_MODE; XDP_FLAGS_DRV_MODE; XDP_FLAGS_HW_MODE] ->
    mode ifidx flags = Z.land flags XDP_FLAGS_MODES;
  refuses_nonneg ifidx m fd : 0 <= refuses ifidx m fd;
  refuses_not_exist ifidx m fd : refuses ifidx m fd <> EEXIST;
  attached_supported w ifidx m fd : attached w ifidx = Some (m, fd) -> supports ifidx m = true;
  prog_id_pos fd : 0 < prog_id fd;
  set_link_law ifidx fd flags w : c_args ifidx fd flags -> fd = -1 \/ 0 <= fd ->
    let r := link_set (attached w ifidx) (mode ifidx flags) fd
               (negb (Z.land flags XDP_FLAGS_UPDATE_IF_NOEXIST =? 0))
               (supports ifidx (mode ifidx flags))
               (refuses ifidx (mode ifidx flags) fd) in
    (bpf_set_link_xdp_fd ifidx fd flags w).1 = r.1
    /\ attached (bpf_set_link_xdp_fd ifidx fd flags w).2 ifidx = r.2
    /\ forall i, i <> ifidx ->
       attached (bpf_set_link_xdp_fd ifidx fd flags w).2 i = attached w i;
  get_link_law ifidx flags w : c_args ifidx 0 flags -> ifidx <> 0 ->
    bpf_get_link_xdp_id ifidx flags w
    = if query_ok flags
      then (0, match attached w ifidx with Some (_, fd) => prog_id fd | None => 0 end)
      else (- EINVAL, 0) }.

Section proofs.
Context {W : Type} `{XdpNetLaws W}.
Implicit Types (w : W).

(** The requested mode: one of the two software modes, alone. *)
Definition software_mode (flags m : Z) : Prop :=
  Z.land flags XDP_FLAGS_MODES = m /\ In m [XDP_FLAGS_SKB_MODE; XDP_FLAGS_DRV_MODE].

Definition other_mode (m : Z) : Z :=
  if m =? XDP_FLAGS_SKB_MODE then XDP_FLAGS_DRV_MODE else XDP_FLAGS_SKB_MODE.

Lemma software_mode_mode ifidx flags m :
  software_mode flags m -> mode ifidx flags = m.
Proof.
  intros [Hf Hm]. rewrite mode_requested; [done|]. rewrite Hf. cbn in *. tauto.
Qed.

Lemma switched_mode ifidx flags m :
  software_mode flags m ->
  mode ifidx (Z.lor (clear_modes flags)
                (if Z.land flags XDP_FLAGS_SKB_MODE =? 0
                 then XDP_FLAGS_SKB_MODE else XDP_FLAGS_DRV_MODE)) = other_mode m.
Proof.
  intros [Hf Hm].
  assert (Z.land flags XDP_FLAGS_SKB_MODE = Z.land m XDP_FLAGS_SKB_MODE) as ->.
  { rewrite <- Hf, <- Z.land_assoc. done. }
  set (o := if _ =? 0 then _ else _).
  assert (o = other_mode m /\ In o [XDP_FLAGS_SKB_MODE; XDP_FLAGS_DRV_MODE]) as [Ho Hin].
  { destruct Hm as [<-|[<-|[]]]; cbn; auto. }
  assert (Z.land (Z.lor (clear_modes flags) o) XDP_FLAGS_MODES = o) as Hl.
  { unfold clear_modes. rewrite Z.land_lor_distr_l, <- Z.land_assoc.
    change (Z.land (u32 (Z.lnot XDP_FLAGS_MODES)) XDP_FLAGS_MODES) with 0.
    rewrite Z.land_0_r, Z.lor_0_l. by destruct Hin as [<-|[<-|[]]]. }
  rewrite mode_requested; rewrite Hl; [done|]. cbn in *. tauto.
Qed.

Lemma c_args_remove ifidx fd flags : c_args ifidx fd flags -> c_args ifidx (-1) flags.
Proof. intros (? & _ & ?). split; [done|]. split; [lia|done]. Qed.

(** The forcing of a mode, as a function of the attachment. *)
Definition attach_spec (att : attachment) (m fd : Z) (noexist supported : bool) (refused : Z)
  : Z * attachment :=
  if negb supported then (EXIT_FAIL_XDP, att)
  else match att with
  | None => if refused =? 0 then (EXIT_OK, Some (m, fd)) else (EXIT_FAIL_XDP, None)
  | Some (m', _) =>
      if m' =? m then
        if negb noexist && (refused =? 0) then (EXIT_OK, Some (m, fd)) else (EXIT_FAIL_XDP, att)
      else if negb noexist && (m' =? other_mode m) then
        if refused =? 0 then (EXIT_OK, Some (m, fd)) else (EXIT_FAIL_XDP, None)
      else (EXIT_FAIL_XDP, att)
  end.

Lemma other_mode_neq m : other_mode m <> m.
Proof. unfold other_mode. destruct (Z.eqb_spec m XDP_FLAGS_SKB_MODE); [by subst|done]. Qed.

(** The only way to be refused with [EEXIST]. *)
Lemma link_set_eexist att m fd ne sup ref :
  0 <= ref -> ref <> EEXIST -> 0 <= fd ->
  (link_set att m fd ne sup ref).1 = - EEXIST ->
  exists m' fd', att = Some (m', fd') /\ m' <> m /\ sup = true
                 /\ (link_set att m fd ne sup ref).2 = att.
Proof.
  intros Hr Hre Hfd. unfold link_set. rewrite (proj2 (Z.leb_le 0 fd) Hfd).
  destruct sup; cbn [negb fst]; [|done].
  destruct att as [[m' fd']|].
  - destruct (Z.eqb_spec m m'); cbn [negb fst]; [|eauto 10].
    destruct ne; [done|]. destruct (ref =? 0); cbn; unfold EEXIST in *; lia.
  - destruct (ref =? 0); cbn; unfold EEXIST in *; lia.
Qed.

(** The flags for the other mode. *)
Lemma c_args_switched ifidx fd flags m : c_args ifidx fd flags -> 0 <= m < 16 -> c_args ifidx (-1) (Z.lor (clear_modes flags) m).
Proof.
  intros (Hi & _ & Hf) Hm. split; [done|]. split; [lia|]. apply in_range_lor; [lia| |unfold in_range; lia].
  unfold clear_modes. apply in_range_land_r; [lia|]. by apply wrap_range.
Qed.

(** Removing the program of the other software mode and trying again. *)
Lemma force_link ifidx flags m fd m' fd' w :
  c_args ifidx fd flags -> software_mode flags m -> 0 <= fd -> supports ifidx m = true -> m' <> m ->
  Z.land flags XDP_FLAGS_UPDATE_IF_NOEXIST = 0 ->
  attached w ifidx = Some (m', fd') ->
  let flags' := Z.lor (clear_modes flags) (if Z.land flags XDP_FLAGS_SKB_MODE =? 0
                  then XDP_FLAGS_SKB_MODE else XDP_FLAGS_DRV_MODE) in
  let r := let '(err, w) := bpf_set_link_xdp_fd ifidx (-1) flags' w in
           if err =? 0 then bpf_set_link_xdp_fd ifidx fd flags w else (err, w) in
  ((if r.1 <? 0 then EXIT_FAIL_XDP else EXIT_OK), attached r.2 ifidx)
  = attach_spec (attached w ifidx) m fd false true (refuses ifidx m fd)
  /\ forall i, i <> ifidx -> attached r.2 i = attached w i.
Proof.
  intros Hargs Hm Hfd Hsup Hne Hfree Hatt flags'. cbv zeta.
  assert (c_args ifidx (-1) flags') as Hargs' by (eapply c_args_switched; [exact Hargs|by case_match]).
  pose proof (refuses_nonneg ifidx m fd) as Hr. pose proof (other_mode_neq m) as Ho.
  pose proof (attached_supported w ifidx m' fd' Hatt) as Hs'.
  pose proof (set_link_law ifidx (-1) flags' w Hargs' (or_introl eq_refl)) as (E1 & E2 & E3).
  unfold flags' in E1, E2. rewrite (switched_mode ifidx flags m Hm) in E1, E2.
  fold flags' in E1, E2. rewrite Hatt in *.
  destruct (bpf_set_link_xdp_fd ifidx (-1) flags' w) as [err w1]. cbn [fst snd] in *.
  unfold link_set in E1, E2. cbn [Z.leb] in E1, E2.
  change (0 <=? -1) with false in E1, E2.
  pose proof (set_link_law ifidx fd flags w1 Hargs (or_intror Hfd)) as (F1 & F2 & F3).
  rewrite (software_mode_mode ifidx flags m Hm), Hfree, Hsup, E2 in F1, F2.
  unfold attach_spec. cbn [negb andb].
  destruct (Z.eqb_spec m' m) as [|_]; [done|].
  unfold link_set in F1, F2. rewrite (proj2 (Z.leb_le 0 fd) Hfd) in F1, F2.
  cbn [negb] in F1, F2.
  destruct (bpf_set_link_xdp_fd ifidx fd flags w1) as [err2 w2]. cbn [fst snd] in *.
  assert ((m =? m') = false) as Hmm' by lia.
  assert (forall i, i <> ifidx -> attached w2 i = attached w i) as G3
    by (intros i Hi; rewrite F3, E3; done).
  destruct (supports ifidx (other_mode m)) eqn:Eos; cbn [negb] in *.
  2: { cbn [fst snd] in E1, E2. rewrite E1. change (- EOPNOTSUPP =? 0) with false.
       cbv iota. cbn [fst snd].
       change (- EOPNOTSUPP <? 0) with true. rewrite E2. cbv iota.
       destruct (Z.eqb_spec m' (other_mode m)); [congruence|]. by split. }
  destruct (Z.eqb_spec (other_mode m) m') as [Heq|Hneq]; cbn [fst snd] in *; rewrite E1; cbn.
  - subst m'. rewrite Z.eqb_refl. destruct (Z.eqb_spec (refuses ifidx m fd) 0) as [E|E];
      cbn in F1, F2; rewrite F1, F2; split; try done.
    by rewrite (proj2 (Z.ltb_lt (- refuses ifidx m fd) 0)) by lia.
  - replace (m' =? other_mode m) with false by lia. rewrite Hmm' in F1, F2. cbn in F1, F2.
    by rewrite F1, F2.
Qed.
Lemma xdp_link_attach_run (ifidx flags m fd : Z) (w : W) :
  c_args ifidx fd flags -> software_mode flags m -> 0 <= fd ->
  let r := xdp_link_attach ifidx flags fd w in
  (r.1, attached r.2 ifidx)
  = attach_spec (attached w ifidx) m fd (negb (Z.land flags XDP_FLAGS_UPDATE_IF_NOEXIST =? 0))
      (supports ifidx m) (refuses ifidx m fd)
  /\ forall i, i <> ifidx -> attached r.2 i = attached w i.
Proof.
  intros Hargs Hm Hfd. cbv zeta.
  pose proof (refuses_nonneg ifidx m fd) as Hr. pose proof (refuses_not_exist ifidx m fd) as Hre.
  pose proof (attached_supported w ifidx) as Hs.
  pose proof (set_link_law ifidx fd flags w Hargs (or_intror Hfd)) as (E1 & E2 & E3).
  rewrite (software_mode_mode ifidx flags m Hm) in *.
  unfold xdp_link_attach.
  destruct (bpf_set_link_xdp_fd ifidx fd flags w) as [err w1]. cbn [fst snd] in *.
  set (free := Z.land flags XDP_FLAGS_UPDATE_IF_NOEXIST =? 0) in *.
  destruct ((err =? - EEXIST) && free) eqn:Eforce.
  - apply andb_true_iff in Eforce as [Herr%Z.eqb_eq Hfree]. rewrite Hfree in *.
    rewrite Herr in E1. symmetry in E1.
    destruct (link_set_eexist _ _ _ _ _ _ Hr Hre Hfd E1) as (m' & fd' & Hatt & Hne & Hsup & E).
    rewrite E, Hatt in E2. rewrite Hsup, Hatt. unfold free in Hfree.
    destruct (force_link ifidx flags m fd m' fd' w1) as [F1 F2]; [done..|lia|done|].
    rewrite E2 in F1. cbn [negb]. rewrite <- F1.
    assert (forall i, i <> ifidx -> attached w i = attached w1 i) as E3' by (intros; by rewrite E3).
    revert F2. clear F1.
    destruct (bpf_set_link_xdp_fd ifidx (-1) _ w1) as [e2 w2].
    destruct (e2 =? 0); [destruct (bpf_set_link_xdp_fd ifidx fd flags w2) as [e3 w3]|];
      cbn [fst snd]; intros F2; destruct (_ <? 0);
      (split; [done|intros i Hi; rewrite E3' by done; by apply F2]).
  - replace (if err <? 0 then (EXIT_FAIL_XDP, w1) else (EXIT_OK, w1))
      with (if err <? 0 then EXIT_FAIL_XDP else EXIT_OK, w1) by (by destruct (err <? 0)).
    cbn [fst snd]. split; [|done]. rewrite E2. subst err. revert Eforce.
    unfold link_set, attach_spec. rewrite (proj2 (Z.leb_le 0 fd) Hfd).
    destruct (supports ifidx m); [|done]. cbn [negb].
    assert (forall x : Z, refuses ifidx m fd <> 0 -> (- refuses ifidx m fd <? 0) = true) as Hneg
      by lia.
    destruct (attached w ifidx) as [[m' fd']|]; cbn [negb];
      [rewrite (Z.eqb_sym m' m); destruct (m =? m'); cbn [negb];
       [destruct free; cbn [negb andb]|]|].
    + destruct (Z.eqb_spec (refuses ifidx m fd) 0); cbn [negb fst snd]; [done|].
      by rewrite (Hneg 0).
    + done.
    + destruct free; [done|]. by cbn.
    + destruct (Z.eqb_spec (refuses ifidx m fd) 0); cbn [negb fst snd]; [done|].
      by rewrite (Hneg 0).
Qed.
End proofs.

Section properties.
Context {W : Type} `{XdpNetLaws W}.

(** [xdp_link_attach] for a software mode.  It succeeds exactly when the
    device has the mode, the driver takes the program, and the device is free
    or, without the no-exist flag, runs a program in a software mode; the new
    program then replaces it.  It fails otherwise and leaves the attachment
    alone, except that forcing a mode the driver then refuses has already
    removed the program of the other mode.  Other devices are not affected. *)
Theorem xdp_link_attach_spec (ifidx flags m fd : Z) (w : W) :
  c_args ifidx fd flags -> software_mode flags m -> 0 <= fd ->
  let r := xdp_link_attach ifidx flags fd w in
  (r.1, attached r.2 ifidx)
  = attach_spec (attached w ifidx) m fd (negb (Z.land flags XDP_FLAGS_UPDATE_IF_NOEXIST =? 0))
      (supports ifidx m) (refuses ifidx m fd)
  /\ forall i, i <> ifidx -> attached r.2 i = attached w i.
Proof. apply xdp_link_attach_run. Qed.

(** [xdp_link_detach] for flags that name one mode at most.  A program other
    than the expected one is left alone with a failure.  Otherwise success is
    reported, but the program is gone only if it ran in the mode the flags
    end up in: a program in another mode is reported as removed and stays. *)
Theorem xdp_link_detach_spec (ifidx flags expected : Z) (w : W) :
  c_args ifidx 0 flags -> ifidx <> 0 -> query_ok flags = true -> supports ifidx (mode ifidx flags) = true ->
  let r := xdp_link_detach ifidx flags expected w in
  match attached w ifidx with
  | Some (m, fd) =>
      if (expected =? 0) || (expected =? prog_id fd)
      then r.1 = EXIT_OK
           /\ attached r.2 ifidx = if m =? mode ifidx flags then None else Some (m, fd)
      else r = (EXIT_FAIL, w)
  | None => r = (EXIT_OK, w)
  end /\ forall i, i <> ifidx -> attached r.2 i = attached w i.
Proof.
  intros Hargs Hnz Hq Hsup. cbv zeta. unfold xdp_link_detach.
  pose proof (set_link_law ifidx (-1) flags w (c_args_remove _ _ _ Hargs) (or_introl eq_refl)) as (E1 & E2 & E3).
  rewrite get_link_law, Hq by done. rewrite Hsup in E1, E2. unfold link_set in E1, E2.
  cbn [negb] in E1, E2. change (0 <=? -1) with false in E1, E2. cbn [Z.eqb negb].
  destruct (attached w ifidx) as [[m fd]|] eqn:Eatt; [|done].
  pose proof (prog_id_pos fd) as Hid. replace (prog_id fd =? 0) with false by lia.
  rewrite (Z.eqb_sym (prog_id fd)). rewrite (Z.eqb_sym (mode ifidx flags)) in E1, E2.
  destruct (bpf_set_link_xdp_fd ifidx (-1) flags w) as [err w']. cbn [fst snd] in *.
  assert (err = 0) as -> by (rewrite E1; by destruct (m =? _)).
  change (0 <? 0) with false. cbv iota.
  destruct (expected =? 0); cbn [negb andb orb];
    [|destruct (expected =? prog_id fd); cbn [negb andb]; [|done]];
    cbn [fst snd]; rewrite E2; by destruct (m =? _).
Qed.

(** The description check accepts exactly the maps that agree with every
    expected attribute that is not zero, and tells an unknown map from a
    different one. *)
Theorem check_map_fd_info_spec (get_info : Z -> result bpf_map_info) map_fd exp :
  (check_map_fd_info get_info map_fd exp = EXIT_OK <->
   0 <= map_fd /\ exists info, get_info map_fd = Ok info
   /\ (mi_key_size exp = 0 \/ mi_key_size exp = mi_key_size info)
   /\ (mi_value_size exp = 0 \/ mi_value_size exp = mi_value_size info)
   /\ (mi_max_entries exp = 0 \/ mi_max_entries exp = mi_max_entries info)
   /\ (mi_type exp = 0 \/ mi_type exp = mi_type info))
  /\ (check_map_fd_info get_info map_fd exp = EXIT_FAIL_BPF <->
      0 <= map_fd /\ is_ok (get_info map_fd) = false).
Proof.
  unfold check_map_fd_info. destruct (Z.ltb_spec map_fd 0) as [Hm|Hm].
  { split; (split; [done|intros [? _]; lia]). }
  destruct (get_info map_fd) as [info|e]; cbn [is_ok].
  2: { split; (split; [try done|]); [by intros (_ & ? & ? & _)|done]. }
  assert (forall a b, negb (a =? 0) && negb (a =? b) = false <-> a = 0 \/ a = b) as Hd by lia.
  split; [|split; [|by intros [_ ?]]; by repeat case_match].
  split.
  - intros He. repeat (match type of He with (if ?b then _ else _) = _ =>
      destruct b eqn:?; [done|] end).
    split; [done|]. exists info. rewrite <- !Hd. done.
  - intros (_ & info' & [= <-] & H1 & H2 & H3 & H4). rewrite <- !Hd in *.
    by rewrite H1, H2, H3, H4.
Qed.
End properties.

(** ** A concrete network: every device has every mode *)

Definition net := Z -> attachment.

Definition net_mode (flags : Z) : Z :=
  let m := Z.land flags XDP_FLAGS_MODES in if m =? 0 then XDP_FLAGS_SKB_MODE else m.
(** Program 13 is refused by every driver. *)
Definition net_refuses (fd : Z) : Z := if fd =? 13 then EINVAL else 0.

#[export] Instance net_link : XdpNet net := {
  bpf_set_link_xdp_fd i fd flags w :=
    let r := link_set (w i) (net_mode flags) fd
               (negb (Z.land flags XDP_FLAGS_UPDATE_IF_NOEXIST =? 0)) true (net_refuses fd) in
    (r.1, fun j => if j =? i then r.2 else w j);
  bpf_get_link_xdp_id i flags w :=
    if query_ok flags
    then (0, match w i with Some (_, fd) => Z.abs fd + 1 | None => 0 end)
    else (- EINVAL, 0) }.

#[export] Program Instance net_laws : XdpNetLaws net := {
  attached w i := w i;
  mode _ flags := net_mode flags;
  supports _ _ := true;
  refuses _ _ fd := net_refuses fd;
  prog_id fd := Z.abs fd + 1 }.
Next Obligation.
  intros ? flags Hin. unfold net_mode. set (m := Z.land _ _) in *. cbn in Hin.
  destruct Hin as [<-|[<-|[<-|[]]]]; done.
Qed.
Next Obligation. intros. unfold net_refuses. by case_match. Qed.
Next Obligation. intros. unfold net_refuses. by case_match. Qed.
Next Obligation. done. Qed.
Next Obligation. intros. lia. Qed.
Next Obligation.
  intros i fd flags w _ _. cbn [bpf_set_link_xdp_fd net_link fst snd].
  rewrite Z.eqb_refl. split_and!; [done..|]. intros j Hj. by destruct (Z.eqb_spec j i).
Qed.
Next Obligation. done. Qed.

(** A generic-mode program runs on device 2. *)
Definition busy_net : net := fun i => if i =? 2 then Some (XDP_FLAGS_SKB_MODE, 7) else None.

(** Forcing native mode replaces the generic program; a program the driver
    refuses leaves the device without any. *)
Lemma xdp_link_attach_spec_witness :
  (let r := xdp_link_attach 2 XDP_FLAGS_DRV_MODE 9 busy_net in
   (r.1, attached r.2 2) = (EXIT_OK, Some (XDP_FLAGS_DRV_MODE, 9)))
  /\ (let r := xdp_link_attach 2 XDP_FLAGS_DRV_MODE 13 busy_net in
      (r.1, attached r.2 2) = (EXIT_FAIL_XDP, None)).
Proof.
  assert (software_mode XDP_FLAGS_DRV_MODE XDP_FLAGS_DRV_MODE) as Hm by (by split; [|right; left]).
  assert (forall fd, 0 <= fd < 100 -> c_args 2 fd XDP_FLAGS_DRV_MODE) as Hargs by (intros fd ?; unfold c_args, in_range; change XDP_FLAGS_DRV_MODE with 4; lia).
  split.
  - exact (proj1 (xdp_link_attach_spec 2 XDP_FLAGS_DRV_MODE XDP_FLAGS_DRV_MODE 9 busy_net (Hargs 9 ltac:(lia)) Hm
                    ltac:(lia))).
  - exact (proj1 (xdp_link_attach_spec 2 XDP_FLAGS_DRV_MODE XDP_FLAGS_DRV_MODE 13 busy_net (Hargs 13 ltac:(lia)) Hm
                    ltac:(lia))).
Defined.

Lemma xdp_link_detach_spec_witness :
  let r := xdp_link_detach 2 XDP_FLAGS_DRV_MODE 8 busy_net in
  r.1 = EXIT_OK /\ attached r.2 2 = Some (XDP_FLAGS_SKB_MODE, 7).
Proof.
  exact (proj1 (xdp_link_detach_spec 2 XDP_FLAGS_DRV_MODE 8 busy_net ltac:(unfold c_args, in_range; change XDP_FLAGS_DRV_MODE with 4; lia) ltac:(lia) eq_refl eq_refl)).
Defined.
