(* ===== verification/Loader.v ===== *)
(** * The loader and the statistics reader (src/loader/xdp_loader.c,
    src/loader/xdp_stats.c, src/common/common_user_bpf_xdp.c)

    Both [main] functions over the option loop, the link helpers and the
    object operations of libbpf, with the calls to [exit] as an outcome. *)

From S2P Require Export XdpLink.
From S2P Require XdpStats.

(** ** Commands

    A command runs in a world and returns, leaves the process, or has
    undefined behaviour. *)
Inductive exec (A : Type) :=
| Ret (a : A)
| Exited (code : Z)
| Undef.
Arguments Ret {A} _.
Arguments Exited {A} _.
Arguments Undef {A}.

Definition cmd (W A : Type) : Type := W -> exec A * W.

Section cmd.
Context {W : Type}.
Definition ret {A} (a : A) : cmd W A := fun w => (Ret a, w).
Definition exit {A} (code : Z) : cmd W A := fun w => (Exited code, w).
Definition bind {A B} (c : cmd W A) (k : A -> cmd W B) : cmd W B := fun w =>
  match c w with
  | (Ret a, w) => k a w
  | (Exited code, w) => (Exited code, w)
  | (Undef, w) => (Undef, w)
  end.
(** A value that is read, or the undefined behaviour of reading it. *)
Definition defined {A} (o : option A) : cmd W A := fun w =>
  match o with Some a => (Ret a, w) | None => (Undef, w) end.
Definition call {A} (f : W -> A * W) : cmd W A := fun w => let '(a, w) := f w in (Ret a, w).
Definition ask {A} (f : W -> A) : cmd W A := fun w => (Ret (f w), w).
End cmd.
Notation "'do' x <- c ; k" := (bind c (fun x => k)) 
  (at level 10, x binder, c at level 200, k at level 200) : c_scope.

(** A command that returned: its first step returned and the rest did. *)
Lemma bind_Ret {W A B} (c : cmd W A) (k : A -> cmd W B) w b w' :
  bind c k w = (Ret b, w') -> exists a w1, c w = (Ret a, w1) /\ k a w1 = (Ret b, w').
Proof. unfold bind. destruct (c w) as [[a| |] w1]; [eauto|done..]. Qed.

(** ** What libbpf and the system offer *)
Class Libbpf (W Obj Prog : Type) := {
  bpf_prog_load_xattr : str -> Z -> Z -> W -> (Z * Obj) * W;
  bpf_object__find_program_by_title : Obj -> str -> option Prog;
  bpf_program__next : Obj -> option Prog;
  bpf_program__title : Prog -> str;
  bpf_program__fd : Prog -> Z;
  access : str -> W -> Z;
  bpf_object__unpin_maps : Obj -> str -> W -> Z * W;
  bpf_object__pin_maps : Obj -> str -> W -> Z * W;
  bpf_obj_get : str -> W -> Z;
  bpf_obj_get_info_by_fd : W -> Z -> result bpf_map_info }.

(** None of these calls touches the links; descriptors are [int]s. *)
Class LibbpfLaws (W Obj Prog : Type) `{Libbpf W Obj Prog, XdpNetLaws W} : Prop := {
  prog_fd_int p : - 2 ^ 31 <= bpf_program__fd p < 2 ^ 31;
  load_link f t i w idx : attached (bpf_prog_load_xattr f t i w).2 idx = attached w idx;
  unpin_link o d w idx : attached (bpf_object__unpin_maps o d w).2 idx = attached w idx;
  pin_link o d w idx : attached (bpf_object__pin_maps o d w).2 idx = attached w idx }.

Definition BPF_PROG_TYPE_XDP : Z := 6.
Definition PATH_MAX : nat := 4096.
Definition pin_basedir : str := lit "/sys/fs/bpf".
Definition map_name : str := lit "xdp_stats_map".
Definition default_filename : str := lit "syncookie.o".

Section programs.
Context {W Obj Prog : Type} `{XdpNet W, Libbpf W Obj Prog}.
Variable if_nametoindex : str -> Z.

Definition load_bpf_object_file (file : str) (ifidx : Z) : cmd W (option Obj) :=
  do r <- call (bpf_prog_load_xattr file BPF_PROG_TYPE_XDP ifidx);
  let '(err, obj) := r in
  ret (if negb (err =? 0) then None else Some obj).

(** The object, and the configuration with the section that was found. *)
Definition load_bpf_and_xdp_attach (cfg : config) : cmd W (Obj * config) :=
  let offload_ifindex := if Z.land (xdp_flags cfg) XDP_FLAGS_HW_MODE =? 0 then 0 else ifindex cfg in
  do file <- defined (cstr (filename cfg));
  do bpf_obj <- load_bpf_object_file file offload_ifindex;
  match bpf_obj with
  | None => exit EXIT_FAIL_BPF
  | Some bpf_obj =>
      do bpf_prog <- (match progsec cfg with
                      | 0 :: _ => ret (bpf_program__next bpf_obj)
                      | _ => do sec <- defined (cstr (progsec cfg));
                             ret (bpf_object__find_program_by_title bpf_obj sec)
                      end);
      match bpf_prog with
      | None => exit EXIT_FAIL_BPF
      | Some bpf_prog =>
          let cfg := set_strings cfg (filename cfg) (strncpy 32 (bpf_program__title bpf_prog))
                       (src_mac cfg) (dest_mac cfg) in
          let prog_fd := bpf_program__fd bpf_prog in
          if prog_fd <=? 0 then exit EXIT_FAIL_BPF
          else
            do err <- call (xdp_link_attach (ifindex cfg) (xdp_flags cfg) prog_fd);
            if negb (err =? 0) then exit err else ret (bpf_obj, cfg)
      end
  end.

(** [snprintf] into a path buffer cuts the path. *)
Definition path (s : str) : str := take (PATH_MAX - 1) s.

Definition pin_maps_in_bpf_object (bpf_obj : Obj) (subdir : str) : cmd W Z :=
  let pin_dir := path (pin_basedir ++ lit "/" ++ subdir) in
  let map_filename := path (pin_basedir ++ lit "/" ++ subdir ++ lit "/" ++ map_name) in
  do found <- ask (access map_filename);
  do err <- (if negb (found =? -1) then call (bpf_object__unpin_maps bpf_obj pin_dir) else ret 0);
  if negb (err =? 0) then ret EXIT_FAIL_BPF
  else
    do err <- call (bpf_object__pin_maps bpf_obj pin_dir);
    ret (if negb (err =? 0) then EXIT_FAIL_BPF else 0).

(** The configuration [main] of the loader starts from. *)
Definition loader_config : config :=
  let cfg := config_init (Z.lor XDP_FLAGS_UPDATE_IF_NOEXIST XDP_FLAGS_DRV_MODE) in
  set_strings cfg (strncpy 512 default_filename) (progsec cfg) (src_mac cfg) (dest_mac cfg).

(** [main] of the loader, from the options of its command line; the returned
    value is the exit status. *)
Definition loader_main (evs : list getopt_event) : cmd W Z :=
  match parse_loop if_nametoindex evs loader_config true with
  | Exit code _ => exit code
  | Parsed cfg _ =>
      if ifindex cfg =? -1 then ret EXIT_FAIL_OPTION
      else if do_unload cfg then call (xdp_link_detach (ifindex cfg) (xdp_flags cfg) 0)
      else
        do r <- load_bpf_and_xdp_attach cfg;
        let '(bpf_obj, cfg) := r in
        do subdir <- defined (if ifname cfg then cstr (ifname_buf cfg) else None);
        do err <- pin_maps_in_bpf_object bpf_obj subdir;
        ret (if negb (err =? 0) then err else EXIT_OK)
  end.

(** src/loader/xdp_stats.c *)
Definition open_bpf_map_file (pin_dir mapname : str) : cmd W Z :=
  ask (bpf_obj_get (path (pin_dir ++ lit "/" ++ mapname))).

(** The map description [main] of the reader asks for. *)
Definition stats_map_expect : bpf_map_info := MapInfo 0 4 16 XdpStats.XDP_ACTION_MAX.

(** Up to the polling loop, which gets the map and its type. *)
Definition stats_main (evs : list getopt_event) (poll : Z -> Z -> cmd W Z) : cmd W Z :=
  match parse_loop if_nametoindex evs (config_init 0) true with
  | Exit code _ => exit code
  | Parsed cfg _ =>
      if ifindex cfg =? -1 then ret EXIT_FAIL_OPTION
      else
        do dev <- defined (if ifname cfg then cstr (ifname_buf cfg) else None);
        do stats_map_fd <- open_bpf_map_file (path (pin_basedir ++ lit "/" ++ dev)) map_name;
        if stats_map_fd <? 0 then ret EXIT_FAIL_BPF
        else
          do get_info <- ask bpf_obj_get_info_by_fd;
          let err := check_map_fd_info get_info stats_map_fd stats_map_expect in
          if negb (err =? 0) then ret err
          else
            poll stats_map_fd (match get_info stats_map_fd with Ok info => mi_type info | Err _ => 0 end)
  end.
End programs.

#[local] Opaque path.

(** ** Inversion of commands that returned *)

Lemma defined_Ret {W A} (o : option A) (w w' : W) a :
  defined o w = (Ret a, w') -> o = Some a /\ w' = w.
Proof. unfold defined. destruct o; intros; by simplify_eq. Qed.

Lemma call_Ret {W A} (f : W -> A * W) (w w' : W) a :
  call f w = (Ret a, w') -> f w = (a, w').
Proof. unfold call. destruct (f w). intros. by simplify_eq. Qed.

(** Runs the hypothesis [H : c w = (Ret a, w')] forward to its first step. *)
Ltac cmd_inv H :=
  match type of H with
  | bind _ _ _ = (Ret _, _) =>
      let a := fresh "a" in let w := fresh "w" in let E := fresh "E" in
      apply bind_Ret in H as (a & w & E & H); cbv beta in H; cmd_inv E; cmd_inv H
  | defined _ _ = (Ret _, _) => apply defined_Ret in H as [H ->]
  | call _ _ = (Ret _, _) => apply call_Ret in H
  | ret _ _ = (Ret _, _) => unfold ret in H; simplify_eq H
  | ask _ _ = (Ret _, _) => unfold ask in H; simplify_eq H
  | exit _ _ = (Ret _, _) => unfold exit in H; discriminate H
  | _ => idtac
  end.

Section link_facts.
Context {W : Type} `{XdpNetLaws W}.

Lemma link_set_installed att m fd ne sup ref :
  0 <= fd -> 0 <= ref -> 0 <= (link_set att m fd ne sup ref).1 ->
  (link_set att m fd ne sup ref).2 = Some (m, fd).
Proof.
  intros Hfd Hr. unfold link_set. rewrite (proj2 (Z.leb_le 0 fd) Hfd).
  unfold EOPNOTSUPP, EEXIST, EBUSY.
  destruct sup; [|done]. cbn [negb].
  assert (0 <= (if negb (ref =? 0) then (- ref, att) else (0, Some (m, fd))).1 ->
          (if negb (ref =? 0) then (- ref, att) else (0, Some (m, fd))).2 = Some (m, fd)) as Hc.
  { destruct (Z.eqb_spec ref 0); cbn; [done|lia]. }
  destruct att as [[m' fd']|]; [|done].
  destruct (m =? m'); [|done]. by destruct ne.
Qed.

Lemma set_link_installed ifidx fd flags w w' err :
  c_args ifidx fd flags -> 0 <= fd -> bpf_set_link_xdp_fd ifidx fd flags w = (err, w') -> 0 <= err ->
  attached w' ifidx = Some (mode ifidx flags, fd)
  /\ forall i, i <> ifidx -> attached w' i = attached w i.
Proof.
  intros Hargs Hfd E Herr.
  pose proof (set_link_law ifidx fd flags w Hargs (or_intror Hfd)) as (E1 & E2 & E3).
  rewrite E in *. cbn [fst snd] in *. split; [|done]. rewrite E2.
  apply link_set_installed; [done|apply refuses_nonneg|lia].
Qed.

Lemma attach_ok ifidx flags fd w w' :
  c_args ifidx fd flags -> 0 <= fd -> xdp_link_attach ifidx flags fd w = (EXIT_OK, w') ->
  attached w' ifidx = Some (mode ifidx flags, fd)
  /\ forall i, i <> ifidx -> attached w' i = attached w i.
Proof.
  intros Hargs Hfd. unfold xdp_link_attach.
  destruct (bpf_set_link_xdp_fd ifidx fd flags w) as [err w1] eqn:E1.
  set (flags' := Z.lor _ _). assert (c_args ifidx (-1) flags') as Hargs' by (eapply c_args_switched; [exact Hargs|by case_match]).
  destruct ((err =? - EEXIST) && _).
  - destruct (bpf_set_link_xdp_fd ifidx (-1) flags' w1) as [err2 w2] eqn:E2.
    destruct (err2 =? 0) eqn:Ez.
    + destruct (bpf_set_link_xdp_fd ifidx fd flags w2) as [err3 w3] eqn:E3.
      destruct (Z.ltb_spec err3 0); intros [= <-].
      destruct (set_link_installed _ _ _ _ _ _ Hargs Hfd E3) as [Hx Hy]; [done|].
      split; [done|]. intros i Hi. rewrite Hy by done.
      pose proof (set_link_law ifidx (-1) flags' w1 Hargs' (or_introl eq_refl)) as (_ & _ & F).
      pose proof (set_link_law ifidx fd flags w Hargs (or_intror Hfd)) as (_ & _ & G).
      rewrite E2 in F. rewrite E1 in G. cbn [snd] in *. by rewrite F, G.
    + destruct (Z.ltb_spec err2 0); intros [= <-].
      pose proof (set_link_law ifidx (-1) flags' w1 Hargs' (or_introl eq_refl)) as (F & _ & _).
      rewrite E2 in F. cbn [fst] in F. exfalso. revert F Ez. unfold link_set.
      destruct (supports _ _); cbn [negb fst]; [|intros ->; unfold EOPNOTSUPP in *; lia].
      change (0 <=? -1) with false. cbv iota.
      destruct (attached w1 ifidx) as [[m fd']|]; [destruct (_ =? m)|]; cbn [fst]; intros ->; done.
  - destruct (Z.ltb_spec err 0); intros [= <-]. by eapply set_link_installed.
Qed.

Lemma detach_ok ifidx flags w w' :
  c_args ifidx 0 flags -> ifidx <> 0 -> xdp_link_detach ifidx flags 0 w = (EXIT_OK, w') ->
  (forall fd, attached w' ifidx <> Some (mode ifidx flags, fd))
  /\ forall i, i <> ifidx -> attached w' i = attached w i.
Proof.
  intros Hargs Hnz. unfold xdp_link_detach. rewrite get_link_law by done. destruct (query_ok flags); [|done].
  cbn [Z.eqb negb].
  pose proof (set_link_law ifidx (-1) flags w (c_args_remove _ _ _ Hargs) (or_introl eq_refl)) as (E1 & E2 & E3).
  unfold link_set in E1, E2. change (0 <=? -1) with false in E1, E2.
  destruct (bpf_set_link_xdp_fd ifidx (-1) flags w) as [err w1]. cbn [fst snd] in *.
  destruct (attached w ifidx) as [[m fd]|] eqn:Ea.
  - pose proof (prog_id_pos fd). replace (prog_id fd =? 0) with false by lia.
    cbn [andb]. destruct (Z.ltb_spec err 0) as [|Herr]; intros [= <-].
    split; [|done]. intros fd'. rewrite E2. revert E1.
    destruct (supports _ _); cbn [negb fst snd]; [|unfold EOPNOTSUPP; lia].
    destruct (Z.eqb_spec (mode ifidx flags) m); cbn [fst snd]; [done|]. intros _ [= ? _]. congruence.
  - intros [= <-]. by rewrite Ea.
Qed.
End link_facts.

(** ** Properties *)
Section properties.
Context {W Obj Prog : Type} `{LibbpfLaws W Obj Prog}.
(** [if_nametoindex], stored in an [int]. *)
Variable idx : str -> Z.
Hypothesis idx_int : forall dev, - 2 ^ 31 <= idx dev < 2 ^ 31.

(** The program the loader selects in an object. *)
Definition selected (evs : list getopt_event) (obj : Obj) : option Prog :=
  match last_arg 2 evs with
  | Some (c :: sec) => bpf_object__find_program_by_title obj (c :: sec)
  | _ => bpf_program__next obj
  end.

Lemma pin_maps_link obj dir w e w' :
  pin_maps_in_bpf_object obj dir w = (Ret e, w') -> forall i, attached w' i = attached w i.
Proof.
  unfold pin_maps_in_bpf_object, bind, ask, call, ret. intros E i.
  set (pd := path (pin_basedir ++ lit "/" ++ dir)) in *.
  destruct (negb (access _ w =? -1)).
  - pose proof (unpin_link obj pd w i) as Hu.
    destruct (bpf_object__unpin_maps obj pd w) as [e1 w1]. cbn [snd] in Hu.
    destruct (negb (e1 =? 0)); [by simplify_eq|].
    pose proof (pin_link obj pd w1 i) as Hp.
    destruct (bpf_object__pin_maps obj pd w1) as [e2 w2]. simplify_eq. cbn [snd] in Hp. congruence.
  - cbn [Z.eqb negb] in E. pose proof (pin_link obj pd w i) as Hp.
    destruct (bpf_object__pin_maps obj pd w) as [e2 w2]. by simplify_eq.
Qed.

Lemma load_and_attach_ok cfg w obj cfg' w' :
  - 2 ^ 31 <= ifindex cfg < 2 ^ 31 -> in_range 32 (xdp_flags cfg) ->
  load_bpf_and_xdp_attach cfg w = (Ret (obj, cfg'), w') ->
  exists file prog w1,
    cstr (filename cfg) = Some file
    /\ bpf_prog_load_xattr file BPF_PROG_TYPE_XDP
         (if Z.land (xdp_flags cfg) XDP_FLAGS_HW_MODE =? 0 then 0 else ifindex cfg) w
       = ((0, obj), w1)
    /\ (match progsec cfg with
        | 0 :: _ => bpf_program__next obj
        | _ => match cstr (progsec cfg) with
               | Some sec => bpf_object__find_program_by_title obj sec
               | None => None
               end
        end) = Some prog
    /\ 0 < bpf_program__fd prog
    /\ ifname cfg' = ifname cfg /\ ifname_buf cfg' = ifname_buf cfg
    /\ attached w' (ifindex cfg) = Some (mode (ifindex cfg) (xdp_flags cfg), bpf_program__fd prog)
    /\ forall i, i <> ifindex cfg -> attached w' i = attached w i.
Proof.
  unfold load_bpf_and_xdp_attach, load_bpf_object_file. intros Hidx Hflags E.
  apply bind_Ret in E as (file & w0 & [Hf ->]%defined_Ret & E).
  apply bind_Ret in E as (o & w1 & Hl & E). apply bind_Ret in Hl as ([err obj0] & w2 & Hl%call_Ret & Hr).
  unfold ret in Hr. destruct (Z.eqb_spec err 0) as [->|]; cbn [negb] in Hr; simplify_eq.
  apply bind_Ret in E as (p & w2 & Hp & E).
  assert (w2 = w1 /\ p = (match progsec cfg with
        | 0 :: _ => bpf_program__next obj0
        | _ => match cstr (progsec cfg) with
               | Some sec => bpf_object__find_program_by_title obj0 sec
               | None => None
               end
        end)) as [-> Hsel].
  { revert Hp. unfold bind, defined, ret. destruct (cstr (progsec cfg)); repeat case_match; naive_solver. }
  destruct p as [prog|]; [|done].
  destruct (Z.leb_spec (bpf_program__fd prog) 0); [done|].
  apply bind_Ret in E as (err & w2 & Ha%call_Ret & E).
  destruct (Z.eqb_spec err 0) as [->|]; cbn [negb] in E; [|done].
  unfold ret in E. simplify_eq. apply attach_ok in Ha as [Ha1 Ha2]; [|split; [done|split; [apply prog_fd_int|done]]|lia].
  cbn [ifindex xdp_flags set_strings] in *.
  pose proof (fun i => load_link file BPF_PROG_TYPE_XDP
    (if Z.land (xdp_flags cfg) XDP_FLAGS_HW_MODE =? 0 then 0 else ifindex cfg) w i) as Hll.
  rewrite Hl in Hll. cbn [snd] in Hll.
  exists file, prog, w1. split_and!; try done. intros i Hi. by rewrite Ha2, Hll.
Qed.

Lemma loader_filename evs f :
  Forall (fun ev => str_ok ev.2) evs ->
  cstr (filename (final_config idx evs loader_config)) = Some f ->
  f = default default_filename (last_arg 1 evs).
Proof.
  intros Hok. cbn [filename final_config]. unfold last_string.
  destruct (last_arg 1 evs) as [a|] eqn:E.
  - rewrite cstr_strncpy.
    + case_decide; [|done]. by intros [= <-].
    + apply last_arg_In in E. rewrite List.Forall_forall in Hok. apply (Hok _ E).
  - by intros [= <-].
Qed.

Lemma loader_progsec evs obj prog :
  Forall (fun ev => str_ok ev.2) evs ->
  match progsec (final_config idx evs loader_config) with
  | 0 :: _ => bpf_program__next obj
  | _ => match cstr (progsec (final_config idx evs loader_config)) with
         | Some sec => bpf_object__find_program_by_title obj sec
         | None => None
         end
  end = Some prog -> selected evs obj = Some prog.
Proof.
  intros Hok. cbn [progsec final_config]. unfold last_string, selected.
  destruct (last_arg 2 evs) as [a|] eqn:E; [|done].
  assert (str_ok a) as Ha.
  { apply last_arg_In in E. rewrite List.Forall_forall in Hok. apply (Hok _ E). }
  rewrite cstr_strncpy by done. destruct a as [|c a]; [done|].
  inversion Ha as [|? ? Hc _]; subst.
  unfold strncpy. cbn [take app]. destruct c; [done| |]; by case_decide.
Qed.

(** The configuration has its C types. *)
Lemma config_args evs : - 2 ^ 31 <= ifindex (final_config idx evs loader_config) < 2 ^ 31 /\
  in_range 32 (xdp_flags (final_config idx evs loader_config)).
Proof using idx_int.
  cbn [ifindex xdp_flags final_config]. split; [unfold last_index; destruct (last_arg 100 evs); [apply idx_int|cbn; lia]|].
  apply final_flags_range. by apply (bool_decide_unpack _).
Qed.

Lemma loader_main_attaches_run evs w w' :
  Forall (fun ev => str_ok ev.2) evs -> given 85 evs = false ->
  loader_main idx evs w = (Ret EXIT_OK, w') ->
  let flags := final_flags evs (Z.lor XDP_FLAGS_UPDATE_IF_NOEXIST XDP_FLAGS_DRV_MODE) in
  exists dev obj prog w1,
    last_arg 100 evs = Some dev /\ idx dev <> 0
    /\ bpf_prog_load_xattr (default default_filename (last_arg 1 evs)) BPF_PROG_TYPE_XDP
         (if Z.land flags XDP_FLAGS_HW_MODE =? 0 then 0 else idx dev) w = ((0, obj), w1)
    /\ selected evs obj = Some prog
    /\ attached w' (idx dev) = Some (mode (idx dev) flags, bpf_program__fd prog)
    /\ forall i, i <> idx dev -> attached w' i = attached w i.
Proof.
  intros Hok HU E flags. unfold loader_main in E.
  destruct (parse_loop idx evs loader_config true) as [cfg v|] eqn:Hp; [|done].
  apply parse_loop_parsed in Hp as [Hacc ->]. revert E.
  destruct (Z.eqb_spec (ifindex (final_config idx evs loader_config)) (-1)) as [|Hidx];
    [done|].
  replace (do_unload (final_config idx evs loader_config)) with false
    by (cbn [do_unload final_config]; by rewrite HU).
  intros E. apply bind_Ret in E as ([obj cfg] & w1 & Hl & E).
  apply load_and_attach_ok in Hl; [|by apply config_args..].
  destruct Hl as (file & prog & w2 & Hf & Hload & Hsel & Hfd & Hn & Hb & Ha & Ho).
  apply bind_Ret in E as (dir & w3 & [_ ->]%defined_Ret & E).
  apply bind_Ret in E as (e & w3 & Hpin & E).
  unfold ret in E. simplify_eq. pose proof (pin_maps_link _ _ _ _ _ Hpin) as Hk.
  apply loader_filename in Hf; [|done]. apply loader_progsec in Hsel; [|done].
  cbn [ifindex final_config xdp_flags] in *. unfold last_index in *.
  destruct (last_arg 100 evs) as [dev|] eqn:Ed; [|done].
  destruct (accepted_dev idx 100 dev evs (or_introl eq_refl) Hacc Ed) as [_ Hnz].
  exists dev, obj, prog, w2. subst file. split_and!; try done.
  - by rewrite Hk.
  - intros i Hi. by rewrite Hk, Ho.
Qed.

(** When the loader exits successfully without [--unload], then a device
    was given, the object file named last (or the default one) was loaded, the
    program of the section named last (or the first program) was selected, and
    that very program is attached to the device in the mode chosen; the
    programs of all other devices are as before. *)
Theorem loader_main_attaches evs w w' :
  Forall (fun ev => str_ok ev.2) evs -> given 85 evs = false ->
  loader_main idx evs w = (Ret EXIT_OK, w') ->
  let flags := final_flags evs (Z.lor XDP_FLAGS_UPDATE_IF_NOEXIST XDP_FLAGS_DRV_MODE) in
  exists dev obj prog w1,
    last_arg 100 evs = Some dev /\ idx dev <> 0
    /\ bpf_prog_load_xattr (default default_filename (last_arg 1 evs)) BPF_PROG_TYPE_XDP
         (if Z.land flags XDP_FLAGS_HW_MODE =? 0 then 0 else idx dev) w = ((0, obj), w1)
    /\ selected evs obj = Some prog
    /\ attached w' (idx dev) = Some (mode (idx dev) flags, bpf_program__fd prog)
    /\ forall i, i <> idx dev -> attached w' i = attached w i.
Proof. apply loader_main_attaches_run. Qed.

(** When the loader exits successfully with [--unload], no program runs on
    the device in the mode chosen (one in another mode may), and the other
    devices are as before. *)
Theorem loader_main_unloads evs w w' :
  given 85 evs = true -> loader_main idx evs w = (Ret EXIT_OK, w') ->
  exists dev, last_arg 100 evs = Some dev
    /\ (forall fd, attached w' (idx dev)
          <> Some (mode (idx dev)
                (final_flags evs (Z.lor XDP_FLAGS_UPDATE_IF_NOEXIST XDP_FLAGS_DRV_MODE)), fd))
    /\ forall i, i <> idx dev -> attached w' i = attached w i.
Proof.
  intros HU E. unfold loader_main in E.
  destruct (parse_loop idx evs loader_config true) as [cfg v|] eqn:Hp; [|done].
  apply parse_loop_parsed in Hp as [Hacc ->]. revert E.
  destruct (Z.eqb_spec (ifindex (final_config idx evs loader_config)) (-1)) as [|Hidx];
    [done|].
  replace (do_unload (final_config idx evs loader_config)) with true
    by (cbn [do_unload final_config]; by rewrite HU).
  destruct (config_args evs) as [Hi Hf]. cbn [ifindex final_config xdp_flags] in *.
  unfold last_index in *. destruct (last_arg 100 evs) as [dev|] eqn:Ed; [|done].
  destruct (accepted_dev idx 100 dev evs (or_introl eq_refl) Hacc Ed) as [_ Hnz].
  intros E%call_Ret%detach_ok; [eauto|by split; [|split; [lia|]]|done].
Qed.

(** The statistics reader polls only a map with the layout of the
    counters, opened under the name of the device given; in every other case
    it exits with one of its error codes. *)
Theorem stats_main_map evs (poll : Z -> Z -> cmd W Z) w w' r :
  stats_main idx evs poll w = (Ret r, w') ->
  In r [EXIT_FAIL; EXIT_FAIL_OPTION; EXIT_FAIL_BPF]
  \/ exists dev info,
       let fd := bpf_obj_get (path (path (pin_basedir ++ lit "/" ++ dev) ++ lit "/" ++ map_name)) w in
       cstr (last_string 100 IF_NAMESIZE evs []) = Some dev
       /\ 0 <= fd /\ bpf_obj_get_info_by_fd w fd = Ok info
       /\ mi_key_size info = 4 /\ mi_value_size info = 16 /\ mi_max_entries info = 5
       /\ poll fd (mi_type info) w = (Ret r, w').
Proof.
  intros E. unfold stats_main in E.
  destruct (parse_loop idx evs (config_init 0) true) as [cfg v|] eqn:Hp; [|done].
  apply parse_loop_parsed in Hp as [Hacc ->].
  destruct (ifindex _ =? -1); [unfold ret in E; simplify_eq; cbn; auto|].
  apply bind_Ret in E as (dev & w0 & [Hdev ->]%defined_Ret & E).
  apply bind_Ret in E as (fd & w1 & Hfd & E). unfold open_bpf_map_file, ask in Hfd.
  injection Hfd as <- <-. set (fd := bpf_obj_get _ w) in *.
  destruct (Z.ltb_spec fd 0); [unfold ret in E; simplify_eq; cbn; auto|].
  apply bind_Ret in E as (gi & w2 & Hgi & E). unfold ask in Hgi. injection Hgi as <- <-.
  unfold check_map_fd_info in E. destruct (Z.ltb_spec fd 0); [lia|].
  destruct (bpf_obj_get_info_by_fd w fd) as [info|] eqn:Hinfo;
    [|cbn in E; unfold ret in E; simplify_eq; cbn; auto].
  cbn [mi_key_size mi_value_size mi_max_entries mi_type stats_map_expect] in E.
  destruct (Z.eqb_spec 4 (mi_key_size info)); [|cbn in E; unfold ret in E; simplify_eq; cbn; auto].
  destruct (Z.eqb_spec 16 (mi_value_size info)); [|cbn in E; unfold ret in E; simplify_eq; cbn; auto].
  destruct (Z.eqb_spec XdpStats.XDP_ACTION_MAX (mi_max_entries info));
    [|cbn in E; unfold ret in E; simplify_eq; cbn; auto].
  cbn in E. right. exists dev, info. cbn zeta. fold fd. split_and!; try done.
  revert Hdev. cbn [ifname ifname_buf final_config config_init]. unfold given, last_string.
  by destruct (last_arg 100 evs).
Qed.
End properties.



(** ** A concrete system: every file loads and holds two programs *)

#[export] Instance net_libbpf : Libbpf net str Z := {
  bpf_prog_load_xattr f _ _ w := ((0, f), w);
  bpf_object__find_program_by_title _ sec := if decide (sec = lit "xdp_drop") then Some 8 else None;
  bpf_program__next _ := Some 5;
  bpf_program__title p := if p =? 8 then lit "xdp_drop" else lit "xdp_pass";
  bpf_program__fd p := s32 p;
  access _ _ := -1;
  bpf_object__unpin_maps _ _ w := (0, w);
  bpf_object__pin_maps _ _ w := (0, w);
  bpf_obj_get _ _ := 3;
  bpf_obj_get_info_by_fd _ _ := Ok (MapInfo 6 4 16 5) }.

#[export] Instance net_libbpf_laws : LibbpfLaws net str Z.
Proof. split; [|done..]. intros p. cbn. unfold s32. pose proof (wrap_range 32 (p + 2 ^ 31) ltac:(lia)). unfold in_range in *. lia. Qed.

Definition load_options : list getopt_event :=
  [(100, lit "eth0"); (70, []); (2, lit "xdp_drop")].
Definition unload_options : list getopt_event := [(100, lit "eth0"); (83, []); (85, [])].

Definition loaded_net : net := (loader_main eth0_only load_options busy_net).2.
Definition unloaded_net : net :=
  (loader_main (Obj:=str) (Prog:=Z) eth0_only unload_options busy_net).2.

Lemma eth0_only_int dev : - 2 ^ 31 <= eth0_only dev < 2 ^ 31.
Proof. unfold eth0_only. case_match; lia. Qed.

(** Device 2 ran a generic program; [--force] in the default native mode puts
    program 8 there. *)
Lemma loader_main_attaches_witness :
  exists dev obj prog w1,
    last_arg 100 load_options = Some dev /\ eth0_only dev <> 0
    /\ bpf_prog_load_xattr default_filename BPF_PROG_TYPE_XDP 0 busy_net = ((0, obj), w1)
    /\ selected load_options obj = Some prog
    /\ attached loaded_net (eth0_only dev)
       = Some (mode (eth0_only dev) (final_flags load_options 5), bpf_program__fd prog)
    /\ forall i, i <> eth0_only dev -> attached loaded_net i = attached busy_net i.
Proof.
  assert (Forall (fun ev : getopt_event => str_ok ev.2) load_options) as Hok
    by (repeat constructor; vm_compute; done).
  assert (loader_main eth0_only load_options busy_net = (Ret EXIT_OK, loaded_net)) as E
    by (vm_compute; reflexivity).
  exact (loader_main_attaches eth0_only eth0_only_int load_options busy_net loaded_net Hok eq_refl E).
Defined.

Lemma loader_main_unloads_witness :
  exists dev, last_arg 100 unload_options = Some dev
    /\ (forall fd, attached unloaded_net (eth0_only dev) <> Some (XDP_FLAGS_SKB_MODE, fd))
    /\ forall i, i <> eth0_only dev -> attached unloaded_net i = attached busy_net i.
Proof.
  assert (loader_main (Obj:=str) (Prog:=Z) eth0_only unload_options busy_net
          = (Ret EXIT_OK, unloaded_net)) as E by (vm_compute; reflexivity).
  exact (loader_main_unloads eth0_only eth0_only_int unload_options busy_net unloaded_net eq_refl E).
Defined.

Lemma stats_main_map_witness :
  cstr (last_string 100 IF_NAMESIZE [(100, lit "eth0")] []) = Some (lit "eth0").
Proof.
  assert (stats_main (W:=net) (Obj:=str) (Prog:=Z) eth0_only [(100, lit "eth0")]
            (fun _ _ => ret 77) busy_net = (Ret 77, busy_net)) as E by (vm_compute; reflexivity).
  destruct (stats_main_map (W:=net) (Obj:=str) (Prog:=Z) eth0_only [(100, lit "eth0")]
              (fun _ _ => ret 77) busy_net busy_net 77 E)
    as [[H|[H|[H|[]]]]|(dev & info & H & _)]; try discriminate H.
  vm_compute. reflexivity.
Defined.
