(* ===== verification/PossibleCpus.v ===== *)
(** * The number of CPUs (src/headers/bpf_util.h, src/loader/xdp_stats.c)

    A per-CPU lookup fills one record for every CPU that is possible.  How
    many there are is read from a text of the kernel, and the records are put
    in an array of that length on the stack. *)

From S2P Require Export Scan Loader.
From S2P Require XdpStats.
From stdpp Require Import list.
Open Scope Z_scope.

(** [fgets] with a buffer of [n] bytes: the first line, or what fits. *)
Fixpoint first_line (text : list Z) : list Z :=
  match text with [] => [] | c :: text => if c =? 10 then [c] else c :: first_line text end.
Definition fgets (n : nat) (text : list Z) : option (list Z) :=
  match text with [] => None | _ => Some (take (n - 1) (first_line text)) end.

(** The text of /sys/devices/system/cpu/possible, or that it cannot be opened.
    [sscanf] finds nothing to convert in a blank line, and then neither number
    is set; it finds no number in one that starts otherwise. *)
Definition bpf_num_possible_cpus (file : option (list Z)) : exec Z :=
  match file with
  | None => Exited 1
  | Some text =>
      match fgets 128 text with
      | None => Ret 0
      | Some buff =>
          match skip_space buff, scan_unsigned buff with
          | [], _ => Undef
          | _, None => Exited 1
          | _, Some (None, _) => Undef
          | _, Some (Some start, rest) =>
              let conv := match rest with c :: rest => if c =? 45 then scan_unsigned rest else None | [] => None end in
              match conv with
              | None => Ret (if start =? 0 then u32 (start + 1) else 0)
              | Some (None, _) => Undef
              | Some (Some last, _) => Ret (if start =? 0 then u32 (last + 1) else 0)
              end
          end
      end
  end.

Section collect.
Context {T : Type} `{XdpStats.PercpuArray T}.

(** [map_get_value_percpu_array] with its array: an array of no records, a
    record written behind it and a record read that was not written are
    undefined. *)
Definition get_value_percpu_array (file : option (list Z)) (t : T) (key : Z) (value : XdpStats.datarec) : exec XdpStats.datarec :=
  match bpf_num_possible_cpus file with
  | Ret n =>
      if n =? 0 then Undef else
      match XdpStats.pc_values t key with
      | None => Ret value
      | Some values => if zlen values =? n then Ret (XdpStats.sum_records values) else Undef
      end
  | Exited code => Exited code
  | Undef => Undef
  end.
End collect.

(** ** The text of the kernel *)

(** Ranges of CPUs in increasing order, with gaps between them. *)
Fixpoint ranges_from (lo : Z) (rs : list (Z * Z)) : Prop :=
  match rs with [] => True | (a, b) :: rs => lo <= a <= b /\ b < 2 ^ 32 - 1 /\ ranges_from (b + 2) rs end.
Definition cpus_in (rs : list (Z * Z)) : Z := foldr (fun r n => r.2 - r.1 + 1 + n) 0 rs.

Definition range_text (r : Z * Z) : str := if r.1 =? r.2 then number_text r.1 else number_text r.1 ++ [45] ++ number_text r.2.
Definition list_text (rs : list (Z * Z)) : str :=
  match rs with [] => [] | r :: rs => range_text r ++ List.concat (List.map (fun r => 44 :: range_text r) rs) end ++ [10].

Lemma first_line_app s rest : ~ In 10 s -> first_line (s ++ rest) = s ++ first_line rest.
Proof. induction s as [|c s IH]; intros Hs; [done|]. cbn in *. replace (c =? 10) with false by lia. rewrite IH by tauto. done. Qed.

Lemma digits_ten s : forall acc v n, digits 10 acc s = (v, n, []) -> ~ In 10 s.
Proof.
  induction s as [|c s IH]; intros acc v n E; [tauto|]. cbn [digits] in E. destruct (digit 10 c) as [d|] eqn:Ed; [|done].
  destruct (digits 10 (acc * 10 + d) s) as [[v1 n1] r1] eqn:E1. injection E as _ _ ->. intros [->|Hin]; [done|]. by eapply IH.
Qed.

Lemma number_no_newline v : 0 <= v -> ~ In 10 (number_text v).
Proof. intros Hv. destruct (number_prints v Hv) as [(n & E) _ _]. by eapply digits_ten. Qed.

(** How the text begins: the first range, and a character that ends it. *)
Lemma list_text_front a b rs : exists c rest, list_text ((a, b) :: rs) = range_text (a, b) ++ c :: rest /\ (c = 44 \/ c = 10).
Proof. unfold list_text. destruct rs as [|r rs]; cbn [List.map List.concat app]; rewrite ?app_nil_r, <- ?app_assoc; eexists _, _; (split; [reflexivity|tauto]). Qed.

(** Only the first range counts. *)
Lemma num_cpus_text a b rs : 0 <= a <= b -> b < 2 ^ 32 - 1 ->
  bpf_num_possible_cpus (Some (list_text ((a, b) :: rs))) = Ret (if a =? 0 then b + 1 else 0).
Proof.
  intros Hab Hb. destruct (list_text_front a b rs) as (c & rest & -> & Hc).
  destruct (number_prints a ltac:(lia)) as [Ba Sa Da]. destruct (number_prints b ltac:(lia)) as [Bb Sb Db].
  pose proof (Sa 10 ltac:(lia) ltac:(lia)) as La. pose proof (Sb 10 ltac:(lia) ltac:(lia)) as Lb. unfold zlen in La, Lb.
  assert (length (range_text (a, b)) <= 21)%nat as Hlen by (unfold range_text; cbn [fst snd]; destruct (a =? b); rewrite ?length_app; cbn [length]; lia).
  assert (~ In 10 (range_text (a, b))) as Hnl.
  { unfold range_text. cbn [fst snd]. destruct (a =? b); rewrite ?in_app_iff; cbn [In]; pose proof (number_no_newline a ltac:(lia));
      pose proof (number_no_newline b ltac:(lia)); intuition lia. }
  assert (exists t, take (128 - 1) (first_line (range_text (a, b) ++ c :: rest)) = range_text (a, b) ++ c :: t) as [t Et].
  { rewrite first_line_app by done. cbn [first_line]. exists (take (127 - length (range_text (a, b)) - 1) (if c =? 10 then [] else first_line rest)).
    rewrite take_app_ge by lia. f_equal. destruct (127 - length (range_text (a, b)))%nat as [|k] eqn:Ek; [lia|]. cbn [Nat.sub]. rewrite Nat.sub_0_r.
    rewrite Ek. destruct (c =? 10); cbn; by rewrite ?take_nil. }
  unfold bpf_num_possible_cpus, fgets. destruct (range_text (a, b) ++ c :: rest) as [|x l] eqn:Ex; [by destruct (app_cons_not_nil _ _ _ (eq_sym Ex))|]. rewrite Et. clear Ex x l Et.
  assert (no_digit (c :: t)) as Hend by (by destruct Hc as [->| ->]).
  assert (forall r, exists x l, skip_space (number_text a ++ r) = x :: l) as Hskip.
  { intros r. destruct (number_text a) as [|x l]; [done|]. cbn [app skip_space]. unfold isspace.
    replace (x =? 32) with false by lia. replace (x <=? 13) with false by lia. rewrite andb_false_r. by eexists _, _. }
  unfold range_text. cbn [fst snd]. destruct (Z.eqb_spec a b) as [<-|Hne].
  - destruct (Hskip (c :: t)) as (x & l & ->). rewrite scan_printed by (done || lia). replace (c =? 45) with false by lia.
    destruct (a =? 0); [|done]. by rewrite wrap_small by (unfold in_range; lia).
  - rewrite <- !app_assoc. cbn [app]. destruct (Hskip (45 :: number_text b ++ c :: t)) as (x & l & ->).
    rewrite scan_printed by (done || lia). cbv iota. rewrite Z.eqb_refl. rewrite scan_printed by (done || lia).
    destruct (a =? 0); [|done]. by rewrite wrap_small by (unfold in_range; lia).
Qed.

(** A gap, or a first CPU that is not 0, makes more CPUs than are counted. *)
Lemma cpus_counted rs : forall lo, ranges_from lo rs -> 0 <= cpus_in rs /\ (rs <> [] -> 0 < cpus_in rs).
Proof.
  unfold cpus_in. induction rs as [|[a b] rs IH]; intros lo Hr; cbn [foldr fst snd]; [done|]. destruct Hr as (Hab & _ & Hr).
  destruct (IH _ Hr) as [Hp _]. split; [lia|]. intros _. lia.
Qed.

Section collected.
Context {T : Type} `{XdpStats.PercpuArrayLaws T}.

Lemma values_length (t : T) key values : 0 <= key < XdpStats.XDP_ACTION_MAX -> XdpStats.pc_values t key = Some values -> zlen values = Z.of_nat XdpStats.nr_cpus.
Proof using H0.
  intros Hk E. rewrite XdpStats.pc_values_lookup in E by done. apply mapM_Some_1, Forall2_length in E. unfold zlen. rewrite <- E, length_seq. done.
Qed.

Lemma values_there (t : T) key : 0 <= key < XdpStats.XDP_ACTION_MAX -> is_Some (XdpStats.pc_values t key).
Proof using H0.
  intros Hk. rewrite XdpStats.pc_values_lookup by done. apply mapM_is_Some_2, List.Forall_forall. intros cpu [_ Hc]%in_seq.
  apply XdpStats.pc_lookup_is_Some; [lia|done].
Qed.
End collected.

(** C38. The counters of all CPUs are collected, within the array made for them,
    exactly when the possible CPUs are numbered from 0 without a gap; then they
    are summed as the report expects.  With any other set of CPUs the kernel
    writes behind the array or there is none: the first range alone is counted,
    and that only when it starts at 0. *)
Theorem percpu_collect_spec {T : Type} `{XdpStats.PercpuArrayLaws T} rs (t : T) key value :
  rs <> [] -> ranges_from 0 rs -> cpus_in rs = Z.of_nat XdpStats.nr_cpus -> 0 <= key < XdpStats.XDP_ACTION_MAX ->
  get_value_percpu_array (Some (list_text rs)) t key value
  = if decide (rs = [(0, Z.of_nat XdpStats.nr_cpus - 1)]) then Ret (XdpStats.map_get_value_percpu_array t key value) else Undef.
Proof.
  intros Hne Hrs Hcount Hk. destruct rs as [|[a b] rs]; [done|]. destruct Hrs as (Hab & Hb & Hrs). unfold get_value_percpu_array.
  rewrite num_cpus_text by lia. unfold XdpStats.map_get_value_percpu_array. destruct (values_there t key Hk) as [values E]. rewrite E, (values_length t key values Hk E).
  destruct (cpus_counted rs _ Hrs) as [Hp Hpos]. unfold cpus_in in *. cbn [foldr fst snd] in Hcount.
  destruct (Z.eqb_spec a 0) as [->|Ha]; cbv iota.
  - replace (b + 1 =? 0) with false by lia. destruct rs as [|r rs].
    + cbn [foldr] in Hcount. replace (Z.of_nat XdpStats.nr_cpus =? b + 1) with true by lia. rewrite decide_True; [done|]. do 2 f_equal. lia.
    + replace (Z.of_nat XdpStats.nr_cpus =? b + 1) with false by (specialize (Hpos ltac:(done)); lia). by rewrite decide_False.
  - rewrite decide_False; [done|]. intros [= -> _]. done.
Qed.

#[local] Existing Instances XdpStats.two_cpus_array XdpStats.two_cpus_laws.
Definition ex_counters : XdpStats.two_cpus := fun cpu k => XdpStats.Datarec (Z.of_nat cpu + k) 60.

Lemma percpu_collect_spec_witness : get_value_percpu_array (Some (lit "0-1" ++ [10])) ex_counters 2 (XdpStats.Datarec 0 0) = Ret (XdpStats.Datarec 5 120).
Proof.
  exact (percpu_collect_spec [(0, 1)] ex_counters 2 (XdpStats.Datarec 0 0) ltac:(done) ltac:(cbn; lia) eq_refl ltac:(done)).
Defined.

(** Two possible CPUs, the second of which is number 2: one is counted. *)
Example ex_gap : bpf_num_possible_cpus (Some (lit "0,2" ++ [10])) = Ret 1.
Proof. vm_compute. reflexivity. Qed.
Example ex_blank : bpf_num_possible_cpus (Some [10]) = Undef /\ bpf_num_possible_cpus (Some (lit "none")) = Exited 1 /\ bpf_num_possible_cpus (Some []) = Ret 0.
Proof. vm_compute. by split_and!. Qed.
