(* ===== verification/XattrMaps.v ===== *)
(** * Loading an object with pinned maps (src/common/common_libbpf.c)

    [bpf_prog_load_xattr_maps]: maps whose pin already exists are replaced by
    the pinned ones, the others are pinned after loading.  The object
    operations of libbpf are a class; [None] is undefined behaviour. *)

From S2P Require Export CString.

(** ** Objects, requests and the interface *)

Record bpf_map := BpfMap { m_name : str; m_type : Z; m_ifindex : Z; m_fd : Z }.
Record bpf_program := BpfProg { p_ifindex : Z; p_type : Z; p_attach : Z; p_fd : Z }.
Record bpf_object := BpfObj { o_progs : list bpf_program; o_maps : list bpf_map }.

Record bpf_pinned_map := PinnedMap { pin_name : str; pin_filename : str; map_fd : Z }.

Record bpf_prog_load_attr_maps := LoadAttr {
  file : option str;
  prog_type : Z;
  expected_attach_type : Z;
  attr_ifindex : Z;
  pinned_maps : list bpf_pinned_map }.

(** [reuse] gives the error and the map it leaves: on success the descriptor
    and the name are those of the kernel's map. *)
Class ObjectOps (W : Type) := {
  object__open_xattr : str -> Z -> W -> option bpf_object;
  obj_get : str -> W -> Z;
  map__reuse_fd : bpf_map -> Z -> W -> Z * bpf_map;
  object__load : bpf_object -> W -> result bpf_object * W;
  map__pin : bpf_map -> str -> W -> Z * W }.

(** A failed load closes the object. *)
Inductive load_result :=
| LoadErr (code : Z)
| Loaded (obj : bpf_object) (prog_fd : Z).

Definition BPF_MAP_TYPE_PERF_EVENT_ARRAY : Z := 4.
Definition is_offload_neutral (m : bpf_map) : bool := m_type m =? BPF_MAP_TYPE_PERF_EVENT_ARRAY.

Section load.
Context {W : Type} `{ObjectOps W}.

Definition set_prog (attr : bpf_prog_load_attr_maps) (p : bpf_program) : bpf_program :=
  BpfProg (attr_ifindex attr) (prog_type attr) (expected_attach_type attr) (p_fd p).

Definition set_map_ifindex (ifidx : Z) (m : bpf_map) : bpf_map :=
  if is_offload_neutral m then m else BpfMap (m_name m) (m_type m) ifidx (m_fd m).

Definition set_fd (p : bpf_pinned_map) (fd : Z) : bpf_pinned_map :=
  PinnedMap (pin_name p) (pin_filename p) fd.

(** The inner loop of the first pass.  [mapname] points at the name of the
    map; reusing a descriptor frees that name, and comparing it afterwards is
    undefined. *)
Fixpoint reuse_pins (w : W) (mapname : str) (alive : bool) (m : bpf_map)
    (pins : list bpf_pinned_map) : option (bpf_map * list bpf_pinned_map) :=
  match pins with
  | [] => Some (m, [])
  | p :: pins =>
      if negb alive then None
      else if decide (mapname = pin_name p) then
        let fd := obj_get (pin_filename p) w in
        if 0 <? fd then
          let '(err, m) := map__reuse_fd m fd w in
          '(m, pins) ← reuse_pins w mapname (negb (err =? 0)) m pins;
          Some (m, set_fd p fd :: pins)
        else
          '(m, pins) ← reuse_pins w mapname alive m pins; Some (m, p :: pins)
      else
        '(m, pins) ← reuse_pins w mapname alive m pins; Some (m, p :: pins)
  end.

Fixpoint reuse_maps (w : W) (ifidx : Z) (maps : list bpf_map) (pins : list bpf_pinned_map)
  : option (list bpf_map * list bpf_pinned_map) :=
  match maps with
  | [] => Some ([], pins)
  | m :: maps =>
      '(m, pins) ← reuse_pins w (m_name m) true (set_map_ifindex ifidx m) pins;
      '(maps, pins) ← reuse_maps w ifidx maps pins;
      Some (m :: maps, pins)
  end.

(** The second pass, after the load. *)
Fixpoint pin_map (m : bpf_map) (pins : list bpf_pinned_map) (w : W)
  : list bpf_pinned_map * W :=
  match pins with
  | [] => ([], w)
  | p :: pins =>
      if decide (m_name m = pin_name p) then
        if negb (map_fd p =? -1) then
          let '(pins, w) := pin_map m pins w in (p :: pins, w)
        else
          let '(err, w) := map__pin m (pin_filename p) w in
          let p := if negb (err =? 0) then p else set_fd p (m_fd m) in
          let '(pins, w) := pin_map m pins w in (p :: pins, w)
      else let '(pins, w) := pin_map m pins w in (p :: pins, w)
  end.

Fixpoint pin_maps (maps : list bpf_map) (pins : list bpf_pinned_map) (w : W)
  : list bpf_pinned_map * W :=
  match maps with
  | [] => (pins, w)
  | m :: maps => let '(pins, w) := pin_map m pins w in pin_maps maps pins w
  end.

(** A null [attr] is dereferenced before it is tested. *)
Definition bpf_prog_load_xattr_maps (attr : option bpf_prog_load_attr_maps) (w : W)
  : option (load_result * list bpf_pinned_map * W) :=
  attr ← attr;
  let pins := pinned_maps attr in
  match file attr with
  | None => Some (LoadErr (- EINVAL), pins, w)
  | Some f =>
      match object__open_xattr f (prog_type attr) w with
      | None => Some (LoadErr (- ENOENT), pins, w)
      | Some obj =>
          let progs := map (set_prog attr) (o_progs obj) in
          let pins := map (fun p => set_fd p (-1)) pins in
          '(maps, pins) ← reuse_maps w (attr_ifindex attr) (o_maps obj) pins;
          match progs with
          | [] => Some (LoadErr (- ENOENT), pins, w)
          | _ :: _ =>
              let '(r, w) := object__load (BpfObj progs maps) w in
              match r with
              | Err _ => Some (LoadErr (- EINVAL), pins, w)
              | Ok obj =>
                  let '(pins, w) := pin_maps (o_maps obj) pins w in
                  match o_progs obj with
                  | first_prog :: _ => Some (Loaded obj (p_fd first_prog), pins, w)
                  | [] => None
                  end
              end
          end
      end
  end.
End load.

(** ** One pinned map *)

(** The object operations keep what the loader does not ask them to change:
    loading gives descriptors and keeps names, order and the number of
    programs; a failed reuse leaves a map without a descriptor alone, as
    [bpf_map__reuse_fd] does ([ObjReuse.reuse_fd_spec]). *)
Class ObjectLaws (W : Type) `{ObjectOps W} : Prop := {
  load_names obj w obj' w' : object__load obj w = (Ok obj', w') ->
    map m_name (o_maps obj') = map m_name (o_maps obj)
    /\ length (o_progs obj') = length (o_progs obj);
  reuse_failed m fd w : m_fd m < 0 -> (map__reuse_fd m fd w).1 <> 0 -> (map__reuse_fd m fd w).2 = m }.

Section proofs.
Context {W : Type} `{ObjectLaws W}.

Definition find_map (n : str) (maps : list bpf_map) : option bpf_map :=
  List.find (fun m => bool_decide (m_name m = n)) maps.

(** What the first pass leaves: the maps, the one with the pinned name
    replaced when its pin could be opened. *)
Definition reused (w : W) (ifidx : Z) (p : bpf_pinned_map) (m : bpf_map) : bpf_map :=
  let fd := obj_get (pin_filename p) w in
  let m' := set_map_ifindex ifidx m in
  if decide (m_name m = pin_name p) then
    if 0 <? fd then (map__reuse_fd m' fd w).2 else m'
  else m'.

Lemma reuse_maps_single w ifidx maps p :
  reuse_maps w ifidx maps [p]
  = Some (map (reused w ifidx p) maps,
          [match find_map (pin_name p) maps with
           | Some _ => if 0 <? obj_get (pin_filename p) w
                       then set_fd p (obj_get (pin_filename p) w) else p
           | None => p
           end]).
Proof.
  revert p. induction maps as [|m maps IH]; intros p; [done|].
  cbn [reuse_maps map reuse_pins]. unfold reused at 1. unfold find_map. cbn [List.find].
  destruct (decide (m_name m = pin_name p)) as [E|E].
  - rewrite (bool_decide_eq_true_2 _ E).
    destruct (0 <? obj_get (pin_filename p) w) eqn:Efd.
    + destruct (map__reuse_fd _ _ w) as [err m'] eqn:Er. cbn [mbind option_bind negb snd].
      rewrite IH. cbn [mbind option_bind pin_name pin_filename set_fd]. rewrite Efd.
      do 3 f_equal. by destruct (find_map _ maps).
    + cbn [mbind option_bind negb]. rewrite IH. rewrite Efd. cbn [mbind option_bind].
      do 3 f_equal. by destruct (find_map _ maps).
  - rewrite (bool_decide_eq_false_2 _ E). cbn [mbind option_bind negb]. by rewrite IH.
Qed.

Lemma pin_maps_kept maps p w : map_fd p <> -1 -> pin_maps maps [p] w = ([p], w).
Proof.
  intros Hp. induction maps as [|m maps IH]; [done|]. cbn [pin_maps pin_map].
  replace (map_fd p =? -1) with false by lia. cbn [negb]. by destruct (decide _).
Qed.

Lemma pin_maps_absent maps p w : find_map (pin_name p) maps = None -> pin_maps maps [p] w = ([p], w).
Proof.
  unfold find_map. induction maps as [|m maps IH]; [done|]. cbn [List.find pin_maps pin_map].
  destruct (decide (m_name m = pin_name p)) as [E|E].
  - by rewrite (bool_decide_eq_true_2 _ E).
  - rewrite (bool_decide_eq_false_2 _ E). apply IH.
Qed.

Lemma find_map_absent n maps : ~ In n (map m_name maps) -> find_map n maps = None.
Proof.
  induction maps as [|m maps IH]; [done|]. cbn. intros Hn. unfold find_map. cbn [List.find].
  rewrite bool_decide_eq_false_2 by tauto. apply IH. tauto.
Qed.

Lemma pin_maps_single maps p m w :
  List.NoDup (map m_name maps) -> map_fd p = -1 -> find_map (pin_name p) maps = Some m ->
  pin_maps maps [p] w
  = ([if (map__pin m (pin_filename p) w).1 =? 0 then set_fd p (m_fd m) else p],
     (map__pin m (pin_filename p) w).2).
Proof.
  intros Hnd Hp. unfold find_map. revert Hnd. induction maps as [|m' maps IH]; [done|].
  cbn [map List.find pin_maps pin_map]. intros Hnd. inversion Hnd as [|? ? Hn Hnd']; subst.
  destruct (decide (m_name m' = pin_name p)) as [E|E].
  - rewrite (bool_decide_eq_true_2 _ E), Hp. intros [= ->]. cbn [Z.eqb negb].
    change (-1 =? -1) with true. cbn [negb].
    destruct (map__pin m (pin_filename p) w) as [err w']. cbn [fst snd].
    rewrite E in Hn. apply find_map_absent in Hn.
    destruct (err =? 0); cbn [negb]; by apply pin_maps_absent.
  - rewrite (bool_decide_eq_false_2 _ E). by apply IH.
Qed.

Lemma find_map_names n maps maps' :
  map m_name maps' = map m_name maps -> is_Some (find_map n maps') <-> is_Some (find_map n maps).
Proof.
  revert maps'. unfold find_map.
  induction maps as [|m maps IH]; intros [|m' maps'] Hn; try done.
  cbn in *. injection Hn as Hm Hn. rewrite Hm.
  destruct (bool_decide (m_name m = n)); [|by apply IH]. split; eauto.
Qed.

Lemma reused_names w ifidx p maps :
  (0 <? obj_get (pin_filename p) w) = false \/ find_map (pin_name p) maps = None ->
  map m_name (map (reused w ifidx p) maps) = map m_name maps.
Proof.
  unfold find_map, reused. intros Hc. induction maps as [|m maps IH]; [done|]. cbn [map].
  assert (m_name (set_map_ifindex ifidx m) = m_name m) as Hs
    by (unfold set_map_ifindex; by destruct (is_offload_neutral m)).
  f_equal.
  - destruct (decide (m_name m = pin_name p)) as [E|E]; [|done].
    destruct Hc as [->|Hc]; [done|]. cbn in Hc. by rewrite (bool_decide_eq_true_2 _ E) in Hc.
  - apply IH. destruct Hc as [Hc|Hc]; [by left|right]. cbn [List.find] in Hc. by case_bool_decide.
Qed.
End proofs.

Section properties.
Context {W : Type} `{ObjectLaws W}.

(** C14. Loading with one pinned map.  Every program gets the type, attach type
    and device of the request and the first one is returned.  If a map of the
    object has the pinned name, then an existing pin is used for it and its
    descriptor reported; otherwise the loaded map is pinned there and its own
    descriptor reported, or -1 when pinning failed.  Without such a map -1 is
    reported and nothing is pinned. *)
Theorem load_one_pinned_map attr f obj p w obj' w1 :
  file attr = Some f -> pinned_maps attr = [p] ->
  object__open_xattr f (prog_type attr) w = Some obj ->
  o_progs obj <> [] -> List.NoDup (map m_name (o_maps obj)) ->
  object__load (BpfObj (map (set_prog attr) (o_progs obj))
                       (map (reused w (attr_ifindex attr) p) (o_maps obj))) w = (Ok obj', w1) ->
  exists first fd w2,
    bpf_prog_load_xattr_maps (Some attr) w = Some (Loaded obj' (p_fd first), [set_fd p fd], w2)
    /\ head (o_progs obj') = Some first
    /\ match find_map (pin_name p) (o_maps obj) with
       | None => fd = -1 /\ w2 = w1
       | Some _ =>
           if 0 <? obj_get (pin_filename p) w
           then fd = obj_get (pin_filename p) w /\ w2 = w1
           else exists m, find_map (pin_name p) (o_maps obj') = Some m
                  /\ w2 = (map__pin m (pin_filename p) w1).2
                  /\ fd = if (map__pin m (pin_filename p) w1).1 =? 0 then m_fd m else -1
       end.
Proof.
  intros Hf Hp Hopen Hne Hnd Hload.
  destruct (load_names _ _ _ _ Hload) as [Hnames Hlen]. cbn [o_progs o_maps] in Hnames, Hlen.
  unfold bpf_prog_load_xattr_maps. cbn [mbind option_bind]. rewrite Hf, Hopen, Hp. cbn [map].
  rewrite reuse_maps_single. cbn [mbind option_bind pin_name pin_filename set_fd].
  destruct (o_progs obj) as [|prog progs] eqn:Hprogs; [done|]. cbn [map].
  cbn [map] in Hload. change (reused w (attr_ifindex attr) (set_fd p (-1)))
    with (reused w (attr_ifindex attr) p). rewrite Hload.
  destruct (o_progs obj') as [|first progs'] eqn:Hp'; [by cbn in Hlen|].
  exists first. destruct (find_map (pin_name p) (o_maps obj)) as [m0|] eqn:Hm0.
  - destruct (0 <? obj_get (pin_filename p) w) eqn:Hfd.
    + eexists _, _. rewrite pin_maps_kept by (cbn; lia). split; [done|]. done.
    + assert (map m_name (o_maps obj') = map m_name (o_maps obj)) as Hn'
        by (rewrite Hnames; apply reused_names; by left).
      destruct (proj2 (find_map_names (pin_name p) _ _ Hn')) as [m Hm]; [eauto|].
      rewrite (pin_maps_single _ (set_fd p (-1)) m) by (by rewrite ?Hn').
      exists (if (map__pin m (pin_filename p) w1).1 =? 0 then m_fd m else -1),
        (map__pin m (pin_filename p) w1).2.
      split; [|eauto]. cbn [pin_filename set_fd]. by destruct (_ =? 0).
  - assert (map m_name (o_maps obj') = map m_name (o_maps obj)) as Hn'
      by (rewrite Hnames; apply reused_names; by right).
    rewrite pin_maps_absent; [by exists (-1), w1|]. cbn [pin_name set_fd].
    apply eq_None_not_Some. rewrite (find_map_names _ _ _ Hn'), Hm0. by intros [? ?].
Qed.

(** With two or more pinned maps, reusing the pin of a map that is not the
    last in the list leads to undefined behaviour: the name the loop goes on
    comparing has been freed. *)
Theorem reuse_then_compare_undefined attr f obj m maps p q rest w :
  file attr = Some f -> pinned_maps attr = p :: q :: rest ->
  object__open_xattr f (prog_type attr) w = Some obj -> o_maps obj = m :: maps ->
  m_name m = pin_name p -> 0 < obj_get (pin_filename p) w ->
  (map__reuse_fd (set_map_ifindex (attr_ifindex attr) m) (obj_get (pin_filename p) w) w).1 = 0 ->
  bpf_prog_load_xattr_maps (Some attr) w = None.
Proof.
  intros Hf Hp Hopen Hmaps Hm Hfd Hr. unfold bpf_prog_load_xattr_maps. cbn [mbind option_bind].
  rewrite Hf, Hopen, Hp, Hmaps. cbn [map reuse_maps reuse_pins negb pin_name pin_filename set_fd].
  rewrite decide_True by done. replace (0 <? _) with true by lia.
  destruct (map__reuse_fd _ _ w) as [err m']. cbn [fst] in Hr. by subst err.
Qed.

(** A pin that opens but cannot be reused is reported as the map's
    descriptor all the same: the object keeps its own map and nothing is
    pinned. *)
Theorem failed_reuse_reported attr f obj p w obj' w1 m :
  file attr = Some f -> pinned_maps attr = [p] ->
  object__open_xattr f (prog_type attr) w = Some obj ->
  o_progs obj <> [] -> o_maps obj = [m] -> m_name m = pin_name p ->
  let fd := obj_get (pin_filename p) w in
  let m' := set_map_ifindex (attr_ifindex attr) m in
  0 < fd -> m_fd m < 0 -> (map__reuse_fd m' fd w).1 <> 0 ->
  object__load (BpfObj (map (set_prog attr) (o_progs obj)) [m']) w = (Ok obj', w1) ->
  exists prog_fd,
    bpf_prog_load_xattr_maps (Some attr) w = Some (Loaded obj' prog_fd, [set_fd p fd], w1).
Proof.
  intros Hf Hp Hopen Hne Hmaps Hm fd m' Hfd Hnofd Hr Hload.
  destruct (load_names _ _ _ _ Hload) as [Hnames Hlen]. cbn [o_progs o_maps] in Hnames, Hlen.
  unfold bpf_prog_load_xattr_maps. cbn [mbind option_bind]. rewrite Hf, Hopen, Hp, Hmaps.
  cbn [map]. rewrite reuse_maps_single.
  cbn [mbind option_bind pin_name pin_filename set_fd map].
  unfold reused. cbn [pin_name pin_filename set_fd]. rewrite decide_True by done. fold fd.
  replace (0 <? fd) with true by lia. fold m'. assert (m_fd m' < 0) by (unfold m', set_map_ifindex; by destruct (is_offload_neutral m)). rewrite reuse_failed by done.
  unfold find_map. cbn [List.find]. rewrite bool_decide_eq_true_2 by done.
  destruct (o_progs obj) as [|prog progs]; [done|]. cbn [map] in *. rewrite Hload.
  destruct (o_progs obj') as [|first progs']; [by cbn in Hlen|].
  exists (p_fd first). by rewrite pin_maps_kept by (cbn; lia).
Qed.
End properties.

(** ** A concrete system

    The world is the list of pins, each a path and a descriptor.  Descriptor 9
    cannot be reused; loading gives a map without descriptor number 20. *)
Definition pins := list (str * Z).

Definition pinned (path : str) (w : pins) : Z :=
  match List.find (fun e => bool_decide (e.1 = path)) w with Some e => e.2 | None => -1 end.

#[export] Instance pins_ops : ObjectOps pins := {
  object__open_xattr f _ _ :=
    if decide (f = lit "a.o")
    then Some (BpfObj [BpfProg 0 0 0 5] [BpfMap (lit "stats") 6 0 (-1)]) else None;
  obj_get path w := pinned path w;
  map__reuse_fd m fd _ :=
    if fd =? 9 then (- EINVAL, m) else (0, BpfMap (m_name m) (m_type m) (m_ifindex m) fd);
  object__load obj w :=
    (Ok (BpfObj (o_progs obj)
           (map (fun m => BpfMap (m_name m) (m_type m) (m_ifindex m)
                            (if m_fd m =? -1 then 20 else m_fd m)) (o_maps obj))), w);
  map__pin m path w := (0, (path, m_fd m) :: w) }.

#[export] Instance pins_laws : ObjectLaws pins.
Proof.
  split.
  - intros obj w obj' w' [= <- <-]. cbn. by rewrite map_map.
  - intros m fd w _. cbn. by destruct (fd =? 9).
Qed.

Definition one_pin : bpf_prog_load_attr_maps :=
  LoadAttr (Some (lit "a.o")) 6 0 2 [PinnedMap (lit "stats") (lit "/p") 0].
Definition two_pins : bpf_prog_load_attr_maps :=
  LoadAttr (Some (lit "a.o")) 6 0 2
    [PinnedMap (lit "stats") (lit "/p") 0; PinnedMap (lit "other") (lit "/q") 0].
Definition stats_map (fd : Z) : bpf_map := BpfMap (lit "stats") 6 2 fd.
Definition stats_obj : bpf_object := BpfObj [BpfProg 0 0 0 5] [BpfMap (lit "stats") 6 0 (-1)].

(** A first run pins the map. *)
Lemma load_one_pinned_map_witness :
  exists first fd w2,
    bpf_prog_load_xattr_maps (Some one_pin) [] =
      Some (Loaded (BpfObj [BpfProg 2 6 0 5] [stats_map 20]) (p_fd first),
            [PinnedMap (lit "stats") (lit "/p") fd], w2)
    /\ fd = 20 /\ w2 = [(lit "/p", 20)].
Proof.
  destruct (load_one_pinned_map one_pin (lit "a.o") stats_obj (PinnedMap (lit "stats") (lit "/p") 0)
              ([] : pins) (BpfObj [BpfProg 2 6 0 5] [stats_map 20]) [])
    as (first & fd & w2 & H & _ & m & Hm & Hw & Hfd);
    [reflexivity|reflexivity|reflexivity|discriminate
    |repeat constructor; cbn; tauto|reflexivity|].
  exists first, fd, w2. split; [exact H|]. vm_compute in Hm. injection Hm as <-.
  split; [exact Hfd|exact Hw].
Defined.

Lemma reuse_then_compare_undefined_witness :
  bpf_prog_load_xattr_maps (Some two_pins) ([(lit "/p", 20)] : pins) = None.
Proof.
  apply (reuse_then_compare_undefined two_pins (lit "a.o") stats_obj
           (BpfMap (lit "stats") 6 0 (-1)) [] (PinnedMap (lit "stats") (lit "/p") 0)
           (PinnedMap (lit "other") (lit "/q") 0) []); vm_compute; reflexivity.
Defined.

Lemma failed_reuse_reported_witness :
  exists prog_fd,
    bpf_prog_load_xattr_maps (Some one_pin) ([(lit "/p", 9)] : pins) =
      Some (Loaded (BpfObj [BpfProg 2 6 0 5] [stats_map 20]) prog_fd,
            [PinnedMap (lit "stats") (lit "/p") 9], [(lit "/p", 9)]).
Proof.
  refine (failed_reuse_reported one_pin (lit "a.o") stats_obj
           (PinnedMap (lit "stats") (lit "/p") 0) ([(lit "/p", 9)] : pins)
           (BpfObj [BpfProg 2 6 0 5] [stats_map 20]) [(lit "/p", 9)] (BpfMap (lit "stats") 6 0 (-1))
           _ _ _ _ _ _ _ _ _ _); first [reflexivity | discriminate].
Defined.
