(* ===== verification/Nlattr.v ===== *)
(** * Netlink attributes (src/libbpf/src/nlattr.c, src/libbpf/src/nlattr.h)

    Attributes lie in the bytes of a message; a pointer to one is its offset.
    [None] is an access outside the buffer. *)

From S2P Require Export Memory.

(** ** Layout *)

Definition sizeof_nlattr : Z := 4.

(** [NLA_ALIGN] and [NLMSG_ALIGN] of a number that is not near the end of its
    range. *)
Definition align4 (x : Z) : Z := Z.land (x + 4 - 1) (Z.lnot (4 - 1)).
Definition NLA_HDRLEN : Z := 4.
Definition NLA_TYPE_MASK : Z := Z.lnot (Z.lor (Z.shiftl 1 15) (Z.shiftl 1 14)).

Definition LIBBPF_NLA_UNSPEC : Z := 0.
Definition LIBBPF_NLA_STRING : Z := 5.
Definition LIBBPF_NLA_TYPE_MAX : Z := 8.

Record libbpf_nla_policy := Policy { pt_type : Z; pt_minlen : Z; pt_maxlen : Z }.

(** By attribute type: UNSPEC, U8, U16, U32, U64, STRING, FLAG, MSECS, NESTED. *)
Definition nla_attr_minlen : list Z := [0; 1; 2; 4; 8; 1; 0; 0; 0].

Section nlattr.
Variables (e : endian) (m : list Z).

Definition nla_len (nla : Z) : option Z := load e 2 m nla.

Definition nla_type (nla : Z) : option Z :=
  t ← load e 2 m (nla + 2); Some (Z.land t NLA_TYPE_MASK).

Definition libbpf_nla_data (nla : Z) : Z := nla + NLA_HDRLEN.
Definition libbpf_nla_len (nla : Z) : option Z := l ← nla_len nla; Some (l - NLA_HDRLEN).
Definition libbpf_nla_getattr_u8 (nla : Z) : option Z := load e 1 m (libbpf_nla_data nla).
Definition libbpf_nla_getattr_u32 (nla : Z) : option Z := load e 4 m (libbpf_nla_data nla).

(** The next attribute and what remains. *)
Definition nla_next (nla remaining : Z) : option (Z * Z) :=
  l ← nla_len nla;
  let totlen := align4 l in
  Some (nla + totlen, remaining - totlen).

(** The signed [remaining] is compared with a [size_t] first. *)
Definition nla_ok (nla remaining : Z) : option bool :=
  if u64 remaining <? sizeof_nlattr then Some false
  else
    l ← nla_len nla;
    Some ((sizeof_nlattr <=? l) && (l <=? remaining)).

Definition validate_nla (nla maxtype : Z) (policy : list libbpf_nla_policy) : option Z :=
  type ← nla_type nla;
  if (type <? 0) || (maxtype <? type) then Some 0
  else
    pt ← znth policy type;
    if LIBBPF_NLA_TYPE_MAX <? pt_type pt then Some 0
    else
      minlen ← (if negb (pt_minlen pt =? 0) then Some (pt_minlen pt)
                else if negb (pt_type pt =? LIBBPF_NLA_UNSPEC)
                then znth nla_attr_minlen (pt_type pt) else Some 0);
      len ← libbpf_nla_len nla;
      if u32 len <? minlen then Some (-1)
      else if negb (pt_maxlen pt =? 0) && (pt_maxlen pt <? len) then Some (-1)
      else if pt_type pt =? LIBBPF_NLA_STRING then
        last ← load e 1 m (libbpf_nla_data nla + len - 1);
        Some (if negb (last =? 0) then -1 else 0)
      else Some 0.

(** The index: for each type up to [maxtype] the attribute found last. *)
Abbreviation table := (list (option Z)).

(** Returns the error and the index; out of fuel is [None]. *)
Fixpoint parse_attrs (fuel : nat) (tb : table) (maxtype nla rem : Z)
    (policy : option (list libbpf_nla_policy)) : option (Z * table) :=
  match fuel with
  | O => None
  | S fuel =>
      ok ← nla_ok nla rem;
      if negb ok then Some (0, tb)
      else
        type ← nla_type nla;
        if maxtype <? type then
          '(nla, rem) ← nla_next nla rem; parse_attrs fuel tb maxtype nla rem policy
        else
          err ← match policy with
                | Some policy => validate_nla nla maxtype policy
                | None => Some 0
                end;
          if err <? 0 then Some (err, tb)
          else
            tb ← zset tb type (Some nla);
            '(nla, rem) ← nla_next nla rem; parse_attrs fuel tb maxtype nla rem policy
  end.

(** Every attribute takes at least four bytes. *)
Definition libbpf_nla_parse (maxtype head len : Z) (policy : option (list libbpf_nla_policy))
  : option (Z * table) :=
  parse_attrs (Z.to_nat (len / 4) + 2) (repeat None (Z.to_nat (maxtype + 1)))
    maxtype head len policy.

Definition libbpf_nla_parse_nested (maxtype nla : Z) (policy : option (list libbpf_nla_policy))
  : option (Z * table) :=
  len ← libbpf_nla_len nla;
  libbpf_nla_parse maxtype (libbpf_nla_data nla) len policy.
End nlattr.

(** ** Alignment *)

Lemma align4_div x : align4 x = (x + 3) / 4 * 4.
Proof.
  unfold align4. replace (x + 4 - 1) with (x + 3) by lia. change (4 - 1) with (Z.ones 2).
  rewrite <- Z.ldiff_land, Z.ldiff_ones_r by lia.
  by rewrite Z.shiftl_mul_pow2, Z.shiftr_div_pow2 by lia.
Qed.

Lemma align4_bounds x : x <= align4 x < x + 4.
Proof. rewrite align4_div. pose proof (Z.div_mod (x + 3) 4). pose proof (Z.mod_pos_bound (x + 3) 4). lia. Qed.

(** ** The index of an arbitrary buffer *)

Section safety.
Variables (e : endian) (m : list Z).
Hypothesis Hm : bytes_ok m.

(** A well-formed attribute of type [t] at [p], inside [head, stop). *)
Definition attr_at (head stop p t : Z) : Prop :=
  nla_type e m p = Some t /\ exists l, nla_len e m p = Some l
  /\ sizeof_nlattr <= l /\ head <= p /\ p + l <= stop.

Definition table_ok (head stop maxtype : Z) (tb : list (option Z)) : Prop :=
  zlen tb = maxtype + 1 /\ forall t p, znth tb t = Some (Some p) -> attr_at head stop p t.

(** A policy with an entry for each type, of 16-bit members. *)
Definition policy_ok (maxtype : Z) (policy : option (list libbpf_nla_policy)) : Prop :=
  match policy with
  | None => True
  | Some policy => maxtype < zlen policy
      /\ Forall (fun pt => 0 <= pt_type pt /\ 0 <= pt_minlen pt /\ 0 <= pt_maxlen pt) policy
  end.

Lemma nla_len_range p l : nla_len e m p = Some l -> 0 <= l < 65536.
Proof. intros H. by apply (load_range e 2 m) in H. Qed.

Lemma nla_type_range p t : nla_type e m p = Some t -> 0 <= t.
Proof.
  unfold nla_type. destruct (load e 2 m (p + 2)) as [t'|] eqn:E; [|done].
  apply load_range in E; [|done]. intros [= <-]. apply Z.land_nonneg. left.
  unfold in_range in E. lia.
Qed.

Lemma attr_minlen_ex t : 0 <= t <= LIBBPF_NLA_TYPE_MAX ->
  exists n, znth nla_attr_minlen t = Some n /\ 0 <= n /\ (t = LIBBPF_NLA_STRING -> 1 <= n).
Proof.
  intros Ht. unfold LIBBPF_NLA_TYPE_MAX in Ht.
  assert (t = 0 \/ t = 1 \/ t = 2 \/ t = 3 \/ t = 4 \/ t = 5 \/ t = 6 \/ t = 7 \/ t = 8) as H by lia.
  destruct H as [->|[->|[->|[->|[->|[->|[->|[->| ->]]]]]]]];
    eexists; (split; [reflexivity|split; [lia|unfold LIBBPF_NLA_STRING; lia]]).
Qed.

(** Validation stays inside the attribute. *)
Lemma validate_nla_total head stop p t maxtype policy :
  0 <= head -> stop <= zlen m -> attr_at head stop p t -> policy_ok maxtype (Some policy) ->
  exists err, validate_nla e m p maxtype policy = Some err.
Proof.
  intros Hh Hs (Ht & l & Hl & Hl4 & Hp & Hpl) [Hlen Hpol].
  unfold sizeof_nlattr in *. pose proof (nla_type_range _ _ Ht) as Ht0.
  unfold validate_nla. rewrite Ht. cbn [mbind option_bind].
  destruct (Z.ltb_spec t 0); [lia|]. destruct (Z.ltb_spec maxtype t); [cbn; eauto|]. cbn [orb].
  destruct (proj2 (znth_is_Some policy t)) as [pt Hpt]; [lia|]. rewrite Hpt.
  cbn [mbind option_bind].
  assert (0 <= pt_type pt /\ 0 <= pt_minlen pt /\ 0 <= pt_maxlen pt) as (P1 & P2 & P3).
  { revert Hpt. unfold znth. case_decide; [|done]. intros Hpt.
    apply (Forall_lookup_1 _ _ _ _ Hpol Hpt). }
  destruct (Z.ltb_spec LIBBPF_NLA_TYPE_MAX (pt_type pt)); [eauto|].
  assert (exists minlen, (if negb (pt_minlen pt =? 0) then Some (pt_minlen pt)
                else if negb (pt_type pt =? LIBBPF_NLA_UNSPEC)
                then znth nla_attr_minlen (pt_type pt) else Some 0) = Some minlen
            /\ 0 <= minlen /\ (pt_type pt = LIBBPF_NLA_STRING -> 1 <= minlen))
    as (minlen & -> & Hmin & Hstr).
  { destruct (Z.eqb_spec (pt_minlen pt) 0); cbn [negb]; [|eexists; split; [done|lia]].
    destruct (Z.eqb_spec (pt_type pt) LIBBPF_NLA_UNSPEC) as [E|]; cbn [negb].
    - exists 0. split; [done|]. rewrite E. split; [lia|done].
    - apply attr_minlen_ex. lia. }
  cbn [mbind option_bind]. unfold libbpf_nla_len. rewrite Hl. cbn [mbind option_bind].
  pose proof (nla_len_range _ _ Hl). unfold NLA_HDRLEN in *.
  rewrite wrap_small by (unfold in_range; lia).
  destruct (Z.ltb_spec (l - 4) minlen); [eauto|]. destruct (_ && _); [eauto|].
  destruct (Z.eqb_spec (pt_type pt) LIBBPF_NLA_STRING) as [E|]; [|eauto].
  specialize (Hstr E). unfold libbpf_nla_data, NLA_HDRLEN.
  destruct (load_ex e 1 m (p + 4 + (l - 4) - 1)) as [c ->]; [lia|lia|]. cbn. eauto.
Qed.

Lemma nla_ok_false nla rem : 0 <= nla -> nla + rem + 5 <= zlen m -> -3 <= rem < 4 ->
  nla_ok e m nla rem = Some false.
Proof.
  intros H1 H2 H3. unfold nla_ok, sizeof_nlattr.
  destruct (Z.ltb_spec (u64 rem) 4) as [|Hw]; [done|].
  assert (rem < 0) as Hneg.
  { destruct (Z.lt_ge_cases rem 0); [done|]. rewrite wrap_small in Hw by (unfold in_range; lia). lia. }
  destruct (load_ex e 2 m nla) as [l Hl]; [lia..|]. unfold nla_len. rewrite Hl.
  apply nla_len_range in Hl. cbn [mbind option_bind]. f_equal. lia.
Qed.

Lemma table_set head stop maxtype tb t p :
  table_ok head stop maxtype tb -> attr_at head stop p t -> 0 <= t <= maxtype ->
  exists tb', zset tb t (Some p) = Some tb' /\ table_ok head stop maxtype tb'.
Proof.
  intros [Hl Ht] Hp Hr. destruct (proj2 (zset_is_Some tb t (Some p))) as [tb' E]; [lia|].
  exists tb'. split; [done|]. split; [by rewrite (zlen_zset _ _ _ _ E)|].
  intros t' p' H. rewrite (znth_zset _ _ _ _ t' E) in H. case_decide; [|by apply Ht].
  by simplify_eq.
Qed.

Lemma parse_attrs_total fuel head stop maxtype tb nla rem policy :
  0 <= head -> stop + 5 <= zlen m -> 0 <= maxtype -> policy_ok maxtype policy ->
  table_ok head stop maxtype tb -> head <= nla -> nla + rem = stop ->
  -3 <= rem < 2 ^ 31 -> rem + 3 < 4 * Z.of_nat fuel ->
  exists err tb', parse_attrs e m fuel tb maxtype nla rem policy = Some (err, tb')
    /\ table_ok head stop maxtype tb'.
Proof.
  intros Hh Hs Hmax Hpol. revert tb nla rem.
  induction fuel as [|fuel IH]; intros tb nla rem Htb Hn Hstop Hrem Hf; [lia|].
  cbn [parse_attrs].
  destruct (Z.lt_ge_cases rem 4) as [H4|H4].
  { rewrite nla_ok_false by lia. cbn. eauto. }
  destruct (load_ex e 2 m nla) as [l Hl]; [lia..|].
  destruct (load_ex e 2 m (nla + 2)) as [rt Hrt]; [lia..|].
  pose proof (nla_len_range nla l Hl) as Hlr. pose proof (align4_bounds l) as Hal.
  unfold nla_ok, sizeof_nlattr. rewrite wrap_small by (unfold in_range; lia).
  replace (rem <? 4) with false by lia. unfold nla_len at 1. rewrite Hl. cbn [mbind option_bind].
  destruct ((4 <=? l) && (l <=? rem)) eqn:Eok; cbn [negb]; [|eauto].
  apply andb_true_iff in Eok as [E1%Z.leb_le E2%Z.leb_le].
  set (t := Z.land rt NLA_TYPE_MASK).
  assert (nla_type e m nla = Some t) as Ht by (unfold nla_type; by rewrite Hrt).
  rewrite Ht. cbn [mbind option_bind].
  assert (nla_next e m nla rem = Some (nla + align4 l, rem - align4 l)) as Hnext
    by (unfold nla_next, nla_len; by rewrite Hl).
  rewrite Hnext. cbn [mbind option_bind]. pose proof (nla_type_range _ _ Ht) as Ht0.
  assert (attr_at head stop nla t) as Hat.
  { split; [done|]. exists l. unfold sizeof_nlattr. split_and!; [done|lia..]. }
  destruct (Z.ltb_spec maxtype t); [apply IH; [done|lia..]|].
  assert (exists err, match policy with
            | Some policy => validate_nla e m nla maxtype policy
            | None => Some 0
            end = Some err) as [err ->].
  { destruct policy as [policy|]; [|eauto]. by eapply (validate_nla_total head stop); [|lia|..]. }
  cbn [mbind option_bind]. destruct (err <? 0); [eauto|].
  destruct (table_set head stop maxtype tb t nla) as (tb' & -> & Htb'); [done..|lia|].
  cbn [mbind option_bind]. apply IH; [done|lia..].
Qed.
End safety.

(** ** The index of an encoded stream *)

Definition attr_bytes (e : endian) (a : Z * list Z) : list Z :=
  split e 2 (4 + zlen a.2) ++ split e 2 a.1 ++ a.2
    ++ repeat 0 (Z.to_nat (align4 (4 + zlen a.2) - (4 + zlen a.2))).

Definition attrs_bytes (e : endian) (attrs : list (Z * list Z)) : list Z :=
  List.concat (map (attr_bytes e) attrs).

(** A raw type of 16 bits, flags included, and a payload that fits. *)
Definition attr_ok (a : Z * list Z) : Prop :=
  in_range 16 a.1 /\ 4 + zlen a.2 < 2 ^ 16.

(** The offset of the last attribute of each type. *)
Fixpoint index (maxtype off : Z) (attrs : list (Z * list Z)) (tb : list (option Z))
  : list (option Z) :=
  match attrs with
  | [] => tb
  | (rt, payload) :: attrs =>
      let t := Z.land rt NLA_TYPE_MASK in
      index maxtype (off + align4 (4 + zlen payload)) attrs
        (if maxtype <? t then tb else <[Z.to_nat t := Some off]> tb)
  end.

Lemma zlen_attr_bytes e a : zlen (attr_bytes e a) = align4 (4 + zlen a.2).
Proof.
  unfold attr_bytes, zlen. rewrite !length_app, !length_split, repeat_length.
  pose proof (align4_bounds (4 + Z.of_nat (length a.2))). lia.
Qed.

Section encoded.
Variable e : endian.

(** Reading behind a stored integer. *)
Lemma load_behind n k v m : load e k (split e n v ++ m) (Z.of_nat n) = load e k m 0.
Proof.
  rewrite <- (load_app_r e (split e n v) m 0 k) by lia. f_equal.
  unfold zlen. rewrite length_split. lia.
Qed.

Lemma nla_fields pre a rest :
  attr_ok a -> let m := pre ++ attr_bytes e a ++ rest in
  nla_len e m (zlen pre) = Some (4 + zlen a.2)
  /\ nla_type e m (zlen pre) = Some (Z.land a.1 NLA_TYPE_MASK).
Proof.
  intros (Ht & Hl) m. unfold nla_len, nla_type, m, attr_bytes.
  pose proof (zlen_nonneg a.2). rewrite load_app_r by lia.
  replace (zlen pre) with (zlen pre + 0) at 1 by lia. rewrite load_app_r by lia.
  rewrite <- !app_assoc. rewrite load_split, (load_behind 2), load_split.
  change (8 * Z.of_nat 2) with 16. rewrite !wrap_small by (done || unfold in_range; lia). done.
Qed.

Lemma parse_attrs_index fuel pre attrs post tb maxtype :
  Forall attr_ok attrs -> 0 <= maxtype -> zlen tb = maxtype + 1 ->
  zlen (attrs_bytes e attrs) < 2 ^ 31 -> zlen (attrs_bytes e attrs) < 4 * Z.of_nat fuel ->
  parse_attrs e (pre ++ attrs_bytes e attrs ++ post) fuel tb maxtype (zlen pre)
    (zlen (attrs_bytes e attrs)) None
  = Some (0, index maxtype (zlen pre) attrs tb).
Proof.
  intros Hok Hmax. revert pre tb fuel. induction Hok as [|a attrs Ha Hok IH];
    intros pre tb fuel Htb Hl Hf.
  { destruct fuel; [by cbn in Hf|]. cbn [parse_attrs]. unfold nla_ok. cbn. done. }
  pose proof (zlen_nonneg (attrs_bytes e attrs)) as H0. pose proof (zlen_nonneg a.2) as H1.
  pose proof (align4_bounds (4 + zlen a.2)) as Hal.
  assert (zlen (attrs_bytes e (a :: attrs)) = align4 (4 + zlen a.2) + zlen (attrs_bytes e attrs))
    as Hz by (unfold attrs_bytes; cbn [map List.concat]; by rewrite zlen_app, zlen_attr_bytes).
  rewrite Hz in *. destruct fuel as [|fuel]; [lia|]. cbn [parse_attrs].
  change (attrs_bytes e (a :: attrs)) with (attr_bytes e a ++ attrs_bytes e attrs).
  rewrite <- app_assoc. set (m := pre ++ _).
  destruct (nla_fields pre a (attrs_bytes e attrs ++ post) Ha) as [Hlen Htype]. fold m in Hlen, Htype.
  unfold nla_ok, sizeof_nlattr. rewrite wrap_small by (unfold in_range; lia).
  replace (_ <? 4) with false by lia. rewrite Hlen. cbn [mbind option_bind].
  replace ((4 <=? 4 + zlen a.2) && _) with true by lia. cbn [negb].
  rewrite Htype. cbn [mbind option_bind]. unfold nla_next. rewrite Hlen. cbn [mbind option_bind].
  replace (align4 (4 + zlen a.2) + zlen (attrs_bytes e attrs) - align4 (4 + zlen a.2))
    with (zlen (attrs_bytes e attrs)) by lia.
  assert (0 <= Z.land a.1 NLA_TYPE_MASK) as Ht0
    by (apply Z.land_nonneg; left; destruct Ha as ([? _] & _); lia).
  assert (m = (pre ++ attr_bytes e a) ++ attrs_bytes e attrs ++ post) as Em
    by (unfold m; by rewrite <- !app_assoc).
  assert (zlen pre + align4 (4 + zlen a.2) = zlen (pre ++ attr_bytes e a)) as Ep
    by (by rewrite zlen_app, zlen_attr_bytes).
  rewrite Em, Ep. destruct a as [rt pl]. cbn [fst snd] in *. cbn [index]. rewrite Ep.
  destruct (Z.ltb_spec maxtype (Z.land rt NLA_TYPE_MASK)); [apply IH; [done|lia..]|].
  change (0 <? 0) with false. cbv iota. unfold zset. rewrite decide_True by lia.
  cbn [mbind option_bind]. apply IH; [|lia..].
  unfold zlen in *. by rewrite length_insert.
Qed.
End encoded.

(** Encoding and parsing.  A stream of attributes, each with its header, its
    payload and padding, is parsed into the index that holds for each type the
    offset of the last attribute of that type; the bytes around the stream do
    not matter. *)
Lemma nla_parse_encoded e pre attrs post maxtype :
  Forall attr_ok attrs -> 0 <= maxtype -> zlen (attrs_bytes e attrs) < 2 ^ 31 ->
  libbpf_nla_parse e (pre ++ attrs_bytes e attrs ++ post) maxtype (zlen pre)
    (zlen (attrs_bytes e attrs)) None
  = Some (0, index maxtype (zlen pre) attrs (repeat None (Z.to_nat (maxtype + 1)))).
Proof.
  intros Hok Hmax Hl. pose proof (zlen_nonneg (attrs_bytes e attrs)).
  pose proof (Z.div_mod (zlen (attrs_bytes e attrs)) 4).
  pose proof (Z.mod_pos_bound (zlen (attrs_bytes e attrs)) 4).
  pose proof (Z.div_pos (zlen (attrs_bytes e attrs)) 4).
  apply parse_attrs_index; [done|done| |done|lia].
  unfold zlen. rewrite repeat_length. lia.
Qed.

(** ** Properties *)

(** C16. Parsing an arbitrary buffer terminates and, when five readable bytes
    follow the stream, stays inside it; whatever the bytes, every entry of the
    index is an attribute of that type that lies inside the stream.  (The
    slack is needed: the padding of the last attribute may be missing, and
    [nla_ok] reads a length even when less than nothing remains.) *)
Theorem nla_parse_safe e m maxtype head len policy :
  bytes_ok m -> 0 <= head -> 0 <= len < 2 ^ 31 -> head + len + 5 <= zlen m ->
  0 <= maxtype -> policy_ok maxtype policy ->
  exists err tb, libbpf_nla_parse e m maxtype head len policy = Some (err, tb)
    /\ zlen tb = maxtype + 1
    /\ forall t p, znth tb t = Some (Some p) ->
       nla_type e m p = Some t /\ head <= p
       /\ exists l, nla_len e m p = Some l /\ 4 <= l /\ p + l <= head + len.
Proof.
  intros Hm Hh Hlen Hs Hmax Hpol.
  pose proof (Z.div_mod len 4). pose proof (Z.mod_pos_bound len 4).
  pose proof (Z.div_pos len 4).
  destruct (parse_attrs_total e m Hm (Z.to_nat (len / 4) + 2) head (head + len) maxtype
              (repeat None (Z.to_nat (maxtype + 1))) head len policy)
    as (err & tb & Hp & Hl & Ht); try lia; try done.
  { split; [unfold zlen; rewrite repeat_length; lia|].
    intros t p H'. exfalso. by apply (znth_repeat_inv (A:=option Z)) in H'. }
  exists err, tb. split; [done|]. split; [done|]. intros t p H'.
  destruct (Ht t p H') as (Hty & l & Hll & H4 & Hp' & Hpl). eauto 10.
Qed.

(** A stream that ends with an attribute whose padding is missing is read
    outside its buffer. *)
Lemma nla_parse_unpadded :
  libbpf_nla_parse LE [5; 0; 1; 0; 7] 1 0 5 None = None.
Proof. reflexivity. Qed.

Definition two_attrs : list (Z * list Z) := [(1, [9; 0; 0; 0]); (3, [1]); (1, [8; 0])].

Example nla_parse_two_attrs :
  libbpf_nla_parse LE ([1; 2] ++ attrs_bytes LE two_attrs ++ [3]) 3 2 24 None
  = Some (0, [None; Some 18; None; Some 10]).
Proof.
  refine (nla_parse_encoded LE [1; 2] two_attrs [3] 3 _ _ _).
  - repeat constructor; vm_compute; (done || lia).
  - lia.
  - vm_compute. reflexivity.
Defined.

Lemma nla_parse_safe_witness :
  exists err tb, libbpf_nla_parse LE [5; 0; 1; 0; 7; 0; 0; 0; 0; 0] 1 0 5 None = Some (err, tb)
    /\ zlen tb = 2.
Proof.
  destruct (nla_parse_safe LE [5; 0; 1; 0; 7; 0; 0; 0; 0; 0] 1 0 5 None) as (err & tb & H & Hl & _);
    [by apply bytes_okb_ok|lia|lia|vm_compute; done|lia|done|].
  exists err, tb. by split.
Defined.
