(* ===== verification/Netlink.v ===== *)
(** * Route netlink (src/libbpf/src/netlink.c)

    Requests and replies are byte buffers.  The kernel's side of the socket is
    a class: what it answers to the bytes that are sent.  [None] is an access
    outside a buffer. *)

From S2P Require Export Nlattr.
From S2P Require Import CmdLine.

(** ** Constants (src/libbpf/include/uapi/linux/netlink.h, if_link.h) *)

Definition sizeof_nlmsghdr : Z := 16.
Definition sizeof_ifinfomsg : Z := 16.
Definition sizeof_nlmsgerr : Z := 20.
Definition NLMSG_HDRLEN : Z := align4 sizeof_nlmsghdr.
Definition NLMSG_LENGTH (len : Z) : Z := len + NLMSG_HDRLEN.

Definition NLM_F_REQUEST : Z := 1.
Definition NLM_F_MULTI : Z := 2.
Definition NLM_F_ACK : Z := 4.
Definition NLM_F_DUMP : Z := Z.lor 0x100 0x200.
Definition NLM_F_CAPPED : Z := 0x100.
Definition NLM_F_ACK_TLVS : Z := 0x200.
Definition NLMSG_ERROR : Z := 2.
Definition NLMSG_DONE : Z := 3.
Definition NLMSGERR_ATTR_MSG : Z := 1.
Definition NLMSGERR_ATTR_MAX : Z := 3.
Definition NLA_F_NESTED : Z := Z.shiftl 1 15.

Definition RTM_SETLINK : Z := 19.
Definition RTM_GETLINK : Z := 18.
Definition AF_PACKET : Z := 17.
Definition IFLA_XDP : Z := 43.
Definition IFLA_MAX : Z := 51.
Definition IFLA_XDP_UNSPEC : Z := 0.
Definition IFLA_XDP_FD : Z := 1.
Definition IFLA_XDP_ATTACHED : Z := 2.
Definition IFLA_XDP_FLAGS : Z := 3.
Definition IFLA_XDP_PROG_ID : Z := 4.
Definition IFLA_XDP_DRV_PROG_ID : Z := 5.
Definition IFLA_XDP_SKB_PROG_ID : Z := 6.
Definition IFLA_XDP_HW_PROG_ID : Z := 7.
Definition IFLA_XDP_MAX : Z := 7.
Definition XDP_ATTACHED_NONE : Z := 0.
Definition XDP_ATTACHED_MULTI : Z := 4.

Definition LIBBPF_ERRNO__WRNGPID : Z := 4011.
Definition LIBBPF_ERRNO__INVSEQ : Z := 4012.
Definition LIBBPF_ERRNO__NLPARSE : Z := 4013.

(** The members of [struct nlmsghdr]. *)
Section fields.
Variables (e : endian) (m : list Z).
Definition nlmsg_len (nh : Z) : option Z := load e 4 m nh.
Definition nlmsg_type (nh : Z) : option Z := load e 2 m (nh + 4).
Definition nlmsg_flags (nh : Z) : option Z := load e 2 m (nh + 6).
Definition nlmsg_seq (nh : Z) : option Z := load e 4 m (nh + 8).
Definition nlmsg_pid (nh : Z) : option Z := load e 4 m (nh + 12).
End fields.

Definition NLMSG_DATA (nh : Z) : Z := nh + NLMSG_LENGTH 0.
Definition NLMSG_ALIGN (len : Z) : Z := u32 (align4 len).

(** ** Receiving *)

Inductive recv_result :=
| RecvErr (errno : Z)
| RecvOk (bytes : list Z).

(** How the loop over the replies ends: with its result, the callback's state
    and the replies not read, or waiting for a reply that does not come. *)
Inductive recv_out (S : Type) :=
| Returned (ret : Z) (s : S) (rest : list recv_result)
| Blocked (s : S).
Arguments Returned {S} _ _ _.
Arguments Blocked {S} _.

Section recv.
Variable e : endian.

(** The position of the message the kernel attached to an error. *)
Definition libbpf_nla_dump_errormsg (m : list Z) (nlh : Z) : option (option Z) :=
  flags ← nlmsg_flags e m nlh;
  if Z.land flags NLM_F_ACK_TLVS =? 0 then Some None
  else
    let err := NLMSG_DATA nlh in
    inner ← nlmsg_len e m (err + 4);
    let hlen := sizeof_nlmsgerr
                + (if Z.land flags NLM_F_CAPPED =? 0 then s32 (inner - NLMSG_HDRLEN) else 0) in
    len ← nlmsg_len e m nlh;
    let attr := err + hlen in
    let alen := s32 (len - hlen) in
    '(ret, tb) ← libbpf_nla_parse e m NLMSGERR_ATTR_MAX attr alen
                   (Some [Policy 0 0 0; Policy LIBBPF_NLA_STRING 0 0; Policy 3 0 0; Policy 0 0 0]);
    if negb (ret =? 0) then Some None
    else
      a ← znth tb NLMSGERR_ATTR_MSG;
      Some (option_map libbpf_nla_data a).

Context {S : Type}.
Variables (nl_pid seq : Z).
(** The callback, given the buffer and a message. *)
Variable _fn : option (list Z -> Z -> S -> option (Z * S)).

(** What the messages of one reply lead to. *)
Inductive step :=
| Next (multipart : bool) (s : S)
| Return_ (ret : Z) (s : S).

Definition NLMSG_OK (m : list Z) (nh len : Z) : option bool :=
  if len <? sizeof_nlmsghdr then Some false
  else l ← nlmsg_len e m nh; Some ((sizeof_nlmsghdr <=? l) && (l <=? len)).

Fixpoint recv_msgs (fuel : nat) (m : list Z) (nh len : Z) (multipart : bool) (s : S)
  : option step :=
  match fuel with
  | O => None
  | Datatypes.S fuel =>
      ok ← NLMSG_OK m nh len;
      if negb ok then Some (Next multipart s)
      else
        pid ← nlmsg_pid e m nh;
        if negb (pid =? nl_pid) then Some (Return_ (- LIBBPF_ERRNO__WRNGPID) s)
        else
          sq ← nlmsg_seq e m nh;
          if negb (sq =? u32 seq) then Some (Return_ (- LIBBPF_ERRNO__INVSEQ) s)
          else
            flags ← nlmsg_flags e m nh;
            let multipart := multipart || negb (Z.land flags NLM_F_MULTI =? 0) in
            type ← nlmsg_type e m nh;
            mlen ← nlmsg_len e m nh;
            let nh' := nh + NLMSG_ALIGN mlen in
            let len' := s32 (len - NLMSG_ALIGN mlen) in
            if type =? NLMSG_ERROR then
              error ← load e 4 m (NLMSG_DATA nh);
              let error := s32 error in
              if error =? 0 then recv_msgs fuel m nh' len' multipart s
              else
                _ ← libbpf_nla_dump_errormsg m nh;
                Some (Return_ error s)
            else if type =? NLMSG_DONE then Some (Return_ 0 s)
            else
              match _fn with
              | None => recv_msgs fuel m nh' len' multipart s
              | Some fn =>
                  '(ret, s) ← fn m nh s;
                  if negb (ret =? 0) then Some (Return_ ret s)
                  else recv_msgs fuel m nh' len' multipart s
              end
  end.

(** The replies, received into the same 4096 bytes. *)
Fixpoint bpf_netlink_recv (replies : list recv_result) (buf : list Z) (s : S)
  : option (recv_out S) :=
  match replies with
  | [] => Some (Blocked s)
  | RecvErr errno :: replies => Some (Returned (- errno) s replies)
  | RecvOk bytes :: replies =>
      let len := zlen bytes in
      if len =? 0 then Some (Returned 0 s replies)
      else
        let buf := bytes ++ drop (length bytes) buf in
        st ← recv_msgs (Z.to_nat (len / 16) + 1) buf 0 len false s;
        match st with
        | Return_ ret s => Some (Returned ret s replies)
        | Next multipart s =>
            if multipart then bpf_netlink_recv replies buf s else Some (Returned 0 s replies)
        end
  end.
End recv.
Arguments Next {S} _ _.
Arguments Return_ {S} _ _.

(** ** Requests *)

(** Opening gives an error or a port; sending gives an error or the replies
    the kernel queues. *)
Class Rtnetlink (W : Type) := {
  libbpf_netlink_open : W -> result Z;
  nl_send : list Z -> W -> result (list recv_result) * W }.

Section requests.
Context {W : Type} `{Rtnetlink W}.
Variables (e : endian) (buf : list Z).

(** The request [bpf_set_link_xdp_fd] builds in its 96 zeroed bytes, and its
    length. *)
Definition set_link_request (ifidx fd flags seq : Z) : option (list Z * Z) :=
  let req := repeat 0 96 in
  let len := NLMSG_LENGTH sizeof_ifinfomsg in
  req ← store e 4 req 0 len;
  req ← store e 2 req 6 (Z.lor NLM_F_REQUEST NLM_F_ACK);
  req ← store e 2 req 4 RTM_SETLINK;
  req ← store e 4 req 12 0;
  req ← store e 4 req 8 seq;
  req ← store e 1 req 16 0;
  req ← store e 4 req 20 ifidx;
  (* the nested attribute *)
  let nla := NLMSG_ALIGN len in
  req ← store e 2 req (nla + 2) (Z.lor NLA_F_NESTED IFLA_XDP);
  req ← store e 2 req nla NLA_HDRLEN;
  (* the descriptor *)
  l ← load e 2 req nla;
  let nla_xdp := nla + l in
  req ← store e 2 req (nla_xdp + 2) IFLA_XDP_FD;
  req ← store e 2 req nla_xdp (NLA_HDRLEN + 4);
  req ← store e 4 req (nla_xdp + NLA_HDRLEN) fd;
  lx ← load e 2 req nla_xdp;
  req ← store e 2 req nla (l + lx);
  (* the flags *)
  req ← (if flags =? 0 then Some req
         else
           l ← load e 2 req nla;
           let nla_xdp := nla + l in
           req ← store e 2 req (nla_xdp + 2) IFLA_XDP_FLAGS;
           req ← store e 2 req nla_xdp (NLA_HDRLEN + 4);
           req ← store e 4 req (nla_xdp + NLA_HDRLEN) flags;
           lx ← load e 2 req nla_xdp;
           store e 2 req nla (l + lx));
  l ← load e 2 req nla;
  rl ← load e 4 req 0;
  req ← store e 4 req 0 (rl + align4 l);
  rl ← load e 4 req 0;
  Some (req, rl).

(** [None]: outside a buffer; [Some (None, _)]: waiting for ever. *)
Definition bpf_set_link_xdp_fd (ifidx fd flags : Z) (w : W) : option (option Z * W) :=
  match libbpf_netlink_open w with
  | Err err => Some (Some (- err), w)
  | Ok nl_pid =>
      '(req, len) ← set_link_request ifidx fd flags 1;
      match nl_send (take (Z.to_nat len) req) w with
      | (Err err, w) => Some (Some (- err), w)
      | (Ok replies, w) =>
          out ← bpf_netlink_recv (S:=unit) e nl_pid 1 None replies buf tt;
          Some (match out with Returned ret _ _ => Some ret | Blocked _ => None end, w)
      end
  end.

(** Calls the user's function with the link message and its attributes. *)
Definition __dump_link_nlmsg {S} (dump : list Z -> Z -> list (option Z) -> S -> option (Z * S))
    (m : list Z) (nlh : Z) (s : S) : option (Z * S) :=
  let ifi := NLMSG_DATA nlh in
  l ← nlmsg_len e m nlh;
  let len := s32 (l - NLMSG_LENGTH sizeof_ifinfomsg) in
  let attr := ifi + NLMSG_ALIGN sizeof_ifinfomsg in
  '(ret, tb) ← libbpf_nla_parse e m IFLA_MAX attr len None;
  if negb (ret =? 0) then Some (- LIBBPF_ERRNO__NLPARSE, s) else dump m ifi tb s.

Definition get_xdp_id_attr (mode flags : Z) : Z :=
  if negb (mode =? XDP_ATTACHED_MULTI) then IFLA_XDP_PROG_ID
  else if negb (Z.land flags XDP_FLAGS_DRV_MODE =? 0) then IFLA_XDP_DRV_PROG_ID
  else if negb (Z.land flags XDP_FLAGS_HW_MODE =? 0) then IFLA_XDP_HW_PROG_ID
  else if negb (Z.land flags XDP_FLAGS_SKB_MODE =? 0) then IFLA_XDP_SKB_PROG_ID
  else IFLA_XDP_UNSPEC.

(** The state is the id found so far. *)
Definition get_xdp_id (ifidx flags : Z) (m : list Z) (ifinfo : Z) (tb : list (option Z)) (id : Z)
  : option (Z * Z) :=
  idx ← load e 4 m (ifinfo + 4);
  if negb (ifidx =? 0) && negb (ifidx =? s32 idx) then Some (0, id)
  else
    xdp ← znth tb IFLA_XDP;
    match xdp with
    | None => Some (0, id)
    | Some xdp =>
        '(ret, xdp_tb) ← libbpf_nla_parse_nested e m IFLA_XDP_MAX xdp None;
        if negb (ret =? 0) then Some (ret, id)
        else
          att ← znth xdp_tb IFLA_XDP_ATTACHED;
          match att with
          | None => Some (0, id)
          | Some att =>
              mode ← libbpf_nla_getattr_u8 e m att;
              if mode =? XDP_ATTACHED_NONE then Some (0, id)
              else
                let xdp_attr := get_xdp_id_attr mode flags in
                if xdp_attr =? 0 then Some (0, id)
                else
                  p ← znth xdp_tb xdp_attr;
                  match p with
                  | None => Some (0, id)
                  | Some p => id' ← libbpf_nla_getattr_u32 e m p; Some (0, id')
                  end
          end
    end.

(** The dump request: a header and an empty [ifinfomsg]. *)
Definition get_link_request (seq : Z) : list Z :=
  split e 4 (NLMSG_LENGTH sizeof_ifinfomsg) ++ split e 2 RTM_GETLINK
    ++ split e 2 (Z.lor NLM_F_DUMP NLM_F_REQUEST) ++ split e 4 seq ++ split e 4 0
    ++ [AF_PACKET] ++ repeat 0 15.

Definition libbpf_nl_get_link {S} (nl_pid time : Z)
    (dump : list Z -> Z -> list (option Z) -> S -> option (Z * S)) (s : S) (w : W)
  : option (recv_out S * W) :=
  let seq := s32 time in
  match nl_send (get_link_request seq) w with
  | (Err err, w) => Some (Returned (- err) s [], w)
  | (Ok replies, w) =>
      out ← bpf_netlink_recv e nl_pid seq (Some (__dump_link_nlmsg dump)) replies buf s;
      Some (out, w)
  end.

Definition XDP_FLAGS_MASK : Z := Z.lor XDP_FLAGS_UPDATE_IF_NOEXIST XDP_FLAGS_MODES.

(** The error and the id written; [prog_id] is the caller's value. *)
Definition bpf_get_link_xdp_id (time ifidx prog_id flags : Z) (w : W)
  : option (option (Z * Z) * W) :=
  if negb (Z.land flags (u32 (Z.lnot XDP_FLAGS_MASK)) =? 0) then Some (Some (- EINVAL, prog_id), w)
  else
    let flags := Z.land flags (Z.lor (Z.lor XDP_FLAGS_SKB_MODE XDP_FLAGS_DRV_MODE) XDP_FLAGS_HW_MODE) in
    let mask := u32 (flags - 1) in
    if negb (flags =? 0) && negb (Z.land flags mask =? 0) then Some (Some (- EINVAL, prog_id), w)
    else
      match libbpf_netlink_open w with
      | Err err => Some (Some (- err, prog_id), w)
      | Ok nl_pid =>
          '(out, w) ← libbpf_nl_get_link nl_pid time (get_xdp_id ifidx flags) 0 w;
          Some (match out with
                | Returned ret id _ => Some (ret, if ret =? 0 then id else prog_id)
                | Blocked _ => None
                end, w)
      end.
End requests.

(** ** The request, as the kernel reads it *)

Definition join_opt {A} (o : option (option A)) : option A := match o with Some x => x | None => None end.

(** The device, the descriptor and the flags (0 when absent) of a well-formed
    request to set a link that asks for an acknowledgement; its sequence
    number. *)
Definition decode_set_link (e : endian) (b : list Z) : option (Z * Z * Z * Z) :=
  len ← nlmsg_len e b 0;
  type ← nlmsg_type e b 0;
  flags ← nlmsg_flags e b 0;
  seq ← nlmsg_seq e b 0;
  ifidx ← load e 4 b (NLMSG_DATA 0 + 4);
  if negb (len =? zlen b) || negb (type =? RTM_SETLINK)
     || negb (flags =? Z.lor NLM_F_REQUEST NLM_F_ACK) then None
  else
    '(_, tb) ← libbpf_nla_parse e b IFLA_MAX (NLMSG_DATA 0 + sizeof_ifinfomsg) (len - 32) None;
    xdp ← join_opt (znth tb IFLA_XDP);
    '(_, xtb) ← libbpf_nla_parse_nested e b IFLA_XDP_MAX xdp None;
    pfd ← join_opt (znth xtb IFLA_XDP_FD);
    fd ← libbpf_nla_getattr_u32 e b pfd;
    xflags ← match join_opt (znth xtb IFLA_XDP_FLAGS) with
             | Some p => libbpf_nla_getattr_u32 e b p
             | None => Some 0
             end;
    Some (s32 ifidx, s32 fd, xflags, seq).

Lemma split4_ex e v : exists a b c d, split e 4 v = [a; b; c; d] /\ combine e [a; b; c; d] = wrap 32 v.
Proof.
  pose proof (length_split e 4 v) as H. pose proof (combine_split e 4 v) as Hc.
  destruct (split e 4 v) as [|a [|b [|c [|d [|]]]]]; try done. by exists a, b, c, d.
Qed.

(** The bytes of the request, without and with flags. *)
Definition set_link_bytes (e : endian) (i fd flags : list Z) : list Z :=
  let n := zlen flags in
  let extra := if n =? 0 then 0 else 8 in
  split e 4 (44 + extra) ++ split e 2 RTM_SETLINK ++ split e 2 5 ++ split e 4 1 ++ repeat 0 8
  ++ i ++ repeat 0 8
  ++ split e 2 (12 + extra) ++ split e 2 (Z.lor NLA_F_NESTED IFLA_XDP)
  ++ split e 2 8 ++ split e 2 IFLA_XDP_FD ++ fd
  ++ (if n =? 0 then [] else split e 2 8 ++ split e 2 IFLA_XDP_FLAGS ++ flags).

Lemma set_link_request_bytes e ifidx fd flags :
  exists req len, set_link_request e ifidx fd flags 1 = Some (req, len)
    /\ take (Z.to_nat len) req
       = set_link_bytes e (split e 4 ifidx) (split e 4 fd)
           (if flags =? 0 then [] else split e 4 flags).
Proof.
  destruct (split4_ex e ifidx) as (i0 & i1 & i2 & i3 & Ei & _).
  destruct (split4_ex e fd) as (f0 & f1 & f2 & f3 & Ef & _).
  destruct (split4_ex e flags) as (g0 & g1 & g2 & g3 & Eg & _).
  unfold set_link_request, store. rewrite Ei, Ef, Eg. clear Ei Ef Eg.
  destruct (flags =? 0); clear;
    destruct e; eexists _, _; (split; [vm_compute; reflexivity|vm_compute; reflexivity]).
Qed.

(** Evaluates the next step of a decoder that only meets known bytes. *)
Ltac eval_step :=
  match goal with
  | |- mbind _ ?x = _ => let y := eval vm_compute in x in change x with y
  end; cbn [mbind option_bind].

Lemma decode_set_link_bytes e i fd flags :
  length i = 4%nat -> length fd = 4%nat -> length flags = 4%nat \/ flags = [] ->
  decode_set_link e (set_link_bytes e i fd flags)
  = Some (s32 (combine e i), s32 (combine e fd), combine e flags, 1).
Proof.
  intros Hi Hf Hg. destruct i as [|i0 [|i1 [|i2 [|i3 [|]]]]]; try done.
  destruct fd as [|f0 [|f1 [|f2 [|f3 [|]]]]]; try done.
  destruct Hg as [Hg| ->]; [destruct flags as [|g0 [|g1 [|g2 [|g3 [|]]]]]; try done|];
    unfold decode_set_link, libbpf_nla_getattr_u32, libbpf_nla_data; destruct e;
    set (b := set_link_bytes _ _ _ _); vm_compute in b;
    do 4 eval_step;
    match goal with |- mbind _ (load ?en 4 b ?p) = _ =>
      change (load en 4 b p) with (Some (combine en [i0; i1; i2; i3])) end;
    cbn [mbind option_bind];
    match goal with |- (if ?c then _ else _) = _ => change c with false end; cbv iota;
    do 4 eval_step;
    match goal with |- mbind _ (load ?en 4 b ?p) = _ =>
      change (load en 4 b p) with (Some (combine en [f0; f1; f2; f3])) end;
    cbn [mbind option_bind];
    match goal with |- context [join_opt ?x] =>
      let y := eval vm_compute in (join_opt x) in change (join_opt x) with y end;
    cbv iota; try reflexivity;
    match goal with |- mbind _ (load ?en 4 b ?p) = _ =>
      change (load en 4 b p) with (Some (combine en [g0; g1; g2; g3])) end; reflexivity.
Qed.

(** ** The kernel's side of setting a link *)

(** An acknowledgement: an error message with the header of the request. *)
Definition ack_bytes (e : endian) (err port seq : Z) (hdr : list Z) : list Z :=
  split e 4 36 ++ split e 2 NLMSG_ERROR ++ split e 2 NLM_F_CAPPED ++ split e 4 seq
  ++ split e 4 port ++ split e 4 err ++ hdr.

Lemma ack_fields e err port seq hdr tail :
  length hdr = 16%nat ->
  let m := ack_bytes e err port seq hdr ++ tail in
  nlmsg_len e m 0 = Some 36 /\ nlmsg_type e m 0 = Some NLMSG_ERROR
  /\ nlmsg_flags e m 0 = Some NLM_F_CAPPED /\ nlmsg_seq e m 0 = Some (u32 seq)
  /\ nlmsg_pid e m 0 = Some (u32 port) /\ load e 4 m (NLMSG_DATA 0) = Some (u32 err).
Proof.
  intros Hh m.
  assert (forall n p, 0 <= p -> p + Z.of_nat n <= 36 ->
            load e n m p = load e n (ack_bytes e err port seq hdr) p) as Hl.
  { intros n p H0 H1. apply load_app; [done|]. unfold ack_bytes, zlen.
    rewrite !length_app, !length_split, Hh. lia. }
  unfold nlmsg_len, nlmsg_type, nlmsg_flags, nlmsg_seq, nlmsg_pid.
  change (NLMSG_DATA 0) with 16. rewrite !Hl by lia. clear Hl m. unfold ack_bytes.
  destruct (split4_ex e seq) as (s0 & s1 & s2 & s3 & -> & <-).
  destruct (split4_ex e port) as (p0 & p1 & p2 & p3 & -> & <-).
  destruct (split4_ex e err) as (r0 & r1 & r2 & r3 & -> & <-).
  destruct hdr as [|h0 [|h1 [|h2 [|h3 [|h4 [|h5 [|h6 [|h7 [|h8 [|h9 [|ha [|hb [|hc [|hd
    [|he [|hf [|]]]]]]]]]]]]]]]]]; try done.
  by destruct e.
Qed.

Lemma recv_ack {S} e port seq fn err hdr buf (s : S) :
  length hdr = 16%nat -> in_range 32 port -> - 2 ^ 31 <= err <= 0 ->
  bpf_netlink_recv e port seq fn [RecvOk (ack_bytes e err port seq hdr)] buf s
  = Some (Returned err s []).
Proof.
  intros Hh Hp He. cbn [bpf_netlink_recv].
  assert (zlen (ack_bytes e err port seq hdr) = 36) as Hz
    by (unfold ack_bytes, zlen; rewrite !length_app, !length_split, Hh; lia).
  rewrite Hz. change (36 =? 0) with false. cbv iota.
  destruct (ack_fields e err port seq hdr
              (drop (length (ack_bytes e err port seq hdr)) buf) Hh)
    as (F1 & F2 & F3 & F4 & F5 & F6).
  set (m := ack_bytes e err port seq hdr ++ _) in *.
  change (Z.to_nat (36 / 16) + 1)%nat with 3%nat. cbn [recv_msgs].
  assert (NLMSG_OK e m 0 36 = Some true) as -> by (unfold NLMSG_OK; by rewrite F1).
  cbn [mbind option_bind negb].
  rewrite F5. cbn [mbind option_bind]. rewrite wrap_small, Z.eqb_refl by done. cbn [negb].
  rewrite F4. cbn [mbind option_bind]. rewrite Z.eqb_refl. cbn [negb].
  rewrite F3. cbn [mbind option_bind]. rewrite F2, F1. cbn [mbind option_bind].
  rewrite Z.eqb_refl, F6. cbn [mbind option_bind].
  assert (s32 (u32 err) = err) as ->.
  { unfold s32, wrap. rewrite Zplus_mod_idemp_l, Z.mod_small by lia. lia. }
  change (Z.land NLM_F_CAPPED NLM_F_MULTI =? 0) with true. cbn [negb orb].
  destruct (Z.eqb_spec err 0) as [->|Hne].
  - cbn [recv_msgs]. unfold NLMSG_OK.
    by change (s32 (36 - NLMSG_ALIGN 36) <? sizeof_nlmsghdr) with true.
  - unfold libbpf_nla_dump_errormsg. rewrite F3. done.
Qed.

(** [kernel_set_link] is the effect of a request on a device: the error and
    the new state.  The kernel acknowledges a well-formed request that asks
    for it with that error, to the port and with the number it came from. *)
Class RtnetlinkLaws (e : endian) (W : Type) `{Rtnetlink W} := {
  kernel_set_link : Z -> Z -> Z -> W -> Z * W;
  kernel_error i fd flags w : - 2 ^ 31 <= (kernel_set_link i fd flags w).1 <= 0;
  port_range w port : libbpf_netlink_open w = Ok port -> in_range 32 port;
  set_link_acked b w port i fd flags seq :
    libbpf_netlink_open w = Ok port -> decode_set_link e b = Some (i, fd, flags, seq) ->
    let r := kernel_set_link i fd flags w in
    nl_send b w = (Ok [RecvOk (ack_bytes e r.1 port seq (take 16 b))], r.2) }.

Lemma s32_u32 x : - 2 ^ 31 <= x < 2 ^ 31 -> s32 (u32 x) = x.
Proof. intros. unfold s32, wrap. rewrite Zplus_mod_idemp_l, Z.mod_small by lia. lia. Qed.

Lemma set_link_run (e : endian) {W} `{RtnetlinkLaws e W} buf i fd flags (w : W) :
  - 2 ^ 31 <= i < 2 ^ 31 -> - 2 ^ 31 <= fd < 2 ^ 31 -> in_range 32 flags ->
  bpf_set_link_xdp_fd e buf i fd flags w
  = Some (match libbpf_netlink_open w with
          | Ok _ => let r := kernel_set_link i fd flags w in (Some r.1, r.2)
          | Err err => (Some (- err), w)
          end).
Proof.
  intros Hi Hfd Hf. unfold bpf_set_link_xdp_fd.
  destruct (libbpf_netlink_open w) as [port|err] eqn:Eo; [|done].
  destruct (set_link_request_bytes e i fd flags) as (req & len & -> & Et).
  cbn [mbind option_bind]. rewrite Et.
  set (fb := if flags =? 0 then [] else split e 4 flags).
  assert (combine e fb = flags) as Hfb.
  { unfold fb. destruct (Z.eqb_spec flags 0) as [->|]; [by destruct e|].
    rewrite combine_split. by apply wrap_small. }
  assert (length fb = 4%nat \/ fb = []) as Hlb.
  { unfold fb. destruct (flags =? 0); [by right|left; apply length_split]. }
  pose proof (decode_set_link_bytes e (split e 4 i) (split e 4 fd) fb
                (length_split _ _ _) (length_split _ _ _) Hlb) as Hd.
  rewrite !combine_split, Hfb in Hd. change (8 * Z.of_nat 4) with 32 in Hd.
  rewrite !s32_u32 in Hd by done.
  rewrite (set_link_acked _ _ _ _ _ _ _ Eo Hd). cbv zeta.
  rewrite recv_ack; [done| |by eapply port_range|apply kernel_error].
  rewrite length_take. unfold set_link_bytes. rewrite !length_app, !length_split. lia.
Qed.


(** ** A dump of the links *)

(** A device: its index, its other attributes, and the mode and program id it
    reports when a program is attached. *)
Record link := Link { l_index : Z; l_other : list (Z * list Z); l_xdp : option (Z * Z) }.

Definition xdp_attrs (e : endian) (mode id : Z) : list (Z * list Z) :=
  [(IFLA_XDP_ATTACHED, split e 1 mode); (IFLA_XDP_PROG_ID, split e 4 id)].

Definition l_attrs (e : endian) (l : link) : list (Z * list Z) :=
  l_other l ++ match l_xdp l with
               | Some (mode, id) =>
                   [(Z.lor NLA_F_NESTED IFLA_XDP, attrs_bytes e (xdp_attrs e mode id))]
               | None => []
               end.

Definition ifinfo_bytes (e : endian) (i : Z) : list Z := repeat 0 4 ++ split e 4 i ++ repeat 0 8.

Definition nlmsg_bytes (e : endian) (type flags seq port : Z) (body : list Z) : list Z :=
  split e 4 (16 + zlen body) ++ split e 2 type ++ split e 2 flags ++ split e 4 seq
  ++ split e 4 port ++ body.

Definition link_body (e : endian) (l : link) : list Z :=
  ifinfo_bytes e (l_index l) ++ attrs_bytes e (l_attrs e l).

Definition RTM_NEWLINK : Z := 16.
Definition link_msg (e : endian) (seq port : Z) (l : link) : list Z :=
  nlmsg_bytes e RTM_NEWLINK NLM_F_MULTI seq port (link_body e l).
Definition done_msg (e : endian) (seq port : Z) : list Z :=
  nlmsg_bytes e NLMSG_DONE NLM_F_MULTI seq port (repeat 0 4).

(** Attributes that fit a datagram, none of them another IFLA_XDP; one program
    in one mode. *)
Definition link_ok (l : link) : Prop :=
  - 2 ^ 31 <= l_index l < 2 ^ 31
  /\ Forall attr_ok (l_other l)
  /\ Forall (fun a => Z.land a.1 NLA_TYPE_MASK <> IFLA_XDP) (l_other l)
  /\ match l_xdp l with
     | Some (mode, id) => 0 < mode < 4 /\ in_range 32 id
     | None => True
     end.

Lemma index_app maxtype off a b tb e :
  index maxtype off (a ++ b) tb
  = index maxtype (off + zlen (attrs_bytes e a)) b (index maxtype off a tb).
Proof.
  revert off tb. induction a as [|[rt pl] a IH]; intros off tb; cbn [app index].
  - change (zlen (attrs_bytes e [])) with 0. by rewrite Z.add_0_r.
  - rewrite IH. f_equal. unfold attrs_bytes. cbn [map List.concat].
    rewrite zlen_app, zlen_attr_bytes. cbn [snd]. lia.
Qed.

Lemma length_index maxtype off a tb : length (index maxtype off a tb) = length tb.
Proof.
  revert off tb. induction a as [|[rt pl] a IH]; intros off tb; cbn [index]; [done|].
  rewrite IH. case_match; [done|]. apply length_insert.
Qed.

Lemma index_other maxtype off a tb t :
  Forall (fun a => Z.land a.1 NLA_TYPE_MASK <> t /\ 0 <= a.1) a -> 0 <= t ->
  znth (index maxtype off a tb) t = znth tb t.
Proof.
  intros Ha Ht. revert off tb. induction Ha as [|[rt pl] a [Hn H0] _ IH]; intros off tb; [done|].
  cbn [index fst] in *. rewrite IH. destruct (maxtype <? _); [done|].
  unfold znth. rewrite !decide_True by done. apply list_lookup_insert_ne.
  assert (0 <= Z.land rt NLA_TYPE_MASK) by (apply Z.land_nonneg; by left). lia.
Qed.

Lemma zlen_nlmsg e type flags seq port body :
  zlen (nlmsg_bytes e type flags seq port body) = 16 + zlen body.
Proof. unfold nlmsg_bytes, zlen. rewrite !length_app, !length_split. lia. Qed.

Lemma zlen_ifinfo e i : zlen (ifinfo_bytes e i) = 16.
Proof. unfold ifinfo_bytes, zlen. rewrite !length_app, length_split. done. Qed.

(** Loads behind a known prefix. *)
Lemma load_at e n m1 m2 p : p = zlen m1 -> load e n (m1 ++ m2) p = load e n m2 0.
Proof. intros ->. rewrite <- (load_app_r e m1 m2 0 n) by lia. by rewrite Z.add_0_r. Qed.

Ltac at_field p Hskip :=
  match goal with |- load ?e ?n ?m _ = ?r => change (load e n m p = r) end;
  rewrite ?Hskip by lia; rewrite load_split; f_equal; apply wrap_small.

Lemma nlmsg_fields e pre type flags seq port body rest :
  in_range 16 type -> in_range 16 flags -> 16 + zlen body < 2 ^ 32 ->
  let m := pre ++ nlmsg_bytes e type flags seq port body ++ rest in
  let nh := zlen pre in
  nlmsg_len e m nh = Some (16 + zlen body) /\ nlmsg_type e m nh = Some type
  /\ nlmsg_flags e m nh = Some flags /\ nlmsg_seq e m nh = Some (u32 seq)
  /\ nlmsg_pid e m nh = Some (u32 port).
Proof.
  intros Ht Hf Hb m nh. pose proof (zlen_nonneg body).
  unfold nlmsg_len, nlmsg_type, nlmsg_flags, nlmsg_seq, nlmsg_pid, m, nh, nlmsg_bytes.
  rewrite !load_app_r by lia. replace (zlen pre) with (zlen pre + 0) at 1 by lia.
  rewrite load_app_r by lia. rewrite <- !app_assoc. rewrite load_split.
  assert (forall n k v p m', 0 <= p -> load e k (split e n v ++ m') (Z.of_nat n + p) = load e k m' p)
    as Hskip.
  { intros n k v p m' Hp. rewrite <- (load_app_r e (split e n v) m' p k) by done.
    f_equal. unfold zlen. by rewrite length_split. }
  split_and!.
  - f_equal. apply wrap_small. change (8 * Z.of_nat 4) with 32. unfold in_range. lia.
  - by at_field (Z.of_nat 4 + 0) Hskip.
  - by at_field (Z.of_nat 4 + (Z.of_nat 2 + 0)) Hskip.
  - match goal with |- load ?e ?n ?m _ = ?r =>
      change (load e n m (Z.of_nat 4 + (Z.of_nat 2 + (Z.of_nat 2 + 0))) = r) end.
    by rewrite !Hskip, load_split by lia.
  - match goal with |- load ?e ?n ?m _ = ?r =>
      change (load e n m (Z.of_nat 4 + (Z.of_nat 2 + (Z.of_nat 2 + (Z.of_nat 4 + 0)))) = r) end.
    by rewrite !Hskip, load_split by lia.
Qed.

Lemma zlen_split e n v : zlen (split e n v) = Z.of_nat n.
Proof. unfold zlen. by rewrite length_split. Qed.

(** Reading the payload of the attribute that starts at the end of [pre]. *)
Lemma load_payload e pre t n v rest :
  load e n (pre ++ attr_bytes e (t, split e n v) ++ rest) (zlen pre + 4)
  = Some (wrap (8 * Z.of_nat n) v).
Proof.
  unfold attr_bytes. cbn [fst snd]. rewrite <- !app_assoc, !(app_assoc pre), !app_assoc.
  rewrite <- (app_assoc _ _ rest), <- (app_assoc _ (split e n v)).
  rewrite load_at; [apply load_split|]. rewrite !zlen_app, !zlen_split. lia.
Qed.

Lemma attrs_bytes_app e a b : attrs_bytes e (a ++ b) = attrs_bytes e a ++ attrs_bytes e b.
Proof. unfold attrs_bytes. by rewrite map_app, concat_app. Qed.

(** What the callback finds in the nested attribute of a device. *)
Lemma xdp_attr_id e pre mode id rest :
  0 < mode < 4 -> in_range 32 id ->
  let a := (Z.lor NLA_F_NESTED IFLA_XDP, attrs_bytes e (xdp_attrs e mode id)) in
  let m := pre ++ attr_bytes e a ++ rest in
  exists tb p q, libbpf_nla_parse_nested e m IFLA_XDP_MAX (zlen pre) None = Some (0, tb)
    /\ znth tb IFLA_XDP_ATTACHED = Some (Some p) /\ libbpf_nla_getattr_u8 e m p = Some mode
    /\ znth tb IFLA_XDP_PROG_ID = Some (Some q) /\ libbpf_nla_getattr_u32 e m q = Some id.
Proof.
  intros Hmode Hid a m.
  assert (Forall attr_ok (xdp_attrs e mode id)) as Hx.
  { apply List.Forall_cons; [|apply List.Forall_cons; [|apply List.Forall_nil]];
      (split; cbn [fst snd]; [by split; vm_compute|by rewrite zlen_split]). }
  assert (zlen (attrs_bytes e (xdp_attrs e mode id)) = 16) as Hz.
  { unfold attrs_bytes, xdp_attrs. cbn [map List.concat].
    rewrite !zlen_app, !zlen_attr_bytes. cbn [snd]. by rewrite !zlen_split. }
  assert (attr_ok a) as Ha.
  { split; [by split; vm_compute|]. unfold a. cbn [snd]. by rewrite Hz. }
  pose (P := pre ++ split e 2 (4 + zlen a.2) ++ split e 2 a.1).
  assert (m = P ++ attrs_bytes e (xdp_attrs e mode id) ++ rest) as Em.
  { unfold m, P, attr_bytes. rewrite <- !app_assoc. cbn [fst snd a]. rewrite Hz.
    change (align4 (4 + 16) - (4 + 16)) with 0. by cbn [Z.to_nat repeat app]. }
  assert (zlen P = zlen pre + 4) as HP by (unfold P; rewrite !zlen_app, !zlen_split; lia).
  unfold libbpf_nla_parse_nested, libbpf_nla_len.
  pose proof (proj1 (nla_fields e pre a rest Ha)) as Hlen. cbv zeta in Hlen. fold m in Hlen.
  rewrite Hlen. cbn [mbind option_bind]. unfold libbpf_nla_data, NLA_HDRLEN. rewrite <- HP.
  replace (4 + zlen a.2 - 4) with (zlen (attrs_bytes e (xdp_attrs e mode id)))
    by (unfold a; cbn [snd]; lia).
  rewrite Em.
  rewrite nla_parse_encoded by (rewrite ?Hz; done || unfold IFLA_XDP_MAX; lia).
  eexists _, (zlen P), (zlen P + 8). split; [reflexivity|].
  cbn [index xdp_attrs]. rewrite !zlen_split.
  split; [reflexivity|]. split.
  - unfold libbpf_nla_getattr_u8, libbpf_nla_data, NLA_HDRLEN, attrs_bytes, xdp_attrs.
    cbn [map List.concat]. rewrite <- !app_assoc, load_payload. f_equal. apply wrap_small.
    unfold in_range. cbn. lia.
  - split; [reflexivity|].
    unfold libbpf_nla_getattr_u32, libbpf_nla_data, NLA_HDRLEN, attrs_bytes, xdp_attrs.
    cbn [map List.concat]. rewrite <- !app_assoc, (app_assoc P).
    set (a1 := attr_bytes e (IFLA_XDP_ATTACHED, split e 1 mode)).
    assert (zlen P + 8 + 4 = zlen (P ++ a1) + 4) as ->.
    { rewrite zlen_app. unfold a1. rewrite zlen_attr_bytes. cbn [snd]. rewrite zlen_split.
      change (align4 (4 + Z.of_nat 1)) with 8. lia. }
    rewrite load_payload. f_equal. by apply wrap_small.
Qed.

(** The id after a message about device [l]. *)
Definition id_after (ifidx : Z) (l : link) (id : Z) : Z :=
  if (ifidx =? 0) || (ifidx =? l_index l) then
    match l_xdp l with Some (_, id') => id' | None => id end
  else id.

Lemma link_attrs_ok e l : link_ok l -> Forall attr_ok (l_attrs e l).
Proof.
  intros (_ & Ho & _ & Hx). unfold l_attrs. apply Forall_app_2; [done|].
  destruct (l_xdp l) as [[mode id]|]; [|constructor].
  apply List.Forall_cons; [|apply List.Forall_nil]. split; [by split; vm_compute|].
  cbn [snd]. unfold attrs_bytes, xdp_attrs. cbn [map List.concat].
  rewrite !zlen_app, !zlen_attr_bytes. cbn [snd]. by rewrite !zlen_split.
Qed.

(** The part of the callback that looks the program up. *)
Lemma xdp_lookup e P l rest id flags m :
  link_ok l -> m = P ++ attrs_bytes e (l_attrs e l) ++ rest ->
  (xdp ← znth (index IFLA_MAX (zlen P) (l_attrs e l)
                 (repeat None (Z.to_nat (IFLA_MAX + 1)))) IFLA_XDP;
   match xdp with
   | None => Some (0, id)
   | Some xdp =>
       '(ret, xdp_tb) ← libbpf_nla_parse_nested e m IFLA_XDP_MAX xdp None;
       if negb (ret =? 0) then Some (ret, id)
       else
         att ← znth xdp_tb IFLA_XDP_ATTACHED;
         match att with
         | None => Some (0, id)
         | Some att =>
             mode ← libbpf_nla_getattr_u8 e m att;
             if mode =? XDP_ATTACHED_NONE then Some (0, id)
             else
               let xdp_attr := get_xdp_id_attr mode flags in
               if xdp_attr =? 0 then Some (0, id)
               else
                 p ← znth xdp_tb xdp_attr;
                 match p with
                 | None => Some (0, id)
                 | Some p => id' ← libbpf_nla_getattr_u32 e m p; Some (0, id')
                 end
         end
   end) = Some (0, match l_xdp l with Some (_, id') => id' | None => id end).
Proof.
  intros (Hi & Ho & Hnx & Hx) Em.
  assert (Forall (fun a => Z.land a.1 NLA_TYPE_MASK <> IFLA_XDP /\ 0 <= a.1) (l_other l)) as Hoth.
  { apply List.Forall_and; [done|]. eapply Forall_impl; [|exact Ho]. by intros a ([? _] & _). }
  unfold l_attrs in *. rewrite (index_app _ _ _ _ _ e).
  set (tb0 := repeat None (Z.to_nat (IFLA_MAX + 1))).
  destruct (l_xdp l) as [[mode id']|]; cbn [index].
  - set (a := (Z.lor NLA_F_NESTED IFLA_XDP, attrs_bytes e (xdp_attrs e mode id'))) in *.
    rewrite attrs_bytes_app in Em. rewrite <- zlen_app.
    set (P' := P ++ attrs_bytes e (l_other l)) in *.
    assert (m = P' ++ attr_bytes e a ++ rest) as Em'.
    { rewrite Em. unfold P', attrs_bytes at 2. cbn [map List.concat].
      by rewrite app_nil_r, <- !app_assoc. }
    cbn [index a]. change (Z.land (Z.lor NLA_F_NESTED IFLA_XDP) NLA_TYPE_MASK) with IFLA_XDP.
    change (IFLA_MAX <? IFLA_XDP) with false. cbv iota.
    assert (znth (<[Z.to_nat IFLA_XDP:=Some (zlen P')]>
              (index IFLA_MAX (zlen P) (l_other l) tb0)) IFLA_XDP = Some (Some (zlen P'))) as ->.
    { unfold znth. rewrite decide_True by done. apply list_lookup_insert_eq.
      rewrite length_index. by apply Nat.ltb_lt. }
    cbn [mbind option_bind].
    destruct Hx as [Hmode Hid'].
    destruct (xdp_attr_id e P' mode id' rest Hmode Hid') as (tb & p & q & Hp0 & Hp & Hm & Hq & Hid).
    fold a in Hp0, Hm, Hid. rewrite <- Em' in *. rewrite Hp0. cbn [mbind option_bind]. change (negb (0 =? 0)) with false. cbv iota.
    rewrite Hp. cbn [mbind option_bind]. rewrite Hm. cbn [mbind option_bind].
    unfold XDP_ATTACHED_NONE, get_xdp_id_attr, XDP_ATTACHED_MULTI.
    replace (mode =? 0) with false by lia. replace (mode =? 4) with false by lia. cbn [negb].
    change (IFLA_XDP_PROG_ID =? 0) with false. cbv iota. rewrite Hq. cbn [mbind option_bind].
    by rewrite Hid.
  - by rewrite app_nil_r in *; rewrite index_other by done.
Qed.

Lemma dump_link_msg e ifidx flags pre seq port l rest id :
  link_ok l -> zlen (link_msg e seq port l) < 2 ^ 31 ->
  __dump_link_nlmsg e (get_xdp_id e ifidx flags) (pre ++ link_msg e seq port l ++ rest) (zlen pre) id
  = Some (0, id_after ifidx l id).
Proof.
  intros Hl Hz. pose proof (link_attrs_ok e l Hl) as Hok.
  destruct Hl as (Hi & Ho & Hnx & Hx). set (attrs := l_attrs e l) in *.
  set (m := pre ++ link_msg e seq port l ++ rest).
  assert (zlen (link_body e l) = 16 + zlen (attrs_bytes e attrs)) as Hb
    by (unfold link_body; by rewrite zlen_app, zlen_ifinfo).
  unfold link_msg in Hz. rewrite zlen_nlmsg, Hb in Hz.
  pose proof (zlen_nonneg (attrs_bytes e attrs)) as H0.
  destruct (nlmsg_fields e pre RTM_NEWLINK NLM_F_MULTI seq port (link_body e l) rest)
    as (Hlen & _); [by split; vm_compute|by split; vm_compute|lia|]. fold (link_msg e seq port l) in Hlen.
  fold m in Hlen. rewrite Hb in Hlen.
  pose (hdr := split e 4 (16 + zlen (link_body e l)) ++ split e 2 RTM_NEWLINK
                 ++ split e 2 NLM_F_MULTI ++ split e 4 seq ++ split e 4 port).
  assert (zlen hdr = 16) as Hh by (unfold hdr; rewrite !zlen_app, !zlen_split; done).
  assert (m = (pre ++ hdr ++ ifinfo_bytes e (l_index l)) ++ attrs_bytes e attrs ++ rest) as Em.
  { unfold m, link_msg, nlmsg_bytes, hdr, link_body. by rewrite <- !app_assoc. }
  assert (zlen (pre ++ hdr ++ ifinfo_bytes e (l_index l)) = zlen pre + 32) as HP
    by (rewrite !zlen_app, Hh, zlen_ifinfo; lia).
  unfold __dump_link_nlmsg. rewrite Hlen. cbn [mbind option_bind].
  change (NLMSG_ALIGN sizeof_ifinfomsg) with 16. change (NLMSG_LENGTH sizeof_ifinfomsg) with 32.
  change (NLMSG_DATA (zlen pre)) with (zlen pre + 16).
  replace (s32 (16 + (16 + zlen (attrs_bytes e attrs)) - 32)) with (zlen (attrs_bytes e attrs)).
  2: { unfold s32. replace (16 + (16 + zlen (attrs_bytes e attrs)) - 32) with (zlen (attrs_bytes e attrs)) by lia.
       rewrite wrap_small by (unfold in_range; lia). lia. }
  replace (zlen pre + 16 + 16) with (zlen (pre ++ hdr ++ ifinfo_bytes e (l_index l))) by lia.
  rewrite Em at 1. rewrite nla_parse_encoded by (done || lia). cbn [mbind option_bind].
  change (negb (0 =? 0)) with false. cbv iota. unfold get_xdp_id.
  assert (m = (pre ++ hdr ++ repeat 0 4) ++ split e 4 (l_index l)
              ++ (repeat 0 8 ++ attrs_bytes e attrs ++ rest)) as Em2
    by (rewrite Em; unfold ifinfo_bytes; by rewrite <- !app_assoc).
  assert (load e 4 m (zlen pre + 16 + 4) = Some (u32 (l_index l))) as Hload.
  { rewrite Em2, load_at; [apply load_split|]. rewrite !zlen_app, Hh.
    change (zlen (repeat 0 4)) with 4. lia. }
  rewrite Hload. cbn [mbind option_bind]. rewrite s32_u32 by done. unfold id_after.
  destruct (Z.eqb_spec ifidx 0) as [|H1]; [cbn [negb andb orb]|
    destruct (Z.eqb_spec ifidx (l_index l)) as [|H2]; cbn [negb andb orb]; [|done]].
  all: apply (xdp_lookup e _ l rest id flags m); done.
Qed.

Lemma attrs_bytes_aligned e a : exists k, zlen (attrs_bytes e a) = 4 * k.
Proof.
  induction a as [|x a [k IH]]; [by exists 0|]. unfold attrs_bytes in *. cbn [map List.concat].
  rewrite zlen_app, zlen_attr_bytes, IH, align4_div.
  exists ((4 + zlen x.2 + 3) / 4 + k). lia.
Qed.

Lemma align_multiple k : 0 <= 4 * k < 2 ^ 32 -> NLMSG_ALIGN (4 * k) = 4 * k.
Proof.
  intros Hk. unfold NLMSG_ALIGN. rewrite align4_div.
  replace (4 * k + 3) with (3 + k * 4) by lia. rewrite Z.div_add by lia.
  change (3 / 4) with 0. rewrite wrap_small; [lia|]. unfold in_range. lia.
Qed.

Definition links_bytes (e : endian) (seq port : Z) (ls : list link) : list Z :=
  List.concat (map (link_msg e seq port) ls).

Lemma recv_links e port seq ifidx flags fuel pre ls tail mp id :
  Forall link_ok ls -> in_range 32 port ->
  zlen (links_bytes e seq port ls) < 2 ^ 31 ->
  zlen (links_bytes e seq port ls) < 16 * Z.of_nat fuel ->
  recv_msgs e port seq (Some (__dump_link_nlmsg e (get_xdp_id e ifidx flags))) fuel
    (pre ++ links_bytes e seq port ls ++ tail) (zlen pre) (zlen (links_bytes e seq port ls)) mp id
  = Some (Next (mp || negb (bool_decide (ls = [])))
               (fold_left (fun id l => id_after ifidx l id) ls id)).
Proof.
  intros Hls Hport. revert fuel pre mp id.
  induction Hls as [|l ls Hl Hls IH]; intros fuel pre mp id Hz Hf.
  { destruct fuel; [by cbn in Hf|]. cbn. by rewrite orb_false_r. }
  assert (zlen (links_bytes e seq port (l :: ls))
          = zlen (link_msg e seq port l) + zlen (links_bytes e seq port ls)) as Hc
    by (unfold links_bytes; cbn [map List.concat]; apply zlen_app).
  assert (zlen (link_msg e seq port l) = 32 + zlen (attrs_bytes e (l_attrs e l))) as Hm
    by (unfold link_msg, link_body; rewrite zlen_nlmsg, zlen_app, zlen_ifinfo; lia).
  pose proof (zlen_nonneg (attrs_bytes e (l_attrs e l))) as H0.
  pose proof (zlen_nonneg (links_bytes e seq port ls)) as H1.
  destruct (attrs_bytes_aligned e (l_attrs e l)) as [k Hk].
  assert (NLMSG_ALIGN (zlen (link_msg e seq port l)) = zlen (link_msg e seq port l)) as Hal.
  { replace (zlen (link_msg e seq port l)) with (4 * (8 + k)) by lia. apply align_multiple. lia. }
  destruct fuel as [|fuel]; [lia|]. cbn [recv_msgs].
  change (links_bytes e seq port (l :: ls)) with (link_msg e seq port l ++ links_bytes e seq port ls).
  rewrite <- app_assoc. set (m := pre ++ _).
  destruct (nlmsg_fields e pre RTM_NEWLINK NLM_F_MULTI seq port (link_body e l)
              (links_bytes e seq port ls ++ tail)) as (F1 & F2 & F3 & F4 & F5);
    [by split; vm_compute|by split; vm_compute|unfold link_msg in *; rewrite zlen_nlmsg in *; lia|].
  fold (link_msg e seq port l) in F1, F2, F3, F4, F5. fold m in F1, F2, F3, F4, F5.
  assert (16 + zlen (link_body e l) = zlen (link_msg e seq port l)) as Hb
    by (unfold link_msg; by rewrite zlen_nlmsg).
  rewrite Hb in F1. rewrite zlen_app.
  assert (NLMSG_OK e m (zlen pre)
            (zlen (link_msg e seq port l) + zlen (links_bytes e seq port ls)) = Some true) as ->.
  { unfold NLMSG_OK, sizeof_nlmsghdr. rewrite F1. cbn [mbind option_bind].
    replace (_ <? 16) with false by lia. f_equal. lia. }
  cbn [mbind option_bind negb]. rewrite F5. cbn [mbind option_bind].
  rewrite wrap_small, Z.eqb_refl by done. cbn [negb]. rewrite F4. cbn [mbind option_bind].
  rewrite Z.eqb_refl. cbn [negb]. rewrite F3, F2, F1. cbn [mbind option_bind].
  change (RTM_NEWLINK =? NLMSG_ERROR) with false. change (RTM_NEWLINK =? NLMSG_DONE) with false.
  cbv iota.
  pose proof (dump_link_msg e ifidx flags pre seq port l (links_bytes e seq port ls ++ tail) id Hl)
    as Hd. fold m in Hd. rewrite Hd by lia. cbn [mbind option_bind].
  change (negb (0 =? 0)) with false. cbv iota. rewrite Hal.
  replace (s32 (zlen (link_msg e seq port l) + zlen (links_bytes e seq port ls)
                - zlen (link_msg e seq port l))) with (zlen (links_bytes e seq port ls)).
  2: { unfold s32. rewrite wrap_small by (unfold in_range; lia). lia. }
  rewrite <- zlen_app. unfold m. rewrite app_assoc. rewrite IH by lia.
  change (Z.land NLM_F_MULTI NLM_F_MULTI =? 0) with false. cbn [negb fold_left].
  by rewrite !orb_true_r.
Qed.

Lemma recv_done e port seq ifidx flags fuel buf id :
  in_range 32 port ->
  recv_msgs e port seq (Some (__dump_link_nlmsg e (get_xdp_id e ifidx flags))) (S fuel)
    (done_msg e seq port ++ buf) 0 20 false id = Some (Return_ 0 id).
Proof.
  intros Hport. cbn [recv_msgs]. set (m := done_msg e seq port ++ buf).
  destruct (nlmsg_fields e [] NLMSG_DONE NLM_F_MULTI seq port (repeat 0 4) buf)
    as (F1 & F2 & F3 & F4 & F5); [by split; vm_compute..|].
  cbn [app] in F1, F2, F3, F4, F5. fold (done_msg e seq port) in F1, F2, F3, F4, F5.
  fold m in F1, F2, F3, F4, F5. change (zlen []) with 0 in *.
  change (16 + zlen (repeat 0 4)) with 20 in F1.
  assert (NLMSG_OK e m 0 20 = Some true) as -> by (unfold NLMSG_OK; by rewrite F1).
  cbn [mbind option_bind negb]. rewrite F5. cbn [mbind option_bind].
  rewrite wrap_small, Z.eqb_refl by done. cbn [negb]. rewrite F4. cbn [mbind option_bind].
  rewrite Z.eqb_refl. cbn [negb]. by rewrite F3, F2, F1.
Qed.

Lemma recv_dump e port seq ifidx flags lss buf id :
  Forall (fun ls => ls <> [] /\ Forall link_ok ls /\ zlen (links_bytes e seq port ls) <= 4096) lss ->
  in_range 32 port ->
  bpf_netlink_recv e port seq (Some (__dump_link_nlmsg e (get_xdp_id e ifidx flags)))
    (map (fun ls => RecvOk (links_bytes e seq port ls)) lss ++ [RecvOk (done_msg e seq port)]) buf id
  = Some (Returned 0 (fold_left (fun id l => id_after ifidx l id) (List.concat lss) id) []).
Proof.
  intros Hls Hport. revert buf id.
  induction Hls as [|ls lss (Hne & Hok & Hz) _ IH]; intros buf id; cbn [map app bpf_netlink_recv].
  - assert (zlen (done_msg e seq port) = 20) as Hd by (unfold done_msg; by rewrite zlen_nlmsg).
    rewrite Hd. change (20 =? 0) with false. cbv iota.
    change (Z.to_nat (20 / 16) + 1)%nat with 2%nat. by rewrite recv_done.
  - pose proof (zlen_nonneg (links_bytes e seq port ls)) as H0.
    destruct ls as [|l ls]; [done|].
    destruct (Z.eqb_spec (zlen (links_bytes e seq port (l :: ls))) 0) as [E|_].
    { exfalso. revert E. unfold links_bytes. cbn [map List.concat].
      rewrite zlen_app. unfold link_msg at 1. rewrite zlen_nlmsg.
      pose proof (zlen_nonneg (link_body e l)).
      pose proof (zlen_nonneg (List.concat (map (link_msg e seq port) ls))). lia. }
    set (ls' := l :: ls) in *. set (B := links_bytes e seq port ls') in *.
    pose proof (recv_links e port seq ifidx flags (Z.to_nat (zlen B / 16) + 1) [] ls'
                  (drop (length B) buf) false id Hok Hport) as Hr.
    fold B in Hr. cbn [app] in Hr. change (zlen []) with 0 in Hr. rewrite Hr.
    + cbn [mbind option_bind]. unfold ls' at 1. rewrite bool_decide_eq_false_2 by done.
      cbn [negb orb]. rewrite IH. cbn [List.concat]. by rewrite fold_left_app.
    + lia.
    + pose proof (Z.div_mod (zlen B) 16). pose proof (Z.mod_pos_bound (zlen B) 16).
      pose proof (Z.div_pos (zlen B) 16). lia.
Qed.

(** The program id of device [ifidx] in a list of devices. *)
Definition link_prog_id (ifidx : Z) (ls : list link) : Z :=
  match List.find (fun l => l_index l =? ifidx) ls with
  | Some (Link _ _ (Some (_, id))) => id
  | _ => 0
  end.

Lemma fold_id_other ifidx ls id :
  ifidx <> 0 -> ~ In ifidx (map l_index ls) ->
  fold_left (fun id l => id_after ifidx l id) ls id = id.
Proof.
  intros Hi. revert id. induction ls as [|l ls IH]; intros id Hn; [done|]. cbn in *.
  rewrite IH by tauto. unfold id_after.
  replace ((ifidx =? 0) || (ifidx =? l_index l)) with false; [done|].
  symmetry. apply orb_false_iff. split; apply Z.eqb_neq; [done|]. intros ->. tauto.
Qed.

Lemma fold_id_found ifidx ls :
  ifidx <> 0 -> List.NoDup (map l_index ls) ->
  fold_left (fun id l => id_after ifidx l id) ls 0 = link_prog_id ifidx ls.
Proof.
  intros Hi. unfold link_prog_id. induction ls as [|l ls IH]; [done|].
  cbn [map List.find fold_left]. intros Hnd. inversion Hnd as [|? ? Hn Hnd']; subst.
  unfold id_after at 2. rewrite (Z.eqb_sym (l_index l)).
  replace (ifidx =? 0) with false by lia. cbn [orb].
  destruct (Z.eqb_spec ifidx (l_index l)) as [->|]; [|by apply IH].
  rewrite fold_id_other by done. by destruct l as [? ? [[]|]].
Qed.

(** Asking for the program of a device over netlink reads the whole dump of
    the devices, in any number of datagrams, and gives the program id of
    exactly that device, 0 when it runs none or is not there, whichever of the
    modes was asked for; flags that name no or several modes, or other bits,
    are refused without asking. *)
Theorem bpf_get_link_xdp_id_dump (e : endian) {W} `{Rtnetlink W} buf time ifidx prog_id flags
    (w w' : W) port lss :
  let seq := s32 time in
  let modes := Z.land flags XDP_FLAGS_MODES in
  libbpf_netlink_open w = Ok port -> in_range 32 port -> ifidx <> 0 ->
  nl_send (get_link_request e seq) w
  = (Ok (map (fun ls => RecvOk (links_bytes e seq port ls)) lss
           ++ [RecvOk (done_msg e seq port)]), w') ->
  Forall (fun ls => ls <> [] /\ Forall link_ok ls /\ zlen (links_bytes e seq port ls) <= 4096) lss ->
  List.NoDup (map l_index (List.concat lss)) ->
  bpf_get_link_xdp_id e buf time ifidx prog_id flags w
  = if (Z.land flags (u32 (Z.lnot XDP_FLAGS_MASK)) =? 0)
       && ((modes =? 0) || (Z.land modes (u32 (modes - 1)) =? 0))
    then Some (Some (0, link_prog_id ifidx (List.concat lss)), w')
    else Some (Some (- EINVAL, prog_id), w).
Proof.
  intros seq modes Ho Hport Hi Hsend Hls Hnd. unfold bpf_get_link_xdp_id.
  destruct (Z.eqb_spec (Z.land flags (u32 (Z.lnot XDP_FLAGS_MASK))) 0); [|done]. cbn [negb andb].
  change (Z.land flags (Z.lor (Z.lor XDP_FLAGS_SKB_MODE XDP_FLAGS_DRV_MODE) XDP_FLAGS_HW_MODE))
    with modes. cbv zeta.
  assert (negb (modes =? 0) && negb (Z.land modes (u32 (modes - 1)) =? 0)
          = negb ((modes =? 0) || (Z.land modes (u32 (modes - 1)) =? 0))) as ->
    by (by destruct (modes =? 0)).
  destruct ((modes =? 0) || _); [|done]. cbn [negb].
  rewrite Ho. unfold libbpf_nl_get_link. fold seq. rewrite Hsend.
  rewrite recv_dump by done. cbn [mbind option_bind].
  change (0 =? 0) with true. cbv iota. by rewrite fold_id_found.
Qed.

(** ** A concrete kernel

    The world is the log of the link requests.  Port 77; program 13 is
    refused; the dump lists devices 1 and 2 in two datagrams. *)
Definition netlog := list (Z * Z * Z).

Definition refuse (fd : Z) : Z := if fd =? 13 then - EINVAL else 0.
Definition device1 : link := Link 1 [(3, [108; 111; 0])] None.
Definition device2 : link := Link 2 [(3, [101; 0]); (4, [5; 0; 0; 0])] (Some (2, 4711)).

#[export] Instance log_netlink (e : endian) : Rtnetlink netlog := {
  libbpf_netlink_open _ := Ok 77;
  nl_send b w :=
    match decode_set_link e b with
    | Some (i, fd, flags, seq) =>
        (Ok [RecvOk (ack_bytes e (refuse fd) 77 seq (take 16 b))], (i, fd, flags) :: w)
    | None =>
        (Ok (map (fun ls => RecvOk (links_bytes e 9 77 ls)) [[device1]; [device2]]
               ++ [RecvOk (done_msg e 9 77)]), w)
    end }.

#[export] Program Instance log_netlink_laws e : @RtnetlinkLaws e netlog (log_netlink e) := {
  kernel_set_link i fd flags w := (refuse fd, (i, fd, flags) :: w) }.
Next Obligation. intros. unfold refuse. cbn. case_match; vm_compute; split; discriminate. Qed.
Next Obligation. by intros e w port [= <-]. Qed.
Next Obligation. intros e b w port i fd flags seq [= <-] Hd. cbn. by rewrite Hd. Qed.


Lemma bpf_get_link_xdp_id_dump_witness :
  bpf_get_link_xdp_id (H:=log_netlink LE) LE (repeat 170 4096) 9 2 0 4 ([] : netlog)
  = Some (Some (0, 4711), []).
Proof.
  refine (bpf_get_link_xdp_id_dump (H:=log_netlink LE) LE (repeat 170 4096) 9 2 0 4 [] [] 77
            [[device1]; [device2]] _ _ _ _ _ _).
  - reflexivity.
  - unfold in_range. lia.
  - lia.
  - vm_compute. reflexivity.
  - repeat (constructor; [split; [done|split; [|vm_compute; discriminate]]|]); [..|constructor].
    all: repeat constructor; vm_compute; try done; discriminate.
  - cbn. repeat constructor; cbn; lia.
Defined.
