(* ===== verification/NetlinkTc.v ===== *)
(** * Traffic control over netlink (src/libbpf/src/netlink.c)

    The dumps of classes, queueing disciplines and filters: their requests, and
    that the caller's function sees the objects of the answer in order until it
    wants no more. *)

From S2P Require Export Netlink.
Open Scope Z_scope.

Definition sizeof_tcmsg : Z := 20.
Definition RTM_GETQDISC : Z := 38.
Definition RTM_GETTCLASS : Z := 42.
Definition RTM_GETTFILTER : Z := 46.

Section requests.
Context {W : Type} `{Rtnetlink W}.
(** [TCA_MAX] is that of the kernel's headers. *)
Variables (e : endian) (buf : list Z) (TCA_MAX : Z).

(** Calls the user's function with the message and its attributes. *)
Definition dump_tc_nlmsg {S} (dump : list Z -> Z -> list (option Z) -> S -> option (Z * S))
    (m : list Z) (nlh : Z) (s : S) : option (Z * S) :=
  let t := NLMSG_DATA nlh in
  l ← nlmsg_len e m nlh;
  let len := s32 (l - NLMSG_LENGTH sizeof_tcmsg) in
  let attr := t + NLMSG_ALIGN sizeof_tcmsg in
  '(ret, tb) ← libbpf_nla_parse e m TCA_MAX attr len None;
  if negb (ret =? 0) then Some (- LIBBPF_ERRNO__NLPARSE, s) else dump m t tb s.
Definition __dump_class_nlmsg {S} := @dump_tc_nlmsg S.
Definition __dump_qdisc_nlmsg {S} := @dump_tc_nlmsg S.
Definition __dump_filter_nlmsg {S} := @dump_tc_nlmsg S.

(** A header and a [tcmsg]: family and padding, interface, handle, parent and info. *)
Definition tc_request (type seq ifindex parent : Z) : list Z :=
  split e 4 (NLMSG_LENGTH sizeof_tcmsg) ++ split e 2 type ++ split e 2 (Z.lor NLM_F_DUMP NLM_F_REQUEST)
    ++ split e 4 seq ++ split e 4 0
    ++ split e 1 0 ++ repeat 0 3 ++ split e 4 ifindex ++ split e 4 0 ++ split e 4 parent ++ split e 4 0.

Definition nl_dump {S} (request : list Z) (nl_pid seq : Z) (fn : list Z -> Z -> S -> option (Z * S)) (s : S) (w : W) : option (recv_out S * W) :=
  match nl_send request w with
  | (Err err, w) => Some (Returned (- err) s [], w)
  | (Ok replies, w) => out ← bpf_netlink_recv e nl_pid seq (Some fn) replies buf s; Some (out, w)
  end.

Definition libbpf_nl_get_class {S} (nl_pid time ifindex : Z)
    (dump : list Z -> Z -> list (option Z) -> S -> option (Z * S)) (s : S) (w : W) : option (recv_out S * W) :=
  let seq := s32 time in nl_dump (tc_request RTM_GETTCLASS seq ifindex 0) nl_pid seq (__dump_class_nlmsg dump) s w.
Definition libbpf_nl_get_qdisc {S} (nl_pid time ifindex : Z)
    (dump : list Z -> Z -> list (option Z) -> S -> option (Z * S)) (s : S) (w : W) : option (recv_out S * W) :=
  let seq := s32 time in nl_dump (tc_request RTM_GETQDISC seq ifindex 0) nl_pid seq (__dump_qdisc_nlmsg dump) s w.
Definition libbpf_nl_get_filter {S} (nl_pid time ifindex handle : Z)
    (dump : list Z -> Z -> list (option Z) -> S -> option (Z * S)) (s : S) (w : W) : option (recv_out S * W) :=
  let seq := s32 time in nl_dump (tc_request RTM_GETTFILTER seq ifindex handle) nl_pid seq (__dump_filter_nlmsg dump) s w.
End requests.

(** ** The answer *)

(** An object: its [tcmsg] and its attributes. *)
Record tc_obj := TcObj { tc_head : list Z; tc_attrs : list (Z * list Z) }.
Definition tc_ok (o : tc_obj) : Prop := zlen (tc_head o) = sizeof_tcmsg /\ Forall attr_ok (tc_attrs o).

Section answer.
Context (e : endian) (type seq port : Z).
Hypothesis Htype : in_range 16 type /\ type <> NLMSG_ERROR /\ type <> NLMSG_DONE.
Hypothesis Hport : in_range 32 port.

Definition tc_msg (o : tc_obj) : list Z := nlmsg_bytes e type NLM_F_MULTI seq port (tc_head o ++ attrs_bytes e (tc_attrs o)).
Definition tc_bytes (os : list tc_obj) : list Z := List.concat (map tc_msg os).
Definition tc_replies (oss : list (list tc_obj)) : list recv_result :=
  map (fun os => RecvOk (tc_bytes os)) oss ++ [RecvOk (done_msg e seq port)].

Context {S : Type} (TCA_MAX : Z) (dump : list Z -> Z -> list (option Z) -> S -> option (Z * S)) (see : tc_obj -> S -> Z * S).
Hypothesis Hmax : 0 <= TCA_MAX.
(** The caller's function reads the object and its attributes by the table. *)
Hypothesis Hsee : forall pre o post s, tc_ok o ->
  dump (pre ++ tc_head o ++ attrs_bytes e (tc_attrs o) ++ post) (zlen pre)
    (index TCA_MAX (zlen pre + sizeof_tcmsg) (tc_attrs o) (repeat None (Z.to_nat (TCA_MAX + 1)))) s = Some (see o s).

(** Until it returns something else than 0. *)
Fixpoint visit (os : list tc_obj) (s : S) : Z * S :=
  match os with
  | [] => (0, s)
  | o :: os => let '(ret, s) := see o s in if ret =? 0 then visit os s else (ret, s)
  end.
Fixpoint dumped (oss : list (list tc_obj)) (s : S) : recv_out S :=
  match oss with
  | [] => Returned 0 s []
  | os :: oss => let '(ret, s) := visit os s in if ret =? 0 then dumped oss s else Returned ret s (tc_replies oss)
  end.

Lemma zlen_tc_msg o : tc_ok o -> zlen (tc_msg o) = 36 + zlen (attrs_bytes e (tc_attrs o)).
Proof using. intros [Hh _]. unfold tc_msg. rewrite zlen_nlmsg, zlen_app, Hh. unfold sizeof_tcmsg. lia. Qed.

Lemma dump_tc_msg pre o rest s : tc_ok o -> zlen (tc_msg o) < 2 ^ 31 ->
  dump_tc_nlmsg e TCA_MAX dump (pre ++ tc_msg o ++ rest) (zlen pre) s = Some (see o s).
Proof using Htype Hmax Hsee.
  intros Ho Hz. rewrite zlen_tc_msg in Hz by done. destruct (Ho) as [Hh Hattrs]. unfold sizeof_tcmsg in Hh.
  set (body := tc_head o ++ attrs_bytes e (tc_attrs o)). assert (zlen body = 20 + zlen (attrs_bytes e (tc_attrs o))) as Hb by (unfold body; rewrite zlen_app; lia).
  pose proof (zlen_nonneg (attrs_bytes e (tc_attrs o))) as H0. set (m := pre ++ tc_msg o ++ rest).
  destruct (nlmsg_fields e pre type NLM_F_MULTI seq port body rest) as (Hlen & _); [by apply Htype|by split; vm_compute|lia|].
  change (nlmsg_len e m (zlen pre) = Some (16 + zlen body)) in Hlen.
  set (hdr := split e 4 (16 + zlen body) ++ split e 2 type ++ split e 2 NLM_F_MULTI ++ split e 4 seq ++ split e 4 port).
  assert (zlen hdr = 16) as Hhd by (unfold hdr; rewrite !zlen_app, !zlen_split; done).
  assert (m = (pre ++ hdr) ++ tc_head o ++ attrs_bytes e (tc_attrs o) ++ rest) as Em.
  { unfold m, tc_msg, nlmsg_bytes. fold body. unfold hdr, body. by rewrite <- !app_assoc. }
  unfold dump_tc_nlmsg. rewrite Hlen. cbn [mbind option_bind].
  change (NLMSG_ALIGN sizeof_tcmsg) with 20. change (NLMSG_LENGTH sizeof_tcmsg) with 36. change (NLMSG_DATA (zlen pre)) with (zlen pre + 16).
  replace (s32 (16 + zlen body - 36)) with (zlen (attrs_bytes e (tc_attrs o))).
  2: { unfold s32. replace (16 + zlen body - 36) with (zlen (attrs_bytes e (tc_attrs o))) by lia. rewrite wrap_small by (unfold in_range; lia). lia. }
  assert (zlen pre + 16 = zlen (pre ++ hdr)) as -> by (rewrite zlen_app; lia).
  rewrite Em. rewrite <- (Hsee (pre ++ hdr) o rest s Ho).
  replace ((pre ++ hdr) ++ tc_head o ++ attrs_bytes e (tc_attrs o) ++ rest) with (((pre ++ hdr) ++ tc_head o) ++ attrs_bytes e (tc_attrs o) ++ rest)
    by (by rewrite <- !app_assoc).
  replace (zlen (pre ++ hdr) + 20) with (zlen ((pre ++ hdr) ++ tc_head o)) by (rewrite (zlen_app (pre ++ hdr)); lia).
  rewrite nla_parse_encoded by (done || lia). cbn [mbind option_bind Z.eqb negb].
  by replace (zlen (pre ++ hdr) + sizeof_tcmsg) with (zlen ((pre ++ hdr) ++ tc_head o)) by (rewrite (zlen_app (pre ++ hdr)); unfold sizeof_tcmsg; lia).
Qed.

Lemma tc_msg_aligned o : tc_ok o -> zlen (tc_msg o) < 2 ^ 31 -> NLMSG_ALIGN (zlen (tc_msg o)) = zlen (tc_msg o).
Proof using.
  intros Ho Hz. destruct (attrs_bytes_aligned e (tc_attrs o)) as [k Hk]. pose proof (zlen_nonneg (attrs_bytes e (tc_attrs o))).
  rewrite zlen_tc_msg, Hk in * by done. replace (36 + 4 * k) with (4 * (9 + k)) by lia. apply align_multiple. lia.
Qed.

(** The messages of one datagram. *)
Lemma recv_tc os : forall fuel pre tail mp s, Forall tc_ok os -> zlen (tc_bytes os) < 2 ^ 31 -> zlen (tc_bytes os) < 16 * Z.of_nat fuel ->
  recv_msgs e port seq (Some (dump_tc_nlmsg e TCA_MAX dump)) fuel (pre ++ tc_bytes os ++ tail) (zlen pre) (zlen (tc_bytes os)) mp s =
    Some (let '(ret, s) := visit os s in
      if ret =? 0 then Next (mp || negb (bool_decide (os = []))) s else Return_ ret s).
Proof using Htype Hport Hmax Hsee.
  induction os as [|o os IH]; intros fuel pre tail mp s Hos Hz Hf.
  { destruct fuel; [by cbn in Hf|]. cbn. by rewrite orb_false_r. }
  apply list.Forall_cons in Hos as [Ho Hos].
  assert (zlen (tc_bytes (o :: os)) = zlen (tc_msg o) + zlen (tc_bytes os)) as Hc by (unfold tc_bytes; cbn [map List.concat]; apply zlen_app).
  pose proof (zlen_tc_msg o Ho) as Hm. pose proof (zlen_nonneg (attrs_bytes e (tc_attrs o))) as H0. pose proof (zlen_nonneg (tc_bytes os)) as H1.
  assert (zlen (tc_msg o) < 2 ^ 31) as Hmz by lia. pose proof (tc_msg_aligned o Ho Hmz) as Hal.
  destruct fuel as [|fuel]; [lia|]. cbn [recv_msgs].
  change (tc_bytes (o :: os)) with (tc_msg o ++ tc_bytes os). rewrite <- app_assoc. set (m := pre ++ _).
  set (body := tc_head o ++ attrs_bytes e (tc_attrs o)). assert (16 + zlen body = zlen (tc_msg o)) as Hb by (unfold tc_msg; by rewrite zlen_nlmsg).
  destruct (nlmsg_fields e pre type NLM_F_MULTI seq port body (tc_bytes os ++ tail)) as (F1 & F2 & F3 & F4 & F5); [by apply Htype|by split; vm_compute|lia|].
  change (pre ++ nlmsg_bytes e type NLM_F_MULTI seq port body ++ tc_bytes os ++ tail) with m in F1, F2, F3, F4, F5.
  rewrite Hb in F1. rewrite zlen_app.
  assert (NLMSG_OK e m (zlen pre) (zlen (tc_msg o) + zlen (tc_bytes os)) = Some true) as ->.
  { unfold NLMSG_OK, sizeof_nlmsghdr. rewrite F1. cbn [mbind option_bind]. replace (_ <? 16) with false by lia. f_equal. lia. }
  cbn [mbind option_bind negb]. rewrite F5. cbn [mbind option_bind]. rewrite wrap_small, Z.eqb_refl by done. cbn [negb].
  rewrite F4. cbn [mbind option_bind]. rewrite Z.eqb_refl. cbn [negb]. rewrite F3, F2, F1. cbn [mbind option_bind].
  destruct Htype as (_ & T1 & T2). rewrite (proj2 (Z.eqb_neq _ _) T1), (proj2 (Z.eqb_neq _ _) T2).
  pose proof (dump_tc_msg pre o (tc_bytes os ++ tail) s Ho Hmz) as Hd. fold m in Hd. rewrite Hd. cbn [mbind option_bind visit].
  destruct (see o s) as [ret s1]. destruct (ret =? 0) eqn:Er; cbn [negb]; [|by rewrite Er]. rewrite Hal.
  replace (s32 (zlen (tc_msg o) + zlen (tc_bytes os) - zlen (tc_msg o))) with (zlen (tc_bytes os)).
  2: { unfold s32. rewrite wrap_small by (unfold in_range; lia). lia. }
  rewrite <- zlen_app. unfold m. rewrite app_assoc. rewrite IH by (done || lia). change (Z.land NLM_F_MULTI NLM_F_MULTI =? 0) with false.
  cbn [negb]. rewrite !orb_true_r. done.
Qed.

Lemma recv_tc_dump oss : forall buf s, Forall (fun os => os <> [] /\ Forall tc_ok os /\ zlen (tc_bytes os) <= 4096) oss ->
  bpf_netlink_recv e port seq (Some (dump_tc_nlmsg e TCA_MAX dump)) (tc_replies oss) buf s = Some (dumped oss s).
Proof using Htype Hport Hmax Hsee.
  unfold tc_replies. induction oss as [|os oss IH]; intros buf s Hoss; cbn [map app bpf_netlink_recv dumped].
  - assert (zlen (done_msg e seq port) = 20) as Hd by (unfold done_msg; by rewrite zlen_nlmsg). rewrite Hd. change (20 =? 0) with false. cbv iota.
    change (Z.to_nat (20 / 16) + 1)%nat with 2%nat. cbn [recv_msgs]. set (m := done_msg e seq port ++ _).
    destruct (nlmsg_fields e [] NLMSG_DONE NLM_F_MULTI seq port (repeat 0 4) (drop (length (done_msg e seq port)) buf))
      as (F1 & F2 & F3 & F4 & F5); [by split; vm_compute..|].
    cbn [app] in F1, F2, F3, F4, F5. fold (done_msg e seq port) in F1, F2, F3, F4, F5. fold m in F1, F2, F3, F4, F5. change (zlen []) with 0 in *.
    change (16 + zlen (repeat 0 4)) with 20 in F1. assert (NLMSG_OK e m 0 20 = Some true) as -> by (unfold NLMSG_OK; by rewrite F1).
    cbn [mbind option_bind negb]. rewrite F5. cbn [mbind option_bind]. rewrite wrap_small, Z.eqb_refl by done. cbn [negb]. rewrite F4.
    cbn [mbind option_bind]. rewrite Z.eqb_refl. cbn [negb]. by rewrite F3, F2, F1.
  - apply list.Forall_cons in Hoss as [(Hne & Hok & Hz) Hoss]. pose proof (zlen_nonneg (tc_bytes os)) as H0.
    assert (0 < zlen (tc_bytes os)) as Hpos.
    { destruct os as [|o os]; [done|]. apply list.Forall_cons in Hok as [Ho _]. unfold tc_bytes. cbn [map List.concat].
      rewrite zlen_app, zlen_tc_msg by done. pose proof (zlen_nonneg (attrs_bytes e (tc_attrs o))).
      pose proof (zlen_nonneg (List.concat (map tc_msg os))). lia. }
    rewrite (proj2 (Z.eqb_neq (zlen (tc_bytes os)) 0)) by lia.
    pose proof (recv_tc os (Z.to_nat (zlen (tc_bytes os) / 16) + 1) [] (drop (length (tc_bytes os)) buf) false s Hok) as Hr.
    cbn [app] in Hr. change (zlen []) with 0 in Hr. rewrite Hr; [|lia|].
    2: { pose proof (Z.div_mod (zlen (tc_bytes os)) 16). pose proof (Z.mod_pos_bound (zlen (tc_bytes os)) 16). pose proof (Z.div_pos (zlen (tc_bytes os)) 16). lia. }
    cbn [mbind option_bind]. rewrite bool_decide_eq_false_2 by done. destruct (visit os s) as [ret s1]. destruct (ret =? 0) eqn:Er; [|done].
    cbn [negb orb]. by apply IH.
Qed.
End answer.

(** The requests as the kernel reads them: the command, the sequence number, the
    interface and the parent. *)
Definition decode_tc (e : endian) (b : list Z) : option (Z * Z * Z * Z) :=
  len ← load e 4 b 0; type ← load e 2 b 4; flags ← load e 2 b 6; seq ← load e 4 b 8; ifindex ← load e 4 b 20; parent ← load e 4 b 28;
  if (len =? zlen b) && (flags =? Z.lor NLM_F_DUMP NLM_F_REQUEST) then Some (type, seq, ifindex, parent) else None.

(** The kinds of dump, by the call that makes them. *)
Inductive tc_dump := TcClass | TcQdisc | TcFilter (handle : Z).
Definition tc_type (d : tc_dump) : Z := match d with TcClass => 42 | TcQdisc => 38 | TcFilter _ => 46 end.
Definition tc_parent (d : tc_dump) : Z := match d with TcFilter handle => handle | _ => 0 end.
Definition nl_get_tc {W} `{Rtnetlink W} {S} e buf TCA_MAX (d : tc_dump) (nl_pid time ifindex : Z) (dump : list Z -> Z -> list (option Z) -> S -> option (Z * S)) :=
  match d with
  | TcClass => libbpf_nl_get_class e buf TCA_MAX nl_pid time ifindex dump
  | TcQdisc => libbpf_nl_get_qdisc e buf TCA_MAX nl_pid time ifindex dump
  | TcFilter handle => libbpf_nl_get_filter e buf TCA_MAX nl_pid time ifindex handle dump
  end.

Lemma tc_request_bytes e d seq ifindex parent : decode_tc e (tc_request e (tc_type d) seq ifindex parent) = Some (tc_type d, u32 seq, u32 ifindex, u32 parent).
Proof.
  destruct (split4_ex e seq) as (s1 & s2 & s3 & s4 & Es & <-). destruct (split4_ex e ifindex) as (i1 & i2 & i3 & i4 & Ei & <-).
  destruct (split4_ex e parent) as (p1 & p2 & p3 & p4 & Ep & <-). unfold tc_request. rewrite Es, Ei, Ep. clear.
  set (b := split e 4 (NLMSG_LENGTH sizeof_tcmsg) ++ _).
  assert (load e 4 b 0 = Some 36 /\ load e 2 b 4 = Some (tc_type d) /\ load e 2 b 6 = Some 769 /\ load e 4 b 8 = Some (combine e [s1; s2; s3; s4]) /\
    load e 4 b 20 = Some (combine e [i1; i2; i3; i4]) /\ load e 4 b 28 = Some (combine e [p1; p2; p3; p4]) /\ zlen b = 36) as (E1 & E2 & E3 & E4 & E5 & E6 & E7)
    by (split_and!; destruct e, d; reflexivity).
  unfold decode_tc. rewrite E1, E2, E3, E4, E5, E6, E7. done.
Qed.

(** C34. A dump of classes, queueing disciplines or filters asks the kernel for
    just these, of one interface and under one parent.  When the kernel answers
    with objects in any number of datagrams, the caller's function is given each
    with the table of its attributes, in order, until it returns something else
    than 0, which the dump returns without reading the datagrams that are left. *)
Theorem tc_dump_spec {W} `{Rtnetlink W} {S} e buf TCA_MAX d port time ifindex dump see (s : S) (w w' : W) type oss :
  let seq := s32 time in
  0 <= TCA_MAX -> in_range 32 port -> in_range 16 type /\ type <> NLMSG_ERROR /\ type <> NLMSG_DONE ->
  (forall pre o post s, tc_ok o -> dump (pre ++ tc_head o ++ attrs_bytes e (tc_attrs o) ++ post) (zlen pre)
    (index TCA_MAX (zlen pre + sizeof_tcmsg) (tc_attrs o) (repeat None (Z.to_nat (TCA_MAX + 1)))) s = Some (see o s)) ->
  (forall b, decode_tc e b = Some (tc_type d, u32 seq, u32 ifindex, u32 (tc_parent d)) -> nl_send b w = (Ok (tc_replies e type seq port oss), w')) ->
  Forall (fun os => os <> [] /\ Forall tc_ok os /\ zlen (tc_bytes e type seq port os) <= 4096) oss ->
  nl_get_tc e buf TCA_MAX d port time ifindex dump s w = Some (dumped e type seq port see oss s, w').
Proof.
  intros seq Hmax Hport Htype Hsee Hsend Hoss. pose proof (Hsend _ (tc_request_bytes e d seq ifindex (tc_parent d))) as E.
  pose proof (recv_tc_dump e type seq port Htype Hport TCA_MAX dump see Hmax Hsee oss buf s Hoss) as Hr.
  unfold nl_get_tc, libbpf_nl_get_class, libbpf_nl_get_qdisc, libbpf_nl_get_filter, nl_dump,
    __dump_class_nlmsg, __dump_qdisc_nlmsg, __dump_filter_nlmsg. fold seq.
  destruct d; unfold RTM_GETTCLASS, RTM_GETQDISC, RTM_GETTFILTER; cbn [tc_type tc_parent] in E; rewrite E, Hr; done.
Qed.

(** ** A concrete kernel

    It answers every request for filters with two objects in two datagrams. *)

Definition ex_filter1 : tc_obj := TcObj (repeat 0 4 ++ [7; 0; 0; 0] ++ repeat 0 12) [(1, [98; 112; 102; 0])].
Definition ex_filter2 : tc_obj := TcObj (repeat 0 4 ++ [9; 0; 0; 0] ++ repeat 0 12) [(1, [117; 51; 50; 0]); (2, [1])].
Definition ex_oss : list (list tc_obj) := [[ex_filter1]; [ex_filter2]].

#[export] Instance tc_kernel : Rtnetlink unit := {
  libbpf_netlink_open _ := Ok 77;
  nl_send b w := match decode_tc LE b with Some (46, seq, _, _) => (Ok (tc_replies LE 44 seq 77 ex_oss), w) | _ => (Err 1, w) end }.

(** Counts the objects and stops at the second attribute of one. *)
Definition ex_dump (m : list Z) (t : Z) (tb : list (option Z)) (s : Z) : option (Z * Z) :=
  a ← znth tb 2; Some (match a with Some _ => -7 | None => 0 end, s + 1).
Definition ex_see (o : tc_obj) (s : Z) : Z * Z := (if bool_decide (2 ∈ List.map (fun a => Z.land a.1 NLA_TYPE_MASK) (tc_attrs o)) then -7 else 0, s + 1).

Lemma index_has maxtype t attrs : forall off tb, 0 <= t <= maxtype -> zlen tb = maxtype + 1 -> Forall (fun a => 0 <= a.1) attrs ->
  exists a, znth (index maxtype off attrs tb) t = Some a /\
    ((is_Some a) <-> t ∈ List.map (fun a => Z.land a.1 NLA_TYPE_MASK) attrs \/ exists p, znth tb t = Some (Some p)).
Proof.
  induction attrs as [|[rt pl] attrs IH]; intros off tb Ht Htb Ha; cbn [index List.map].
  - destruct (znth_is_Some tb t) as [_ Hs]. destruct (Hs ltac:(lia)) as [a E]. exists a. split; [done|]. rewrite E.
    split; [intros [p ->]; right; by exists p|]. intros [Hn|[p [= ->]]]; [by apply not_elem_of_nil in Hn|by eexists].
  - apply list.Forall_cons in Ha as [H0 Ha]. cbn [fst] in *. set (ty := Z.land rt NLA_TYPE_MASK).
    assert (0 <= ty) as Hty by (apply Z.land_nonneg; by left).
    destruct (Z.ltb_spec maxtype ty) as [Hlt|Hge].
    + destruct (IH (off + align4 (4 + zlen pl)) tb Ht Htb Ha) as (a & E & Hiff). exists a. split; [done|]. rewrite Hiff, elem_of_cons.
      split; [tauto|]. intros [[->|?]|?]; [lia|tauto..].
    + destruct (IH (off + align4 (4 + zlen pl)) (<[Z.to_nat ty := Some off]> tb) Ht ltac:(unfold zlen in *; by rewrite length_insert) Ha) as (a & E & Hiff).
      exists a. split; [done|]. rewrite Hiff, elem_of_cons. unfold znth. rewrite !decide_True by lia.
      destruct (decide (t = ty)) as [->|Hne].
      * rewrite list_lookup_insert_eq by (unfold zlen in *; lia). split; [tauto|]. intros _. right. by exists off.
      * rewrite list_lookup_insert_ne by lia. split; [tauto|]. intros [[?|?]|?]; [done|tauto..].
Qed.

Lemma tc_dump_spec_witness :
  nl_get_tc (S := Z) LE (repeat 170 4096) 15 (TcFilter 1) 77 5 4 ex_dump 0 tt = Some (dumped LE 44 (s32 5) 77 ex_see ex_oss 0, tt).
Proof.
  apply (tc_dump_spec (S := Z) LE (repeat 170 4096) 15 (TcFilter 1) 77 5 4 ex_dump ex_see 0 tt tt 44 ex_oss).
  - lia.
  - unfold in_range. lia.
  - split; [unfold in_range; lia|]. split; discriminate.
  - intros pre o post s [_ Ho]. unfold ex_dump, ex_see.
    destruct (index_has 15 2 (tc_attrs o) (zlen pre + sizeof_tcmsg) (repeat None 16) ltac:(lia) eq_refl) as (a & E & Hiff).
    { eapply List.Forall_impl; [|exact Ho]. intros x [[? _] _]. done. }
    change (Z.to_nat (15 + 1)) with 16%nat. rewrite E. cbn [mbind option_bind]. destruct a as [p|].
    + rewrite bool_decide_eq_true_2; [done|]. destruct (proj1 Hiff) as [Hin|[p' Hp]]; [by eexists|done|]. vm_compute in Hp. discriminate Hp.
    + rewrite bool_decide_eq_false_2; [done|]. intros Hin. destruct (proj2 Hiff) as [p Hp]; [by left|discriminate Hp].
  - intros b Hb. cbn. rewrite Hb. reflexivity.
  - repeat constructor; try discriminate; vm_compute; try reflexivity; intuition discriminate.
Defined.

Example ex_tc_stops : fst <$> nl_get_tc (S := Z) LE (repeat 170 4096) 15 (TcFilter 1) 77 5 4 ex_dump 0 tt = Some (Returned (-7) 2 [RecvOk (done_msg LE 5 77)]).
Proof. vm_compute. reflexivity. Qed.
