(* ===== verification/NetlinkOpen.v ===== *)
(** * Opening a route netlink socket (src/libbpf/src/netlink.c,
      [libbpf_netlink_open])

    What the other files take as one operation of the class [Rtnetlink]. *)

From S2P Require Export Netlink.
From stdpp Require Import gmap.
Open Scope Z_scope.

Definition sizeof_sockaddr_nl := 12.

(** Errors are errno.  The address of a socket comes with its length. *)
Class NlSockets (K : Type) := {
  nl_socket : K -> result Z * K;
  nl_set_ext_ack : Z -> K -> result unit * K;
  nl_bind : Z -> K -> result unit * K;
  nl_getsockname : Z -> K -> result (Z * Z) * K;
  nl_close : Z -> K -> K }.

Class NlSocketsLaws (K : Type) `{NlSockets K} := {
  nl_fds : K -> gset Z;
  nl_bound : K -> gset Z;
  socket_law k : match nl_socket k with
    | (Ok fd, k') => 0 <= fd /\ fd ∉ nl_fds k /\ nl_fds k' = {[fd]} ∪ nl_fds k
    | (Err errno, k') => 0 < errno /\ nl_fds k' = nl_fds k end;
  set_ext_ack_law fd k : nl_fds (nl_set_ext_ack fd k).2 = nl_fds k;
  bind_law fd k : let '(r, k') := nl_bind fd k in nl_fds k' = nl_fds k /\
    match r with Ok _ => fd ∈ nl_bound k' | Err errno => 0 < errno end;
  getsockname_law fd k : let '(r, k') := nl_getsockname fd k in nl_fds k' = nl_fds k /\ nl_bound k' = nl_bound k /\
    match r with Ok (len, pid) => in_range 32 pid | Err errno => 0 < errno end;
  nl_close_law fd k : nl_fds (nl_close fd k) = nl_fds k ∖ {[fd]} }.

Section open.
Context {K : Type} `{NlSockets K}.

(** The socket and its port, or a negative error. *)
Definition libbpf_netlink_open (k : K) : result (Z * Z) * K :=
  match nl_socket k with
  | (Err errno, k) => (Err (- errno), k)
  | (Ok sock, k) =>
      let '(_, k) := nl_set_ext_ack sock k in
      let cleanup (ret : Z) (k : K) := (Err ret, nl_close sock k) in
      match nl_bind sock k with
      | (Err errno, k) => cleanup (- errno) k
      | (Ok _, k) =>
          match nl_getsockname sock k with
          | (Err errno, k) => cleanup (- errno) k
          | (Ok (addrlen, nl_pid), k) =>
              if negb (addrlen =? sizeof_sockaddr_nl) then cleanup (- LIBBPF_ERRNO__INTERNAL) k else (Ok (sock, nl_pid), k)
          end
      end
  end.
End open.

(** What is opened is a new, bound socket with its port; on an error, which is
    negative, no socket is left open.  That the kernel does not know extended
    errors is none. *)
Theorem netlink_open_spec {K} `{NlSocketsLaws K} (k : K) :
  let '(r, k') := libbpf_netlink_open k in
  match r with
  | Ok (sock, port) => sock ∉ nl_fds k /\ nl_fds k' = {[sock]} ∪ nl_fds k /\ sock ∈ nl_bound k' /\ in_range 32 port
  | Err err => err < 0 /\ nl_fds k' = nl_fds k
  end /\
  ((exists sock, (nl_socket k).1 = Ok sock) -> (forall fd (k : K), (nl_bind fd k).1 = Ok tt) ->
   (forall fd (k : K), exists port, (nl_getsockname fd k).1 = Ok (12, port)) -> exists x, r = Ok x).
Proof.
  unfold libbpf_netlink_open. pose proof (socket_law k) as H1. destruct (nl_socket k) as [[sock|errno] k1]; cbn [fst].
  2: { destruct H1. split; [split; [lia|done]|]. by intros [? ?]. }
  destruct H1 as (_ & Hn & F1). pose proof (set_ext_ack_law sock k1) as F2. destruct (nl_set_ext_ack sock k1) as [e k2]. cbn [snd] in F2. clear e.
  assert (forall k3 : K, nl_fds k3 = nl_fds k2 -> nl_fds (nl_close sock k3) = nl_fds k) as Hclose by (intros k3 F3; rewrite nl_close_law, F3, F2, F1; set_solver).
  pose proof (bind_law sock k2) as H3. destruct (nl_bind sock k2) as [[[]|errno] k3] eqn:E3; destruct H3 as [F3 H3].
  2: { split; [split; [lia|by apply Hclose]|]. intros _ Hb. specialize (Hb sock k2). by rewrite E3 in Hb. }
  pose proof (getsockname_law sock k3) as H4. destruct (nl_getsockname sock k3) as [[[len port]|errno] k4] eqn:E4; destruct H4 as (F4 & B4 & H4).
  2: { split; [split; [lia|apply Hclose; congruence]|]. intros _ _ Hg. destruct (Hg sock k3) as [? Hg']. by rewrite E4 in Hg'. }
  destruct (Z.eqb_spec len sizeof_sockaddr_nl) as [->|Hne]; cbn [negb].
  - split; [|by eexists]. split_and!; [done|by rewrite F4, F3, F2|by rewrite B4|done].
  - split; [split; [unfold LIBBPF_ERRNO__INTERNAL; lia|apply Hclose; congruence]|]. intros _ _ Hg. destruct (Hg sock k3) as [p Hg']. rewrite E4 in Hg'. by injection Hg'.
Qed.

(** ** A system with room for sockets *)

Record ex_sockets := ExSockets { es_fds : gset Z; es_bound : gset Z; es_ext_ack : bool }.

#[export] Instance ex_sockets_ops : NlSockets ex_sockets := {
  nl_socket k := let fd := Z.max 3 (foldr Z.max 0 (elements (es_fds k)) + 1) in (Ok fd, ExSockets ({[fd]} ∪ es_fds k) (es_bound k) (es_ext_ack k));
  nl_set_ext_ack _ k := (if es_ext_ack k then Ok tt else Err 92, k);
  nl_bind fd k := (Ok tt, ExSockets (es_fds k) ({[fd]} ∪ es_bound k) (es_ext_ack k));
  nl_getsockname fd k := (Ok (12, 4242), k);
  nl_close fd k := ExSockets (es_fds k ∖ {[fd]}) (es_bound k ∖ {[fd]}) (es_ext_ack k) }.

#[export] Instance ex_sockets_laws : NlSocketsLaws ex_sockets.
Proof.
  refine {| nl_fds := es_fds; nl_bound := es_bound |}; cbn; intros; try done; [|set_solver].
  assert (forall l x, x ∈ l -> x <= foldr Z.max 0 l) as Hmax.
  { induction l as [|y l IH]; cbn; intros x Hx; [by apply not_elem_of_nil in Hx|]. apply elem_of_cons in Hx as [->|Hx]; [lia|]. specialize (IH _ Hx). lia. }
  split; [lia|]. split; [|done]. intros Hin%elem_of_elements%Hmax. lia.
Defined.

Lemma netlink_open_spec_witness : let k := ExSockets {[0; 1; 2]} ∅ false in
  let '(r, k') := libbpf_netlink_open k in
  match r with
  | Ok (sock, port) => sock ∉ nl_fds k /\ nl_fds k' = {[sock]} ∪ nl_fds k /\ sock ∈ nl_bound k' /\ in_range 32 port
  | Err err => err < 0 /\ nl_fds k' = nl_fds k
  end /\
  ((exists sock, (nl_socket k).1 = Ok sock) -> (forall fd (k : ex_sockets), (nl_bind fd k).1 = Ok tt) ->
   (forall fd (k : ex_sockets), exists port, (nl_getsockname fd k).1 = Ok (12, port)) -> exists x, r = Ok x).
Proof. apply (netlink_open_spec (ExSockets {[0; 1; 2]} ∅ false)). Defined.

Example ex_netlink_open : (libbpf_netlink_open (ExSockets {[0; 1; 2]} ∅ false)).1 = Ok (3, 4242).
Proof. vm_compute. reflexivity. Qed.
