(* ===== verification/LinkNet.v ===== *)
(** * Attaching over route netlink

    The link interface of [XdpLink] and [Loader], implemented by the requests
    of [Netlink] to a kernel whose devices run XDP programs: the laws the
    loaders rely on follow from the bytes they exchange with it. *)

From S2P Require Export Loader.
From S2P Require Netlink.
Open Scope Z_scope.

(** What such a kernel does: a request acts on the device as [link_set], and a
    dump lists every device with the program it runs.  Sockets can be opened. *)
Class LinkKernel (e : endian) (W : Type) `{Netlink.RtnetlinkLaws e W} := {
  k_attached : W -> Z -> attachment;
  k_mode : Z -> Z -> Z;
  k_supports : Z -> Z -> bool;
  k_refuses : Z -> Z -> Z -> Z;
  k_prog_id : Z -> Z;
  k_mode_requested ifidx flags :
    In (Z.land flags XDP_FLAGS_MODES) [XDP_FLAGS_SKB_MODE; XDP_FLAGS_DRV_MODE; XDP_FLAGS_HW_MODE] ->
    k_mode ifidx flags = Z.land flags XDP_FLAGS_MODES;
  k_refuses_nonneg ifidx m fd : 0 <= k_refuses ifidx m fd;
  k_refuses_not_exist ifidx m fd : k_refuses ifidx m fd <> EEXIST;
  k_attached_supported w ifidx m fd : k_attached w ifidx = Some (m, fd) -> k_supports ifidx m = true;
  k_prog_id_pos fd : 0 < k_prog_id fd;
  k_open w : exists port, Netlink.libbpf_netlink_open w = Ok port;
  k_set_link ifidx fd flags w : c_args ifidx fd flags -> fd = -1 \/ 0 <= fd ->
    let r := link_set (k_attached w ifidx) (k_mode ifidx flags) fd
               (negb (Z.land flags XDP_FLAGS_UPDATE_IF_NOEXIST =? 0))
               (k_supports ifidx (k_mode ifidx flags)) (k_refuses ifidx (k_mode ifidx flags) fd) in
    let r' := Netlink.kernel_set_link ifidx fd flags w in
    r'.1 = r.1 /\ k_attached r'.2 ifidx = r.2 /\ forall i, i <> ifidx -> k_attached r'.2 i = k_attached w i;
  k_dump w port seq : Netlink.libbpf_netlink_open w = Ok port -> exists lss,
    Netlink.nl_send (Netlink.get_link_request e seq) w
      = (Ok (List.map (fun ls => Netlink.RecvOk (Netlink.links_bytes e seq port ls)) lss
          ++ [Netlink.RecvOk (Netlink.done_msg e seq port)]), w) /\
    Forall (fun ls => ls <> [] /\ Forall Netlink.link_ok ls /\ zlen (Netlink.links_bytes e seq port ls) <= 4096) lss /\
    List.NoDup (List.map Netlink.l_index (List.concat lss)) /\
    forall i, - 2 ^ 31 <= i < 2 ^ 31 -> i <> 0 ->
      Netlink.link_prog_id i (List.concat lss) = match k_attached w i with Some (_, fd) => k_prog_id fd | None => 0 end }.

Section over_netlink.
(** What the receive buffers hold before, and the time. *)
Context (e : endian) {W : Type} `{LinkKernel e W} (buf : list Z) (time : Z).

(** A call that ran into undefined behaviour or waits for ever has no result;
    [set_link_returns] and [get_link_returns] show that there is none. *)
Definition returned {A} (default : A) (r : option (option A * W)) (w : W) : A * W :=
  match r with Some (Some a, w') => (a, w') | Some (None, w') => (default, w') | None => (default, w) end.

#[local] Instance netlink_net : XdpNet W := {
  bpf_set_link_xdp_fd ifidx fd flags w := returned 0 (Netlink.bpf_set_link_xdp_fd e buf ifidx fd flags w) w;
  bpf_get_link_xdp_id ifidx flags w := (returned (0, 0) (Netlink.bpf_get_link_xdp_id e buf time ifidx 0 flags w) w).1 }.

Lemma set_link_returns ifidx fd flags (w : W) : c_args ifidx fd flags ->
  Netlink.bpf_set_link_xdp_fd e buf ifidx fd flags w
  = let r := Netlink.kernel_set_link ifidx fd flags w in Some (Some r.1, r.2).
Proof using H1.
  intros (Hi & Hf & Hg). rewrite (Netlink.set_link_run e buf ifidx fd flags w Hi Hf Hg). by destruct (k_open w) as [port ->].
Qed.

(** The two ways to say that at most one mode is asked for. *)
Lemma one_mode flags : let modes := Z.land flags XDP_FLAGS_MODES in
  (modes =? 0) || (Z.land modes (u32 (modes - 1)) =? 0)
  = existsb (Z.eqb modes) [0; XDP_FLAGS_SKB_MODE; XDP_FLAGS_DRV_MODE; XDP_FLAGS_HW_MODE].
Proof using.
  cbv zeta. assert (Z.land flags XDP_FLAGS_MODES = Z.land (flags mod 2 ^ 4) XDP_FLAGS_MODES) as ->.
  { rewrite <- Z.land_ones, <- Z.land_assoc by lia. done. }
  assert (In (flags mod 2 ^ 4) (List.map Z.of_nat (seq 0 16))) as Hin.
  { pose proof (Z.mod_pos_bound flags (2 ^ 4) ltac:(lia)). apply in_map_iff. exists (Z.to_nat (flags mod 2 ^ 4)). split; [lia|]. apply in_seq. lia. }
  revert Hin. generalize (flags mod 2 ^ 4). intros m Hin.
  repeat (destruct Hin as [<-|Hin]; [vm_compute; reflexivity|]). destruct Hin.
Qed.

Lemma get_link_returns ifidx flags (w : W) : c_args ifidx 0 flags -> ifidx <> 0 ->
  Netlink.bpf_get_link_xdp_id e buf time ifidx 0 flags w
  = Some (Some (if query_ok flags then (0, match k_attached w ifidx with Some (_, fd) => k_prog_id fd | None => 0 end) else (- EINVAL, 0)), w).
Proof using.
  intros (Hi & _ & Hg) Hnz. destruct (k_open w) as [port Ho]. destruct (k_dump w port (s32 time) Ho) as (lss & Hs & Hls & Hnd & Hid).
  rewrite (Netlink.bpf_get_link_xdp_id_dump e buf time ifidx 0 flags w w port lss) by (done || by eapply Netlink.port_range).
  rewrite one_mode. unfold query_ok. change Netlink.XDP_FLAGS_MASK with XDP_FLAGS_MASK.
  destruct (_ && _); [|done]. by rewrite Hid.
Qed.

#[local] Instance netlink_net_laws : XdpNetLaws W.
Proof using H1.
  refine {| attached := k_attached; mode := k_mode; supports := k_supports; refuses := k_refuses; prog_id := k_prog_id |}.
  - apply k_mode_requested.
  - apply k_refuses_nonneg.
  - apply k_refuses_not_exist.
  - apply k_attached_supported.
  - apply k_prog_id_pos.
  - intros ifidx fd flags w Hargs Hfd. cbn [bpf_set_link_xdp_fd netlink_net]. rewrite set_link_returns by done. cbn [returned fst snd].
    by apply k_set_link.
  - intros ifidx flags w Hargs Hnz. cbn [bpf_get_link_xdp_id netlink_net]. rewrite get_link_returns by done. by destruct (query_ok flags).
Defined.
End over_netlink.


(** From the command line to the kernel: when the loader exits successfully
    without [--unload], the device named runs the program selected of the
    object loaded, in the mode chosen, and every other device runs what it ran
    before; all the loader said to the kernel went through netlink sockets. *)
Theorem loader_over_netlink (e : endian) {W Obj Prog : Type} `{LinkKernel e W} buf time
    {L : Libbpf W Obj Prog} (laws : @LibbpfLaws W Obj Prog L (netlink_net e buf time) (netlink_net_laws e buf time))
    (idx : str -> Z) evs (w w' : W) :
  (forall dev, - 2 ^ 31 <= idx dev < 2 ^ 31) -> Forall (fun ev => str_ok ev.2) evs -> given 85 evs = false ->
  @loader_main W Obj Prog (netlink_net e buf time) L idx evs w = (Ret EXIT_OK, w') ->
  let flags := final_flags evs (Z.lor XDP_FLAGS_UPDATE_IF_NOEXIST XDP_FLAGS_DRV_MODE) in
  exists dev obj prog w1,
    last_arg 100 evs = Some dev /\ idx dev <> 0 /\
    bpf_prog_load_xattr (default default_filename (last_arg 1 evs)) BPF_PROG_TYPE_XDP
      (if Z.land flags XDP_FLAGS_HW_MODE =? 0 then 0 else idx dev) w = ((0, obj), w1) /\
    selected evs obj = Some prog /\
    k_attached w' (idx dev) = Some (k_mode (idx dev) flags, bpf_program__fd prog) /\
    forall i, i <> idx dev -> k_attached w' i = k_attached w i.
Proof.
  intros Hidx Hok HU E. cbv zeta. exact (@loader_main_attaches_run W Obj Prog L (netlink_net e buf time) (netlink_net_laws e buf time) laws idx Hidx evs w w' Hok HU E).
Qed.

(** ** A kernel with two devices, 1 and 2 *)

Definition devices : Type := attachment * attachment.
Definition dev_get (w : devices) (i : Z) : attachment := if i =? 1 then w.1 else if i =? 2 then w.2 else None.
Definition dev_put (w : devices) (i : Z) (a : attachment) : devices := if i =? 1 then (a, w.2) else if i =? 2 then (w.1, a) else w.
Definition dev_known (i : Z) : bool := (i =? 1) || (i =? 2).
Definition dev_id (fd : Z) : Z := fd mod 1000 + 1.

Definition dev_set (i fd flags : Z) (w : devices) : Z * devices :=
  let r := link_set (dev_get w i) (net_mode flags) fd (negb (Z.land flags XDP_FLAGS_UPDATE_IF_NOEXIST =? 0)) (dev_known i) (net_refuses fd) in
  (r.1, dev_put w i r.2).

(** The mode of a program as it is reported. *)
Definition dev_mode (m : Z) : Z := if m =? XDP_FLAGS_DRV_MODE then 1 else if m =? XDP_FLAGS_HW_MODE then 3 else 2.
Definition dev_link (i : Z) (a : attachment) : Netlink.link := Netlink.Link i [(3, [101; 0])] ((fun p => (dev_mode p.1, dev_id p.2)) <$> a).
Definition dev_links (w : devices) : list Netlink.link := [dev_link 1 w.1; dev_link 2 w.2].

#[export] Instance dev_netlink (e : endian) : Netlink.Rtnetlink devices := {
  libbpf_netlink_open _ := Ok 77;
  nl_send b w :=
    match Netlink.decode_set_link e b with
    | Some (i, fd, flags, seq) => let r := dev_set i fd flags w in (Ok [Netlink.RecvOk (Netlink.ack_bytes e r.1 77 seq (take 16 b))], r.2)
    | None =>
        let seq := default 0 (Netlink.nlmsg_seq e b 0) in
        (Ok [Netlink.RecvOk (Netlink.links_bytes e seq 77 (dev_links w)); Netlink.RecvOk (Netlink.done_msg e seq 77)], w)
    end }.

Lemma dev_error i fd flags w : - 2 ^ 31 <= (dev_set i fd flags w).1 <= 0.
Proof.
  unfold dev_set, link_set, net_refuses. cbn [fst]. destruct (dev_known i); [|vm_compute; split; discriminate]. cbn [negb].
  destruct (0 <=? fd); destruct (dev_get w i) as [[]|]; repeat case_match; vm_compute; split; discriminate.
Qed.

#[export] Instance dev_netlink_laws (e : endian) : @Netlink.RtnetlinkLaws e devices (dev_netlink e).
Proof.
  unshelve econstructor; [exact dev_set|..].
  - apply dev_error.
  - by intros w port [= <-].
  - intros b w port i fd flags seq [= <-] Hd. cbn. by rewrite Hd.
Defined.

Lemma split_u32 e v : split e 4 (u32 v) = split e 4 v.
Proof. pose proof (combine_split e 4 v) as H. change (8 * Z.of_nat 4) with 32 in H. rewrite <- H. pose proof (split_combine e (split e 4 v)) as Hs. rewrite length_split in Hs. apply Hs, split_ok. Qed.

Lemma dev_request e seq : Netlink.decode_set_link e (Netlink.get_link_request e seq) = None /\
  Netlink.nlmsg_seq e (Netlink.get_link_request e seq) 0 = Some (u32 seq).
Proof.
  destruct (Netlink.split4_ex e seq) as (a & b & c & d & E & Hc). unfold Netlink.get_link_request. rewrite E, <- Hc.
  destruct e; split; reflexivity.
Qed.

#[export] Instance dev_kernel (e : endian) : @LinkKernel e devices (dev_netlink e) (dev_netlink_laws e).
Proof.
  refine {| k_attached := dev_get; k_mode := fun _ flags => net_mode flags; k_supports := fun i _ => dev_known i;
            k_refuses := fun _ _ fd => net_refuses fd; k_prog_id := dev_id |}.
  - intros _ flags Hin. unfold net_mode. set (m := Z.land _ _) in *. cbn in Hin. by destruct Hin as [<-|[<-|[<-|[]]]].
  - intros. unfold net_refuses. by case_match.
  - intros. unfold net_refuses. by case_match.
  - intros w i m fd. unfold dev_get, dev_known. repeat case_match; done.
  - intros fd. unfold dev_id. pose proof (Z.mod_pos_bound fd 1000). lia.
  - intros w. by exists 77.
  - intros i fd flags w _ _. cbv zeta. cbn [Netlink.kernel_set_link dev_netlink_laws]. unfold dev_set. cbn [fst snd]. split; [done|]. split.
    + unfold dev_get, dev_put, dev_known, link_set. destruct w as [a b]. repeat case_match; try done.
    + intros j Hj. unfold dev_get, dev_put. destruct w as [a b]. repeat case_match; cbn in *; try done; lia.
  - intros w port seq [= <-]. exists [dev_links w]. destruct (dev_request e seq) as [E1 E2]. split; [|split; [|split]].
    + cbn [Netlink.nl_send dev_netlink]. rewrite E1, E2. cbn [default List.map app].
      unfold id, Netlink.links_bytes, Netlink.done_msg, Netlink.link_msg, Netlink.nlmsg_bytes. by rewrite !(split_u32 e seq).
    + constructor; [|constructor]. split; [done|]. split.
      * assert (forall i a, 0 < i < 3 -> Netlink.link_ok (dev_link i a)) as Hok.
        { intros i a Hi. split; [cbn; lia|]. split; [repeat constructor; vm_compute; done|]. split; [repeat constructor; vm_compute; done|].
          destruct a as [[m fd]|]; cbn; [|done]. split; [unfold dev_mode; repeat case_match; lia|].
          unfold dev_id, in_range. pose proof (Z.mod_pos_bound fd 1000). lia. }
        constructor; [apply Hok; lia|constructor; [apply Hok; lia|constructor]].
      * destruct w as [[[m1 fd1]|] [[m2 fd2]|]], e; vm_compute; discriminate.
    + cbn. repeat constructor; cbn; lia.
    + intros i _ Hi. unfold Netlink.link_prog_id, dev_get, dev_links, dev_link. destruct w as [a b]. cbn [List.concat app List.find Netlink.l_index fst snd].
      rewrite (Z.eqb_sym 1 i), (Z.eqb_sym 2 i). destruct (i =? 1); [by destruct a as [[]|]|]. destruct (i =? 2); [by destruct b as [[]|]|done].
Defined.

(** Forcing native mode on device 2, which runs a generic program. *)
Definition busy_devices : devices := (None, Some (XDP_FLAGS_SKB_MODE, 7)).


Example ex_attached : (@xdp_link_attach devices (netlink_net LE (H := dev_netlink LE) (repeat 170 4096) 9) 2 XDP_FLAGS_DRV_MODE 9 busy_devices)
  = (EXIT_OK, (None, Some (XDP_FLAGS_DRV_MODE, 9))).
Proof. vm_compute. reflexivity. Qed.

(** The objects of [Loader]'s system on this kernel. *)
#[export] Instance dev_libbpf : Libbpf devices str Z := {
  bpf_prog_load_xattr f _ _ w := ((0, f), w);
  bpf_object__find_program_by_title _ sec := if decide (sec = lit "xdp_drop") then Some 8 else None;
  bpf_program__next _ := Some 5;
  bpf_program__title p := if p =? 8 then lit "xdp_drop" else lit "xdp_pass";
  bpf_program__fd p := s32 p;
  access _ _ := -1;
  bpf_object__unpin_maps _ _ w := (0, w);
  bpf_object__pin_maps _ _ w := (0, w);
  bpf_obj_get _ _ := 3;
  bpf_obj_get_info_by_fd _ _ := Ok (MapInfo 6 4 16 5) }.

Definition dev_net : XdpNet devices := netlink_net LE (H := dev_netlink LE) (repeat 170 4096) 9.
#[export] Instance dev_libbpf_laws : @LibbpfLaws devices str Z dev_libbpf dev_net (netlink_net_laws LE (repeat 170 4096) 9).
Proof. split; [|done..]. intros p. cbn. unfold s32. pose proof (wrap_range 32 (p + 2 ^ 31) ltac:(lia)). unfold in_range in *. lia. Qed.

Definition dev_loaded : devices := (@loader_main devices str Z dev_net dev_libbpf eth0_only load_options busy_devices).2.

Lemma loader_over_netlink_witness :
  exists dev obj prog w1,
    last_arg 100 load_options = Some dev /\ eth0_only dev <> 0 /\
    bpf_prog_load_xattr default_filename BPF_PROG_TYPE_XDP 0 busy_devices = ((0, obj), w1) /\
    selected load_options obj = Some prog /\
    dev_get dev_loaded (eth0_only dev) = Some (XDP_FLAGS_DRV_MODE, bpf_program__fd prog) /\
    forall i, i <> eth0_only dev -> dev_get dev_loaded i = dev_get busy_devices i.
Proof.
  assert (Forall (fun ev : getopt_event => str_ok ev.2) load_options) as Hok by (repeat constructor; vm_compute; done).
  assert (@loader_main devices str Z dev_net dev_libbpf eth0_only load_options busy_devices = (Ret EXIT_OK, dev_loaded)) as E by (vm_compute; reflexivity).
  exact (@loader_over_netlink LE devices str Z _ _ (dev_kernel LE) (repeat 170 4096) 9 dev_libbpf dev_libbpf_laws eth0_only load_options
    busy_devices dev_loaded eth0_only_int Hok eq_refl E).
Defined.
