(* ===== verification/Btf.v ===== *)
(** * BTF type information (src/libbpf/src/btf.c)

    The object of a [.BTF] section: a header, the type records, the strings.
    [btf__new] checks it and builds the index of its type records; the lookups
    read the records through that index.  The copy of the section is a byte
    object and pointers into it are offsets, so that a read outside the copy is
    visible ([None]).  Last, [SizeOf] says what the size of a type is, and
    [encode] writes a section. *)

From S2P Require Export CString.

(** ** Layout (include/uapi/linux/btf.h) *)

Definition BTF_MAGIC := 0xeB9F.
Definition BTF_VERSION := 1.

Definition BTF_INFO_KIND (info : Z) : Z := Z.land (Z.shiftr info 24) 0x0f.
Definition BTF_INFO_VLEN (info : Z) : Z := Z.land info 0xffff.

Definition BTF_KIND_UNKN := 0.
Definition BTF_KIND_INT := 1.
Definition BTF_KIND_PTR := 2.
Definition BTF_KIND_ARRAY := 3.
Definition BTF_KIND_STRUCT := 4.
Definition BTF_KIND_UNION := 5.
Definition BTF_KIND_ENUM := 6.
Definition BTF_KIND_FWD := 7.
Definition BTF_KIND_TYPEDEF := 8.
Definition BTF_KIND_VOLATILE := 9.
Definition BTF_KIND_CONST := 10.
Definition BTF_KIND_RESTRICT := 11.
Definition BTF_KIND_FUNC := 12.
Definition BTF_KIND_FUNC_PROTO := 13.

Definition sizeof_btf_header := 24.
Definition sizeof_btf_type := 12.
Definition sizeof_btf_enum := 8.
Definition sizeof_btf_array := 12.
Definition sizeof_btf_member := 12.
Definition sizeof_btf_param := 8.
(** On a 64-bit host. *)
Definition sizeof_pointer := 8.

Definition BTF_MAX_NR_TYPES := 0x7fffffff.
Definition BTF_MAX_STR_OFFSET := 0x7fffffff.
Definition MAX_RESOLVE_DEPTH : nat := 32.
Definition UINT32_MAX := 2 ^ 32 - 1.

Definition IS_MODIFIER (k : Z) : bool :=
  (k =? BTF_KIND_TYPEDEF) || (k =? BTF_KIND_VOLATILE)
  || (k =? BTF_KIND_CONST) || (k =? BTF_KIND_RESTRICT).

(** ** Data *)

(** A [struct btf_type *]: the static [btf_void] or a record of the section. *)
Inductive type_ptr := btf_void | In_data (off : Z).

#[export] Instance type_ptr_eq_dec : EqDecision type_ptr.
Proof. solve_decision. Defined.

(** [struct btf].  [types] is the allocated array, [types_size] slots of which
    those not written yet are [None]; [nohdr_data] and [strings] are offsets in
    [data]. *)
Record btf := Btf {
  data : list Z;
  types : list (option type_ptr);
  strings : Z;
  nohdr_data : Z;
  nr_types : Z;
  types_size : Z;
  data_size : Z;
  fd : Z
}.

(** [realloc] of an array to [n] slots. *)
Definition realloc_slots {A} (n : Z) (l : list (option A)) : list (option A) :=
  resize (Z.to_nat n) None l.

Section btf.
(** The byte order of the host, and whether the allocator grants a request of
    the given number of bytes. *)
Context (e : endian) (alloc : Z -> bool).

(** The fields of [btf->hdr]. *)
Definition hdr_magic (b : btf) : option Z := load e 2 (data b) 0.
Definition hdr_version (b : btf) : option Z := load e 1 (data b) 2.
Definition hdr_flags (b : btf) : option Z := load e 1 (data b) 3.
Definition hdr_type_off (b : btf) : option Z := load e 4 (data b) 8.
Definition hdr_str_off (b : btf) : option Z := load e 4 (data b) 16.
Definition hdr_str_len (b : btf) : option Z := load e 4 (data b) 20.

(** The fields of a [struct btf_type], of the array record and of the [i]-th
    member that follow it; [btf_void] is zero. *)
Definition type_field (pos : Z) (b : btf) (t : type_ptr) : option Z :=
  match t with
  | btf_void => Some 0
  | In_data off => load e 4 (data b) (off + pos)
  end.
Definition t_name_off := type_field 0.
Definition t_info := type_field 4.
Definition t_size := type_field 8.
Definition t_type := type_field 8.
Definition array_type := type_field 12.
Definition array_nelems := type_field 20.
Definition member_type (i : Z) := type_field (12 + 12 * i + 4).

(** ** Building the object *)

Definition btf_add_type (b : btf) (t : type_ptr) : outcome btf :=
  let? b :=
    if types_size b ⊟ nr_types b <? 2 then
      if types_size b =? BTF_MAX_NR_TYPES then Some (Err (- E2BIG))
      else
        let expand_by := Z.max (Z.shiftr (types_size b) 2) 16 in
        let new_size := Z.min BTF_MAX_NR_TYPES (types_size b ⊞ expand_by) in
        if negb (alloc (sizeof_pointer * new_size)) then Some (Err (- ENOMEM))
        else
          let new_types := realloc_slots new_size (types b) in
          new_types ← (if nr_types b =? 0 then zset new_types 0 (Some btf_void)
                       else Some new_types);
          Some (Ok (Btf (data b) new_types (strings b) (nohdr_data b) (nr_types b)
                      new_size (data_size b) (fd b)))
    else Some (Ok b) in
  let nr := nr_types b ⊞ 1 in
  ts ← zset (types b) nr (Some t);
  Some (Ok (Btf (data b) ts (strings b) (nohdr_data b) nr (types_size b) (data_size b) (fd b))).

Definition btf_parse_hdr (b : btf) : outcome btf :=
  if data_size b <? sizeof_btf_header then Some (Err (- EINVAL)) else
  magic ← hdr_magic b;
  if negb (magic =? BTF_MAGIC) then Some (Err (- EINVAL)) else
  version ← hdr_version b;
  if negb (version =? BTF_VERSION) then Some (Err (- ENOTSUP)) else
  flags ← hdr_flags b;
  if negb (flags =? 0) then Some (Err (- ENOTSUP)) else
  let meta_left := data_size b ⊟ sizeof_btf_header in
  if meta_left =? 0 then Some (Err (- EINVAL)) else
  type_off ← hdr_type_off b;
  if meta_left <? type_off then Some (Err (- EINVAL)) else
  str_off ← hdr_str_off b;
  if meta_left <? str_off then Some (Err (- EINVAL)) else
  if str_off <=? type_off then Some (Err (- EINVAL)) else
  if negb (Z.land type_off 0x02 =? 0) then Some (Err (- EINVAL)) else
  Some (Ok (Btf (data b) (types b) (strings b) sizeof_btf_header (nr_types b)
              (types_size b) (data_size b) (fd b))).

Definition btf_parse_str_sec (b : btf) : outcome btf :=
  str_off ← hdr_str_off b;
  str_len ← hdr_str_len b;
  let start := nohdr_data b + str_off in
  let end_ := start + str_len in
  if str_len =? 0 then Some (Err (- EINVAL)) else
  if BTF_MAX_STR_OFFSET <? str_len ⊟ 1 then Some (Err (- EINVAL)) else
  first ← load e 1 (data b) start;
  if negb (first =? 0) then Some (Err (- EINVAL)) else
  last ← load e 1 (data b) (end_ - 1);
  if negb (last =? 0) then Some (Err (- EINVAL)) else
  Some (Ok (Btf (data b) (types b) start (nohdr_data b) (nr_types b)
              (types_size b) (data_size b) (fd b))).

(** The size of the record with this [info]. *)
Definition info_size (info : Z) : result Z :=
  let base_size := sizeof_btf_type in
  let vlen := BTF_INFO_VLEN info in
  let k := BTF_INFO_KIND info in
  if (k =? BTF_KIND_FWD) || (k =? BTF_KIND_CONST) || (k =? BTF_KIND_VOLATILE)
     || (k =? BTF_KIND_RESTRICT) || (k =? BTF_KIND_PTR) || (k =? BTF_KIND_TYPEDEF)
     || (k =? BTF_KIND_FUNC) then Ok base_size
  else if k =? BTF_KIND_INT then Ok (base_size + 4)
  else if k =? BTF_KIND_ENUM then Ok (base_size + vlen * sizeof_btf_enum)
  else if k =? BTF_KIND_ARRAY then Ok (base_size + sizeof_btf_array)
  else if (k =? BTF_KIND_STRUCT) || (k =? BTF_KIND_UNION)
  then Ok (base_size + vlen * sizeof_btf_member)
  else if k =? BTF_KIND_FUNC_PROTO then Ok (base_size + vlen * sizeof_btf_param)
  else Err (- EINVAL).

Definition btf_type_size (b : btf) (t : type_ptr) : outcome Z :=
  info ← t_info b t; Some (info_size info).

(** The loop over the records: each takes at least twelve bytes. *)
Fixpoint parse_types (fuel : nat) (b : btf) (next_type end_type : Z) : outcome btf :=
  match fuel with
  | O => None
  | S fuel =>
      if next_type <? end_type then
        let? type_size := btf_type_size b (In_data next_type) in
        let? b := btf_add_type b (In_data next_type) in
        parse_types fuel b (next_type + type_size) end_type
      else Some (Ok b)
  end.

Definition btf_parse_type_sec (b : btf) : outcome btf :=
  type_off ← hdr_type_off b;
  str_off ← hdr_str_off b;
  parse_types (S (Z.to_nat (str_off - type_off))) b
    (nohdr_data b + type_off) (nohdr_data b + str_off).

Definition sizeof_btf := 56.

Definition btf__new (src : list Z) (size : Z) : outcome btf :=
  if negb (alloc sizeof_btf) then Some (Err (- ENOMEM)) else
  if negb (alloc size) then Some (Err (- ENOMEM)) else
  mem ← get_bytes src 0 (Z.to_nat size);
  let? b := btf_parse_hdr (Btf mem [] 0 0 0 0 size (-1)) in
  let? b := btf_parse_str_sec b in
  btf_parse_type_sec b.

(** ** Lookups *)

Definition btf__get_nr_types (b : btf) : Z := nr_types b.
(** The bytes, and how many they are. *)
Definition btf__get_raw_data (b : btf) : list Z * Z := (data b, data_size b).

(** [NULL] is [Some None]; an unwritten slot or a slot outside the array is
    undefined. *)
Definition btf__type_by_id (b : btf) (type_id : Z) : option (option type_ptr) :=
  if nr_types b <? type_id then Some None
  else slot ← znth (types b) type_id; t ← slot; Some (Some t).

Definition btf_type_is_void (b : btf) (t : type_ptr) : option bool :=
  if decide (t = btf_void) then Some true
  else info ← t_info b t; Some (BTF_INFO_KIND info =? BTF_KIND_FWD).

Definition btf_type_is_void_or_null (b : btf) (t : option type_ptr) : option bool :=
  match t with None => Some true | Some t => btf_type_is_void b t end.

(** [done:] of [btf__resolve_size]. *)
Definition total_size (nelems size : Z) : result Z :=
  if negb (nelems =? 0) && (UINT32_MAX / nelems <? size) then Err (- E2BIG)
  else Ok (nelems * size).

Fixpoint resolve_size_loop (fuel : nat) (b : btf) (t : option type_ptr) (nelems : Z) : outcome Z :=
  match fuel, t with
  | O, _ | _, None => Some (Err (- EINVAL))
  | S fuel, Some p =>
      void ← btf_type_is_void b p;
      if void : bool then Some (Err (- EINVAL)) else
      info ← t_info b p;
      let k := BTF_INFO_KIND info in
      if (k =? BTF_KIND_INT) || (k =? BTF_KIND_STRUCT) || (k =? BTF_KIND_UNION)
         || (k =? BTF_KIND_ENUM) then size ← t_size b p; Some (total_size nelems size)
      else if k =? BTF_KIND_PTR then Some (total_size nelems sizeof_pointer)
      else if (k =? BTF_KIND_TYPEDEF) || (k =? BTF_KIND_VOLATILE) || (k =? BTF_KIND_CONST)
              || (k =? BTF_KIND_RESTRICT) then
        type_id ← t_type b p; t ← btf__type_by_id b type_id; resolve_size_loop fuel b t nelems
      else if k =? BTF_KIND_ARRAY then
        n ← array_nelems b p;
        if negb (nelems =? 0) && (UINT32_MAX / nelems <? n) then Some (Err (- E2BIG))
        else
          type_id ← array_type b p; t ← btf__type_by_id b type_id;
          resolve_size_loop fuel b t (u32 (nelems * n))
      else Some (Err (- EINVAL))
  end.

Definition btf__resolve_size (b : btf) (type_id : Z) : outcome Z :=
  t ← btf__type_by_id b type_id; resolve_size_loop MAX_RESOLVE_DEPTH b t 1.

(** [fuel] is [MAX_RESOLVE_DEPTH - depth]. *)
Fixpoint resolve_type_loop (fuel : nat) (b : btf) (t : option type_ptr) (type_id : Z) : outcome Z :=
  match fuel with
  | O => Some (Err (- EINVAL))
  | S fuel =>
      void ← btf_type_is_void_or_null b t;
      match t with
      | Some p =>
          if void : bool then Some (Err (- EINVAL)) else
          info ← t_info b p;
          if IS_MODIFIER (BTF_INFO_KIND info) then
            type_id ← t_type b p; t ← btf__type_by_id b type_id;
            resolve_type_loop fuel b t type_id
          else Some (Ok type_id)
      | None => Some (Err (- EINVAL))
      end
  end.

Definition btf__resolve_type (b : btf) (type_id : Z) : outcome Z :=
  t ← btf__type_by_id b type_id; resolve_type_loop MAX_RESOLVE_DEPTH b t type_id.

(** The offset in [data] of the name, [Some None] for [NULL]. *)
Definition btf__name_by_offset (b : btf) (offset : Z) : option (option Z) :=
  str_len ← hdr_str_len b;
  Some (if offset <? str_len then Some (strings b + offset) else None).

(** The C string at a pointer into [data]. *)
Definition c_string (b : btf) (p : Z) : option str := cstr (drop (Z.to_nat p) (data b)).

Fixpoint find_loop (fuel : nat) (b : btf) (type_name : str) (i : Z) : outcome Z :=
  match fuel with
  | O => Some (Err (- ENOENT))
  | S fuel =>
      slot ← znth (types b) i; t ← slot;
      name_off ← t_name_off b t;
      name ← btf__name_by_offset b name_off;
      same ← match name with
             | Some p => s ← c_string b p; Some (bool_decide (type_name = s))
             | None => Some false
             end;
      if same : bool then Some (Ok i) else find_loop fuel b type_name (i + 1)
  end.

Definition btf__find_by_name (b : btf) (type_name : str) : outcome Z :=
  if bool_decide (type_name = lit "void") then Some (Ok 0)
  else find_loop (Z.to_nat (nr_types b)) b type_name 1.

Definition max_name := 256.

(** Returns [*key_type_id] and [*value_type_id]. *)
Definition btf__get_map_kv_tids (b : btf) (map_name : str)
    (expected_key_size expected_value_size : Z) : outcome (Z * Z) :=
  let text := lit "____btf_map_" ++ map_name in
  if zlen text =? max_name then Some (Err (- EINVAL)) else
  let container_name := take (Z.to_nat (max_name - 1)) text in
  let? container_id := btf__find_by_name b container_name in
  t ← btf__type_by_id b container_id;
  match t with
  | None => Some (Err (- EINVAL))
  | Some container_type =>
      info ← t_info b container_type;
      if negb (BTF_INFO_KIND info =? BTF_KIND_STRUCT) || (BTF_INFO_VLEN info <? 2)
      then Some (Err (- EINVAL)) else
      key_type ← member_type 0 b container_type;
      let? key_size := btf__resolve_size b key_type in
      if negb (expected_key_size =? key_size) then Some (Err (- EINVAL)) else
      value_type ← member_type 1 b container_type;
      let? value_size := btf__resolve_size b value_type in
      if negb (expected_value_size =? value_size) then Some (Err (- EINVAL)) else
      Some (Ok (key_type, value_type))
  end.
End btf.

(** ** What a section holds *)

(** A type record: its three words and the words that follow them. *)
Record desc := Desc { d_name_off : Z; d_info : Z; d_size : Z; d_extra : list Z }.

Definition desc_words (d : desc) : list Z := d_name_off d :: d_info d :: d_size d :: d_extra d.

Definition desc_ok (d : desc) : Prop :=
  Forall (in_range 32) (desc_words d) /\ info_size (d_info d) = Ok (4 * zlen (desc_words d)).

Definition encode_words (e : endian) (ws : list Z) : list Z := flat_map (split e 4) ws.
Definition encode_types (e : endian) (ds : list desc) : list Z :=
  flat_map (fun d => encode_words e (desc_words d)) ds.

(** A section with these types and this string table. *)
Definition encode (e : endian) (ds : list desc) (strs : list Z) : list Z :=
  let ts := encode_types e ds in
  split e 2 BTF_MAGIC ++ split e 1 BTF_VERSION ++ split e 1 0
  ++ encode_words e [sizeof_btf_header; 0; zlen ts; zlen ts; zlen strs] ++ ts ++ strs.

Fixpoint load_words (e : endian) (n : nat) (m : list Z) (p : Z) : option (list Z) :=
  match n with
  | O => Some []
  | S n => w ← load e 4 m p; ws ← load_words e n m (p + 4); Some (w :: ws)
  end.

(** The record at an offset. *)
Definition desc_at (e : endian) (m : list Z) (off : Z) : option desc :=
  info ← load e 4 m (off + 4);
  match info_size info with
  | Ok n =>
      ws ← load_words e (Z.to_nat (n / 4)) m off;
      match ws with
      | name_off :: info :: size :: extra => Some (Desc name_off info size extra)
      | _ => None
      end
  | Err _ => None
  end.

(** The record the index gives for a type id. *)
Definition read_desc (e : endian) (b : btf) (type_id : Z) : option desc :=
  t ← btf__type_by_id b type_id;
  match t with
  | Some (In_data off) => desc_at e (data b) off
  | _ => None
  end.

(** The object [b] holds the types [ds], numbered from 1, and the string table
    [strs]. *)
Record represents (e : endian) (b : btf) (ds : list desc) (strs : list Z) : Prop := {
  rep_nr : nr_types b = zlen ds;
  rep_void : btf__type_by_id b 0 = Some (Some btf_void);
  rep_type i d : znth ds i = Some d ->
    exists o, btf__type_by_id b (i + 1) = Some (Some (In_data o)) /\ desc_at e (data b) o = Some d;
  rep_none id : zlen ds < id -> btf__type_by_id b id = Some None;
  rep_name off : 0 <= off < zlen strs -> exists p,
    btf__name_by_offset e b off = Some (Some p) /\ c_string b p = cstr (drop (Z.to_nat off) strs);
  rep_no_name off : zlen strs <= off -> btf__name_by_offset e b off = Some None
}.

(** A string table: it begins and ends with NUL. *)
Definition strs_ok (strs : list Z) : Prop :=
  znth strs 0 = Some 0 /\ znth strs (zlen strs - 1) = Some 0.

(** The type with this id. *)
Definition type_at (ds : list desc) (id : Z) : option desc := znth ds (id - 1).
Definition d_kind (d : desc) : Z := BTF_INFO_KIND (d_info d).

(** Kinds whose record gives the size. *)
Definition is_sized (k : Z) : bool :=
  (k =? BTF_KIND_INT) || (k =? BTF_KIND_STRUCT) || (k =? BTF_KIND_UNION) || (k =? BTF_KIND_ENUM).

(** [SizeOf ds n id ns s]: following typedefs, qualifiers and arrays from type
    [id], [n] types lead to one of size [s], with arrays of [ns] elements on
    the way: the size of the type is the product. *)
Inductive SizeOf (ds : list desc) : nat -> Z -> list Z -> Z -> Prop :=
| SizeOf_sized id d :
    type_at ds id = Some d -> is_sized (d_kind d) = true -> SizeOf ds 1 id [] (d_size d)
| SizeOf_ptr id d :
    type_at ds id = Some d -> d_kind d = BTF_KIND_PTR -> SizeOf ds 1 id [] sizeof_pointer
| SizeOf_modifier n id d ns s :
    type_at ds id = Some d -> IS_MODIFIER (d_kind d) = true ->
    SizeOf ds n (d_size d) ns s -> SizeOf ds (S n) id ns s
| SizeOf_array n id d elem index count ns s :
    type_at ds id = Some d -> d_kind d = BTF_KIND_ARRAY -> d_extra d = [elem; index; count] ->
    SizeOf ds n elem ns s -> SizeOf ds (S n) id (count :: ns) s.

Definition product (ns : list Z) : Z := fold_right Z.mul 1 ns.

(** The number of elements of the outer arrays, taken one array at a time, and
    the size fit in 32 bits. *)
Definition size_fits (ns : list Z) (s : Z) : Prop :=
  (forall k, product (take k ns) <= UINT32_MAX) /\ product ns * s <= UINT32_MAX.

(** The string at an offset; an offset outside the string table names nothing. *)
Definition name_at (strs : list Z) (off : Z) : option str :=
  if off <? zlen strs then cstr (drop (Z.to_nat off) strs) else None.

(** The name of a type. *)
Definition d_name (strs : list Z) (d : desc) : option str := name_at strs (d_name_off d).

(** [d], with id [id], is the first type called [name]. *)
Definition first_named (ds : list desc) (strs : list Z) (name : str) (id : Z) (d : desc) : Prop :=
  type_at ds id = Some d /\ d_name strs d = Some name /\
  forall j d', type_at ds j = Some d' -> j < id -> d_name strs d' <> Some name.

(** The size of a type, if it has one that fits in 32 bits. *)
Definition sized (ds : list desc) (id size : Z) : Prop :=
  exists n ns s, SizeOf ds n id ns s /\ (n <= MAX_RESOLVE_DEPTH)%nat /\ size_fits ns s /\
    size = product ns * s.

(** [Tiles e m p os q]: from offset [p] on, [m] holds type records at the
    offsets [os], one behind the other, and the last one ends at [q]. *)
Inductive Tiles (e : endian) (m : list Z) : Z -> list Z -> Z -> Prop :=
| Tiles_nil p : Tiles e m p [] p
| Tiles_cons p info n os q :
    load e 4 m (p + 4) = Some info -> info_size info = Ok n ->
    Tiles e m (p + n) os q -> Tiles e m p (p :: os) q.

(** The index of the type records: [types_size] slots, and unless it is still
    empty, [btf_void] in slot 0 and a free slot behind the last type. *)
Definition slots_inv (b : btf) : Prop :=
  zlen (types b) = types_size b /\ types_size b <= BTF_MAX_NR_TYPES /\
  ((nr_types b = 0 /\ types_size b = 0) \/
   (1 <= nr_types b < types_size b /\ znth (types b) 0 = Some (Some btf_void))).

(** [b'] is [b] with the records at [os] added to the index. *)
Definition extended (b b' : btf) (os : list Z) : Prop :=
  data b' = data b /\ strings b' = strings b /\ nohdr_data b' = nohdr_data b /\
  data_size b' = data_size b /\ fd b' = fd b /\ slots_inv b' /\
  nr_types b' = nr_types b + zlen os /\
  (forall i, 1 <= i <= nr_types b -> znth (types b') i = znth (types b) i) /\
  (forall i o, znth os i = Some o -> znth (types b') (nr_types b + 1 + i) = Some (Some (In_data o))).

(** ** The records of a section *)

Lemma info_size_range info n : info_size info = Ok n -> 12 <= n <= 12 + 12 * 65535.
Proof.
  unfold info_size. cbv zeta.
  assert (0 <= BTF_INFO_VLEN info <= 65535).
  { unfold BTF_INFO_VLEN. change 65535 with (Z.ones 16). rewrite Z.land_ones by lia.
    pose proof (Z.mod_pos_bound info (2 ^ 16)). change (Z.ones 16) with 65535. lia. }
  repeat case_match; intros [= <-];
    unfold sizeof_btf_type, sizeof_btf_enum, sizeof_btf_array, sizeof_btf_member, sizeof_btf_param;
    lia.
Qed.

Lemma Tiles_end e m p os q : Tiles e m p os q -> p + 12 * zlen os <= q.
Proof.
  induction 1 as [p|p info n os q _ Hn _ IH]; [change (@zlen Z []) with 0; lia|].
  rewrite zlen_cons. apply info_size_range in Hn. lia.
Qed.

(** The records below a bound are determined by the bytes. *)
Lemma Tiles_det e m p os q os' q' end_ :
  Tiles e m p os q -> Tiles e m p os' q' ->
  Forall (fun o => o < end_) os -> Forall (fun o => o < end_) os' ->
  end_ <= q -> end_ <= q' -> os = os' /\ q = q'.
Proof.
  intros H. revert os' q'. induction H as [p|p info n os q Hi Hn H IH]; intros os' q' H' F F' L L'.
  - destruct H' as [|? ? ? ? ? _ _ ?]; [done|]. inversion F'; subst. lia.
  - inversion H' as [|? info' n' os0 ? Hi' Hn' H2]; subst; [inversion F; subst; lia|].
    rewrite Hi in Hi'. injection Hi' as <-. rewrite Hn in Hn'. injection Hn' as <-.
    apply List.Forall_cons_iff in F as [_ F]. apply List.Forall_cons_iff in F' as [_ F'].
    by destruct (IH os0 q' H2 F F' L L') as [<- <-].
Qed.

(** ** Growing the index *)

Lemma zlen_realloc_slots {A} n (l : list (option A)) : 0 <= n -> zlen (realloc_slots n l) = n.
Proof. intros. unfold zlen, realloc_slots. rewrite length_resize. lia. Qed.

Lemma znth_realloc_slots {A} n (l : list (option A)) i :
  zlen l <= n -> i < zlen l -> znth (realloc_slots n l) i = znth l i.
Proof.
  unfold znth, realloc_slots, zlen. intros. case_decide; [|done].
  apply lookup_resize; lia.
Qed.

(** An index with a free slot behind its last type. *)
Definition has_slot (b : btf) : Prop :=
  zlen (types b) = types_size b /\ types_size b <= BTF_MAX_NR_TYPES /\
  znth (types b) 0 = Some (Some btf_void) /\ 0 <= nr_types b /\ nr_types b + 1 < types_size b.

Ltac btf_fields :=
  cbn [data strings nohdr_data data_size fd nr_types types types_size mbind option_bind outcome_bind].

Lemma write_slot b b1 o :
  has_slot b1 ->
  data b1 = data b -> strings b1 = strings b -> nohdr_data b1 = nohdr_data b ->
  data_size b1 = data_size b -> fd b1 = fd b -> nr_types b1 = nr_types b ->
  (forall i, 1 <= i <= nr_types b -> znth (types b1) i = znth (types b) i) ->
  exists b', (ts ← zset (types b1) (nr_types b1 ⊞ 1) (Some (In_data o));
    Some (Ok (Btf (data b1) ts (strings b1) (nohdr_data b1) (nr_types b1 ⊞ 1) (types_size b1)
      (data_size b1) (fd b1)))) = Some (Ok b') /\ extended b b' [o].
Proof.
  intros (Hl1 & Hm1 & Hv & Hn0 & Hn) D1 D2 D3 D4 D5 D6 Hold. unfold BTF_MAX_NR_TYPES in *.
  rewrite !(wrap_small 32 (nr_types b1 + 1)) by (unfold in_range; lia).
  destruct (proj2 (zset_is_Some (types b1) (nr_types b1 + 1) (Some (In_data o)))) as [ts Ets]; [lia|].
  rewrite Ets. cbn [mbind option_bind]. eexists; split; [done|].
  pose proof (zlen_zset _ _ _ _ Ets) as Hlt.
  unfold extended, slots_inv, BTF_MAX_NR_TYPES. btf_fields.
  split_and!; try done; try lia.
  - right. split; [lia|]. rewrite (znth_zset _ _ _ _ _ Ets), decide_False by lia. done.
  - rewrite D6. done.
  - intros i Hi. rewrite (znth_zset _ _ _ _ _ Ets), decide_False by lia. by apply Hold.
  - intros i o' Ho. pose proof (znth_Some_range _ _ _ Ho) as Hi. change (zlen [o]) with 1 in Hi.
    assert (i = 0) as -> by lia. change (znth [o] 0) with (Some o) in Ho. simplify_eq.
    rewrite (znth_zset _ _ _ _ _ Ets), decide_True by lia. done.
Qed.

(** The reallocation grants at least one more slot. *)
Lemma new_size_spec size :
  0 <= size < BTF_MAX_NR_TYPES ->
  let ns := Z.min BTF_MAX_NR_TYPES (size ⊞ Z.max (Z.shiftr size 2) 16) in
  size + 1 <= ns <= BTF_MAX_NR_TYPES /\ 2 <= ns.
Proof.
  unfold BTF_MAX_NR_TYPES. intros Hs. cbv zeta.
  assert (0 <= Z.shiftr size 2 <= size) as Hsh.
  { rewrite Z.shiftr_div_pow2 by lia. change (2 ^ 2) with 4. split; [apply Z.div_pos; lia|].
    apply Z.div_le_upper_bound; lia. }
  set (ex := Z.max _ 16) in *. assert (16 <= ex <= size + 16) by lia.
  rewrite (wrap_small 32 (size + ex)) by (unfold in_range; lia). lia.
Qed.

Lemma btf_add_type_spec alloc b o :
  slots_inv b ->
  (exists b', btf_add_type alloc b (In_data o) = Some (Ok b') /\ extended b b' [o]) \/
  (btf_add_type alloc b (In_data o) = Some (Err (- ENOMEM)) /\ exists n, alloc n = false) \/
  (btf_add_type alloc b (In_data o) = Some (Err (- E2BIG)) /\ BTF_MAX_NR_TYPES <= nr_types b + 1).
Proof.
  intros (Hl & Hmax & Hnr). unfold btf_add_type. pose proof (zlen_nonneg (types b)) as Hn0.
  rewrite (wrap_small 32 (types_size b - nr_types b)) by (unfold in_range, BTF_MAX_NR_TYPES in *; lia).
  destruct (Z.ltb_spec (types_size b - nr_types b) 2) as [Hs|Hs]; cycle 1.
  { left. apply write_slot; try done. unfold has_slot.
    split_and!; try done; try lia. destruct Hnr as [?|[? ?]]; [lia|done]. }
  destruct (Z.eqb_spec (types_size b) BTF_MAX_NR_TYPES) as [E|E].
  { right; right. split; [done|]. unfold BTF_MAX_NR_TYPES in *. lia. }
  pose proof (new_size_spec (types_size b) ltac:(lia)) as Hns. cbv zeta in *.
  set (ns := Z.min _ _) in *. destruct (alloc (sizeof_pointer * ns)) eqn:Ea; cbn [negb]; cycle 1.
  { right; left. eauto. }
  left. pose proof (zlen_realloc_slots ns (types b) ltac:(lia)) as Hlr.
  destruct (Z.eqb_spec (nr_types b) 0) as [E0|E0]; cycle 1.
  - apply (write_slot b (Btf (data b) (realloc_slots ns (types b)) (strings b) (nohdr_data b)
      (nr_types b) ns (data_size b) (fd b))); btf_fields; try done.
    + unfold has_slot. btf_fields. split_and!; try done; try lia.
      rewrite znth_realloc_slots by lia. by destruct Hnr as [[? ?]|[? ?]]; [lia|].
    + intros i Hi. apply znth_realloc_slots; lia.
  - destruct (proj2 (zset_is_Some (realloc_slots ns (types b)) 0 (Some btf_void))) as [ts Ets]; [lia|].
    rewrite Ets. pose proof (zlen_zset _ _ _ _ Ets).
    apply (write_slot b (Btf (data b) ts (strings b) (nohdr_data b)
      (nr_types b) ns (data_size b) (fd b))); btf_fields; try done; [|lia].
    unfold has_slot. btf_fields. split_and!; try done; try lia.
    by rewrite (znth_zset _ _ _ _ _ Ets), decide_True by lia.
Qed.

Lemma extended_refl b : slots_inv b -> extended b b [].
Proof.
  intros. unfold extended. change (@zlen Z []) with 0. split_and!; try done; [lia|].
  intros i o Ho%znth_Some_range. change (@zlen Z []) with 0 in Ho. lia.
Qed.

Lemma extended_cons b b1 b2 o os :
  0 <= nr_types b -> extended b b1 [o] -> extended b1 b2 os -> extended b b2 (o :: os).
Proof.
  unfold extended. rewrite (zlen_cons o os). change (zlen [o]) with 1.
  intros Hn (D1 & D2 & D3 & D4 & D5 & _ & N1 & O1 & W1) (E1 & E2 & E3 & E4 & E5 & I & N2 & O2 & W2).
  split_and!; try congruence; [lia| |].
  - intros i Hi. rewrite O2 by lia. by apply O1.
  - intros i x Hx. pose proof (znth_Some_range _ _ _ Hx) as Hi. rewrite zlen_cons in Hi.
    destruct (decide (i = 0)) as [->|Hi0].
    + change (Some o = Some x) in Hx. injection Hx as ->. rewrite O2 by lia. by apply (W1 0).
    + replace (nr_types b + 1 + i) with (nr_types b1 + 1 + (i - 1)) by lia. apply W2.
      rewrite <- Hx. change (o :: os) with ([o] ++ os).
      replace i with (zlen [o] + (i - 1)) at 2 by (change (zlen [o]) with 1; lia).
      symmetry. apply znth_app_r. lia.
Qed.

Lemma slots_inv_nonneg b : slots_inv b -> 0 <= nr_types b.
Proof. unfold slots_inv. lia. Qed.

(** What the loop adds is exactly the tiling of the section. *)
Lemma parse_types_ok e alloc fuel b p end_ b' :
  slots_inv b -> parse_types e alloc fuel b p end_ = Some (Ok b') ->
  exists os q, Tiles e (data b) p os q /\ Forall (fun o => o < end_) os /\ end_ <= q /\ extended b b' os.
Proof.
  revert b p. induction fuel as [|fuel IH]; intros b p Hs; cbn [parse_types]; [done|].
  destruct (Z.ltb_spec p end_) as [Hp|Hp]; cycle 1.
  { intros [= <-]. exists [], p. split_and!; [constructor|done|done|by apply extended_refl]. }
  rewrite outcome_bind_ok. intros (n & Hsz & H). rewrite outcome_bind_ok in H.
  destruct H as (b1 & Hadd & H). unfold btf_type_size, t_info, type_field in Hsz.
  destruct (load e 4 (data b) (p + 4)) as [info|] eqn:Ei; [|done]. injection Hsz as Hsz.
  destruct (btf_add_type_spec alloc b p Hs) as [(b1' & E & Hext)|[[E _]|[E _]]];
    rewrite E in Hadd; simplify_eq.
  pose proof Hext as (D1 & _ & _ & _ & _ & Hs1 & _).
  destruct (IH b1 (p + n) Hs1 H) as (os & q & T & F & L & X).
  exists (p :: os), q. split_and!; [|by constructor|done|].
  - econstructor; [done|done|]. by rewrite <- D1.
  - eapply extended_cons; [by apply slots_inv_nonneg|done|done].
Qed.

(** Enough fuel is the length of the section; the only reads are the [info]
    words of records that start inside it. *)
Lemma parse_types_defined e alloc fuel b p end_ :
  slots_inv b -> Z.max 0 (end_ - p) < Z.of_nat fuel -> 0 <= p -> end_ + 7 <= zlen (data b) ->
  is_Some (parse_types e alloc fuel b p end_).
Proof.
  revert b p. induction fuel as [|fuel IH]; intros b p Hs Hf Hp He; cbn [parse_types].
  { lia. }
  destruct (Z.ltb_spec p end_); [|done].
  destruct (load_ex e 4 (data b) (p + 4)) as [info Ei]; [lia|lia|].
  unfold btf_type_size, t_info, type_field. rewrite Ei. cbn [mbind option_bind outcome_bind].
  destruct (info_size info) as [n|] eqn:En; cbn [outcome_bind]; [|done].
  apply info_size_range in En.
  destruct (btf_add_type_spec alloc b p Hs) as [(b1 & E & Hext)|[[E _]|[E _]]];
    rewrite E; cbn [outcome_bind]; [|done..].
  destruct Hext as (D1 & _ & _ & _ & _ & Hs1 & _). apply IH; [done|lia|lia|]. by rewrite D1.
Qed.

Lemma parse_types_exists e alloc fuel b p os q end_ :
  slots_inv b -> Z.max 0 (end_ - p) < Z.of_nat fuel -> (forall n, alloc n = true) ->
  Tiles e (data b) p os q -> Forall (fun o => o < end_) os -> end_ <= q ->
  nr_types b + zlen os < BTF_MAX_NR_TYPES ->
  exists b', parse_types e alloc fuel b p end_ = Some (Ok b').
Proof.
  intros Hs Hf Ha T. remember (data b) as m eqn:Hm.
  revert b Hs fuel Hf Hm. induction T as [p|p info n os q Ei En T IH]; intros b Hs fuel Hf Hm F L N;
    (destruct fuel as [|fuel]; [|cbn [parse_types]]).
  - lia.
  - rewrite (proj2 (Z.ltb_ge p end_)) by lia. eauto.
  - lia.
  - apply List.Forall_cons_iff in F as [Hp F]. rewrite (proj2 (Z.ltb_lt p end_)) by lia.
    unfold btf_type_size, t_info, type_field. rewrite <- Hm, Ei. cbn [mbind option_bind outcome_bind].
    rewrite En. cbn [outcome_bind]. rewrite zlen_cons in N. pose proof (zlen_nonneg os).
    apply info_size_range in En.
    destruct (btf_add_type_spec alloc b p Hs) as [(b1 & E & Hext)|[[_ [k E]]|[_ E]]];
      [|by rewrite Ha in E|unfold BTF_MAX_NR_TYPES in *; lia].
    rewrite E. cbn [outcome_bind]. destruct Hext as (D1 & _ & _ & _ & _ & Hs1 & N1 & _).
    apply IH; try done; [lia|by rewrite D1|]. rewrite N1. change (zlen [p]) with 1. lia.
Qed.

(** ** The header and the string table *)

(** The bytes [m] begin with a header that [btf_parse_hdr] accepts. *)
Definition valid_hdr (e : endian) (m : list Z) (type_off str_off str_len : Z) : Prop :=
  sizeof_btf_header < zlen m /\
  load e 2 m 0 = Some BTF_MAGIC /\ load e 1 m 2 = Some BTF_VERSION /\ load e 1 m 3 = Some 0 /\
  load e 4 m 8 = Some type_off /\ load e 4 m 16 = Some str_off /\ load e 4 m 20 = Some str_len /\
  Z.land type_off 0x02 = 0 /\ type_off < str_off <= zlen m - sizeof_btf_header.

(** The object [btf__new] starts from. *)
Definition fresh_btf (m : list Z) : btf := Btf m [] 0 0 0 0 (zlen m) (-1).
Definition with_hdr (m : list Z) : btf := Btf m [] 0 sizeof_btf_header 0 0 (zlen m) (-1).
Definition with_strings (m : list Z) (str_off : Z) : btf :=
  Btf m [] (sizeof_btf_header + str_off) sizeof_btf_header 0 0 (zlen m) (-1).

Lemma btf_parse_hdr_cases e m :
  in_range 32 (zlen m) ->
  (exists type_off str_off str_len, valid_hdr e m type_off str_off str_len /\
     btf_parse_hdr e (fresh_btf m) = Some (Ok (with_hdr m))) \/
  ((forall type_off str_off str_len, ~ valid_hdr e m type_off str_off str_len) /\
   exists err, btf_parse_hdr e (fresh_btf m) = Some (Err err)).
Proof.
  intros Hm. unfold btf_parse_hdr, valid_hdr, hdr_magic, hdr_version, hdr_flags, hdr_type_off, hdr_str_off.
  cbn [fresh_btf data data_size types strings nr_types types_size fd nohdr_data]. unfold in_range in Hm.
  destruct (Z.ltb_spec (zlen m) sizeof_btf_header) as [H0|H0].
  { right. split; [intros ? ? ? (? & _); unfold sizeof_btf_header in *; lia|eauto]. }
  unfold sizeof_btf_header in *.
  destruct (load_ex e 2 m 0) as [magic E1]; [lia|lia|].
  destruct (load_ex e 1 m 2) as [version E2]; [lia|lia|].
  destruct (load_ex e 1 m 3) as [flags E3]; [lia|lia|].
  destruct (load_ex e 4 m 8) as [type_off E4]; [lia|lia|].
  destruct (load_ex e 4 m 16) as [str_off E5]; [lia|lia|].
  destruct (load_ex e 4 m 20) as [str_len E6]; [lia|lia|].
  rewrite E1, E2, E3, E4, E5, E6. cbn [mbind option_bind].
  rewrite (wrap_small 32 (zlen m - 24)) by (unfold in_range; lia).
  repeat match goal with
  | |- context [negb (?a =? ?b)] => destruct (Z.eqb_spec a b); cbn [negb]
  | |- context [if ?a =? ?b then _ else _] => destruct (Z.eqb_spec a b)
  | |- context [if ?a <? ?b then _ else _] => destruct (Z.ltb_spec a b)
  | |- context [if ?a <=? ?b then _ else _] => destruct (Z.leb_spec a b)
  end;
  try (right; split; [intros ? ? ? (? & ? & ? & ? & ? & ? & ? & ? & ?); simplify_eq; first [congruence|lia]|by eauto]).
  left. exists type_off, str_off, str_len. split_and!; try congruence; try lia; done.
Qed.

(** The two bytes the check of the string table reads; with the table inside
    the section both are. *)
Lemma btf_parse_str_sec_cases e m type_off str_off str_len :
  valid_hdr e m type_off str_off str_len -> 0 <= str_off -> in_range 32 str_len ->
  let start := sizeof_btf_header + str_off in
  btf_parse_str_sec e (with_hdr m) =
    if (str_len =? 0) || (2 ^ 31 <? str_len) then Some (Err (- EINVAL)) else
    first ← load e 1 m start;
    if negb (first =? 0) then Some (Err (- EINVAL)) else
    last ← load e 1 m (start + str_len - 1);
    if negb (last =? 0) then Some (Err (- EINVAL)) else Some (Ok (with_strings m str_off)).
Proof.
  intros (_ & _ & _ & _ & _ & E5 & E6 & _) H0 Hl. cbv zeta.
  unfold btf_parse_str_sec, hdr_str_off, hdr_str_len. cbn [with_hdr data nohdr_data].
  rewrite E5, E6. cbn [mbind option_bind]. unfold in_range in Hl.
  destruct (Z.eqb_spec str_len 0) as [|Hz]; [done|]. cbn [orb].
  rewrite (wrap_small 32 (str_len - 1)) by (unfold in_range; lia). unfold BTF_MAX_STR_OFFSET.
  destruct (Z.ltb_spec 0x7fffffff (str_len - 1)); destruct (Z.ltb_spec (2 ^ 31) str_len); try lia; done.
Qed.

Lemma valid_hdr_ranges e m type_off str_off str_len :
  bytes_ok m -> valid_hdr e m type_off str_off str_len ->
  0 <= type_off /\ 0 <= str_off /\ in_range 32 str_len.
Proof.
  intros Hb (_ & _ & _ & _ & E4 & E5 & E6 & _).
  apply load_range in E4, E5, E6; [|done..]. unfold in_range in *. cbn in E6. lia.
Qed.

Lemma btf_new_unfold e alloc src size :
  in_range 32 size -> size <= zlen src -> (forall n, alloc n = true) ->
  let m := take (Z.to_nat size) src in
  btf__new e alloc src size =
    let? b := btf_parse_hdr e (fresh_btf m) in
    let? b := btf_parse_str_sec e b in
    btf_parse_type_sec e alloc b.
Proof.
  intros Hs Hl Ha. cbv zeta. unfold btf__new, get_bytes. rewrite !Ha. cbn [negb].
  unfold in_range in Hs. rewrite decide_True by lia. change (Z.to_nat 0) with 0%nat. rewrite drop_0.
  cbn [mbind option_bind]. unfold fresh_btf. do 3 f_equal. unfold zlen in *. rewrite length_take. lia.
Qed.

Lemma slots_inv_with_strings m str_off : slots_inv (with_strings m str_off).
Proof.
  unfold slots_inv, with_strings, BTF_MAX_NR_TYPES. cbn. change (@zlen (option type_ptr) []) with 0.
  split_and!; [done|lia|by left].
Qed.

Lemma str_sec_ok e m type_off str_off str_len b :
  bytes_ok m -> valid_hdr e m type_off str_off str_len ->
  btf_parse_str_sec e (with_hdr m) = Some (Ok b) ->
  b = with_strings m str_off /\ 0 < str_len <= 2 ^ 31 /\
  load e 1 m (sizeof_btf_header + str_off) = Some 0 /\
  load e 1 m (sizeof_btf_header + str_off + str_len - 1) = Some 0.
Proof.
  intros Hb Hv. destruct (valid_hdr_ranges _ _ _ _ _ Hb Hv) as (Ht & Hs & Hl).
  rewrite (btf_parse_str_sec_cases _ _ _ _ _ Hv Hs Hl). unfold in_range in Hl.
  destruct (Z.eqb_spec str_len 0); [done|]. destruct (Z.ltb_spec (2 ^ 31) str_len); [done|]. cbn [orb].
  destruct (load e 1 m (sizeof_btf_header + str_off)) as [first|] eqn:E1; [|done]. cbn [mbind option_bind].
  destruct (Z.eqb_spec first 0) as [->|]; [|done]. cbn [negb].
  destruct (load e 1 m (sizeof_btf_header + str_off + str_len - 1)) as [last|] eqn:E2; [|done]. cbn [mbind option_bind].
  destruct (Z.eqb_spec last 0) as [->|]; [|done]. intros [= <-]. split_and!; try done; lia.
Qed.

(** The index [b] built from the bytes [m]: ids from 1 on name the records
    that tile the type section, 0 is [void], and there are no other types. *)
Definition indexes (e : endian) (m : list Z) (type_off str_off : Z) (b : btf) : Prop :=
  exists os q, Tiles e m (sizeof_btf_header + type_off) os q /\
    Forall (fun o => o < sizeof_btf_header + str_off) os /\ sizeof_btf_header + str_off <= q /\
    data b = m /\ strings b = sizeof_btf_header + str_off /\ data_size b = zlen m /\
    nr_types b = zlen os /\ 0 < zlen os < BTF_MAX_NR_TYPES /\
    btf__type_by_id b 0 = Some (Some btf_void) /\
    (forall i o, znth os i = Some o -> btf__type_by_id b (i + 1) = Some (Some (In_data o))) /\
    (forall id, zlen os < id -> btf__type_by_id b id = Some None).

Lemma extended_indexes e m type_off str_off os q b :
  extended (with_strings m str_off) b os -> type_off < str_off ->
  Tiles e m (sizeof_btf_header + type_off) os q ->
  Forall (fun o => o < sizeof_btf_header + str_off) os -> sizeof_btf_header + str_off <= q ->
  indexes e m type_off str_off b.
Proof.
  intros (D1 & D2 & _ & D4 & _ & Hs & N & _ & W) Ht T F L. cbn in D1, D2, D4, N.
  assert (0 < zlen os) as Hpos.
  { destruct os; [inversion T; subst; lia|]. rewrite zlen_cons. pose proof (zlen_nonneg os). lia. }
  destruct Hs as (Hl & Hm & [[? ?]|[Hr Hv]]); [lia|].
  exists os, q. unfold btf__type_by_id. rewrite N. split_and!; try done; try lia.
  - rewrite (proj2 (Z.ltb_ge _ _)) by lia. by rewrite Hv.
  - intros i o Ho. pose proof (znth_Some_range _ _ _ Ho). rewrite (proj2 (Z.ltb_ge _ _)) by lia.
    specialize (W i o Ho). change (nr_types (with_strings m str_off)) with 0 in W.
    replace (i + 1) with (0 + 1 + i) by lia. by rewrite W.
  - intros id Hid. by rewrite (proj2 (Z.ltb_lt _ _)) by lia.
Qed.


(** Nothing relates the string table to the size of the data: [btf__new] reads
    inside its copy when the table lies inside and leaves eight bytes behind the
    last type, but a table whose length reaches beyond the copy is read there. *)
Theorem btf_new_bounds e alloc src size type_off str_off str_len :
  bytes_ok src -> in_range 32 size -> size <= zlen src -> (forall n, alloc n = true) ->
  let m := take (Z.to_nat size) src in
  valid_hdr e m type_off str_off str_len ->
  (sizeof_btf_header + str_off + Z.max 7 str_len <= size ->
     is_Some (btf__new e alloc src size)) /\
  (sizeof_btf_header + str_off + str_len > size -> str_len <= 2 ^ 31 ->
     default 0 (load e 1 m (sizeof_btf_header + str_off)) = 0 ->
     btf__new e alloc src size = None).
Proof.
  intros Hb Hs Hl Ha. cbv zeta. rewrite btf_new_unfold by done. cbv zeta. set (m := take _ src). intros Hv.
  assert (zlen m = size) as Hm.
  { unfold m, zlen, in_range in *. rewrite length_take. lia. }
  assert (bytes_ok m) as Hbm by by apply Forall_take.
  destruct (btf_parse_hdr_cases e m) as [(t & s & l & _ & E)|[Hn _]]; [by rewrite Hm| |by destruct (Hn _ _ _ Hv)].
  rewrite E. cbn [outcome_bind]. destruct (valid_hdr_ranges _ _ _ _ _ Hbm Hv) as (Ht & H0 & Hr).
  rewrite (btf_parse_str_sec_cases _ _ _ _ _ Hv H0 Hr). unfold sizeof_btf_header, in_range in *.
  pose proof Hv as (Hsz & _ & _ & _ & E4 & E5 & _ & _ & Hto). unfold sizeof_btf_header in *. split.
  - intros Hin. destruct (Z.eqb_spec str_len 0); [done|].
    destruct (Z.ltb_spec (2 ^ 31) str_len); [done|]. cbn [orb].
    destruct (load_ex e 1 m (24 + str_off)) as [v1 L1]; [lia|lia|].
    destruct (load_ex e 1 m (24 + str_off + str_len - 1)) as [v2 L2]; [lia|lia|].
    rewrite L1, L2. cbn [mbind option_bind]. destruct (v1 =? 0), (v2 =? 0); cbn [negb outcome_bind]; try done.
    unfold btf_parse_type_sec, hdr_type_off, hdr_str_off. cbn [data nohdr_data with_strings].
    rewrite E4, E5. cbn [mbind option_bind].
    apply parse_types_defined; [apply slots_inv_with_strings|lia| |]; unfold sizeof_btf_header; cbn [data with_strings]; lia.
  - intros Hout Hlen. rewrite (proj2 (Z.eqb_neq str_len 0)), (proj2 (Z.ltb_ge _ _)) by lia. cbn [orb].
    destruct (load e 1 m (24 + str_off)) as [v1|]; [|done]. cbn. intros ->. cbn [negb Z.eqb].
    destruct (load e 1 m (24 + str_off + str_len - 1)) as [v2|] eqn:L2; [|done].
    assert (is_Some (load e 1 m (24 + str_off + str_len - 1))) as Hd by by rewrite L2.
    apply load_is_Some in Hd. lia.
Qed.

(** ** Writing a section and reading it back *)

Lemma zlen_encode_words e ws : zlen (encode_words e ws) = 4 * zlen ws.
Proof.
  induction ws as [|w ws IH]; [done|]. unfold encode_words in *. cbn [flat_map].
  rewrite zlen_app, zlen_cons, IH. unfold zlen at 1. rewrite length_split. lia.
Qed.

Lemma load_encode_words e pre w ws post :
  in_range 32 w -> load e 4 (pre ++ encode_words e (w :: ws) ++ post) (zlen pre) = Some w.
Proof.
  intros Hw. replace (zlen pre) with (zlen pre + 0) by lia. rewrite load_app_r by lia.
  unfold encode_words. cbn [flat_map]. rewrite <- app_assoc, load_split.
  by rewrite wrap_small.
Qed.

Lemma encode_words_cons e w ws post :
  encode_words e (w :: ws) ++ post = split e 4 w ++ encode_words e ws ++ post.
Proof. unfold encode_words. cbn [flat_map]. by rewrite <- app_assoc. Qed.

Lemma load_words_encode e pre ws post :
  Forall (in_range 32) ws ->
  load_words e (length ws) (pre ++ encode_words e ws ++ post) (zlen pre) = Some ws.
Proof.
  intros H. revert pre. induction H as [|w ws Hw _ IH]; intros pre; [done|].
  cbn [load_words length]. rewrite load_encode_words by done. cbn [mbind option_bind].
  specialize (IH (pre ++ split e 4 w)). rewrite zlen_app in IH.
  replace (zlen (split e 4 w)) with 4 in IH by (unfold zlen; by rewrite length_split).
  rewrite <- app_assoc in IH. rewrite encode_words_cons, IH. done.
Qed.

Lemma desc_at_encode e pre d post :
  desc_ok d -> desc_at e (pre ++ encode_words e (desc_words d) ++ post) (zlen pre) = Some d /\
  load e 4 (pre ++ encode_words e (desc_words d) ++ post) (zlen pre + 4) = Some (d_info d).
Proof.
  intros [Hw Hn]. assert (load e 4 (pre ++ encode_words e (desc_words d) ++ post) (zlen pre + 4)
    = Some (d_info d)) as Hi.
  { unfold desc_words in *. rewrite encode_words_cons.
    pose proof (load_encode_words e (pre ++ split e 4 (d_name_off d)) (d_info d) (d_size d :: d_extra d) post) as L.
    rewrite zlen_app, <- app_assoc in L. unfold zlen in L at 2. rewrite length_split in L. apply L.
    by apply List.Forall_cons_iff in Hw as [_ [Hw _]%List.Forall_cons_iff]. }
  split; [|done]. unfold desc_at. rewrite Hi. cbn [mbind option_bind]. rewrite Hn.
  replace (Z.to_nat (4 * zlen (desc_words d) / 4)) with (length (desc_words d)).
  - rewrite load_words_encode by done. by destruct d.
  - rewrite Z.mul_comm, Z.div_mul by lia. unfold zlen. lia.
Qed.

Lemma Tiles_encode e pre ds post :
  Forall desc_ok ds ->
  exists os, Tiles e (pre ++ encode_types e ds ++ post) (zlen pre) os (zlen pre + zlen (encode_types e ds)) /\
    Forall2 (fun d o => desc_at e (pre ++ encode_types e ds ++ post) o = Some d) ds os /\
    Forall (fun o => o < zlen pre + zlen (encode_types e ds)) os.
Proof.
  intros H. revert pre. induction H as [|d ds Hd _ IH]; intros pre.
  { exists []. cbn. change (@zlen Z []) with 0. rewrite Z.add_0_r. split_and!; constructor. }
  destruct (IH (pre ++ encode_words e (desc_words d))) as (os & T & F2 & F).
  unfold encode_types in *. cbn [flat_map]. rewrite <- !app_assoc in *.
  rewrite !zlen_app, !zlen_encode_words in *.
  destruct (desc_at_encode e pre d (encode_types e ds ++ post) Hd) as [Hat Hi].
  pose proof (zlen_nonneg (flat_map (fun d => encode_words e (desc_words d)) ds)).
  assert (12 <= 4 * zlen (desc_words d)) by (apply (info_size_range (d_info d)), Hd).
  exists (zlen pre :: os). split_and!.
  - econstructor; [exact Hi|apply Hd|]. by rewrite Z.add_assoc.
  - by constructor.
  - constructor; [lia|]. eapply List.Forall_impl; [|exact F]. cbn. lia.
Qed.

Lemma load_skip e n w v m p :
  0 <= p -> load e n (split e w v ++ m) (Z.of_nat w + p) = load e n m p.
Proof.
  intros. rewrite <- (load_app_r e (split e w v) m p n) by done.
  unfold zlen. by rewrite length_split.
Qed.

(** The header of an encoded section. *)
Lemma encode_hdr e ds strs :
  let ts := encode_types e ds in
  exists hdr, encode e ds strs = hdr ++ ts ++ strs /\ zlen hdr = sizeof_btf_header /\
    (in_range 32 (zlen ts) -> in_range 32 (zlen strs) -> 0 < zlen ts -> 0 < zlen strs ->
     valid_hdr e (encode e ds strs) 0 (zlen ts) (zlen strs)).
Proof.
  cbv zeta. set (ts := encode_types e ds).
  set (ws := [sizeof_btf_header; 0; zlen ts; zlen ts; zlen strs]).
  exists (split e 2 BTF_MAGIC ++ split e 1 BTF_VERSION ++ split e 1 0 ++ encode_words e ws).
  assert (encode e ds strs = (split e 2 BTF_MAGIC ++ split e 1 BTF_VERSION ++ split e 1 0
    ++ encode_words e ws) ++ ts ++ strs) as Henc.
  { unfold encode. cbv zeta. fold ts ws. by rewrite <- !app_assoc. }
  split; [done|]. split.
  { rewrite !zlen_app, zlen_encode_words. unfold zlen, ws. by rewrite !length_split. }
  intros Ht Hs Hpt Hps. unfold valid_hdr, sizeof_btf_header. rewrite Henc.
  rewrite !zlen_app, zlen_encode_words. change (zlen ws) with 5.
  assert (forall n v, zlen (split e n v) = Z.of_nat n) as Hl by (intros; unfold zlen; by rewrite length_split).
  rewrite !Hl, <- !app_assoc. unfold ws. rewrite !encode_words_cons.
  split_and!; try lia; try done.
  - by rewrite load_split.
  - change 2 with (Z.of_nat 2 + 0) at 1. by rewrite load_skip, load_split by done.
  - change 3 with (Z.of_nat 2 + (Z.of_nat 1 + 0)). by rewrite !load_skip, load_split by done.
  - change 8 with (Z.of_nat 2 + (Z.of_nat 1 + (Z.of_nat 1 + (Z.of_nat 4 + 0)))).
    by rewrite !load_skip, load_split by done.
  - change 16 with (Z.of_nat 2 + (Z.of_nat 1 + (Z.of_nat 1 + (Z.of_nat 4 + (Z.of_nat 4 + (Z.of_nat 4 + 0)))))).
    rewrite !load_skip, load_split by done. f_equal. by apply wrap_small.
  - change 20 with (Z.of_nat 2 + (Z.of_nat 1 + (Z.of_nat 1 + (Z.of_nat 4 + (Z.of_nat 4
      + (Z.of_nat 4 + (Z.of_nat 4 + 0))))))).
    rewrite !load_skip, load_split by done. f_equal. by apply wrap_small.
Qed.

Lemma load_byte e m i v : znth m i = Some v -> load e 1 m i = Some v.
Proof.
  intros H. pose proof (znth_Some_range _ _ _ H) as Hi.
  destruct (get_bytes_ex m i 1) as [bs E]; [lia|lia|]. unfold load. rewrite E. cbn [mbind option_bind].
  pose proof (length_get_bytes _ _ _ _ E). destruct bs as [|x [|? ?]]; [done| |done].
  pose proof (get_bytes_lookup _ _ _ _ 0 E ltac:(lia)) as L. rewrite Nat.add_0_r in L. cbn in L.
  unfold znth in H. case_decide; [|done]. rewrite <- L in H. injection H as ->.
  destruct e; cbn; f_equal; lia.
Qed.

(** Accepting a section whose parts are all in order. *)
Lemma btf_new_accepts e alloc m type_off str_off str_len os q :
  in_range 32 (zlen m) -> (forall n, alloc n = true) ->
  valid_hdr e m type_off str_off str_len -> 0 <= type_off -> 0 <= str_off -> 0 < str_len <= 2 ^ 31 ->
  load e 1 m (sizeof_btf_header + str_off) = Some 0 ->
  load e 1 m (sizeof_btf_header + str_off + str_len - 1) = Some 0 ->
  Tiles e m (sizeof_btf_header + type_off) os q ->
  Forall (fun o => o < sizeof_btf_header + str_off) os -> sizeof_btf_header + str_off <= q ->
  zlen os < BTF_MAX_NR_TYPES ->
  exists b, btf__new e alloc m (zlen m) = Some (Ok b) /\ extended (with_strings m str_off) b os.
Proof.
  intros Hm Ha Hv Ht H0 Hl L1 L2 T F L N.
  rewrite btf_new_unfold by (done || lia). cbv zeta. rewrite take_ge by (unfold zlen; lia).
  destruct (btf_parse_hdr_cases e m) as [(t & s & l & _ & E)|[Hn _]]; [done| |by destruct (Hn _ _ _ Hv)].
  rewrite E. cbn [outcome_bind].
  rewrite (btf_parse_str_sec_cases _ _ _ _ _ Hv) by (done || unfold in_range; lia).
  rewrite (proj2 (Z.eqb_neq str_len 0)), (proj2 (Z.ltb_ge _ _)), L1 by lia. cbn [orb mbind option_bind Z.eqb negb].
  rewrite L2. cbn [mbind option_bind Z.eqb negb outcome_bind].
  pose proof Hv as (_ & _ & _ & _ & E4 & E5 & _ & _ & _).
  unfold btf_parse_type_sec, hdr_type_off, hdr_str_off. cbn [data nohdr_data with_strings].
  rewrite E4, E5. cbn [mbind option_bind].
  destruct (parse_types_exists e alloc (S (Z.to_nat (str_off - type_off))) (with_strings m str_off)
    (sizeof_btf_header + type_off) os q (sizeof_btf_header + str_off)) as [b Hb];
    try done; [apply slots_inv_with_strings|unfold sizeof_btf_header; lia|].
  exists b. split; [done|].
  apply parse_types_ok in Hb as (os' & q' & T' & F' & L' & X); [|apply slots_inv_with_strings].
  destruct (Tiles_det _ _ _ _ _ _ _ _ T T' F F' L L') as [-> _]. done.
Qed.

(** What it takes to be an encodable section. *)
Definition section_ok (e : endian) (ds : list desc) (strs : list Z) : Prop :=
  Forall desc_ok ds /\ ds <> [] /\ strs_ok strs /\ zlen (encode e ds strs) <= 2 ^ 31.

Lemma encode_represents e alloc ds strs :
  section_ok e ds strs -> (forall n, alloc n = true) ->
  exists b, btf__new e alloc (encode e ds strs) (zlen (encode e ds strs)) = Some (Ok b) /\
    represents e b ds strs.
Proof.
  intros (Hds & Hne & [Hs0 Hs1] & Hsz) Ha. pose proof (znth_Some_range _ _ _ Hs0) as Hls.
  destruct (encode_hdr e ds strs) as (hdr & Henc & Hh & Hv).
  destruct (Tiles_encode e hdr ds strs Hds) as (os & T & F2 & F). rewrite <- Henc in *. rewrite Hh in T, F.
  set (m := encode e ds strs) in *. set (ts := encode_types e ds) in *.
  assert (zlen m = sizeof_btf_header + zlen ts + zlen strs) as Hm
    by (rewrite Henc, !zlen_app, Hh; lia).
  unfold sizeof_btf_header in Hm. pose proof (zlen_nonneg ts) as Ht0.
  pose proof (Tiles_end _ _ _ _ _ T) as Hend. unfold zlen at 1 in Hend. rewrite <- (Forall2_length F2) in Hend.
  assert (0 < zlen ds) by (destruct ds; [done|rewrite zlen_cons; pose proof (zlen_nonneg ds); lia]).
  fold (zlen ds) in Hend. assert (zlen os = zlen ds) as Hlos by (unfold zlen; by rewrite (Forall2_length F2)).
  assert (forall i v, znth strs i = Some v -> load e 1 m (sizeof_btf_header + zlen ts + i) = Some v) as Hstr.
  { intros i v Hi. apply load_byte. rewrite Henc, app_assoc.
    replace (sizeof_btf_header + zlen ts) with (zlen (hdr ++ ts)) by (rewrite zlen_app; lia).
    rewrite znth_app_r; [done|]. apply znth_Some_range in Hi. lia. }
  pose proof (Hstr _ _ Hs0) as L1. rewrite Z.add_0_r in L1.
  pose proof (Hstr _ _ Hs1) as L2. rewrite Z.add_sub_assoc in L2.
  specialize (Hv ltac:(unfold in_range; lia) ltac:(unfold in_range; lia) ltac:(lia) ltac:(lia)).
  destruct (btf_new_accepts e alloc m 0 (zlen ts) (zlen strs) os (sizeof_btf_header + zlen ts)) as (b & Hb & X);
    try done; try lia; [unfold in_range; lia|unfold BTF_MAX_NR_TYPES; lia|].
  exists b. split; [done|].
  apply (extended_indexes e m 0 (zlen ts) os (sizeof_btf_header + zlen ts)) in X
    as (os' & q' & T' & F' & L' & D1 & D2 & _ & N & _ & Hv0 & Hty & Hnone); try done; try lia.
  destruct (Tiles_det _ _ _ _ _ _ _ _ T T' F F' (Z.le_refl _) L') as [<- _].
  pose proof Hv as (_ & _ & _ & _ & _ & _ & E6 & _). split; try done; try (by rewrite N).
  - intros i d Hd. pose proof (znth_Some_range _ _ _ Hd) as Hi.
    destruct (proj2 (znth_is_Some os i)) as [o Ho]; [lia|]. exists o. split; [by apply Hty|].
    unfold znth in Hd, Ho. rewrite decide_True in Hd by lia. rewrite decide_True in Ho by lia.
    rewrite D1. destruct (Forall2_lookup_lr _ _ _ _ _ _ F2 Hd Ho). done.
  - intros id Hid. apply Hnone. lia.
  - intros off Hoff. unfold btf__name_by_offset, hdr_str_len. rewrite D1, E6, D2. cbn [mbind option_bind].
    rewrite (proj2 (Z.ltb_lt _ _)) by lia. eexists; split; [done|]. unfold c_string. rewrite D1, Henc, app_assoc.
    f_equal. rewrite drop_app_ge by (rewrite length_app; unfold zlen, sizeof_btf_header in *; lia).
    f_equal. rewrite length_app. unfold zlen, sizeof_btf_header in *. lia.
  - intros off Hoff. unfold btf__name_by_offset, hdr_str_len. rewrite D1, E6. cbn [mbind option_bind].
    by rewrite (proj2 (Z.ltb_ge _ _)) by lia.
Qed.

(** C18. Loading an encoded section succeeds and gives back every type under its
    position, counted from 1, and every string under its offset. *)
Theorem btf_new_encode e alloc ds strs :
  section_ok e ds strs -> (forall n, alloc n = true) ->
  exists b, btf__new e alloc (encode e ds strs) (zlen (encode e ds strs)) = Some (Ok b) /\
    nr_types b = zlen ds /\
    (forall i d, znth ds i = Some d -> read_desc e b (i + 1) = Some d) /\
    (forall off, 0 <= off < zlen strs -> exists p,
       btf__name_by_offset e b off = Some (Some p) /\ c_string b p = cstr (drop (Z.to_nat off) strs)).
Proof.
  intros Hs Ha. destruct (encode_represents e alloc ds strs Hs Ha) as (b & Hb & R).
  exists b. split_and!; [done|apply R| |apply R].
  intros i d Hd. destruct (rep_type _ _ _ _ R i d Hd) as (o & E & D). unfold read_desc. by rewrite E.
Qed.

(** ** The size of a type *)

Lemma load_words_lookup e n m p ws j w :
  load_words e n m p = Some ws -> znth ws j = Some w -> load e 4 m (p + 4 * j) = Some w.
Proof.
  revert p ws j. induction n as [|n IH]; intros p ws j; cbn [load_words].
  { intros [= <-] H%znth_Some_range. change (@zlen Z []) with 0 in H. lia. }
  destruct (load e 4 m p) as [w0|] eqn:E0; [|done]. cbn [mbind option_bind].
  destruct (load_words e n m (p + 4)) as [ws0|] eqn:E; [|done]. intros [= <-] Hj.
  pose proof (znth_Some_range _ _ _ Hj) as Hr. rewrite zlen_cons in Hr.
  destruct (decide (j = 0)) as [->|Hj0].
  - rewrite Z.mul_0_r, Z.add_0_r, E0. exact Hj.
  - replace (p + 4 * j) with (p + 4 + 4 * (j - 1)) by lia. apply (IH _ _ _ E).
    rewrite <- (znth_app_r [w0]) by lia. change (zlen [w0]) with 1.
    by replace (1 + (j - 1)) with j by lia.
Qed.

(** The words of a represented type are read through its pointer. *)
Lemma desc_at_field e b o d j w :
  desc_at e (data b) o = Some d -> znth (desc_words d) j = Some w ->
  type_field e (4 * j) b (In_data o) = Some w.
Proof.
  unfold desc_at, type_field. destruct (load e 4 _ _) as [info|]; [|done]. cbn [mbind option_bind].
  destruct (info_size info) as [n|]; [|done].
  destruct (load_words e _ _ o) as [ws|] eqn:E; [|done]. cbn [mbind option_bind].
  destruct ws as [|w0 [|w1 [|w2 extra]]]; try done. intros [= <-] Hj.
  apply (load_words_lookup _ _ _ _ _ _ _ E Hj).
Qed.

Lemma rep_type_at e b ds strs id d :
  represents e b ds strs -> type_at ds id = Some d ->
  exists o, btf__type_by_id b id = Some (Some (In_data o)) /\ desc_at e (data b) o = Some d.
Proof. intros R Hd. destruct (rep_type _ _ _ _ R _ _ Hd) as (o & E & D). exists o. by rewrite Z.sub_add in E. Qed.

(** Every id names a type, the void type or nothing. *)
Lemma rep_cases e b ds strs id :
  represents e b ds strs -> 0 <= id ->
  (exists d, type_at ds id = Some d) \/
  (type_at ds id = None /\ (btf__type_by_id b id = Some None \/ btf__type_by_id b id = Some (Some btf_void))).
Proof.
  intros R Hid. destruct (type_at ds id) as [d|] eqn:E; [by eauto|]. right. split; [done|].
  apply znth_None in E. destruct (decide (id = 0)) as [->|]; [right; apply R|left; apply R; lia].
Qed.

Lemma modifier_kind k :
  IS_MODIFIER k = true ->
  k = BTF_KIND_TYPEDEF \/ k = BTF_KIND_VOLATILE \/ k = BTF_KIND_CONST \/ k = BTF_KIND_RESTRICT.
Proof. unfold IS_MODIFIER. rewrite !orb_true_iff, !Z.eqb_eq. tauto. Qed.

(** An array record has three more words. *)
Lemma array_extra d :
  desc_ok d -> d_kind d = BTF_KIND_ARRAY ->
  exists elem index count, d_extra d = [elem; index; count].
Proof.
  intros [_ Hn] Hk. unfold info_size in Hn. fold (d_kind d) in Hn. rewrite Hk in Hn.
  change (Ok 24 = Ok (4 * zlen (desc_words d))) in Hn.
  assert (24 = 4 * zlen (desc_words d)) as Hw by congruence. unfold desc_words in Hw. rewrite !zlen_cons in Hw.
  destruct (d_extra d) as [|x0 [|x1 [|x2 [|x3 xs]]]]; unfold zlen in Hw; cbn [length] in Hw; try lia. eauto.
Qed.

Lemma resolve_size_void e fuel b nelems t :
  t = None \/ t = Some btf_void -> resolve_size_loop e fuel b t nelems = Some (Err (- EINVAL)).
Proof. intros [-> | ->]; by destruct fuel. Qed.

Lemma resolve_size_step e fuel b d o nelems :
  desc_at e (data b) o = Some d -> desc_ok d ->
  let k := d_kind d in
  let go id nelems := t ← btf__type_by_id b id; resolve_size_loop e fuel b t nelems in
  resolve_size_loop e (S fuel) b (Some (In_data o)) nelems =
  if is_sized k then Some (total_size nelems (d_size d))
  else if k =? BTF_KIND_PTR then Some (total_size nelems sizeof_pointer)
  else if IS_MODIFIER k then go (d_size d) nelems
  else if k =? BTF_KIND_ARRAY then
    match d_extra d with
    | [elem; _; n] =>
        if negb (nelems =? 0) && (UINT32_MAX / nelems <? n) then Some (Err (- E2BIG))
        else go elem (u32 (nelems * n))
    | _ => None
    end
  else Some (Err (- EINVAL)).
Proof.
  intros D Hok. cbv zeta. cbn [resolve_size_loop].
  pose proof (desc_at_field e b o d 1 (d_info d) D eq_refl) as Hi.
  pose proof (desc_at_field e b o d 2 (d_size d) D eq_refl) as Hs.
  change (4 * 1) with 4 in Hi. change (4 * 2) with 8 in Hs.
  unfold btf_type_is_void, t_info, t_size, t_type, array_type, array_nelems.
  rewrite decide_False by done. rewrite Hi, Hs. cbn [mbind option_bind]. unfold is_sized, IS_MODIFIER.
  fold (d_kind d). destruct (Z.eqb_spec (d_kind d) BTF_KIND_FWD) as [->|Hf]; [done|].
  destruct (_ || _); [done|]. destruct (_ =? BTF_KIND_PTR); [done|]. destruct (_ || _); [done|].
  destruct (Z.eqb_spec (d_kind d) BTF_KIND_ARRAY) as [Hk|]; [|done].
  destruct (array_extra d Hok Hk) as (x0 & x1 & x2 & Ex).
  pose proof (desc_at_field e b o d 3 x0 D) as H3. pose proof (desc_at_field e b o d 5 x2 D) as H5.
  unfold desc_words in H3, H5. rewrite Ex in H3, H5. change (4 * 3) with 12 in H3. change (4 * 5) with 20 in H5.
  rewrite H3, H5, Ex by done. done.
Qed.

(** The checks of the loop, multiplication by multiplication. *)
Fixpoint fits (nelems : Z) (ns : list Z) (s : Z) : bool :=
  match ns with
  | [] => nelems * s <=? UINT32_MAX
  | n :: ns => (nelems * n <=? UINT32_MAX) && fits (nelems * n) ns s
  end.

Lemma product_cons n ns : product (n :: ns) = n * product ns.
Proof. done. Qed.

Lemma fits_spec a ns s :
  a <= UINT32_MAX ->
  fits a ns s = true <->
  (forall k, a * product (take k ns) <= UINT32_MAX) /\ a * product ns * s <= UINT32_MAX.
Proof.
  revert a. induction ns as [|n ns IH]; intros a Ha; cbn [fits].
  - rewrite Z.leb_le. split; [|intros [_ H]; cbn in H; lia].
    intros. split; [|cbn; lia]. intros k. rewrite take_nil. cbn. lia.
  - rewrite andb_true_iff, Z.leb_le. split.
    + intros [Hn H]. apply IH in H as [Hk H]; [|done]. rewrite product_cons. split; [|lia].
      intros [|k]; [cbn; lia|]. rewrite firstn_cons, product_cons. specialize (Hk k). lia.
    + rewrite product_cons. intros [Hk H]. assert (a * n <= UINT32_MAX) as Hn.
      { specialize (Hk 1%nat). change (a * (n * 1) <= UINT32_MAX) in Hk. lia. }
      split; [done|]. apply IH; [done|]. split; [|lia].
      intros k. specialize (Hk (S k)). rewrite firstn_cons, product_cons in Hk. lia.
Qed.

(** The test of the code is the exact overflow test. *)
Lemma overflow_test a n :
  0 <= a -> negb (a =? 0) && (UINT32_MAX / a <? n) = negb (a * n <=? UINT32_MAX).
Proof.
  intros Ha. destruct (Z.eqb_spec a 0) as [->|Hz]; [done|]. cbn [negb andb].
  destruct (Z.ltb_spec (UINT32_MAX / a) n) as [H|H]; destruct (Z.leb_spec (a * n) UINT32_MAX) as [H'|H']; try done.
  - exfalso. apply Z.div_le_lower_bound in H'; lia.
  - exfalso. pose proof (Z.mul_div_le UINT32_MAX a ltac:(lia)). nia.
Qed.

Lemma total_size_spec a s :
  0 <= a -> total_size a s = if a * s <=? UINT32_MAX then Ok (a * s) else Err (- E2BIG).
Proof. intros. unfold total_size. rewrite overflow_test by done. by destruct (_ <=? _). Qed.

Lemma desc_ok_ranges d : desc_ok d -> in_range 32 (d_size d) /\ Forall (in_range 32) (d_extra d).
Proof.
  intros [H _]. unfold desc_words in H.
  by apply List.Forall_cons_iff in H as [_ [_ H]%List.Forall_cons_iff]; apply List.Forall_cons_iff in H.
Qed.

Lemma type_at_ok ds id d : Forall desc_ok ds -> type_at ds id = Some d -> desc_ok d.
Proof.
  unfold type_at, znth. intros H. case_decide; [|done]. intros Hd.
  by apply (proj1 (Forall_lookup _ _) H _ _ Hd).
Qed.

Section resolve.
Context (e : endian) (b : btf) (ds : list desc) (strs : list Z).
Hypothesis R : represents e b ds strs.
Hypothesis Hok : Forall desc_ok ds.

(** The loop on the type with id [id]. *)
Let go fuel id nelems := t ← btf__type_by_id b id; resolve_size_loop e fuel b t nelems.

Lemma go_step fuel id d nelems :
  type_at ds id = Some d ->
  go (S fuel) id nelems =
  if is_sized (d_kind d) then Some (total_size nelems (d_size d))
  else if d_kind d =? BTF_KIND_PTR then Some (total_size nelems sizeof_pointer)
  else if IS_MODIFIER (d_kind d) then go fuel (d_size d) nelems
  else if d_kind d =? BTF_KIND_ARRAY then
    match d_extra d with
    | [elem; _; n] =>
        if negb (nelems =? 0) && (UINT32_MAX / nelems <? n) then Some (Err (- E2BIG))
        else go fuel elem (u32 (nelems * n))
    | _ => None
    end
  else Some (Err (- EINVAL)).
Proof.
  intros Hd. destruct (rep_type_at _ _ _ _ _ _ R Hd) as (o & E & D). unfold go at 1. rewrite E.
  cbn [mbind option_bind]. apply resolve_size_step; [done|]. by apply (type_at_ok ds id).
Qed.

Lemma resolve_sized n id ns s fuel nelems :
  SizeOf ds n id ns s -> (n <= fuel)%nat -> 0 <= nelems <= UINT32_MAX ->
  go fuel id nelems =
    Some (if fits nelems ns s then Ok (nelems * product ns * s) else Err (- E2BIG)).
Proof.
  intros H. revert fuel nelems. induction H as [id d Hd Hk|id d Hd Hk|n id d ns s Hd Hk _ IH
    |n id d elem idx c ns s Hd Hk Hx _ IH]; intros [|fuel] nelems Hf Hn; try lia; rewrite (go_step fuel id d) by done.
  - rewrite Hk, total_size_spec by lia. cbn. by rewrite Z.mul_1_r.
  - rewrite Hk. change (is_sized BTF_KIND_PTR) with false. rewrite Z.eqb_refl, total_size_spec by lia. cbn [fits product fold_right].
    by rewrite Z.mul_1_r.
  - assert (is_sized (d_kind d) = false /\ (d_kind d =? BTF_KIND_PTR) = false) as [-> ->]
      by (apply modifier_kind in Hk as [-> | [-> | [-> | ->]]]; done).
    rewrite Hk. apply IH; [lia|done].
  - rewrite Hk, Hx. change (is_sized BTF_KIND_ARRAY) with false. change (IS_MODIFIER BTF_KIND_ARRAY) with false.
    change (BTF_KIND_ARRAY =? BTF_KIND_PTR) with false. rewrite Z.eqb_refl, overflow_test by lia.
    cbn [fits]. destruct (Z.leb_spec (nelems * c) UINT32_MAX) as [Hc|Hc]; [|done]. cbn [negb andb].
    destruct (desc_ok_ranges d) as [_ Hr]; [by apply (type_at_ok ds id)|].
    rewrite Hx in Hr. apply List.Forall_cons_iff in Hr as [_ [_ [Hr _]%List.Forall_cons_iff]%List.Forall_cons_iff].
    unfold in_range, UINT32_MAX in *. rewrite wrap_small by (unfold in_range; nia).
    rewrite IH by (lia || nia). rewrite product_cons. by rewrite Z.mul_assoc.
Qed.

(** A size is only reported for a chain of types that ends in a sized one. *)
Lemma resolve_ok fuel id nelems r :
  go fuel id nelems = Some (Ok r) -> 0 <= id -> 0 <= nelems <= UINT32_MAX ->
  exists n ns s, SizeOf ds n id ns s /\ (n <= fuel)%nat.
Proof.
  revert id nelems. induction fuel as [|fuel IH]; intros id nelems H Hid Hn.
  { unfold go in H. destruct (btf__type_by_id b id) as [[?|]|]; done. }
  destruct (rep_cases e b ds strs id R Hid) as [[d Hd]|[_ Hv]]; cycle 1.
  { unfold go in H. destruct Hv as [E|E]; rewrite E in H; done. }
  rewrite (go_step fuel id d) in H by done. pose proof (type_at_ok _ _ _ Hok Hd) as Hdo.
  destruct (desc_ok_ranges d Hdo) as [Hs Hr].
  destruct (is_sized (d_kind d)) eqn:E1; [exists 1%nat, [], (d_size d); split; [by apply SizeOf_sized|lia]|].
  destruct (Z.eqb_spec (d_kind d) BTF_KIND_PTR) as [E2|_];
    [exists 1%nat, [], sizeof_pointer; split; [by apply (SizeOf_ptr ds id d)|lia]|].
  destruct (IS_MODIFIER (d_kind d)) eqn:E3.
  { destruct (IH _ _ H) as (n & ns & s & Hso & Hle); [unfold in_range in Hs; lia|done|].
    exists (S n), ns, s. split; [by apply (SizeOf_modifier ds n id d)|lia]. }
  destruct (Z.eqb_spec (d_kind d) BTF_KIND_ARRAY) as [E4|_]; [|done].
  destruct (d_extra d) as [|elem [|index [|c [|]]]] eqn:Ex; try done.
  destruct (_ && _); [done|].
  apply List.Forall_cons_iff in Hr as [Hel _].
  destruct (IH _ _ H) as (n & ns & s & Hso & Hle); [unfold in_range in Hel; lia| |].
  { pose proof (wrap_range 32 (nelems * c)). unfold in_range, UINT32_MAX in *. lia. }
  exists (S n), (c :: ns), s. split; [by apply (SizeOf_array ds n id d elem index)|lia].
Qed.

(** Every id has an answer. *)
Lemma resolve_defined fuel id nelems : 0 <= id -> is_Some (go fuel id nelems).
Proof.
  revert id nelems. induction fuel as [|fuel IH]; intros id nelems Hid.
  { unfold go. destruct (rep_cases e b ds strs id R Hid) as [[d Hd]|[_ [E|E]]]; [|by rewrite E..].
    destruct (rep_type_at _ _ _ _ _ _ R Hd) as (o & E & D). by rewrite E. }
  destruct (rep_cases e b ds strs id R Hid) as [[d Hd]|[_ [E|E]]]; [|by unfold go; rewrite E..].
  rewrite (go_step fuel id d) by done. pose proof (type_at_ok _ _ _ Hok Hd) as Hdo.
  destruct (desc_ok_ranges d Hdo) as [Hs Hr]. unfold in_range in Hs.
  destruct (is_sized _); [done|]. destruct (_ =? BTF_KIND_PTR); [done|].
  destruct (IS_MODIFIER _); [apply IH; lia|].
  destruct (Z.eqb_spec (d_kind d) BTF_KIND_ARRAY) as [E4|_]; [|done].
  destruct (array_extra d Hdo E4) as (elem & index & c & Ex). rewrite Ex in *.
  destruct (_ && _); [done|]. apply List.Forall_cons_iff in Hr as [Hel _]. unfold in_range in Hel. apply IH. lia.
Qed.
End resolve.

Lemma fits_size_fits ns s : fits 1 ns s = true <-> size_fits ns s.
Proof.
  rewrite fits_spec by (unfold UINT32_MAX; lia). unfold size_fits. rewrite Z.mul_1_l.
  split; intros [H1 H2]; (split; [|done]); intros k; specialize (H1 k); lia.
Qed.

Section lookups.
Context (e : endian) (b : btf) (ds : list desc) (strs : list Z).
Hypothesis R : represents e b ds strs.
Hypothesis Hok : Forall desc_ok ds.

Lemma resolve_size_chain n id ns s :
  SizeOf ds n id ns s -> (n <= MAX_RESOLVE_DEPTH)%nat ->
  btf__resolve_size e b id = Some (if fits 1 ns s then Ok (product ns * s) else Err (- E2BIG)).
Proof.
  intros Hs Hn. unfold btf__resolve_size.
  rewrite (resolve_sized e b ds strs R Hok n id ns s) by (done || unfold UINT32_MAX; lia).
  by rewrite Z.mul_1_l.
Qed.

Lemma resolve_size_sized id s :
  0 <= id -> btf__resolve_size e b id = Some (Ok s) <-> sized ds id s.
Proof.
  intros Hid. split.
  - intros H. destruct (resolve_ok e b ds strs R Hok MAX_RESOLVE_DEPTH id 1 s H Hid) as (n & ns & z & Hs & Hn);
      [unfold UINT32_MAX; lia|].
    rewrite (resolve_size_chain n id ns z Hs Hn) in H. destruct (fits 1 ns z) eqn:F; [|done].
    exists n, ns, z. split_and!; [done|done|by apply fits_size_fits|congruence].
  - intros (n & ns & z & Hs & Hn & F & ->). rewrite (resolve_size_chain n id ns z Hs Hn).
    by rewrite (proj2 (fits_size_fits ns z) F).
Qed.

Lemma resolve_size_defined id : 0 <= id -> is_Some (btf__resolve_size e b id).
Proof. by apply (resolve_defined e b ds strs R Hok). Qed.
End lookups.

(** The size of a type is the product of the element counts of its arrays and
    the size at the end of its chain of at most 32 types; -E2BIG says that the
    product overflows 32 bits on the way, and no other id has a size. *)
Theorem resolve_size_spec e alloc ds strs b :
  section_ok e ds strs -> (forall n, alloc n = true) ->
  btf__new e alloc (encode e ds strs) (zlen (encode e ds strs)) = Some (Ok b) ->
  (forall n id ns s, SizeOf ds n id ns s -> (n <= MAX_RESOLVE_DEPTH)%nat ->
     (size_fits ns s -> btf__resolve_size e b id = Some (Ok (product ns * s))) /\
     (~ size_fits ns s -> btf__resolve_size e b id = Some (Err (- E2BIG)))) /\
  (forall id, 0 <= id -> exists r, btf__resolve_size e b id = Some r /\
     forall s, r = Ok s -> sized ds id s).
Proof.
  intros Hs Ha Hb. destruct (encode_represents e alloc ds strs Hs Ha) as (b' & Hb' & R).
  assert (b' = b) as -> by congruence. destruct Hs as [Hok _]. split.
  - intros n id ns s Hc Hn. rewrite (resolve_size_chain e b ds strs R Hok n id ns s Hc Hn).
    pose proof (fits_size_fits ns s) as Hf. destruct (fits 1 ns s).
    + split; [done|]. intros []. by apply Hf.
    + split; [|done]. intros F. by apply Hf in F.
  - intros id Hid. destruct (resolve_size_defined e b ds strs R Hok id Hid) as [r Hr].
    exists r. split; [done|]. intros s ->. by apply (resolve_size_sized e b ds strs R Hok).
Qed.

(** ** Finding a type by name *)

Lemma cstr_is_Some m k : znth m k = Some 0 -> is_Some (cstr m).
Proof.
  revert k. induction m as [|c m IH]; intros k H.
  { apply znth_Some_range in H. change (@zlen Z []) with 0 in H. lia. }
  cbn [cstr]. destruct (Z.eqb_spec c 0) as [|Hc]; [done|].
  destruct (decide (k = 0)) as [->|Hk]; [change (Some c = Some 0) in H; congruence|].
  pose proof (znth_Some_range _ _ _ H) as Hr. destruct (IH (k - 1)) as [t Ht]; [|by rewrite Ht].
  rewrite <- H. change (c :: m) with ([c] ++ m). replace k with (zlen [c] + (k - 1)) at 2
    by (change (zlen [c]) with 1; lia). symmetry. apply znth_app_r. lia.
Qed.

Lemma znth_drop {A} (l : list A) n i : 0 <= n -> 0 <= i -> znth (drop (Z.to_nat n) l) i = znth l (n + i).
Proof. intros. unfold znth. rewrite !decide_True by lia. rewrite lookup_drop. f_equal. lia. Qed.

Section find.
Context (e : endian) (b : btf) (ds : list desc) (strs : list Z).
Hypothesis R : represents e b ds strs.
Hypothesis Hok : Forall desc_ok ds.
Hypothesis Hstrs : strs_ok strs.

(** [strcmp] of a name of the object with a string. *)
Lemma rep_strcmp off nm :
  0 <= off ->
  (name ← btf__name_by_offset e b off;
   match name with
   | Some p => s ← c_string b p; Some (bool_decide (nm = s))
   | None => Some false
   end) = Some (bool_decide (name_at strs off = Some nm)).
Proof.
  intros Ho. unfold name_at. destruct (Z.ltb_spec off (zlen strs)) as [Hl|Hl].
  - destruct (rep_name _ _ _ _ R off) as (p & -> & Hp); [lia|]. cbn [mbind option_bind].
    rewrite Hp. destruct (cstr_is_Some (drop (Z.to_nat off) strs) (zlen strs - 1 - off)) as [t Ht].
    { rewrite znth_drop by lia. rewrite Zplus_minus. apply Hstrs. }
    rewrite Ht. cbn [mbind option_bind]. f_equal. apply bool_decide_ext. split; congruence.
  - rewrite (rep_no_name _ _ _ _ R) by done. cbn [mbind option_bind].
    by rewrite bool_decide_false by done.
Qed.

Lemma find_step fuel nm i d :
  type_at ds i = Some d ->
  find_loop e (S fuel) b nm i =
    if decide (d_name strs d = Some nm) then Some (Ok i) else find_loop e fuel b nm (i + 1).
Proof.
  intros Hd. destruct (rep_type_at _ _ _ _ _ _ R Hd) as (o & E & D). cbn [find_loop].
  unfold btf__type_by_id in E. destruct (_ <? _); [done|].
  destruct (znth (types b) i) as [[t|]|]; try done. cbn [mbind option_bind] in E |- *. injection E as ->.
  pose proof (desc_at_field e b o d 0 (d_name_off d) D eq_refl) as Hnm. change (4 * 0) with 0 in Hnm.
  unfold t_name_off. rewrite Hnm. cbn [mbind option_bind].
  pose proof (type_at_ok _ _ _ Hok Hd) as [Hw _]. apply List.Forall_cons_iff in Hw as [Hno _]. unfold in_range in Hno.
  pose proof (rep_strcmp (d_name_off d) nm ltac:(lia)) as Hc. fold (d_name strs d) in Hc.
  destruct (btf__name_by_offset e b (d_name_off d)) as [name|]; [|done]. cbn [mbind option_bind] in Hc |- *.
  rewrite Hc. cbn [mbind option_bind]. case_bool_decide; case_decide; congruence.
Qed.

Lemma find_loop_spec fuel nm i :
  1 <= i -> i + Z.of_nat fuel = zlen ds + 1 ->
  (forall j d, type_at ds j = Some d -> j < i -> d_name strs d <> Some nm) ->
  (exists k d, first_named ds strs nm k d /\ find_loop e fuel b nm i = Some (Ok k)) \/
  ((forall j d, type_at ds j = Some d -> d_name strs d <> Some nm) /\
     find_loop e fuel b nm i = Some (Err (- ENOENT))).
Proof.
  revert i. induction fuel as [|fuel IH]; intros i Hi Hf Hno.
  - right. split; [|done]. intros j d Hj. apply (Hno j d Hj).
    unfold type_at in Hj. apply znth_Some_range in Hj. lia.
  - destruct (proj2 (znth_is_Some ds (i - 1))) as [d Hd]; [lia|].
    rewrite (find_step fuel nm i d Hd). case_decide as Hn.
    + left. exists i, d. split; [|done]. split_and!; done.
    + apply IH; [lia|lia|]. intros j d' Hj Hlt. destruct (decide (j = i)) as [->|Hne].
      * unfold type_at in Hj. congruence.
      * apply (Hno j d' Hj). lia.
Qed.

Lemma find_by_name_spec nm :
  nm <> lit "void" ->
  (exists k d, first_named ds strs nm k d /\ btf__find_by_name e b nm = Some (Ok k)) \/
  ((forall j d, type_at ds j = Some d -> d_name strs d <> Some nm) /\
     btf__find_by_name e b nm = Some (Err (- ENOENT))).
Proof.
  intros Hv. unfold btf__find_by_name. rewrite bool_decide_false by done. rewrite (rep_nr _ _ _ _ R).
  pose proof (zlen_nonneg ds). apply find_loop_spec; [lia|lia|].
  intros j d Hj. unfold type_at in Hj. apply znth_Some_range in Hj. lia.
Qed.
End find.

(** ** Key and value types of a map *)

(** A structure record has three words for each member. *)
Lemma struct_extra d :
  desc_ok d -> d_kind d = BTF_KIND_STRUCT -> zlen (d_extra d) = 3 * BTF_INFO_VLEN (d_info d).
Proof.
  intros [_ Hn] Hk. unfold info_size in Hn. fold (d_kind d) in Hn. rewrite Hk in Hn.
  change (Ok (12 + BTF_INFO_VLEN (d_info d) * 12) = Ok (4 * zlen (desc_words d))) in Hn.
  assert (12 + BTF_INFO_VLEN (d_info d) * 12 = 4 * zlen (desc_words d)) as Hw by congruence.
  unfold desc_words in Hw. rewrite !zlen_cons in Hw. lia.
Qed.

Lemma first_named_unique ds strs nm id d id' d' :
  first_named ds strs nm id d -> first_named ds strs nm id' d' -> d = d'.
Proof.
  intros (Hd & Hn & Hm) (Hd' & Hn' & Hm'). destruct (Z.lt_trichotomy id id') as [Hlt|[->|Hlt]].
  - by destruct (Hm' _ _ Hd Hlt).
  - congruence.
  - by destruct (Hm _ _ Hd' Hlt).
Qed.

(** The name of the structure that describes a map, as the code spells it. *)
Definition container_text (map_name : str) : str := lit "____btf_map_" ++ map_name.

Lemma container_not_void map_name : take (Z.to_nat (max_name - 1)) (container_text map_name) <> lit "void".
Proof.
  unfold container_text. destruct (Z.to_nat (max_name - 1)) as [|n] eqn:E; [done|].
  change (take (S n) (95 :: lit "___btf_map_" ++ map_name) <> lit "void"). cbn [take].
  intros H. by apply (f_equal (fun l => l !! 0%nat)) in H.
Qed.

(** [d] describes a map whose key has type [k] and size [ks], and whose value
    has type [v] and size [vs]. *)
Definition describes_map (ds : list desc) (d : desc) (k ks v vs : Z) : Prop :=
  d_kind d = BTF_KIND_STRUCT /\ 2 <= BTF_INFO_VLEN (d_info d) /\
  znth (d_extra d) 1 = Some k /\ znth (d_extra d) 4 = Some v /\ sized ds k ks /\ sized ds v vs.

Section map_kv.
Context (e : endian) (b : btf) (ds : list desc) (strs : list Z).
Hypothesis R : represents e b ds strs.
Hypothesis Hok : Forall desc_ok ds.
Hypothesis Hstrs : strs_ok strs.

Lemma map_kv_members d o :
  desc_ok d -> desc_at e (data b) o = Some d -> d_kind d = BTF_KIND_STRUCT -> 2 <= BTF_INFO_VLEN (d_info d) ->
  exists k v, znth (d_extra d) 1 = Some k /\ znth (d_extra d) 4 = Some v /\ 0 <= k /\ 0 <= v /\
    member_type e 0 b (In_data o) = Some k /\ member_type e 1 b (In_data o) = Some v.
Proof.
  intros Hd D Hk Hv. pose proof (struct_extra d Hd Hk) as Hl. destruct (desc_ok_ranges d Hd) as [_ Hr].
  destruct (proj2 (znth_is_Some (d_extra d) 1)) as [k Ek]; [lia|].
  destruct (proj2 (znth_is_Some (d_extra d) 4)) as [v Ev]; [lia|]. exists k, v.
  assert (forall i x, znth (d_extra d) i = Some x -> 0 <= i ->
    0 <= x /\ type_field e (4 * (3 + i)) b (In_data o) = Some x) as Hx.
  { intros i x Hx Hi. split.
    - unfold znth in Hx. case_decide; [|done]. pose proof (proj1 (Forall_lookup _ _) Hr _ _ Hx) as Hxr.
      unfold in_range in Hxr. lia.
    - apply (desc_at_field e b o d _ _ D). unfold desc_words.
      change (d_name_off d :: d_info d :: d_size d :: d_extra d) with
        ([d_name_off d; d_info d; d_size d] ++ d_extra d).
      change 3 with (zlen [d_name_off d; d_info d; d_size d]). by rewrite znth_app_r. }
  destruct (Hx 1 k Ek) as [? H1]; [lia|]. destruct (Hx 4 v Ev) as [? H2]; [lia|]. done.
Qed.

(** The call failed, and the sizes of the description do not fit the map. *)
Ltac refute_map Hkey Hval :=
  eexists; split; [reflexivity|]; intros; split; [done|];
  let E1 := fresh in let E2 := fresh in let S1 := fresh in let S2 := fresh in
  intros (_ & _ & E1 & E2 & S1 & S2);
  pose proof (Hkey _ _ E1 S1); pose proof (Hval _ _ E2 S2); congruence.

Lemma map_kv_container map_name expected_key expected_value id d :
  zlen (container_text map_name) <> max_name ->
  first_named ds strs (take (Z.to_nat (max_name - 1)) (container_text map_name)) id d ->
  btf__find_by_name e b (take (Z.to_nat (max_name - 1)) (container_text map_name)) = Some (Ok id) ->
  exists r, btf__get_map_kv_tids e b map_name expected_key expected_value = Some r /\
    forall k v, r = Ok (k, v) <-> describes_map ds d k expected_key v expected_value.
Proof.
  intros Hlen Hf Hfind. unfold btf__get_map_kv_tids. fold (container_text map_name).
  rewrite (proj2 (Z.eqb_neq _ _) Hlen), Hfind. cbn [outcome_bind].
  destruct Hf as (Hd & _ & _). destruct (rep_type_at _ _ _ _ _ _ R Hd) as (o & E & D).
  rewrite E. cbn [mbind option_bind]. pose proof (type_at_ok _ _ _ Hok Hd) as Hdo.
  pose proof (desc_at_field e b o d 1 (d_info d) D eq_refl) as Hi. change (4 * 1) with 4 in Hi.
  unfold t_info. rewrite Hi. cbn [mbind option_bind]. fold (d_kind d). unfold describes_map.
  destruct (Z.eqb_spec (d_kind d) BTF_KIND_STRUCT) as [Hk|Hk]; cbn [negb orb];
    [|exists (Err (- EINVAL)); split; [done|by intros; split; [|intros [? _]]]].
  destruct (Z.ltb_spec (BTF_INFO_VLEN (d_info d)) 2) as [Hv|Hv];
    [exists (Err (- EINVAL)); split; [done|intros; split; [done|intros (_ & ? & _); lia]]|].
  destruct (map_kv_members d o Hdo D Hk Hv) as (k0 & v0 & Ek & Ev & Hk0 & Hv0 & -> & ->).
  cbn [mbind option_bind].
  assert (forall k s, znth (d_extra d) 1 = Some k -> sized ds k s -> btf__resolve_size e b k0 = Some (Ok s)) as Hkey.
  { intros k s E1 S1. apply (resolve_size_sized e b ds strs R Hok); congruence. }
  assert (forall v s, znth (d_extra d) 4 = Some v -> sized ds v s -> btf__resolve_size e b v0 = Some (Ok s)) as Hval.
  { intros v s E1 S1. apply (resolve_size_sized e b ds strs R Hok); congruence. }
  destruct (resolve_size_defined e b ds strs R Hok k0 Hk0) as [[ks|err] Hks]; rewrite Hks; cbn [outcome_bind];
    [|refute_map Hkey Hval].
  destruct (Z.eqb_spec expected_key ks) as [->|Hne]; cbn [negb]; [|refute_map Hkey Hval].
  destruct (resolve_size_defined e b ds strs R Hok v0 Hv0) as [[vs|err] Hvs]; rewrite Hvs; cbn [outcome_bind];
    [|refute_map Hkey Hval].
  apply (resolve_size_sized e b ds strs R Hok) in Hks; [|done].
  destruct (Z.eqb_spec expected_value vs) as [->|Hne]; cbn [negb]; [|refute_map Hkey Hval].
  apply (resolve_size_sized e b ds strs R Hok) in Hvs; [|done].
  eexists; split; [done|]. intros k v. split.
  - intros [= <- <-]. done.
  - intros (_ & _ & E1 & E2 & _ & _). congruence.
Qed.
End map_kv.

Lemma map_kv_tids_run e ds strs b map_name expected_key expected_value :
  represents e b ds strs -> Forall desc_ok ds -> strs_ok strs ->
  let name := container_text map_name in
  exists r, btf__get_map_kv_tids e b map_name expected_key expected_value = Some r /\
    (zlen name = max_name -> r = Err (- EINVAL)) /\
    (zlen name <> max_name ->
     forall k v, r = Ok (k, v) <->
       exists id d, first_named ds strs (take 255 name) id d /\
         describes_map ds d k expected_key v expected_value).
Proof.
  intros R Hok Hstrs. cbv zeta.
  change (take 255) with (take (A := Z) (Z.to_nat (max_name - 1))).
  destruct (decide (zlen (container_text map_name) = max_name)) as [Hl|Hl].
  { exists (Err (- EINVAL)). split; [|done]. unfold btf__get_map_kv_tids. fold (container_text map_name).
    by rewrite Hl. }
  destruct (find_by_name_spec e b ds strs R Hok Hstrs _ (container_not_void map_name))
    as [(id & d & Hf & Hfind)|[Hno Hfind]].
  - destruct (map_kv_container e b ds strs R Hok map_name expected_key expected_value id d Hl Hf Hfind)
      as (r & Hr & Hiff).
    exists r. split_and!; [done|done|]. intros _ k v. rewrite Hiff. split; [eauto|].
    intros (id' & d' & Hf' & Hdm). by rewrite (first_named_unique _ _ _ _ _ _ _ Hf Hf').
  - exists (Err (- ENOENT)). split_and!; [|done|].
    + unfold btf__get_map_kv_tids. fold (container_text map_name).
      by rewrite (proj2 (Z.eqb_neq _ _) Hl), Hfind.
    + intros _ k v. split; [done|]. intros (id & d & (Hd & Hn & _) & _). by destruct (Hno _ _ Hd).
Qed.

(** The key and value types of a map are those of the first two members of the
    first type called [____btf_map_<name>], a structure, when their sizes are
    those of the map.  The name is cut to 255 characters before it is looked
    up, and only a name of exactly 256 is refused. *)
Theorem map_kv_tids_spec e alloc ds strs b map_name expected_key expected_value :
  section_ok e ds strs -> (forall n, alloc n = true) ->
  btf__new e alloc (encode e ds strs) (zlen (encode e ds strs)) = Some (Ok b) ->
  let name := container_text map_name in
  exists r, btf__get_map_kv_tids e b map_name expected_key expected_value = Some r /\
    (zlen name = max_name -> r = Err (- EINVAL)) /\
    (zlen name <> max_name ->
     forall k v, r = Ok (k, v) <->
       exists id d, first_named ds strs (take 255 name) id d /\
         describes_map ds d k expected_key v expected_value).
Proof.
  intros Hs Ha Hb. destruct (encode_represents e alloc ds strs Hs Ha) as (b' & Hb' & R).
  assert (b' = b) as -> by congruence. destruct Hs as (Hok & _ & Hstrs & _). by apply map_kv_tids_run.
Qed.

(** ** A section with four types *)

(** Decides [desc_ok]. *)
Definition desc_okb (d : desc) : bool :=
  forallb (fun w => (0 <=? w) && (w <? 2 ^ 32)) (desc_words d)
  && match info_size (d_info d) with Ok n => n =? 4 * zlen (desc_words d) | Err _ => false end.

Lemma descs_okb_ok ds : forallb desc_okb ds = true -> Forall desc_ok ds.
Proof.
  rewrite forallb_forall. intros H. apply List.Forall_forall. intros d Hd%H. unfold desc_okb in Hd.
  apply andb_true_iff in Hd as [Hw Hn]. split.
  - rewrite forallb_forall in Hw. apply List.Forall_forall. intros w Hin%Hw. unfold in_range. lia.
  - destruct (info_size _) as [n|]; [|done]. apply Z.eqb_eq in Hn. by rewrite Hn.
Qed.

Definition ex_strs : list Z := 0 :: lit "int" ++ 0 :: lit "____btf_map_m" ++ [0].
Definition ex_types : list desc :=
  [Desc 1 (Z.shiftl BTF_KIND_INT 24) 4 [32];
   Desc 0 (Z.shiftl BTF_KIND_ARRAY 24) 0 [1; 1; 3];
   Desc 0 (Z.shiftl BTF_KIND_TYPEDEF 24) 2 [];
   Desc 5 (Z.shiftl BTF_KIND_STRUCT 24 + 2) 16 [1; 1; 0; 1; 3; 32]].
Definition ex_alloc (n : Z) : bool := true.
Definition ex_section : list Z := encode LE ex_types ex_strs.

Lemma ex_section_ok : section_ok LE ex_types ex_strs.
Proof.
  split_and!; [|done|by split|vm_compute; congruence].
  by apply descs_okb_ok.
Qed.

Lemma btf_new_encode_witness :
  section_ok LE ex_types ex_strs /\
  exists b, btf__new LE ex_alloc (encode LE ex_types ex_strs) (zlen (encode LE ex_types ex_strs)) = Some (Ok b) /\
    nr_types b = zlen ex_types /\
    (forall i d, znth ex_types i = Some d -> read_desc LE b (i + 1) = Some d) /\
    (forall off, 0 <= off < zlen ex_strs -> exists p,
       btf__name_by_offset LE b off = Some (Some p) /\ c_string b p = cstr (drop (Z.to_nat off) ex_strs)).
Proof. split; [exact ex_section_ok|]. exact (btf_new_encode LE ex_alloc ex_types ex_strs ex_section_ok (fun _ => eq_refl)). Defined.


Lemma resolve_size_spec_witness :
  exists b, btf__new LE ex_alloc (encode LE ex_types ex_strs) (zlen (encode LE ex_types ex_strs)) = Some (Ok b) /\
  sized ex_types 3 12 /\
  (forall n id ns s, SizeOf ex_types n id ns s -> (n <= MAX_RESOLVE_DEPTH)%nat ->
     (size_fits ns s -> btf__resolve_size LE b id = Some (Ok (product ns * s))) /\
     (~ size_fits ns s -> btf__resolve_size LE b id = Some (Err (- E2BIG)))) /\
  (forall id, 0 <= id -> exists r, btf__resolve_size LE b id = Some r /\
     forall s, r = Ok s -> sized ex_types id s).
Proof.
  eexists. split; [vm_compute; reflexivity|]. split.
  { exists 3%nat, [3], 4. split_and!; [|unfold MAX_RESOLVE_DEPTH; lia| |done].
    - apply (SizeOf_modifier _ _ 3 (Desc 0 (Z.shiftl BTF_KIND_TYPEDEF 24) 2 [])); [done..|].
      apply (SizeOf_array _ _ 2 (Desc 0 (Z.shiftl BTF_KIND_ARRAY 24) 0 [1; 1; 3]) 1 1); [done..|].
      apply (SizeOf_sized _ 1 (Desc 1 (Z.shiftl BTF_KIND_INT 24) 4 [32])); done.
    - split; [|done]. intros [|[|k]]; done. }
  refine (resolve_size_spec LE ex_alloc ex_types ex_strs _ ex_section_ok (fun _ => eq_refl) _).
  vm_compute. reflexivity.
Defined.

Lemma map_kv_tids_spec_witness :
  exists b, btf__new LE ex_alloc (encode LE ex_types ex_strs) (zlen (encode LE ex_types ex_strs)) = Some (Ok b) /\
  btf__get_map_kv_tids LE b (lit "m") 4 12 = Some (Ok (1, 3)) /\
  exists r, btf__get_map_kv_tids LE b (lit "m") 4 12 = Some r /\
    (zlen (container_text (lit "m")) = max_name -> r = Err (- EINVAL)) /\
    (zlen (container_text (lit "m")) <> max_name ->
     forall k v, r = Ok (k, v) <->
       exists id d, first_named ex_types ex_strs (take 255 (container_text (lit "m"))) id d /\
         describes_map ex_types d k 4 v 12).
Proof.
  eexists. split; [vm_compute; reflexivity|]. split; [vm_compute; reflexivity|].
  refine (map_kv_tids_spec LE ex_alloc ex_types ex_strs _ (lit "m") 4 12 ex_section_ok (fun _ => eq_refl) _).
  vm_compute. reflexivity.
Defined.

(** The header claims a string table of 200 bytes in a section of 131. *)
Definition ex_overhang : list Z := take 20 ex_section ++ [200; 0; 0; 0] ++ drop 24 ex_section.

Lemma btf_new_bounds_witness :
  btf__new LE ex_alloc ex_overhang 131 = None /\
  ((sizeof_btf_header + 88 + Z.max 7 200 <= 131 -> is_Some (btf__new LE ex_alloc ex_overhang 131)) /\
   (sizeof_btf_header + 88 + 200 > 131 -> 200 <= 2 ^ 31 ->
     default 0 (load LE 1 (take 131 ex_overhang) (sizeof_btf_header + 88)) = 0 ->
     btf__new LE ex_alloc ex_overhang 131 = None)).
Proof.
  split; [vm_compute; reflexivity|].
  assert (bytes_ok ex_overhang) as H1 by (apply bytes_okb_ok; vm_compute; reflexivity).
  assert (in_range 32 131) as H2 by (unfold in_range; lia).
  assert (131 <= zlen ex_overhang) as H3 by (vm_compute; congruence).
  refine (btf_new_bounds LE ex_alloc ex_overhang 131 0 88 200 H1 H2 H3 (fun _ => eq_refl) _).
  unfold valid_hdr. split_and!; vm_compute; congruence.
Defined.
