(* ===== verification/BtfFromId.v ===== *)
(** * BTF of the kernel (src/libbpf/src/btf.c, [btf__get_from_id])

    The kernel's object is read into a buffer, a second time when the first is
    too small, and loaded like a section. *)

From S2P Require Export Btf StateMonad.
From stdpp Require Import gmap.
Open Scope Z_scope.

(** A descriptor for an object, what is copied of it into a buffer of so many
    bytes with its size, and closing; errors are errno. *)
Class BtfObjects (K : Type) := {
  bpf_btf_get_fd_by_id : Z -> K -> result Z * K;
  btf_info : Z -> Z -> K -> result (list Z * Z) * K;
  btf_close : Z -> K -> K }.

(** An object does not change; only as much as fits is copied. *)
Class BtfObjectsLaws (K : Type) `{BtfObjects K} := {
  btf_fds : K -> gmap Z Z;
  btf_object : Z -> list Z;
  btf_size_32 id : in_range 32 (zlen (btf_object id));
  get_fd_law id k : match bpf_btf_get_fd_by_id id k with
    | (Ok fd, k') => 0 <= fd /\ btf_fds k !! fd = None /\ btf_fds k' = <[fd := id]> (btf_fds k)
    | (Err _, k') => btf_fds k' = btf_fds k end;
  info_law fd n k : let '(r, k') := btf_info fd n k in btf_fds k' = btf_fds k /\
    match r with
    | Ok (bs, size) => exists id, btf_fds k !! fd = Some id /\ size = zlen (btf_object id) /\ bs = take (Z.to_nat n) (btf_object id)
    | Err errno => 0 < errno
    end;
  btf_close_law fd k : btf_fds (btf_close fd k) = delete fd (btf_fds k) }.

Section from_id.
Context {K : Type} `{BtfObjects K}.
(** The byte order, the allocator's answers here and in [btf__new], and [errno]
    when no call has failed. *)
Context (e : endian) (alloc : nat -> bool) (btf_alloc : Z -> bool) (stale_errno : Z).

(** A zeroed buffer of [last_size] bytes after a call. *)
Definition filled (last_size : Z) (bs : list Z) : list Z := take (Z.to_nat last_size) (bs ++ repeat 0 (Z.to_nat last_size - length bs)).

(** What is returned, with the object ([NULL] is [None]), before the clean-up;
    [None] is an access outside the buffer. *)
Definition read_btf (btf_fd : Z) (k : K) : option (Z * option btf * K) :=
  let last_size := 4096 in
  if negb (alloc 0%nat) then Some (- ENOMEM, None, k) else
  let '(r, k) := btf_info btf_fd last_size k in
  let load (last_size : Z) (r : result (list Z * Z)) (k : K) : option (Z * option btf * K) :=
    match r with
    | Err errno => Some (errno, None, k)
    | Ok (bs, btf_size) =>
        if last_size <? btf_size then Some (stale_errno, None, k) else
        b ← btf__new e btf_alloc (filled last_size bs) btf_size;
        Some (match b with Ok b => (0, Some b, k) | Err err => (err, None, k) end)
    end in
  match r with
  | Ok (bs, btf_size) =>
      if last_size <? btf_size then
        if negb (alloc 1%nat) then Some (- ENOMEM, None, k) else
        let '(r, k) := btf_info btf_fd btf_size k in load btf_size r k
      else load last_size r k
  | Err errno => load last_size r k
  end.

Definition btf__get_from_id (id : Z) (k : K) : option (Z * option btf * K) :=
  match bpf_btf_get_fd_by_id id k with
  | (Err _, k) => Some (0, None, k)
  | (Ok btf_fd, k) =>
      '(err, b, k) ← read_btf btf_fd k;
      Some (err, b, btf_close btf_fd k)
  end.
End from_id.

Lemma get_bytes_all m : get_bytes m 0 (Z.to_nat (zlen m)) = Some m.
Proof. unfold get_bytes, zlen. rewrite decide_True by lia. rewrite Nat2Z.id. cbn. by rewrite firstn_all. Qed.

(** A section in front of a buffer. *)
Lemma btf_new_front e alloc m rest : btf__new e alloc (m ++ rest) (zlen m) = btf__new e alloc m (zlen m).
Proof.
  unfold btf__new. rewrite get_bytes_all.
  replace (get_bytes (m ++ rest) 0 (Z.to_nat (zlen m))) with (Some m); [done|].
  unfold get_bytes, zlen. rewrite length_app, decide_True by lia. rewrite Nat2Z.id. change (Z.to_nat 0) with 0%nat. by rewrite drop_0, take_app_length.
Qed.

Lemma filled_whole n m : zlen m <= n -> exists rest, filled n (take (Z.to_nat n) m) = m ++ rest.
Proof.
  unfold zlen, filled. intros Hn. rewrite (take_ge m) by lia. rewrite take_ge by (rewrite length_app, repeat_length; lia). by eexists.
Qed.

Section reading.
Context {K : Type} `{BtfObjectsLaws K} (e : endian) (alloc : nat -> bool) (btf_alloc : Z -> bool) (stale_errno : Z) (id : Z).
Local Abbreviation loads := (btf__new e btf_alloc (btf_object id) (zlen (btf_object id))).
Hypothesis Hnew : loads <> None.

(** How it may end. *)
Definition from_id_result (err : Z) (b : option btf) : Prop :=
  match b with
  | Some b => err = 0 /\ loads = Some (Ok b)
  | None => 0 < err \/ err = - ENOMEM \/ loads = Some (Err err)
  end.

Lemma btf_new_filled n : zlen (btf_object id) <= n ->
  btf__new e btf_alloc (filled n (take (Z.to_nat n) (btf_object id))) (zlen (btf_object id)) = loads.
Proof using. intros Hn. destruct (filled_whole n _ Hn) as [rest ->]. apply btf_new_front. Qed.

(** Memory is enough. *)
Definition memory : Prop := alloc 0%nat = true /\ alloc 1%nat = true.
(** Every call on an open descriptor succeeds. *)
Definition info_answers : Prop := forall fd n (k : K), is_Some (btf_fds k !! fd) -> exists x, (btf_info fd n k).1 = Ok x.

Lemma info_run fd n (k : K) : btf_fds k !! fd = Some id ->
  exists k', btf_fds k' = btf_fds k /\
    (btf_info fd n k = (Ok (take (Z.to_nat n) (btf_object id), zlen (btf_object id)), k') \/
     (exists errno, 0 < errno /\ btf_info fd n k = (Err errno, k')) /\ ~ info_answers).
Proof using.
  intros Hf. pose proof (info_law fd n k) as Hl. destruct (btf_info fd n k) as [[[bs size]|errno] k'] eqn:E; destruct Hl as [Ef Hl]; exists k'; (split; [done|]).
  - left. destruct Hl as (id' & Hid & -> & ->). congruence.
  - right. split; [by exists errno|]. intros Ha. destruct (Ha fd n k) as [x Hx]; [by eexists|]. by rewrite E in Hx.
Qed.

Lemma read_btf_run fd (k : K) : btf_fds k !! fd = Some id ->
  exists err b k', read_btf e alloc btf_alloc stale_errno fd k = Some (err, b, k') /\ btf_fds k' = btf_fds k /\ from_id_result err b /\
    (info_answers -> memory -> match b with Some b => loads = Some (Ok b) | None => loads = Some (Err err) end).
Proof using Hnew.
  intros Hf. unfold read_btf. destruct (alloc 0%nat) eqn:A0; cbn [negb]; [|exists (- ENOMEM), None, k; split_and!; try done; [by right; left|intros _ [? ?]; congruence]].
  destruct (info_run fd 4096 k Hf) as (k1 & F1 & [E1|[(errno & Hpos & E1) Hno]]); rewrite E1.
  2: { exists errno, None, k1. split_and!; try done. by left. }
  assert (forall n k2, zlen (btf_object id) <= n -> btf_fds k2 = btf_fds k ->
    exists err b k', (b ← btf__new e btf_alloc (filled n (take (Z.to_nat n) (btf_object id))) (zlen (btf_object id));
      Some (match b with Ok b => (0, Some b, k2) | Err err => (err, None, k2) end)) = Some (err, b, k') /\ btf_fds k' = btf_fds k /\
      from_id_result err b /\ (info_answers -> memory -> match b with Some b => loads = Some (Ok b) | None => loads = Some (Err err) end)) as Hload.
  { intros n k2 Hn F2. rewrite btf_new_filled by done. destruct loads as [[b|err]|] eqn:El; [| |done]; cbn [mbind option_bind].
    - exists 0, (Some b), k2. split_and!; try done.
    - exists err, None, k2. split_and!; try done. by right; right. }
  destruct (Z.ltb_spec 4096 (zlen (btf_object id))) as [Hlt|Hge]; [|by apply Hload].
  destruct (alloc 1%nat) eqn:A1; cbn [negb]; [|exists (- ENOMEM), None, k1; split_and!; try done; [by right; left|intros _ [? ?]; congruence]].
  destruct (info_run fd (zlen (btf_object id)) k1) as (k2 & F2 & [E2|[(errno & Hpos & E2) Hno]]); [by rewrite F1|rewrite E2..].
  - rewrite (proj2 (Z.ltb_ge _ _)) by lia. apply Hload; [lia|congruence].
  - exists errno, None, k2. split_and!; try done; [congruence|by left].
Qed.
End reading.

(** The kernel's object with an identifier is loaded as its bytes are, whether
    or not it fits the first buffer, and its descriptor is closed.  What comes
    back otherwise is no object: with no error for an unknown identifier, an
    error of loading, -ENOMEM, or the errno of a call as it is, positive. *)
Theorem get_from_id_spec {K} `{BtfObjectsLaws K} e alloc btf_alloc stale_errno id (k : K) :
  let loads := btf__new e btf_alloc (btf_object id) (zlen (btf_object id)) in
  loads <> None ->
  exists err b k', btf__get_from_id e alloc btf_alloc stale_errno id k = Some (err, b, k') /\ btf_fds k' = btf_fds k /\
    match (bpf_btf_get_fd_by_id id k).1 with
    | Err _ => err = 0 /\ b = None
    | Ok _ =>
        match b with
        | Some b => err = 0 /\ loads = Some (Ok b)
        | None => 0 < err \/ err = - ENOMEM \/ loads = Some (Err err)
        end /\
        ((forall fd n (k : K), is_Some (btf_fds k !! fd) -> exists x, (btf_info fd n k).1 = Ok x) -> alloc 0%nat = true -> alloc 1%nat = true ->
         loads = Some (match b with Some b => Ok b | None => Err err end))
    end.
Proof.
  intros loads Hnew. unfold btf__get_from_id. pose proof (get_fd_law id k) as Hg. destruct (bpf_btf_get_fd_by_id id k) as [[fd|errno] k1]; cbn [fst].
  2: { by exists 0, None, k1. }
  destruct Hg as (_ & Hn & F1). destruct (read_btf_run e alloc btf_alloc stale_errno id Hnew fd k1) as (err & b & k2 & E & F2 & Hr & Hok); [by rewrite F1, lookup_insert_eq|].
  rewrite E. cbn [mbind option_bind]. exists err, b, (btf_close fd k2). split; [done|]. split; [by rewrite btf_close_law, F2, F1, delete_insert_eq, delete_id|].
  split; [done|]. intros Hi A0 A1. specialize (Hok Hi (conj A0 A1)). by destruct b.
Qed.

(** ** A kernel with one object, of more than 4096 bytes *)

Definition ex_long_strs : list Z := Btf.ex_strs ++ repeat 120 5000 ++ [0].
Definition ex_btf_bytes : list Z := Btf.encode LE Btf.ex_types ex_long_strs.

#[export] Instance ex_btf_objects : BtfObjects (gmap Z Z) := {
  bpf_btf_get_fd_by_id id k := if id =? 7 then let fd := foldr Z.max 2 (map_to_list k).*1 + 1 in (Ok fd, <[fd := 7]> k) else (Err 2, k);
  btf_info fd n k := match k !! fd with Some id => (Ok (take (Z.to_nat n) ex_btf_bytes, zlen ex_btf_bytes), k) | None => (Err 9, k) end;
  btf_close fd k := delete fd k }.

#[export] Instance ex_btf_objects_laws : BtfObjectsLaws (gmap Z Z).
Proof.
  refine {| btf_fds k := k; btf_object _ := ex_btf_bytes |}.
  - intros _. vm_compute. by split.
  - intros id k. cbn. destruct (Z.eqb_spec id 7) as [->|]; [|done]. set (fd := foldr Z.max 2 _ + 1).
    assert (0 <= fd /\ k !! fd = None) as [H1 H2]; [|by split_and!].
    assert (forall l : list Z, 2 <= foldr Z.max 2 l /\ forall x, x ∈ l -> x <= foldr Z.max 2 l) as Hmax.
    { induction l as [|y l [H2 Hl]]; cbn; [split; [lia|by intros x Hx%not_elem_of_nil]|]. split; [lia|].
      intros x [->|Hx]%elem_of_cons; [lia|]. specialize (Hl x Hx). lia. }
    destruct (Hmax (map_to_list k).*1) as [H1 Hin]. split; [lia|]. destruct (k !! fd) as [x|] eqn:E; [|done].
    apply elem_of_map_to_list, (list_elem_of_fmap_2 fst), Hin in E. cbn in E. lia.
  - intros fd n k. cbn -[ex_btf_bytes zlen take]. destruct (k !! fd) as [id|] eqn:E; (split; [reflexivity|]); [|reflexivity].
    exists id. split; [reflexivity|]. split; reflexivity.
  - done.
Defined.

Lemma get_from_id_spec_witness : let k : gmap Z Z := ∅ in
  let loads := btf__new LE Btf.ex_alloc (btf_object (K := gmap Z Z) 7) (zlen (btf_object (K := gmap Z Z) 7)) in
  exists err b k', btf__get_from_id LE (fun _ => true) Btf.ex_alloc 0 7 k = Some (err, b, k') /\ btf_fds k' = btf_fds k /\
    match (bpf_btf_get_fd_by_id 7 k).1 with
    | Err _ => err = 0 /\ b = None
    | Ok _ =>
        match b with
        | Some b => err = 0 /\ loads = Some (Ok b)
        | None => 0 < err \/ err = - ENOMEM \/ loads = Some (Err err)
        end /\
        ((forall fd n (k : gmap Z Z), is_Some (btf_fds k !! fd) -> exists x, (btf_info fd n k).1 = Ok x) -> true = true -> true = true ->
         loads = Some (match b with Some b => Ok b | None => Err err end))
    end.
Proof. apply (get_from_id_spec LE (fun _ => true) Btf.ex_alloc 0 7 (∅ : gmap Z Z)). vm_compute. discriminate. Defined.
