(* ===== verification/BtfExt.v ===== *)
(** * Function and line information (src/libbpf/src/btf.c, [.BTF.ext])

    A [.BTF.ext] section holds, for every program section, records whose first
    word is the offset of an instruction.  [btf_ext__new] checks the section;
    [btf_ext_reloc_info] appends the records of one program section to those
    collected so far and turns their offsets into instruction numbers. *)

From S2P Require Export Btf.

(** [struct btf_ext_info]: [info] is an offset in the data. *)
Record btf_ext_info := ExtInfo { info : Z; rec_size : Z; len : Z }.

(** [struct btf_ext]. *)
Record btf_ext := BtfExt {
  ext_data : list Z;
  func_info : btf_ext_info;
  line_info : btf_ext_info;
  ext_data_size : Z
}.

Definition sizeof_btf_ext := 48.
Definition sizeof_btf_ext_info_sec := 8.
Definition sizeof_func_info_min := 8.
Definition sizeof_line_info_min := 16.
Definition sizeof_bpf_insn := 8.
(** offsetof(struct btf_ext_header, func_info_off). *)
Definition offsetof_func_info_off := 8.

Section ext.
(** The byte order of the host, whether the allocator grants a request, and
    the content of the bytes [realloc] adds. *)
Context (e : endian) (alloc : Z -> bool) (junk : Z).

(** ** Checking the section *)

(** The loop over the program sections; each takes at least eight bytes. *)
Fixpoint check_secs (fuel : nat) (m : list Z) (sinfo info_left record_size : Z) : outcome unit :=
  match fuel with
  | O => None
  | S fuel =>
      if info_left =? 0 then Some (Ok ()) else
      let sec_hdrlen := sizeof_btf_ext_info_sec in
      if info_left <? sec_hdrlen then Some (Err (- EINVAL)) else
      num_records ← load e 4 m (sinfo + 4);
      if num_records =? 0 then Some (Err (- EINVAL)) else
      let total_record_size := u64 (sec_hdrlen + u64 (num_records * record_size)) in
      if info_left <? total_record_size then Some (Err (- EINVAL)) else
      check_secs fuel m (sinfo + total_record_size) (info_left ⊟ total_record_size) record_size
  end.

Definition btf_ext_setup_info (m : list Z) (data_size off sec_len min_rec_size : Z)
    : outcome btf_ext_info :=
  if negb (Z.land off 0x03 =? 0) then Some (Err (- EINVAL)) else
  hdr_len ← load e 4 m 4;
  let info := hdr_len + off in
  if data_size <? info + sec_len then Some (Err (- EINVAL)) else
  if sec_len <? 4 then Some (Err (- EINVAL)) else
  record_size ← load e 4 m info;
  if (record_size <? min_rec_size) || negb (Z.land record_size 0x03 =? 0)
  then Some (Err (- EINVAL)) else
  let sinfo := info + 4 in
  let info_left := sec_len ⊟ 4 in
  if info_left =? 0 then Some (Err (- EINVAL)) else
  let? _ := check_secs (S (Z.to_nat info_left)) m sinfo info_left record_size in
  Some (Ok (ExtInfo (info + 4) record_size (sec_len ⊟ 4))).

Definition btf_ext_setup_func_info (m : list Z) (data_size : Z) : outcome btf_ext_info :=
  off ← load e 4 m 8; sec_len ← load e 4 m 12;
  btf_ext_setup_info m data_size off sec_len sizeof_func_info_min.

Definition btf_ext_setup_line_info (m : list Z) (data_size : Z) : outcome btf_ext_info :=
  off ← load e 4 m 16; sec_len ← load e 4 m 20;
  btf_ext_setup_info m data_size off sec_len sizeof_line_info_min.

Definition btf_ext_parse_hdr (m : list Z) (data_size : Z) : outcome unit :=
  if data_size <? offsetof_func_info_off then Some (Err (- EINVAL)) else
  hdr_len ← load e 4 m 4;
  if data_size <? hdr_len then Some (Err (- EINVAL)) else
  magic ← load e 2 m 0;
  if negb (magic =? BTF_MAGIC) then Some (Err (- EINVAL)) else
  version ← load e 1 m 2;
  if negb (version =? BTF_VERSION) then Some (Err (- ENOTSUP)) else
  flags ← load e 1 m 3;
  if negb (flags =? 0) then Some (Err (- ENOTSUP)) else
  if data_size =? hdr_len then Some (Err (- EINVAL)) else Some (Ok ()).

Definition btf_ext__new (src : list Z) (size : Z) : outcome btf_ext :=
  let? _ := btf_ext_parse_hdr src size in
  if negb (alloc sizeof_btf_ext) then Some (Err (- ENOMEM)) else
  if negb (alloc size) then Some (Err (- ENOMEM)) else
  m ← get_bytes src 0 (Z.to_nat size);
  let? func_info := btf_ext_setup_func_info m size in
  let? line_info := btf_ext_setup_line_info m size in
  Some (Ok (BtfExt m func_info line_info size)).

(** ** Relocating the records *)

(** [realloc(info, n)]. *)
Definition realloc_bytes (n : Z) (m : list Z) : list Z := resize (Z.to_nat n) junk m.

(** The loop over the copied records, from [i] on; [n] records are left. *)
Fixpoint reloc_loop (n : nat) (m : list Z) (existing_len record_size insns_cnt i : Z)
    : option (list Z) :=
  match n with
  | O => Some m
  | S n =>
      let p := existing_len + u32 (i * record_size) in
      insn_off ← load e 4 m p;
      m ← store e 4 m p (u32 (insn_off / sizeof_bpf_insn + insns_cnt));
      reloc_loop n m existing_len record_size insns_cnt (i + 1)
  end.

(** Returns [*info] and [*cnt].  The sections of a checked [ext_info] take at
    least eight bytes each; a name outside the string table is NULL, which
    [strcmp] must not be given. *)
Fixpoint reloc_secs (fuel : nat) (b : btf) (m : list Z) (record_size : Z) (sec_name : str)
    (insns_cnt : Z) (infos : list Z) (cnt sinfo remain_len : Z) : outcome (list Z * Z) :=
  match fuel with
  | O => None
  | S fuel =>
      if remain_len =? 0 then Some (Err (- ENOENT)) else
      num_info ← load e 4 m (sinfo + 4);
      let records_len := u32 (num_info * record_size) in
      sec_name_off ← load e 4 m sinfo;
      name ← btf__name_by_offset e b sec_name_off;
      info_sec_name ← name;
      s ← c_string b info_sec_name;
      if negb (bool_decide (sec_name = s)) then
        reloc_secs fuel b m record_size sec_name insns_cnt infos cnt
          (sinfo + sizeof_btf_ext_info_sec + records_len)
          (u64 (remain_len - u32 (sizeof_btf_ext_info_sec + records_len)))
      else
        let existing_len := u32 (cnt * record_size) in
        if negb (alloc (u32 (existing_len + records_len))) then Some (Err (- ENOMEM)) else
        let data := realloc_bytes (u32 (existing_len + records_len)) infos in
        recs ← get_bytes m (sinfo + sizeof_btf_ext_info_sec) (Z.to_nat records_len);
        data ← put_bytes data existing_len recs;
        data ← reloc_loop (Z.to_nat num_info) data existing_len record_size insns_cnt 0;
        Some (Ok (data, u32 (cnt + num_info)))
  end.

Definition btf_ext_reloc_info (b : btf) (m : list Z) (ext_info : btf_ext_info) (sec_name : str)
    (insns_cnt : Z) (infos : list Z) (cnt : Z) : outcome (list Z * Z) :=
  reloc_secs (S (Z.to_nat (len ext_info))) b m (rec_size ext_info) sec_name insns_cnt infos cnt
    (info ext_info) (len ext_info).

Definition btf_ext__reloc_func_info (b : btf) (x : btf_ext) :=
  btf_ext_reloc_info b (ext_data x) (func_info x).
Definition btf_ext__reloc_line_info (b : btf) (x : btf_ext) :=
  btf_ext_reloc_info b (ext_data x) (line_info x).
End ext.

Definition btf_ext__get_raw_data (x : btf_ext) : list Z * Z := (ext_data x, ext_data_size x).
Definition btf_ext__func_info_rec_size (x : btf_ext) : Z := rec_size (func_info x).
Definition btf_ext__line_info_rec_size (x : btf_ext) : Z := rec_size (line_info x).

(** ** What a checked section holds *)

(** A program section: where it starts, the offset of its name and the number
    of its records. *)
Record sec := Sec { sec_at : Z; sec_name_off : Z; num_info : Z }.

(** [Sections e m rec p secs q]: [m] holds the sections [secs], with records of
    [rec] bytes, one behind the other from [p] to [q]. *)
Inductive Sections (e : endian) (m : list Z) (rec : Z) : Z -> list sec -> Z -> Prop :=
| Sections_nil p : Sections e m rec p [] p
| Sections_cons p name num secs q :
    load e 4 m p = Some name -> load e 4 m (p + 4) = Some num -> 0 < num ->
    Sections e m rec (p + sizeof_btf_ext_info_sec + num * rec) secs q ->
    Sections e m rec p (Sec p name num :: secs) q.

(** The sections fill the information, which lies inside the data. *)
Definition info_ok (e : endian) (m : list Z) (min_rec : Z) (x : btf_ext_info) (secs : list sec) : Prop :=
  min_rec <= rec_size x /\ in_range 32 (rec_size x) /\ Z.land (rec_size x) 0x03 = 0 /\
  0 <= info x /\ in_range 32 (len x) /\ info x + len x <= zlen m /\ secs <> [] /\
  Sections e m (rec_size x) (info x) secs (info x + len x).

(** The records with the byte offset in their first word turned into the number
    of the instruction. *)
Fixpoint relocate (e : endian) (n : nat) (rec insns_cnt : Z) (recs : list Z) : list Z :=
  match n with
  | O => []
  | S n =>
      let r := take (Z.to_nat rec) recs in
      split e 4 (u32 (combine e (take 4 r) / 8 + insns_cnt)) ++ drop 4 r
      ++ relocate e n rec insns_cnt (drop (Z.to_nat rec) recs)
  end.

Lemma check_secs_ok e fuel m p left rec :
  bytes_ok m -> in_range 32 left -> in_range 32 rec -> 0 <= p ->
  check_secs e fuel m p left rec = Some (Ok ()) ->
  exists secs, Sections e m rec p secs (p + left) /\ (left <> 0 -> secs <> []).
Proof.
  intros Hb. revert p left. induction fuel as [|fuel IH]; intros p left Hl Hr Hp; cbn [check_secs]; [done|].
  destruct (Z.eqb_spec left 0) as [->|Hz]; [exists []; rewrite Z.add_0_r; split; [constructor|done]|].
  destruct (Z.ltb_spec left sizeof_btf_ext_info_sec) as [|H8]; [done|].
  destruct (load e 4 m (p + 4)) as [num|] eqn:En; [|done]. cbn [mbind option_bind].
  destruct (Z.eqb_spec num 0) as [|Hn]; [done|].
  pose proof (load_range _ _ _ _ _ Hb En) as Hnr. unfold in_range in *. change (8 * Z.of_nat 4) with 32 in Hnr.
  rewrite (wrap_small 64 (num * rec)) by (unfold in_range; nia).
  unfold sizeof_btf_ext_info_sec in *. rewrite (wrap_small 64 (8 + num * rec)) by (unfold in_range; nia).
  destruct (Z.ltb_spec left (8 + num * rec)) as [|Ht]; [done|]. intros H.
  rewrite (wrap_small 32) in H by (unfold in_range; nia).
  destruct (IH (p + (8 + num * rec)) (left - (8 + num * rec))) as (secs & S & _); [nia|done|nia|done|].
  assert (is_Some (load e 4 m (p + 4))) as [_ Hi]%load_is_Some by by rewrite En.
  destruct (load_ex e 4 m p) as [name Ename]; [lia|lia|].
  exists (Sec p name num :: secs). split; [|done]. constructor; [done|done|lia|].
  replace (p + left) with (p + (8 + num * rec) + (left - (8 + num * rec))) by lia.
  unfold sizeof_btf_ext_info_sec. by rewrite <- Z.add_assoc.
Qed.

Lemma check_secs_defined e fuel m p left rec :
  bytes_ok m -> in_range 32 left -> in_range 32 rec -> left < Z.of_nat fuel -> 0 <= p -> p + left <= zlen m ->
  is_Some (check_secs e fuel m p left rec).
Proof.
  intros Hb. revert p left. induction fuel as [|fuel IH]; intros p left Hl Hr Hf Hp Hm; cbn [check_secs].
  { unfold in_range in *. lia. }
  destruct (Z.eqb_spec left 0); [done|].
  destruct (Z.ltb_spec left sizeof_btf_ext_info_sec) as [|H8]; [done|]. unfold sizeof_btf_ext_info_sec in *.
  destruct (load_ex e 4 m (p + 4)) as [num En]; [lia|lia|]. rewrite En. cbn [mbind option_bind].
  destruct (Z.eqb_spec num 0) as [|Hn]; [done|].
  pose proof (load_range _ _ _ _ _ Hb En) as Hnr. unfold in_range in *. change (8 * Z.of_nat 4) with 32 in Hnr.
  rewrite (wrap_small 64 (num * rec)) by (unfold in_range; nia).
  rewrite (wrap_small 64 (8 + num * rec)) by (unfold in_range; nia).
  destruct (Z.ltb_spec left (8 + num * rec)) as [|Ht]; [done|].
  rewrite (wrap_small 32) by (unfold in_range; nia). apply IH; nia.
Qed.

(** [btf_ext_setup_info] reads only inside its section, and what it accepts is
    filled with sections of records. *)
Lemma setup_info_spec e m off sec_len min_rec :
  bytes_ok m -> in_range 32 (zlen m) -> 8 <= zlen m -> in_range 32 off -> in_range 32 sec_len ->
  is_Some (btf_ext_setup_info e m (zlen m) off sec_len min_rec) /\
  forall x, btf_ext_setup_info e m (zlen m) off sec_len min_rec = Some (Ok x) ->
    exists secs, info_ok e m min_rec x secs.
Proof.
  intros Hb Hm H8 Hoff Hlen. unfold btf_ext_setup_info, in_range in *.
  destruct (negb (Z.land off 3 =? 0)); [done|].
  destruct (load_ex e 4 m 4) as [hdr_len Eh]; [lia|lia|]. rewrite Eh. cbn [mbind option_bind].
  pose proof (load_range _ _ _ _ _ Hb Eh) as Hh. unfold in_range in Hh. change (8 * Z.of_nat 4) with 32 in Hh.
  destruct (Z.ltb_spec (zlen m) (hdr_len + off + sec_len)) as [|Hin]; [done|].
  destruct (Z.ltb_spec sec_len 4) as [|Hl4]; [done|].
  destruct (load_ex e 4 m (hdr_len + off)) as [rec Er]; [lia|lia|]. rewrite Er. cbn [mbind option_bind].
  pose proof (load_range _ _ _ _ _ Hb Er) as Hrec. unfold in_range in Hrec. change (8 * Z.of_nat 4) with 32 in Hrec.
  destruct (Z.ltb_spec rec min_rec) as [|Hmin]; [done|]. cbn [orb].
  destruct (Z.eqb_spec (Z.land rec 3) 0) as [Ha|]; [|done]. cbn [negb].
  rewrite (wrap_small 32) by (unfold in_range; lia).
  destruct (Z.eqb_spec (sec_len - 4) 0) as [|Hz]; [done|].
  destruct (check_secs_defined e (S (Z.to_nat (sec_len - 4))) m (hdr_len + off + 4) (sec_len - 4) rec)
    as [[[]|err] Hc]; try (done || lia || unfold in_range; lia); rewrite Hc; cbn [outcome_bind]; [|done].
  split; [done|]. intros x [= <-].
  apply check_secs_ok in Hc as (secs & S & Hne); [|done|unfold in_range; lia|done|lia].
  exists secs. unfold info_ok, in_range. cbn [rec_size info len]. split_and!; try done; try lia. by apply Hne.
Qed.

Lemma parse_hdr_defined e src size :
  0 <= size -> 24 <= size -> size <= zlen src -> is_Some (btf_ext_parse_hdr e src size).
Proof.
  intros H0 H8 Hl. unfold btf_ext_parse_hdr, offsetof_func_info_off.
  destruct (Z.ltb_spec size 8); [done|].
  destruct (load_ex e 4 src 4) as [v1 ->]; [lia|lia|]. destruct (load_ex e 2 src 0) as [v2 ->]; [lia|lia|].
  destruct (load_ex e 1 src 2) as [v3 ->]; [lia|lia|]. destruct (load_ex e 1 src 3) as [v4 ->]; [lia|lia|].
  cbn [mbind option_bind]. repeat case_match; done.
Qed.

(** C19. An accepted section records function and line information that is filled
    with sections of whole records inside the data, at least as long as the
    loader needs.  Nothing outside a section of 24 bytes or more is read; a
    shorter one with an accepted header that says it is 8 bytes long is. *)
Theorem ext_new_sound e alloc src size :
  bytes_ok src -> in_range 32 size -> size <= zlen src -> (forall n, alloc n = true) ->
  let m := take (Z.to_nat size) src in
  (forall x, btf_ext__new e alloc src size = Some (Ok x) ->
     ext_data x = m /\
     (exists secs, info_ok e m sizeof_func_info_min (func_info x) secs) /\
     (exists secs, info_ok e m sizeof_line_info_min (line_info x) secs)) /\
  (24 <= size -> is_Some (btf_ext__new e alloc src size)) /\
  (size < 16 -> btf_ext_parse_hdr e src size = Some (Ok ()) -> btf_ext__new e alloc src size = None).
Proof.
  intros Hb Hs Hl Ha. cbv zeta. set (m := take _ src).
  assert (zlen m = size) as Hm by (unfold m, zlen, in_range in *; rewrite length_take; lia).
  assert (bytes_ok m) as Hbm by by apply Forall_take.
  assert (in_range 32 (zlen m)) as Hzm by by rewrite Hm.
  assert (get_bytes src 0 (Z.to_nat size) = Some m) as Hg.
  { unfold get_bytes. unfold in_range in Hs. rewrite decide_True by lia. by rewrite drop_0. }
  unfold btf_ext__new. rewrite !Ha, Hg. cbn [negb mbind option_bind]. rewrite <- Hm.
  unfold btf_ext_setup_func_info, btf_ext_setup_line_info.
  assert (forall p v, load e 4 m p = Some v -> in_range 32 v) as Hv.
  { intros p v E. apply (load_range _ _ _ _ _ Hbm E). }
  split_and!.
  - intros x. rewrite outcome_bind_ok. intros ([] & Hh & H). rewrite outcome_bind_ok in H. destruct H as (fi & Hf & H).
    rewrite outcome_bind_ok in H. destruct H as (li & Hli & [= <-]). cbn [ext_data func_info line_info].
    destruct (load e 4 m 8) as [off|] eqn:E1; [|done]. cbn [mbind option_bind] in Hf.
    destruct (load e 4 m 12) as [sl|] eqn:E2; [|done]. cbn [mbind option_bind] in Hf.
    destruct (load e 4 m 16) as [off2|] eqn:E3; [|done]. cbn [mbind option_bind] in Hli.
    destruct (load e 4 m 20) as [sl2|] eqn:E4; [|done]. cbn [mbind option_bind] in Hli.
    assert (is_Some (load e 4 m 20)) as [_ H20]%load_is_Some by by rewrite E4.
    assert (8 <= zlen m) as H8 by lia. split_and!; [done| |].
    + exact (proj2 (setup_info_spec e m off sl _ Hbm Hzm H8 (Hv _ _ E1) (Hv _ _ E2)) _ Hf).
    + exact (proj2 (setup_info_spec e m off2 sl2 _ Hbm Hzm H8 (Hv _ _ E3) (Hv _ _ E4)) _ Hli).
  - intros H24.
    destruct (load_ex e 4 m 8) as [off E1]; [lia|lia|]. destruct (load_ex e 4 m 12) as [sl E2]; [lia|lia|].
    destruct (load_ex e 4 m 16) as [off2 E3]; [lia|lia|]. destruct (load_ex e 4 m 20) as [sl2 E4]; [lia|lia|].
    rewrite E1, E2, E3, E4. cbn [mbind option_bind].
    destruct (setup_info_spec e m off sl sizeof_func_info_min) as [[r1 ->] _];
      [done|done|lia|by eauto..|].
    destruct (setup_info_spec e m off2 sl2 sizeof_line_info_min) as [[r2 ->] _];
      [done|done|lia|by eauto..|].
    destruct (parse_hdr_defined e src (zlen m)) as [[[]|] ->]; [lia|lia|lia| |done]. by destruct r1, r2.
  - rewrite Hm. intros H16 ->. cbn [outcome_bind].
    destruct (load e 4 m 12) as [v|] eqn:E.
    { assert (is_Some (load e 4 m 12)) as [_ Hi]%load_is_Some by by rewrite E. lia. }
    by destruct (load e 4 m 8).
Qed.

(** ** Relocation *)

(** Overwriting what follows a prefix. *)
Lemma put_bytes_app pre bs rest :
  zlen rest = zlen bs -> put_bytes (pre ++ rest) (zlen pre) bs = Some (pre ++ bs).
Proof.
  intros H. unfold put_bytes, zlen in *. rewrite length_app. rewrite decide_True by lia.
  rewrite Nat2Z.id, take_app_length. do 2 f_equal. rewrite drop_ge; [by rewrite app_nil_r|].
  rewrite length_app. lia.
Qed.

Lemma store_at_app e pre recs v :
  4 <= zlen recs -> store e 4 (pre ++ recs) (zlen pre) v = Some (pre ++ split e 4 v ++ drop 4 recs).
Proof.
  intros H. unfold store, put_bytes, zlen in *. rewrite length_app, length_split. rewrite decide_True by lia.
  rewrite Nat2Z.id, take_app_length. do 3 f_equal. rewrite drop_app_ge by lia. f_equal. lia.
Qed.

Lemma reloc_loop_spec e n pre recs existing rec insns i :
  4 <= rec -> zlen recs = Z.of_nat n * rec -> zlen pre = existing + i * rec ->
  0 <= i -> (i + Z.of_nat n) * rec < 2 ^ 32 ->
  reloc_loop e n (pre ++ recs) existing rec insns i = Some (pre ++ relocate e n rec insns recs).
Proof.
  revert pre recs i. induction n as [|n IH]; intros pre recs i Hrec Hl Hp Hi Hov.
  { cbn [reloc_loop relocate]. unfold zlen in Hl. destruct recs; [done|cbn in Hl; lia]. }
  cbn [reloc_loop relocate]. rewrite (wrap_small 32 (i * rec)) by (unfold in_range; nia).
  replace (existing + i * rec) with (zlen pre + 0) by lia.
  assert (rec <= zlen recs) as Hr by nia.
  set (r := take (Z.to_nat rec) recs). set (rest := drop (Z.to_nat rec) recs).
  assert (recs = r ++ rest) as Hrr by (symmetry; apply take_drop).
  assert (zlen r = rec) as Hzr by (unfold r, zlen in *; rewrite length_take; lia).
  assert (take 4 recs = take 4 r) as Ht by (unfold r; rewrite take_take; f_equal; lia).
  rewrite load_app_r by lia. unfold load, get_bytes. rewrite decide_True by (change (Z.of_nat 4) with 4; lia).
  change (Z.to_nat 0) with 0%nat. rewrite drop_0, Ht. cbn [mbind option_bind].
  set (v := u32 _). rewrite Z.add_0_r, (store_at_app e pre recs v) by lia. cbn [mbind option_bind].
  assert (drop 4 recs = drop 4 r ++ rest) as Hd.
  { rewrite Hrr, drop_app_le; [done|]. unfold zlen in Hzr. lia. }
  rewrite Hd. assert (zlen (drop 4 r) = rec - 4) as Hz4 by (unfold zlen in *; rewrite length_drop; lia).
  specialize (IH (pre ++ split e 4 v ++ drop 4 r) rest (i + 1)). rewrite <- !app_assoc in IH. apply IH; try lia.
  - unfold rest, zlen in *. rewrite length_drop. lia.
  - rewrite !zlen_app, Hz4. unfold zlen at 2. rewrite length_split. lia.
Qed.

Lemma Sections_end e m rec p secs q : 0 <= rec -> Sections e m rec p secs q -> p <= q.
Proof.
  intros Hr H. induction H as [|p name num secs q _ _ Hn _ IH]; [lia|].
  unfold sizeof_btf_ext_info_sec in IH. nia.
Qed.

(** The first section with this name; [None] when a section before it has no
    name. *)
Fixpoint find_sec (strs : list Z) (sec_name : str) (secs : list sec) : option (option sec) :=
  match secs with
  | [] => Some None
  | s :: secs =>
      n ← name_at strs (sec_name_off s);
      if decide (sec_name = n) then Some (Some s) else find_sec strs sec_name secs
  end.

(** The records of a section. *)
Definition sec_records (m : list Z) (rec : Z) (s : sec) : list Z :=
  take (Z.to_nat (num_info s * rec)) (drop (Z.to_nat (sec_at s + sizeof_btf_ext_info_sec)) m).

(** What the relocation does. *)
Definition reloc_spec (e : endian) (m strs : list Z) (rec : Z) (secs : list sec) (sec_name : str)
    (insns_cnt : Z) (infos : list Z) (cnt : Z) : outcome (list Z * Z) :=
  s ← find_sec strs sec_name secs;
  match s with
  | None => Some (Err (- ENOENT))
  | Some s =>
      Some (Ok (infos ++ relocate e (Z.to_nat (num_info s)) rec insns_cnt (sec_records m rec s),
                cnt + num_info s))
  end.

Section reloc.
Context (e : endian) (alloc : Z -> bool) (junk : Z) (b : btf) (ds : list desc) (strs : list Z).
Hypothesis R : represents e b ds strs.
Hypothesis Hstrs : strs_ok strs.
Hypothesis Ha : forall n, alloc n = true.

(** The name of a section, read by the code. *)
Lemma sec_string off (k : str -> outcome (list Z * Z)) :
  0 <= off ->
  (name ← btf__name_by_offset e b off; p ← name; s ← c_string b p; k s) = (n ← name_at strs off; k n).
Proof.
  intros Ho. unfold name_at. destruct (Z.ltb_spec off (zlen strs)) as [Hl|Hl].
  - destruct (rep_name _ _ _ _ R off) as (p & -> & Hp); [lia|]. cbn [mbind option_bind]. by rewrite Hp.
  - by rewrite (rep_no_name _ _ _ _ R) by done.
Qed.

(** Copying and relocating the records of one section. *)
Lemma reloc_copy m rec s insns infos cnt :
  4 <= rec -> 0 < num_info s -> 0 <= cnt -> zlen infos = cnt * rec ->
  (cnt + num_info s) * rec < 2 ^ 32 -> 0 <= sec_at s ->
  sec_at s + sizeof_btf_ext_info_sec + num_info s * rec <= zlen m ->
  (let existing_len := u32 (cnt * rec) in
   let records_len := u32 (num_info s * rec) in
   let data := realloc_bytes junk (u32 (existing_len + records_len)) infos in
   recs ← get_bytes m (sec_at s + sizeof_btf_ext_info_sec) (Z.to_nat records_len);
   data ← put_bytes data existing_len recs;
   data ← reloc_loop e (Z.to_nat (num_info s)) data existing_len rec insns 0;
   Some (Ok (data, u32 (cnt + num_info s))))
  = Some (Ok (infos ++ relocate e (Z.to_nat (num_info s)) rec insns (sec_records m rec s),
              cnt + num_info s)).
Proof.
  intros Hrec Hn Hc Hl Hov Hs Hin. cbv zeta. unfold sizeof_btf_ext_info_sec in *.
  rewrite (wrap_small 32 (cnt * rec)) by (unfold in_range; nia).
  rewrite (wrap_small 32 (num_info s * rec)) by (unfold in_range; nia).
  rewrite (wrap_small 32 (cnt * rec + num_info s * rec)) by (unfold in_range; nia).
  rewrite (wrap_small 32 (cnt + num_info s)) by (unfold in_range; nia).
  unfold get_bytes. rewrite decide_True by (rewrite Z2Nat.id; nia).
  change (take (Z.to_nat (num_info s * rec)) (drop (Z.to_nat (sec_at s + 8)) m)) with (sec_records m rec s).
  set (recs := sec_records m rec s). cbn [mbind option_bind].
  assert (zlen recs = num_info s * rec) as Hlr.
  { unfold recs, sec_records, sizeof_btf_ext_info_sec, zlen in *. rewrite length_take, length_drop. nia. }
  assert (put_bytes (realloc_bytes junk (cnt * rec + num_info s * rec) infos) (cnt * rec) recs
    = Some (infos ++ recs)) as ->.
  { unfold realloc_bytes. rewrite resize_ge by (unfold zlen in Hl; nia).
    rewrite <- Hl. apply put_bytes_app. unfold zlen in *. rewrite length_replicate. nia. }
  cbn [mbind option_bind]. rewrite reloc_loop_spec; [done|lia|rewrite Hlr; nia|lia|lia|nia].
Qed.

Lemma reloc_secs_spec m rec p secs q sec_name insns infos cnt fuel :
  bytes_ok m -> Sections e m rec p secs q -> 4 <= rec < 2 ^ 32 -> 0 <= p -> q <= zlen m -> in_range 32 (q - p) ->
  q - p < Z.of_nat fuel -> 0 <= cnt -> zlen infos = cnt * rec ->
  (forall s, find_sec strs sec_name secs = Some (Some s) -> (cnt + num_info s) * rec < 2 ^ 32) ->
  reloc_secs e alloc junk fuel b m rec sec_name insns infos cnt p (q - p)
  = reloc_spec e m strs rec secs sec_name insns infos cnt.
Proof.
  intros Hb H. revert fuel. induction H as [p|p name num secs q En Em Hn H IH];
    intros fuel Hrec Hp Hq Hr Hf Hc Hl Hov; (destruct fuel as [|fuel]; [unfold in_range in *; lia|]); cbn [reloc_secs].
  { by rewrite Z.sub_diag. }
  pose proof (Sections_end e m rec _ _ _ ltac:(lia) H) as Hend. unfold sizeof_btf_ext_info_sec in Hend.
  unfold in_range in Hr. destruct (Z.eqb_spec (q - p) 0) as [|_]; [nia|].
  rewrite Em, En. cbn [mbind option_bind]. pose proof (load_range _ _ _ _ _ Hb En) as [Hno _].
  rewrite (sec_string name) by done. unfold reloc_spec. cbn [find_sec].
  change (BtfExt.sec_name_off (Sec p name num)) with name.
  destruct (name_at strs name) as [nm|] eqn:Enm; [|done]. cbn [mbind option_bind].
  case_bool_decide as Hs; cbn [negb].
  - rewrite decide_True by done. cbn [mbind option_bind]. rewrite Ha. cbn [negb].
    apply (reloc_copy m rec (Sec p name num) insns infos cnt); cbn [num_info sec_at]; try done; try lia.
    + apply (Hov (Sec p name num)). cbn [find_sec]. change (BtfExt.sec_name_off (Sec p name num)) with name.
      rewrite Enm. cbn [mbind option_bind]. by rewrite decide_True by done.
    + unfold sizeof_btf_ext_info_sec. lia.
  - rewrite decide_False by done. rewrite (wrap_small 32 (num * rec)) by (unfold in_range; nia).
    unfold sizeof_btf_ext_info_sec in *. rewrite (wrap_small 32 (8 + num * rec)) by (unfold in_range; nia).
    rewrite (wrap_small 64) by (unfold in_range; nia).
    replace (q - p - (8 + num * rec)) with (q - (p + 8 + num * rec)) by lia.
    apply IH; try done; try (unfold in_range; nia). intros s Hfs. apply Hov. cbn [find_sec].
    change (BtfExt.sec_name_off (Sec p name num)) with name. rewrite Enm. cbn [mbind option_bind].
    by rewrite decide_False by done.
Qed.
End reloc.

(** ** What relocation needs *)

(** The sections have names, so that no name is NULL. *)
Definition info_sound (e : endian) (strs m : list Z) (min_rec : Z) (x : btf_ext_info) : Prop :=
  exists secs, info_ok e m min_rec x secs /\ Forall (fun s => is_Some (name_at strs (sec_name_off s))) secs /\ len x < 2 ^ 31.

(** The allocator decides only whether the call fails. *)
Lemma reloc_secs_alloc e alloc junk b m rec sec_name insns infos cnt fuel : forall p left,
  reloc_secs e alloc junk fuel b m rec sec_name insns infos cnt p left = Some (Err (- ENOMEM)) \/
  reloc_secs e alloc junk fuel b m rec sec_name insns infos cnt p left
  = reloc_secs e (fun _ => true) junk fuel b m rec sec_name insns infos cnt p left.
Proof.
  induction fuel as [|fuel IH]; intros p left; cbn [reloc_secs]; [by right|]. destruct (left =? 0); [by right|].
  destruct (load e 4 m (p + 4)) as [num|]; [|by right]. cbn [mbind option_bind]. destruct (load e 4 m p) as [off|]; [|by right].
  cbn [mbind option_bind]. destruct (btf__name_by_offset e b off) as [[name|]|]; [|by right..]. cbn [mbind option_bind].
  destruct (c_string b name) as [s|]; [|by right]. cbn [mbind option_bind]. destruct (negb (bool_decide _)); [apply IH|].
  destruct (alloc _); [by right|by left].
Qed.

Lemma zlen_relocate e n rec insns : forall recs, 4 <= rec -> zlen recs = Z.of_nat n * rec -> zlen (relocate e n rec insns recs) = Z.of_nat n * rec.
Proof.
  induction n as [|n IH]; intros recs Hr Hl; cbn [relocate]; [done|]. rewrite !zlen_app, IH by (done || unfold zlen in *; rewrite length_drop; nia).
  unfold zlen in *. rewrite length_split, length_drop, length_take. nia.
Qed.

Lemma Sections_inside e m rec p secs q s : 0 <= rec -> Sections e m rec p secs q -> s ∈ secs ->
  0 < num_info s /\ p <= sec_at s /\ sec_at s + sizeof_btf_ext_info_sec + num_info s * rec <= q.
Proof.
  intros Hr H. induction H as [|p name num secs q _ _ Hn H IH]; [by intros ?%elem_of_nil|]. pose proof (Sections_end _ _ _ _ _ _ Hr H) as Hend.
  intros [->|Hin]%elem_of_cons; cbn [num_info sec_at]; [lia|]. unfold sizeof_btf_ext_info_sec in *. destruct (IH Hin) as (? & ? & ?). nia.
Qed.

Lemma find_sec_named strs sec_name secs : Forall (fun s => is_Some (name_at strs (sec_name_off s))) secs ->
  exists o, find_sec strs sec_name secs = Some o /\ forall s, o = Some s -> s ∈ secs.
Proof.
  induction 1 as [|s secs [nm Hn] _ (o & IH & Hin)]; [by exists None|]. cbn [find_sec]. rewrite Hn. cbn [mbind option_bind].
  destruct (decide _); [exists (Some s); split; [done|intros ? [= <-]; by left]|]. exists o. split; [done|]. intros s' Hs'. right. by apply Hin.
Qed.

(** With sound information relocation does not leave its objects, and gives
    whole records. *)
Lemma reloc_info_defined e alloc junk ds strs b m min_rec x sec_name insns_cnt infos cnt :
  represents e b ds strs -> bytes_ok m -> 4 <= min_rec -> info_sound e strs m min_rec x ->
  0 <= cnt -> zlen infos = cnt * rec_size x -> zlen infos + len x < 2 ^ 32 ->
  exists r, btf_ext_reloc_info e alloc junk b m x sec_name insns_cnt infos cnt = Some r /\
    forall bs cnt', r = Ok (bs, cnt') -> 0 <= cnt' /\ zlen bs = cnt' * rec_size x /\ zlen bs <= zlen infos + len x.
Proof.
  intros R Hbm Hmin (secs & (H1 & H2 & _ & H3 & H4 & H5 & _ & S) & Hnames & Hlen) Hc Hl Hov. unfold in_range in *. assert (0 <= rec_size x) as Hr by lia.
  assert (forall s, s ∈ secs -> 0 < num_info s /\ info x <= sec_at s /\ num_info s * rec_size x <= len x) as Hin.
  { intros s Hs. destruct (Sections_inside _ _ _ _ _ _ s Hr S Hs) as (? & ? & Hq). unfold sizeof_btf_ext_info_sec in Hq. split_and!; [done|done|lia]. }
  destruct (find_sec_named strs sec_name secs Hnames) as (o & Ho & Hos).
  unfold btf_ext_reloc_info. destruct (reloc_secs_alloc e alloc junk b m (rec_size x) sec_name insns_cnt infos cnt (Datatypes.S (Z.to_nat (len x))) (info x) (len x))
    as [->| ->]; [by eexists|].
  assert (reloc_secs e (fun _ => true) junk (Datatypes.S (Z.to_nat (len x))) b m (rec_size x) sec_name insns_cnt infos cnt (info x) (info x + len x - info x)
    = reloc_spec e m strs (rec_size x) secs sec_name insns_cnt infos cnt) as E.
  { apply (reloc_secs_spec e (fun _ => true) junk b ds strs R (fun _ => eq_refl)); try (done || lia || (unfold in_range; lia)).
    intros s Hs. destruct (Hin s) as (? & _ & ?); [apply Hos; congruence|nia]. }
  replace (info x + len x - info x) with (len x) in E by lia. rewrite E. clear E.
  unfold reloc_spec. rewrite Ho. cbn [mbind option_bind]. destruct o as [s|]; [|by eexists].
  eexists. split; [done|]. intros bs cnt' [= <- <-]. destruct (Hin s (Hos s eq_refl)) as (Hn & Hat & Hle).
  destruct (Sections_inside _ _ _ _ _ _ s Hr S (Hos s eq_refl)) as (_ & _ & Hq).
  rewrite zlen_app, zlen_relocate; [nia|lia|]. unfold sec_records, zlen in *. rewrite length_take, length_drop.
  unfold sizeof_btf_ext_info_sec in *. nia.
Qed.

(** Relocation appends the records of the first program section with the name
    asked for, their byte offsets divided by the size of an instruction and
    moved by the number of instructions in front; -ENOENT says there is no such
    section, and a section in front of it whose name lies outside the string
    table makes the code dereference NULL. *)
Theorem ext_reloc_info_spec e alloc junk ds strs b m min_rec x secs sec_name insns_cnt infos cnt :
  section_ok e ds strs -> (forall n, alloc n = true) ->
  btf__new e alloc (encode e ds strs) (zlen (encode e ds strs)) = Some (Ok b) ->
  bytes_ok m -> 4 <= min_rec -> info_ok e m min_rec x secs ->
  0 <= cnt -> zlen infos = cnt * rec_size x ->
  (forall s, find_sec strs sec_name secs = Some (Some s) -> (cnt + num_info s) * rec_size x < 2 ^ 32) ->
  btf_ext_reloc_info e alloc junk b m x sec_name insns_cnt infos cnt
  = reloc_spec e m strs (rec_size x) secs sec_name insns_cnt infos cnt.
Proof.
  intros Hs Ha Hb Hbm Hmin (H1 & H2 & _ & H3 & H4 & H5 & _ & S) Hc Hl Hov.
  destruct (encode_represents e alloc ds strs Hs Ha) as (b' & Hb' & R). assert (b' = b) as -> by congruence.
  unfold btf_ext_reloc_info. unfold in_range in *.
  replace (len x) with (info x + len x - info x) at 2 by lia.
  apply (reloc_secs_spec e alloc junk b ds strs R Ha); try done; try lia. unfold in_range. lia.
Qed.

(** ** A section with one function and one line *)

Definition ex_ext : list Z :=
  split LE 2 BTF_MAGIC ++ [1; 0] ++ encode_words LE [24; 0; 20; 20; 28]
  ++ encode_words LE [8; 1; 1; 16; 3]
  ++ encode_words LE [16; 1; 1; 24; 0; 7; 9].

Lemma ext_new_sound_witness :
  exists x, btf_ext__new LE ex_alloc ex_ext 72 = Some (Ok x) /\
  (forall x, btf_ext__new LE ex_alloc ex_ext 72 = Some (Ok x) ->
     ext_data x = take (Z.to_nat 72) ex_ext /\
     (exists secs, info_ok LE (take (Z.to_nat 72) ex_ext) sizeof_func_info_min (func_info x) secs) /\
     (exists secs, info_ok LE (take (Z.to_nat 72) ex_ext) sizeof_line_info_min (line_info x) secs)) /\
  (24 <= 72 -> is_Some (btf_ext__new LE ex_alloc ex_ext 72)) /\
  (72 < 16 -> btf_ext_parse_hdr LE ex_ext 72 = Some (Ok ()) -> btf_ext__new LE ex_alloc ex_ext 72 = None).
Proof.
  eexists. split; [vm_compute; reflexivity|].
  assert (bytes_ok ex_ext) as H1 by (apply bytes_okb_ok; vm_compute; reflexivity).
  assert (in_range 32 72) as H2 by (unfold in_range; lia).
  assert (72 <= zlen ex_ext) as H3 by (vm_compute; congruence).
  exact (ext_new_sound LE ex_alloc ex_ext 72 H1 H2 H3 (fun _ => eq_refl)).
Defined.

(** The function at byte 16 of section "int" behind 5 instructions. *)
Lemma ext_reloc_info_spec_witness :
  exists b, btf__new LE ex_alloc (encode LE ex_types ex_strs) (zlen (encode LE ex_types ex_strs)) = Some (Ok b) /\
  reloc_spec LE ex_ext ex_strs 8 [Sec 28 1 1] (lit "int") 5 [] 0 = Some (Ok (encode_words LE [7; 3], 1)) /\
  btf_ext_reloc_info LE ex_alloc 0 b ex_ext (ExtInfo 28 8 16) (lit "int") 5 [] 0
  = reloc_spec LE ex_ext ex_strs 8 [Sec 28 1 1] (lit "int") 5 [] 0.
Proof.
  eexists. split; [vm_compute; reflexivity|]. split; [vm_compute; reflexivity|].
  assert (bytes_ok ex_ext) as H1 by (apply bytes_okb_ok; vm_compute; reflexivity).
  assert (info_ok LE ex_ext 8 (ExtInfo 28 8 16) [Sec 28 1 1]) as H2.
  { unfold info_ok, in_range. cbn [rec_size info len]. split_and!; try done; try lia.
    constructor; [vm_compute; reflexivity|vm_compute; reflexivity|lia|constructor]. }
  refine (ext_reloc_info_spec LE ex_alloc 0 ex_types ex_strs _ ex_ext 8 (ExtInfo 28 8 16) [Sec 28 1 1]
    (lit "int") 5 [] 0 ex_section_ok (fun _ => eq_refl) _ H1 _ H2 _ _ _).
  - vm_compute. reflexivity.
  - lia.
  - lia.
  - reflexivity.
  - intros s Hs. vm_compute in Hs. injection Hs as <-. cbn. lia.
Defined.
