(* ===== verification/BpfSys.v ===== *)
(** * System calls of libbpf (src/libbpf/src/bpf.c)

    The attributes [bpf_create_map_xattr] and [bpf_load_program_xattr] pass to
    the kernel, and the second's attempts.  The kernel is a class; descriptors
    it hands out are tracked by its laws. *)

From S2P Require Export BtfExt.
From stdpp Require Export gmap.
Open Scope Z_scope.

Definition BPF_OBJ_NAME_LEN : nat := 16.
Definition EAGAIN := 11.

(** [struct bpf_create_map_attr]. *)
Record bpf_create_map_attr := CreateAttr {
  ca_name : option str; ca_map_type : Z; ca_map_flags : Z; ca_key_size : Z; ca_value_size : Z;
  ca_max_entries : Z; ca_numa_node : Z; ca_btf_fd : Z; ca_btf_key_type_id : Z; ca_btf_value_type_id : Z;
  ca_map_ifindex : Z; ca_inner_map_fd : Z }.

(** The fields of [union bpf_attr] for [BPF_MAP_CREATE]. *)
Record map_create_attr := MapCreate {
  mc_map_type : Z; mc_key_size : Z; mc_value_size : Z; mc_max_entries : Z; mc_map_flags : Z;
  mc_inner_map_fd : Z; mc_numa_node : Z; mc_map_name : list Z; mc_map_ifindex : Z;
  mc_btf_fd : Z; mc_btf_key_type_id : Z; mc_btf_value_type_id : Z }.

(** Records of function or line information. *)
Record info_attr := InfoAttr { ia_info : option (list Z); ia_rec_size : Z; ia_cnt : Z }.

(** [struct bpf_load_program_attr]; instructions are opaque here. *)
Record bpf_load_program_attr (I : Type) := LoadProgAttr {
  la_prog_type : Z; la_expected_attach_type : Z; la_name : option str; la_insns : list I;
  la_license : list Z; la_kern_version : Z; la_prog_ifindex : Z; la_prog_btf_fd : Z;
  la_func_info : info_attr; la_line_info : info_attr; la_log_level : Z }.
Arguments LoadProgAttr {I}.
Arguments la_prog_type {I}. Arguments la_expected_attach_type {I}. Arguments la_name {I}.
Arguments la_insns {I}. Arguments la_license {I}. Arguments la_kern_version {I}.
Arguments la_prog_ifindex {I}. Arguments la_prog_btf_fd {I}. Arguments la_func_info {I}.
Arguments la_line_info {I}. Arguments la_log_level {I}.

(** The fields of [union bpf_attr] for [BPF_PROG_LOAD]. *)
Record prog_load_attr (I : Type) := ProgLoad {
  pl_prog_type : Z; pl_insns : list I; pl_license : list Z; pl_log_level : Z; pl_kern_version : Z;
  pl_prog_name : list Z; pl_prog_ifindex : Z; pl_expected_attach_type : Z; pl_prog_btf_fd : Z;
  pl_func_info : info_attr; pl_line_info : info_attr }.
Arguments ProgLoad {I}.
Arguments pl_prog_type {I}. Arguments pl_insns {I}. Arguments pl_license {I}. Arguments pl_log_level {I}.
Arguments pl_kern_version {I}. Arguments pl_prog_name {I}. Arguments pl_prog_ifindex {I}.
Arguments pl_expected_attach_type {I}. Arguments pl_prog_btf_fd {I}. Arguments pl_func_info {I}.
Arguments pl_line_info {I}.

(** What [BPF_PROG_LOAD] answers: the descriptor or errno, the record sizes it
    leaves in the attributes, and whether it wrote to the log. *)
Record prog_load_answer := Answer { an_ret : result Z; an_func_rec : Z; an_line_rec : Z; an_log : bool }.

(** [bpf(2)] and [close(2)]. *)
Class Kernel (I K : Type) := {
  sys_map_create : map_create_attr -> K -> result Z * K;
  sys_prog_load : prog_load_attr I -> K -> prog_load_answer * K;
  sys_close : Z -> K -> K }.

(** A new descriptor was not open; nothing else changes what is open. *)
Class KernelLaws (I K : Type) `{Kernel I K} := {
  open_fds : K -> gset Z;
  map_create_open a k :
    match sys_map_create a k with
    | (Ok fd, k') => 0 <= fd /\ (fd ∉ open_fds k) /\ open_fds k' = ({[fd]} ∪ open_fds k)
    | (Err _, k') => open_fds k' = open_fds k
    end;
  prog_load_open a k :
    match sys_prog_load a k with
    | (Answer (Ok fd) _ _ _, k') => 0 <= fd /\ (fd ∉ open_fds k) /\ open_fds k' = ({[fd]} ∪ open_fds k)
    | (Answer (Err _) _ _ _, k') => open_fds k' = open_fds k
    end;
  close_open fd k : open_fds (sys_close fd k) = open_fds k ∖ {[fd]} }.

Section bpf.
Context {I K : Type} `{Kernel I K}.
(** Whether the allocator grants its [n]-th request of this many bytes. *)
Context (alloc : nat -> Z -> bool).

(** [memcpy(attr.name, name, min(name_len, BPF_OBJ_NAME_LEN - 1))] over zeros. *)
Definition obj_name (name : option str) : list Z :=
  let s := take (BPF_OBJ_NAME_LEN - 1) (default [] name) in s ++ repeat 0 (BPF_OBJ_NAME_LEN - length s).

Definition bpf_create_map_xattr (a : bpf_create_map_attr) (k : K) : result Z * K :=
  sys_map_create (MapCreate (ca_map_type a) (ca_key_size a) (ca_value_size a) (ca_max_entries a) (ca_map_flags a)
    (ca_inner_map_fd a) (ca_numa_node a) (obj_name (ca_name a)) (ca_map_ifindex a)
    (ca_btf_fd a) (ca_btf_key_type_id a) (ca_btf_value_type_id a)) k.

(** The kernel may answer [EAGAIN] any number of times; [fuel] bounds them. *)
Fixpoint sys_bpf_prog_load (fuel : nat) (a : prog_load_attr I) (k : K) : option (prog_load_answer * K) :=
  match fuel with
  | O => None
  | S fuel =>
      let '(r, k) := sys_prog_load a k in
      match an_ret r with
      | Err errno => if errno =? EAGAIN then sys_bpf_prog_load fuel a k else Some (r, k)
      | Ok _ => Some (r, k)
      end
  end.

(** One record after the other: the part the kernel knows, then zeros. *)
Fixpoint zero_tails (cnt : nat) (orecord : list Z) (op : Z) (info : list Z) (np actual expected : Z) : option (list Z) :=
  match cnt with
  | O => Some info
  | S cnt =>
      bs ← get_bytes orecord op (Z.to_nat expected);
      info ← put_bytes info np bs;
      info ← put_bytes info (np + expected) (repeat 0 (Z.to_nat (actual - expected)));
      zero_tails cnt orecord (op + actual) info (np + actual) actual expected
  end.

(** [actual_rec_size * cnt] is a product of 32-bit integers. *)
Definition alloc_zero_tailing_info (n : nat) (orecord : option (list Z)) (cnt actual expected : Z) : outcome (list Z) :=
  let info_len := u32 (actual * cnt) in
  if negb (alloc n info_len) then Some (Err (- ENOMEM)) else
  orecord ← orecord;
  info ← zero_tails (Z.to_nat cnt) orecord 0 (repeat 0 (Z.to_nat info_len)) 0 actual expected;
  Some (Ok info).

Definition set_func_info (a : prog_load_attr I) (i : info_attr) : prog_load_attr I :=
  ProgLoad (pl_prog_type a) (pl_insns a) (pl_license a) (pl_log_level a) (pl_kern_version a) (pl_prog_name a)
    (pl_prog_ifindex a) (pl_expected_attach_type a) (pl_prog_btf_fd a) i (pl_line_info a).
Definition set_line_info (a : prog_load_attr I) (i : info_attr) : prog_load_attr I :=
  ProgLoad (pl_prog_type a) (pl_insns a) (pl_license a) (pl_log_level a) (pl_kern_version a) (pl_prog_name a)
    (pl_prog_ifindex a) (pl_expected_attach_type a) (pl_prog_btf_fd a) (pl_func_info a) i.
Definition set_log_level (a : prog_load_attr I) (l : Z) : prog_load_attr I :=
  ProgLoad (pl_prog_type a) (pl_insns a) (pl_license a) l (pl_kern_version a) (pl_prog_name a)
    (pl_prog_ifindex a) (pl_expected_attach_type a) (pl_prog_btf_fd a) (pl_func_info a) (pl_line_info a).

(** The attributes after a call: the kernel may have changed the record sizes. *)
Definition answered (a : prog_load_attr I) (r : prog_load_answer) : prog_load_attr I :=
  let f := pl_func_info a in let l := pl_line_info a in
  set_line_info (set_func_info a (InfoAttr (ia_info f) (an_func_rec r) (ia_cnt f))) (InfoAttr (ia_info l) (an_line_rec r) (ia_cnt l)).

(** The loop while the kernel says [E2BIG]: each round corrects one kind of
    information, so there are two at most.  Returns the last errno, or where
    [done] was reached. *)
Inductive correction := Corrected (a : prog_load_attr I) (errno : Z) (k : K) | Done (r : result Z) (k : K).

Fixpoint correct_loop (rounds : nat) (fuel : nat) (n : nat) (la : bpf_load_program_attr I) (a : prog_load_attr I)
    (errno : Z) (finfo linfo : bool) (k : K) : option correction :=
  match rounds with
  | O => Some (Corrected a errno k)
  | S rounds =>
      if negb ((errno =? E2BIG) && (negb finfo || negb linfo)) then Some (Corrected a errno k) else
      let f := pl_func_info a in let l := pl_line_info a in
      let retry a finfo linfo :=
        '(r, k) ← sys_bpf_prog_load fuel a k;
        match an_ret r with
        | Ok fd => Some (Done (Ok fd) k)
        | Err errno => correct_loop rounds fuel (S n) la (answered a r) errno finfo linfo k
        end in
      if negb finfo && negb (ia_cnt f =? 0) && (ia_rec_size f <? ia_rec_size (la_func_info la)) then
        r ← alloc_zero_tailing_info n (ia_info (la_func_info la)) (ia_cnt (la_func_info la))
          (ia_rec_size (la_func_info la)) (ia_rec_size f);
        match r with
        | Err _ => Some (Done (Err ENOMEM) k)
        | Ok info => retry (set_func_info a (InfoAttr (Some info) (ia_rec_size (la_func_info la)) (ia_cnt f))) true linfo
        end
      else if negb linfo && negb (ia_cnt l =? 0) && (ia_rec_size l <? ia_rec_size (la_line_info la)) then
        r ← alloc_zero_tailing_info n (ia_info (la_line_info la)) (ia_cnt (la_line_info la))
          (ia_rec_size (la_line_info la)) (ia_rec_size l);
        match r with
        | Err _ => Some (Done (Err ENOMEM) k)
        | Ok info => retry (set_line_info a (InfoAttr (Some info) (ia_rec_size (la_line_info la)) (ia_cnt l))) finfo true
        end
      else Some (Corrected a errno k)
  end.

(** The result and the log buffer: [None] while it has not been written. *)
Definition bpf_load_program_xattr (fuel : nat) (la : bpf_load_program_attr I) (log_buf : bool) (log_buf_sz : Z) (k : K) :
    option (result Z * option bool * K) :=
  if negb (Bool.eqb (negb log_buf) (log_buf_sz =? 0)) then Some (Err EINVAL, None, k) else
  let log_level := la_log_level la in
  if (2 <? log_level) || (negb (log_level =? 0) && negb log_buf) then Some (Err EINVAL, None, k) else
  let attr := ProgLoad (la_prog_type la) (la_insns la) (la_license la) log_level (la_kern_version la)
    (obj_name (la_name la)) (la_prog_ifindex la) (la_expected_attach_type la) (la_prog_btf_fd la)
    (la_func_info la) (la_line_info la) in
  '(r, k) ← sys_bpf_prog_load fuel attr k;
  let log := if log_level =? 0 then None else Some (an_log r) in
  match an_ret r with
  | Ok fd => Some (Ok fd, log, k)
  | Err errno =>
      c ← correct_loop 2 fuel 0 la (answered attr r) errno false false k;
      match c with
      | Done r k => Some (r, log, k)
      | Corrected attr errno k =>
          if negb (log_level =? 0) || negb log_buf then Some (Err errno, log, k) else
          '(r, k) ← sys_bpf_prog_load fuel (set_log_level attr 1) k;
          Some (an_ret r, Some (an_log r), k)
      end
  end.
End bpf.

(** ** Descriptors *)

(** What a call that returns a descriptor does to the open ones. *)
Definition opened {I K} `{KernelLaws I K} (k : K) (r : result Z) (k' : K) : Prop :=
  match r with
  | Ok fd => 0 <= fd /\ (fd ∉ open_fds k) /\ open_fds k' = {[fd]} ∪ open_fds k
  | Err _ => open_fds k' = open_fds k
  end.

Section descriptors.
Context {I K : Type} `{KernelLaws I K}.

Lemma opened_after k0 k r k' : open_fds k = open_fds k0 -> opened k r k' -> opened k0 r k'.
Proof. unfold opened. by intros ->. Qed.

Lemma create_map_opened a k r k' : bpf_create_map_xattr a k = (r, k') -> opened k r k'.
Proof. unfold bpf_create_map_xattr. intros E. pose proof (map_create_open (MapCreate (ca_map_type a) (ca_key_size a)
  (ca_value_size a) (ca_max_entries a) (ca_map_flags a) (ca_inner_map_fd a) (ca_numa_node a) (obj_name (ca_name a))
  (ca_map_ifindex a) (ca_btf_fd a) (ca_btf_key_type_id a) (ca_btf_value_type_id a)) k) as Ho. rewrite E in Ho. by destruct r. Qed.

Lemma prog_load_opened fuel : forall a k r k', sys_bpf_prog_load fuel a k = Some (r, k') -> opened k (an_ret r) k'.
Proof.
  induction fuel as [|fuel IH]; intros a k r k'; cbn [sys_bpf_prog_load]; [done|].
  pose proof (prog_load_open a k) as Ho. destruct (sys_prog_load a k) as [[ret fr lr lg] k1]. cbn [an_ret].
  destruct ret as [fd|errno]; [by intros [= <- <-]|]. destruct (errno =? EAGAIN); [|by intros [= <- <-]].
  intros E. eapply opened_after; [exact Ho|]. by eapply IH.
Qed.

Context (alloc : nat -> Z -> bool).

Definition correction_opened (k : K) (c : @correction I K) : Prop :=
  match c with
  | Corrected _ _ k' => open_fds k' = open_fds k
  | Done r k' => opened k r k'
  end.

Lemma correct_loop_opened fuel la rounds : forall n a errno finfo linfo k c,
  correct_loop alloc rounds fuel n la a errno finfo linfo k = Some c -> correction_opened k c.
Proof.
  induction rounds as [|rounds IH]; intros n a errno finfo linfo k c; cbn [correct_loop]; [by intros [= <-]|].
  destruct (negb _); [by intros [= <-]|].
  assert (forall n a finfo linfo, ('(r, k1) ← sys_bpf_prog_load fuel a k;
    match an_ret r with
    | Ok fd => Some (Done (Ok fd) k1)
    | Err errno => correct_loop alloc rounds fuel n la (answered a r) errno finfo linfo k1
    end) = Some c -> correction_opened k c) as Hretry.
  { intros n' a' f l. destruct (sys_bpf_prog_load fuel a' k) as [[r k1]|] eqn:El; [|done]. cbn [mbind option_bind].
    pose proof (prog_load_opened _ _ _ _ _ El) as Ho. destruct (an_ret r) as [fd|err]; [by intros [= <-]|].
    intros Hc%IH. cbn in Ho. destruct c as [? ? k2|r2 k2]; cbn in *; [congruence|by eapply opened_after]. }
  destruct (negb finfo && _ && _); [|destruct (negb linfo && _ && _); [|by intros [= <-]]];
    (destruct (alloc_zero_tailing_info _ _ _ _ _ _) as [[info|err]|]; cbn [mbind option_bind]; [|by intros [= <-]|done]); apply Hretry.
Qed.

Lemma load_xattr_opened fuel la log_buf sz k r log k' :
  bpf_load_program_xattr alloc fuel la log_buf sz k = Some (r, log, k') -> opened k r k'.
Proof.
  unfold bpf_load_program_xattr. destruct (negb _); [by intros [= <- _ <-]|]. destruct (_ || _); [by intros [= <- _ <-]|].
  match goal with |- context [sys_bpf_prog_load fuel ?a k] => destruct (sys_bpf_prog_load fuel a k) as [[a1 k1]|] eqn:E1; [|done] end.
  cbn [mbind option_bind]. pose proof (prog_load_opened _ _ _ _ _ E1) as Ho. destruct (an_ret a1) as [fd|errno]; [by intros [= <- _ <-]|].
  cbn in Ho. destruct (correct_loop _ _ _ _ _ _ _ _ _ _) as [c|] eqn:Ec; [|done]. cbn [mbind option_bind].
  apply correct_loop_opened in Ec. destruct c as [attr e2 k2|r2 k2]; cbn in Ec.
  - destruct (_ || _); [intros [= <- _ <-]; cbn; congruence|].
    destruct (sys_bpf_prog_load fuel _ k2) as [[a3 k3]|] eqn:E3; [|done]. intros [= <- _ <-].
    eapply opened_after; [|by eapply prog_load_opened]. congruence.
  - intros [= <- _ <-]. by eapply opened_after.
Qed.
End descriptors.

(** ** Requests *)

(** A request for the program of [la], whatever its information and its log. *)
Record requests {I} (la : bpf_load_program_attr I) (a : prog_load_attr I) : Prop := {
  rq_type : pl_prog_type a = la_prog_type la;
  rq_attach : pl_expected_attach_type a = la_expected_attach_type la;
  rq_insns : pl_insns a = la_insns la;
  rq_license : pl_license a = la_license la;
  rq_version : pl_kern_version a = la_kern_version la;
  rq_name : pl_prog_name a = obj_name (la_name la);
  rq_ifindex : pl_prog_ifindex a = la_prog_ifindex la
}.

Section requests.
Context {I K : Type} `{Kernel I K}.

(** The kernel gave [fd] for a request of this program. *)
Definition granted (la : bpf_load_program_attr I) (fd : Z) : Prop :=
  exists a (k k' : K) r, requests la a /\ sys_prog_load a k = (r, k') /\ an_ret r = Ok fd.

Lemma prog_load_granted la fuel : forall a k r k' fd, requests la a ->
  sys_bpf_prog_load fuel a k = Some (r, k') -> an_ret r = Ok fd -> granted la fd.
Proof.
  induction fuel as [|fuel IH]; intros a k r k' fd Ha; cbn [sys_bpf_prog_load]; [done|].
  destruct (sys_prog_load a k) as [r1 k1] eqn:E. destruct (an_ret r1) as [fd1|errno] eqn:Er.
  - intros [= <- <-] Hfd. by exists a, k, k1, r1.
  - destruct (errno =? EAGAIN); [by apply IH|]. intros [= <- <-]. by rewrite Er.
Qed.

Lemma requests_answered (la : bpf_load_program_attr I) a r : requests la a -> requests la (answered a r).
Proof. by intros []. Qed.

Lemma correct_loop_granted alloc fuel la rounds : forall n a errno finfo linfo k c,
  requests la a -> correct_loop alloc rounds fuel n la a errno finfo linfo k = Some c ->
  match c with
  | Corrected a _ _ => requests la a
  | Done (Ok fd) _ => granted la fd
  | Done (Err _) _ => True
  end.
Proof.
  induction rounds as [|rounds IH]; intros n a errno finfo linfo k c Ha; cbn [correct_loop]; [by intros [= <-]|].
  destruct (negb _); [by intros [= <-]|].
  assert (forall n a finfo linfo, requests la a -> ('(r, k1) ← sys_bpf_prog_load fuel a k;
    match an_ret r with
    | Ok fd => Some (Done (Ok fd) k1)
    | Err errno => correct_loop alloc rounds fuel n la (answered a r) errno finfo linfo k1
    end) = Some c -> match c with Corrected a _ _ => requests la a | Done (Ok fd) _ => granted la fd | Done (Err _) _ => True end) as Hretry.
  { intros n' a' f l Ha'. destruct (sys_bpf_prog_load fuel a' k) as [[r k1]|] eqn:El; [|done]. cbn [mbind option_bind].
    destruct (an_ret r) as [fd|err] eqn:Er; [intros [= <-]; by eapply prog_load_granted|]. apply IH. by apply requests_answered. }
  destruct (negb finfo && _ && _); [|destruct (negb linfo && _ && _); [|by intros [= <-]]];
    (destruct (alloc_zero_tailing_info _ _ _ _ _ _) as [[info|err]|]; cbn [mbind option_bind]; [|by intros [= <-]|done]);
    apply Hretry; by destruct Ha.
Qed.

Lemma load_xattr_granted alloc fuel la log_buf sz k fd log k' :
  bpf_load_program_xattr alloc fuel la log_buf sz k = Some (Ok fd, log, k') -> granted la fd.
Proof.
  unfold bpf_load_program_xattr. destruct (negb _); [done|]. destruct (_ || _); [done|].
  match goal with |- context [sys_bpf_prog_load fuel ?a k] => assert (requests la a) as Ha by (by split); revert Ha; generalize a end.
  intros a Ha. destruct (sys_bpf_prog_load fuel a k) as [[a1 k1]|] eqn:E1; [|done].
  cbn [mbind option_bind]. destruct (an_ret a1) as [fd1|errno] eqn:Er; [intros [= <- _ _]; by eapply prog_load_granted|].
  destruct (correct_loop _ _ _ _ _ _ _ _ _ _) as [c|] eqn:Ec; [|done]. cbn [mbind option_bind].
  apply correct_loop_granted in Ec; [|by apply requests_answered]. destruct c as [attr e2 k2|r2 k2].
  - destruct (_ || _); [done|]. destruct (sys_bpf_prog_load fuel _ k2) as [[a3 k3]|] eqn:E3; [|done]. intros [= E _ _].
    eapply prog_load_granted; [|exact E3|exact E]. by destruct Ec.
  - by intros [= -> _ _].
Qed.
End requests.

(** ** Records the kernel knows only in part *)

Definition tail_zeroed (actual expected : Z) (record : list Z) : list Z :=
  take (Z.to_nat expected) record ++ repeat 0 (Z.to_nat (actual - expected)).

(** [cnt] records of [actual] bytes. *)
Fixpoint records_of (cnt : nat) (actual : Z) (m : list Z) : list (list Z) :=
  match cnt with
  | O => []
  | S cnt => take (Z.to_nat actual) m :: records_of cnt actual (drop (Z.to_nat actual) m)
  end.

Lemma put_bytes_mid pre old rest bs :
  zlen old = zlen bs -> put_bytes (pre ++ old ++ rest) (zlen pre) bs = Some (pre ++ bs ++ rest).
Proof.
  intros Hl. unfold put_bytes, zlen in *. rewrite !length_app. rewrite decide_True by lia.
  rewrite Nat2Z.id, take_app_length. do 3 f_equal. rewrite drop_app_ge by lia. rewrite drop_app_ge by lia.
  replace (Z.to_nat (Z.of_nat (length pre) + Z.of_nat (length bs)) - length pre - length old)%nat with 0%nat by lia. done.
Qed.

Lemma repeat_split (n m : nat) : (n <= m)%nat -> repeat 0 m = repeat 0 n ++ repeat 0 (m - n).
Proof. intros. rewrite <- repeat_app. f_equal. lia. Qed.

Lemma zlen_repeat_Z (x : Z) n : zlen (repeat x n) = Z.of_nat n.
Proof. unfold zlen. by rewrite repeat_length. Qed.

Lemma zero_tails_spec actual expected cnt : 0 <= expected <= actual -> forall skipped m fin left,
  Z.of_nat cnt * actual <= zlen m -> zlen left = Z.of_nat cnt * actual -> left = repeat 0 (length left) ->
  zero_tails cnt (skipped ++ m) (zlen skipped) (fin ++ left) (zlen fin) actual expected =
    Some (fin ++ concat (List.map (tail_zeroed actual expected) (records_of cnt actual m))).
Proof.
  intros Hr. induction cnt as [|cnt IH]; intros skipped m fin left Hm Hl Hz; cbn [zero_tails records_of List.map concat].
  - assert (left = []) as -> by (unfold zlen in Hl; destruct left; [done|cbn in Hl; lia]). done.
  - assert (Z.to_nat actual <= length m)%nat as Hlm by (unfold zlen in *; nia).
    pose proof (firstn_skipn (Z.to_nat actual) m) as Em. set (r := take (Z.to_nat actual) m) in *. set (m' := drop (Z.to_nat actual) m) in *.
    assert (zlen r = actual) as Hzr by (unfold r, zlen; rewrite length_take; lia).
    assert (get_bytes (skipped ++ m) (zlen skipped) (Z.to_nat expected) = Some (take (Z.to_nat expected) r)) as ->.
    { unfold get_bytes. rewrite decide_True by (rewrite zlen_app; unfold zlen in *; lia).
      unfold zlen. rewrite Nat2Z.id, drop_app_length. f_equal. unfold r. rewrite take_take. f_equal. lia. }
    cbn [mbind option_bind]. unfold tail_zeroed at 1. set (known := take (Z.to_nat expected) r).
    assert (zlen known = expected) as Hzk by (unfold known, zlen in *; rewrite length_take; lia).
    set (zs := repeat 0 (Z.to_nat (actual - expected))). assert (zlen zs = actual - expected) as Hzz by (unfold zs; rewrite zlen_repeat_Z; lia).
    assert (exists left', left = repeat 0 (Z.to_nat expected) ++ repeat 0 (Z.to_nat (actual - expected)) ++ left' /\
      zlen left' = Z.of_nat cnt * actual /\ left' = repeat 0 (length left')) as (left' & -> & Hl' & Hz').
    { exists (repeat 0 (length left - Z.to_nat actual)). split; [|split; [rewrite zlen_repeat_Z; unfold zlen in *; nia|by rewrite repeat_length]].
      rewrite Hz at 1. rewrite (repeat_split (Z.to_nat actual)) by (unfold zlen in *; nia). rewrite app_assoc, <- (repeat_app 0 (Z.to_nat expected)).
      f_equal. rewrite <- Z2Nat.inj_add by lia. by replace (expected + (actual - expected)) with actual by lia. }
    rewrite put_bytes_mid by (rewrite zlen_repeat_Z; lia). cbn [mbind option_bind].
    replace (zlen fin + expected) with (zlen (fin ++ known)) by (rewrite zlen_app; lia).
    rewrite app_assoc, put_bytes_mid by (rewrite !zlen_repeat_Z; lia). cbn [mbind option_bind].
    replace (zlen skipped + actual) with (zlen (skipped ++ r)) by (rewrite zlen_app; lia).
    replace (zlen fin + actual) with (zlen ((fin ++ known) ++ zs)) by (rewrite !zlen_app; lia).
    rewrite <- Em, !app_assoc. rewrite <- (app_assoc _ r m'), Em.
    rewrite <- Em, app_assoc. rewrite IH; [by rewrite <- !app_assoc| |done|done].
    assert (zlen m = zlen r + zlen m') by (rewrite <- Em; apply zlen_app). nia.
Qed.

(** The records given to a kernel that knows only the first bytes of each are
    the old ones with the unknown bytes zero; the product of size and number
    must fit 32 bits, or the copy leaves its buffer. *)
Theorem tailing_info_spec alloc n orecord cnt actual expected :
  0 <= expected <= actual -> 0 <= cnt -> cnt * actual <= zlen orecord ->
  (actual * cnt < 2 ^ 32 ->
   alloc_zero_tailing_info alloc n (Some orecord) cnt actual expected =
     Some (if alloc n (actual * cnt)
       then Ok (concat (List.map (tail_zeroed actual expected) (records_of (Z.to_nat cnt) actual orecord)))
       else Err (- ENOMEM))) /\
  (2 ^ 32 <= actual * cnt -> actual < 2 ^ 32 -> alloc n (u32 (actual * cnt)) = true ->
   alloc_zero_tailing_info alloc n (Some orecord) cnt actual expected = None).
Proof.
  intros Hr Hc Hl. unfold alloc_zero_tailing_info. split.
  - intros Hsz. assert (u32 (actual * cnt) = actual * cnt) as -> by (apply wrap_small; unfold in_range; nia).
    destruct (alloc n (actual * cnt)); cbn [negb mbind option_bind]; [|done].
    pose proof (zero_tails_spec actual expected (Z.to_nat cnt) Hr [] orecord [] (repeat 0 (Z.to_nat (actual * cnt)))) as Hs.
    rewrite !app_nil_l in Hs. change (zlen (@nil Z)) with 0 in Hs. rewrite Hs; [done|..].
    + rewrite Z2Nat.id by lia. lia.
    + rewrite zlen_repeat_Z, Z2Nat.id by nia. rewrite Z2Nat.id by lia. lia.
    + by rewrite repeat_length.
  - intros Hsz Ha Hal. rewrite Hal. cbn [negb mbind option_bind].
    destruct (zero_tails _ _ _ _ _ _ _) as [info|] eqn:E; [|done]. exfalso.
    assert (forall k op np info info', zero_tails k orecord op info np actual expected = Some info' ->
      zlen info' = zlen info /\ np + Z.of_nat k * actual <= Z.max np (zlen info)) as Hbound.
    { clear -Hr. induction k as [|k IH]; intros op np info info'; cbn [zero_tails]; [intros [= <-]; lia|].
      destruct (get_bytes _ _ _) as [bs|]; [|done]. cbn [mbind option_bind].
      destruct (put_bytes info np bs) as [i1|] eqn:E1; [|done]. cbn [mbind option_bind].
      destruct (put_bytes i1 (np + expected) _) as [i2|] eqn:E2; [|done]. cbn [mbind option_bind].
      intros H%IH. assert (is_Some (put_bytes i1 (np + expected) (repeat 0 (Z.to_nat (actual - expected))))) as Hb%put_bytes_is_Some by by eexists.
      rewrite zlen_repeat_Z in Hb. apply zlen_put_bytes in E1, E2. lia. }
    apply Hbound in E. rewrite zlen_repeat_Z in E. pose proof (wrap_range 32 (actual * cnt) ltac:(lia)) as Hw. unfold in_range in Hw. nia.
Qed.

Lemma tailing_info_spec_witness :
  (8 * 2 < 2 ^ 32 ->
   alloc_zero_tailing_info (fun _ _ => true) 0 (Some (seqZ 1 16)) 2 8 4 =
     Some (Ok (concat (List.map (tail_zeroed 8 4) (records_of 2 8 (seqZ 1 16)))))) /\
  concat (List.map (tail_zeroed 8 4) (records_of 2 8 (seqZ 1 16))) = [1; 2; 3; 4; 0; 0; 0; 0; 9; 10; 11; 12; 0; 0; 0; 0].
Proof.
  assert (0 <= 4 <= 8) as H1 by lia. assert (0 <= 2) as H2 by lia.
  assert (2 * 8 <= zlen (seqZ 1 16)) as H3 by (vm_compute; discriminate).
  split; [exact (proj1 (tailing_info_spec (fun _ _ => true) 0 (seqZ 1 16) 2 8 4 H1 H2 H3))|vm_compute; reflexivity].
Defined.

(** Enough records for their number, which fit 32 bits. *)
Definition info_ok (i : info_attr) : Prop :=
  ia_cnt i = 0 \/
  exists m, ia_info i = Some m /\ 0 <= ia_cnt i /\ ia_rec_size i * ia_cnt i < 2 ^ 32 /\ ia_cnt i * ia_rec_size i <= zlen m.

Section attempts.
Context {I K : Type} `{KernelLaws I K} (alloc : nat -> Z -> bool) (fuel : nat).
(** [EAGAIN] comes less than [fuel] times in a row. *)
Hypothesis Hfuel : forall (a : prog_load_attr I) k, exists r k', sys_bpf_prog_load fuel a k = Some (r, k') /\
  0 <= an_func_rec r /\ 0 <= an_line_rec r.

Lemma tailing_defined n i expected :
  info_ok i -> negb (ia_cnt i =? 0) = true -> 0 <= expected -> expected < ia_rec_size i ->
  is_Some (alloc_zero_tailing_info alloc n (ia_info i) (ia_cnt i) (ia_rec_size i) expected).
Proof.
  intros [E|(m & -> & H1 & H2 & H3)] Hc He Hlt; [by rewrite E in Hc|].
  rewrite (proj1 (tailing_info_spec alloc n m (ia_cnt i) (ia_rec_size i) expected ltac:(lia) H1 H3) H2). by eexists.
Qed.

(** The attributes of an attempt: as many records as the caller has. *)
Definition attempt_ok (la : bpf_load_program_attr I) (a : prog_load_attr I) : Prop :=
  ia_cnt (pl_func_info a) = ia_cnt (la_func_info la) /\ 0 <= ia_rec_size (pl_func_info a) /\
  ia_cnt (pl_line_info a) = ia_cnt (la_line_info la) /\ 0 <= ia_rec_size (pl_line_info a).

Lemma answered_ok la a r :
  attempt_ok la a -> 0 <= an_func_rec r -> 0 <= an_line_rec r -> attempt_ok la (answered a r).
Proof. by intros (H1 & _ & H3 & _) Hf Hl. Qed.

Lemma correct_loop_defined la rounds : forall n a errno finfo linfo k,
  info_ok (la_func_info la) -> info_ok (la_line_info la) -> attempt_ok la a ->
  is_Some (correct_loop alloc rounds fuel n la a errno finfo linfo k).
Proof using Hfuel.
  induction rounds as [|rounds IH]; intros n a errno finfo linfo k Hf Hl Ha; cbn [correct_loop]; [by eexists|].
  destruct (negb _); [by eexists|].
  assert (forall n a finfo linfo, attempt_ok la a -> is_Some ('(r, k1) ← sys_bpf_prog_load fuel a k;
    match an_ret r with
    | Ok fd => Some (Done (Ok fd) k1)
    | Err errno => correct_loop alloc rounds fuel n la (answered a r) errno finfo linfo k1
    end)) as Hretry.
  { intros n' a' f l Ha'. destruct (Hfuel a' k) as (r & k1 & -> & R1 & R2). cbn [mbind option_bind].
    destruct (an_ret r); [by eexists|]. apply IH; [done|done|]. by apply answered_ok. }
  destruct Ha as (A1 & A2 & A3 & A4).
  destruct (negb finfo && _ && _) eqn:Ef; [|destruct (negb linfo && _ && _) eqn:El; [|by eexists]].
  - rewrite !andb_true_iff in Ef. destruct Ef as [[_ Ef] Elt%Z.ltb_lt]. rewrite A1 in Ef.
    destruct (tailing_defined n _ _ Hf Ef A2 Elt) as [[info|err] ->]; cbn [mbind option_bind]; [|by eexists].
    apply Hretry. split; [exact A1|]. cbn. split; [lia|by split].
  - rewrite !andb_true_iff in El. destruct El as [[_ El] Elt%Z.ltb_lt]. rewrite A3 in El.
    destruct (tailing_defined n _ _ Hl El A4 Elt) as [[info|err] ->]; cbn [mbind option_bind]; [|by eexists].
    apply Hretry. split; [exact A1|]. split; [exact A2|]. cbn. split; [done|lia].
Qed.
End attempts.

Lemma load_program_defined {I K : Type} `{KernelLaws I K} alloc fuel la log_buf sz k :
  (forall (a : prog_load_attr I) (k : K), exists r k', sys_bpf_prog_load fuel a k = Some (r, k') /\
    0 <= an_func_rec r /\ 0 <= an_line_rec r) ->
  info_ok (la_func_info la) -> info_ok (la_line_info la) ->
  0 <= ia_rec_size (la_func_info la) -> 0 <= ia_rec_size (la_line_info la) ->
  is_Some (bpf_load_program_xattr alloc fuel la log_buf sz k).
Proof.
  intros Hfuel Hf Hl Hfr Hlr. unfold bpf_load_program_xattr. destruct (negb _); [by eexists|]. destruct (_ || _); [by eexists|].
  match goal with |- context [sys_bpf_prog_load fuel ?a k] => set (attr := a) end.
  destruct (Hfuel attr k) as (r & k1 & -> & R1 & R2). cbn [mbind option_bind]. destruct (an_ret r) as [fd|errno]; [by eexists|].
  assert (attempt_ok la attr) as Ha by by split; [|split; [|split]].
  destruct (correct_loop_defined alloc fuel Hfuel la 2 0 (answered attr r) errno false false k1 Hf Hl) as [c ->]; [by apply answered_ok|].
  cbn [mbind option_bind]. destruct c as [a2 e2 k2|r2 k2]; [|by eexists]. destruct (_ || _); [by eexists|].
  destruct (Hfuel (set_log_level a2 1) k2) as (r3 & k3 & -> & _). by eexists.
Qed.


(** *** A kernel *)

(** It has open descriptors and hands out the next free one; a script says
    which requests it refuses, with errno and the record sizes it knows.  It is
    never busy. *)
Record ex_kernel := ExKernel { ek_open : gset Z; ek_script : list (Z * nat) }.

Definition ex_new_fd (k : ex_kernel) : Z := Z.max 3 (foldr Z.max 0 (elements (ek_open k)) + 1).

Definition ex_grant (k : ex_kernel) : result Z * Z * ex_kernel :=
  let fd := ex_new_fd k in (Ok fd, 8, ExKernel ({[fd]} ∪ ek_open k) (tail (ek_script k))).

Definition ex_ask (k : ex_kernel) : result Z * Z * ex_kernel :=
  match ek_script k with
  | (errno, rec) :: script =>
      if (errno =? 0) || (errno =? EAGAIN) then ex_grant k
      else (Err errno, Z.of_nat rec, ExKernel (ek_open k) script)
  | [] => ex_grant k
  end.

#[export] Instance ex_kernel_ops (I : Type) : Kernel I ex_kernel := {
  sys_map_create a k := let '(r, _, k) := ex_ask k in (r, k);
  sys_prog_load a k := let '(r, rec, k) := ex_ask k in (Answer r rec rec false, k);
  sys_close fd k := ExKernel (ek_open k ∖ {[fd]}) (ek_script k) }.

Lemma ex_new_fd_free k : 0 <= ex_new_fd k /\ ex_new_fd k ∉ ek_open k.
Proof.
  unfold ex_new_fd. split; [lia|]. intros Hin. apply elem_of_elements in Hin. revert Hin.
  generalize (elements (ek_open k)). intros l. assert (forall x, x ∈ l -> x <= foldr Z.max 0 l) as Hmax.
  { induction l as [|y l IH]; intros x Hx; [by apply elem_of_nil in Hx|]. cbn.
    apply elem_of_cons in Hx as [->|Hx]; [lia|]. specialize (IH x Hx). lia. }
  intros Hin. specialize (Hmax _ Hin). lia.
Qed.

Lemma ex_ask_open k :
  match ex_ask k with
  | (Ok fd, rec, k') => 0 <= fd /\ (fd ∉ ek_open k) /\ ek_open k' = ({[fd]} ∪ ek_open k) /\ 0 <= rec
  | (Err errno, rec, k') => ek_open k' = ek_open k /\ errno <> EAGAIN /\ 0 <= rec
  end.
Proof.
  destruct (ex_new_fd_free k) as [Hp Hf]. unfold ex_ask.
  destruct (ek_script k) as [|[errno rec] script]; [done|].
  destruct (Z.eqb_spec errno EAGAIN) as [->|Hne]; [by rewrite orb_true_r|]. rewrite orb_false_r.
  destruct (errno =? 0); [done|]. split; [done|]. split; [done|]. lia.
Qed.

#[export] Instance ex_kernel_laws (I : Type) : KernelLaws I ex_kernel.
Proof.
  refine (Build_KernelLaws I ex_kernel _ ek_open _ _ _); [| |done];
    intros a k; cbn; pose proof (ex_ask_open k) as Hk; destruct (ex_ask k) as [[[fd|errno] rec] k']; tauto.
Defined.

(** It never has to be asked twice. *)
Lemma ex_kernel_answers {I} fuel (a : prog_load_attr I) (k : ex_kernel) : exists r k',
  sys_bpf_prog_load (S fuel) a k = Some (r, k') /\ 0 <= an_func_rec r /\ 0 <= an_line_rec r.
Proof.
  cbn. pose proof (ex_ask_open k) as Hk. destruct (ex_ask k) as [[[fd|errno] rec] k']; cbn.
  - eexists _, _. split; [done|]. by destruct Hk as (_ & _ & _ & ?).
  - destruct Hk as (_ & Hne & Hrec). apply Z.eqb_neq in Hne. rewrite Hne. eexists _, _. by split.
Qed.

(** A program with two records of eight bytes, and a kernel that knows four of each. *)
Definition ex_load_attr : bpf_load_program_attr unit :=
  LoadProgAttr 6 0 (Some (lit "prog")) [tt] [] 0 0 0 (InfoAttr (Some (seqZ 1 16)) 8 2) (InfoAttr None 0 0) 0.
Definition ex_old_kernel : ex_kernel := ExKernel ∅ [(E2BIG, 4%nat)].

Example ex_load_corrected :
  bpf_load_program_xattr (fun _ _ => true) 8 ex_load_attr true 64 ex_old_kernel =
  Some (Ok 3, None, ExKernel ({[3]} ∪ ∅) []).
Proof. vm_compute. reflexivity. Qed.

