(* ===== verification/BpfAttr.v ===== *)
(** * [union bpf_attr] (src/libbpf/include/uapi/linux/bpf.h)

    The layout of C structures, the union's structures and what assignments to
    members make of its bytes. *)

From S2P Require Export Memory.
From Stdlib Require Export String.
From stdpp Require Import list strings.
Open Scope Z_scope.

(** ** Structures *)

(** A member is at a multiple of its alignment; those of a union in a structure
    share a place. *)
Record member := Member { names : list string; width : nat; alignment : Z }.
Definition __u32 (f : string) := Member [f] 4 4.
Definition __u64 (f : string) := Member [f] 8 8.
Definition char_array (f : string) (n : nat) := Member [f] n 1.
Definition struct := list member.

(** [pos] up to the next multiple of [w]. *)
Definition align_up (pos w : Z) : Z := pos + (- pos) mod w.

Fixpoint place (pos : Z) (s : struct) : list (Z * member) :=
  match s with
  | [] => []
  | m :: s => let o := align_up pos (alignment m) in (o, m) :: place (o + Z.of_nat (width m)) s
  end.

(** Where a member is and how wide. *)
Definition member_at (s : struct) (f : string) : option (Z * nat) :=
  '(_, (o, m)) ← list_find (fun om => f ∈ names om.2) (place 0 s); Some (o, width m).

Definition end_of (s : struct) : Z := default 0 ((fun om => om.1 + Z.of_nat (width om.2)) <$> last (place 0 s)).

Definition assign (e : endian) (s : struct) (fv : string * Z) (a : list Z) : option (list Z) :=
  '(o, w) ← member_at s fv.1; store e w a o fv.2.

Fixpoint assign_all (e : endian) (s : struct) (fvs : list (string * Z)) (a : list Z) : option (list Z) :=
  match fvs with
  | [] => Some a
  | fv :: fvs => a ← assign e s fv a; assign_all e s fvs a
  end.

(** ** The union *)

Open Scope string_scope.
Definition attr_map_create : struct :=
  [__u32 "map_type"; __u32 "key_size"; __u32 "value_size"; __u32 "max_entries"; __u32 "map_flags"; __u32 "inner_map_fd";
   __u32 "numa_node"; char_array "map_name" 16; __u32 "map_ifindex"; __u32 "btf_fd"; __u32 "btf_key_type_id";
   __u32 "btf_value_type_id"].
Definition attr_elem : struct := [__u32 "map_fd"; __u64 "key"; Member ["value"; "next_key"] 8 8; __u64 "flags"].
Definition attr_prog_load : struct :=
  [__u32 "prog_type"; __u32 "insn_cnt"; __u64 "insns"; __u64 "license"; __u32 "log_level"; __u32 "log_size";
   __u64 "log_buf"; __u32 "kern_version"; __u32 "prog_flags"; char_array "prog_name" 16;
   __u32 "prog_ifindex"; __u32 "expected_attach_type"; __u32 "prog_btf_fd"; __u32 "func_info_rec_size";
   __u64 "func_info"; __u32 "func_info_cnt"; __u32 "line_info_rec_size"; __u64 "line_info"; __u32 "line_info_cnt"].
Definition attr_obj : struct := [__u64 "pathname"; __u32 "bpf_fd"; __u32 "file_flags"].
Definition attr_attach : struct := [__u32 "target_fd"; __u32 "attach_bpf_fd"; __u32 "attach_type"; __u32 "attach_flags"].
Definition attr_test : struct :=
  [__u32 "prog_fd"; __u32 "retval"; __u32 "data_size_in"; __u32 "data_size_out"; __u64 "data_in"; __u64 "data_out";
   __u32 "repeat"; __u32 "duration"].
Definition attr_id : struct := [Member ["start_id"; "prog_id"; "map_id"; "btf_id"] 4 4; __u32 "next_id"; __u32 "open_flags"].
Definition attr_info : struct := [__u32 "bpf_fd"; __u32 "info_len"; __u64 "info"].
Definition attr_query : struct :=
  [__u32 "target_fd"; __u32 "attach_type"; __u32 "query_flags"; __u32 "attach_flags"; __u64 "prog_ids"; __u32 "prog_cnt"].
Definition attr_raw_tracepoint : struct := [__u64 "name"; __u32 "prog_fd"].
Definition attr_btf_load : struct := [__u64 "btf"; __u64 "btf_log_buf"; __u32 "btf_size"; __u32 "btf_log_size"; __u32 "btf_log_level"].
Definition attr_task_fd_query : struct :=
  [__u32 "pid"; __u32 "fd"; __u32 "flags"; __u32 "buf_len"; __u64 "buf"; __u32 "prog_id"; __u32 "fd_type";
   __u64 "probe_offset"; __u64 "probe_addr"].
Close Scope string_scope.

(** The longest structure, up to a multiple of 8. *)
Definition sizeof_bpf_attr : Z := align_up (end_of attr_prog_load) 8.

(** A zeroed union after assignments to members of one structure. *)
Definition bpf_attr (e : endian) (s : struct) (fvs : list (string * Z)) : option (list Z) :=
  assign_all e s fvs (repeat 0 (Z.to_nat sizeof_bpf_attr)).

Example bpf_attr_size : sizeof_bpf_attr = 112.
Proof. reflexivity. Qed.

Lemma assign_all_app e s fvs fvs' a : assign_all e s (fvs ++ fvs') a = a ← assign_all e s fvs a; assign_all e s fvs' a.
Proof.
  revert a. induction fvs as [|fv fvs IH]; intros a; [done|]. cbn. destruct (assign e s fv a) as [a'|]; [|done]. apply IH.
Qed.

Lemma bpf_attr_app e s fvs fvs' : (a ← bpf_attr e s fvs; assign_all e s fvs' a) = bpf_attr e s (fvs ++ fvs').
Proof. symmetry. apply assign_all_app. Qed.
