(* ===== verification/BpfCalls.v ===== *)
(** * The wrappers of bpf(2) (src/libbpf/src/bpf.c)

    Each fills a [union bpf_attr], makes one call and gives back what the kernel
    leaves in the attributes.  [Ok] is a result that is not negative; [Err errno]
    stands for -1. *)

From S2P Require Export BpfAttr CString BpfSys.
From stdpp Require Import gmap list.
Open Scope Z_scope.

Definition BPF_MAP_LOOKUP_ELEM := 1.
Definition BPF_MAP_UPDATE_ELEM := 2.
Definition BPF_MAP_DELETE_ELEM := 3.
Definition BPF_MAP_GET_NEXT_KEY := 4.
Definition BPF_PROG_LOAD := 5.
Definition BPF_OBJ_PIN := 6.
Definition BPF_OBJ_GET := 7.
Definition BPF_PROG_ATTACH := 8.
Definition BPF_PROG_DETACH := 9.
Definition BPF_PROG_TEST_RUN := 10.
Definition BPF_PROG_GET_NEXT_ID := 11.
Definition BPF_MAP_GET_NEXT_ID := 12.
Definition BPF_PROG_GET_FD_BY_ID := 13.
Definition BPF_MAP_GET_FD_BY_ID := 14.
Definition BPF_OBJ_GET_INFO_BY_FD := 15.
Definition BPF_PROG_QUERY := 16.
Definition BPF_RAW_TRACEPOINT_OPEN := 17.
Definition BPF_BTF_LOAD := 18.
Definition BPF_BTF_GET_FD_BY_ID := 19.
Definition BPF_TASK_FD_QUERY := 20.
Definition BPF_MAP_LOOKUP_AND_DELETE_ELEM := 21.

Definition BPF_F_NUMA_NODE := 4.

(** [bpf(2)] on the bytes of the attributes, which it may change, and a store of
    one byte of the process. *)
Class Bpf (K : Type) := {
  sys_bpf : Z -> list Z -> K -> result Z * list Z * K;
  set_byte : Z -> Z -> K -> option K }.

Section calls.
Context {K : Type} `{Bpf K} (e : endian).
Local Open Scope string_scope.
Local Open Scope Z_scope.

(** A call with these members set, all else zero. *)
Definition bpf_call (cmd : Z) (s : struct) (fvs : list (string * Z)) (k : K) : option (result Z * list Z * K) :=
  attr ← bpf_attr e s fvs; Some (sys_bpf cmd attr k).
(** Without a look at the attributes afterwards. *)
Definition bpf_simple (cmd : Z) (s : struct) (fvs : list (string * Z)) (k : K) : option (result Z * K) :=
  '(r, _, k) ← bpf_call cmd s fvs k; Some (r, k).
Definition attr_field (s : struct) (f : string) (attr : list Z) : option Z :=
  '(o, w) ← member_at s f; load e w attr o.
(** The loop while the kernel says [EAGAIN]. *)
Fixpoint prog_load_again (fuel : nat) (attr : list Z) (k : K) : option (result Z * K) :=
  match fuel with
  | O => None
  | S fuel =>
      let '(r, attr, k) := sys_bpf BPF_PROG_LOAD attr k in
      match r with
      | Err errno => if errno =? EAGAIN then prog_load_again fuel attr k else Some (r, k)
      | Ok _ => Some (r, k)
      end
  end.

Definition bpf_verify_program (fuel : nat) (type insns insns_cnt prog_flags license kern_version log_buf log_buf_sz log_level : Z) (k : K) :
    option (result Z * K) :=
  attr ← bpf_attr e attr_prog_load [("prog_type", type); ("insn_cnt", insns_cnt); ("insns", insns); ("license", license);
    ("log_buf", log_buf); ("log_size", log_buf_sz); ("log_level", log_level); ("kern_version", kern_version); ("prog_flags", prog_flags)];
  k ← set_byte log_buf 0 k;
  prog_load_again fuel attr k.

Definition bpf_map_update_elem (fd key value flags : Z) : K -> option (result Z * K) :=
  bpf_simple BPF_MAP_UPDATE_ELEM attr_elem [("map_fd", fd); ("key", key); ("value", value); ("flags", flags)].
Definition bpf_map_lookup_elem (fd key value : Z) : K -> option (result Z * K) :=
  bpf_simple BPF_MAP_LOOKUP_ELEM attr_elem [("map_fd", fd); ("key", key); ("value", value)].
Definition bpf_map_lookup_elem_flags (fd key value flags : Z) : K -> option (result Z * K) :=
  bpf_simple BPF_MAP_LOOKUP_ELEM attr_elem [("map_fd", fd); ("key", key); ("value", value); ("flags", flags)].
Definition bpf_map_lookup_and_delete_elem (fd key value : Z) : K -> option (result Z * K) :=
  bpf_simple BPF_MAP_LOOKUP_AND_DELETE_ELEM attr_elem [("map_fd", fd); ("key", key); ("value", value)].
Definition bpf_map_delete_elem (fd key : Z) : K -> option (result Z * K) :=
  bpf_simple BPF_MAP_DELETE_ELEM attr_elem [("map_fd", fd); ("key", key)].
Definition bpf_map_get_next_key (fd key next_key : Z) : K -> option (result Z * K) :=
  bpf_simple BPF_MAP_GET_NEXT_KEY attr_elem [("map_fd", fd); ("key", key); ("next_key", next_key)].

Definition bpf_obj_pin (fd pathname : Z) : K -> option (result Z * K) :=
  bpf_simple BPF_OBJ_PIN attr_obj [("pathname", pathname); ("bpf_fd", fd)].
Definition bpf_obj_get (pathname : Z) : K -> option (result Z * K) :=
  bpf_simple BPF_OBJ_GET attr_obj [("pathname", pathname)].

Definition bpf_prog_attach (prog_fd target_fd type flags : Z) : K -> option (result Z * K) :=
  bpf_simple BPF_PROG_ATTACH attr_attach
    [("target_fd", target_fd); ("attach_bpf_fd", prog_fd); ("attach_type", type); ("attach_flags", flags)].
Definition bpf_prog_detach (target_fd type : Z) : K -> option (result Z * K) :=
  bpf_simple BPF_PROG_DETACH attr_attach [("target_fd", target_fd); ("attach_type", type)].
Definition bpf_prog_detach2 (prog_fd target_fd type : Z) : K -> option (result Z * K) :=
  bpf_simple BPF_PROG_DETACH attr_attach [("target_fd", target_fd); ("attach_bpf_fd", prog_fd); ("attach_type", type)].

(** What is stored in an object of the caller that may be missing. *)
Definition stored {A} (wanted : bool) (v : A) : option A := if wanted then Some v else None.

(** The result, [*attach_flags] and [*prog_cnt]. *)
Definition bpf_prog_query (target_fd type query_flags : Z) (attach_flags : bool) (prog_ids prog_cnt : Z) (k : K) :
    option (result Z * option Z * Z * K) :=
  '(r, attr, k) ← bpf_call BPF_PROG_QUERY attr_query
    [("target_fd", target_fd); ("attach_type", type); ("query_flags", query_flags); ("prog_cnt", prog_cnt); ("prog_ids", prog_ids)] k;
  flags ← attr_field attr_query "attach_flags" attr;
  cnt ← attr_field attr_query "prog_cnt" attr;
  Some (r, stored attach_flags flags, cnt, k).

(** The result, [*size_out], [*retval] and [*duration]. *)
Definition bpf_prog_test_run (prog_fd repeat data size data_out : Z) (size_out retval duration : bool) (k : K) :
    option (result Z * (option Z * option Z * option Z) * K) :=
  '(r, attr, k) ← bpf_call BPF_PROG_TEST_RUN attr_test
    [("prog_fd", prog_fd); ("data_in", data); ("data_out", data_out); ("data_size_in", size); ("repeat", repeat)] k;
  s ← attr_field attr_test "data_size_out" attr;
  v ← attr_field attr_test "retval" attr;
  d ← attr_field attr_test "duration" attr;
  Some (r, (stored size_out s, stored retval v, stored duration d), k).

Record bpf_prog_test_run_attr := TestRunAttr {
  t_prog_fd : Z; t_repeat : Z; t_data_in : Z; t_data_size_in : Z; t_data_out : Z; t_data_size_out : Z; t_retval : Z; t_duration : Z }.

(** Here an error of the function itself is [Err EINVAL] too; the call is not made. *)
Definition bpf_prog_test_run_xattr (t : bpf_prog_test_run_attr) (k : K) : option (result Z * bpf_prog_test_run_attr * K) :=
  if (t_data_out t =? 0) && (0 <? t_data_size_out t) then Some (Err EINVAL, t, k) else
  '(r, attr, k) ← bpf_call BPF_PROG_TEST_RUN attr_test
    [("prog_fd", t_prog_fd t); ("data_in", t_data_in t); ("data_out", t_data_out t); ("data_size_in", t_data_size_in t);
     ("data_size_out", t_data_size_out t); ("repeat", t_repeat t)] k;
  s ← attr_field attr_test "data_size_out" attr;
  v ← attr_field attr_test "retval" attr;
  d ← attr_field attr_test "duration" attr;
  Some (r, TestRunAttr (t_prog_fd t) (t_repeat t) (t_data_in t) (t_data_size_in t) (t_data_out t) s v d, k).

(** The identifier that follows, stored on success. *)
Definition get_next_id (cmd start_id : Z) (k : K) : option (result Z * option Z * K) :=
  '(r, attr, k) ← bpf_call cmd attr_id [("start_id", start_id)] k;
  next ← attr_field attr_id "next_id" attr;
  Some (r, match r with Ok 0 => Some next | _ => None end, k).
Definition bpf_prog_get_next_id := get_next_id BPF_PROG_GET_NEXT_ID.
Definition bpf_map_get_next_id := get_next_id BPF_MAP_GET_NEXT_ID.

Definition bpf_prog_get_fd_by_id (id : Z) : K -> option (result Z * K) := bpf_simple BPF_PROG_GET_FD_BY_ID attr_id [("prog_id", id)].
Definition bpf_map_get_fd_by_id (id : Z) : K -> option (result Z * K) := bpf_simple BPF_MAP_GET_FD_BY_ID attr_id [("map_id", id)].
Definition bpf_btf_get_fd_by_id (id : Z) : K -> option (result Z * K) := bpf_simple BPF_BTF_GET_FD_BY_ID attr_id [("btf_id", id)].

(** The result and [*info_len]. *)
Definition bpf_obj_get_info_by_fd (prog_fd info info_len : Z) (k : K) : option (result Z * Z * K) :=
  '(r, attr, k) ← bpf_call BPF_OBJ_GET_INFO_BY_FD attr_info [("bpf_fd", prog_fd); ("info_len", info_len); ("info", info)] k;
  len ← attr_field attr_info "info_len" attr;
  Some (r, match r with Ok 0 => len | _ => info_len end, k).

Definition bpf_raw_tracepoint_open (name prog_fd : Z) : K -> option (result Z * K) :=
  bpf_simple BPF_RAW_TRACEPOINT_OPEN attr_raw_tracepoint [("name", name); ("prog_fd", prog_fd)].

(** Once more with a log, when there is a buffer and the first call had none. *)
Definition bpf_load_btf (btf btf_size log_buf log_buf_size : Z) (do_log : bool) (k : K) : option (result Z * K) :=
  let buffer := negb (log_buf =? 0) && negb (log_buf_size =? 0) in
  let log := [("btf_log_level", 1); ("btf_log_size", log_buf_size); ("btf_log_buf", log_buf)] in
  attr ← bpf_attr e attr_btf_load [("btf", btf); ("btf_size", btf_size)];
  attr ← assign_all e attr_btf_load (if do_log && buffer then log else []) attr;
  let '(r, attr, k) := sys_bpf BPF_BTF_LOAD attr k in
  match r with
  | Err _ =>
      if negb do_log && buffer then
        attr ← assign_all e attr_btf_load log attr;
        let '(r, _, k) := sys_bpf BPF_BTF_LOAD attr k in Some (r, k)
      else Some (r, k)
  | Ok _ => Some (r, k)
  end.

(** What the kernel says about a descriptor of another task. *)
Record task_fd := TaskFd { tf_buf_len : Z; tf_prog_id : Z; tf_fd_type : Z; tf_probe_offset : Z; tf_probe_addr : Z }.

Definition bpf_task_fd_query (pid fd flags buf buf_len : Z) (k : K) : option (result Z * task_fd * K) :=
  let s := attr_task_fd_query in
  '(r, attr, k) ← bpf_call BPF_TASK_FD_QUERY s [("pid", pid); ("fd", fd); ("flags", flags); ("buf", buf); ("buf_len", buf_len)] k;
  len ← attr_field s "buf_len" attr;
  id ← attr_field s "prog_id" attr;
  type ← attr_field s "fd_type" attr;
  offset ← attr_field s "probe_offset" attr;
  addr ← attr_field s "probe_addr" attr;
  Some (r, TaskFd len id type offset addr, k).
End calls.

(** ** Creating maps and loading *)

Section create.
Context {I K : Type} `{Kernel I K}.

Definition bpf_create_map_node (map_type : Z) (name : option str) (key_size value_size max_entries map_flags node : Z) : K -> result Z * K :=
  let flags := if 0 <=? node then Z.lor map_flags BPF_F_NUMA_NODE else map_flags in
  bpf_create_map_xattr (CreateAttr name map_type flags (u32 key_size) (u32 value_size) (u32 max_entries)
    (if 0 <=? node then node else 0) 0 0 0 0 0).
Definition bpf_create_map (map_type key_size value_size max_entries map_flags : Z) : K -> result Z * K :=
  bpf_create_map_xattr (CreateAttr None map_type map_flags (u32 key_size) (u32 value_size) (u32 max_entries) 0 0 0 0 0 0).
Definition bpf_create_map_name (map_type : Z) (name : option str) (key_size value_size max_entries map_flags : Z) : K -> result Z * K :=
  bpf_create_map_xattr (CreateAttr name map_type map_flags (u32 key_size) (u32 value_size) (u32 max_entries) 0 0 0 0 0 0).
Definition bpf_create_map_in_map_node (map_type : Z) (name : option str) (key_size inner_map_fd max_entries map_flags node : Z) : K -> result Z * K :=
  let flags := if 0 <=? node then Z.lor map_flags BPF_F_NUMA_NODE else map_flags in
  sys_map_create (MapCreate map_type (u32 key_size) 4 (u32 max_entries) flags (u32 inner_map_fd)
    (if 0 <=? node then node else 0) (obj_name name) 0 0 0 0).
Definition bpf_create_map_in_map (map_type : Z) (name : option str) (key_size inner_map_fd max_entries map_flags : Z) : K -> result Z * K :=
  bpf_create_map_in_map_node map_type name key_size inner_map_fd max_entries map_flags (-1).

Definition bpf_load_program (alloc : nat -> Z -> bool) (fuel : nat) (type : Z) (insns : list I) (license : list Z) (kern_version : Z)
    (log_buf : bool) (log_buf_sz : Z) (k : K) : option (result Z * option bool * K) :=
  bpf_load_program_xattr alloc fuel (LoadProgAttr type 0 None insns license kern_version 0 0 (InfoAttr None 0 0) (InfoAttr None 0 0) 0)
    log_buf log_buf_sz k.
End create.

(** ** What the kernel is given *)

(** Integers one after the other, then zeros up to the size of the union. *)
Definition w32 (v : Z) : nat * Z := (4%nat, v).
Definition w64 (v : Z) : nat * Z := (8%nat, v).
Definition flat (e : endian) (l : list (nat * Z)) : list Z :=
  let bs := concat (List.map (fun '(w, v) => Memory.split e w v) l) in bs ++ repeat 0 (112 - length bs).

(** A call of which only the result counts. *)
Definition plain {K} `{Bpf K} (cmd : Z) (attr : list Z) (k : K) : option (result Z * K) :=
  let '(r, _, k) := sys_bpf cmd attr k in Some (r, k).

(** The words of a command and of a call that reads its answer. *)
Definition query_words e (target_fd type query_flags prog_ids prog_cnt : Z) : list Z :=
  flat e [w32 target_fd; w32 type; w32 query_flags; w32 0; w64 prog_ids; w32 prog_cnt].
Definition test_words e (prog_fd data_in size_in size_out data_out repeat : Z) : list Z :=
  flat e [w32 prog_fd; w32 0; w32 size_in; w32 size_out; w64 data_in; w64 data_out; w32 repeat].
Definition btf_words e (btf btf_size log_buf log_size log_level : Z) : list Z :=
  flat e [w64 btf; w64 log_buf; w32 btf_size; w32 log_size; w32 log_level].
Definition answer {K A} `{Bpf K} (cmd : Z) (attr : list Z) (k : K) (read : result Z -> list Z -> option A) : option (A * K) :=
  let '(r, attr, k) := sys_bpf cmd attr k in a ← read r attr; Some (a, k).

(** A log is asked for when the first call fails without one. *)
Lemma load_btf_retries {K : Type} `{Bpf K} e btf btf_size log_buf log_buf_size do_log k : (forall a k, (sys_bpf BPF_BTF_LOAD a k).1.2 = a) ->
  bpf_load_btf e btf btf_size log_buf log_buf_size do_log k =
    let buffer := negb (log_buf =? 0) && negb (log_buf_size =? 0) in
    let quiet := btf_words e btf btf_size 0 0 0 in
    let loud := btf_words e btf btf_size log_buf log_buf_size 1 in
    let first := if do_log && buffer then loud else quiet in
    match sys_bpf BPF_BTF_LOAD first k with
    | (Err _, _, k1) as a => if negb do_log && buffer then plain BPF_BTF_LOAD loud k1 else Some (a.1.1, k1)
    | (Ok fd, _, k1) => Some (Ok fd, k1)
    end.
Proof.
  intros Hk. cbn zeta. unfold bpf_load_btf. cbn zeta. set (buffer := negb (log_buf =? 0) && _).
  assert (forall b : bool, (attr ← bpf_attr e attr_btf_load [("btf"%string, btf); ("btf_size"%string, btf_size)];
    assign_all e attr_btf_load (if b then [("btf_log_level"%string, 1); ("btf_log_size"%string, log_buf_size); ("btf_log_buf"%string, log_buf)] else []) attr)
      = Some (if b then btf_words e btf btf_size log_buf log_buf_size 1 else btf_words e btf btf_size 0 0 0)) as Hfill.
  { intros b. rewrite bpf_attr_app. destruct b, e; reflexivity. }
  pose proof (Hfill (do_log && buffer)) as H1.
  destruct (bpf_attr e attr_btf_load _) as [a|] eqn:Ea; [|done]. cbn [mbind option_bind] in H1 |- *. rewrite H1. cbn [mbind option_bind].
  pose proof (Hk (if do_log && buffer then btf_words e btf btf_size log_buf log_buf_size 1 else btf_words e btf btf_size 0 0 0) k) as Ha.
  destruct (sys_bpf BPF_BTF_LOAD _ k) as [[[fd|err] a1] k1]; [done|]. cbn [fst snd] in Ha. subst a1.
  destruct do_log; [done|]. cbn [negb andb] in *. destruct buffer; [|done].
  pose proof (Hfill true) as H2. pose proof (Hfill false) as H3. cbn [mbind option_bind] in H2, H3.
  apply (inj Some) in H3 as ->. rewrite H2. cbn [mbind option_bind].
  unfold plain. by destruct (sys_bpf BPF_BTF_LOAD _ k1) as [[r ?] ?].
Qed.

(** Both sides make one call with the same bytes and read the same places. *)
Ltac same_answer :=
  match goal with |- _ = ?rhs => match rhs with context [answer ?c ?w _ _] =>
    match goal with |- context [bpf_call ?e _ ?s ?l ?k] =>
      replace (bpf_call e _ s l k) with (Some (sys_bpf c w k)) by (destruct e; reflexivity) end end end;
  unfold answer; cbn [mbind option_bind];
  match goal with |- context [sys_bpf ?c ?w ?k] => destruct (sys_bpf c w k) as [[? ?] ?] end;
  unfold attr_field;
  repeat match goal with |- context [member_at ?s ?f] =>
    let v := eval vm_compute in (member_at s f) in change (member_at s f) with v end;
  cbn [mbind option_bind fmap option_fmap option_map];
  repeat match goal with |- context [load ?e ?w ?a ?o] => destruct (load e w a o) as [?|] end; reflexivity.

