(* ===== verification/ElfObject.v ===== *)
(** * Opening a BPF object (src/libbpf/src/libbpf.c, [__bpf_object__open])

    From the sections of an ELF file to programs, maps and relocations.  What
    libelf answers about the file is a record of the model; [None] is an access
    outside an object or a null pointer dereferenced. *)

From S2P Require Export Idioms BtfExt Qsort StateMonad.

(** ** Errors of libbpf *)

Definition LIBBPF_ERRNO__LIBELF := 4000.
Definition LIBBPF_ERRNO__FORMAT := 4001.
Definition LIBBPF_ERRNO__KVERSION := 4002.
Definition LIBBPF_ERRNO__ENDIAN := 4003.
Definition LIBBPF_ERRNO__RELOC := 4005.


(** ** What libelf answers *)

Record shdr := Shdr {
  sh_name : Z; sh_type : Z; sh_flags : Z; sh_size : Z; sh_link : Z; sh_info : Z; sh_entsize : Z }.
Record elf_sym := Sym { st_name : Z; st_info : Z; st_shndx : Z; st_value : Z }.
Record elf_rel := Rel { r_offset : Z; r_info : Z }.

(** A section: [gelf_getshdr] and [elf_getdata]. *)
Record elf_scn := Scn { scn_shdr : option shdr; scn_data : option (list Z) }.

(** The file: its header, its sections from index 1 on and the accessors of
    strings, symbols and relocations; [shstr_raw] tells whether the section of
    the section names has raw data. *)
Record elf_file := ElfFile {
  e_type : Z; e_machine : Z; ei_data : Z; e_shstrndx : Z; shstr_raw : bool;
  elf_scns : list elf_scn;
  elf_strptr : Z -> Z -> option str;
  gelf_getsym : list Z -> Z -> option elf_sym;
  gelf_getrel : list Z -> Z -> option elf_rel }.

Definition ET_REL := 1.
Definition EM_BPF := 247.
Definition ELFDATA2LSB := 1.
Definition ELFDATA2MSB := 2.
Definition SHT_PROGBITS := 1.
Definition SHT_SYMTAB := 2.
Definition SHT_REL := 9.
Definition SHF_EXECINSTR := 4.
Definition STB_GLOBAL := 1.
Definition GELF_ST_BIND (info : Z) : Z := Z.shiftr info 4.
Definition GELF_R_SYM (info : Z) : Z := Z.shiftr info 32.
Definition sizeof_GElf_Sym := 24.

Definition elf_getscn (elf : elf_file) (idx : Z) : option elf_scn :=
  if idx =? 0 then None else znth (elf_scns elf) (idx - 1).

(** ** Instructions, programs, maps and objects *)

(** [struct bpf_insn]. *)
Record bpf_insn := Insn { i_code : Z; i_dst : Z; i_src : Z; i_off : Z; i_imm : Z }.
#[export] Instance bpf_insn_eq_dec : EqDecision bpf_insn.
Proof. solve_decision. Defined.

Definition s16 (x : Z) : Z := wrap 16 (x + 2 ^ 15) - 2 ^ 15.

(** The instruction in eight bytes; the two register numbers share one. *)
Definition insn_at (e : endian) (m : list Z) (p : Z) : option bpf_insn :=
  code ← load e 1 m p;
  regs ← load e 1 m (p + 1);
  off ← load e 2 m (p + 2);
  imm ← load e 4 m (p + 4);
  let '(dst, src) := match e with LE => (regs mod 16, regs / 16) | BE => (regs / 16, regs mod 16) end in
  Some (Insn code dst src (s16 off) (s32 imm)).

Definition BPF_LD := 0x00.
Definition BPF_IMM := 0x00.
Definition BPF_DW := 0x18.
Definition BPF_JMP := 0x05.
Definition BPF_CALL := 0x80.
Definition BPF_PSEUDO_MAP_FD := 1.
Definition BPF_PSEUDO_CALL := 1.

Definition is_call (i : bpf_insn) : bool := i_code i =? Z.lor BPF_JMP BPF_CALL.
Definition is_ldimm64 (i : bpf_insn) : bool := i_code i =? Z.lor BPF_LD (Z.lor BPF_IMM BPF_DW).

Inductive reloc_desc :=
| RELO_LD64 (insn_idx map_idx : Z)
| RELO_CALL (insn_idx text_off : Z).

Definition relo_insn (r : reloc_desc) : Z :=
  match r with RELO_LD64 i _ => i | RELO_CALL i _ => i end.

(** Records of function or line information: their bytes, the size of one and
    their number. *)
Record prog_info := ProgInfo { pi_info : option (list Z); pi_rec_size : Z; pi_cnt : Z }.

(** [struct bpf_program]; a null pointer is [None].  [p_instances] is [None]
    while [instances.nr] is -1. *)
Record bpf_program := Program {
  p_idx : Z;
  p_name : option str;
  p_ifindex : Z;
  p_section_name : str;
  p_pin_name : str;
  p_insns : option (list bpf_insn);
  p_main_prog_cnt : Z;
  p_type : Z;
  p_reloc_desc : option (list reloc_desc);
  p_instances : option (list Z);
  p_attach_type : Z;
  p_btf_fd : Z;
  p_func_info : prog_info;
  p_line_info : prog_info }.

(** [struct bpf_map_def] and [struct bpf_map]. *)
Record bpf_map_def := MapDef {
  def_type : Z; def_key_size : Z; def_value_size : Z; def_max_entries : Z; def_map_flags : Z }.
Definition sizeof_bpf_map_def := 20.

Record bpf_map := Map {
  m_fd : Z; m_name : option str; m_offset : Z; m_ifindex : Z; m_inner_map_fd : Z;
  m_def : bpf_map_def; m_btf_key_type_id : Z; m_btf_value_type_id : Z }.

(** The part of [struct bpf_object] that describes the ELF file. *)
Record efile := Efile {
  symbols : option (list Z);
  strtabidx : Z;
  ef_reloc : list (shdr * list Z);
  maps_shndx : Z;
  text_shndx : Z }.

Record bpf_object := Object {
  license : list Z;
  kern_version : Z;
  programs : list bpf_program;
  maps : list bpf_map;
  loaded : bool;
  has_pseudo_calls : bool;
  o_efile : efile;
  o_btf : option btf;
  o_btf_ext : option btf_ext;
  caps_name : bool }.

Definition set_license (o : bpf_object) l := Object l (kern_version o) (programs o) (maps o) (loaded o) (has_pseudo_calls o) (o_efile o) (o_btf o) (o_btf_ext o) (caps_name o).
Definition set_kern_version (o : bpf_object) v := Object (license o) v (programs o) (maps o) (loaded o) (has_pseudo_calls o) (o_efile o) (o_btf o) (o_btf_ext o) (caps_name o).
Definition set_programs (o : bpf_object) ps := Object (license o) (kern_version o) ps (maps o) (loaded o) (has_pseudo_calls o) (o_efile o) (o_btf o) (o_btf_ext o) (caps_name o).
Definition set_maps (o : bpf_object) ms := Object (license o) (kern_version o) (programs o) ms (loaded o) (has_pseudo_calls o) (o_efile o) (o_btf o) (o_btf_ext o) (caps_name o).
Definition set_loaded (o : bpf_object) b := Object (license o) (kern_version o) (programs o) (maps o) b (has_pseudo_calls o) (o_efile o) (o_btf o) (o_btf_ext o) (caps_name o).
Definition set_pseudo_calls (o : bpf_object) b := Object (license o) (kern_version o) (programs o) (maps o) (loaded o) b (o_efile o) (o_btf o) (o_btf_ext o) (caps_name o).
Definition set_efile (o : bpf_object) f := Object (license o) (kern_version o) (programs o) (maps o) (loaded o) (has_pseudo_calls o) f (o_btf o) (o_btf_ext o) (caps_name o).
Definition set_btf (o : bpf_object) b := Object (license o) (kern_version o) (programs o) (maps o) (loaded o) (has_pseudo_calls o) (o_efile o) b (o_btf_ext o) (caps_name o).
Definition set_btf_ext (o : bpf_object) b := Object (license o) (kern_version o) (programs o) (maps o) (loaded o) (has_pseudo_calls o) (o_efile o) (o_btf o) b (caps_name o).
Definition set_caps_name (o : bpf_object) b := Object (license o) (kern_version o) (programs o) (maps o) (loaded o) (has_pseudo_calls o) (o_efile o) (o_btf o) (o_btf_ext o) b.

Definition set_p_name (p : bpf_program) n := Program (p_idx p) n (p_ifindex p) (p_section_name p) (p_pin_name p) (p_insns p) (p_main_prog_cnt p) (p_type p) (p_reloc_desc p) (p_instances p) (p_attach_type p) (p_btf_fd p) (p_func_info p) (p_line_info p).
Definition set_p_reloc_desc (p : bpf_program) r := Program (p_idx p) (p_name p) (p_ifindex p) (p_section_name p) (p_pin_name p) (p_insns p) (p_main_prog_cnt p) (p_type p) r (p_instances p) (p_attach_type p) (p_btf_fd p) (p_func_info p) (p_line_info p).

(** [bpf_object__new]. *)
Definition bpf_object__new : bpf_object :=
  Object (repeat 0 64) 0 [] [] false false (Efile None 0 [] (-1) 0) None None false.

(** ** Opening *)

(** A computation on an object and the number of allocations so far. *)
Abbreviation OM := (ST (bpf_object * nat)).

Definition obj : OM bpf_object := fun s => Some (Ok s.1, s).
Definition upd (f : bpf_object -> bpf_object) : OM unit := modify (fun s => (f s.1, s.2)).
Definition upd_efile (f : efile -> efile) : OM unit := upd (fun o => set_efile o (f (o_efile o))).

Definition find_prog (o : bpf_object) (idx : Z) : option nat :=
  fst <$> list_find (fun p => p_idx p = idx) (programs o).

Definition empty_map : bpf_map := Map (-1) None 0 0 (-1) (MapDef 0 0 0 0 0) 0 0.

Definition BTF_ELF_SEC : str := lit ".BTF".
Definition BTF_EXT_ELF_SEC : str := lit ".BTF.ext".
Definition MAPS_RELAX_COMPAT := 0x01.

(** [obj->efile] once the ELF file is closed. *)
Definition elf_finish (f : efile) : efile := Efile None (strtabidx f) [] (maps_shndx f) (text_shndx f).

Section open.
(** The byte order, the allocator's answer to the [n]-th request of this file
    and to the requests of [btf__new] and [btf_ext__new], the ELF file, and the
    kernel's answer to [bpf_load_btf]. *)
Context (e : endian) (alloc : nat -> bool) (btf_alloc : Z -> bool) `{Qsort}.
Context (elf : elf_file) (bpf_load_btf : list Z -> result Z).

Definition malloc : OM unit := fun s =>
  Some (if alloc s.2 then Ok tt else Err (- ENOMEM), (s.1, S s.2)).

(** [__bpf_program__pin_name]: a failed [strdup] is searched all the same. *)
Definition slash_to_underscore (s : str) : str := List.map (fun c => if c =? 47 then 95 else c) s.
Definition __bpf_program__pin_name (section_name : str) : OM str :=
  let* r := try malloc in
  match r with Ok _ => ret (slash_to_underscore section_name) | Err _ => lift None end.

Definition decode_insns (data : list Z) (cnt : Z) : option (list bpf_insn) :=
  mapM (fun i => insn_at e data (sizeof_bpf_insn * Z.of_nat i)) (seq 0 (Z.to_nat cnt)).

Definition bpf_program__init (data : list Z) (section_name : str) (idx : Z) : OM bpf_program :=
  if zlen data <? sizeof_bpf_insn then fail (- EINVAL) else
  let* _ := malloc in
  let* pin_name := __bpf_program__pin_name section_name in
  let* _ := malloc in
  let* insns := lift (decode_insns data (zlen data / sizeof_bpf_insn)) in
  ret (Program idx None 0 section_name pin_name (Some insns) 0 0 None None 0 (-1)
    (ProgInfo None 0 0) (ProgInfo None 0 0)).

Definition bpf_object__add_program (data : list Z) (section_name : str) (idx : Z) : OM unit :=
  let* prog := bpf_program__init data section_name idx in
  let* _ := malloc in
  upd (fun o => set_programs o (programs o ++ [prog])).

(** The indices of the entries of a symbol table. *)
Definition sym_indices (symbols : list Z) : list Z :=
  List.map Z.of_nat (seq 0 (Z.to_nat (zlen symbols / sizeof_GElf_Sym))).

Fixpoint find_prog_name (symbols : list Z) (strtab idx : Z) (sis : list Z) : result (option str) :=
  match sis with
  | [] => Ok None
  | si :: sis =>
      match gelf_getsym elf symbols si with
      | None => find_prog_name symbols strtab idx sis
      | Some sym =>
          if negb (st_shndx sym =? idx) then find_prog_name symbols strtab idx sis
          else if negb (GELF_ST_BIND (st_info sym) =? STB_GLOBAL) then find_prog_name symbols strtab idx sis
          else match elf_strptr elf strtab (st_name sym) with
               | None => Err (- LIBBPF_ERRNO__LIBELF)
               | Some name => Ok (Some name)
               end
      end
  end.

Definition init_prog_name (pi : nat) : OM unit :=
  let* o := obj in
  let* prog := lift (programs o !! pi) in
  let* syms := lift (symbols (o_efile o)) in
  let* name := pure (Some (find_prog_name syms (strtabidx (o_efile o)) (p_idx prog) (sym_indices syms))) in
  let name := match name with
    | Some _ => name
    | None => if p_idx prog =? text_shndx (o_efile o) then Some (lit ".text") else None
    end in
  match name with
  | None => fail (- EINVAL)
  | Some _ =>
      let* _ := malloc in
      upd (fun o => set_programs o (<[pi := set_p_name prog name]> (programs o)))
  end.

Definition bpf_object__init_prog_names : OM unit :=
  let* o := obj in each init_prog_name (seq 0 (length (programs o))).

Definition bpf_object__init_license (data : list Z) : OM unit :=
  upd (fun o => let n := Nat.min (length data) 63 in set_license o (take n data ++ drop n (license o))).

Definition bpf_object__init_kversion (data : list Z) : OM unit :=
  if negb (zlen data =? 4) then fail (- LIBBPF_ERRNO__FORMAT) else
  let* kver := lift (load e 4 data 0) in
  upd (fun o => set_kern_version o kver).

(** *** Maps *)

(** [a->offset - b->offset] as an [int]. *)
Definition compare_bpf_map (a b : bpf_map) : Z := s32 (m_offset a - m_offset b).

(** The first [n] bytes at [p], the rest of the structure zero. *)
Definition map_def_at (data : list Z) (p : Z) (n : nat) : option bpf_map_def :=
  bs ← get_bytes data p n;
  let m := bs ++ repeat 0 (20 - n) in
  ty ← load e 4 m 0; key ← load e 4 m 4; value ← load e 4 m 8; entries ← load e 4 m 12; flags ← load e 4 m 16;
  Some (MapDef ty key value entries flags).

Definition map_syms (syms : list Z) (shndx : Z) : list elf_sym :=
  filter (fun sym => st_shndx sym = shndx) (omap (gelf_getsym elf syms) (sym_indices syms)).

Definition set_map (map_idx : nat) (f : bpf_map -> bpf_map) : OM unit :=
  let* o := obj in
  let* m := lift (maps o !! map_idx) in
  upd (fun o => set_maps o (<[map_idx := f m]> (maps o))).

Definition init_map (strict : bool) (data : list Z) (map_def_sz : Z) (map_idx : nat) (sym : elf_sym) : OM unit :=
  let* o := obj in
  let map_name := elf_strptr elf (strtabidx (o_efile o)) (st_name sym) in
  let* _ := set_map map_idx (fun m =>
    Map (m_fd m) (m_name m) (st_value sym) (m_ifindex m) (m_inner_map_fd m) (m_def m) 0 0) in
  if zlen data <? u64 (st_value sym + map_def_sz) then fail (- EINVAL) else
  let* name := lift map_name in
  let* _ := malloc in
  let* _ := set_map map_idx (fun m =>
    Map (m_fd m) (Some name) (m_offset m) (m_ifindex m) (m_inner_map_fd m) (m_def m) 0 0) in
  let* def :=
    (if u64 map_def_sz <=? sizeof_bpf_map_def then lift (map_def_at data (st_value sym) (Z.to_nat map_def_sz))
     else
       let* excess := lift (get_bytes data (st_value sym + sizeof_bpf_map_def) (Z.to_nat (map_def_sz - sizeof_bpf_map_def))) in
       if strict && existsb (fun b => negb (b =? 0)) excess then fail (- EINVAL)
       else lift (map_def_at data (st_value sym) 20)) in
  set_map map_idx (fun m =>
    Map (m_fd m) (m_name m) (m_offset m) (m_ifindex m) (m_inner_map_fd m) def 0 0).

Fixpoint init_each_map (strict : bool) (data : list Z) (map_def_sz : Z) (map_idx : nat) (syms : list elf_sym) : OM unit :=
  match syms with
  | [] => ret tt
  | sym :: syms =>
      let* _ := init_map strict data map_def_sz map_idx sym in
      init_each_map strict data map_def_sz (S map_idx) syms
  end.

Definition bpf_object__init_maps (flags : Z) : OM unit :=
  let strict := Z.land flags MAPS_RELAX_COMPAT =? 0 in
  let* o := obj in
  if maps_shndx (o_efile o) <? 0 then fail (- EINVAL) else
  match symbols (o_efile o) with
  | None => fail (- EINVAL)
  | Some syms =>
      match scn ← elf_getscn elf (maps_shndx (o_efile o)); scn_data scn with
      | None => fail (- EINVAL)
      | Some data =>
          let msyms := map_syms syms (maps_shndx (o_efile o)) in
          let nr_maps := zlen msyms in
          if nr_maps =? 0 then ret tt else
          let map_def_sz := s32 (zlen data / nr_maps) in
          if (zlen data =? 0) || negb (zlen data mod nr_maps =? 0) then fail (- EINVAL) else
          let* _ := malloc in
          let* _ := upd (fun o => set_maps o (repeat empty_map (length msyms))) in
          let* _ := init_each_map strict data map_def_sz 0 msyms in
          upd (fun o => set_maps o (qsort compare_bpf_map (maps o)))
      end
  end.

(** *** Sections *)

Definition section_have_execinstr (idx : Z) : bool :=
  match elf_getscn elf idx with
  | Some scn => match scn_shdr scn with
                | Some sh => negb (Z.land (sh_flags sh) SHF_EXECINSTR =? 0)
                | None => false
                end
  | None => false
  end.

(** [btf__load]: the section with its descriptor. *)
Definition btf__load (b : btf) : OM btf :=
  if 0 <=? fd b then fail (- EEXIST) else
  let* _ := malloc in
  match bpf_load_btf (data b) with
  | Ok fd => ret (Btf (data b) (types b) (strings b) (nohdr_data b) (nr_types b) (types_size b) (data_size b) fd)
  | Err e => fail e
  end.

(** A section that cannot be loaded is ignored. *)
Definition collect_btf (data : list Z) : OM unit :=
  let* r := pure (r ← btf__new e btf_alloc data (zlen data); Some (Ok r)) in
  match r with
  | Err _ => upd (fun o => set_btf o None)
  | Ok b =>
      let* l := try (btf__load b) in
      upd (fun o => set_btf o (match l with Ok b => Some b | Err _ => None end))
  end.

(** The body of the loop over the sections; [.BTF.ext] is kept for later. *)
Definition collect_scn (idx : Z) (scn : elf_scn) (btf_ext_data : option (list Z)) : OM (option (list Z)) :=
  match scn_shdr scn with
  | None => fail (- LIBBPF_ERRNO__FORMAT)
  | Some sh =>
  match elf_strptr elf (e_shstrndx elf) (sh_name sh) with
  | None => fail (- LIBBPF_ERRNO__FORMAT)
  | Some name =>
  match scn_data scn with
  | None => fail (- LIBBPF_ERRNO__FORMAT)
  | Some data =>
      let keep (c : OM unit) := let* _ := c in ret btf_ext_data in
      if bool_decide (name = lit "license") then keep (bpf_object__init_license data)
      else if bool_decide (name = lit "version") then keep (bpf_object__init_kversion data)
      else if bool_decide (name = lit "maps") then
        keep (upd_efile (fun f => Efile (symbols f) (strtabidx f) (ef_reloc f) idx (text_shndx f)))
      else if bool_decide (name = BTF_ELF_SEC) then keep (collect_btf data)
      else if bool_decide (name = BTF_EXT_ELF_SEC) then ret (Some data)
      else if sh_type sh =? SHT_SYMTAB then
        let* o := obj in
        match symbols (o_efile o) with
        | Some _ => fail (- LIBBPF_ERRNO__FORMAT)
        | None => keep (upd_efile (fun f => Efile (Some data) (sh_link sh) (ef_reloc f) (maps_shndx f) (text_shndx f)))
        end
      else if (sh_type sh =? SHT_PROGBITS) && negb (Z.land (sh_flags sh) SHF_EXECINSTR =? 0) && (0 <? zlen data) then
        let* _ := (if bool_decide (name = lit ".text")
          then upd_efile (fun f => Efile (symbols f) (strtabidx f) (ef_reloc f) (maps_shndx f) idx) else ret tt) in
        keep (bpf_object__add_program data name idx)
      else if sh_type sh =? SHT_REL then
        if negb (section_have_execinstr (sh_info sh)) then ret btf_ext_data else
        let* _ := malloc in
        keep (upd_efile (fun f => Efile (symbols f) (strtabidx f) (ef_reloc f ++ [(sh, data)]) (maps_shndx f) (text_shndx f)))
      else ret btf_ext_data
  end end end.

Fixpoint collect_scns (idx : Z) (scns : list elf_scn) (btf_ext_data : option (list Z)) : OM (option (list Z)) :=
  match scns with
  | [] => ret btf_ext_data
  | scn :: scns =>
      let* btf_ext_data := collect_scn idx scn btf_ext_data in
      collect_scns (idx + 1) scns btf_ext_data
  end.

Definition collect_btf_ext (btf_ext_data : option (list Z)) : OM unit :=
  match btf_ext_data with
  | None => ret tt
  | Some data =>
      let* o := obj in
      match o_btf o with
      | None => ret tt
      | Some _ =>
          let* r := pure (r ← btf_ext__new e btf_alloc data (zlen data); Some (Ok r)) in
          upd (fun o => set_btf_ext o (match r with Ok x => Some x | Err _ => None end))
      end
  end.

(** The code of an invalid string table lacks its sign. *)
Definition bpf_object__elf_collect (flags : Z) : OM unit :=
  if negb (shstr_raw elf) then fail (- LIBBPF_ERRNO__FORMAT) else
  let* btf_ext_data := collect_scns 1 (elf_scns elf) None in
  let* o := obj in
  let idx := zlen (elf_scns elf) in
  if (strtabidx (o_efile o) =? 0) || (idx <=? strtabidx (o_efile o)) then fail LIBBPF_ERRNO__FORMAT else
  let* _ := collect_btf_ext btf_ext_data in
  let* _ := (if 0 <=? maps_shndx (o_efile o) then bpf_object__init_maps flags else ret tt) in
  bpf_object__init_prog_names.

(** *** Relocations *)

(** The instruction is read before its index is compared with anything. *)
Definition collect_relo (insns : list bpf_insn) (data : list Z) (i : Z) : OM reloc_desc :=
  let* o := obj in
  match gelf_getrel elf data i with
  | None => fail (- LIBBPF_ERRNO__FORMAT)
  | Some rel =>
  match syms ← symbols (o_efile o); gelf_getsym elf syms (GELF_R_SYM (r_info rel)) with
  | None => fail (- LIBBPF_ERRNO__FORMAT)
  | Some sym =>
      if negb (st_shndx sym =? maps_shndx (o_efile o)) && negb (st_shndx sym =? text_shndx (o_efile o))
      then fail (- LIBBPF_ERRNO__RELOC) else
      let insn_idx := u32 (r_offset rel / sizeof_bpf_insn) in
      let* insn := lift (znth insns insn_idx) in
      if is_call insn then
        if negb (i_src insn =? BPF_PSEUDO_CALL) then fail (- LIBBPF_ERRNO__RELOC) else
        let* _ := upd (fun o => set_pseudo_calls o true) in
        ret (RELO_CALL insn_idx (st_value sym))
      else if negb (is_ldimm64 insn) then fail (- LIBBPF_ERRNO__RELOC) else
      match list_find (fun m => m_offset m = st_value sym) (maps o) with
      | None => fail (- LIBBPF_ERRNO__RELOC)
      | Some (map_idx, _) => ret (RELO_LD64 insn_idx (Z.of_nat map_idx))
      end
  end end.

Fixpoint collect_relos (insns : list bpf_insn) (data : list Z) (idxs : list nat) : OM (list reloc_desc) :=
  match idxs with
  | [] => ret []
  | i :: idxs =>
      let* r := collect_relo insns data (Z.of_nat i) in
      let* rs := collect_relos insns data idxs in
      ret (r :: rs)
  end.

(** Until the last relocation has been read nothing but closing the object
    sees [reloc_desc]. *)
Definition bpf_program__collect_reloc (pi : nat) (sh : shdr) (data : list Z) : OM unit :=
  let* o := obj in
  let* prog := lift (programs o !! pi) in
  if sh_entsize sh =? 0 then lift None else
  let nrels := s32 (sh_size sh / sh_entsize sh) in
  let* _ := malloc in
  let* insns := lift (p_insns prog) in
  let* descs := collect_relos insns data (seq 0 (Z.to_nat nrels)) in
  upd (fun o => set_programs o (<[pi := set_p_reloc_desc prog (Some descs)]> (programs o))).

Definition bpf_object__collect_reloc : OM unit :=
  let* o := obj in
  each (fun '(sh, data) =>
    let* o := obj in
    if negb (sh_type sh =? SHT_REL) then fail (- LIBBPF_ERRNO__INTERNAL) else
    match find_prog o (sh_info sh) with
    | None => fail (- LIBBPF_ERRNO__RELOC)
    | Some pi => bpf_program__collect_reloc pi sh data
    end) (ef_reloc (o_efile o)).

(** *** The whole *)

(** What [bpf_object__elf_init] tests in the header. *)
Definition check_ehdr : OM unit :=
  if negb (e_type elf =? ET_REL) || (negb (e_machine elf =? 0) && negb (e_machine elf =? EM_BPF))
  then fail (- LIBBPF_ERRNO__FORMAT) else ret tt.

Definition bpf_object__check_endianness : OM unit :=
  if ei_data elf =? ELFDATA2LSB then (if decide (e = LE) then ret tt else fail (- LIBBPF_ERRNO__ENDIAN))
  else if ei_data elf =? ELFDATA2MSB then (if decide (e = BE) then ret tt else fail (- LIBBPF_ERRNO__ENDIAN))
  else fail (- LIBBPF_ERRNO__ENDIAN).

Definition bpf_object__validate (needs_kver : bool) : OM unit :=
  let* o := obj in
  if needs_kver && (kern_version o =? 0) then fail (- LIBBPF_ERRNO__KVERSION) else ret tt.

Definition open_passes (needs_kver : bool) (flags : Z) : OM unit :=
  let* _ := malloc in
  let* _ := check_ehdr in
  let* _ := bpf_object__check_endianness in
  let* _ := bpf_object__elf_collect flags in
  let* _ := bpf_object__collect_reloc in
  let* _ := bpf_object__validate needs_kver in
  upd_efile elf_finish.

(** [Err] is the error pointer with that code, after the object is closed. *)
Definition __bpf_object__open (needs_kver : bool) (flags : Z) : outcome bpf_object :=
  match open_passes needs_kver flags (bpf_object__new, 0%nat) with
  | Some (Ok _, (o, _)) => Some (Ok o)
  | Some (Err err, _) => Some (Err err)
  | None => None
  end.
End open.

(** ** What an opened object is *)

(** A relocation the code can be patched with: it names an instruction of the
    program, a load of a map of the object or a call. *)
Definition relo_ok (insns : list bpf_insn) (ms : list bpf_map) (r : reloc_desc) : Prop :=
  match r with
  | RELO_LD64 i j => (exists ins, znth insns i = Some ins /\ is_ldimm64 ins = true) /\ 0 <= j < zlen ms
  | RELO_CALL i _ => exists ins, znth insns i = Some ins /\ is_call ins = true /\ i_src ins = BPF_PSEUDO_CALL
  end.

Definition is_relo_call (r : reloc_desc) : bool := match r with RELO_CALL _ _ => true | _ => false end.

(** The code of a program and its relocations. *)
Record program_code (o : bpf_object) (p : bpf_program) : Prop := {
  po_insns : exists insns, p_insns p = Some insns /\ insns <> [] /\
    forall rs, p_reloc_desc p = Some rs -> Forall (relo_ok insns (maps o)) rs;
  po_calls rs r : p_reloc_desc p = Some rs -> r ∈ rs -> is_relo_call r = true -> has_pseudo_calls o = true;
  po_main : p_main_prog_cnt p = 0
}.

(** A program not yet loaded. *)
Record program_ok (o : bpf_object) (p : bpf_program) : Prop := {
  po_code : program_code o p;
  po_instances : p_instances p = None;
  po_btf_fd : p_btf_fd p = -1;
  po_info : p_func_info p = ProgInfo None 0 0 /\ p_line_info p = ProgInfo None 0 0
}.

(** A map not yet created: its definition lies in the section and is what the
    section holds, the fields behind it zero. *)
Record map_ok (e : endian) (data : list Z) (size : Z) (m : bpf_map) : Prop := {
  mo_fd : m_fd m = -1;
  mo_inner : m_inner_map_fd m = -1;
  mo_name : is_Some (m_name m);
  mo_def : map_def_at e data (m_offset m) (Z.to_nat (Z.min size 20)) = Some (m_def m)
}.

(** The programs of a file: its sections of instructions, in order. *)
Definition exec_program (e : endian) (elf : elf_file) (idx : Z) (scn : elf_scn) : option (Z * str * option (list bpf_insn)) :=
  sh ← scn_shdr scn; name ← elf_strptr elf (e_shstrndx elf) (sh_name sh); data ← scn_data scn;
  if bool_decide (name ∈ [lit "license"; lit "version"; lit "maps"; BTF_ELF_SEC; BTF_EXT_ELF_SEC]) then None
  else if (sh_type sh =? SHT_PROGBITS) && negb (Z.land (sh_flags sh) SHF_EXECINSTR =? 0) && (0 <? zlen data)
  then Some (idx, name, decode_insns e data (zlen data / sizeof_bpf_insn)) else None.

Fixpoint exec_programs (e : endian) (elf : elf_file) (idx : Z) (scns : list elf_scn) :
    list (Z * str * option (list bpf_insn)) :=
  match scns with
  | [] => []
  | scn :: scns => option_list (exec_program e elf idx scn) ++ exec_programs e elf (idx + 1) scns
  end.

Definition prog_key (p : bpf_program) : Z * str * option (list bpf_insn) := (p_idx p, p_section_name p, p_insns p).

(** ** Opening keeps its promises *)

Lemma find_prog_spec o idx pi p : find_prog o idx = Some pi -> programs o !! pi = Some p -> p_idx p = idx.
Proof.
  unfold find_prog. destruct (list_find _ _) as [[i p']|] eqn:E; [|done]. intros [= <-] Hp.
  apply list_find_Some in E as (Hi & Hx & _). cbn in Hp. congruence.
Qed.

Lemma decode_insns_nonempty e data : sizeof_bpf_insn <= zlen data ->
  forall insns, decode_insns e data (zlen data / sizeof_bpf_insn) = Some insns -> insns <> [].
Proof.
  intros Hlen insns E. unfold decode_insns in E. apply mapM_Some_1, Forall2_length in E. rewrite length_seq in E.
  assert (1 <= zlen data / sizeof_bpf_insn) as H1. { apply Z.div_le_lower_bound; unfold sizeof_bpf_insn in *; lia. }
  intros ->. cbn in E. lia.
Qed.

Section opening.
Context (e : endian) (alloc : nat -> bool) (btf_alloc : Z -> bool) `{Qsort}.
Context (elf : elf_file) (bpf_load_btf : list Z -> result Z).
Local Abbreviation OS := (bpf_object * nat)%type.

(** What an error leaves: a code that [IS_ERR] knows, or the unsigned one. *)
Definition open_error (err : Z) (s : OS) : Prop :=
  IS_ERR (ERR_PTR err) = true \/
  (err = LIBBPF_ERRNO__FORMAT /\
   (strtabidx (o_efile s.1) = 0 \/ zlen (elf_scns elf) <= strtabidx (o_efile s.1))).

Lemma open_error_neg err s : - MAX_ERRNO <= err < 0 -> open_error err s.
Proof. left. by apply is_err_range. Qed.

Local Ltac bad := first [apply open_error_neg; by vm_compute | apply open_error_neg; cbv; split; congruence].

Local Ltac name_case n N :=
  match goal with |- context [bool_decide (?x = n)] =>
    destruct (decide (x = n)) as [N|N]; [rewrite (bool_decide_eq_true_2 _ N)|rewrite (bool_decide_eq_false_2 _ N)] end.

Lemma malloc_spec (P : unit -> OS -> Prop) s :
  P tt (s.1, S s.2) -> runs True open_error P (malloc alloc) s.
Proof. intros HP. unfold runs, malloc. destruct (alloc s.2); [done|bad]. Qed.

Lemma malloc_any (P : result unit -> OS -> Prop) s :
  (forall r, P r (s.1, S s.2)) -> runs True open_error P (try (malloc alloc)) s.
Proof. intros HP. unfold runs, try, malloc. by destruct (alloc s.2). Qed.

Lemma obj_spec (P : bpf_object -> OS -> Prop) s : P s.1 s -> runs True open_error P obj s.
Proof. done. Qed.

Lemma upd_spec (P : unit -> OS -> Prop) f s : P tt (f s.1, s.2) -> runs True open_error P (upd f) s.
Proof. done. Qed.

Lemma lift_spec {A} (P : A -> OS -> Prop) o s : (forall a, o = Some a -> P a s) -> runs True open_error P (lift o) s.
Proof. intros HP. by apply run_read. Qed.

(** *** Programs *)

(** A program as its section gives it. *)
Record fresh (p : bpf_program) : Prop := {
  fr_insns : exists insns, p_insns p = Some insns /\ insns <> [];
  fr_main : p_main_prog_cnt p = 0;
  fr_instances : p_instances p = None;
  fr_btf_fd : p_btf_fd p = -1;
  fr_info : p_func_info p = ProgInfo None 0 0 /\ p_line_info p = ProgInfo None 0 0
}.

(** What the sections seen so far have left. *)
Record collected (keys : list (Z * str * option (list bpf_insn))) (s : OS) : Prop := {
  co_keys : List.map prog_key (programs s.1) = keys;
  co_fresh : Forall fresh (programs s.1);
  co_relocs : Forall (fun p => p_reloc_desc p = None) (programs s.1);
  co_maps : maps s.1 = [];
  co_loaded : loaded s.1 = false
}.

Lemma add_program_spec data name idx keys s :
  collected keys s ->
  runs True open_error (fun _ => collected (keys ++ [(idx, name, decode_insns e data (zlen data / sizeof_bpf_insn))]))
    (bpf_object__add_program e alloc data name idx) s.
Proof.
  intros [K1 K2 K3 K4 K5]. unfold bpf_object__add_program, bpf_program__init, __bpf_program__pin_name.
  apply run_bind. destruct (Z.ltb_spec (zlen data) sizeof_bpf_insn) as [|Hlen]; [apply run_fail; bad|].
  apply run_bind, malloc_spec, run_bind, run_bind, malloc_any. intros [[]|err]; cbn [fst snd]; [|done].
  apply run_ret, run_bind, malloc_spec, run_bind, lift_spec. intros insns Hi. cbn [fst snd].
  apply run_ret, run_bind, malloc_spec, upd_spec. cbn [fst snd].
  assert (insns <> []) as Hne by (by eapply decode_insns_nonempty).
  split; cbn.
  - rewrite List.map_app, K1. cbn. unfold prog_key. cbn. by rewrite Hi.
  - apply List.Forall_app. split; [done|]. repeat constructor. by exists insns.
  - apply List.Forall_app. split; [done|]. by repeat constructor.
  - done.
  - done.
Qed.

(** Everything but programs, maps and [loaded] may change. *)
Lemma collected_same keys s s' :
  programs s'.1 = programs s.1 -> maps s'.1 = maps s.1 -> loaded s'.1 = loaded s.1 -> collected keys s -> collected keys s'.
Proof. intros E1 E2 E3 [K1 K2 K3 K4 K5]. split; by rewrite ?E1, ?E2, ?E3. Qed.

Lemma btf_load_spec (Q : result btf -> OS -> Prop) b s :
  (forall r n, Q r (s.1, n)) -> runs True open_error Q (try (btf__load alloc bpf_load_btf b)) s.
Proof.
  intros HQ. unfold runs, try, btf__load. destruct (0 <=? fd b); [destruct s; apply HQ|]. unfold bind, malloc.
  destruct (alloc s.2); [|apply HQ]. destruct (bpf_load_btf (data b)); apply HQ.
Qed.

Lemma collect_btf_spec data keys s :
  collected keys s -> runs True open_error (fun _ => collected keys) (collect_btf e alloc btf_alloc bpf_load_btf data) s.
Proof.
  intros Hc. unfold collect_btf. apply run_bind, run_pure; [done|intros err; by destruct (btf__new _ _ _ _)|].
  intros r _. destruct r as [b|err].
  - apply run_bind, btf_load_spec. intros l n. apply upd_spec. by apply (collected_same keys s).
  - apply upd_spec. by apply (collected_same keys s).
Qed.

Lemma collect_scn_spec idx scn d keys s :
  collected keys s ->
  runs True open_error (fun _ => collected (keys ++ option_list (exec_program e elf idx scn)))
    (collect_scn e alloc btf_alloc elf bpf_load_btf idx scn d) s.
Proof.
  intros Hc. unfold collect_scn, exec_program. destruct (scn_shdr scn) as [sh|]; [|apply run_fail; bad].
  cbn [mbind option_bind]. destruct (elf_strptr _ _ _) as [name|]; [|apply run_fail; bad]. cbn [mbind option_bind].
  destruct (scn_data scn) as [data|]; [|apply run_fail; bad]. cbn [mbind option_bind].
  set (special := [lit "license"; _; _; _; _]). assert (forall n, n ∈ special -> name = n -> bool_decide (name ∈ special) = true) as Hsp.
  { intros n Hn ->. by apply bool_decide_eq_true. }
  assert (forall (c : OM unit) s', runs True open_error (fun _ => collected (keys ++ [])) c s' ->
    runs True open_error (fun (_ : option (list Z)) => collected (keys ++ [])) (let* _ := c in ret d) s') as Hkeep.
  { intros c s' Hr. eapply run_seq; [exact Hr|]. intros [] s2 H2. by apply run_ret. }
  assert (collected (keys ++ []) s) as Hc' by by rewrite app_nil_r.
  assert (forall f s', collected (keys ++ []) s' -> runs True open_error (fun _ => collected (keys ++ [])) (upd_efile f) s') as Hup.
  { intros f s' Hs'. apply upd_spec. by apply (collected_same _ s'). }
  name_case (lit "license") N1.
  { rewrite (Hsp _ ltac:(by left) N1). apply Hkeep, upd_spec. by apply (collected_same _ s). }
  name_case (lit "version") N2.
  { rewrite (Hsp _ ltac:(by right; left) N2). apply Hkeep. unfold bpf_object__init_kversion.
    destruct (negb _); [apply run_fail; bad|]. apply run_bind, lift_spec. intros. apply upd_spec. by apply (collected_same _ s). }
  name_case (lit "maps") N3.
  { rewrite (Hsp _ ltac:(by right; right; left) N3). by apply Hkeep, Hup. }
  name_case (BTF_ELF_SEC) N4.
  { rewrite (Hsp _ ltac:(by right; right; right; left) N4). by apply Hkeep, collect_btf_spec. }
  name_case (BTF_EXT_ELF_SEC) N5.
  { rewrite (Hsp _ ltac:(by right; right; right; right; left) N5). by apply run_ret. }
  rewrite (bool_decide_eq_false_2 (name ∈ special)) by (unfold special; rewrite !elem_of_cons, elem_of_nil; tauto).
  destruct (Z.eqb_spec (sh_type sh) SHT_SYMTAB) as [Et|_].
  { rewrite Et. cbn [andb Z.eqb SHT_SYMTAB SHT_PROGBITS]. apply run_bind, obj_spec.
    destruct (symbols _); [apply run_fail; bad|]. by apply Hkeep, Hup. }
  destruct ((sh_type sh =? SHT_PROGBITS) && _ && _) eqn:Ex.
  - apply run_bind. eapply run_mono with (P := fun _ => collected keys).
    + name_case (lit ".text") N6; [|by apply run_ret]. apply upd_spec. by apply (collected_same _ s).
    + intros [] s' Hs'. eapply run_seq; [by apply add_program_spec|]. intros [] s2 H2. by apply run_ret.
  - destruct (sh_type sh =? SHT_REL); [|by apply run_ret]. destruct (negb (section_have_execinstr _ _)); [by apply run_ret|].
    apply run_bind, malloc_spec, Hkeep, Hup. by apply (collected_same _ s).
Qed.

Lemma collect_scns_spec scns : forall idx d keys s,
  collected keys s ->
  runs True open_error (fun _ => collected (keys ++ exec_programs e elf idx scns))
    (collect_scns e alloc btf_alloc elf bpf_load_btf idx scns d) s.
Proof.
  induction scns as [|scn scns IH]; intros idx d keys s Hc; cbn [collect_scns exec_programs].
  - rewrite app_nil_r. by apply run_ret.
  - eapply run_seq; [by apply collect_scn_spec|]. intros d' s' Hs'. rewrite app_assoc. by apply IH.
Qed.

(** *** Maps *)

(** Bytes of a definition the structure has no field for. *)
Definition excess_zero (data : list Z) (size : Z) (m : bpf_map) : Prop :=
  sizeof_bpf_map_def < size -> exists excess,
    get_bytes data (m_offset m + sizeof_bpf_map_def) (Z.to_nat (size - sizeof_bpf_map_def)) = Some excess /\
    Forall (fun b => b = 0) excess.

(** The map of a symbol. *)
Definition map_of (strict : bool) (strtab : Z) (data : list Z) (size : Z) (sym : elf_sym) (m : bpf_map) : Prop :=
  m_name m = elf_strptr elf strtab (st_name sym) /\ m_offset m = st_value sym /\ map_ok e data size m /\
  (strict = true -> excess_zero data size m).

Lemma insert_middle {A} (l k : list A) (x y : A) : <[length l := y]> (l ++ x :: k) = l ++ y :: k.
Proof. induction l as [|a l IH]; [done|]. exact (f_equal (cons a) IH). Qed.

Lemma set_map_spec (P : unit -> OS -> Prop) f o done m rest n :
  P tt (set_maps o (done ++ f m :: rest), n) ->
  runs True open_error P (set_map (length done) f) (set_maps o (done ++ m :: rest), n).
Proof.
  intros HP. unfold set_map. apply run_bind, obj_spec, run_bind, lift_spec. cbn [fst]. intros m' Hm.
  change (maps (set_maps o (done ++ m :: rest))) with (done ++ m :: rest) in Hm.
  rewrite list_lookup_middle in Hm by done. injection Hm as <-. apply upd_spec. cbn [fst snd].
  change (maps (set_maps o (done ++ m :: rest))) with (done ++ m :: rest). by rewrite insert_middle.
Qed.

Lemma existsb_zero l : existsb (fun b => negb (b =? 0)) l = false -> Forall (fun b => b = 0) l.
Proof.
  induction l as [|b l IH]; cbn; [by constructor|]. rewrite orb_false_iff. intros [Hb%negb_false_iff%Z.eqb_eq Hl].
  constructor; auto.
Qed.

Lemma init_map_spec strict data size o done sym rest n :
  0 < size < 2 ^ 31 ->
  runs True open_error
    (fun _ s' => exists m n', s' = (set_maps o (done ++ m :: rest), n') /\
      map_of strict (strtabidx (o_efile o)) data size sym m)
    (init_map e alloc elf strict data size (length done) sym) (set_maps o (done ++ empty_map :: rest), n).
Proof.
  intros Hsz. unfold init_map. apply run_bind, obj_spec, run_bind, set_map_spec.
  destruct (zlen data <? _); [apply run_fail; bad|]. apply run_bind, lift_spec. intros name Hname.
  apply run_bind, malloc_spec, run_bind. cbn [fst snd]. apply set_map_spec, run_bind.
  cbn [m_fd m_name m_offset m_ifindex m_inner_map_fd m_def empty_map].
  assert (u64 size = size) as -> by (apply wrap_small; unfold in_range; lia).
  change (o_efile (fst (set_maps o (done ++ empty_map :: rest), n))) with (o_efile o) in Hname.
  assert (forall def, map_def_at e data (st_value sym) (Z.to_nat (Z.min size 20)) = Some def ->
    (strict = true -> sizeof_bpf_map_def < size -> exists excess,
      get_bytes data (st_value sym + sizeof_bpf_map_def) (Z.to_nat (size - sizeof_bpf_map_def)) = Some excess /\
      Forall (fun b => b = 0) excess) ->
    map_of strict (strtabidx (o_efile o)) data size sym (Map (-1) (Some name) (st_value sym) 0 (-1) def 0 0)) as Hof.
  { intros def Hd Hx. split; [done|]. split; [done|]. split; [|exact Hx]. split; [done|done|by eexists|done]. }
  unfold sizeof_bpf_map_def in *. destruct (Z.leb_spec size 20) as [Hle|Hgt].
  - apply lift_spec. intros def Hd. apply set_map_spec. eexists _, _. split; [done|]. apply Hof; [|lia].
    by rewrite Z.min_l by done.
  - apply run_bind, lift_spec. intros excess Hx. destruct (strict && _) eqn:Es; [apply run_fail; bad|].
    apply lift_spec. intros def Hd. apply set_map_spec. eexists _, _. split; [done|]. apply Hof.
    + by rewrite Z.min_r by lia.
    + intros -> _. exists excess. split; [done|]. cbn [andb] in Es. by apply existsb_zero.
Qed.

Lemma init_each_map_spec strict data size o syms : forall done n,
  0 < size < 2 ^ 31 ->
  runs True open_error
    (fun _ s' => exists ms n', s' = (set_maps o (done ++ ms), n') /\
      Forall2 (map_of strict (strtabidx (o_efile o)) data size) syms ms)
    (init_each_map e alloc elf strict data size (length done) syms)
    (set_maps o (done ++ repeat empty_map (length syms)), n).
Proof.
  induction syms as [|sym syms IH]; intros done n Hsz; cbn [init_each_map length repeat].
  - apply run_ret. exists [], n. split; [done|constructor].
  - eapply run_seq; [by apply init_map_spec|]. intros [] s' (m & n' & -> & Hm).
    specialize (IH (done ++ [m]) n' Hsz). rewrite length_app, Nat.add_1_r, <- app_assoc in IH. cbn [app] in IH.
    eapply run_mono; [exact IH|]. intros [] s' (ms & n2 & -> & Hms). exists (m :: ms), n2.
    split; [by rewrite <- app_assoc|]. by constructor.
Qed.

(** The maps of an object, from the symbols [syms] and the section [data]. *)
Record maps_read (strict : bool) (strtab : Z) (msyms : list elf_sym) (data : list Z) (ms : list bpf_map) : Prop := {
  mr_syms : exists ms', Permutation ms ms' /\
    Forall2 (map_of strict strtab data (zlen data / zlen msyms)) msyms ms';
  mr_sorted : StronglySorted (fun a b => m_offset a <= m_offset b) ms;
  mr_size : zlen msyms <> 0 -> zlen data = zlen msyms * (zlen data / zlen msyms) /\ 0 < zlen data
}.

(** What a file makes of its section of maps. *)
Definition maps_of (flags : Z) (shndx : Z) (symtab : option (list Z)) (strtab : Z) (ms : list bpf_map) : Prop :=
  if shndx <? 0 then ms = [] else
  exists syms data, symtab = Some syms /\ (scn ← elf_getscn elf shndx; scn_data scn) = Some data /\
    maps_read (Z.land flags MAPS_RELAX_COMPAT =? 0) strtab (map_syms elf syms shndx) data ms.

Lemma map_of_range strict strtab data size sym m :
  0 < size -> map_of strict strtab data size sym m -> 0 <= m_offset m < zlen data.
Proof.
  intros Hs (_ & _ & [_ _ _ Hd] & _). unfold map_def_at in Hd. destruct (get_bytes _ _ _) as [bs|] eqn:E; [|done].
  assert (is_Some (get_bytes data (m_offset m) (Z.to_nat (Z.min size 20)))) as Hr%get_bytes_is_Some by by eexists. lia.
Qed.

Context `{!QsortLaws H}.

(** The difference of two offsets of a short section is not cut. *)
Lemma sorted_maps N ms :
  N <= 2 ^ 31 -> Forall (fun m => 0 <= m_offset m < N) ms ->
  StronglySorted (fun a b => m_offset a <= m_offset b) (qsort compare_bpf_map ms).
Proof.
  intros HN Hms. rewrite List.Forall_forall in Hms.
  assert (forall a b, In a ms -> In b ms -> compare_bpf_map a b = m_offset a - m_offset b) as Hc.
  { intros a b Ha%Hms Hb%Hms. unfold compare_bpf_map, s32. rewrite wrap_small; [lia|]. unfold in_range. lia. }
  assert (StronglySorted (fun a b => compare_bpf_map a b <= 0) (qsort compare_bpf_map ms)) as Hs.
  { apply qsort_sorted.
    - intros a b Ha Hb. rewrite !Hc by done. lia.
    - intros a b Ha Hb. rewrite !Hc by done. lia.
    - intros a b c Ha Hb Hd. rewrite !Hc by done. lia. }
  assert (forall m, In m (qsort compare_bpf_map ms) -> In m ms) as Hin.
  { intros m. apply Permutation_in, qsort_permutation. }
  induction Hs as [|a l Hl IH Ha]; [constructor|]. constructor.
  - apply IH. intros m Hm. apply Hin. by right.
  - rewrite List.Forall_forall in Ha |- *. intros b Hb. specialize (Ha b Hb).
    rewrite Hc in Ha; [lia|apply Hin; by left|apply Hin; by right].
Qed.

Hypothesis Hsmall : forall idx scn data, elf_getscn elf idx = Some scn -> scn_data scn = Some data -> zlen data < 2 ^ 31.

Lemma init_maps_spec flags o n :
  maps o = [] -> 0 <= maps_shndx (o_efile o) ->
  runs True open_error
    (fun _ s' => exists ms n', s' = (set_maps o ms, n') /\
      maps_of flags (maps_shndx (o_efile o)) (symbols (o_efile o)) (strtabidx (o_efile o)) ms)
    (bpf_object__init_maps e alloc elf flags) (o, n).
Proof.
  intros H0 Hidx. unfold bpf_object__init_maps, maps_of. set (strict := Z.land _ _ =? 0).
  apply run_bind, obj_spec. cbn [fst]. destruct (Z.ltb_spec (maps_shndx (o_efile o)) 0) as [|_]; [apply run_fail; bad|].
  destruct (symbols (o_efile o)) as [syms|]; [|apply run_fail; bad].
  destruct (elf_getscn elf (maps_shndx (o_efile o))) as [scn|] eqn:Escn; cbn [mbind option_bind]; [|apply run_fail; bad].
  destruct (scn_data scn) as [data|] eqn:Edata; [|apply run_fail; bad]. pose proof (Hsmall _ _ _ Escn Edata) as Hlen.
  set (msyms := map_syms elf syms _). assert (0 <= zlen msyms) by apply zlen_nonneg.
  assert (maps o = [] -> (o, n) = (set_maps o [], n)) as Ho by (by destruct o; cbn; intros ->).
  destruct (Z.eqb_spec (zlen msyms) 0) as [Ez|Ez].
  { apply run_ret. exists [], n. split; [by apply Ho|]. exists syms, data. split; [done|]. split; [done|].
    assert (msyms = []) as E by (unfold zlen in Ez; by destruct msyms). fold msyms. rewrite E.
    split; [exists []; by split|constructor|done]. }
  destruct (Z.eqb_spec (zlen data) 0) as [|Hd0]; cbn [orb]; [apply run_fail; bad|].
  destruct (Z.eqb_spec (zlen data mod zlen msyms) 0) as [Hmod|]; cbn [negb]; [|apply run_fail; bad].
  pose proof (zlen_nonneg data). assert (zlen data = zlen msyms * (zlen data / zlen msyms)) as Hdiv.
  { pose proof (Z.div_mod (zlen data) (zlen msyms) Ez). lia. }
  set (size := zlen data / zlen msyms) in *. assert (0 < size < 2 ^ 31) as Hsize by nia.
  assert (s32 size = size) as -> by (apply s32_small; lia).
  apply run_bind, malloc_spec, run_bind, upd_spec, run_bind. cbn [fst snd].
  eapply run_mono; [apply (init_each_map_spec strict data size o msyms [] _ Hsize)|]. cbn [app].
  intros [] s' (ms & n' & -> & Hms). apply upd_spec. cbn [fst snd].
  change (maps (set_maps o ms)) with ms. eexists _, _. split; [done|]. exists syms, data. split; [done|]. split; [done|].
  split; [exists ms; split; [apply qsort_permutation|exact Hms]| |by split; [|lia]].
  apply (sorted_maps (zlen data)); [lia|]. eapply Forall2_Forall_r; [exact Hms|]. apply List.Forall_forall.
  intros sym _ m Hm. apply (map_of_range strict (strtabidx (o_efile o)) data size sym m); [lia|exact Hm].
Qed.

(** *** Names and relocations *)

Lemma set_programs_same o : set_programs o (programs o) = o.
Proof. by destruct o. Qed.
Lemma set_pseudo_same o : set_pseudo_calls o (has_pseudo_calls o) = o.
Proof. by destruct o. Qed.

Lemma Forall2_insert_r {A B} (R : A -> B -> Prop) l k i a b :
  Forall2 R l k -> l !! i = Some a -> R a b -> Forall2 R l (<[i := b]> k).
Proof.
  intros Hl Ha Hb. rewrite <- (list_insert_id l i a Ha). by apply Forall2_insert.
Qed.

(** The first [k] programs have names. *)
Definition named_upto (o : bpf_object) (k : nat) (s : OS) : Prop :=
  exists ps n, s = (set_programs o ps, n) /\ Forall2 (fun p p' => exists nm, p' = set_p_name p nm) (programs o) ps /\
    Forall (fun p => is_Some (p_name p)) (take k ps).

Lemma init_prog_name_spec o k s :
  (k < length (programs o))%nat -> named_upto o k s ->
  runs True open_error (fun _ => named_upto o (S k)) (init_prog_name alloc elf k) s.
Proof.
  intros Hk (ps & n & -> & Hps & Hnm). unfold init_prog_name. apply run_bind, obj_spec, run_bind, lift_spec.
  cbn [fst]. intros p Hp. change (programs (set_programs o ps)) with ps in Hp. apply run_bind, lift_spec. intros syms Hs.
  destruct (lookup_lt_is_Some_2 (programs o) k Hk) as [p0 Hp0].
  destruct (Forall2_lookup_lr _ _ _ _ _ _ Hps Hp0 Hp) as [nm0 ->].
  apply run_bind, run_pure; [done| |].
  { intros err. destruct (find_prog_name _ _ _ _ _) as [?|err'] eqn:Ef; [done|]. intros [= <-].
    clear -Ef. revert Ef. generalize (sym_indices syms). intros l. induction l as [|si l IH]; cbn; [done|].
    destruct (gelf_getsym _ _ _); [|done]. destruct (negb _); [done|]. destruct (negb _); [done|].
    destruct (elf_strptr _ _ _); [done|]. intros [= <-]. bad. }
  intros name _. match goal with |- runs _ _ _ (match ?x with _ => _ end) _ => destruct x as [nm|] end; [|apply run_fail; bad].
  apply run_bind, malloc_spec, upd_spec. cbn [fst snd]. change (programs (set_programs o ps)) with ps.
  exists (<[k := set_p_name (set_p_name p0 nm0) (Some nm)]> ps), (S n). split; [done|]. split.
  - eapply Forall2_insert_r; [done|done|]. by exists (Some nm).
  - rewrite (take_S_r _ _ (set_p_name (set_p_name p0 nm0) (Some nm))).
    + rewrite take_insert_ge by done. apply List.Forall_app. split; [done|]. repeat constructor. by eexists.
    + apply list_lookup_insert_eq. by eapply lookup_lt_Some.
Qed.

Lemma init_prog_names_spec o n :
  runs True open_error (fun _ => named_upto o (length (programs o))) (bpf_object__init_prog_names alloc elf) (o, n).
Proof.
  unfold bpf_object__init_prog_names. apply run_bind, obj_spec. cbn [fst].
  assert (named_upto o 0 (o, n)) as H0.
  { exists (programs o), n. split; [by rewrite set_programs_same|]. split; [|constructor].
    apply Forall2_same_length_lookup_2; [done|]. intros i x y Hx Hy. exists (p_name x). assert (y = x) as -> by congruence. by destruct x. }
  assert (forall m k s, (k + m = length (programs o))%nat -> named_upto o k s ->
    runs True open_error (fun _ => named_upto o (length (programs o))) (each (init_prog_name alloc elf) (seq k m)) s) as Hall.
  { induction m as [|m IH]; intros k s Hkm Hs; cbn [seq each].
    - apply run_ret. by replace (length (programs o)) with k by lia.
    - eapply run_seq; [apply (init_prog_name_spec o k); [lia|exact Hs]|]. intros [] s' Hs'. apply IH; [lia|done]. }
  by apply Hall.
Qed.

Lemma collect_relo_spec insns data i s :
  runs True open_error
    (fun r s' => s' = ((if is_relo_call r then set_pseudo_calls s.1 true else s.1), s.2) /\ relo_ok insns (maps s.1) r)
    (collect_relo elf insns data i) s.
Proof.
  unfold collect_relo. apply run_bind, obj_spec. destruct (gelf_getrel _ _ _) as [rel|]; [|apply run_fail; bad].
  destruct (mbind _ _) as [sym|]; [|apply run_fail; bad]. destruct (_ && _); [apply run_fail; bad|].
  apply run_bind, lift_spec. intros ins Hins. destruct (is_call ins) eqn:Ec.
  - destruct (Z.eqb_spec (i_src ins) BPF_PSEUDO_CALL) as [Es|]; cbn [negb]; [|apply run_fail; bad].
    apply run_bind, upd_spec, run_ret. split; [done|]. by exists ins.
  - destruct (is_ldimm64 ins) eqn:El; cbn [negb]; [|apply run_fail; bad].
    destruct (list_find _ _) as [[j m]|] eqn:Ef; [|apply run_fail; bad]. apply run_ret. split; [by destruct s|].
    split; [by exists ins|]. apply list_find_Some in Ef as (Hj%lookup_lt_Some & _). unfold zlen. lia.
Qed.

Lemma collect_relos_spec insns data idxs : forall o n,
  runs True open_error
    (fun rs s' => exists b, s' = (set_pseudo_calls o b, n) /\ (has_pseudo_calls o = true -> b = true) /\
      Forall (fun r => relo_ok insns (maps o) r /\ (is_relo_call r = true -> b = true)) rs)
    (collect_relos elf insns data idxs) (o, n).
Proof.
  induction idxs as [|i idxs IH]; intros o n; cbn [collect_relos].
  - apply run_ret. exists (has_pseudo_calls o). split; [by rewrite set_pseudo_same|]. by split.
  - eapply run_seq; [apply collect_relo_spec|]. cbn [fst snd]. intros r s' [-> Hr].
    set (o1 := if is_relo_call r then _ else o). assert (maps o1 = maps o) as Em by (unfold o1; by destruct (is_relo_call r)).
    eapply run_seq; [apply IH|]. intros rs s' (b & -> & Hb & Hrs). apply run_ret. exists b. split.
    { unfold o1. by destruct (is_relo_call r). }
    assert ((has_pseudo_calls o = true -> b = true) /\ (is_relo_call r = true -> b = true)) as [H1 H2].
    { unfold o1 in Hb. destruct (is_relo_call r); split; intros ?; first [by apply Hb|done]. }
    split; [done|]. constructor; [by split|]. by rewrite Em in Hrs.
Qed.

(** Programs with the relocations read so far. *)
Definition relocated_from (o : bpf_object) (s : OS) : Prop :=
  exists b ps n, s = (set_programs (set_pseudo_calls o b) ps, n) /\
    Forall2 (fun p p' => exists rs, p' = set_p_reloc_desc p rs) (programs o) ps /\
    Forall (program_ok (set_pseudo_calls o b)) ps.

Lemma program_ok_more o b p :
  (has_pseudo_calls o = true -> b = true) -> program_ok o p -> program_ok (set_pseudo_calls o b) p.
Proof.
  intros Hb [[P1 P2 P3] P4 P5 P6]. split; [split; [exact P1| |done]|done..].
  intros rs r H1 H2 H3. apply Hb. by apply (P2 rs r).
Qed.

Lemma collect_program_spec o pi sh data s :
  relocated_from o s ->
  runs True open_error (fun _ => relocated_from o) (bpf_program__collect_reloc alloc elf pi sh data) s.
Proof.
  intros (b & ps & n & -> & Hps & Hok). unfold bpf_program__collect_reloc. apply run_bind, obj_spec, run_bind, lift_spec.
  cbn [fst]. intros p Hp. change (programs (set_programs (set_pseudo_calls o b) ps)) with ps in Hp.
  destruct (sh_entsize sh =? 0); [by apply lift_spec|]. apply run_bind, malloc_spec, run_bind, lift_spec. cbn [fst snd].
  intros insns Hins. eapply run_seq; [apply collect_relos_spec|]. intros rs s' (b' & -> & Hb & Hrs). apply upd_spec. cbn [fst snd].
  exists b', (<[pi := set_p_reloc_desc p (Some rs)]> ps), (S n). split; [done|].
  pose proof (lookup_lt_Some _ _ _ Hp) as Hlt. rewrite <- (Forall2_length Hps) in Hlt.
  destruct (lookup_lt_is_Some_2 _ _ Hlt) as [p0 Hp0]. destruct (Forall2_lookup_lr _ _ _ _ _ _ Hps Hp0 Hp) as [rs0 ->]. split.
  - eapply Forall2_insert_r; [done|done|]. by exists (Some rs).
  - assert (Forall (program_ok (set_pseudo_calls o b')) ps) as Hok'.
    { eapply List.Forall_impl; [|exact Hok]. intros p. apply (program_ok_more (set_pseudo_calls o b)). exact Hb. }
    apply Forall_insert; [done|]. rewrite Forall_lookup in Hok'. destruct (Hok' _ _ Hp) as [[(insns' & E & Hne & _) P2 P3] P4 P5 P6].
    assert (insns' = insns) as -> by (cbn in E; cbn in Hins; congruence).
    rewrite List.Forall_forall in Hrs. split; [|done..]. split; [|intros rs' r [= <-] Hr Hc; exact (proj2 (Hrs r (proj1 (list_elem_of_In _ _) Hr)) Hc)|done].
    exists insns. split; [done|]. split; [done|]. intros rs' [= <-]. apply List.Forall_forall. intros r Hr. exact (proj1 (Hrs r Hr)).
Qed.

Lemma collect_reloc_spec o n :
  Forall (program_ok o) (programs o) ->
  runs True open_error (fun _ => relocated_from o) (bpf_object__collect_reloc alloc elf) (o, n).
Proof.
  intros Hok. unfold bpf_object__collect_reloc. apply run_bind, obj_spec. cbn [fst].
  apply (run_each True open_error (fun _ => relocated_from o)).
  - intros [sh data] l s Hs. apply run_bind, obj_spec. destruct (negb _); [apply run_fail; bad|].
    destruct (find_prog _ _) as [pi|]; [by apply collect_program_spec|apply run_fail; bad].
  - exists (has_pseudo_calls o), (programs o), n. rewrite set_pseudo_same, set_programs_same. split; [done|]. split; [|done].
    apply Forall2_same_length_lookup_2; [done|]. intros i x y Hx Hy. exists (p_reloc_desc x).
    assert (y = x) as -> by congruence. by destruct x.
Qed.

(** *** All passes *)

(** Before relocations are read. *)
Record before_reloc (flags : Z) (o : bpf_object) : Prop := {
  br_keys : List.map prog_key (programs o) = exec_programs e elf 1 (elf_scns elf);
  br_fresh : Forall fresh (programs o);
  br_relocs : Forall (fun p => p_reloc_desc p = None) (programs o);
  br_named : Forall (fun p => is_Some (p_name p)) (programs o);
  br_maps : maps_of flags (maps_shndx (o_efile o)) (symbols (o_efile o)) (strtabidx (o_efile o)) (maps o);
  br_loaded : loaded o = false
}.

Lemma collected_new n : collected [] (bpf_object__new, n).
Proof. split; try done; constructor. Qed.

Lemma collect_btf_ext_spec d o n :
  runs True open_error (fun _ s' => exists x, s' = (set_btf_ext o x, n)) (collect_btf_ext e btf_alloc d) (o, n).
Proof.
  assert (exists x, (o, n) = (set_btf_ext o x, n)) as Hsame by (exists (o_btf_ext o); by destruct o).
  unfold collect_btf_ext. destruct d as [data|]; [|by apply run_ret]. apply run_bind, obj_spec. cbn [fst].
  destruct (o_btf o); [|by apply run_ret]. apply run_bind, run_pure; [done|intros err; by destruct (btf_ext__new _ _ _ _)|].
  intros r _. apply upd_spec. by eexists.
Qed.

Lemma named_before flags o n s :
  collected (exec_programs e elf 1 (elf_scns elf)) (set_maps o [], n) ->
  maps_of flags (maps_shndx (o_efile o)) (symbols (o_efile o)) (strtabidx (o_efile o)) (maps o) ->
  named_upto o (length (programs o)) s -> before_reloc flags s.1.
Proof.
  intros [K1 K2 K3 _ K5] Hm (ps & n' & -> & Hps & Hnm). rewrite firstn_all2 in Hnm by (by rewrite (Forall2_length Hps)).
  cbn [fst] in *. change (programs (set_maps o [])) with (programs o) in *.
  assert (forall (P : bpf_program -> Prop), (forall p nm, P p -> P (set_p_name p nm)) -> Forall P (programs o) -> Forall P ps) as Hkeep.
  { intros P HP Hall. eapply Forall2_Forall_r; [exact Hps|]. eapply List.Forall_impl; [|exact Hall].
    intros p Hp p' [nm ->]. by apply HP. }
  split; [|apply Hkeep; [|done]|apply Hkeep; [done|done]|done|exact Hm|exact K5].
  - rewrite <- K1. cbn. clear -Hps. induction Hps as [|p p' l l' [nm ->] _ IH]; [done|]. cbn. by rewrite IH.
  - intros p nm [F1 F2 F3 F4]. by split.
Qed.

Lemma elf_collect_spec flags n :
  runs True open_error (fun _ s => before_reloc flags s.1) (bpf_object__elf_collect e alloc btf_alloc elf bpf_load_btf flags)
    (bpf_object__new, n).
Proof.
  unfold bpf_object__elf_collect. destruct (negb _); [apply run_fail; bad|].
  eapply run_seq; [apply (collect_scns_spec _ _ _ [] _ (collected_new n))|]. cbn [app]. intros d [o n1] Hc.
  apply run_bind, obj_spec. cbn [fst].
  destruct (_ || _) eqn:Estr.
  { apply run_fail. right. split; [done|]. apply orb_true_iff in Estr as [?%Z.eqb_eq|?%Z.leb_le]; auto. }
  eapply run_seq; [apply collect_btf_ext_spec|]. intros [] s1 (x & ->). set (o1 := set_btf_ext o x).
  assert (collected (exec_programs e elf 1 (elf_scns elf)) (o1, n1)) as Hc1 by by apply (collected_same _ (o, n1)).
  change (maps_shndx (o_efile o)) with (maps_shndx (o_efile o1)). clearbody o1. clear Hc Estr o. destruct (Z.leb_spec 0 (maps_shndx (o_efile o1))) as [Hm|Hm].
  - eapply run_seq; [apply (init_maps_spec flags); [apply Hc1|done]|]. intros [] s2 (ms & n2 & -> & Hms).
    eapply run_mono; [apply init_prog_names_spec|]. intros [] s3. apply (named_before _ _ n2); [|done].
    destruct Hc1 as [K1 K2 K3 K4 K5]. by split.
  - apply run_bind, run_ret. eapply run_mono; [apply init_prog_names_spec|]. intros [] s3. apply (named_before _ _ n1).
    + destruct Hc1 as [K1 K2 K3 K4 K5]. by split.
    + unfold maps_of. destruct (Z.ltb_spec (maps_shndx (o_efile o1)) 0); [|lia]. apply Hc1.
Qed.

(** An object that has been opened. *)
Record object_opened (flags : Z) (o : bpf_object) : Prop := {
  oo_programs : List.map prog_key (programs o) = exec_programs e elf 1 (elf_scns elf);
  oo_named : Forall (fun p => is_Some (p_name p)) (programs o);
  oo_ok : Forall (program_ok o) (programs o);
  oo_maps : exists symtab, maps_of flags (maps_shndx (o_efile o)) symtab (strtabidx (o_efile o)) (maps o);
  oo_loaded : loaded o = false
}.

Lemma open_passes_spec needs_kver flags :
  runs True open_error (fun _ s => object_opened flags s.1 /\ (needs_kver = true -> kern_version s.1 <> 0))
    (open_passes e alloc btf_alloc elf bpf_load_btf needs_kver flags) (bpf_object__new, 0%nat).
Proof.
  unfold open_passes. apply run_bind, malloc_spec, run_bind. cbn [fst snd].
  unfold check_ehdr. destruct (_ || _); [apply run_fail; bad|]. apply run_ret, run_bind. unfold bpf_object__check_endianness.
  apply (run_mono _ _ (fun _ s => s = (bpf_object__new, 1%nat))).
  { destruct (ei_data elf =? _); [destruct (decide _); [by apply run_ret|apply run_fail; bad]|].
    destruct (ei_data elf =? _); [destruct (decide _); [by apply run_ret|apply run_fail; bad]|apply run_fail; bad]. }
  intros [] s ->. eapply run_seq; [apply elf_collect_spec|]. intros [] [o n] [B1 B2 B3 B4 B5 B6]. cbn [fst] in *.
  assert (Forall (program_ok o) (programs o)) as Hok.
  { rewrite List.Forall_forall in B2, B3 |- *. intros p Hp. destruct (B2 p Hp) as [(insns & F1 & F1') F2 F3 F4 F5]. specialize (B3 p Hp).
    split; [|done..]. split; [|by rewrite B3|done]. exists insns. split; [done|]. split; [done|]. by rewrite B3. }
  eapply run_seq; [by apply collect_reloc_spec|]. intros [] s (b & ps & n' & -> & Hps & Hps').
  apply run_bind. unfold bpf_object__validate. apply run_bind, obj_spec. cbn [fst].
  destruct needs_kver; cbn [andb].
  1: destruct (Z.eqb_spec (kern_version (set_programs (set_pseudo_calls o b) ps)) 0); [apply run_fail; bad|].
  all: apply run_ret, upd_spec; cbn [fst]; (split; [|done]); split;
    [ rewrite <- B1; cbn; clear -Hps; induction Hps as [|p p' l l' [rs ->] _ IH]; [done|]; cbn; by rewrite IH
    | cbn; eapply Forall2_Forall_r; [exact Hps|]; eapply List.Forall_impl; [|exact B4]; by intros p Hp p' [rs ->]
    | cbn; eapply List.Forall_impl; [|exact Hps']; intros p [[P1 P2 P3] P4 P5 P6]; by split
    | by exists (symbols (o_efile o))
    | exact B6 ].
Qed.
End opening.

(** ** The theorems *)

(** Opening. *)
Lemma open_opened e alloc btf_alloc `{QsortLaws} elf bpf_load_btf needs_kver flags o :
  (forall idx scn data, elf_getscn elf idx = Some scn -> scn_data scn = Some data -> zlen data < 2 ^ 31) ->
  __bpf_object__open e alloc btf_alloc elf bpf_load_btf needs_kver flags = Some (Ok o) ->
  object_opened e elf flags o /\ (needs_kver = true -> kern_version o <> 0).
Proof.
  intros Hsmall E.
  pose proof (open_passes_spec e alloc btf_alloc elf bpf_load_btf Hsmall needs_kver flags) as Hrun.
  unfold runs in Hrun. unfold __bpf_object__open in E.
  destruct (open_passes _ _ _ _ _ _ _ _) as [[[[]|err] [o' n]]|]; [|done|done]. cbn [fst] in Hrun.
  assert (o' = o) as -> by congruence. exact Hrun.
Qed.


(** *** A file with a program that calls a function and uses the second of two maps *)

Definition ex_insn_bytes (code dst src imm : Z) : list Z :=
  [code; 16 * src + dst; 0; 0] ++ split LE 4 imm.
Definition ex_prog_bytes : list Z :=
  ex_insn_bytes 0x18 1 0 0 ++ ex_insn_bytes 0 0 0 0 ++ ex_insn_bytes 0x85 0 1 (-1) ++ ex_insn_bytes 0x95 0 0 0.
Definition ex_text_bytes : list Z := ex_insn_bytes 0xb7 0 0 2 ++ ex_insn_bytes 0x95 0 0 0.
Definition ex_map_bytes (entries : Z) : list Z :=
  split LE 4 2 ++ split LE 4 4 ++ split LE 4 8 ++ split LE 4 entries ++ split LE 4 0.

Definition ex_strptr (sec off : Z) : option str :=
  if negb (sec =? 5) then None else
  nth_error [lit ""; lit "xdp"; lit ".text"; lit "maps"; lit ".symtab"; lit ".strtab"; lit ".relxdp";
    lit "prog"; lit "m0"; lit "m1"; lit "f"] (Z.to_nat off).
Definition ex_sym (data : list Z) (i : Z) : option elf_sym :=
  nth_error [Sym 0 0 0 0; Sym 7 16 1 0; Sym 8 16 3 0; Sym 9 16 3 20; Sym 10 16 2 0] (Z.to_nat i).
Definition ex_rel (offset : Z) (data : list Z) (i : Z) : option elf_rel :=
  nth_error [Rel 0 (Z.shiftl 3 32); Rel offset (Z.shiftl 4 32)] (Z.to_nat i).
Definition ex_scns (link : Z) : list elf_scn :=
  [Scn (Some (Shdr 1 SHT_PROGBITS 6 32 0 0 0)) (Some ex_prog_bytes);
   Scn (Some (Shdr 2 SHT_PROGBITS 6 16 0 0 0)) (Some ex_text_bytes);
   Scn (Some (Shdr 3 SHT_PROGBITS 3 40 0 0 0)) (Some (ex_map_bytes 10 ++ ex_map_bytes 20));
   Scn (Some (Shdr 4 SHT_SYMTAB 0 120 link 0 24)) (Some (repeat 0 120));
   Scn (Some (Shdr 5 3 0 0 0 0 0)) (Some []);
   Scn (Some (Shdr 6 SHT_REL 0 32 4 1 16)) (Some (repeat 0 32))].
Definition ex_elf (link offset : Z) : elf_file :=
  ElfFile ET_REL EM_BPF ELFDATA2LSB 5 true (ex_scns link) ex_strptr ex_sym (ex_rel offset).
Definition ex_alloc (n : nat) : bool := true.
Definition ex_btf_alloc (size : Z) : bool := true.
Definition ex_load_btf (data : list Z) : result Z := Err (- EINVAL).
Definition ex_open (link offset : Z) : outcome bpf_object :=
  @__bpf_object__open LE ex_alloc ex_btf_alloc insertion_sort (ex_elf link offset) ex_load_btf false 0.

Definition ex_main : bpf_program :=
  Program 1 (Some (lit "prog")) 0 (lit "xdp") (lit "xdp")
    (Some [Insn 0x18 1 0 0 0; Insn 0 0 0 0 0; Insn 0x85 0 1 0 (-1); Insn 0x95 0 0 0 0]) 0 0
    (Some [RELO_LD64 0 1; RELO_CALL 2 0]) None 0 (-1) (ProgInfo None 0 0) (ProgInfo None 0 0).
Definition ex_text : bpf_program :=
  Program 2 (Some (lit "f")) 0 (lit ".text") (lit ".text") (Some [Insn 0xb7 0 0 0 2; Insn 0x95 0 0 0 0]) 0 0
    None None 0 (-1) (ProgInfo None 0 0) (ProgInfo None 0 0).
Definition ex_progs : list bpf_program := [ex_main; ex_text].
Definition ex_maps : list bpf_map :=
  [Map (-1) (Some (lit "m0")) 0 0 (-1) (MapDef 2 4 8 10 0) 0 0;
   Map (-1) (Some (lit "m1")) 20 0 (-1) (MapDef 2 4 8 20 0) 0 0].
Definition ex_object : bpf_object :=
  Object (repeat 0 64) 0 ex_progs ex_maps false true (Efile None 5 [] 3 2) None None false.

Example ex_open_ok : ex_open 5 16 = Some (Ok ex_object).
Proof. vm_compute. reflexivity. Qed.

(** A relocation behind the last instruction is read from outside the program. *)
Example ex_open_outside : ex_open 5 32 = None.
Proof. vm_compute. reflexivity. Qed.

Lemma ex_elf_small link offset idx scn data :
  elf_getscn (ex_elf link offset) idx = Some scn -> scn_data scn = Some data -> zlen data < 2 ^ 31.
Proof.
  unfold elf_getscn. destruct (idx =? 0); [done|]. cbn [ex_elf elf_scns]. unfold znth. case_decide; [|done].
  intros Hin%list_elem_of_lookup_2%list_elem_of_In Hd.
  assert (forallb (fun s => match scn_data s with Some d => zlen d <? 2 ^ 31 | None => true end) (ex_scns link) = true) as Hall
    by (vm_compute; reflexivity).
  rewrite forallb_forall in Hall. specialize (Hall scn Hin). rewrite Hd in Hall. by apply Z.ltb_lt.
Qed.


(** Every error of opening is a code that [IS_ERR] recognises in the pointer
    returned, but one: with an invalid string table the code is positive, and
    the pointer returned is neither an error nor an object. *)
Theorem open_error_sign :
  (forall e alloc btf_alloc (Q : Qsort) (_ : QsortLaws Q) elf bpf_load_btf needs_kver flags err,
    (forall idx scn data, elf_getscn elf idx = Some scn -> scn_data scn = Some data -> zlen data < 2 ^ 31) ->
    @__bpf_object__open e alloc btf_alloc Q elf bpf_load_btf needs_kver flags = Some (Err err) ->
    IS_ERR (ERR_PTR err) = true \/ err = LIBBPF_ERRNO__FORMAT) /\
  ex_open 6 16 = Some (Err LIBBPF_ERRNO__FORMAT) /\ IS_ERR (ERR_PTR LIBBPF_ERRNO__FORMAT) = false.
Proof.
  split; [|split; vm_compute; reflexivity].
  intros e alloc btf_alloc Q HQ elf bpf_load_btf needs_kver flags err Hsmall E.
  pose proof (open_passes_spec e alloc btf_alloc elf bpf_load_btf Hsmall needs_kver flags) as Hrun.
  unfold runs in Hrun. unfold __bpf_object__open in E.
  destruct (open_passes _ _ _ _ _ _ _ _) as [[[[]|err'] [o' n]]|]; [done| |done].
  assert (err' = err) as -> by congruence. destruct Hrun as [?|[? _]]; auto.
Qed.
