(* ===== verification/ObjReuse.v ===== *)
(** * A map that takes over a descriptor (src/libbpf/src/libbpf.c,
      [bpf_map__reuse_fd])

    A map of an object is made a second name for a map the kernel has. *)

From S2P Require Export ElfObject.
From stdpp Require Import gmap.
Open Scope Z_scope.

Definition EBADF := 9.

Record bpf_map_info := MapInfo {
  i_type : Z; i_key_size : Z; i_value_size : Z; i_max_entries : Z; i_map_flags : Z;
  i_name : str; i_btf_key_type_id : Z; i_btf_value_type_id : Z }.

(** Errors are errno. *)
Class Descriptors (K : Type) := {
  get_info_by_fd : Z -> K -> result bpf_map_info * K;
  open_root : K -> result Z * K;
  dup3 : Z -> Z -> K -> result Z * K;
  close_fd : Z -> K -> result unit * K }.

Section reuse.
Context {K : Type} `{Descriptors K}.
(** Whether there is memory for the name. *)
Context (mem : bool).

Definition set_map_fd (m : bpf_map) (fd : Z) : bpf_map :=
  Map fd (m_name m) (m_offset m) (m_ifindex m) (m_inner_map_fd m) (m_def m) (m_btf_key_type_id m) (m_btf_value_type_id m).

(** The map that [info] describes, on [fd]. *)
Definition taken_over (m : bpf_map) (fd : Z) (info : bpf_map_info) : bpf_map :=
  Map fd (Some (i_name info)) (m_offset m) (m_ifindex m) (m_inner_map_fd m)
    (MapDef (i_type info) (i_key_size info) (i_value_size info) (i_max_entries info) (i_map_flags info))
    (i_btf_key_type_id info) (i_btf_value_type_id info).

(** From [err_close_new_fd] on: [errno] is read after closing. *)
Definition close_new_fd (new_fd errno : Z) (k : K) : Z * K :=
  let '(r, k) := close_fd new_fd k in (- (match r with Ok _ => errno | Err errno => errno end), k).

(** [bpf_obj_get_info_by_fd] returns -1 on an error. *)
Definition bpf_map__reuse_fd (m : bpf_map) (fd : Z) (k : K) : Z * bpf_map * K :=
  match get_info_by_fd fd k with
  | (Err _, k) => (-1, m, k)
  | (Ok info, k) =>
      if negb mem then (- ENOMEM, m, k) else
      match open_root k with
      | (Err errno, k) => (- errno, m, k)
      | (Ok root_fd, k) =>
          match dup3 fd root_fd k with
          | (Err errno, k) => let '(err, k) := close_new_fd (-1) errno k in (err, m, k)
          | (Ok new_fd, k) =>
              let '(r, k) := if 0 <=? m_fd m then close_fd (m_fd m) k else (Ok tt, k) in
              let m := set_map_fd m (-1) in
              match r with
              | Err errno => let '(err, k) := close_new_fd new_fd errno k in (err, m, k)
              | Ok _ => (0, taken_over m new_fd info, k)
              end
          end
      end
  end.
End reuse.

(** ** Descriptors *)

(** What a descriptor is for. *)
Inductive kobject := KMap (id : Z) | KRoot.

Class DescriptorsLaws (K : Type) `{Descriptors K} := {
  fds : K -> gmap Z kobject;
  info_of : Z -> bpf_map_info;
  fds_nonneg k fd : is_Some (fds k !! fd) -> 0 <= fd;
  info_law fd k : let '(r, k') := get_info_by_fd fd k in fds k' = fds k /\
    match r with Ok info => exists id, fds k !! fd = Some (KMap id) /\ info = info_of id | Err errno => 0 < errno end;
  open_root_law k : match open_root k with
    | (Ok fd, k') => fds k !! fd = None /\ fds k' = <[fd := KRoot]> (fds k)
    | (Err errno, k') => 0 < errno /\ fds k' = fds k end;
  dup3_law old new k : match dup3 old new k with
    | (Ok fd, k') => fd = new /\ exists o, fds k !! old = Some o /\ fds k' = <[new := o]> (fds k)
    | (Err errno, k') => 0 < errno /\ fds k' = fds k end;
  (** A descriptor is gone even when closing it reports an error. *)
  close_law fd k : let '(r, k') := close_fd fd k in fds k' = delete fd (fds k) /\
    match r with Ok _ => is_Some (fds k !! fd) | Err errno => 0 < errno /\ (fds k !! fd = None -> errno = EBADF) end }.

(** C37. On success the map is the kernel's map that the descriptor stands for, under
    a new descriptor of its own; the old one is closed, and nothing else
    changes.  On an error a map without a descriptor is left as it was, and one
    with a descriptor either keeps it or has none.  Nothing else is opened or
    closed then, except that when duplicating fails a descriptor for the root
    directory is left open and EBADF is reported. *)
Theorem reuse_fd_spec {K} `{DescriptorsLaws K} mem m fd (k : K) :
  (m_fd m < 0 \/ is_Some (fds k !! m_fd m)) ->
  let '(err, m', k') := bpf_map__reuse_fd mem m fd k in
  (err = 0 /\ exists id, fds k !! fd = Some (KMap id) /\ m' = taken_over m (m_fd m') (info_of id) /\
     fds k !! m_fd m' = None /\ fds k' = <[m_fd m' := KMap id]> (delete (m_fd m) (fds k))) \/
  (err < 0 /\ m' = m /\ fds k' = fds k) \/
  (err = - EBADF /\ m' = m /\ exists root, fds k !! root = None /\ fds k' = <[root := KRoot]> (fds k)) \/
  (err < 0 /\ 0 <= m_fd m /\ m' = set_map_fd m (-1) /\ fds k' = delete (m_fd m) (fds k)).
Proof.
  intros Hm. unfold bpf_map__reuse_fd. pose proof (info_law fd k) as H1. destruct (get_info_by_fd fd k) as [[info|errno] k1]; destruct H1 as [F1 H1].
  2: { right. left. by split; [lia|]. }
  destruct H1 as (id & Hid & ->). destruct mem; cbn [negb]; [|right; left; by split; [unfold ENOMEM; lia|]].
  pose proof (open_root_law k1) as H2. destruct (open_root k1) as [[root|errno] k2]; destruct H2 as [H2 F2].
  2: { right. left. split; [lia|]. split; [done|congruence]. }
  rewrite F1 in H2, F2. pose proof (dup3_law fd root k2) as H3. destruct (dup3 fd root k2) as [[new|errno] k3]; destruct H3 as [H3 F3].
  - subst new. destruct F3 as (o & Ho & F3). rewrite F2, insert_insert_eq in F3. rewrite F2, lookup_insert_ne, Hid in Ho by (intros ->; congruence).
    injection Ho as <-.
    assert (exists r k4, (if 0 <=? m_fd m then close_fd (m_fd m) k3 else (Ok tt, k3)) = (r, k4) /\ fds k4 = delete (m_fd m) (fds k3) /\
      match r with Ok _ => True | Err errno => 0 < errno /\ 0 <= m_fd m end) as (r & k4 & -> & F4 & H4).
    { destruct (Z.leb_spec 0 (m_fd m)) as [Hge|Hlt].
      - pose proof (close_law (m_fd m) k3) as H4. destruct (close_fd (m_fd m) k3) as [r k4]. destruct H4 as [F4 H4]. exists r, k4. split; [done|]. split; [done|].
        destruct r; [done|]. by destruct H4.
      - exists (Ok tt), k3. split; [done|]. split; [|done]. symmetry. apply delete_id. destruct (fds k3 !! m_fd m) eqn:E; [|done].
        pose proof (fds_nonneg k3 (m_fd m) ltac:(by eexists)). lia. }
    assert (m_fd m <> root) as Hne.
    { intros E. destruct Hm as [Hm|[? Hm]]; [|congruence]. pose proof (fds_nonneg k3 root) as Hp. rewrite F3, lookup_insert_eq in Hp. specialize (Hp ltac:(by eexists)). lia. }
    destruct r as [u|errno].
    + left. split; [done|]. exists id. cbn [taken_over m_fd]. split_and!; [done..|]. by rewrite F4, F3, delete_insert_ne.
    + destruct H4 as [He Hge]. unfold close_new_fd. pose proof (close_law root k4) as H5. destruct (close_fd root k4) as [r k5]. destruct H5 as [F5 H5].
      right. right. right. split; [destruct r; lia|]. split; [done|]. split; [done|].
      rewrite F5, F4, F3, delete_insert_ne by done. rewrite delete_insert_id; [done|]. by rewrite lookup_delete_ne.
  - unfold close_new_fd. pose proof (close_law (-1) k3) as H4. destruct (close_fd (-1) k3) as [r k4]. destruct H4 as [F4 H4].
    assert (fds k3 !! (-1) = None) as Hnone by (destruct (fds k3 !! (-1)) eqn:E; [pose proof (fds_nonneg k3 (-1) ltac:(by eexists)); lia|done]).
    right. right. left. destruct r as [[]|e]; [rewrite Hnone in H4; by destruct H4|]. destruct H4 as [_ ->]; [|done]. split; [done|]. split; [done|].
    exists root. split; [done|]. by rewrite F4, delete_id, F3.
Qed.

(** ** A kernel with a table of descriptors *)

Record ex_kernel := ExKernel { ek_table : gmap Z kobject; ek_dup : bool }.

(** Only numbers from 0 on are descriptors. *)
Definition ex_fds (k : ex_kernel) : gmap Z kobject := filter (fun p => 0 <= p.1) (ek_table k).
Definition ex_set (k : ex_kernel) (fd : Z) (o : kobject) : ex_kernel := ExKernel (<[fd := o]> (ek_table k)) (ek_dup k).
Definition ex_info (id : Z) : bpf_map_info := MapInfo 1 4 8 100 0 (lit "shared") 0 0.
Definition ex_free (k : ex_kernel) : Z := foldr (fun p => Z.max (p.1 + 1)) 3 (map_to_list (ex_fds k)).

#[export] Instance ex_descriptors : Descriptors ex_kernel := {
  get_info_by_fd fd k := (match ex_fds k !! fd with Some (KMap id) => Ok (ex_info id) | _ => Err EBADF end, k);
  open_root k := (Ok (ex_free k), ex_set k (ex_free k) KRoot);
  dup3 old new k :=
    match ex_fds k !! old with
    | Some o => if ek_dup k && (0 <=? new) then (Ok new, ex_set k new o) else (Err EBADF, k)
    | None => (Err EBADF, k)
    end;
  close_fd fd k :=
    match ex_fds k !! fd with Some _ => (Ok tt, ExKernel (delete fd (ek_table k)) (ek_dup k)) | None => (Err EBADF, k) end }.

Lemma ex_fds_nonneg k fd : is_Some (ex_fds k !! fd) -> 0 <= fd.
Proof. by intros [o (_ & ?)%map_lookup_filter_Some]. Qed.

Lemma ex_fds_set k fd o : 0 <= fd -> ex_fds (ex_set k fd o) = <[fd := o]> (ex_fds k).
Proof. intros Hfd. unfold ex_fds. cbn [ex_set ek_table]. by rewrite map_filter_insert_True. Qed.

Lemma ex_free_new k : 0 <= ex_free k /\ ex_fds k !! ex_free k = None.
Proof.
  assert (forall l : list (Z * kobject), 3 <= foldr (fun p => Z.max (p.1 + 1)) 3 l /\ forall p, p ∈ l -> p.1 < foldr (fun p => Z.max (p.1 + 1)) 3 l) as Hmax.
  { induction l as [|q l [IH1 IH2]]; cbn [foldr]; [split; [lia|intros p Hp; by apply not_elem_of_nil in Hp]|]. split; [lia|].
    intros p [->|Hp]%elem_of_cons; [lia|]. specialize (IH2 _ Hp). lia. }
  destruct (Hmax (map_to_list (ex_fds k))) as [H1 H2]. unfold ex_free. split; [lia|]. destruct (ex_fds k !! _) as [o|] eqn:E; [|done].
  apply elem_of_map_to_list in E. specialize (H2 _ E). cbn in H2. lia.
Qed.

#[export] Instance ex_descriptors_laws : DescriptorsLaws ex_kernel.
Proof.
  refine {| fds := ex_fds; info_of := ex_info |}; cbn.
  - apply ex_fds_nonneg.
  - intros fd k. split; [done|]. destruct (ex_fds k !! fd) as [[id|]|]; [by exists id|done..].
  - intros k. destruct (ex_free_new k) as [Hp Hn]. split; [done|]. by apply ex_fds_set.
  - intros old new k. destruct (ex_fds k !! old) as [o|]; [|done]. destruct (ek_dup k); [|done]. cbn [andb].
    destruct (Z.leb_spec 0 new); [|done]. split; [done|]. exists o. split; [done|]. by apply ex_fds_set.
  - intros fd k. destruct (ex_fds k !! fd) eqn:E; [|by split; [rewrite delete_id|]]. split; [|by eexists].
    unfold ex_fds. cbn [ek_table]. apply map_filter_delete.
Defined.

Definition ex_old_map : bpf_map := Map 4 (Some (lit "mine")) 0 0 (-1) (MapDef 2 4 4 1 0) 0 0.
Definition ex_start (dup : bool) : ex_kernel := ExKernel {[4 := KMap 7; 5 := KMap 9]} dup.

Lemma reuse_fd_spec_witness : let m := ex_old_map in let k := ex_start true in
  let '(err, m', k') := bpf_map__reuse_fd true m 5 k in
  (err = 0 /\ exists id, fds k !! 5 = Some (KMap id) /\ m' = taken_over m (m_fd m') (info_of id) /\
     fds k !! m_fd m' = None /\ fds k' = <[m_fd m' := KMap id]> (delete (m_fd m) (fds k))) \/
  (err < 0 /\ m' = m /\ fds k' = fds k) \/
  (err = - EBADF /\ m' = m /\ exists root, fds k !! root = None /\ fds k' = <[root := KRoot]> (fds k)) \/
  (err < 0 /\ 0 <= m_fd m /\ m' = set_map_fd m (-1) /\ fds k' = delete (m_fd m) (fds k)).
Proof. apply (reuse_fd_spec true ex_old_map 5 (ex_start true)). right. eexists. vm_compute. reflexivity. Defined.

Definition ex_reuse (dup : bool) := let '(err, m, k) := bpf_map__reuse_fd true ex_old_map 5 (ex_start dup) in (err, m_fd m, m_name m, map_to_list (ex_fds k)).

Example ex_reused : ex_reuse true = (0, 6, Some (lit "shared"), [(5, KMap 9); (6, KMap 9)]).
Proof. vm_compute. reflexivity. Qed.
(** A descriptor for the root directory is left. *)
Example ex_reuse_leaks : ex_reuse false = (- EBADF, 4, Some (lit "mine"), [(5, KMap 9); (6, KRoot); (4, KMap 7)]).
Proof. vm_compute. reflexivity. Qed.
