(* ===== verification/Relocate.v ===== *)
(** * Relocating a BPF object (src/libbpf/src/libbpf.c, [bpf_object__relocate])

    Every program gets the descriptors of its maps and, when it calls functions
    of [.text], a copy of that section behind its own instructions. *)

From S2P Require Export ElfObject.



Definition set_src_imm (ins : bpf_insn) (src imm : Z) : bpf_insn :=
  Insn (i_code ins) (i_dst ins) src (i_off ins) imm.

Definition set_p_insns (p : bpf_program) insns main_cnt := Program (p_idx p) (p_name p) (p_ifindex p) (p_section_name p) (p_pin_name p) insns main_cnt (p_type p) (p_reloc_desc p) (p_instances p) (p_attach_type p) (p_btf_fd p) (p_func_info p) (p_line_info p).
Definition set_p_btf (p : bpf_program) fd f l := Program (p_idx p) (p_name p) (p_ifindex p) (p_section_name p) (p_pin_name p) (p_insns p) (p_main_prog_cnt p) (p_type p) (p_reloc_desc p) (p_instances p) (p_attach_type p) fd f l.

Section relocate.
(** The byte order, the allocator's answers to this file and to btf.c, and the
    bytes [realloc] adds there. *)
Context (e : endian) (alloc : nat -> bool) (btf_alloc : Z -> bool) (junk : Z).

(** Program [pi], which is in the object. *)
Definition get_prog (pi : nat) : OM bpf_program := let* o := obj in lift (programs o !! pi).
Definition put_prog (pi : nat) (p : bpf_program) : OM unit := upd (fun o => set_programs o (<[pi := p]> (programs o))).

(** An error is ignored when it says that the section has no information and
    none has been found before. *)
Definition check_btf_ext_reloc_err (err : Z) (info : option (list Z)) : OM unit :=
  if negb (err =? - ENOENT) then fail err else
  match info with Some _ => fail err | None => ret tt end.

(** The information of section [section_name], moved by [insn_offset]: [true]
    when the caller goes on. *)
Definition reloc_info (reloc : str -> Z -> list Z -> Z -> outcome (list Z * Z)) (rec_size : Z)
    (section_name : str) (insn_offset : Z) (i : prog_info) : OM (option prog_info) :=
  if negb (insn_offset =? 0) && bool_decide (pi_info i = None) then ret (Some i) else
  let* r := pure (r ← reloc section_name insn_offset (default [] (pi_info i)) (pi_cnt i); Some (Ok r)) in
  match r with
  | Ok (bytes, cnt) => ret (Some (ProgInfo (Some bytes) rec_size cnt))
  | Err err => let* _ := check_btf_ext_reloc_err err (pi_info i) in ret None
  end.

Definition bpf_program_reloc_btf_ext (pi : nat) (section_name : str) (insn_offset : Z) : OM unit :=
  let* o := obj in
  let* b := lift (o_btf o) in
  let* x := lift (o_btf_ext o) in
  let* p := get_prog pi in
  let* f := reloc_info (btf_ext__reloc_func_info e btf_alloc junk b x) (btf_ext__func_info_rec_size x) section_name insn_offset (p_func_info p) in
  match f with
  | None => ret tt
  | Some f =>
      let* _ := put_prog pi (set_p_btf p (p_btf_fd p) f (p_line_info p)) in
      let* l := reloc_info (btf_ext__reloc_line_info e btf_alloc junk b x) (btf_ext__line_info_rec_size x) section_name insn_offset (p_line_info p) in
      match l with
      | None => ret tt
      | Some l => put_prog pi (set_p_btf p (if insn_offset =? 0 then fd b else p_btf_fd p) f l)
      end
  end.

(** Copying [.text], once. *)
Definition append_text (pi : nat) : OM unit :=
  let* o := obj in
  let* p := get_prog pi in
  if negb (p_main_prog_cnt p =? 0) then ret tt else
  match find_prog o (text_shndx (o_efile o)) with
  | None => fail (- LIBBPF_ERRNO__RELOC)
  | Some ti =>
      let* text := get_prog ti in
      let* insns := lift (p_insns p) in
      let* _ := malloc alloc in
      let* _ := (match o_btf_ext o with
        | Some _ => bpf_program_reloc_btf_ext pi (p_section_name text) (u32 (zlen insns))
        | None => ret tt end) in
      let* p := get_prog pi in
      let* tinsns := lift (p_insns text) in
      put_prog pi (set_p_insns p (Some (insns ++ tinsns)) (zlen insns))
  end.

Definition bpf_program__reloc_text (pi : nat) (insn_idx : Z) : OM unit :=
  let* o := obj in
  let* p := get_prog pi in
  if p_idx p =? text_shndx (o_efile o) then fail (- LIBBPF_ERRNO__RELOC) else
  let* _ := append_text pi in
  let* p := get_prog pi in
  let* insns := lift (p_insns p) in
  let* ins := lift (znth insns insn_idx) in
  let* insns := lift (zset insns insn_idx
    (set_src_imm ins (i_src ins) (s32 (i_imm ins + (p_main_prog_cnt p - insn_idx))))) in
  put_prog pi (set_p_insns p (Some insns) (p_main_prog_cnt p)).

Definition reloc_ld64 (pi : nat) (insn_idx map_idx : Z) : OM unit :=
  let* o := obj in
  let* p := get_prog pi in
  let* insns := lift (p_insns p) in
  if zlen insns <=? insn_idx then fail (- LIBBPF_ERRNO__RELOC) else
  let* m := lift (znth (maps o) map_idx) in
  let* ins := lift (znth insns insn_idx) in
  let* insns := lift (zset insns insn_idx (set_src_imm ins BPF_PSEUDO_MAP_FD (m_fd m))) in
  put_prog pi (set_p_insns p (Some insns) (p_main_prog_cnt p)).

Definition apply_reloc (pi : nat) (r : reloc_desc) : OM unit :=
  match r with
  | RELO_LD64 insn_idx map_idx => reloc_ld64 pi insn_idx map_idx
  | RELO_CALL insn_idx _ => bpf_program__reloc_text pi insn_idx
  end.

Definition bpf_program__relocate (pi : nat) : OM unit :=
  let* o := obj in
  let* p := get_prog pi in
  let* _ := (match o_btf_ext o with
    | Some _ => bpf_program_reloc_btf_ext pi (p_section_name p) 0
    | None => ret tt end) in
  match p_reloc_desc p with
  | None => ret tt
  | Some rs =>
      let* _ := each (apply_reloc pi) rs in
      let* p := get_prog pi in
      put_prog pi (set_p_reloc_desc p None)
  end.

Definition bpf_object__relocate : OM unit :=
  let* o := obj in each bpf_program__relocate (seq 0 (length (programs o))).
End relocate.

(** ** What relocation makes of a program *)

Definition patch (fds : list Z) (main_cnt : Z) (r : reloc_desc) (ins : bpf_insn) : bpf_insn :=
  match r with
  | RELO_LD64 _ j => set_src_imm ins BPF_PSEUDO_MAP_FD (default 0 (znth fds j))
  | RELO_CALL i _ => set_src_imm ins (i_src ins) (s32 (i_imm ins + (main_cnt - i)))
  end.

(** Instruction [i] of a program of [main_cnt] with relocations [rs]. *)
Definition link_insn (fds : list Z) (main_cnt : Z) (rs : list reloc_desc) (i : nat) (ins : bpf_insn) : bpf_insn :=
  match list_find (fun r => relo_insn r = Z.of_nat i) rs with
  | Some (_, r) => patch fds main_cnt r ins
  | None => ins
  end.

Definition link_insns (fds : list Z) (rs : list reloc_desc) (insns : list bpf_insn) : list bpf_insn :=
  imap (link_insn fds (zlen insns) rs) insns.

Definition relocs (p : bpf_program) : list reloc_desc := default [] (p_reloc_desc p).
Definition calls (rs : list reloc_desc) : bool := existsb is_relo_call rs.

(** The linked code of [p], with [text] behind it when it is called. *)
Definition linked (fds : list Z) (text : list bpf_insn) (p : bpf_program) : list bpf_insn :=
  link_insns fds (relocs p) (default [] (p_insns p)) ++ (if calls (relocs p) then text else []).

(** ** Sound BTF information *)

(** As many whole records as are counted. *)
Definition records (rec bound : Z) (i : prog_info) : Prop :=
  0 <= pi_rec_size i /\
  (pi_info i = None /\ pi_cnt i = 0 \/
   exists bs, pi_info i = Some bs /\ pi_rec_size i = rec /\ 0 <= pi_cnt i /\ zlen bs = pi_cnt i * rec /\ zlen bs <= bound).

(** The information of [n] sections, the program's own and [.text]. *)
Definition infos (x : btf_ext) (n : Z) (p : bpf_program) : Prop :=
  records (rec_size (func_info x)) (n * len (func_info x)) (p_func_info p) /\
  records (rec_size (line_info x)) (n * len (line_info x)) (p_line_info p).

Definition ext_sound (e : endian) (strs : list Z) (x : btf_ext) : Prop :=
  bytes_ok (ext_data x) /\ info_sound e strs (ext_data x) sizeof_func_info_min (func_info x) /\
  info_sound e strs (ext_data x) sizeof_line_info_min (line_info x).

(** The types and strings are those of a section, and every program section of
    the information has a name among them. *)
Definition btf_sound (e : endian) (o : bpf_object) : Prop :=
  match o_btf o with
  | None => o_btf_ext o = None
  | Some b => exists ds strs, represents e b ds strs /\ Forall desc_ok ds /\ strs_ok strs /\
      forall x, o_btf_ext o = Some x -> ext_sound e strs x
  end.

(** ** Proofs *)

Lemma list_find_snoc {A} (P : A -> Prop) `{forall a, Decision (P a)} l a :
  list_find P (l ++ [a]) = match list_find P l with
    | Some x => Some x | None => if decide (P a) then Some (length l, a) else None end.
Proof.
  induction l as [|b l IH]; cbn; [by destruct (decide (P a))|]. destruct (decide (P b)); [done|].
  rewrite IH. destruct (list_find P l) as [[i x]|]; [done|]. by destruct (decide (P a)).
Qed.

Lemma link_nil fds insns : link_insns fds [] insns = insns.
Proof.
  unfold link_insns, link_insn. cbn. apply list_eq. intros i. rewrite list_lookup_imap. by destruct (insns !! i).
Qed.

(** Adding a relocation of an instruction that has none patches it. *)
Lemma link_snoc fds rs r insns i ins :
  relo_insn r = Z.of_nat i -> ~ relo_insn r ∈ relo_insn <$> rs -> insns !! i = Some ins ->
  link_insns fds rs insns !! i = Some ins /\
  link_insns fds (rs ++ [r]) insns = <[i := patch fds (zlen insns) r ins]> (link_insns fds rs insns).
Proof.
  intros Hi Hn Hins.
  assert (list_find (fun r => relo_insn r = Z.of_nat i) rs = None) as Hnone.
  { apply list_find_None, List.Forall_forall. intros r' Hr'%list_elem_of_In E. apply Hn.
    apply list_elem_of_fmap. exists r'. split; [congruence|done]. }
  unfold link_insns. split.
  - rewrite list_lookup_imap, Hins. cbn. unfold link_insn. by rewrite Hnone.
  - apply list_eq. intros j. rewrite list_lookup_imap. destruct (decide (i = j)) as [<-|Hne].
    + rewrite list_lookup_insert_eq by (rewrite length_imap; by eapply lookup_lt_Some). rewrite Hins. cbn.
      unfold link_insn. rewrite list_find_snoc, Hnone, decide_True by done. done.
    + rewrite list_lookup_insert_ne by done. rewrite list_lookup_imap. destruct (insns !! j); [|done]. cbn.
      unfold link_insn. rewrite list_find_snoc. match goal with |- context [list_find ?P rs] => destruct (list_find P rs) as [[? ?]|] end; [done|].
      rewrite decide_False by (rewrite Hi; lia). done.
Qed.

Lemma calls_in rs idx off : RELO_CALL idx off ∈ rs -> calls rs = true.
Proof. intros Hin%list_elem_of_In. apply existsb_exists. by exists (RELO_CALL idx off). Qed.

Lemma zlen_link fds rs insns : zlen (link_insns fds rs insns) = zlen insns.
Proof. unfold zlen, link_insns. by rewrite length_imap. Qed.

Lemma calls_snoc rs r : calls (rs ++ [r]) = calls rs || is_relo_call r.
Proof. unfold calls. rewrite existsb_app. cbn. by rewrite orb_false_r. Qed.

(** What relocation leaves of a program. *)
Record same_program (p q : bpf_program) : Prop := {
  sp_idx : p_idx p = p_idx q;
  sp_name : p_name p = p_name q;
  sp_ifindex : p_ifindex p = p_ifindex q;
  sp_section : p_section_name p = p_section_name q;
  sp_type : p_type p = p_type q;
  sp_instances : p_instances p = p_instances q;
  sp_attach : p_attach_type p = p_attach_type q
}.

#[export] Instance same_program_refl : Reflexive same_program.
Proof. by split. Qed.
#[export] Instance same_program_trans : Transitive same_program.
Proof. intros p q r [] []. split; congruence. Qed.

(** The same code, with other BTF information. *)
Record same_code (p q : bpf_program) : Prop := {
  sc_same : same_program p q;
  sc_insns : p_insns p = p_insns q;
  sc_main : p_main_prog_cnt p = p_main_prog_cnt q;
  sc_relocs : p_reloc_desc p = p_reloc_desc q
}.

Lemma find_prog_idx o ps idx :
  List.map p_idx ps = List.map p_idx (programs o) -> find_prog (set_programs o ps) idx = find_prog o idx.
Proof.
  unfold find_prog. cbn [set_programs programs]. generalize (programs o). intros l. revert l.
  induction ps as [|p ps IH]; intros [|q l] E; try done. injection E as Ei El. cbn.
  destruct (decide (p_idx p = idx)), (decide (p_idx q = idx)); try done; try congruence.
  specialize (IH l El). destruct (list_find _ ps) as [[i x]|], (list_find _ l) as [[j y]|]; cbn in *; congruence.
Qed.

Lemma map_idx_insert ps pi p p0 :
  ps !! pi = Some p0 -> p_idx p = p_idx p0 -> List.map p_idx (<[pi := p]> ps) = List.map p_idx ps.
Proof.
  intros Hp E. change (p_idx <$> <[pi := p]> ps = p_idx <$> ps). rewrite list_fmap_insert. apply list_insert_id.
  by rewrite list_lookup_fmap, Hp, E.
Qed.

Lemma zlen_pos {A} (l : list A) : l <> [] -> 0 < zlen l.
Proof. intros Hl. destruct l; [done|]. unfold zlen. cbn. lia. Qed.

Section program.
Context (e : endian) (alloc : nat -> bool) (btf_alloc : Z -> bool) (junk : Z).
Context (o : bpf_object) (pi : nat) (p0 : bpf_program) (Hp0 : programs o !! pi = Some p0).
Local Abbreviation OS := (bpf_object * nat)%type.
Local Abbreviation text_idx := (text_shndx (o_efile o)).

(** Without BTF information every read is inside its object, and only these
    errors are possible. *)
Definition with_btf : Prop := o_btf_ext o <> None.
Definition reloc_error (err : Z) (s : OS) : Prop :=
  with_btf \/ (err = - ENOMEM /\ exists k, alloc k = false) \/
  (err = - LIBBPF_ERRNO__RELOC /\ calls (relocs p0) = true /\ (p_idx p0 = text_idx \/ find_prog o text_idx = None)).
(** With it reads may leave their objects ([U]), unless it is sound. *)
Context (U : Prop) (HU : with_btf -> U \/ btf_sound e o).
Local Abbreviation rrun := (runs U reloc_error).

Definition fine (n : Z) (p : bpf_program) : Prop := U \/ forall x, o_btf_ext o = Some x -> infos x n p.

Lemma records_more rec n l i : 0 <= l -> records rec (n * l) i -> records rec ((n + 1) * l) i.
Proof using. intros Hl [H0 [H1|(bs & H1 & H2 & H3 & H4 & H5)]]; (split; [done|]); [by left|right]. exists bs. split_and!; try done. lia. Qed.

(** The object with program [pi] replaced by [p]. *)
Definition at_prog (p : bpf_program) (s : OS) : Prop :=
  same_program p p0 /\ exists n, s = (set_programs o (<[pi := p]> (programs o)), n).

Lemma at_prog_start n : at_prog p0 (o, n).
Proof using Hp0. split; [done|]. exists n. by rewrite list_insert_id, set_programs_same. Qed.

Lemma obj_run (P : bpf_object -> OS -> Prop) s : P s.1 s -> rrun P obj s.
Proof. done. Qed.

Lemma get_prog_at (P : bpf_program -> OS -> Prop) p s : at_prog p s -> P p s -> rrun P (get_prog pi) s.
Proof using Hp0.
  intros [_ [n ->]] HP. apply run_bind, obj_run. cbn [fst set_programs programs]. apply (run_lift _ _ _ _ p); [|done].
  apply list_lookup_insert_eq. by eapply lookup_lt_Some.
Qed.

Lemma get_prog_other (P : bpf_program -> OS -> Prop) ti t p s :
  at_prog p s -> ti <> pi -> programs o !! ti = Some t -> P t s -> rrun P (get_prog ti) s.
Proof using Hp0.
  intros [_ [n ->]] Hne Ht HP. apply run_bind, obj_run. cbn [fst set_programs programs]. apply (run_lift _ _ _ _ t); [|done].
  by rewrite list_lookup_insert_ne.
Qed.

Lemma put_prog_at (P : unit -> OS -> Prop) q p s :
  at_prog q s -> same_program p p0 -> (forall s', at_prog p s' -> P tt s') -> rrun P (put_prog pi p) s.
Proof using Hp0.
  intros [_ [n ->]] Hs HP. apply HP. split; [done|]. exists n. cbn. by rewrite list_insert_insert_eq.
Qed.

Lemma malloc_run (P : unit -> OS -> Prop) s : P tt (s.1, S s.2) -> rrun P (malloc alloc) s.
Proof. intros HP. unfold runs, malloc. destruct (alloc s.2) eqn:E; [done|]. right. left. split; [done|]. by exists s.2. Qed.

Lemma fine_none n p : o_btf_ext o = None -> fine n p.
Proof using. intros E. right. intros x. by rewrite E. Qed.

Lemma fine_more n p : fine n p -> fine (n + 1) p.
Proof using HU.
  intros [?|Hf]; [by left|]. destruct (o_btf_ext o) as [x|] eqn:Ex; [|by apply fine_none].
  destruct HU as [|Hs]; [unfold with_btf; by rewrite Ex|by left|right]. rewrite Ex. intros ? [= <-]. destruct (Hf x eq_refl) as [Hf1 Hf2].
  unfold btf_sound in Hs. destruct (o_btf o) as [b|]; [|congruence]. destruct Hs as (ds & strs & _ & _ & _ & Hx).
  destruct (Hx x Ex) as (_ & (? & (_ & _ & _ & _ & H1 & _) & _) & (? & (_ & _ & _ & _ & H2 & _) & _)). unfold in_range in *.
  split; apply records_more; done || lia.
Qed.

Lemma records_bytes rec bound i : records rec bound i ->
  zlen (default [] (pi_info i)) = pi_cnt i * rec /\ 0 <= pi_cnt i /\ zlen (default [] (pi_info i)) <= Z.max 0 bound.
Proof using. intros [_ [[E1 E2]|(bs & E & _ & H1 & H2 & H3)]]; [rewrite E1, E2|rewrite E]; cbn; unfold zlen in *; cbn; lia. Qed.

Lemma reloc_info_run (P : option prog_info -> OS -> Prop) f x rs sn off n i s :
  with_btf ->
  (U \/ records (rec_size x) (n * len x) i /\ 0 <= len x /\ rs = rec_size x /\ 0 <= rs /\
    forall bs cnt, zlen bs = cnt * rec_size x -> 0 <= cnt -> zlen bs <= Z.max 0 (n * len x) -> exists r, f sn off bs cnt = Some r /\
      forall bs' cnt', r = Ok (bs', cnt') -> 0 <= cnt' /\ zlen bs' = cnt' * rec_size x /\ zlen bs' <= zlen bs + len x) -> 0 <= n ->
  (forall r, U \/ (forall i, r = Some i -> records (rec_size x) ((n + 1) * len x) i) -> P r s) -> rrun P (reloc_info f rs sn off i) s.
Proof using.
  intros Hb Hf Hn HP. unfold reloc_info. destruct (_ && _).
  { apply run_ret, HP. destruct Hf as [|(Hi & Hl & _)]; [by left|right]. intros ? [= <-]. by apply records_more. }
  apply run_bind, run_pure.
  - intros E. destruct Hf as [|(Hi & Hl & _ & _ & Hf)]; [done|exfalso]. apply records_bytes in Hi as (H1 & H2 & H3).
    destruct (Hf _ _ H1 H2 H3) as (r & Er & _). by rewrite Er in E.
  - by left.
  - intros [[bs cnt]|err] E.
    + apply run_ret, HP. destruct Hf as [|(Hi & Hl & -> & Hrs & Hf)]; [by left|right]. intros ? [= <-]. apply records_bytes in Hi as (H1 & H2 & H3).
      destruct (Hf _ _ H1 H2 H3) as (r & Er & Hr). rewrite Er in E. injection E as ->.
      destruct (Hr bs cnt eq_refl) as (H4 & H5 & H6). split; [done|right]. exists bs. split_and!; try done. nia.
    + apply run_bind. unfold check_btf_ext_reloc_err.
      destruct (negb _); [apply run_fail; by left|]. destruct (pi_info i); [apply run_fail; by left|]. apply run_ret, run_ret, HP. by right.
Qed.

(** Relocating the BTF information changes nothing else. *)
Lemma btf_ext_run (P : unit -> OS -> Prop) sn off n p s :
  with_btf -> at_prog p s -> fine n p -> 0 <= n < 2 -> (forall q s', same_code q p -> fine (n + 1) q -> at_prog q s' -> P tt s') ->
  rrun P (bpf_program_reloc_btf_ext e btf_alloc junk pi sn off) s.
Proof using Hp0 HU.
  intros Hb Hp Hfine Hn HP. unfold bpf_program_reloc_btf_ext. apply run_bind, obj_run.
  assert (o_btf s.1 = o_btf o /\ o_btf_ext s.1 = o_btf_ext o) as [-> ->] by by destruct Hp as [_ [n' ->]].
  apply run_bind, run_read.
  { intros Eb. destruct (HU Hb) as [|Hs]; [done|]. unfold btf_sound in Hs. by rewrite Eb in Hs. }
  intros b Eb. apply run_bind, run_read; [done|]. intros x Ex. apply run_bind. eapply get_prog_at; [exact Hp|].
  assert (U \/ infos x n p /\ exists ds strs, represents e b ds strs /\ ext_sound e strs x) as Hsound.
  { destruct (HU Hb) as [|Hs]; [by left|]. destruct Hfine as [|Hi]; [by left|right]. split; [by apply Hi|].
    unfold btf_sound in Hs. rewrite Eb in Hs. destruct Hs as (ds & strs & R & _ & _ & Hx). exists ds, strs. split; [done|by apply Hx]. }
  apply run_bind, (reloc_info_run _ _ (func_info x) _ _ _ n); [done| |lia|].
  { destruct Hsound as [|([Hi _] & ds & strs & R & Hm & Hf & _)]; [by left|right]. pose proof Hf as (secs & (H1 & _ & _ & _ & H4 & _) & _ & H6).
    unfold in_range, sizeof_func_info_min in *. split; [done|]. split; [lia|]. split; [done|]. split; [unfold btf_ext__func_info_rec_size; lia|].
    intros bs cnt Hz Hc Hle. assert (n * len (func_info x) <= len (func_info x)) by nia.
    eapply (reloc_info_defined e btf_alloc junk ds strs b (ext_data x)); [done|done| |exact Hf|done|done|]; unfold sizeof_func_info_min; lia. }
  intros [f|] Hf; [|apply run_ret, (HP p); [by split|by apply fine_more|done]].
  apply run_bind. eapply put_prog_at; [exact Hp|by destruct Hp as [[] _]; split|]. intros s1 H1.
  apply run_bind, (reloc_info_run _ _ (line_info x) _ _ _ n); [done| |lia|].
  { destruct Hsound as [|([_ Hi] & ds & strs & R & Hm & _ & Hl)]; [by left|right]. pose proof Hl as (secs & (H2 & _ & _ & _ & H4 & _) & _ & H6).
    unfold in_range, sizeof_line_info_min in *. split; [done|]. split; [lia|]. split; [done|]. split; [unfold btf_ext__line_info_rec_size; lia|].
    intros bs cnt Hz Hc Hle. assert (n * len (line_info x) <= len (line_info x)) by nia.
    eapply (reloc_info_defined e btf_alloc junk ds strs b (ext_data x)); [done|done| |exact Hl|done|done|]; unfold sizeof_line_info_min; lia. }
  assert (forall l, U \/ records (rec_size (line_info x)) ((n + 1) * len (line_info x)) l ->
    forall fd, fine (n + 1) (set_p_btf p fd f l)) as Hset.
  { intros l [?|Hl] fd; [by left|]. destruct Hf as [|Hf]; [by left|right]. intros x' Ex'. assert (x' = x) as -> by congruence.
    split; [by apply Hf|exact Hl]. }
  intros [l|] Hl; [|apply run_ret; eapply HP; [| |exact H1]; [by split|apply Hset]].
  - eapply put_prog_at; [exact H1|by destruct Hp as [[] _]; split|]. intros s2 H2. eapply HP; [| |exact H2]; [by split|].
    apply Hset. destruct Hl as [|Hl]; [by left|right]. by apply Hl.
  - destruct Hsound as [|([_ Hi] & ds & strs & _ & _ & _ & Hls)]; [by left|right]. destruct Hls as (? & (_ & _ & _ & _ & H5 & _) & _).
    unfold in_range in *. apply records_more; [lia|done].
Qed.

(** *** The relocations of one program *)

Context (insns0 : list bpf_insn) (Hi0 : p_insns p0 = Some insns0) (Hne : insns0 <> []) (Hm0 : p_main_prog_cnt p0 = 0).
Context (Hall : Forall (fun p => is_Some (p_insns p)) (programs o)).

Local Abbreviation fds := (List.map m_fd (maps o)).

(** The code of [.text]. *)
Definition text_code : list bpf_insn :=
  default [] (ti ← find_prog o text_idx; t ← programs o !! ti; p_insns t).

(** The program after the relocations [done]. *)
Definition patched (done : list reloc_desc) (p : bpf_program) : Prop :=
  p_insns p = Some (link_insns fds done insns0 ++ (if calls done then text_code else [])) /\
  p_main_prog_cnt p = (if calls done then zlen insns0 else 0) /\ p_reloc_desc p = p_reloc_desc p0 /\
  fine (if calls done then 2 else 1) p.

(** The program with [.text] behind it. *)
Definition patched_text (done : list reloc_desc) (p : bpf_program) : Prop :=
  p_insns p = Some (link_insns fds done insns0 ++ text_code) /\
  p_main_prog_cnt p = zlen insns0 /\ p_reloc_desc p = p_reloc_desc p0 /\ fine 2 p.

Lemma find_prog_at p s : at_prog p s -> find_prog s.1 text_idx = find_prog o text_idx.
Proof using Hp0.
  intros [Hs [n ->]]. cbn [fst]. apply find_prog_idx. eapply map_idx_insert; [done|]. apply Hs.
Qed.

Lemma append_text_run (P : unit -> OS -> Prop) done p s :
  p_idx p0 <> text_idx -> calls (relocs p0) = true -> at_prog p s -> patched done p ->
  (forall q s', at_prog q s' -> patched_text done q -> P tt s') ->
  rrun P (append_text e alloc btf_alloc junk pi) s.
Proof using Hp0 Hne Hall HU.
  intros Hidx Hcalls Hat (Hins & Hmain & Hrel & Hfine) HP. pose proof (find_prog_at _ _ Hat) as Hfind. pose proof (zlen_pos _ Hne) as Hpos.
  unfold append_text. apply run_bind, obj_run, run_bind. eapply get_prog_at; [exact Hat|]. rewrite Hmain.
  destruct (calls done) eqn:Ec.
  { destruct (Z.eqb_spec (zlen insns0) 0); [lia|]. apply run_ret. eapply HP; [exact Hat|].
    by split; [rewrite Hins|]. }
  cbn [Z.eqb negb]. assert (o_efile s.1 = o_efile o /\ o_btf_ext s.1 = o_btf_ext o) as [-> ->] by by destruct Hat as [_ [n ->]].
  rewrite Hfind. destruct (find_prog o text_idx) as [ti|] eqn:Eti; [|apply run_fail; right; right; split; [done|split; [done|by right]]].
  assert (is_Some (programs o !! ti)) as [t Ht].
  { unfold find_prog in Eti. destruct (list_find _ _) as [[i t]|] eqn:El; [|done]. injection Eti as <-.
    apply list_find_Some in El as (Hl & _). by eexists. }
  pose proof (find_prog_spec _ _ _ _ Eti Ht) as Htidx.
  assert (ti <> pi) as Hti by (intros ->; congruence).
  destruct (proj1 (Forall_lookup _ _) Hall ti t Ht) as [tinsns Htins].
  assert (text_code = tinsns) as Etext. { unfold text_code. rewrite Eti. cbn. rewrite Ht. cbn. by rewrite Htins. }
  apply run_bind. eapply get_prog_other; [exact Hat|done|done|].
  rewrite app_nil_r in Hins. apply run_bind. apply (run_lift _ _ _ _ (link_insns fds done insns0)); [done|].
  apply run_bind, malloc_run.
  assert (at_prog p (s.1, S s.2)) as Hat1. { destruct Hat as [? [n ->]]. split; [done|]. by eexists. }
  assert (forall q s', same_code q p -> fine (1 + 1) q -> at_prog q s' -> rrun P
    (let* p := get_prog pi in let* tinsns := lift (p_insns t) in
     put_prog pi (set_p_insns p (Some (link_insns fds done insns0 ++ tinsns)) (zlen (link_insns fds done insns0)))) s') as Hrest.
  { intros q s' [Q1 Q2 Q3 Q4] Hfq Hq. apply run_bind. eapply get_prog_at; [exact Hq|]. apply run_bind.
    apply (run_lift _ _ _ _ tinsns); [done|]. eapply put_prog_at; [exact Hq|by destruct Hq as [[] _]; split|].
    intros s2 H2. eapply HP; [exact H2|]. unfold patched_text. rewrite Etext. split; [done|]. split; [apply zlen_link|]. split; [cbn; congruence|exact Hfq]. }
  apply run_bind. destruct (o_btf_ext o) eqn:Eb.
  - eapply btf_ext_run; [unfold with_btf; by rewrite Eb|exact Hat1|exact Hfine|lia|exact Hrest].
  - apply run_ret, (Hrest p); [by split|by apply fine_none|exact Hat1].
Qed.

Lemma znth_nat {A} (l : list A) i x : 0 <= i -> znth l i = Some x -> l !! Z.to_nat i = Some x.
Proof. unfold znth. intros Hi. by rewrite decide_True. Qed.

Lemma zset_link (l tail : list bpf_insn) i ins ins' :
  l !! i = Some ins -> zset (l ++ tail) (Z.of_nat i) ins' = Some (<[i := ins']> l ++ tail).
Proof.
  intros Hi%lookup_lt_Some. unfold zset. rewrite decide_True by (unfold zlen; rewrite length_app; lia).
  by rewrite Nat2Z.id, insert_app_l.
Qed.

(** Writing the patched instruction. *)
Lemma patch_run (P : unit -> OS -> Prop) done r ins i tail m p s :
  relo_insn r = Z.of_nat i -> ~ relo_insn r ∈ relo_insn <$> done -> insns0 !! i = Some ins ->
  at_prog p s -> p_insns p = Some (link_insns fds done insns0 ++ tail) ->
  (forall s', at_prog (set_p_insns p (Some (link_insns fds (done ++ [r]) insns0 ++ tail)) m) s' -> P tt s') ->
  rrun P (let* ins := lift (znth (link_insns fds done insns0 ++ tail) (relo_insn r)) in
    let* insns := lift (zset (link_insns fds done insns0 ++ tail) (relo_insn r) (patch fds (zlen insns0) r ins)) in
    put_prog pi (set_p_insns p (Some insns) m)) s.
Proof using Hp0.
  intros Hi Hn Hins Hat Hp HP. destruct (link_snoc fds done r insns0 i ins Hi Hn Hins) as [L1 L2].
  pose proof (lookup_lt_Some _ _ _ L1). apply run_bind. apply (run_lift _ _ _ _ ins).
  { rewrite Hi, znth_app_l by (unfold zlen; lia). unfold znth. rewrite decide_True by lia. by rewrite Nat2Z.id. }
  apply run_bind. apply (run_lift _ _ _ _ (link_insns fds (done ++ [r]) insns0 ++ tail)).
  { rewrite Hi, L2. by eapply zset_link. }
  eapply put_prog_at; [exact Hat|by destruct Hat as [[] _]; split|exact HP].
Qed.

Lemma apply_reloc_run (P : unit -> OS -> Prop) done r p s :
  relo_ok insns0 (maps o) r -> r ∈ relocs p0 -> ~ relo_insn r ∈ relo_insn <$> done -> at_prog p s -> patched done p ->
  (forall q s', at_prog q s' -> patched (done ++ [r]) q -> P tt s') ->
  rrun P (apply_reloc e alloc btf_alloc junk pi r) s.
Proof using Hp0 Hne Hall HU.
  intros Hr Hrin Hn Hat Hp HP.
  assert (exists i ins, relo_insn r = Z.of_nat i /\ insns0 !! i = Some ins) as (i & ins & Hi & Hins).
  { assert (exists ins, znth insns0 (relo_insn r) = Some ins) as [ins Hz].
    { destruct r; [destruct Hr as [(ins & ? & _) _]|destruct Hr as (ins & ? & _)]; by exists ins. }
    pose proof (znth_Some_range _ _ _ Hz). exists (Z.to_nat (relo_insn r)), ins. split; [lia|]. apply znth_nat; [lia|done]. }
  destruct r as [idx j|idx off]; cbn [apply_reloc relo_insn] in *.
  - destruct Hp as (P1 & P2 & P3 & P4). unfold reloc_ld64. apply run_bind, obj_run, run_bind. eapply get_prog_at; [exact Hat|].
    apply run_bind. apply (run_lift _ _ _ _ _ _ P1). pose proof (lookup_lt_Some _ _ _ Hins).
    destruct (Z.leb_spec (zlen (link_insns fds done insns0 ++ (if calls done then text_code else []))) idx) as [Hle|_].
    { rewrite zlen_app, zlen_link in Hle. pose proof (zlen_nonneg (if calls done then text_code else [])). unfold zlen in Hle at 1. lia. }
    destruct Hr as [_ Hj]. apply znth_is_Some in Hj as [m Hm].
    assert (maps s.1 = maps o) as -> by by destruct Hat as [_ [n ->]]. apply run_bind, (run_lift _ _ _ _ m); [done|].
    assert (m_fd m = default 0 (znth fds j)) as ->.
    { unfold znth in Hm |- *. case_decide; [|done]. change (List.map m_fd (maps o)) with (m_fd <$> maps o).
      by rewrite list_lookup_fmap, Hm. }
    apply (patch_run P done (RELO_LD64 idx j) ins i _ _ p); [done..|].
    intros s' Hs'. eapply HP; [exact Hs'|]. split; [|split; [|split]].
    + cbn [set_p_insns p_insns]. rewrite calls_snoc. by rewrite orb_false_r.
    + cbn. rewrite calls_snoc. by rewrite orb_false_r.
    + exact P3.
    + rewrite calls_snoc, orb_false_r. exact P4.
  - unfold bpf_program__reloc_text. apply run_bind, obj_run, run_bind. eapply get_prog_at; [exact Hat|].
    assert (p_idx p = p_idx p0 /\ o_efile s.1 = o_efile o) as [-> ->] by by destruct Hat as [[] [n ->]].
    destruct (Z.eqb_spec (p_idx p0) text_idx); [apply run_fail; right; right; split; [done|split; [|by left]]|].
    1: by eapply calls_in.
    apply run_bind. eapply append_text_run; [done|by eapply calls_in|exact Hat|exact Hp|]. intros q s1 Hq (Q1 & Q2 & Q3 & Q4).
    apply run_bind. eapply get_prog_at; [exact Hq|]. apply run_bind, (run_lift _ _ _ _ _ _ Q1). rewrite Q2.
    apply (patch_run P done (RELO_CALL idx off) ins i _ _ q); [done..|].
    intros s' Hs'. eapply HP; [exact Hs'|]. split; [|split; [|split]].
    + cbn [set_p_insns p_insns]. rewrite calls_snoc. by rewrite orb_true_r.
    + cbn. rewrite calls_snoc. by rewrite orb_true_r.
    + exact Q3.
    + rewrite calls_snoc, orb_true_r. exact Q4.
Qed.

Lemma apply_relocs_run (P : unit -> OS -> Prop) rs : forall done p s,
  Forall (relo_ok insns0 (maps o)) rs -> (forall r, r ∈ rs -> r ∈ relocs p0) -> NoDup (relo_insn <$> (done ++ rs)) -> at_prog p s -> patched done p ->
  (forall q s', at_prog q s' -> patched (done ++ rs) q -> P tt s') ->
  rrun P (each (apply_reloc e alloc btf_alloc junk pi) rs) s.
Proof using Hp0 Hne Hall HU.
  induction rs as [|r rs IH]; intros done p s Hok Hin Hnd Hat Hp HP; cbn [each].
  - apply run_ret. eapply HP; [exact Hat|]. by rewrite app_nil_r.
  - inversion_clear Hok as [|? ? Hr Hrs]. apply run_bind. eapply apply_reloc_run; [exact Hr|apply Hin; by left| |exact Hat|exact Hp|].
    + rewrite fmap_app in Hnd. apply list.NoDup_app in Hnd as (_ & Hd & _). intros Hin'. apply (Hd _ Hin'). by left.
    + intros q s' Hq Hpq. apply (IH (done ++ [r]) q); [exact Hrs|intros; apply Hin; by right|rewrite <- app_assoc; exact Hnd|exact Hq|exact Hpq|].
      intros q' s2 Hq' Hpq'. eapply HP; [exact Hq'|]. by rewrite <- app_assoc in Hpq'.
Qed.

(** The whole program. *)
Lemma relocate_run n :
  (forall rs, p_reloc_desc p0 = Some rs -> Forall (relo_ok insns0 (maps o)) rs /\ NoDup (relo_insn <$> rs)) ->
  fine 0 p0 ->
  rrun (fun _ s' => exists p, at_prog p s' /\ p_insns p = Some (linked fds text_code p0) /\ p_reloc_desc p = None /\ fine 2 p)
    (bpf_program__relocate e alloc btf_alloc junk pi) (o, n).
Proof using All.
  intros Hrs Hfine. pose proof (at_prog_start n) as Hat. unfold bpf_program__relocate. apply run_bind, obj_run, run_bind.
  eapply get_prog_at; [exact Hat|]. cbn [fst]. apply run_bind.
  assert (forall q s', same_code q p0 -> fine (0 + 1) q -> at_prog q s' -> rrun
    (fun _ s' => exists p, at_prog p s' /\ p_insns p = Some (linked fds text_code p0) /\ p_reloc_desc p = None /\ fine 2 p)
    (match p_reloc_desc p0 with
     | None => ret tt
     | Some rs => let* _ := each (apply_reloc e alloc btf_alloc junk pi) rs in
         let* p := get_prog pi in put_prog pi (set_p_reloc_desc p None) end) s') as Hrest.
  { intros q s' [Q1 Q2 Q3 Q4] Hfq Hq. unfold linked, relocs. rewrite Hi0. cbn [default]. destruct (p_reloc_desc p0) as [rs|] eqn:Er; cbn [default].
    - destruct (Hrs rs eq_refl) as [Hok Hnd]. apply run_bind. eapply (apply_relocs_run _ rs [] q); [exact Hok|by unfold relocs; rewrite Er|exact Hnd|exact Hq| |].
      { split; [|split; [|split]]; [cbn; by rewrite link_nil, app_nil_r, Q2|cbn; by rewrite Q3|cbn; congruence|exact Hfq]. }
      intros q' s2 Hq' (R1 & R2 & R3 & R4). apply run_bind. eapply get_prog_at; [exact Hq'|].
      eapply put_prog_at; [exact Hq'|by destruct Hq' as [[] _]; split|]. intros s3 H3. eexists. split; [exact H3|]. split; [done|]. split; [done|].
      cbn [app] in R4. destruct (calls rs); [exact R4|exact (fine_more 1 _ R4)].
    - apply run_ret. exists q. split; [done|]. rewrite link_nil. cbn -[fine]. rewrite app_nil_r. split; [congruence|]. split; [congruence|].
      exact (fine_more 1 _ Hfq). }
  destruct (o_btf_ext o) eqn:Eb.
  - eapply btf_ext_run; [unfold with_btf; by rewrite Eb|exact Hat|exact Hfine|lia|exact Hrest].
  - apply run_ret, (Hrest p0); [by split|by apply fine_none|exact Hat].
Qed.
End program.

(** ** All programs *)

Section object.
Context (e : endian) (alloc : nat -> bool) (btf_alloc : Z -> bool) (junk : Z) (o : bpf_object).
Local Abbreviation OS := (bpf_object * nat)%type.
Local Abbreviation fds := (List.map m_fd (maps o)).

(** [.text] as program [pi] finds it: relocated only if it comes before. *)
Definition text_at (pi : nat) : list bpf_insn :=
  match ti ← find_prog o (text_shndx (o_efile o)); t ← programs o !! ti; Some (ti, t) with
  | Some (ti, t) => if (ti <? pi)%nat then linked fds (default [] (p_insns t)) t else default [] (p_insns t)
  | None => []
  end.

(** Ready to be relocated. *)
Definition relocatable : Prop :=
  Forall (program_code o) (programs o) /\
  Forall (fun p => NoDup (relo_insn <$> relocs p)) (programs o).

Definition relocate_error (err : Z) (s : OS) : Prop :=
  with_btf o \/ (err = - ENOMEM /\ exists k, alloc k = false) \/
  (err = - LIBBPF_ERRNO__RELOC /\ exists p, p ∈ programs o /\ calls (relocs p) = true /\
    (p_idx p = text_shndx (o_efile o) \/ find_prog o (text_shndx (o_efile o)) = None)).

(** A program after relocation. *)
Definition program_linked (pi : nat) (p0 p : bpf_program) : Prop :=
  same_program p p0 /\ p_insns p = Some (linked fds (text_at pi) p0) /\ p_reloc_desc p = None.

(** The first [k] programs are done. *)
Definition linked_upto (k : nat) (ps : list bpf_program) : Prop :=
  length ps = length (programs o) /\
  forall j p0, programs o !! j = Some p0 -> exists p, ps !! j = Some p /\
    (if (j <? k)%nat then program_linked j p0 p else p = p0).

Lemma linked_upto_idx k ps : linked_upto k ps -> List.map p_idx ps = List.map p_idx (programs o).
Proof.
  intros [Hl Hps]. change (p_idx <$> ps = p_idx <$> programs o). apply list_eq_same_length with (length ps).
  - by rewrite !length_fmap.
  - by rewrite length_fmap.
  - intros i x y _ Hx Hy. rewrite list_lookup_fmap in Hx, Hy. destruct (programs o !! i) as [p0|] eqn:E0; [|done].
    destruct (Hps i p0 E0) as (p & Hp & Hc). rewrite Hp in Hx. cbn in Hx, Hy.
    destruct (i <? k)%nat; [destruct Hc as [[] _]|subst p]; congruence.
Qed.

Context (Hok : relocatable) (U : Prop) (HU : with_btf o -> U \/ btf_sound e o) (Hfresh : Forall (fine o U 0) (programs o)).

Lemma text_code_upto k ps :
  linked_upto k ps -> text_code (set_programs o ps) = text_at k.
Proof using Hok.
  intros Hps. pose proof (linked_upto_idx _ _ Hps) as Hidx. unfold text_code, text_at.
  change (text_shndx (o_efile (set_programs o ps))) with (text_shndx (o_efile o)). rewrite (find_prog_idx _ _ _ Hidx).
  destruct (find_prog o _) as [ti|] eqn:Eti; [|done]. cbn [mbind option_bind].
  assert (is_Some (programs o !! ti)) as [t Ht].
  { unfold find_prog in Eti. destruct (list_find _ _) as [[i t]|] eqn:El; [|done]. injection Eti as <-.
    apply list_find_Some in El as (Hl & _). by eexists. }
  rewrite Ht. destruct Hps as [_ Hps]. destruct (Hps ti t Ht) as (p & Hp & Hc).
  change (programs (set_programs o ps)) with ps. rewrite Hp. cbn [mbind option_bind].
  destruct (Nat.ltb_spec ti k); [|by subst p]. destruct Hc as (_ & -> & _). cbn [default].
  unfold text_at. rewrite Eti. cbn [mbind option_bind]. rewrite Ht. cbn [mbind option_bind]. by rewrite Nat.ltb_irrefl.
Qed.

Lemma relocate_step k ps n :
  (k < length (programs o))%nat -> linked_upto k ps -> Forall (fine o U 2) (take k ps) ->
  runs U relocate_error (fun _ s => exists ps n, s = (set_programs o ps, n) /\ linked_upto (S k) ps /\ Forall (fine o U 2) (take (S k) ps))
    (bpf_program__relocate e alloc btf_alloc junk k) (set_programs o ps, n).
Proof using Hok HU Hfresh.
  intros Hk Hps Hfine. destruct (lookup_lt_is_Some_2 (programs o) k Hk) as [p0 Hp0]. destruct Hok as [Hpok Hnd].
  pose proof (linked_upto_idx _ _ Hps) as Hidx. pose proof (text_code_upto k ps Hps) as Htext.
  destruct Hps as [Hl Hps]. destruct (Hps k p0 Hp0) as (q & Hq & Eq). rewrite Nat.ltb_irrefl in Eq. subst q.
  destruct (proj1 (Forall_lookup _ _) Hpok k p0 Hp0) as [(insns0 & Hi & Hne & Hrs) _ Hm].
  pose proof (proj1 (Forall_lookup _ _) Hnd k p0 Hp0) as Hnd0. cbn beta in Hnd0.
  assert (Forall (fun p => is_Some (p_insns p)) ps) as Hall.
  { apply Forall_lookup. intros j p Hj. pose proof (lookup_lt_Some _ _ _ Hj) as Hlt. rewrite Hl in Hlt.
    destruct (lookup_lt_is_Some_2 _ _ Hlt) as [pj Hpj]. destruct (Hps j pj Hpj) as (p' & Hp' & Hc).
    assert (p' = p) as -> by congruence. destruct (j <? k)%nat; [destruct Hc as (_ & -> & _); by eexists|subst p].
    destruct (proj1 (Forall_lookup _ _) Hpok j pj Hpj) as [(i & -> & _) _ _]. by eexists. }
  pose proof (relocate_run e alloc btf_alloc junk (set_programs o ps) k p0 Hq U HU insns0 Hi Hne Hm Hall n) as Hrun.
  rewrite Htext in Hrun. change (maps (set_programs o ps)) with (maps o) in Hrun.
  eapply run_weaken; [|eapply run_mono; [apply Hrun|]].
  - intros err s [?|[?|(-> & Hc & Hx)]]; [by left|right; by left|right; right]. split; [done|]. exists p0.
    split; [by eapply list_elem_of_lookup_2|]. split; [done|].
    change (text_shndx (o_efile (set_programs o ps))) with (text_shndx (o_efile o)) in Hx. by rewrite (find_prog_idx _ _ _ Hidx) in Hx.
  - intros rs Ers. split; [by apply Hrs|]. unfold relocs in Hnd0. by rewrite Ers in Hnd0.
  - exact (proj1 (Forall_lookup _ _) Hfresh k p0 Hp0).
  - intros [] s (p & [Hs [n' ->]] & Hpi & Hpr & Hp2). exists (<[k := p]> ps), n'. split; [done|].
    assert (k < length ps)%nat as Hkl by by eapply lookup_lt_Some.
    split; [|rewrite (take_S_r _ _ p) by (by apply list_lookup_insert_eq); rewrite take_insert_ge by lia; apply list.Forall_app; split; [done|]; by constructor].
    split; [by rewrite length_insert|]. intros j pj Hpj. destruct (decide (k = j)) as [<-|Hkj].
    + exists p. split; [apply list_lookup_insert_eq; by eapply lookup_lt_Some|]. assert (pj = p0) as -> by congruence.
      rewrite (proj2 (Nat.ltb_lt k (S k))) by lia. by split.
    + rewrite list_lookup_insert_ne by done. destruct (Hps j pj Hpj) as (p' & Hp' & Hc). exists p'. split; [done|].
      destruct (Nat.ltb_spec j k), (Nat.ltb_spec j (S k)); try lia; done.
Qed.

Lemma relocate_object_run n :
  runs U relocate_error
    (fun _ s => exists ps n, s = (set_programs o ps, n) /\ linked_upto (length (programs o)) ps /\ Forall (fine o U 2) ps)
    (bpf_object__relocate e alloc btf_alloc junk) (o, n).
Proof using Hok HU Hfresh.
  unfold bpf_object__relocate. apply run_bind. change (runs U relocate_error
    (fun o' s => runs U relocate_error (fun _ s => exists ps n, s = (set_programs o ps, n) /\ linked_upto (length (programs o)) ps /\ Forall (fine o U 2) ps)
      (each (bpf_program__relocate e alloc btf_alloc junk) (seq 0 (length (programs o')))) s) obj (o, n)).
  unfold runs at 1, obj. cbn [fst].
  assert (forall m k ps n, (k + m = length (programs o))%nat -> linked_upto k ps -> Forall (fine o U 2) (take k ps) ->
    runs U relocate_error (fun _ s => exists ps n, s = (set_programs o ps, n) /\ linked_upto (length (programs o)) ps /\ Forall (fine o U 2) ps)
      (each (bpf_program__relocate e alloc btf_alloc junk) (seq k m)) (set_programs o ps, n)) as Hloop.
  { induction m as [|m IH]; intros k ps n' Hkm Hps Hfine; cbn [seq each].
    - apply run_ret. exists ps, n'. split; [done|]. replace k with (length (programs o)) in * by lia. split; [done|].
      rewrite take_ge in Hfine; [done|]. by rewrite (proj1 Hps).
    - eapply run_seq; [apply (relocate_step k); [lia|exact Hps|exact Hfine]|]. intros [] s (ps' & n2 & -> & Hps' & Hfine'). apply IH; [lia|done|done]. }
  pose proof (Hloop (length (programs o)) 0%nat (programs o) n eq_refl) as HL. rewrite set_programs_same in HL.
  apply HL; [|by constructor]. split; [done|]. intros j p0 Hj. exists p0. split; [done|]. done.
Qed.
End object.

(** No information yet. *)
Definition no_records (p : bpf_program) : Prop := p_func_info p = ProgInfo None 0 0 /\ p_line_info p = ProgInfo None 0 0.

Lemma no_records_fine o U p : no_records p -> fine o U 0 p.
Proof. intros [E1 E2]. right. intros x _. unfold infos. rewrite E1, E2. split; (split; [done|by left]). Qed.

Lemma any_fine o : Forall (fine o True 0) (programs o).
Proof. apply Forall_true. by left. Qed.

(** Reads leave their objects only with information that is not sound. *)
Lemma relocate_sound_run e alloc btf_alloc junk o n :
  relocatable o -> Forall no_records (programs o) ->
  runs (with_btf o /\ ~ btf_sound e o) (relocate_error alloc o)
    (fun _ s => exists ps n, s = (set_programs o ps, n) /\ linked_upto o (length (programs o)) ps)
    (bpf_object__relocate e alloc btf_alloc junk) (o, n).
Proof.
  intros Hok Hnone. assert (forall U, Forall (fine o U 0) (programs o)) as Hfine by (intros U; eapply List.Forall_impl; [|exact Hnone]; intros p; apply no_records_fine).
  pose proof (relocate_object_run e alloc btf_alloc junk o Hok (with_btf o) (fun H => or_introl H) (Hfine _) n) as H1.
  assert (btf_sound e o -> bpf_object__relocate e alloc btf_alloc junk (o, n) <> None) as H2.
  { intros Hs E. pose proof (relocate_object_run e alloc btf_alloc junk o Hok False (fun _ => or_intror Hs) (Hfine _) n) as H2.
    unfold runs in H2. by rewrite E in H2. }
  unfold runs in *. destruct (bpf_object__relocate _ _ _ _ _) as [[[[]|err] s]|].
  - destruct H1 as (ps & n' & E & Hl & _). by exists ps, n'.
  - exact H1.
  - split; [exact H1|]. intros Hs. by apply H2.
Qed.

(** C24. Relocation links every program: a relocated load names the descriptor of
    its map, a relocated call is moved so that it lands in the copy of [.text]
    that follows the program's own instructions, all else is unchanged.  Without
    BTF information, or with sound one, no read leaves its object; without it
    only memory, a missing [.text], or calls from [.text] itself can make it
    fail. *)
Theorem relocate_links e alloc btf_alloc junk o n :
  relocatable o -> Forall no_records (programs o) ->
  runs (with_btf o /\ ~ btf_sound e o) (relocate_error alloc o)
    (fun _ s => exists ps n, s = (set_programs o ps, n) /\ linked_upto o (length (programs o)) ps)
    (bpf_object__relocate e alloc btf_alloc junk) (o, n).
Proof. by apply relocate_sound_run. Qed.

(** A call in a linked program jumps to where it would have jumped in [.text],
    behind the program. *)
Lemma linked_call fds text p insns i off ins :
  p_insns p = Some insns -> NoDup (relo_insn <$> relocs p) -> RELO_CALL (Z.of_nat i) off ∈ relocs p ->
  insns !! i = Some ins -> -1 <= i_imm ins -> zlen insns + i_imm ins < 2 ^ 31 ->
  exists ins', linked fds text p !! i = Some ins' /\
    Z.of_nat i + 1 + i_imm ins' = zlen insns + (i_imm ins + 1).
Proof.
  intros Hp Hnd Hin Hi Himm Hsum. unfold linked. rewrite Hp. change (default [] (Some insns)) with insns.
  pose proof (lookup_lt_Some _ _ _ Hi) as Hlt. rewrite lookup_app_l by (unfold link_insns; by rewrite length_imap).
  unfold link_insns. rewrite list_lookup_imap, Hi. cbn [fmap option_fmap option_map]. eexists. split; [done|].
  unfold link_insn. destruct (list_find _ _) as [[k r]|] eqn:Ef.
  - apply list_find_Some in Ef as (Hk & Hr & _). apply list_elem_of_lookup in Hin as [k' Hk'].
    assert (k = k') as <-.
    { eapply NoDup_lookup; [exact Hnd| |]; rewrite list_lookup_fmap; [by rewrite Hk|by rewrite Hk'; cbn; rewrite Hr]. }
    assert (r = RELO_CALL (Z.of_nat i) off) as -> by congruence. cbn. unfold s32. rewrite wrap_small; [lia|].
    unfold in_range, zlen in *. lia.
  - apply list_find_None in Ef. rewrite List.Forall_forall in Ef. apply list_elem_of_In in Hin. by destruct (Ef _ Hin).
Qed.

(** A call into [.text] of a relocated program reaches the instruction it
    meant: the one with the call's distance, counted from the start of the
    section, in the copy behind the program. *)
Theorem call_lands e alloc btf_alloc junk o n o' n' pi p0 insns0 i off ins :
  relocatable o -> bpf_object__relocate e alloc btf_alloc junk (o, n) = Some (Ok tt, (o', n')) ->
  programs o !! pi = Some p0 -> p_insns p0 = Some insns0 ->
  RELO_CALL (Z.of_nat i) off ∈ relocs p0 -> insns0 !! i = Some ins ->
  -1 <= i_imm ins -> zlen insns0 + i_imm ins < 2 ^ 31 ->
  exists p insns ins', programs o' !! pi = Some p /\ p_insns p = Some insns /\ insns !! i = Some ins' /\
    znth insns (Z.of_nat i + 1 + i_imm ins') = znth (text_at o pi) (i_imm ins + 1).
Proof.
  intros Hok E Hp0 Hi0 Hin Hi Himm Hsum.
  pose proof (relocate_object_run e alloc btf_alloc junk o Hok True (fun _ => or_introl I) (any_fine o) n) as Hrun.
  unfold runs in Hrun. rewrite E in Hrun. destruct Hrun as (ps & n2 & Es & [_ Hps] & _).
  assert (o' = set_programs o ps) as -> by congruence. destruct (Hps pi p0 Hp0) as (p & Hp & Hc).
  rewrite (proj2 (Nat.ltb_lt _ _)) in Hc by (by eapply lookup_lt_Some). destruct Hc as (_ & Hpi & _).
  pose proof (proj1 (Forall_lookup _ _) (proj2 Hok) pi p0 Hp0) as Hnd. cbn beta in Hnd.
  destruct (linked_call (List.map m_fd (maps o)) (text_at o pi) p0 insns0 i off ins Hi0 Hnd Hin Hi Himm Hsum) as (ins' & Hins' & Htarget).
  exists p, (linked (List.map m_fd (maps o)) (text_at o pi) p0), ins'. split; [exact Hp|]. split; [exact Hpi|]. split; [exact Hins'|].
  rewrite Htarget. unfold linked. rewrite Hi0. change (default [] (Some insns0)) with insns0.
  rewrite (calls_in _ _ _ Hin). rewrite <- (zlen_link (List.map m_fd (maps o)) (relocs p0) insns0). apply znth_app_r. lia.
Qed.

(** ** The object of [ElfObject], its maps created *)

Definition ex_fds : list bpf_map :=
  [Map 5 (Some (lit "m0")) 0 0 (-1) (MapDef 2 4 8 10 0) 0 0; Map 6 (Some (lit "m1")) 20 0 (-1) (MapDef 2 4 8 20 0) 0 0].
Definition ex_created : bpf_object := set_maps ex_object ex_fds.
Definition ex_relocate : option (result unit * (bpf_object * nat)) :=
  bpf_object__relocate LE ex_alloc ex_btf_alloc 0 (ex_created, 0%nat).
Definition ex_linked : bpf_object :=
  match ex_relocate with Some (_, (o, _)) => o | None => ex_created end.

Example ex_linked_code :
  List.map p_insns (programs ex_linked) =
  [Some [Insn 0x18 1 1 0 6; Insn 0 0 0 0 0; Insn 0x85 0 1 0 1; Insn 0x95 0 0 0 0; Insn 0xb7 0 0 0 2; Insn 0x95 0 0 0 0];
   Some [Insn 0xb7 0 0 0 2; Insn 0x95 0 0 0 0]].
Proof. vm_compute. reflexivity. Qed.

Lemma ex_relocatable : relocatable ex_created.
Proof.
  split.
  - repeat constructor; try done.
    + eexists. split; [done|]. split; [done|]. intros rs [= <-]. repeat constructor; cbn; try done.
      * eexists. split; vm_compute; reflexivity.
      * eexists. split; [vm_compute; reflexivity|]. by split.
    + eexists. by split.
  - repeat constructor; cbn; rewrite ?elem_of_cons, ?elem_of_nil; [intros [?|[]]; lia|intros []].
Qed.

Lemma ex_no_records : Forall no_records (programs ex_created).
Proof. repeat constructor. Qed.

Lemma call_lands_witness :
  exists p insns ins', programs ex_linked !! 0%nat = Some p /\ p_insns p = Some insns /\ insns !! 2%nat = Some ins' /\
    znth insns (Z.of_nat 2 + 1 + i_imm ins') = znth (text_at ex_created 0) (-1 + 1).
Proof.
  assert (bpf_object__relocate LE ex_alloc ex_btf_alloc 0 (ex_created, 0%nat) = Some (Ok tt, (ex_linked, 1%nat))) as E
    by (vm_compute; reflexivity).
  set (call := Insn 0x85 0 1 0 (-1)).
  assert (RELO_CALL (Z.of_nat 2) 0 ∈ relocs ex_main) as Hin by (cbn; right; left).
  assert (-1 <= i_imm call) as H1 by (cbn; lia).
  assert (zlen (default [] (p_insns ex_main)) + i_imm call < 2 ^ 31) as H2 by (vm_compute; reflexivity).
  exact (call_lands LE ex_alloc ex_btf_alloc 0 ex_created 0 ex_linked 1 0 ex_main _ 2 0 call ex_relocatable E
    eq_refl eq_refl Hin eq_refl H1 H2).
Defined.

(** ** The same with function and line information of both sections *)

Definition ex_info_strs : list Z := 0 :: lit "xdp" ++ 0 :: lit ".text" ++ [0].
Definition ex_info_types : list desc := [Desc 0 (Z.shiftl BTF_KIND_INT 24) 4 [32]].
Definition ex_info_section : list Z := encode LE ex_info_types ex_info_strs.
Definition ex_info_ext : list Z :=
  split LE 2 BTF_MAGIC ++ [1; 0] ++ encode_words LE [24; 0; 36; 36; 52]
  ++ encode_words LE [8; 1; 1; 0; 1; 5; 1; 0; 1]
  ++ encode_words LE [16; 1; 1; 0; 1; 1; 7; 5; 1; 8; 1; 1; 9].
Definition ex_info_object : bpf_object :=
  match btf__new LE ex_btf_alloc ex_info_section (zlen ex_info_section), btf_ext__new LE ex_btf_alloc ex_info_ext (zlen ex_info_ext) with
  | Some (Ok b), Some (Ok x) => set_btf_ext (set_btf ex_created (Some b)) (Some x)
  | _, _ => ex_created
  end.

(** [.text], four instructions further on, has its records behind the program's. *)
Example ex_info_relocated :
  match bpf_object__relocate LE ex_alloc ex_btf_alloc 0 (ex_info_object, 0%nat) with
  | Some (Ok _, (o, _)) => List.map p_func_info (programs o) =
      [ProgInfo (Some (encode_words LE [0; 1; 4; 1])) 8 2; ProgInfo (Some (encode_words LE [0; 1])) 8 1] /\
      pi_info (p_line_info (default ex_main (programs o !! 0%nat))) = Some (encode_words LE [0; 1; 1; 7; 5; 1; 1; 9])
  | _ => False
  end.
Proof. vm_compute. by split. Qed.

Lemma ex_info_sound : btf_sound LE ex_info_object.
Proof.
  assert (section_ok LE ex_info_types ex_info_strs) as Hs.
  { split_and!; [by apply descs_okb_ok|done|by split|vm_compute; congruence]. }
  destruct (encode_represents LE ex_btf_alloc _ _ Hs (fun _ => eq_refl)) as (b & Hb & R).
  assert (btf_ext__new LE ex_btf_alloc ex_info_ext (zlen ex_info_ext) = Some (Ok (BtfExt ex_info_ext (ExtInfo 28 8 32) (ExtInfo 64 16 48) 112))) as Hx
    by (vm_compute; reflexivity).
  unfold ex_info_object. unfold ex_info_section. rewrite Hb, Hx. exists ex_info_types, ex_info_strs. split; [exact R|]. split; [apply Hs|]. split; [apply Hs|].
  intros x [= <-]. split; [apply bytes_okb_ok; vm_compute; reflexivity|].
  assert (forall off rec n, load LE 4 ex_info_ext off = Some 1 -> load LE 4 ex_info_ext (off + 4) = Some 1 ->
    load LE 4 ex_info_ext (off + 8 + rec) = Some 5 -> load LE 4 ex_info_ext (off + 8 + rec + 4) = Some 1 -> n = 16 + 2 * rec ->
    Sections LE ex_info_ext rec off [Sec off 1 1; Sec (off + 8 + rec) 5 1] (off + n)) as Hsecs.
  { intros off rec n H1 H2 H3 H4 ->. replace (off + (16 + 2 * rec)) with (off + 8 + 1 * rec + 8 + 1 * rec) by lia.
    apply Sections_cons; [done|done|lia|]. unfold sizeof_btf_ext_info_sec. replace (off + 8 + rec) with (off + 8 + 1 * rec) in * by lia.
    apply Sections_cons; [done|done|lia|]. constructor. }
  assert (forall a c, Forall (fun s => is_Some (name_at ex_info_strs (sec_name_off s))) [Sec a 1 1; Sec c 5 1]) as Hnames
    by (intros a c; repeat constructor; vm_compute; by eexists).
  split; [exists [Sec 28 1 1; Sec (28 + 8 + 8) 5 1]|exists [Sec 64 1 1; Sec (64 + 8 + 16) 5 1]];
    (split; [|split; [exact (Hnames _ _)|vm_compute; reflexivity]]);
    (split_and!; [vm_compute; congruence|vm_compute; split; congruence|reflexivity|cbn; lia|vm_compute; split; congruence|vm_compute; congruence|done|]).
  - apply (Hsecs 28 8 32); vm_compute; reflexivity.
  - apply (Hsecs 64 16 48); vm_compute; reflexivity.
Qed.

Lemma ex_info_relocatable : relocatable ex_info_object.
Proof.
  destruct ex_relocatable as [H1 H2]. unfold ex_info_object. repeat case_match; [|by split..].
  split; [|exact H2]. eapply List.Forall_impl; [|exact H1]. intros p []. by split.
Qed.

Lemma ex_info_no_records : Forall no_records (programs ex_info_object).
Proof. unfold ex_info_object. repeat case_match; exact ex_no_records. Qed.

(** Relocation ends, since the information is sound. *)
Lemma relocate_links_witness :
  runs (with_btf ex_info_object /\ ~ btf_sound LE ex_info_object) (relocate_error ex_alloc ex_info_object)
    (fun _ s => exists ps n, s = (set_programs ex_info_object ps, n) /\ linked_upto ex_info_object (length (programs ex_info_object)) ps)
    (bpf_object__relocate LE ex_alloc ex_btf_alloc 0) (ex_info_object, 0%nat).
Proof. exact (relocate_links LE ex_alloc ex_btf_alloc 0 ex_info_object 0 ex_info_relocatable ex_info_no_records). Defined.
