(* ===== verification/ObjLoad.v ===== *)
(** * Loading a BPF object (src/libbpf/src/libbpf.c, [bpf_object__load])

    The maps are created, the programs relocated and loaded, and on an error
    everything is unloaded again.  The kernel's descriptors are followed through
    all of it. *)

From S2P Require Export Relocate BpfSys.
Open Scope Z_scope.

Definition LIBBPF_ERRNO__LOAD := 4006.
Definition LIBBPF_ERRNO__VERIFY := 4007.
Definition LIBBPF_ERRNO__PROG2BIG := 4008.
Definition LIBBPF_ERRNO__KVER := 4009.
Definition LIBBPF_ERRNO__PROGTYPE := 4010.

Definition BPF_LOG_BUF_SIZE := 256 * 1024.
Definition BPF_MAXINSNS := 4096.
Definition BPF_PROG_TYPE_SOCKET_FILTER := 1.
Definition BPF_PROG_TYPE_KPROBE := 2.
Definition BPF_MAP_TYPE_ARRAY_OF_MAPS := 12.
Definition BPF_MAP_TYPE_HASH_OF_MAPS := 13.

Definition bpf_map_type__is_map_in_map (type : Z) : bool :=
  (type =? BPF_MAP_TYPE_ARRAY_OF_MAPS) || (type =? BPF_MAP_TYPE_HASH_OF_MAPS).

Definition set_m_fd (m : bpf_map) fd := Map fd (m_name m) (m_offset m) (m_ifindex m) (m_inner_map_fd m) (m_def m) (m_btf_key_type_id m) (m_btf_value_type_id m).
Definition set_m_btf (m : bpf_map) k v := Map (m_fd m) (m_name m) (m_offset m) (m_ifindex m) (m_inner_map_fd m) (m_def m) k v.
Definition set_p_instances (p : bpf_program) fds := Program (p_idx p) (p_name p) (p_ifindex p) (p_section_name p) (p_pin_name p) (p_insns p) (p_main_prog_cnt p) (p_type p) (p_reloc_desc p) fds (p_attach_type p) (p_btf_fd p) (p_func_info p) (p_line_info p).
(** [zfree(&prog->insns); prog->insns_cnt = 0]. *)
Definition free_insns (p : bpf_program) := Program (p_idx p) (p_name p) (p_ifindex p) (p_section_name p) (p_pin_name p) None (p_main_prog_cnt p) (p_type p) (p_reloc_desc p) (p_instances p) (p_attach_type p) (p_btf_fd p) (p_func_info p) (p_line_info p).
Definition free_info (i : prog_info) : prog_info := ProgInfo None (pi_rec_size i) (pi_cnt i).
Definition unloaded_program (p : bpf_program) := Program (p_idx p) (p_name p) (p_ifindex p) (p_section_name p) (p_pin_name p) (p_insns p) (p_main_prog_cnt p) (p_type p) (p_reloc_desc p) None (p_attach_type p) (-1) (free_info (p_func_info p)) (free_info (p_line_info p)).
Definition set_ca_btf (a : bpf_create_map_attr) fd k v := CreateAttr (ca_name a) (ca_map_type a) (ca_map_flags a) (ca_key_size a) (ca_value_size a) (ca_max_entries a) (ca_numa_node a) fd k v (ca_map_ifindex a) (ca_inner_map_fd a).

(** What a preprocessor makes of a program's instructions for one instance; it
    may leave the instance out. *)
Definition preprocessor : Type := Z -> option (list bpf_insn) -> result (option (list bpf_insn)).

Section load.
Context {K : Type} `{Kernel bpf_insn K}.
(** The byte order; the allocator's answers to libbpf.c, btf.c and, in a call
    made after so many requests, to bpf.c; the bytes [realloc] adds; whether the
    first byte of a new log is not zero; the bound of the kernel's [EAGAIN]s; the
    preprocessors installed, by the section of their program. *)
Context (e : endian) (alloc : nat -> bool) (btf_alloc : Z -> bool) (sys_alloc : nat -> nat -> Z -> bool)
  (junk : Z) (junk_log : nat -> bool) (fuel : nat) (prep : Z -> option preprocessor).

(** The object, the requests so far and the kernel. *)
Abbreviation LM := (ST (bpf_object * nat * K)).

(** A computation on the object alone. *)
Definition in_obj {A} (c : OM A) : LM A := fun '(s, k) => '(r, s) ← c s; Some (r, (s, k)).
Definition sys {A} (f : K -> A * K) : LM A := fun '(s, k) => let '(a, k) := f k in Some (Ok a, (s, k)).
Definition close (fd : Z) : LM unit := sys (fun k => (tt, sys_close fd k)).
Definition zclose (fd : Z) : LM unit := if 0 <=? fd then close fd else ret tt.

Definition get_map (i : nat) : OM bpf_map := let* o := obj in lift (maps o !! i).
Definition put_map (i : nat) (m : bpf_map) : OM unit := upd (fun o => set_maps o (<[i := m]> (maps o))).

(** [bpf_load_program_xattr]: the result, and whether there is text in the log. *)
Definition load_xattr (la : bpf_load_program_attr bpf_insn) (log_buf : bool) (log_buf_sz : Z) : LM (result Z * bool) :=
  fun '((o, n), k) =>
    '(r, log, k) ← bpf_load_program_xattr (sys_alloc n) fuel la log_buf log_buf_sz k;
    Some (Ok (r, default (junk_log n) log), ((o, S n), k)).

(** *** Probes *)

Definition probe_attr (name : option str) : bpf_load_program_attr bpf_insn :=
  LoadProgAttr BPF_PROG_TYPE_SOCKET_FILTER 0 name [Insn 0xb7 0 0 0 0; Insn 0x95 0 0 0 0] (lit "GPL") 0 0 0
    (InfoAttr None 0 0) (InfoAttr None 0 0) 0.

Definition bpf_object__probe_name : LM unit :=
  let* r := load_xattr (probe_attr None) false 0 in
  match r.1 with
  | Err errno => fail (- errno)
  | Ok fd =>
      let* _ := close fd in
      let* r := load_xattr (probe_attr (Some (lit "test"))) false 0 in
      match r.1 with
      | Ok fd => let* _ := in_obj (upd (fun o => set_caps_name o true)) in close fd
      | Err _ => ret tt
      end
  end.
Definition bpf_object__probe_caps : LM unit := bpf_object__probe_name.

(** *** Maps *)

Definition bpf_map_find_btf_info (i : nat) (b : btf) : OM unit :=
  let* map := get_map i in
  let* name := lift (m_name map) in
  let* ids := pure (btf__get_map_kv_tids e b name (def_key_size (m_def map)) (def_value_size (m_def map))) in
  put_map i (set_m_btf map ids.1 ids.2).

(** [zclose(obj->maps[i].fd)]. *)
Definition close_map (i : nat) : LM unit :=
  let* m := in_obj (get_map i) in
  let* _ := zclose (m_fd m) in
  in_obj (put_map i (set_m_fd m (-1))).

(** What one map asks for; [a] is left over from the map before. *)
Definition map_attr (o : bpf_object) (m : bpf_map) (a : bpf_create_map_attr) : bpf_create_map_attr :=
  let d := m_def m in
  CreateAttr (if caps_name o then m_name m else ca_name a) (def_type d) (def_map_flags d) (def_key_size d)
    (def_value_size d) (def_max_entries d) (ca_numa_node a) 0 0 0 (m_ifindex m)
    (if bpf_map_type__is_map_in_map (def_type d) && (0 <=? m_inner_map_fd m) then m_inner_map_fd m else ca_inner_map_fd a).

(** The types of key and value, when the object describes them. *)
Definition map_attr_btf (i : nat) (a : bpf_create_map_attr) : OM bpf_create_map_attr :=
  let* o := obj in
  match o_btf o with
  | None => ret a
  | Some b =>
      let* r := try (bpf_map_find_btf_info i b) in
      match r with
      | Err _ => ret a
      | Ok _ => let* m := get_map i in ret (set_ca_btf a (fd b) (m_btf_key_type_id m) (m_btf_value_type_id m))
      end
  end.

Definition create_map (i : nat) (a : bpf_create_map_attr) : LM (result Z * bpf_create_map_attr) :=
  let* r := sys (bpf_create_map_xattr a) in
  match r with
  | Ok fd => ret (Ok fd, a)
  | Err errno =>
      if ca_btf_key_type_id a =? 0 then ret (Err errno, a) else
      let a := set_ca_btf a 0 0 0 in
      let* m := in_obj (get_map i) in
      let* _ := in_obj (put_map i (set_m_btf m 0 0)) in
      let* r := sys (bpf_create_map_xattr a) in
      ret (r, a)
  end.

Fixpoint create_maps (a : bpf_create_map_attr) (i todo : nat) : LM unit :=
  match todo with
  | O => ret tt
  | S todo =>
      let* o := in_obj obj in
      let* m := in_obj (get_map i) in
      if 0 <=? m_fd m then create_maps a (S i) todo else
      let* a := in_obj (map_attr_btf i (map_attr o m a)) in
      let* ra := create_map i a in
      let* m := in_obj (get_map i) in
      match ra.1 with
      | Ok fd =>
          let* _ := in_obj (put_map i (set_m_fd m fd)) in
          create_maps ra.2 (S i) todo
      | Err _ =>
          let* _ := in_obj (put_map i (set_m_fd m (-1))) in
          let* _ := each close_map (seq 0 i) in
          fail (-1)
      end
  end.

Definition bpf_object__create_maps : LM unit :=
  let* o := in_obj obj in
  create_maps (CreateAttr None 0 0 0 0 0 0 0 0 0 0 0) 0 (length (maps o)).

(** *** Programs *)

Definition info_of (i : prog_info) : info_attr := InfoAttr (pi_info i) (pi_rec_size i) (pi_cnt i).

Definition load_attr (o : bpf_object) (p : bpf_program) (insns : list bpf_insn) (license : list Z) (kern_version : Z) :
    bpf_load_program_attr bpf_insn :=
  LoadProgAttr (p_type p) (p_attach_type p) (if caps_name o then p_name p else None) insns license kern_version
    (p_ifindex p) (if 0 <=? p_btf_fd p then p_btf_fd p else 0) (info_of (p_func_info p)) (info_of (p_line_info p)) 0.

(** Another type for a program that did not load. *)
Definition as_kprobe (la : bpf_load_program_attr bpf_insn) : bpf_load_program_attr bpf_insn :=
  LoadProgAttr BPF_PROG_TYPE_KPROBE 0 (la_name la) (la_insns la) (la_license la) (la_kern_version la) (la_prog_ifindex la)
    (la_prog_btf_fd la) (la_func_info la) (la_line_info la) (la_log_level la).

(** The error of a program that did not load. *)
Definition load_failed (la : bpf_load_program_attr bpf_insn) (log_buf text : bool) : LM Z :=
  if log_buf && text then fail (- LIBBPF_ERRNO__VERIFY)
  else if BPF_MAXINSNS <=? zlen (la_insns la) then fail (- LIBBPF_ERRNO__PROG2BIG)
  else
    let* _ := (if la_prog_type la =? BPF_PROG_TYPE_KPROBE then ret tt else
      let* r := load_xattr (as_kprobe la) false 0 in
      match r.1 with
      | Ok fd => let* _ := close fd in fail (- LIBBPF_ERRNO__PROGTYPE)
      | Err _ => ret tt
      end) in
    fail (if log_buf then - LIBBPF_ERRNO__KVER else - LIBBPF_ERRNO__LOAD).

Definition load_program (p : bpf_program) (insns : option (list bpf_insn)) (license : list Z) (kern_version : Z) : LM Z :=
  let* o := in_obj obj in
  match insns with
  | None | Some [] => fail (- EINVAL)
  | Some insns =>
      let la := load_attr o p insns license kern_version in
      let* b := in_obj (try (malloc alloc)) in
      let log_buf := match b with Ok _ => true | Err _ => false end in
      let* r := load_xattr la log_buf BPF_LOG_BUF_SIZE in
      match r.1 with
      | Ok fd => ret fd
      | Err _ => load_failed la log_buf r.2
      end
  end.

(** Instance [i] of program [pi] has descriptor [fd]. *)
Definition set_instance (pi : nat) (i : Z) (fd : Z) : OM unit :=
  let* p := get_prog pi in
  let* fds := lift (p_instances p) in
  let* fds := lift (zset fds i fd) in
  put_prog pi (set_p_instances p (Some fds)).

Definition load_instance (pi : nat) (f : preprocessor) (license : list Z) (kern_version : Z) (i : nat) : LM unit :=
  let* p := in_obj (get_prog pi) in
  match f (Z.of_nat i) (p_insns p) with
  | Err err => fail err
  | Ok None | Ok (Some []) => in_obj (set_instance pi (Z.of_nat i) (-1))
  | Ok (Some insns) =>
      let* fd := load_program p (Some insns) license kern_version in
      in_obj (set_instance pi (Z.of_nat i) fd)
  end.

Definition load_instances (pi : nat) (license : list Z) (kern_version : Z) : LM unit :=
  let* p := in_obj (get_prog pi) in
  match prep (p_idx p) with
  | None =>
      let* fd := load_program p (p_insns p) license kern_version in
      in_obj (set_instance pi 0 fd)
  | Some f =>
      let* fds := in_obj (lift (p_instances p)) in
      each (load_instance pi f license kern_version) (seq 0 (length fds))
  end.

Definition bpf_program__load (pi : nat) (license : list Z) (kern_version : Z) : LM unit :=
  let* p := in_obj (get_prog pi) in
  let* _ := (match p_instances p, prep (p_idx p) with
    | Some _, _ => ret tt
    | None, Some _ => fail (- LIBBPF_ERRNO__INTERNAL)
    | None, None => in_obj (let* _ := malloc alloc in put_prog pi (set_p_instances p (Some [-1])))
    end) in
  let* r := try (load_instances pi license kern_version) in
  let* p := in_obj (get_prog pi) in
  let* _ := in_obj (put_prog pi (free_insns p)) in
  match r with Ok _ => ret tt | Err err => fail err end.

Definition bpf_program__is_function_storage (o : bpf_object) (p : bpf_program) : bool :=
  (p_idx p =? text_shndx (o_efile o)) && has_pseudo_calls o.

Definition load_prog (pi : nat) : LM unit :=
  let* o := in_obj obj in
  let* p := in_obj (get_prog pi) in
  if bpf_program__is_function_storage o p then ret tt else bpf_program__load pi (license o) (kern_version o).

Definition bpf_object__load_progs : LM unit :=
  let* o := in_obj obj in each load_prog (seq 0 (length (programs o))).

(** *** The object *)

Definition bpf_program__unload (pi : nat) : LM unit :=
  let* p := in_obj (get_prog pi) in
  let* _ := each zclose (default [] (p_instances p)) in
  let* _ := zclose (p_btf_fd p) in
  in_obj (put_prog pi (unloaded_program p)).

Definition bpf_object__unload : LM unit :=
  let* o := in_obj obj in
  let* _ := each close_map (seq 0 (length (maps o))) in
  each bpf_program__unload (seq 0 (length (programs o))).

Definition load_passes : LM unit :=
  let* _ := bpf_object__probe_caps in
  let* _ := bpf_object__create_maps in
  let* _ := in_obj (bpf_object__relocate e alloc btf_alloc junk) in
  bpf_object__load_progs.

Definition bpf_object__load : LM unit :=
  let* o := in_obj obj in
  if loaded o then fail (- EINVAL) else
  let* _ := in_obj (upd (fun o => set_loaded o true)) in
  let* r := try load_passes in
  match r with
  | Ok _ => ret tt
  | Err err => let* _ := bpf_object__unload in fail err
  end.

Definition btf__free (b : option btf) : LM unit :=
  match b with
  | None => ret tt
  | Some b => if fd b =? -1 then ret tt else close (fd b)
  end.

(** [bpf_program__exit] unloads a program that is unloaded already. *)
Definition bpf_object__close : LM unit :=
  let* _ := in_obj (upd_efile elf_finish) in
  let* _ := bpf_object__unload in
  let* o := in_obj obj in
  let* _ := btf__free (o_btf o) in
  let* _ := in_obj (upd (fun o => set_btf_ext (set_btf (set_maps o []) None) None)) in
  let* _ := each bpf_program__unload (seq 0 (length (programs o))) in
  in_obj (upd (fun o => set_programs o [])).
End load.
