(* ===== verification/ObjDescs.v ===== *)
(** * The descriptors of an object

    The descriptors that the maps and programs of an object hold, against the
    set of those that are open, and what relocation does to a program besides
    linking it. *)

From S2P Require Export ObjLoad.
Open Scope Z_scope.

(** ** Relocation as loading sees it *)

Section frame.
Context (e : endian) (alloc : nat -> bool) (btf_alloc : Z -> bool) (junk : Z) (o : bpf_object).
Local Abbreviation OS := (bpf_object * nat)%type.

(** Relocation touches neither instances nor, without BTF information, what
    describes it. *)
Record kept (p q : bpf_program) : Prop := {
  kp_instances : p_instances q = p_instances p;
  kp_btf_fd : p_btf_fd q = p_btf_fd p \/ exists b, o_btf o = Some b /\ p_btf_fd q = fd b;
  kp_func : p_func_info q = p_func_info p \/ with_btf o;
  kp_line : p_line_info q = p_line_info p \/ with_btf o
}.

#[local] Instance kept_refl : Reflexive kept.
Proof. intros p. split; auto. Qed.

Definition frame (s : OS) : Prop :=
  exists ps n, s = (set_programs o ps, n) /\ Forall2 kept (programs o) ps.
Local Abbreviation fruns := (runs True (fun _ => frame)).

Definition kept_at (pi : nat) (p : bpf_program) : Prop :=
  exists p0, programs o !! pi = Some p0 /\ kept p0 p.

Lemma frame_get (P : bpf_program -> OS -> Prop) pi s :
  frame s -> (forall p, kept_at pi p -> P p s) -> fruns P (get_prog pi) s.
Proof.
  intros (ps & n & -> & Hps) HP. apply run_bind. apply run_read; [done|]. cbn. intros p Hp. apply HP.
  destruct (Forall2_lookup_r _ _ _ _ _ Hps Hp) as (p0 & Hp0 & Hk). by exists p0.
Qed.

Lemma frame_put (P : unit -> OS -> Prop) pi p s :
  frame s -> kept_at pi p -> (forall s, frame s -> P tt s) -> fruns P (put_prog pi p) s.
Proof.
  intros (ps & n & -> & Hps) (p0 & Hp0 & Hk) HP. apply run_modify, HP.
  exists (<[pi := p]> ps), n. split; [done|]. by eapply Forall2_insert_r.
Qed.

Lemma frame_obj (P : bpf_object -> OS -> Prop) s :
  frame s -> (forall ps, P (set_programs o ps) s) -> fruns P obj s.
Proof. intros (ps & n & -> & _) HP. apply HP. Qed.

Lemma frame_malloc (P : unit -> OS -> Prop) s : frame s -> (forall s, frame s -> P tt s) -> fruns P (malloc alloc) s.
Proof. intros (ps & n & -> & Hps) HP. unfold runs, malloc. cbn. destruct (alloc n); [apply HP|]; by exists ps, (S n). Qed.

Lemma frame_fail {A} (P : A -> OS -> Prop) err s : frame s -> fruns P (fail err) s.
Proof. done. Qed.

Lemma frame_lift {A} (P : A -> OS -> Prop) x s : (forall a, x = Some a -> P a s) -> fruns P (lift x) s.
Proof. intros HP. by apply run_read. Qed.

Lemma frame_info (P : option prog_info -> OS -> Prop) f rs sn off i s :
  frame s -> (forall r, P r s) -> fruns P (reloc_info f rs sn off i) s.
Proof.
  intros Hs HP. unfold reloc_info. destruct (_ && _); [apply run_ret, HP|]. apply run_bind, run_pure; [done|done|].
  intros [[bs cnt]|err] _; [apply run_ret, HP|]. apply run_bind. unfold check_btf_ext_reloc_err.
  destruct (negb _); [done|]. destruct (pi_info i); [done|]. apply run_ret, run_ret, HP.
Qed.

Lemma frame_btf_ext (P : unit -> OS -> Prop) pi sn off s : with_btf o ->
  frame s -> (forall s, frame s -> P tt s) -> fruns P (bpf_program_reloc_btf_ext e btf_alloc junk pi sn off) s.
Proof.
  intros Hb Hs HP. unfold bpf_program_reloc_btf_ext. apply run_bind, frame_obj; [done|]. intros ps.
  apply run_bind, frame_lift. intros b Eb. apply run_bind, frame_lift. intros x _. apply run_bind, frame_get; [done|].
  intros p Hp. apply run_bind, frame_info; [done|]. intros [f|]; [|by apply run_ret, HP].
  assert (forall fd' f l, fd' = p_btf_fd p \/ fd' = fd b -> kept_at pi (set_p_btf p fd' f l)) as Hkept.
  { intros fd' f' l [->| ->]; destruct Hp as (p0 & Hp0 & [K1 K2 K3 K4]); exists p0; (split; [done|]); split; cbn; auto.
    right. by exists b. }
  apply run_bind, frame_put; [done|by apply Hkept; left|]. intros s1 H1. apply run_bind, frame_info; [done|].
  intros [l|]; [|by apply run_ret, HP]. apply frame_put; [done| |done]. apply Hkept. destruct (off =? 0); auto.
Qed.

Lemma frame_append (P : unit -> OS -> Prop) pi s :
  frame s -> (forall s, frame s -> P tt s) -> fruns P (append_text e alloc btf_alloc junk pi) s.
Proof.
  intros Hs HP. unfold append_text. apply run_bind, frame_obj; [done|]. intros ps. apply run_bind, frame_get; [done|].
  intros p Hp. destruct (negb _); [by apply run_ret, HP|]. destruct (find_prog _ _) as [ti|]; [|done].
  apply run_bind, frame_get; [done|]. intros text _. apply run_bind, frame_lift. intros insns _.
  apply run_bind, frame_malloc; [done|]. intros s1 H1. apply run_bind.
  assert (forall s, frame s -> fruns P (let* p := get_prog pi in let* tinsns := lift (p_insns text) in
    put_prog pi (set_p_insns p (Some (insns ++ tinsns)) (zlen insns))) s) as Hrest.
  { intros s2 H2. apply run_bind, frame_get; [done|]. intros q (q0 & Hq0 & [K1 K2 K3 K4]). apply run_bind, frame_lift. intros t _.
    apply frame_put; [done| |done]. exists q0. by split. }
  change (o_btf_ext (set_programs o ps)) with (o_btf_ext o).
  destruct (o_btf_ext o) eqn:Eb; [|by apply run_ret, Hrest]. apply frame_btf_ext; [|done|exact Hrest]. unfold with_btf. by rewrite Eb.
Qed.

Lemma frame_apply (P : unit -> OS -> Prop) pi r s :
  frame s -> (forall s, frame s -> P tt s) -> fruns P (apply_reloc e alloc btf_alloc junk pi r) s.
Proof.
  intros Hs HP.
  assert (forall p insns m, kept_at pi p -> kept_at pi (set_p_insns p insns m)) as Hk.
  { intros p insns m (p0 & Hp0 & [K1 K2 K3 K4]). exists p0. by split. }
  destruct r as [i j|i off]; cbn [apply_reloc]; unfold reloc_ld64, bpf_program__reloc_text;
    (apply run_bind, frame_obj; [done|]); intros ps; (apply run_bind, frame_get; [done|]); intros p Hp.
  - apply run_bind, frame_lift. intros insns _. destruct (_ <=? _); [done|]. apply run_bind, frame_lift. intros m _.
    apply run_bind, frame_lift. intros ins _. apply run_bind, frame_lift. intros insns' _. apply frame_put; [done|by apply Hk|done].
  - destruct (_ =? _); [done|]. apply run_bind, frame_append; [done|]. intros s1 H1. apply run_bind, frame_get; [done|]. intros q Hq.
    apply run_bind, frame_lift. intros insns _. apply run_bind, frame_lift. intros ins _. apply run_bind, frame_lift. intros insns' _.
    apply frame_put; [done|by apply Hk|done].
Qed.

Lemma relocate_frame n : runs True (fun _ => frame) (fun _ => frame) (bpf_object__relocate e alloc btf_alloc junk) (o, n).
Proof.
  assert (frame (o, n)) as H0.
  { exists (programs o), n. split; [by rewrite set_programs_same|]. reflexivity. }
  unfold bpf_object__relocate. apply run_bind. cbn. apply (run_each True _ (fun _ => frame)); [|done]. clear n H0. intros pi _ s Hs.
  unfold bpf_program__relocate. apply run_bind, frame_obj; [done|]. intros ps. apply run_bind, frame_get; [done|]. intros p Hp.
  apply run_bind. change (o_btf_ext (set_programs o ps)) with (o_btf_ext o).
  assert (forall s, frame s -> fruns (fun _ => frame) (match p_reloc_desc p with
    | None => ret tt
    | Some rs => let* _ := each (apply_reloc e alloc btf_alloc junk pi) rs in
        let* p := get_prog pi in put_prog pi (set_p_reloc_desc p None) end) s) as Hrest.
  { intros s1 H1. destruct (p_reloc_desc p) as [rs|]; [|by apply run_ret]. eapply run_seq.
    - apply (run_each True _ (fun _ => frame)); [|exact H1]. intros r _ s2 H2. by apply frame_apply.
    - intros [] s2 H2. apply run_bind, frame_get; [done|]. intros q (q0 & Hq0 & [K1 K2 K3 K4]).
      apply frame_put; [done| |done]. exists q0. by split. }
  destruct (o_btf_ext o) eqn:Eb; [|by apply run_ret, Hrest]. apply frame_btf_ext; [|done|exact Hrest]. unfold with_btf. by rewrite Eb.
Qed.
End frame.

(** ** The descriptors an object holds *)

Definition nonneg (l : list Z) : list Z := filter (fun fd => 0 <= fd) l.
Definition instances (p : bpf_program) : list Z := default [] (p_instances p).

Definition own (o : bpf_object) : list Z :=
  nonneg (List.map m_fd (maps o) ++ concat (List.map instances (programs o))).

Lemma nonneg_app l k : nonneg (l ++ k) = nonneg l ++ nonneg k.
Proof. apply filter_app. Qed.

Lemma nonneg_one fd : nonneg [fd] = if 0 <=? fd then [fd] else [].
Proof.
  unfold nonneg. rewrite filter_cons. destruct (decide (0 <= fd)) as [Hd|Hd]; rewrite filter_nil.
  - by rewrite (proj2 (Z.leb_le _ _) Hd).
  - destruct (Z.leb_spec 0 fd); [lia|done].
Qed.

Lemma elem_of_nonneg l x : x ∈ nonneg l <-> x ∈ l /\ 0 <= x.
Proof. unfold nonneg. rewrite list_elem_of_filter. tauto. Qed.

(** The descriptors of one map and those of all else. *)
Lemma own_map o i m : maps o !! i = Some m -> exists rest,
  own o ≡ₚ nonneg [m_fd m] ++ rest /\
  forall m', own (set_maps o (<[i := m']> (maps o))) ≡ₚ nonneg [m_fd m'] ++ rest.
Proof.
  intros Hi. pose proof (lookup_lt_Some _ _ _ Hi) as Hlt.
  exists (nonneg (List.map m_fd (take i (maps o)) ++ List.map m_fd (drop (S i) (maps o)) ++ concat (List.map instances (programs o)))).
  assert (forall ms m, ms = take i (maps o) ++ m :: drop (S i) (maps o) ->
    nonneg (List.map m_fd ms ++ concat (List.map instances (programs o))) ≡ₚ nonneg [m_fd m] ++
    nonneg (List.map m_fd (take i (maps o)) ++ List.map m_fd (drop (S i) (maps o)) ++ concat (List.map instances (programs o)))) as Hperm.
  { intros ms m1 ->. rewrite <- nonneg_app. unfold nonneg. apply filter_Permutation. rewrite List.map_app. cbn. by rewrite <- app_assoc, Permutation_middle. }
  split.
  - apply Hperm. by rewrite take_drop_middle.
  - intros m'. unfold own. cbn [set_maps maps programs]. apply Hperm. by apply insert_take_drop.
Qed.

Lemma own_prog o i p : programs o !! i = Some p -> exists rest,
  own o ≡ₚ nonneg (instances p) ++ rest /\
  forall p', own (set_programs o (<[i := p']> (programs o))) ≡ₚ nonneg (instances p') ++ rest.
Proof.
  intros Hi. pose proof (lookup_lt_Some _ _ _ Hi) as Hlt. set (ic := fun ps => concat (List.map instances ps)).
  exists (nonneg (List.map m_fd (maps o) ++ ic (take i (programs o)) ++ ic (drop (S i) (programs o)))).
  assert (forall ps p, ps = take i (programs o) ++ p :: drop (S i) (programs o) ->
    nonneg (List.map m_fd (maps o) ++ ic ps) ≡ₚ nonneg (instances p) ++
    nonneg (List.map m_fd (maps o) ++ ic (take i (programs o)) ++ ic (drop (S i) (programs o)))) as Hperm.
  { intros ps p1 ->. rewrite <- nonneg_app. unfold nonneg. apply filter_Permutation. unfold ic. rewrite List.map_app, concat_app. cbn.
    rewrite !(app_assoc _ (instances p1)), <- !app_assoc. rewrite (Permutation_app_swap_app (concat _) (instances p1)).
    by rewrite (Permutation_app_swap_app (List.map m_fd (maps o)) (instances p1)). }
  split.
  - apply Hperm. by rewrite take_drop_middle.
  - intros p'. unfold own. cbn [set_programs maps programs]. apply Hperm. by apply insert_take_drop.
Qed.

Section descriptors.
Context {K : Type} `{KernelLaws bpf_insn K} (R : gset Z).

(** Open are [R'], part of [R], and the descriptors [l], none of them in [R]. *)
Record holds (R' : gset Z) (l : list Z) (k : K) : Prop := {
  hd_nodup : NoDup l;
  hd_apart : forall x, x ∈ l -> x ∉ R;
  hd_rest : R' ⊆ R;
  hd_open : forall x, x ∈ open_fds k <-> x ∈ R' \/ x ∈ l
}.

#[export] Instance holds_perm R' : Proper (Permutation ==> eq ==> iff) (holds R').
Proof.
  assert (forall l l' k, l ≡ₚ l' -> holds R' l k -> holds R' l' k) as Himp.
  { intros l l' k Hl [H1 H2 H3 H4]. split; [by rewrite <- Hl|intros x; rewrite <- Hl; apply H2|done|intros x; rewrite <- Hl; apply H4]. }
  intros l l' Hl k k' <-. split; apply Himp; [done|by symmetry].
Qed.

Lemma holds_same R' l k k' : open_fds k' = open_fds k -> holds R' l k -> holds R' l k'.
Proof. intros E [H1 H2 H3 H4]. split; [done..|]. by rewrite E. Qed.

Lemma holds_open l k k' fd : holds R l k -> opened k (Ok fd) k' -> holds R (nonneg [fd] ++ l) k'.
Proof.
  intros [H1 H2 H3 H4] (Hp & Hf & E). rewrite nonneg_one, (proj2 (Z.leb_le _ _) Hp). cbn [app].
  assert ((fd ∉ R) /\ (fd ∉ l)) as [HR Hl2] by (rewrite H4 in Hf; tauto). split.
  - by apply NoDup_cons.
  - intros x [->|Hx]%elem_of_cons; [done|by apply H2].
  - done.
  - intros x. rewrite E, elem_of_union, elem_of_singleton, elem_of_cons, H4. tauto.
Qed.

Lemma holds_close R' l k fd : holds R' (nonneg [fd] ++ l) k -> holds R' l (if 0 <=? fd then sys_close fd k else k).
Proof.
  rewrite nonneg_one. destruct (0 <=? fd); [|done]. cbn [app]. intros [[Hn H1]%NoDup_cons H2 H3 H4]. split; [done| |done|].
  - intros x Hx. apply H2. by right.
  - intros x. rewrite close_open, elem_of_difference, elem_of_singleton, H4, elem_of_cons.
    assert (fd ∉ R') by (intros ?%H3; apply (H2 fd); [by left|done]). split; [tauto|]. intros [Hx|Hx]; (split; [tauto|]); by intros ->.
Qed.

(** Closing a descriptor that is not the object's own. *)
Lemma holds_close_other R' l k fd : fd ∈ R -> holds R' l k -> holds (R' ∖ {[fd]}) l (sys_close fd k).
Proof.
  intros Hfd [H1 H2 H3 H4]. split; [done|done|set_solver|]. intros x.
  rewrite close_open, !elem_of_difference, elem_of_singleton, H4. split; [tauto|]. intros [Hx|Hx]; [tauto|].
  split; [tauto|]. intros ->. by apply (H2 fd).
Qed.

Lemma holds_nil R' k : holds R' [] k -> open_fds k = R'.
Proof. intros [_ _ _ H4]. apply set_eq. intros x. rewrite H4, elem_of_nil. tauto. Qed.
End descriptors.
