(* ===== verification/ObjLoadSpec.v ===== *)
(** * What loading an object does

    Loading opens the descriptors its maps and programs hold in the end and no
    others, and an error closes them all; the kernel was asked for the maps as
    they are defined and for the programs as they are linked. *)

From S2P Require Export ObjDescs.
Open Scope Z_scope.

(** ** What a loaded object is *)

Section loaded.
Context {K : Type} `{Kernel bpf_insn K}.

(** The kernel gave [fd] for a request of map [m]. *)
Definition map_granted (m : bpf_map) (fd : Z) : Prop :=
  exists a (k k' : K), sys_map_create a k = (Ok fd, k') /\
    mc_map_type a = def_type (m_def m) /\ mc_key_size a = def_key_size (m_def m) /\
    mc_value_size a = def_value_size (m_def m) /\ mc_max_entries a = def_max_entries (m_def m) /\
    mc_map_flags a = def_map_flags (m_def m) /\ mc_map_ifindex a = m_ifindex m.

(** A map that had a descriptor keeps it. *)
Record map_created (m m' : bpf_map) : Prop := {
  mc_name : m_name m' = m_name m;
  mc_def : m_def m' = m_def m;
  mc_fd : 0 <= m_fd m';
  mc_preset : 0 <= m_fd m -> m' = m;
  mc_granted : m_fd m < 0 -> map_granted m (m_fd m')
}.

(** The kernel gave [fd] for a request of program [p] with this code. *)
Definition loaded_as (o : bpf_object) (p : bpf_program) (code : list bpf_insn) (fd : Z) : Prop :=
  exists la, granted (K := K) la fd /\ la_insns la = code /\ la_prog_type la = p_type p /\
    la_expected_attach_type la = p_attach_type p /\ la_license la = license o /\
    la_kern_version la = kern_version o /\ la_prog_ifindex la = p_ifindex p.

(** What instance [j] of a program is loaded from. *)
Definition instance_code (f : option preprocessor) (insns : option (list bpf_insn)) (j : nat) : option (list bpf_insn) :=
  match f with
  | None => insns
  | Some f => match f (Z.of_nat j) insns with Ok code => code | Err _ => None end
  end.

(** Without code the instance is left out. *)
Definition instance_loaded (o : bpf_object) (p : bpf_program) (code : option (list bpf_insn)) (fd : Z) : Prop :=
  match code with
  | None | Some [] => fd = -1
  | Some insns => 0 <= fd /\ loaded_as o p insns fd
  end.

Context (prep : Z -> option preprocessor).

Record program_loaded (o : bpf_object) (p p' : bpf_program) : Prop := {
  pl_idx : p_idx p' = p_idx p;
  pl_section : p_section_name p' = p_section_name p;
  pl_fds : exists fds, p_instances p' = Some fds /\ fds <> [] /\ (prep (p_idx p) = None -> length fds = 1%nat) /\
    forall j fd, fds !! j = Some fd -> instance_loaded o p (instance_code (prep (p_idx p)) (p_insns p) j) fd
}.
End loaded.

(** ** The rules *)

Section rules.
Context {K : Type} `{KernelLaws bpf_insn K}.
Context (e : endian) (alloc : nat -> bool) (btf_alloc : Z -> bool) (sys_alloc : nat -> nat -> Z -> bool)
  (junk : Z) (junk_log : nat -> bool) (fuel : nat) (prep : Z -> option preprocessor).
Context (R : gset Z) (o0 : bpf_object).
Local Abbreviation LS := (bpf_object * nat * K)%type.

(** Descriptors for BTF are open, not the maps' or programs'; [EAGAIN] ends. *)
Hypothesis Hbtf : forall b, o_btf o0 = Some b -> 0 <= fd b -> fd b ∈ R.
Hypothesis Hfuel : forall (a : prog_load_attr bpf_insn) (k : K), exists r k', sys_bpf_prog_load fuel a k = Some (r, k') /\
  0 <= an_func_rec r /\ 0 <= an_line_rec r.

(** With BTF information reads may leave their objects ([Ub]), unless it is sound. *)
Definition has_btf : Prop := o_btf o0 <> None \/ with_btf o0.
Context (Ub : Prop).

Definition info_fine (i : prog_info) : Prop := info_ok (info_of i) /\ 0 <= pi_rec_size i.

Definition btf_fine (p : bpf_program) : Prop :=
  p_btf_fd p = -1 \/ exists b, o_btf o0 = Some b /\ p_btf_fd p = fd b.

Record prog_fine (V : Prop) (p : bpf_program) : Prop := {
  pf_btf_fd : btf_fine p;
  pf_func : info_fine (p_func_info p) \/ V;
  pf_line : info_fine (p_line_info p) \/ V
}.

(** The state while loading; after an error the records do not matter. *)
Record inv_up_to (V : Prop) (s : LS) : Prop := {
  iv_holds : holds R R (own s.1.1) s.2;
  iv_btf : o_btf s.1.1 = o_btf o0;
  iv_progs : Forall (prog_fine V) (programs s.1.1)
}.
Local Abbreviation inv := (inv_up_to Ub).
Local Abbreviation failed := (inv_up_to True).

Lemma inv_failed s : inv s -> failed s.
Proof using. intros [H1 H2 H3]. split; [done|done|]. eapply List.Forall_impl; [|exact H3]. intros p []. split; [done|by right|by right]. Qed.

Hypothesis HU : has_btf -> Ub \/ btf_sound e o0.
Local Abbreviation lruns := (runs Ub (fun _ => failed)).

Lemma in_obj_run {A} U E (P : A -> LS -> Prop) c s k :
  runs U (fun err s => E err (s, k)) (fun a s => P a (s, k)) c s -> runs U E P (in_obj c) (s, k).
Proof. unfold runs, in_obj. by destruct (c s) as [[[a|err] s']|]. Qed.

Lemma obj_state {A} U E (P : A -> LS -> Prop) f o n k :
  runs U E P (f o) (o, n, k) -> runs U E P (let* o := in_obj obj in f o) (o, n, k).
Proof using. clear HU Hbtf Hfuel e alloc btf_alloc sys_alloc junk junk_log fuel prep. intros HP. by apply run_bind. Qed.

Lemma map_state {A} U E (P : A -> LS -> Prop) f o i m n k :
  maps o !! i = Some m -> runs U E P (f m) (o, n, k) -> runs U E P (let* m := in_obj (get_map i) in f m) (o, n, k).
Proof using. clear HU Hbtf Hfuel e alloc btf_alloc sys_alloc junk junk_log fuel prep. intros Hi HP. unfold runs, bind, in_obj, get_map, bind, obj, lift. cbn. by rewrite Hi. Qed.

Lemma prog_state {A} U E (P : A -> LS -> Prop) f o i p n k :
  programs o !! i = Some p -> runs U E P (f p) (o, n, k) -> runs U E P (let* p := in_obj (get_prog i) in f p) (o, n, k).
Proof using. clear HU Hbtf Hfuel e alloc btf_alloc sys_alloc junk junk_log fuel prep. intros Hi HP. unfold runs, bind, in_obj, get_prog, bind, obj, lift. cbn. by rewrite Hi. Qed.

Lemma put_map_state {A} U E (P : A -> LS -> Prop) f o i m n k :
  runs U E P f (set_maps o (<[i := m]> (maps o)), n, k) -> runs U E P (let* _ := in_obj (put_map i m) in f) (o, n, k).
Proof. done. Qed.

Lemma put_prog_state {A} U E (P : A -> LS -> Prop) f o i p n k :
  runs U E P f (set_programs o (<[i := p]> (programs o)), n, k) -> runs U E P (let* _ := in_obj (put_prog i p) in f) (o, n, k).
Proof. done. Qed.

Lemma put_map_last U E (P : unit -> LS -> Prop) o i m n k :
  P tt (set_maps o (<[i := m]> (maps o)), n, k) -> runs U E P (in_obj (put_map i m)) (o, n, k).
Proof using. clear HU Hbtf Hfuel e alloc btf_alloc sys_alloc junk junk_log fuel prep. done. Qed.

Lemma put_prog_last U E (P : unit -> LS -> Prop) o i p n k :
  P tt (set_programs o (<[i := p]> (programs o)), n, k) -> runs U E P (in_obj (put_prog i p)) (o, n, k).
Proof using. clear HU Hbtf Hfuel e alloc btf_alloc sys_alloc junk junk_log fuel prep. done. Qed.

(** Closing. *)
Definition closed (fd : Z) (k : K) : K := if 0 <=? fd then sys_close fd k else k.

Lemma zclose_state {A} U E (P : A -> LS -> Prop) f fd s k :
  runs U E P f (s, closed fd k) -> runs U E P (let* _ := zclose fd in f) (s, k).
Proof using. clear HU Hbtf Hfuel e alloc btf_alloc sys_alloc junk junk_log fuel prep. unfold zclose, closed. by destruct (0 <=? fd). Qed.

(** Loading a program through bpf.c. *)
Lemma load_xattr_run {A} E (P : A -> LS -> Prop) f la log_buf sz o n k :
  info_ok (la_func_info la) /\ 0 <= ia_rec_size (la_func_info la) \/ Ub ->
  info_ok (la_line_info la) /\ 0 <= ia_rec_size (la_line_info la) \/ Ub ->
  (forall r text k', opened k r k' -> (forall fd, r = Ok fd -> granted (K := K) la fd) ->
    runs Ub E P (f (r, text)) (o, S n, k')) ->
  runs Ub E P (let* r := load_xattr sys_alloc junk_log fuel la log_buf sz in f r) (o, n, k).
Proof using All.
  intros Hf Hl HP. apply run_bind. unfold runs at 1, load_xattr.
  destruct (bpf_load_program_xattr (sys_alloc n) fuel la log_buf sz k) as [[[r log] k']|] eqn:Er; cbn.
  - apply HP; [by eapply load_xattr_opened|]. intros fd ->. by eapply load_xattr_granted.
  - destruct Hf as [[Hf Hf']|]; [|done]. destruct Hl as [[Hl Hl']|]; [|done].
    destruct (load_program_defined (sys_alloc n) fuel la log_buf sz k Hfuel Hf Hl Hf' Hl') as [x Hx]. congruence.
Qed.

Lemma inv_keep o o' n n' k k' :
  own o' ≡ₚ own o -> o_btf o' = o_btf o -> programs o' = programs o -> open_fds k' = open_fds k ->
  inv (o, n, k) -> inv (o', n', k').
Proof.
  intros Ho Hb Hp Hk [H1 H2 H3]. split; cbn in *; [|congruence|by rewrite Hp]. rewrite Ho. by eapply holds_same.
Qed.

Lemma closed_opened k fd k' : opened k (Ok fd) k' -> open_fds (closed fd k') = open_fds k.
Proof.
  intros (Hp & Hf & E). unfold closed. rewrite (proj2 (Z.leb_le _ _) Hp), close_open, E. apply set_eq. intros x.
  rewrite elem_of_difference, elem_of_union, elem_of_singleton. split; [tauto|]. intros Hx. split; [tauto|]. by intros ->.
Qed.

Lemma no_info : info_ok (InfoAttr None 0 0) /\ 0 <= 0 \/ Ub.
Proof. left. split; [by left|done]. Qed.

(** *** The probe *)

Lemma probe_run o n k : inv (o, n, k) ->
  lruns (fun _ s => exists n' k', (s = (o, n', k') \/ s = (set_caps_name o true, n', k')) /\ inv s)
    (bpf_object__probe_caps sys_alloc junk_log fuel) (o, n, k).
Proof using All.
  intros Hinv. unfold bpf_object__probe_caps, bpf_object__probe_name. apply load_xattr_run; [apply no_info..|].
  intros [fd|errno] text k1 Ho _; cbn [fst]; [|by apply run_fail, inv_failed, (inv_keep o o n (S n) k k1)].
  apply run_bind. cbn. assert (open_fds (sys_close fd k1) = open_fds k) as E1.
  { rewrite <- (closed_opened _ _ _ Ho). unfold closed. by rewrite (proj2 (Z.leb_le _ _) (proj1 Ho)). }
  generalize (sys_close fd k1), E1. clear k1 Ho E1. intros k1 E1. apply load_xattr_run; [apply no_info..|].
  intros [fd2|errno] text2 k2 Ho _; cbn [fst].
  - apply run_bind. cbn. do 2 eexists. split; [by right|]. eapply inv_keep; [..|exact Hinv]; [done..|].
    rewrite <- E1, <- (closed_opened _ _ _ Ho). unfold closed. by rewrite (proj2 (Z.leb_le _ _) (proj1 Ho)).
  - apply run_ret. do 2 eexists. split; [by left|]. eapply inv_keep; [..|exact Hinv]; [done..|]. cbn in Ho. congruence.
Qed.

(** *** Maps *)

(** The same map but for descriptor and types. *)
Record same_map (m m' : bpf_map) : Prop := {
  sm_name : m_name m' = m_name m;
  sm_def : m_def m' = m_def m;
  sm_ifindex : m_ifindex m' = m_ifindex m
}.

(** The attributes ask for [m], whatever its types. *)
Record asks (m : bpf_map) (a : bpf_create_map_attr) : Prop := {
  as_type : ca_map_type a = def_type (m_def m);
  as_key : ca_key_size a = def_key_size (m_def m);
  as_value : ca_value_size a = def_value_size (m_def m);
  as_entries : ca_max_entries a = def_max_entries (m_def m);
  as_flags : ca_map_flags a = def_map_flags (m_def m);
  as_ifindex : ca_map_ifindex a = m_ifindex m
}.

Lemma asks_same m m' a : same_map m m' -> asks m a -> asks m' a.
Proof. intros [S1 S2 S3] [A1 A2 A3 A4 A5 A6]. split; rewrite ?S2, ?S3; done. Qed.

Lemma asks_granted m a k fd k' : asks m a -> bpf_create_map_xattr a k = (Ok fd, k') -> map_granted (K := K) m fd.
Proof. intros [A1 A2 A3 A4 A5 A6] E. unfold bpf_create_map_xattr in E. do 3 eexists. split; [exact E|]. by split_and!. Qed.

Lemma insert_same {A} (l : list A) i x y : l !! i = Some x -> <[i := y]> l !! i = Some y.
Proof using. clear HU Hbtf Hfuel e alloc btf_alloc sys_alloc junk junk_log fuel prep. intros Hi. apply list_lookup_insert_eq. by eapply lookup_lt_Some. Qed.

Lemma set_maps_twice o ms ms' : set_maps (set_maps o ms) ms' = set_maps o ms'.
Proof. done. Qed.

Lemma map_attr_run {A} E (P : A -> LS -> Prop) f o i m n k a :
  maps o !! i = Some m -> o_btf o = o_btf o0 -> (has_btf -> Ub \/ is_Some (m_name m)) -> asks m a ->
  (forall m' a', same_map m m' -> m_fd m' = m_fd m -> asks m a' ->
    runs Ub E P (f a') (set_maps o (<[i := m']> (maps o)), n, k)) ->
  runs Ub E P (let* a := in_obj (map_attr_btf e i a) in f a) (o, n, k).
Proof.
  intros Hi Hb Hname Ha HP. assert (set_maps o (<[i := m]> (maps o)) = o) as Eo by (rewrite list_insert_id by done; by destruct o).
  assert (runs Ub E P (f a) (o, n, k)) as Hsame by (rewrite <- Eo; by apply HP).
  apply run_bind, in_obj_run. unfold map_attr_btf. apply run_bind. cbn [obj fst runs]. unfold runs at 1, obj. cbn [fst].
  destruct (o_btf o) as [b|] eqn:Eb; [|by apply run_ret].
  assert has_btf as Hhas by (left; congruence). apply run_bind, run_try. unfold bpf_map_find_btf_info.
  apply run_bind. unfold runs at 1, get_map, bind at 1, obj, lift. cbn [fst]. rewrite Hi. cbn [mbind option_bind].
  apply run_bind, run_read; [intros En; destruct (Hname Hhas) as [|[? ?]]; [done|congruence]|]. intros name _. apply run_bind, run_pure.
  - intros E0. destruct (HU Hhas) as [|Hs]; [done|exfalso]. unfold btf_sound in Hs. rewrite <- Hb in Hs. destruct Hs as (ds & strs & Rb & Hd & Hst & _).
    destruct (map_kv_tids_run e ds strs b name (def_key_size (m_def m)) (def_value_size (m_def m)) Rb Hd Hst) as (r & Er & _). congruence.
  - intros err _. by apply run_ret.
  - intros [kt vt] _. unfold put_map, upd. apply run_modify. cbn [fst snd]. apply run_bind.
    unfold runs at 1, get_map, bind at 1, obj, lift. cbn [fst set_maps maps]. rewrite (insert_same _ _ _ _ Hi). cbn [mbind option_bind].
    apply run_ret, HP; [by split|done|]. by destruct Ha.
Qed.

Lemma create_map_run {A} E (P : A -> LS -> Prop) f o i m n k a :
  maps o !! i = Some m -> asks m a ->
  (forall r a' m' k', same_map m m' -> m_fd m' = m_fd m -> opened k r k' ->
    (forall fd, r = Ok fd -> map_granted (K := K) m fd) ->
    runs Ub E P (f (r, a')) (set_maps o (<[i := m']> (maps o)), n, k')) ->
  runs Ub E P (let* ra := create_map i a in f ra) (o, n, k).
Proof using All.
  intros Hi Ha HP. assert (set_maps o (<[i := m]> (maps o)) = o) as Eo by (rewrite list_insert_id by done; by destruct o).
  apply run_bind. unfold create_map. apply run_bind. unfold runs at 1, sys.
  destruct (bpf_create_map_xattr a k) as [r k1] eqn:E1. pose proof (create_map_opened _ _ _ _ E1) as Ho. destruct r as [fd|errno].
  - apply run_ret. rewrite <- Eo. apply HP; [by split|done|done|]. intros fd' [= <-]. by eapply asks_granted.
  - destruct (ca_btf_key_type_id a =? 0); [apply run_ret; rewrite <- Eo; by apply HP|].
    apply (map_state _ _ _ _ _ _ m); [done|]. apply put_map_state, run_bind. unfold runs at 1, sys.
    destruct (bpf_create_map_xattr (set_ca_btf a 0 0 0) k1) as [r k2] eqn:E2. pose proof (create_map_opened _ _ _ _ E2) as Ho2.
    apply run_ret, HP; [by split|done|by eapply opened_after|]. intros fd ->. eapply asks_granted; [|exact E2]. by destruct Ha.
Qed.

Lemma close_maps_run U E (P : unit -> LS -> Prop) R' b : forall a o n k,
  holds R R' (own o) k -> (a + b <= length (maps o))%nat ->
  (forall ms k', length ms = length (maps o) -> holds R R' (own (set_maps o ms)) k' ->
    (forall j m, ms !! j = Some m -> (a <= j < a + b)%nat -> m_fd m = -1) ->
    (forall j, (j < a)%nat -> ms !! j = maps o !! j) -> P tt (set_maps o ms, n, k')) ->
  runs U E P (each close_map (seq a b)) (o, n, k).
Proof using H0 Hbtf.
  clear HU Hfuel e alloc btf_alloc sys_alloc junk junk_log fuel prep.
  induction b as [|b IH]; intros a o n k Hh Hab HP; cbn [seq each].
  - apply run_ret. replace (o, n, k) with (set_maps o (maps o), n, k) by (by destruct o). apply HP; [done|by destruct o| |done]. intros. lia.
  - destruct (lookup_lt_is_Some_2 (maps o) a ltac:(lia)) as [m Hm]. apply run_bind. unfold close_map.
    apply (map_state _ _ _ _ _ _ m); [done|]. apply zclose_state, put_map_last.
    destruct (own_map o a m Hm) as (rest & Ho & Ho'). rewrite Ho in Hh. apply holds_close in Hh.
    apply IH; [rewrite Ho', nonneg_one; exact Hh|cbn; rewrite length_insert; lia|].
    intros ms k' Hl Hh' Hc Hu. cbn [set_maps maps] in Hl, Hu. rewrite length_insert in Hl. apply HP; [done|done| |].
    + intros j mj Hj Hr. destruct (decide (j = a)) as [->|]; [|apply (Hc j mj Hj); lia].
      rewrite Hu, (insert_same _ _ _ _ Hm) in Hj by lia. injection Hj as <-. done.
    + intros j Hj. rewrite Hu by lia. apply list_lookup_insert_ne. lia.
Qed.

Definition created_upto (o : bpf_object) (i : nat) (ms : list bpf_map) : Prop :=
  length ms = length (maps o) /\
  forall j m, maps o !! j = Some m -> exists m', ms !! j = Some m' /\
    (if (j <? i)%nat then map_created (K := K) m m' else m' = m).

Lemma created_step o i m m' ms ms' : created_upto o i ms -> maps o !! i = Some m -> map_created (K := K) m m' ->
  ms' = <[i := m']> ms -> created_upto o (S i) ms'.
Proof.
  intros [Hl Hms] Hi Hc ->. split; [by rewrite length_insert|]. intros j mj Hj. destruct (Hms j mj Hj) as (x & Hx & Hcx).
  destruct (decide (j = i)) as [->|Hne].
  - exists m'. split; [by eapply insert_same|]. rewrite (proj2 (Nat.ltb_lt i (S i))) by lia. congruence.
  - exists x. split; [by rewrite list_lookup_insert_ne|]. destruct (Nat.ltb_spec j i), (Nat.ltb_spec j (S i)); try lia; done.
Qed.

Lemma create_maps_run o n : o_btf o = o_btf o0 -> (has_btf -> Ub \/ Forall (fun m => is_Some (m_name m)) (maps o)) ->
  Forall (prog_fine Ub) (programs o) -> forall todo i a ms k,
  created_upto o i ms -> holds R R (own (set_maps o ms)) k -> (i + todo = length (maps o))%nat ->
  lruns (fun _ s => exists ms k', s = (set_maps o ms, n, k') /\ inv s /\ created_upto o (length (maps o)) ms)
    (create_maps e a i todo) (set_maps o ms, n, k).
Proof using All.
  intros Hb Hnames Hpf. assert (forall ms k, holds R R (own (set_maps o ms)) k -> inv (set_maps o ms, n, k)) as Hinv by (intros ms k Hh; split; [exact Hh|exact Hb|exact Hpf]).
  induction todo as [|todo IH]; intros i a ms k Hup Hh Hi; cbn [create_maps].
  { apply run_ret. exists ms, k. split; [done|]. split; [by apply Hinv|]. by replace (length (maps o)) with i by lia. }
  destruct (lookup_lt_is_Some_2 (maps o) i ltac:(lia)) as [m Hm].
  assert (ms !! i = Some m) as Hmi by (destruct (proj2 Hup i m Hm) as (x & Hx & Hcx); rewrite Nat.ltb_irrefl in Hcx; congruence).
  apply obj_state. apply (map_state _ _ _ _ _ _ m); [done|].
  destruct (Z.leb_spec 0 (m_fd m)) as [Hfd|Hfd].
  { apply (IH _ _ ms); [|done|lia]. eapply (created_step _ _ m m); [done|done|split; auto; lia|by rewrite list_insert_id]. }
  eapply (map_attr_run _ _ _ _ i m); [done|done| |by split|].
  { intros Hhas. destruct (Hnames Hhas) as [|Hn]; [by left|right]. exact (proj1 (Forall_lookup _ _) Hn i m Hm). }
  intros m1 a1 [S1 S2 S3] Sf Ha1. rewrite set_maps_twice. cbn [set_maps maps].
  pose proof (insert_same ms i m m1 Hmi) as Hm1.
  eapply (create_map_run _ _ _ _ i m1); [exact Hm1|eapply asks_same; [|exact Ha1]; by split|]. intros r a2 m2 k' [T1 T2 T3] Tf Ho Hg. rewrite set_maps_twice. cbn [set_maps maps].
  rewrite list_insert_insert_eq. pose proof (insert_same ms i m m2 Hmi) as Hm2. apply (map_state _ _ _ _ _ _ m2); [exact Hm2|]. cbn [fst snd].
  destruct (own_map (set_maps o ms) i m Hmi) as (rest & Eo & Eo'). cbn [set_maps maps] in Eo, Eo'.
  rewrite Eo, nonneg_one in Hh. destruct (Z.leb_spec 0 (m_fd m)); [lia|]. cbn [app] in Hh.
  destruct r as [fd|errno]; apply put_map_state; rewrite set_maps_twice; cbn [set_maps maps]; rewrite list_insert_insert_eq.
  - apply IH; [| |lia].
    + eapply (created_step _ _ m); [done|done| |done]. split; cbn; [congruence|congruence|by destruct Ho|lia|].
      intros _. specialize (Hg fd eq_refl). destruct Hg as (b & k1 & k2 & Eg & G). exists b, k1, k2. split; [done|]. rewrite S2, S3 in G. exact G.
    + setoid_rewrite Eo'. by eapply holds_open.
  - apply run_bind. apply (close_maps_run _ _ _ R).
    + setoid_rewrite Eo'. rewrite nonneg_one. cbn [app m_fd set_m_fd]. by eapply holds_same.
    + cbn. rewrite length_insert. destruct Hup. lia.
    + intros ms' k2 _ Hh2 _ _. apply run_fail, inv_failed. rewrite set_maps_twice. by apply Hinv.
Qed.

(** *** Programs *)

Lemma attr_info (i : prog_info) :
  info_fine i \/ Ub -> info_ok (info_of i) /\ 0 <= ia_rec_size (info_of i) \/ Ub.
Proof. intros [[]|]; [by left|by right]. Qed.

Lemma load_failed_run {A} E (P : A -> LS -> Prop) f la log_buf text o n k :
  info_ok (la_func_info la) /\ 0 <= ia_rec_size (la_func_info la) \/ Ub ->
  info_ok (la_line_info la) /\ 0 <= ia_rec_size (la_line_info la) \/ Ub ->
  (forall err n' k', open_fds k' = open_fds k -> E err (o, n', k')) ->
  runs Ub E P (let* fd := load_failed sys_alloc junk_log fuel la log_buf text in f fd) (o, n, k).
Proof using All.
  intros Hf Hl HE. apply run_bind. unfold load_failed. destruct (_ && _); [by apply HE|]. destruct (_ <=? _); [by apply HE|].
  apply run_bind. destruct (_ =? _); [by apply HE|]. apply load_xattr_run; [exact Hf|exact Hl|].
  intros [fd|errno] t k1 Ho _; cbn [fst]; [|by apply HE]. apply run_bind. cbn. apply HE. change (sys_close fd k1) with (sys_close fd k1).
  rewrite <- (closed_opened _ _ _ Ho). unfold closed. by rewrite (proj2 (Z.leb_le _ _) (proj1 Ho)).
Qed.

Lemma load_program_run {A} E (P : A -> LS -> Prop) f p insns lic kv o n k :
  prog_fine Ub p ->
  (forall err n' k', open_fds k' = open_fds k -> E err (o, n', k')) ->
  (forall fd n' k' code, insns = Some code -> code <> [] -> opened k (Ok fd) k' ->
    granted (K := K) (load_attr o p code lic kv) fd -> runs Ub E P (f fd) (o, n', k')) ->
  runs Ub E P (let* fd := load_program alloc sys_alloc junk_log fuel p insns lic kv in f fd) (o, n, k).
Proof using All.
  intros [_ Hf Hl] HE HP. apply run_bind. unfold load_program. apply obj_state.
  destruct insns as [[|i code]|]; [by apply HE| |by apply HE]. apply run_bind, in_obj_run, run_try.
  assert (forall log_buf n', runs Ub E (fun fd => runs Ub E P (f fd))
    (let* r := load_xattr sys_alloc junk_log fuel (load_attr o p (i :: code) lic kv) log_buf BPF_LOG_BUF_SIZE in
     match r.1 with Ok fd => ret fd | Err _ => load_failed sys_alloc junk_log fuel (load_attr o p (i :: code) lic kv) log_buf r.2 end)
    (o, n', k)) as Hgo.
  { intros log_buf n'. apply load_xattr_run; [by apply attr_info|by apply attr_info|]. intros [fd|errno] t k1 Ho Hg; cbn [fst snd].
    - apply run_ret. eapply HP; [done|done|exact Ho|by apply Hg].
    - pose proof (load_failed_run E P f (load_attr o p (i :: code) lic kv) log_buf t o (S n') k1) as Hr.
      unfold runs in Hr |- *. unfold bind in Hr.
      assert (forall err n' k', open_fds k' = open_fds k1 -> E err (o, n', k')) as HE' by (intros; apply HE; cbn in Ho; congruence).
      specialize (Hr (attr_info _ Hf) (attr_info _ Hl) HE').
      destruct (load_failed _ _ _ _ _ _ _) as [[[a|err] s]|]; exact Hr. }
  unfold malloc, runs at 1. cbn [snd]. destruct (alloc n); apply Hgo.
Qed.

(** A program not loaded: with a preprocessor its instances are all empty. *)
Definition fresh_instances (p : bpf_program) : Prop :=
  match p_instances p with
  | None => True
  | Some fds => prep (p_idx p) <> None /\ fds <> [] /\ Forall (fun fd => fd = -1) fds
  end.

Lemma nonneg_empty fds : Forall (fun fd => fd = -1) fds -> nonneg fds = [].
Proof. induction 1 as [|fd fds -> _ IH]; [done|]. unfold nonneg in *. by rewrite filter_cons, decide_False by lia. Qed.

Lemma nonneg_insert l i fd : l !! i = Some (-1) -> nonneg (<[i := fd]> l) ≡ₚ nonneg [fd] ++ nonneg l.
Proof.
  intros Hi. pose proof (lookup_lt_Some _ _ _ Hi) as Hlt. rewrite insert_take_drop by done.
  assert (nonneg l = nonneg (take i l) ++ nonneg (drop (S i) l)) as ->.
  { rewrite <- (take_drop_middle l i (-1) Hi) at 1. by rewrite nonneg_app. }
  rewrite nonneg_app. change (fd :: drop (S i) l) with ([fd] ++ drop (S i) l). rewrite nonneg_app. apply Permutation_app_swap_app.
Qed.

Lemma inv_put o n k n' k' pi p q :
  inv (o, n, k) -> programs o !! pi = Some p -> prog_fine Ub q -> nonneg (instances q) ≡ₚ nonneg (instances p) ->
  open_fds k' = open_fds k -> inv (set_programs o (<[pi := q]> (programs o)), n', k').
Proof using All.
  intros [H1 H2 H3] Hp Hq Hn Hk. cbn [fst snd] in *. destruct (own_prog o pi p Hp) as (rest & Eo & Eo'). split; cbn [fst snd].
  - rewrite Eo', Hn. rewrite Eo in H1. by eapply holds_same.
  - done.
  - by apply Forall_insert.
Qed.

Lemma inv_put_open o n k n' k' pi p q fd :
  inv (o, n, k) -> programs o !! pi = Some p -> prog_fine Ub q -> nonneg (instances q) ≡ₚ nonneg [fd] ++ nonneg (instances p) ->
  opened k (Ok fd) k' -> inv (set_programs o (<[pi := q]> (programs o)), n', k').
Proof using All.
  intros [H1 H2 H3] Hp Hq Hn Hk. cbn [fst snd] in *. destruct (own_prog o pi p Hp) as (rest & Eo & Eo'). split; cbn [fst snd].
  - rewrite Eo', Hn, <- app_assoc. rewrite Eo in H1. by eapply holds_open.
  - done.
  - by apply Forall_insert.
Qed.

(** Program [pi] of [o] with the instances [cur]. *)
Definition with_instances (o : bpf_object) (pi : nat) (p : bpf_program) (cur : list Z) (s : LS) : Prop :=
  exists n k, s = (set_programs o (<[pi := set_p_instances p (Some cur)]> (programs o)), n, k) /\ inv s.

Lemma fine_instances p fds : prog_fine Ub p -> prog_fine Ub (set_p_instances p fds).
Proof. by intros [H1 H2 H3]. Qed.

Section instances.
Context (o : bpf_object) (pi : nat) (p : bpf_program) (Hp : programs o !! pi = Some p) (Hfine : prog_fine Ub p).
Local Abbreviation iruns := (runs Ub (fun _ s => exists cur, with_instances o pi p cur s)).

(** Another instance, with [fd]. *)
Lemma set_instance_run (P : unit -> LS -> Prop) cur n k n' k' i fd :
  inv (set_programs o (<[pi := set_p_instances p (Some cur)]> (programs o)), n, k) -> cur !! i = Some (-1) ->
  (if decide (fd = -1) then open_fds k' = open_fds k else opened k (Ok fd) k') ->
  (with_instances o pi p (<[i := fd]> cur) (set_programs o (<[pi := set_p_instances p (Some (<[i := fd]> cur))]> (programs o)), n', k') ->
   P tt (set_programs o (<[pi := set_p_instances p (Some (<[i := fd]> cur))]> (programs o)), n', k')) ->
  iruns P (in_obj (set_instance pi (Z.of_nat i) fd)) (set_programs o (<[pi := set_p_instances p (Some cur)]> (programs o)), n', k').
Proof using All.
  intros Hinv Hi Hk HP. pose proof (insert_same _ _ _ (set_p_instances p (Some cur)) Hp) as Hq. pose proof (lookup_lt_Some _ _ _ Hi) as Hlt.
  unfold runs, in_obj, set_instance, get_prog, bind, obj, lift. cbn [fst]. change (programs (set_programs o ?ps)) with ps. rewrite Hq. cbn.
  assert (zset cur (Z.of_nat i) fd = Some (<[i := fd]> cur)) as ->.
  { unfold zset. rewrite decide_True by (unfold zlen; lia). by rewrite Nat2Z.id. }
  cbn. rewrite list_insert_insert_eq.
  change (set_programs (set_programs o ?ps) ?qs) with (set_programs o qs). apply HP. do 2 eexists. split; [done|].
  pose proof (nonneg_insert cur i fd Hi) as Hn.
  assert (prog_fine Ub (set_p_instances p (Some (<[i := fd]> cur)))) as Hf by by apply fine_instances.
  replace (<[pi := set_p_instances p (Some (<[i := fd]> cur))]> (programs o)) with
    (<[pi := set_p_instances p (Some (<[i := fd]> cur))]> (<[pi := set_p_instances p (Some cur)]> (programs o))) by apply list_insert_insert_eq.
  change (set_programs o (<[pi := ?q]> ?ps)) with (set_programs (set_programs o ps) (<[pi := q]> (programs (set_programs o ps)))) at 1.
  destruct (decide (fd = -1)) as [->|].
  - eapply inv_put; [exact Hinv|exact Hq|exact Hf|exact Hn|exact Hk].
  - eapply inv_put_open; [exact Hinv|exact Hq|exact Hf|exact Hn|exact Hk].
Qed.

Lemma opened_not_empty k fd k' : opened k (Ok fd) k' -> (if decide (fd = -1) then open_fds k' = open_fds k else opened k (Ok fd) k').
Proof. intros Ho. rewrite decide_False; [done|]. destruct Ho. lia. Qed.

(** The code of one instance is loaded. *)
Lemma load_code_run (P : unit -> LS -> Prop) cur n k i insns :
  inv (set_programs o (<[pi := set_p_instances p (Some cur)]> (programs o)), n, k) -> cur !! i = Some (-1) ->
  (forall fd s, with_instances o pi p (<[i := fd]> cur) s -> instance_loaded (K := K) o p insns fd -> P tt s) ->
  iruns P (let* fd := load_program alloc sys_alloc junk_log fuel (set_p_instances p (Some cur)) insns (license o) (kern_version o) in
    in_obj (set_instance pi (Z.of_nat i) fd)) (set_programs o (<[pi := set_p_instances p (Some cur)]> (programs o)), n, k).
Proof using All.
  intros Hinv Hi HP. apply load_program_run; [by apply fine_instances| |].
  - intros err n' k' Hk. exists cur, n', k'. split; [done|]. destruct Hinv as [H1 H2 H3]. split; [by eapply holds_same|done..].
  - intros fd n' k' code -> Hne Ho Hg. eapply set_instance_run; [exact Hinv|exact Hi|by apply opened_not_empty|].
    intros Hw. apply (HP fd); [exact Hw|]. destruct code; [done|]. split; [by destruct Ho|]. eexists. split; [exact Hg|]. by split_and!.
Qed.

Lemma load_instance_run (P : unit -> LS -> Prop) f cur s i :
  with_instances o pi p cur s -> cur !! i = Some (-1) ->
  (forall fd s, with_instances o pi p (<[i := fd]> cur) s ->
    instance_loaded (K := K) o p (instance_code (Some f) (p_insns p) i) fd -> P tt s) ->
  iruns P (load_instance alloc sys_alloc junk_log fuel pi f (license o) (kern_version o) i) s.
Proof using All.
  intros (n & k & -> & Hinv) Hi HP. unfold load_instance.
  apply (prog_state _ _ _ _ _ _ (set_p_instances p (Some cur))); [by apply (insert_same _ _ p)|]. cbn [p_insns set_p_instances instance_code] in *.
  destruct (f (Z.of_nat i) (p_insns p)) as [[[|ins code]|]|err].
  - eapply set_instance_run; [exact Hinv|exact Hi|done|]. intros Hw. by apply (HP (-1)).
  - eapply load_code_run; [exact Hinv|exact Hi|exact HP].
  - eapply set_instance_run; [exact Hinv|exact Hi|done|]. intros Hw. by apply (HP (-1)).
  - apply run_fail. exists cur, n, k. by split.
Qed.

(** All of them: the first [i] are done. *)
Lemma load_each_run f todo : forall i cur s,
  with_instances o pi p cur s -> (i + todo = length cur)%nat ->
  (forall j fd, cur !! j = Some fd ->
    if (j <? i)%nat then instance_loaded (K := K) o p (instance_code (Some f) (p_insns p) j) fd else fd = -1) ->
  iruns (fun _ s => exists cur', with_instances o pi p cur' s /\ length cur' = length cur /\
      forall j fd, cur' !! j = Some fd -> instance_loaded (K := K) o p (instance_code (Some f) (p_insns p) j) fd)
    (each (load_instance alloc sys_alloc junk_log fuel pi f (license o) (kern_version o)) (seq i todo)) s.
Proof using All.
  induction todo as [|todo IH]; intros i cur s Hw Hl Hcur; cbn [seq each].
  - apply run_ret. exists cur. split; [done|]. split; [done|]. intros j fd Hj. specialize (Hcur j fd Hj).
    pose proof (lookup_lt_Some _ _ _ Hj). by rewrite (proj2 (Nat.ltb_lt j i)) in Hcur by lia.
  - apply run_bind. destruct (lookup_lt_is_Some_2 cur i ltac:(lia)) as [x Hx]. pose proof (Hcur i x Hx) as Hi.
    rewrite Nat.ltb_irrefl in Hi. subst x. eapply load_instance_run; [exact Hw|exact Hx|]. intros fd s' Hw' Hg.
    rewrite <- (length_insert cur i fd). apply IH; [exact Hw'|rewrite length_insert; lia|]. intros j fd' Hj.
    destruct (decide (j = i)) as [->|Hne].
    + rewrite (insert_same _ _ _ _ Hx) in Hj. injection Hj as <-. by rewrite (proj2 (Nat.ltb_lt i (S i))) by lia.
    + rewrite list_lookup_insert_ne in Hj by done. specialize (Hcur j fd' Hj).
      destruct (Nat.ltb_spec j i), (Nat.ltb_spec j (S i)); try lia; done.
Qed.

Lemma load_instances_run cur s :
  with_instances o pi p cur s -> cur <> [] -> Forall (fun fd => fd = -1) cur -> (prep (p_idx p) = None -> length cur = 1%nat) ->
  iruns (fun _ s => exists cur', with_instances o pi p cur' s /\ length cur' = length cur /\
      forall j fd, cur' !! j = Some fd -> instance_loaded (K := K) o p (instance_code (prep (p_idx p)) (p_insns p) j) fd)
    (load_instances alloc sys_alloc junk_log fuel prep pi (license o) (kern_version o)) s.
Proof using All.
  intros Hw Hne Hall Hone. rewrite Forall_lookup in Hall. pose proof Hw as (n & k & -> & Hinv). unfold load_instances.
  apply (prog_state _ _ _ _ _ _ (set_p_instances p (Some cur))); [by apply (insert_same _ _ p)|]. cbn [p_idx p_insns p_instances set_p_instances].
  destruct (prep (p_idx p)) as [f|].
  - apply run_bind, in_obj_run, (run_lift _ _ _ _ cur); [done|]. apply load_each_run; [done|done|]. intros j fd Hj. by apply (Hall j).
  - specialize (Hone eq_refl). destruct cur as [|x [|]]; try done. assert (x = -1) as -> by by apply (Hall 0%nat).
    change 0 with (Z.of_nat 0). eapply load_code_run; [exact Hinv|done|]. intros fd s Hw' Hg. cbn in Hw'. exists [fd].
    split; [done|]. split; [done|]. intros [|j] fd' Hj; [|done]. injection Hj as <-. exact Hg.
Qed.

(** The instructions are freed after the attempt. *)
Lemma free_insns_run (Q : LS -> Prop) (c : ST LS unit) cur s :
  with_instances o pi p cur s ->
  (forall n k, inv (set_programs o (<[pi := free_insns (set_p_instances p (Some cur))]> (programs o)), n, k) ->
    lruns (fun _ => Q) c (set_programs o (<[pi := free_insns (set_p_instances p (Some cur))]> (programs o)), n, k)) ->
  lruns (fun _ => Q) (let* p := in_obj (get_prog pi) in let* _ := in_obj (put_prog pi (free_insns p)) in c) s.
Proof using All.
  intros (n & k & -> & Hinv) Hc. pose proof (insert_same _ _ _ (set_p_instances p (Some cur)) Hp) as Hq.
  apply (prog_state _ _ _ _ _ _ (set_p_instances p (Some cur))); [exact Hq|]. apply put_prog_state.
  assert (<[pi := free_insns (set_p_instances p (Some cur))]> (<[pi := set_p_instances p (Some cur)]> (programs o)) =
    <[pi := free_insns (set_p_instances p (Some cur))]> (programs o)) as Ei by apply list_insert_insert_eq.
  change (programs (set_programs o ?ps)) with ps. change (set_programs (set_programs o ?ps) ?qs) with (set_programs o qs).
  rewrite Ei. apply Hc. rewrite <- Ei.
  eapply (inv_put (set_programs o (<[pi := set_p_instances p (Some cur)]> (programs o))) n k n k pi); [exact Hinv|exact Hq| |done|done].
  by destruct Hfine as [F1 F2 F3].
Qed.

Lemma bpf_program__load_run n k :
  inv (o, n, k) -> fresh_instances p ->
  lruns (fun _ s => exists p' n' k', s = (set_programs o (<[pi := p']> (programs o)), n', k') /\ inv s /\
      program_loaded (K := K) prep o p p')
    (bpf_program__load alloc sys_alloc junk_log fuel prep pi (license o) (kern_version o)) (o, n, k).
Proof using All.
  intros Hinv Hfr. unfold bpf_program__load. apply (prog_state _ _ _ _ _ _ p); [done|].
  assert (forall cur s, with_instances o pi p cur s -> cur <> [] -> Forall (fun fd => fd = -1) cur ->
    (prep (p_idx p) = None -> length cur = 1%nat) ->
    lruns (fun _ s => exists p' n' k', s = (set_programs o (<[pi := p']> (programs o)), n', k') /\ inv s /\
        program_loaded (K := K) prep o p p')
      (let* r := try (load_instances alloc sys_alloc junk_log fuel prep pi (license o) (kern_version o)) in
       let* p := in_obj (get_prog pi) in
       let* _ := in_obj (put_prog pi (free_insns p)) in
       match r with Ok _ => ret tt | Err err => fail err end) s) as Hrest.
  { intros cur s Hw Hne Hall Hone.
    apply run_bind, run_try. eapply run_impl; [by apply (load_instances_run cur)|done| |].
    - intros err s' (cur' & Hw'). eapply free_insns_run; [exact Hw'|]. intros n' k' Hinv'. by apply run_fail, inv_failed.
    - intros [] s' (cur' & Hw' & Hl & Hg). eapply free_insns_run; [exact Hw'|]. intros n' k' Hinv'. apply run_ret.
      do 3 eexists. split; [done|]. split; [exact Hinv'|]. split; [done|done|]. exists cur'. split; [done|].
      split; [destruct cur; [done|by destruct cur']|]. split; [|exact Hg]. intros Hn. rewrite Hl. by apply Hone. }
  unfold fresh_instances in Hfr. apply run_bind. destruct (p_instances p) as [fds|] eqn:Ei.
  - destruct Hfr as (Hpr & Hne & Hall). apply run_ret, (Hrest fds); [|done|done|done]. exists n, k. split; [|done].
    assert (set_p_instances p (Some fds) = p) as -> by (rewrite <- Ei; by destruct p). by rewrite list_insert_id, set_programs_same.
  - destruct (prep (p_idx p)) as [f|] eqn:Ep; [by apply run_fail, inv_failed|].
    apply in_obj_run, run_bind. unfold runs at 1, malloc. cbn [snd fst].
    assert (inv (o, S n, k)) as Hinv' by by eapply (inv_keep o o n).
    destruct (alloc n); [|by apply inv_failed]. apply run_modify. cbn [fst snd].
    apply (Hrest [-1]); [|done|by repeat constructor|done]. do 2 eexists. split; [done|].
    eapply (inv_put o n k); [exact Hinv|exact Hp|by apply fine_instances| |done]. unfold instances. by rewrite Ei.
Qed.
End instances.

Definition loaded_upto (o : bpf_object) (i : nat) (ps : list bpf_program) : Prop :=
  length ps = length (programs o) /\
  forall j p, programs o !! j = Some p -> exists p', ps !! j = Some p' /\
    (if (j <? i)%nat && negb (bpf_program__is_function_storage o p) then program_loaded (K := K) prep o p p' else p' = p).

Lemma load_progs_run o n k :
  inv (o, n, k) -> Forall fresh_instances (programs o) ->
  lruns (fun _ s => exists ps n' k', s = (set_programs o ps, n', k') /\ inv s /\ loaded_upto o (length (programs o)) ps)
    (bpf_object__load_progs alloc sys_alloc junk_log fuel prep) (o, n, k).
Proof using All.
  intros Hinv Hfr. unfold bpf_object__load_progs. apply obj_state.
  assert (forall todo i ps n k, (i + todo = length (programs o))%nat -> inv (set_programs o ps, n, k) -> loaded_upto o i ps ->
    lruns (fun _ s => exists ps n' k', s = (set_programs o ps, n', k') /\ inv s /\ loaded_upto o (length (programs o)) ps)
      (each (load_prog alloc sys_alloc junk_log fuel prep) (seq i todo)) (set_programs o ps, n, k)) as Hloop.
  { clear n k Hinv. induction todo as [|todo IH]; intros i ps n k Hi Hinv [Hl Hps]; cbn [seq each].
    - apply run_ret. exists ps, n, k. split; [done|]. split; [done|]. by replace (length (programs o)) with i by lia.
    - destruct (lookup_lt_is_Some_2 (programs o) i ltac:(lia)) as [p Hp]. destruct (Hps i p Hp) as (q & Hq & Eq).
      rewrite Nat.ltb_irrefl in Eq. cbn [andb] in Eq. subst q. apply run_bind. unfold load_prog. apply obj_state.
      apply (prog_state _ _ _ _ _ _ p); [exact Hq|].
      change (bpf_program__is_function_storage (set_programs o ps) p) with (bpf_program__is_function_storage o p).
      destruct (bpf_program__is_function_storage o p) eqn:Efs.
      + apply run_ret, IH; [lia|done|]. split; [done|]. intros j pj Hj. destruct (Hps j pj Hj) as (x & Hx & Hcx). exists x. split; [done|].
        destruct (Nat.ltb_spec j i), (Nat.ltb_spec j (S i)); try lia; try done.
        assert (j = i) as -> by lia. assert (pj = p) as -> by congruence. by rewrite Efs.
      + eapply run_mono; [eapply (bpf_program__load_run (set_programs o ps) i p Hq); [|exact Hinv|]|].
        * exact (proj1 (Forall_lookup _ _) (iv_progs _ _ Hinv) i p Hq).
        * exact (proj1 (Forall_lookup _ _) Hfr i p Hp).
        * intros [] s (p' & n' & k' & -> & Hinv' & Hlo). apply (IH (S i) (<[i := p']> ps)); [lia|exact Hinv'|].
          split; [by rewrite length_insert|]. intros j pj Hj. destruct (decide (j = i)) as [->|Hne].
          -- exists p'. split; [by eapply insert_same|]. assert (pj = p) as -> by congruence.
             rewrite Efs, (proj2 (Nat.ltb_lt i (S i))) by lia. destruct Hlo as [L1 L2 L3]. split; [exact L1|exact L2|exact L3].
          -- rewrite list_lookup_insert_ne by done. destruct (Hps j pj Hj) as (x & Hx & Hcx). exists x. split; [done|].
             destruct (Nat.ltb_spec j i), (Nat.ltb_spec j (S i)); try lia; done. }
  pose proof (Hloop (length (programs o)) 0%nat (programs o) n k eq_refl) as HL. rewrite set_programs_same in HL.
  apply HL; [done|]. split; [done|]. intros j p Hj. by exists p.
Qed.

(** *** Unloading *)

(** What is left open: all but perhaps the descriptor of the BTF information. *)
Definition rest_of (R' : gset Z) : Prop :=
  R' = R \/ exists b, o_btf o0 = Some b /\ 0 <= fd b /\ R' = R ∖ {[fd b]}.

Lemma rest_of_close R' b : rest_of R' -> o_btf o0 = Some b -> 0 <= fd b -> rest_of (R' ∖ {[fd b]}).
Proof using. clear HU Hbtf Hfuel e alloc btf_alloc sys_alloc junk junk_log fuel prep.
  intros [->|(b' & Eb & Hf & ->)] Hb Hfd; right; exists b; (split; [done|]); (split; [done|]); [done|].
  assert (b' = b) as -> by congruence. apply set_eq. intros x. rewrite !elem_of_difference. tauto.
Qed.

Lemma close_fds_run U E (P : unit -> LS -> Prop) R' l fds : forall s k,
  holds R R' (nonneg fds ++ l) k -> (forall k', holds R R' l k' -> P tt (s, k')) -> runs U E P (each zclose fds) (s, k).
Proof using H0 Hbtf.
  clear HU Hfuel e alloc btf_alloc sys_alloc junk junk_log fuel prep.
  induction fds as [|x fds IH]; intros s k Hh HP; cbn [each]; [by apply run_ret, HP|].
  apply zclose_state, IH; [|done]. apply (holds_close R R'). change (x :: fds) with ([x] ++ fds) in Hh. by rewrite nonneg_app, <- app_assoc in Hh.
Qed.

Definition program_unloaded (p : bpf_program) : Prop := p_instances p = None /\ p_btf_fd p = -1.

Lemma unload_prog_run U E (P : unit -> LS -> Prop) R' o pi p n k :
  programs o !! pi = Some p -> btf_fine p -> rest_of R' -> holds R R' (own o) k ->
  (forall R'' k', rest_of R'' -> holds R R'' (own (set_programs o (<[pi := unloaded_program p]> (programs o)))) k' ->
    P tt (set_programs o (<[pi := unloaded_program p]> (programs o)), n, k')) ->
  runs U E P (bpf_program__unload pi) (o, n, k).
Proof using H0 Hbtf.
  clear HU Hfuel e alloc btf_alloc sys_alloc junk junk_log fuel prep.
  intros Hp Hfine HR Hh HP. destruct (own_prog o pi p Hp) as (rest & Eo & Eo'). rewrite Eo in Hh. unfold bpf_program__unload.
  apply (prog_state _ _ _ _ _ _ p); [done|]. apply run_bind. apply (close_fds_run _ _ _ R' rest); [exact Hh|]. intros k1 H1.
  apply zclose_state, put_prog_last. unfold closed. destruct (Z.leb_spec 0 (p_btf_fd p)) as [Hfd|Hfd].
  - destruct Hfine as [Eb|(b & Eb & Ef)]; [lia|]. rewrite Ef. eapply HP; [eapply rest_of_close; [done|done|lia]|]. rewrite Eo'. cbn [app].
    apply holds_close_other; [|done]. apply Hbtf; [done|lia].
  - eapply HP; [exact HR|]. by rewrite Eo'.
Qed.

Lemma unload_progs_run U E (P : unit -> LS -> Prop) todo : forall i R' o n k,
  (i + todo = length (programs o))%nat -> Forall btf_fine (programs o) -> rest_of R' -> holds R R' (own o) k ->
  (forall ps R'' k', rest_of R'' -> holds R R'' (own (set_programs o ps)) k' -> length ps = length (programs o) ->
    (forall j p, ps !! j = Some p -> (i <= j)%nat -> program_unloaded p) -> (forall j, (j < i)%nat -> ps !! j = programs o !! j) ->
    P tt (set_programs o ps, n, k')) ->
  runs U E P (each bpf_program__unload (seq i todo)) (o, n, k).
Proof using H0 Hbtf.
  clear HU Hfuel e alloc btf_alloc sys_alloc junk junk_log fuel prep.
  induction todo as [|todo IH]; intros i R' o n k Hi Hfine HR Hh HP; cbn [seq each].
  - apply run_ret. pose proof (HP (programs o) R' k) as HP'. rewrite set_programs_same in HP'. apply HP'; try done.
    intros j p Hj Hle. apply lookup_lt_Some in Hj. lia.
  - destruct (lookup_lt_is_Some_2 (programs o) i ltac:(lia)) as [p Hp]. apply run_bind.
    pose proof (proj1 (Forall_lookup _ _) Hfine i p Hp) as Hf.
    eapply unload_prog_run; [exact Hp|exact Hf|exact HR|exact Hh|]. intros R1 k1 HR1 Hh1.
    eapply IH; [cbn; rewrite length_insert; lia| |exact HR1|exact Hh1|].
    + apply Forall_insert; [done|]. by left.
    + intros ps R2 k2 HR2 Hh2 Hl Hu Hsame. cbn [set_programs programs] in Hl, Hsame. rewrite length_insert in Hl. eapply HP; [exact HR2|exact Hh2|done| |].
      * intros j q Hj Hle. destruct (decide (j = i)) as [->|]; [|apply (Hu j q Hj); lia].
        rewrite Hsame, (insert_same _ _ _ _ Hp) in Hj by lia. by injection Hj as <-.
      * intros j Hj. rewrite Hsame by lia. apply list_lookup_insert_ne. lia.
Qed.

Definition object_unloaded (o : bpf_object) : Prop :=
  Forall (fun m => m_fd m = -1) (maps o) /\ Forall program_unloaded (programs o).

Lemma own_unloaded o : object_unloaded o -> own o = [].
Proof.
  intros [Hm Hp]. apply nonneg_empty. apply List.Forall_app. split; [by apply List.Forall_map|].
  assert (concat (List.map instances (programs o)) = []) as ->; [|done]. induction Hp as [|p ps [E _] _ IH]; [done|].
  cbn. unfold instances at 1. by rewrite E.
Qed.

Lemma unload_run U E (P : unit -> LS -> Prop) R' o n k :
  Forall btf_fine (programs o) -> rest_of R' -> holds R R' (own o) k ->
  (forall ms ps R'' k', rest_of R'' -> open_fds k' = R'' -> object_unloaded (set_programs (set_maps o ms) ps) ->
    P tt (set_programs (set_maps o ms) ps, n, k')) ->
  runs U E P bpf_object__unload (o, n, k).
Proof using H0 Hbtf.
  clear HU Hfuel e alloc btf_alloc sys_alloc junk junk_log fuel prep.
  intros Hf HR Hh HP. unfold bpf_object__unload. apply obj_state, run_bind.
  apply (close_maps_run _ _ _ R'); [done|done|]. intros ms k1 Hl H1 Hc _.
  apply (unload_progs_run _ _ _ _ _ R'); [done|done|done|done|]. intros ps R2 k2 HR2 H2 _ Hu _.
  assert (object_unloaded (set_programs (set_maps o ms) ps)) as Hun.
  { split; apply Forall_lookup; cbn.
    - intros j m Hj. apply (Hc j m Hj). apply lookup_lt_Some in Hj. lia.
    - intros j p Hj. apply (Hu j p Hj). lia. }
  eapply HP; [exact HR2| |exact Hun]. rewrite (own_unloaded _ Hun) in H2. by eapply holds_nil.
Qed.
End rules.

Lemma unload_again_run {K} `{Kernel bpf_insn K} U E (P : unit -> bpf_object * nat * K -> Prop) todo : forall i o n k,
  Forall program_unloaded (programs o) -> (i + todo = length (programs o))%nat ->
  (forall ps, P tt (set_programs o ps, n, k)) -> runs U E P (each bpf_program__unload (seq i todo)) (o, n, k).
Proof.
  induction todo as [|todo IH]; intros i o n k Hu Hi HP; cbn [seq each].
  - apply run_ret. specialize (HP (programs o)). by rewrite set_programs_same in HP.
  - destruct (lookup_lt_is_Some_2 (programs o) i ltac:(lia)) as [p Hp]. destruct (proj1 (Forall_lookup _ _) Hu i p Hp) as [E1 E2].
    apply run_bind. unfold bpf_program__unload. apply (prog_state _ _ _ _ _ _ p); [done|]. rewrite E1. apply run_bind, run_ret.
    apply zclose_state, put_prog_last. rewrite E2. apply IH; [|cbn; rewrite length_insert; lia|intros ps; apply HP].
    by apply Forall_insert.
Qed.

(** ** The theorems *)

Section theorems.
Context {K : Type} `{KernelLaws bpf_insn K}.
Context (e : endian) (alloc : nat -> bool) (btf_alloc : Z -> bool) (sys_alloc : nat -> nat -> Z -> bool)
  (junk : Z) (junk_log : nat -> bool) (fuel : nat) (prep : Z -> option preprocessor).

(** A program that can be loaded. *)
Record load_ready (p : bpf_program) : Prop := {
  lr_fresh : fresh_instances prep p;
  lr_btf_fd : p_btf_fd p = -1;
  lr_func : info_fine (p_func_info p);
  lr_line : info_fine (p_line_info p)
}.

(** Every map has a descriptor, every program but the storage of functions has
    one for each instance, loaded from its linked code.  Which programs there
    are, under which names, has not changed. *)
Record object_loaded (o o' : bpf_object) : Prop := {
  ol_same : o_efile o' = o_efile o /\ has_pseudo_calls o' = has_pseudo_calls o /\ length (programs o') = length (programs o) /\ length (maps o') = length (maps o);
  ol_named i p : programs o !! i = Some p ->
    exists p', programs o' !! i = Some p' /\ p_idx p' = p_idx p /\ p_section_name p' = p_section_name p;
  ol_maps i m : maps o !! i = Some m -> exists m', maps o' !! i = Some m' /\ map_created (K := K) m m';
  ol_programs i p : programs o !! i = Some p -> bpf_program__is_function_storage o p = false ->
    exists p' fds, programs o' !! i = Some p' /\ p_instances p' = Some fds /\ fds <> [] /\
      (prep (p_idx p) = None -> length fds = 1%nat) /\
      forall j fd, fds !! j = Some fd ->
        instance_loaded (K := K) o p (instance_code (prep (p_idx p))
          (Some (linked (List.map m_fd (maps o')) (text_at (set_maps o (maps o')) i) p)) j) fd
}.

Lemma relocatable_maps o o' : programs o' = programs o -> has_pseudo_calls o' = has_pseudo_calls o ->
  length (maps o') = length (maps o) -> relocatable o -> relocatable o'.
Proof.
  intros Ep Eh El [H1 H2]. split; rewrite Ep; [|done]. eapply List.Forall_impl; [|exact H1]. intros p [(insns & E & Hne & Hrs) P2 P3].
  split; [|by rewrite Eh|done]. exists insns. split; [done|]. split; [done|]. intros rs Er. eapply List.Forall_impl; [|by apply Hrs].
  intros r. unfold relo_ok, zlen. by rewrite El.
Qed.

Lemma loaded_as_same (o1 o2 : bpf_object) p1 p2 code fd : same_program p1 p2 -> license o1 = license o2 ->
  kern_version o1 = kern_version o2 -> instance_loaded (K := K) o1 p1 code fd -> instance_loaded (K := K) o2 p2 code fd.
Proof.
  intros [S1 S2 S3 S4 S5 S6 S7] El Ev. unfold instance_loaded, loaded_as. rewrite El, Ev, S5, S7, S3. done.
Qed.

(** Sound information, the way a file that was opened has it. *)
Definition btf_ready (o : bpf_object) : Prop :=
  btf_sound e o /\ Forall no_records (programs o) /\ Forall (fun m => is_Some (m_name m)) (maps o).

Lemma infos_fine x n p : n * len (func_info x) < 2 ^ 32 -> n * len (line_info x) < 2 ^ 32 -> infos x n p ->
  info_fine (p_func_info p) /\ info_fine (p_line_info p).
Proof using.
  clear e alloc btf_alloc sys_alloc junk junk_log fuel prep.
  assert (forall rec l i, l < 2 ^ 32 -> records rec l i -> info_fine i) as Hfine.
  { intros rec l i Hl [H1 Hi]. split; [|done]. destruct Hi as [[_ E]|(bs & E & <- & H3 & H4 & H5)]; [left; exact E|right].
    exists bs. split; [exact E|]. split; [exact H3|]. cbn. split; lia. }
  intros H1 H2 [Hf Hl]. split; [exact (Hfine _ _ _ H1 Hf)|exact (Hfine _ _ _ H2 Hl)].
Qed.

Section load.
Context (o : bpf_object) (n : nat) (k : K) (U : Prop).
Hypothesis Hfuel : forall (a : prog_load_attr bpf_insn) (k : K), exists r k', sys_bpf_prog_load fuel a k = Some (r, k') /\
  0 <= an_func_rec r /\ 0 <= an_line_rec r.
Hypothesis Hreloc : relocatable o.
Hypothesis Hready : Forall load_ready (programs o).
Hypothesis Hnodup : NoDup (own o).
Hypothesis Hopen : forall x, x ∈ own o -> x ∈ open_fds k.
Hypothesis Hbtf : forall b, o_btf o = Some b -> 0 <= fd b -> fd b ∈ open_fds k /\ (fd b ∉ own o).
Hypothesis HU : has_btf o -> U \/ btf_ready o.

(** What is open and not the object's own. *)
Definition others : gset Z := open_fds k ∖ list_to_set (own o).
Local Abbreviation linv := (inv_up_to (K := K) others o U).
Local Abbreviation lfailed := (inv_up_to (K := K) others o True).

Lemma others_btf b : o_btf o = Some b -> 0 <= fd b -> fd b ∈ others.
Proof using All.
  intros Eb Hb. destruct (Hbtf b Eb Hb) as [H1 H2]. unfold others. rewrite elem_of_difference, elem_of_list_to_set. done.
Qed.

Lemma holds_start : holds others others (own o) k.
Proof using Hnodup Hopen.
  clear HU Hbtf Hready Hreloc Hfuel e alloc btf_alloc sys_alloc junk junk_log fuel prep.
  split; [done| |done|].
  - intros x Hx. unfold others. rewrite elem_of_difference, elem_of_list_to_set. tauto.
  - intros x. unfold others. rewrite elem_of_difference, elem_of_list_to_set. split.
    + intros Hx. destruct (decide (x ∈ own o)); tauto.
    + intros [[? _]|?%Hopen]; done.
Qed.

Lemma inv_start n' : linv (set_loaded o true, n', k).
Proof using All.
  split; [exact holds_start|done|]. eapply List.Forall_impl; [|exact Hready]. intros p [L1 L2 L3 L4]. split; [by left|by left|by left].
Qed.

Lemma sound_or : has_btf o -> U \/ btf_sound e o.
Proof using HU. intros Hh. destruct (HU Hh) as [|[Hs _]]; [by left|by right]. Qed.

(** Programs with information of at most two sections can be loaded. *)
Lemma fine_loads o2 p : o_btf o2 = o_btf o -> o_btf_ext o2 = o_btf_ext o -> with_btf o2 -> fine o2 U 2 p ->
  (info_fine (p_func_info p) \/ U) /\ (info_fine (p_line_info p) \/ U).
Proof using All.
  intros Eb Ex Hw [?|Hf]; [by split; right|]. assert (has_btf o) as Hh by (right; unfold with_btf in *; congruence).
  destruct (sound_or Hh) as [|Hs]; [by split; right|]. unfold with_btf in Hw. destruct (o_btf_ext o2) as [x|] eqn:Ex2; [|done].
  unfold btf_sound in Hs. destruct (o_btf o) as [b|] eqn:Ebo; [|congruence]. destruct Hs as (ds & strs & _ & _ & _ & Hx).
  destruct (Hx x ltac:(congruence)) as (_ & (? & _ & _ & Hl1) & (? & _ & _ & Hl2)).
  destruct (infos_fine x 2 p) as [Hf1 Hf2]; [lia|lia|by apply Hf|]. by split; left.
Qed.

(** Relocation in the midst of loading. *)
Lemma relocate_inv o2 n2 k2 :
  linv (o2, n2, k2) -> o_btf_ext o2 = o_btf_ext o -> relocatable o2 -> Forall (fresh_instances prep) (programs o2) ->
  (has_btf o -> U \/ Forall no_records (programs o2)) ->
  runs U (fun _ => lfailed)
    (fun _ s => exists ps n', s = (set_programs o2 ps, n', k2) /\ linv s /\ Forall (fresh_instances prep) ps /\
      linked_upto o2 (length (programs o2)) ps)
    (in_obj (bpf_object__relocate e alloc btf_alloc junk)) (o2, n2, k2).
Proof using All.
  intros [I1 I2 I3] Hext Hrel Hfr Hnone. cbn [fst snd] in *. apply in_obj_run.
  assert (with_btf o2 -> has_btf o) as Hhas by (unfold with_btf; rewrite Hext; by right).
  assert (forall V ps n', Forall2 (kept o2) (programs o2) ps ->
    (forall q, q ∈ ps -> with_btf o2 -> (info_fine (p_func_info q) \/ V) /\ (info_fine (p_line_info q) \/ V)) -> (U -> V) ->
    inv_up_to (K := K) others o V (set_programs o2 ps, n', k2)) as Hinv.
  { intros V ps n' Hps Hq HV. split; cbn [fst snd]; [|done|].
    - assert (own (set_programs o2 ps) = own o2) as ->; [|exact I1]. unfold own. cbn. do 3 f_equal. clear -Hps.
      induction Hps as [|p q ps qs [Ek _ _ _] _ IH]; [done|]. cbn. unfold instances at 1 3. by rewrite Ek, IH.
    - cbn. apply Forall_lookup. intros i q Hi. destruct (Forall2_lookup_r _ _ _ _ _ Hps Hi) as (p & Hp & [_ K2 K3 K4]).
      destruct (proj1 (Forall_lookup _ _) I3 i p Hp) as [F1 F2 F3]. pose proof (Hq q (list_elem_of_lookup_2 _ _ _ Hi)) as Hqw. split.
      + destruct K2 as [E|(b & Eb & E)]; [|right; exists b; split; congruence]. unfold btf_fine. by rewrite E.
      + destruct K3 as [->|Hw]; [destruct F2; [by left|right; by apply HV]|by apply Hqw].
      + destruct K4 as [->|Hw]; [destruct F3; [by left|right; by apply HV]|by apply Hqw]. }
  assert (with_btf o2 -> U \/ btf_sound e o2) as HU2.
  { intros Hw. destruct (sound_or (Hhas Hw)) as [|Hs]; [by left|right]. unfold btf_sound in *. by rewrite I2, Hext. }
  assert (Forall (fine o2 U 0) (programs o2)) as Hfine0.
  { destruct (o_btf_ext o2) as [x|] eqn:Ex; [|apply Forall_true; intros p; by apply fine_none].
    destruct Hnone as [|Hn]; [apply Hhas; unfold with_btf; by rewrite Ex|apply Forall_true; by left|].
    eapply List.Forall_impl; [|exact Hn]. intros p. apply no_records_fine. }
  eapply run_impl; [apply run_conj; [by apply relocate_frame|by apply (relocate_object_run e alloc btf_alloc junk o2 Hrel U HU2 Hfine0 n2)]| | |].
  - by intros [_ ?].
  - intros err s [(ps & n' & -> & Hps) _]. apply Hinv; [done| |done]. intros q _ _. by split; right.
  - intros [] s [(ps & n' & -> & Hps) (ps' & n'' & E & Hl & Hf)]. assert (ps' = ps) as -> by (by injection E).
    exists ps, n'. split; [done|]. split; [apply Hinv; [done| |done]|].
    { intros q [i Hi]%list_elem_of_lookup Hw. apply (fine_loads o2); [done|done|done|]. exact (proj1 (Forall_lookup _ _) Hf i q Hi). }
    split; [|done].
    apply Forall_lookup. intros j q Hq. destruct (Forall2_lookup_r _ _ _ _ _ Hps Hq) as (p & Hp & [Ek _ _ _]).
    pose proof (proj1 (Forall_lookup _ _) Hfr j p Hp) as Hj. destruct (proj2 Hl j p Hp) as (q' & Hq' & Hc).
    assert (q' = q) as -> by congruence. rewrite (proj2 (Nat.ltb_lt _ _)) in Hc by (by eapply lookup_lt_Some).
    destruct Hc as ([Ei _ _ _ _ _ _] & _). unfold fresh_instances. rewrite Ek, Ei. exact Hj.
Qed.

Lemma load_passes_run :
  runs U (fun _ => lfailed) (fun _ s => linv s /\ object_loaded o s.1.1)
    (load_passes e alloc btf_alloc sys_alloc junk junk_log fuel prep) (set_loaded o true, n, k).
Proof using All.
  unfold load_passes. pose proof others_btf as Hob.
  eapply run_seq.
  { by apply (probe_run e alloc btf_alloc sys_alloc junk junk_log fuel prep others o Hob Hfuel U sound_or), inv_start. }
  intros [] s (n1 & k1 & Hs & Hinv1).
  assert (exists o1, s = (o1, n1, k1) /\ programs o1 = programs o /\ maps o1 = maps o /\ o_btf o1 = o_btf o /\ o_btf_ext o1 = o_btf_ext o /\
    o_efile o1 = o_efile o /\ has_pseudo_calls o1 = has_pseudo_calls o /\ license o1 = license o /\ kern_version o1 = kern_version o)
    as (o1 & -> & Ep & Em & Eb & Eext & Ef & Eh & El & Ev) by (destruct Hs as [->| ->]; eexists; by split_and!).
  clear Hs. unfold bpf_object__create_maps. eapply run_seq.
  { apply obj_state. pose proof (create_maps_run e alloc btf_alloc sys_alloc junk junk_log fuel prep others o Hob Hfuel U sound_or o1 n1 Eb) as Hc.
    assert (set_maps o1 (maps o1) = o1) as Eo by by destruct o1.
    assert ((o1, n1, k1) = (set_maps o1 (maps o1), n1, k1)) as -> by by rewrite Eo. apply Hc.
    - intros Hh. rewrite Em. destruct (HU Hh) as [|(_ & _ & ?)]; [by left|by right].
    - exact (iv_progs _ _ _ _ Hinv1).
    - split; [done|]. intros j m Hj. by exists m.
    - rewrite Eo. exact (iv_holds _ _ _ _ Hinv1).
    - done. }
  intros [] s (ms & k2 & -> & Hinv2 & [Hl Hms]). eapply run_seq.
  { apply relocate_inv; [exact Hinv2|exact Eext| | |].
    - eapply relocatable_maps; [..|exact Hreloc]; [exact Ep|exact Eh|cbn; congruence].
    - cbn. rewrite Ep. eapply List.Forall_impl; [|exact Hready]. by intros p [].
    - intros Hh. cbn. rewrite Ep. destruct (HU Hh) as [|(_ & ? & _)]; [by left|by right]. }
  intros [] s (ps & n3 & -> & Hinv3 & Hfr & [Hl3 Hlinked]). eapply run_mono.
  { by eapply (load_progs_run e alloc btf_alloc sys_alloc junk junk_log fuel prep others o Hob Hfuel U sound_or). }
  intros [] s (ps' & n4 & k4 & -> & Hinv4 & [Hl4 Hloaded]). split; [exact Hinv4|]. split; cbn [fst].
  - split; [exact Ef|]. split; [exact Eh|]. cbn in Hl3, Hl4 |- *. split; congruence.
  - intros i p Hi. change (programs (set_maps o1 ms)) with (programs o1) in Hlinked. rewrite <- Ep in Hi.
    destruct (Hlinked i p Hi) as (p1 & Hp1 & Hc). rewrite (proj2 (Nat.ltb_lt _ _)) in Hc by (by eapply lookup_lt_Some).
    destruct Hc as (Hsame & _ & _). destruct (Hloaded i p1 Hp1) as (p2 & Hp2 & Hc). exists p2. split; [exact Hp2|].
    rewrite <- (sp_idx _ _ Hsame), <- (sp_section _ _ Hsame). destruct (_ && _); [by destruct Hc|by subst p2].
  - intros i m Hi. rewrite <- Em in Hi. destruct (Hms i m Hi) as (m' & Hm' & Hc).
    rewrite (proj2 (Nat.ltb_lt _ _)) in Hc by (by eapply lookup_lt_Some). by exists m'.
  - intros i p Hi Hs. change (programs (set_maps o1 ms)) with (programs o1) in Hlinked. rewrite <- Ep in Hi.
    destruct (Hlinked i p Hi) as (p1 & Hp1 & Hc). rewrite (proj2 (Nat.ltb_lt _ _)) in Hc by (by eapply lookup_lt_Some).
    destruct Hc as (Hsame & Hcode & _). destruct (Hloaded i p1 Hp1) as (p2 & Hp2 & Hc).
    rewrite (proj2 (Nat.ltb_lt _ _)) in Hc by (by eapply lookup_lt_Some).
    assert (bpf_program__is_function_storage (set_programs (set_maps o1 ms) ps) p1 = false) as E1.
    { unfold bpf_program__is_function_storage in Hs |- *. cbn. by rewrite Ef, Eh, (sp_idx _ _ Hsame). }
    rewrite E1 in Hc. destruct Hc as [_ _ (fds & Hfds & Hne & Hone & Hall)]. exists p2, fds. rewrite (sp_idx _ _ Hsame) in Hone, Hall.
    split; [exact Hp2|]. split; [exact Hfds|]. split; [exact Hne|]. split; [exact Hone|]. intros j fd Hj. specialize (Hall j fd Hj).
    rewrite Hcode in Hall. cbn [set_programs set_maps maps].
    assert (text_at (set_maps o1 ms) i = text_at (set_maps o ms) i) as Et by (unfold text_at, find_prog; cbn; by rewrite Ef, Ep).
    rewrite <- Et. eapply loaded_as_same; [exact Hsame| | |exact Hall]; done.
Qed.
End load.
End theorems.

(** Loading. *)
Lemma object_load_run {K : Type} `{KernelLaws bpf_insn K} e alloc btf_alloc sys_alloc junk junk_log fuel prep o n k (U : Prop) :
  (forall (a : prog_load_attr bpf_insn) (k : K), exists r k', sys_bpf_prog_load fuel a k = Some (r, k') /\
    0 <= an_func_rec r /\ 0 <= an_line_rec r) ->
  loaded o = false -> relocatable o -> Forall (load_ready prep) (programs o) ->
  NoDup (own o) -> (forall x, x ∈ own o -> x ∈ open_fds k) ->
  (forall b, o_btf o = Some b -> 0 <= fd b -> fd b ∈ open_fds k /\ (fd b ∉ own o)) -> (has_btf o -> U \/ btf_ready e o) ->
  runs U
    (fun _ '(o', _, k') => object_unloaded o' /\ o_btf o' = o_btf o /\ rest_of (others o k) o (open_fds k'))
    (fun _ '(o', _, k') => object_loaded (K := K) prep o o' /\ o_btf o' = o_btf o /\ NoDup (own o') /\
      open_fds k' = others o k ∪ list_to_set (own o'))
    (bpf_object__load e alloc btf_alloc sys_alloc junk junk_log fuel prep) (o, n, k).
Proof.
  intros Hfuel Hloaded Hreloc Hready Hnd Hopen Hbtf HU. unfold bpf_object__load. apply obj_state. rewrite Hloaded.
  apply run_bind. cbn. apply run_bind, run_try.
  assert (forall b, o_btf o = Some b -> 0 <= fd b -> fd b ∈ others o k) as Hob.
  { intros b Eb Hb. destruct (Hbtf b Eb Hb). unfold others. by rewrite elem_of_difference, elem_of_list_to_set. }
  eapply run_impl; [by eapply (load_passes_run e alloc btf_alloc sys_alloc junk junk_log fuel prep o n k U)|done| |].
  - intros err [[o' n'] k'] [I1 I2 I3]. cbn [fst snd] in *. apply run_bind.
    apply (unload_run (others o k) o Hob _ _ _ (others o k)); [|by left|done|].
    + eapply List.Forall_impl; [|exact I3]. by intros p [].
    + intros ms ps R k2 HR Ek Hun. apply run_fail. split; [exact Hun|]. split; [exact I2|]. by rewrite Ek.
  - intros [] [[o' n'] k'] [[I1 I2 _] Hl]. cbn [fst snd] in *. split; [exact Hl|]. split; [done|]. split; [exact (hd_nodup _ _ _ _ I1)|].
    apply set_eq. intros x. by rewrite (hd_open _ _ _ _ I1), elem_of_union, elem_of_list_to_set.
Qed.

(** Closing: of the rest [R], which the BTF information belongs to, that may be
    closed already. *)
Definition without_btf (o : bpf_object) (R : gset Z) : gset Z :=
  match o_btf o with Some b => if fd b =? -1 then R else R ∖ {[fd b]} | None => R end.

Lemma object_close_run {K : Type} `{KernelLaws bpf_insn K} R R' o n k :
  (forall b, o_btf o = Some b -> fd b = -1 \/ 0 <= fd b /\ fd b ∈ R) ->
  rest_of R o R' -> holds R R' (own o) k -> Forall (btf_fine o) (programs o) ->
  runs False (fun _ _ => False)
    (fun _ '(o', _, k') => own o' = [] /\ programs o' = [] /\ maps o' = [] /\ open_fds k' = without_btf o R)
    bpf_object__close (o, n, k).
Proof.
  intros Hbtf HR0 Hh Hfine. assert (forall b, o_btf o = Some b -> 0 <= fd b -> fd b ∈ R) as Hob.
  { intros b Eb Hb. destruct (Hbtf b Eb) as [|[_ ?]]; [lia|done]. }
  unfold bpf_object__close. apply run_bind. cbn. apply run_bind.
  apply (unload_run R o Hob _ _ _ R'); [done|done|exact Hh|]. intros ms ps R2 k1 HR E1 Hun.
  apply obj_state, run_bind. cbn [o_btf set_programs set_maps set_efile].
  assert (forall k2, open_fds k2 = without_btf o R ->
    runs False (fun _ _ => False) (fun _ '(o', _, k') => own o' = [] /\ programs o' = [] /\ maps o' = [] /\ open_fds k' = without_btf o R)
    (let* _ := in_obj (upd (fun o => set_btf_ext (set_btf (set_maps o []) None) None)) in
     let* _ := each bpf_program__unload (seq 0 (length ps)) in in_obj (upd (fun o => set_programs o [])))
    (set_programs (set_maps (set_efile o (elf_finish (o_efile o))) ms) ps, n, k2)) as Hrest.
  { intros k2 E2. apply run_bind. cbn. apply run_bind, unload_again_run; [exact (proj2 Hun)|done|]. intros ps'. by split_and!. }
  assert (without_btf o R = match o_btf o with Some b => if fd b =? -1 then R else R ∖ {[fd b]} | None => R end) as Ew by done.
  destruct (o_btf o) as [b|] eqn:Eb; cbn [btf__free].
  - destruct (Z.eqb_spec (fd b) (-1)) as [Efd|Efd].
    + apply run_ret, Hrest. rewrite Ew, E1. destruct HR as [->|(b' & Eb' & Hge & _)]; [done|]. assert (b' = b) as -> by congruence. lia.
    + cbn. apply Hrest. rewrite Ew, close_open, E1. destruct HR as [->|(b' & Eb' & Hge & ->)]; [done|].
      assert (b' = b) as -> by congruence. apply set_eq. intros x. rewrite !elem_of_difference. tauto.
  - apply run_ret, Hrest. rewrite Ew, E1. destruct HR as [->|(b' & Eb' & _)]; [done|congruence].
Qed.

(** The same run with and without the reads that may go wrong. *)
Lemma load_sound_run {K : Type} `{KernelLaws bpf_insn K} e alloc btf_alloc sys_alloc junk junk_log fuel prep o n k :
  (forall (a : prog_load_attr bpf_insn) (k : K), exists r k', sys_bpf_prog_load fuel a k = Some (r, k') /\
    0 <= an_func_rec r /\ 0 <= an_line_rec r) ->
  loaded o = false -> relocatable o -> Forall (load_ready prep) (programs o) ->
  NoDup (own o) -> (forall x, x ∈ own o -> x ∈ open_fds k) ->
  (forall b, o_btf o = Some b -> 0 <= fd b -> fd b ∈ open_fds k /\ (fd b ∉ own o)) ->
  runs (has_btf o /\ ~ btf_ready e o)
    (fun _ '(o', _, k') => object_unloaded o' /\ o_btf o' = o_btf o /\ rest_of (others o k) o (open_fds k'))
    (fun _ '(o', _, k') => object_loaded (K := K) prep o o' /\ o_btf o' = o_btf o /\ NoDup (own o') /\
      open_fds k' = others o k ∪ list_to_set (own o'))
    (bpf_object__load e alloc btf_alloc sys_alloc junk junk_log fuel prep) (o, n, k).
Proof.
  intros Hfuel Hl Hr Hp Hnd Hopen Hbtf.
  pose proof (fun U => object_load_run e alloc btf_alloc sys_alloc junk junk_log fuel prep o n k U Hfuel Hl Hr Hp Hnd Hopen Hbtf) as Hrun.
  pose proof (Hrun (has_btf o) (fun Hh => or_introl Hh)) as H1. unfold runs in *.
  destruct (bpf_object__load _ _ _ _ _ _ _ _ _) as [[[a|err] s]|]; [exact H1|exact H1|]. split; [exact H1|].
  intros Hs. exact (Hrun False (fun _ => or_intror Hs)).
Qed.

(** C26. Loading an object ends.  If it succeeds every map has a descriptor, its
    preset one or one the kernel gave for the map's definition, every instance of
    a program one the kernel gave for the program's linked code, all of them
    different, and nothing else has been opened.  If it fails nothing it opened
    is left open, and the object holds no descriptors; the descriptor of the BTF
    information is the exception, which a failure may close.  Reads leave their
    objects only with BTF information that is not sound. *)
Theorem object_load_spec {K : Type} `{KernelLaws bpf_insn K} e alloc btf_alloc sys_alloc junk junk_log fuel prep o n k :
  (forall (a : prog_load_attr bpf_insn) (k : K), exists r k', sys_bpf_prog_load fuel a k = Some (r, k') /\
    0 <= an_func_rec r /\ 0 <= an_line_rec r) ->
  loaded o = false -> relocatable o -> Forall (load_ready prep) (programs o) ->
  NoDup (own o) -> (forall x, x ∈ own o -> x ∈ open_fds k) ->
  (forall b, o_btf o = Some b -> 0 <= fd b -> fd b ∈ open_fds k /\ (fd b ∉ own o)) ->
  match bpf_object__load e alloc btf_alloc sys_alloc junk junk_log fuel prep (o, n, k) with
  | Some (Ok _, (o', _, k')) => object_loaded (K := K) prep o o' /\ o_btf o' = o_btf o /\ NoDup (own o') /\
      open_fds k' = others o k ∪ list_to_set (own o')
  | Some (Err _, (o', _, k')) => object_unloaded o' /\ own o' = [] /\ o_btf o' = o_btf o /\
      (open_fds k' = others o k \/ exists b, o_btf o = Some b /\ open_fds k' = others o k ∖ {[fd b]})
  | None => has_btf o /\ ~ btf_ready e o
  end.
Proof.
  intros Hfuel Hl Hr Hp Hnd Hopen Hbtf.
  pose proof (load_sound_run e alloc btf_alloc sys_alloc junk junk_log fuel prep o n k Hfuel Hl Hr Hp Hnd Hopen Hbtf) as Hrun.
  unfold runs in Hrun. destruct (bpf_object__load _ _ _ _ _ _ _ _ _) as [[[?|err] [[o' n'] k']]|]; [done| |done].
  destruct Hrun as (Hun & Hb & Hk). split; [done|]. split; [by apply own_unloaded|]. split; [done|].
  destruct Hk as [->|(b & Eb & _ & ->)]; [by left|right; by exists b].
Qed.

(** C27. Closing an object, loaded or not, closes all descriptors it holds and that
    of its BTF information, and nothing else. *)
Theorem object_close_spec {K : Type} `{KernelLaws bpf_insn K} o n k :
  NoDup (own o) -> (forall x, x ∈ own o -> x ∈ open_fds k) ->
  (forall b, o_btf o = Some b -> fd b = -1 \/ fd b ∈ open_fds k /\ (fd b ∉ own o) /\ 0 <= fd b) ->
  Forall (btf_fine o) (programs o) ->
  exists o' n' k', bpf_object__close (o, n, k) = Some (Ok tt, (o', n', k')) /\
    own o' = [] /\ programs o' = [] /\ maps o' = [] /\
    open_fds k' = match o_btf o with
      | Some b => if fd b =? -1 then others o k else others o k ∖ {[fd b]}
      | None => others o k
      end.
Proof.
  intros Hnd Hopen Hbtf Hfine.
  assert (forall b, o_btf o = Some b -> fd b = -1 \/ 0 <= fd b /\ fd b ∈ others o k) as Hob.
  { intros b Eb. destruct (Hbtf b Eb) as [|(H1 & H2 & H3)]; [by left|right]. unfold others. by rewrite elem_of_difference, elem_of_list_to_set. }
  pose proof (object_close_run (others o k) (others o k) o n k Hob (or_introl eq_refl) (holds_start o k Hnd Hopen) Hfine) as Hrun. unfold runs in Hrun.
  destruct (bpf_object__close _) as [[[[]|err] [[o' n'] k']]|]; [by exists o', n', k'|done|done].
Qed.

(** ** The object of [ElfObject], loaded and closed *)

Definition ex_load_alloc (n m : nat) (size : Z) : bool := true.
Definition ex_no_prep (idx : Z) : option preprocessor := None.
Definition ex_quiet (n : nat) : bool := false.
(** Standard input, output and error are open. *)
Definition ex_kernel_at (script : list (Z * nat)) : ex_kernel := ExKernel {[0; 1; 2]} script.
Definition ex_load (script : list (Z * nat)) : option (result unit * (bpf_object * nat * ex_kernel)) :=
  bpf_object__load LE ElfObject.ex_alloc ex_btf_alloc ex_load_alloc 0 ex_quiet 1 ex_no_prep (ex_object, 0%nat, ex_kernel_at script).

(** The probes use descriptor 3 for a moment; then come two maps and the program. *)
Example ex_loaded : match ex_load [] with
  | Some (Ok _, (o, _, k)) => own o = [3; 4; 5] /\ elements (ek_open k) ≡ₚ [0; 1; 2; 3; 4; 5]
  | _ => False
  end.
Proof. vm_compute. split; [reflexivity|]. solve_Permutation. Qed.

(** The kernel refuses the second map: the first is closed again. *)
Example ex_refused : match ex_load [(0, 0%nat); (0, 0%nat); (0, 0%nat); (EINVAL, 0%nat)] with
  | Some (Err err, (o, _, k)) => err = -1 /\ own o = [] /\ elements (ek_open k) ≡ₚ [0; 1; 2]
  | _ => False
  end.
Proof. vm_compute. split; [reflexivity|]. split; [reflexivity|]. solve_Permutation. Qed.

Lemma ex_object_relocatable : relocatable ex_object.
Proof. apply (relocatable_maps ex_created ex_object); [reflexivity..|exact ex_relocatable]. Qed.

Lemma ex_object_ready : Forall (load_ready ex_no_prep) (programs ex_object).
Proof. repeat constructor; cbn; try lia; by left. Qed.

Lemma object_load_spec_witness :
  match bpf_object__load LE ElfObject.ex_alloc ex_btf_alloc ex_load_alloc 0 ex_quiet 1 ex_no_prep (ex_object, 0%nat, ex_kernel_at []) with
  | Some (Ok _, (o', _, k')) => object_loaded (K := ex_kernel) ex_no_prep ex_object o' /\ o_btf o' = o_btf ex_object /\ NoDup (own o') /\
      open_fds (I := bpf_insn) k' = others ex_object (ex_kernel_at []) ∪ list_to_set (own o')
  | Some (Err _, (o', _, k')) => object_unloaded o' /\ own o' = [] /\ o_btf o' = o_btf ex_object /\
      (open_fds (I := bpf_insn) k' = others ex_object (ex_kernel_at []) \/
       exists b, o_btf ex_object = Some b /\ open_fds (I := bpf_insn) k' = others ex_object (ex_kernel_at []) ∖ {[fd b]})
  | None => has_btf ex_object /\ ~ btf_ready LE ex_object
  end.
Proof.
  apply (object_load_spec (K := ex_kernel) LE ElfObject.ex_alloc ex_btf_alloc ex_load_alloc 0 ex_quiet 1 ex_no_prep ex_object 0 (ex_kernel_at [])).
  - intros a k. apply ex_kernel_answers.
  - reflexivity.
  - exact ex_object_relocatable.
  - exact ex_object_ready.
  - constructor.
  - intros x Hx. change (x ∈ (@nil Z)) in Hx. exfalso. inversion Hx.
  - intros b Hb. discriminate Hb.
Defined.

Definition ex_loaded_object : bpf_object := match ex_load [] with Some (_, (o, _, _)) => o | None => ex_object end.

Lemma object_close_spec_witness :
  let k := ExKernel {[0; 1; 2; 3; 4; 5]} [] in
  exists o' n' k', bpf_object__close (ex_loaded_object, 0%nat, k) = Some (Ok tt, (o', n', k')) /\
    own o' = [] /\ programs o' = [] /\ maps o' = [] /\
    open_fds (I := bpf_insn) k' = match o_btf ex_loaded_object with
      | Some b => if fd b =? -1 then others ex_loaded_object k else others ex_loaded_object k ∖ {[fd b]}
      | None => others ex_loaded_object k
      end.
Proof.
  intros k. assert (own ex_loaded_object = [3; 4; 5]) as E by (vm_compute; reflexivity).
  apply (object_close_spec (K := ex_kernel) ex_loaded_object 0 k).
  - rewrite E. repeat constructor; set_solver.
  - rewrite E. intros x Hx. unfold k. cbn. set_solver.
  - intros b Hb. assert (o_btf ex_loaded_object = None) as E' by (vm_compute; reflexivity). congruence.
  - assert (List.map p_btf_fd (programs ex_loaded_object) = [-1; -1]) as E' by (vm_compute; reflexivity).
    apply Forall_lookup. intros i p Hp. left. assert (p_btf_fd p ∈ List.map p_btf_fd (programs ex_loaded_object)) as Hin.
    { apply list_elem_of_fmap. exists p. split; [done|]. by eapply list_elem_of_lookup_2. }
    rewrite E' in Hin. set_solver.
Defined.
