(* ===== verification/SecNames.v ===== *)
(** * Program types by section name (src/libbpf/src/libbpf.c)

    The table of section names and the functions that search it. *)

From S2P Require Export CString.
Open Scope Z_scope.
Delimit Scope string_scope with string.

(** ** Types of programs and attachments *)

Definition prog_types : list str := List.map lit
  ["UNSPEC"; "SOCKET_FILTER"; "KPROBE"; "SCHED_CLS"; "SCHED_ACT"; "TRACEPOINT"; "XDP"; "PERF_EVENT"; "CGROUP_SKB";
   "CGROUP_SOCK"; "LWT_IN"; "LWT_OUT"; "LWT_XMIT"; "SOCK_OPS"; "SK_SKB"; "CGROUP_DEVICE"; "SK_MSG"; "RAW_TRACEPOINT";
   "CGROUP_SOCK_ADDR"; "LWT_SEG6LOCAL"; "LIRC_MODE2"; "SK_REUSEPORT"; "FLOW_DISSECTOR"]%string.
Definition attach_types : list str := List.map lit
  ["CGROUP_INET_INGRESS"; "CGROUP_INET_EGRESS"; "CGROUP_INET_SOCK_CREATE"; "CGROUP_SOCK_OPS"; "SK_SKB_STREAM_PARSER";
   "SK_SKB_STREAM_VERDICT"; "CGROUP_DEVICE"; "SK_MSG_VERDICT"; "CGROUP_INET4_BIND"; "CGROUP_INET6_BIND";
   "CGROUP_INET4_CONNECT"; "CGROUP_INET6_CONNECT"; "CGROUP_INET4_POST_BIND"; "CGROUP_INET6_POST_BIND";
   "CGROUP_UDP4_SENDMSG"; "CGROUP_UDP6_SENDMSG"; "LIRC_MODE2"; "FLOW_DISSECTOR"]%string.

(** The number of a name in an enumeration. *)
Definition number (names : list str) (name : String.string) : Z :=
  match list_find (fun n => n = lit name) names with Some (i, _) => Z.of_nat i | None => -1 end.
Definition BPF_PROG_TYPE (name : String.string) : Z := number prog_types name.
Definition BPF_ATTACH (name : String.string) : Z := number attach_types name.
Arguments BPF_PROG_TYPE name%_string_scope.
Arguments BPF_ATTACH name%_string_scope.

(** [bpf_prog_type__needs_kver]. *)
Definition bpf_prog_type__needs_kver (type : Z) : bool :=
  negb (bool_decide (type ∈ List.map BPF_PROG_TYPE
    ["SOCKET_FILTER"; "SCHED_CLS"; "SCHED_ACT"; "XDP"; "CGROUP_SKB"; "CGROUP_SOCK"; "LWT_IN"; "LWT_OUT"; "LWT_XMIT";
     "LWT_SEG6LOCAL"; "SOCK_OPS"; "SK_SKB"; "CGROUP_DEVICE"; "SK_MSG"; "CGROUP_SOCK_ADDR"; "LIRC_MODE2"; "SK_REUSEPORT";
     "FLOW_DISSECTOR"; "UNSPEC"; "TRACEPOINT"; "RAW_TRACEPOINT"; "PERF_EVENT"]%string)).

(** ** The table *)

Record section_name := SecName {
  sec : str; sec_len : nat; sec_prog_type : Z; sec_expected_attach_type : Z; is_attachable : bool; sec_attach_type : Z }.

Definition BPF_PROG_SEC_IMPL (string : String.string) ptype eatype attachable atype : section_name :=
  SecName (lit string) (length (lit string)) (BPF_PROG_TYPE ptype) eatype attachable atype.
Definition BPF_PROG_SEC string ptype := BPF_PROG_SEC_IMPL string ptype 0 false 0.
Definition BPF_APROG_SEC string ptype atype := BPF_PROG_SEC_IMPL string ptype 0 true (BPF_ATTACH atype).
Definition BPF_EAPROG_SEC string ptype eatype := BPF_PROG_SEC_IMPL string ptype (BPF_ATTACH eatype) true (BPF_ATTACH eatype).
Definition BPF_APROG_COMPAT string ptype := BPF_PROG_SEC string ptype.
Arguments BPF_PROG_SEC (string ptype)%_string_scope.
Arguments BPF_APROG_SEC (string ptype atype)%_string_scope.
Arguments BPF_EAPROG_SEC (string ptype eatype)%_string_scope.
Arguments BPF_APROG_COMPAT (string ptype)%_string_scope.

Definition section_names : list section_name :=
  [ BPF_PROG_SEC "socket" "SOCKET_FILTER";
    BPF_PROG_SEC "kprobe/" "KPROBE";
    BPF_PROG_SEC "kretprobe/" "KPROBE";
    BPF_PROG_SEC "classifier" "SCHED_CLS";
    BPF_PROG_SEC "action" "SCHED_ACT";
    BPF_PROG_SEC "tracepoint/" "TRACEPOINT";
    BPF_PROG_SEC "raw_tracepoint/" "RAW_TRACEPOINT";
    BPF_PROG_SEC "xdp" "XDP";
    BPF_PROG_SEC "perf_event" "PERF_EVENT";
    BPF_PROG_SEC "lwt_in" "LWT_IN";
    BPF_PROG_SEC "lwt_out" "LWT_OUT";
    BPF_PROG_SEC "lwt_xmit" "LWT_XMIT";
    BPF_PROG_SEC "lwt_seg6local" "LWT_SEG6LOCAL";
    BPF_APROG_SEC "cgroup_skb/ingress" "CGROUP_SKB" "CGROUP_INET_INGRESS";
    BPF_APROG_SEC "cgroup_skb/egress" "CGROUP_SKB" "CGROUP_INET_EGRESS";
    BPF_APROG_COMPAT "cgroup/skb" "CGROUP_SKB";
    BPF_APROG_SEC "cgroup/sock" "CGROUP_SOCK" "CGROUP_INET_SOCK_CREATE";
    BPF_EAPROG_SEC "cgroup/post_bind4" "CGROUP_SOCK" "CGROUP_INET4_POST_BIND";
    BPF_EAPROG_SEC "cgroup/post_bind6" "CGROUP_SOCK" "CGROUP_INET6_POST_BIND";
    BPF_APROG_SEC "cgroup/dev" "CGROUP_DEVICE" "CGROUP_DEVICE";
    BPF_APROG_SEC "sockops" "SOCK_OPS" "CGROUP_SOCK_OPS";
    BPF_APROG_SEC "sk_skb/stream_parser" "SK_SKB" "SK_SKB_STREAM_PARSER";
    BPF_APROG_SEC "sk_skb/stream_verdict" "SK_SKB" "SK_SKB_STREAM_VERDICT";
    BPF_APROG_COMPAT "sk_skb" "SK_SKB";
    BPF_APROG_SEC "sk_msg" "SK_MSG" "SK_MSG_VERDICT";
    BPF_APROG_SEC "lirc_mode2" "LIRC_MODE2" "LIRC_MODE2";
    BPF_APROG_SEC "flow_dissector" "FLOW_DISSECTOR" "FLOW_DISSECTOR";
    BPF_EAPROG_SEC "cgroup/bind4" "CGROUP_SOCK_ADDR" "CGROUP_INET4_BIND";
    BPF_EAPROG_SEC "cgroup/bind6" "CGROUP_SOCK_ADDR" "CGROUP_INET6_BIND";
    BPF_EAPROG_SEC "cgroup/connect4" "CGROUP_SOCK_ADDR" "CGROUP_INET4_CONNECT";
    BPF_EAPROG_SEC "cgroup/connect6" "CGROUP_SOCK_ADDR" "CGROUP_INET6_CONNECT";
    BPF_EAPROG_SEC "cgroup/sendmsg4" "CGROUP_SOCK_ADDR" "CGROUP_UDP4_SENDMSG";
    BPF_EAPROG_SEC "cgroup/sendmsg6" "CGROUP_SOCK_ADDR" "CGROUP_UDP6_SENDMSG" ].

Definition MAX_TYPE_NAME_SIZE := 32.

(** [!strncmp(a, b, n)]. *)
Definition strncmp_equal (a b : str) (n : nat) : bool := bool_decide (take n (a ++ [0]) = take n (b ++ [0])).

(** The loop that prints the names: the text so far, [None] when it is full. *)
Fixpoint type_names (names : list section_name) (attach_type : bool) (len : Z) (buf : str) : option str :=
  match names with
  | [] => Some buf
  | n :: names =>
      if attach_type && negb (is_attachable n) then type_names names attach_type len buf else
      if len <? zlen buf + zlen (sec n) + 2 then None else
      type_names names attach_type len (buf ++ [32] ++ sec n)
  end.
(** [NULL] is [None]; [mem] is the allocator's answer. *)
Definition libbpf_get_type_names (mem : bool) (attach_type : bool) : option str :=
  if mem then type_names section_names attach_type (zlen section_names * MAX_TYPE_NAME_SIZE) [] else None.

Definition find_section (name : str) : option section_name :=
  snd <$> list_find (fun n => strncmp_equal name (sec n) (sec_len n) = true) section_names.

(** The types; the names that are printed on an error are left to the caller. *)
Definition libbpf_prog_type_by_name (name : option str) : result (Z * Z) :=
  match name with
  | None => Err (- EINVAL)
  | Some name =>
      match find_section name with
      | Some n => Ok (sec_prog_type n, sec_expected_attach_type n)
      | None => Err (- EINVAL)
      end
  end.

Definition libbpf_attach_type_by_name (name : option str) : result Z :=
  match name with
  | None => Err (- EINVAL)
  | Some name =>
      match find_section name with
      | Some n => if is_attachable n then Ok (sec_attach_type n) else Err (- EINVAL)
      | None => Err (- EINVAL)
      end
  end.

(** ** Properties *)

Lemma strncmp_prefix a b : str_ok a -> str_ok b -> strncmp_equal a b (length b) = true <-> b `prefix_of` a.
Proof.
  intros Ha Hb. unfold strncmp_equal. rewrite bool_decide_eq_true, take_app_length. split.
  - intros E. destruct (decide (length b <= length a)%nat) as [Hl|Hl].
    + rewrite take_app_le in E by done. exists (drop (length b) a). by rewrite <- E at 1; rewrite take_drop.
    + rewrite take_ge in E by (rewrite length_app; cbn; lia). exfalso. unfold str_ok in Hb. rewrite <- E in Hb. apply List.Forall_app in Hb as [_ Hb]. by inversion Hb.
  - intros [k ->]. rewrite <- app_assoc. by rewrite take_app_length.
Qed.

Definition sections_okb : bool :=
  forallb (fun n => (sec_len n =? length (sec n))%nat && forallb (fun c => negb (c =? 0)) (sec n)) section_names.

Lemma section_ok n : n ∈ section_names -> sec_len n = length (sec n) /\ str_ok (sec n).
Proof.
  intros Hn. assert (sections_okb = true) as H by (vm_compute; reflexivity).
  unfold sections_okb in H. rewrite forallb_forall in H. apply list_elem_of_In, H, andb_true_iff in Hn as [Hl Hs].
  split; [by apply Nat.eqb_eq|]. rewrite forallb_forall in Hs. apply List.Forall_forall. intros c Hc%Hs. by destruct (Z.eqb_spec c 0).
Qed.

(** No name is hidden by an earlier one that it begins with. *)
Definition unhiddenb : bool :=
  forallb (fun j => forallb (fun i => match section_names !! i, section_names !! j with
    | Some a, Some b => negb (bool_decide (take (length (sec a)) (sec b) = sec a))
    | _, _ => true end) (seq 0 j)) (seq 0 (length section_names)).

Lemma unhidden i j a b : section_names !! i = Some a -> section_names !! j = Some b -> (i < j)%nat -> ~ sec a `prefix_of` sec b.
Proof.
  intros Ha Hb Hij [k E]. assert (unhiddenb = true) as H by (vm_compute; reflexivity).
  unfold unhiddenb in H. rewrite forallb_forall in H. specialize (H j). rewrite forallb_forall in H.
  pose proof (lookup_lt_Some _ _ _ Hb) as Hlt. assert (In j (seq 0 (length section_names))) as Hj by (apply in_seq; lia).
  assert (In i (seq 0 j)) as Hi by (apply in_seq; lia). specialize (H Hj i Hi).
  rewrite Ha, Hb, E, take_app_length, bool_decide_eq_true_2 in H by done. done.
Qed.

Lemma prefix_longest {A} (a b c : list A) : a `prefix_of` c -> b `prefix_of` c -> (length a <= length b)%nat -> a `prefix_of` b.
Proof.
  intros [k ->] [k' E] Hl. exists (drop (length a) b). assert (take (length a) b = a) as Et.
  { rewrite <- (take_app_le b k') by done. by rewrite <- E, take_app_length. }
  by rewrite <- Et at 1; rewrite take_drop.
Qed.

(** The type of a program is that of the longest name in the table its
    section's name begins with; without one there is an error.  Each name of the
    table stands for itself, and an attachment type is found exactly for the
    names that have one. *)
Theorem type_by_name_spec name : str_ok name ->
  (forall n, n ∈ section_names -> find_section (sec n) = Some n) /\
  match find_section name with
  | Some n => n ∈ section_names /\ sec n `prefix_of` name /\
      (forall n', n' ∈ section_names -> sec n' `prefix_of` name -> (length (sec n') <= length (sec n))%nat) /\
      libbpf_prog_type_by_name (Some name) = Ok (sec_prog_type n, sec_expected_attach_type n) /\
      libbpf_attach_type_by_name (Some name) = if is_attachable n then Ok (sec_attach_type n) else Err (- EINVAL)
  | None => (forall n, n ∈ section_names -> ~ sec n `prefix_of` name) /\
      libbpf_prog_type_by_name (Some name) = Err (- EINVAL) /\ libbpf_attach_type_by_name (Some name) = Err (- EINVAL)
  end.
Proof.
  intros Hname.
  assert (forall name, str_ok name -> forall n, n ∈ section_names -> strncmp_equal name (sec n) (sec_len n) = true <-> sec n `prefix_of` name) as Hpre.
  { intros nm Hnm n Hn. destruct (section_ok n Hn) as [-> Hs]. by apply strncmp_prefix. }
  split.
  - intros n Hn. destruct (section_ok n Hn) as [Hl Hs]. apply list_elem_of_lookup in Hn as [i Hi]. unfold find_section.
    rewrite (proj2 (list_find_Some _ _ i n)); [done|]. split; [done|]. split; [apply Hpre; [done|by eapply list_elem_of_lookup_2|done]|].
    intros j m Hj Hlt Hc. apply (unhidden j i m n Hj Hi Hlt). apply Hpre; [done|by eapply list_elem_of_lookup_2|done].
  - unfold libbpf_prog_type_by_name, libbpf_attach_type_by_name. unfold find_section. destruct (list_find _ _) as [[i n]|] eqn:Ef; cbn [fmap option_fmap option_map snd].
    + apply list_find_Some in Ef as (Hi & Hc & Hfirst). assert (n ∈ section_names) as Hn by by eapply list_elem_of_lookup_2.
      apply Hpre in Hc; [|done|done]. split; [done|]. split; [done|]. split; [|done]. intros n' Hn' Hc'.
      destruct (decide (length (sec n') <= length (sec n))%nat) as [|Hlt]; [done|]. exfalso.
      apply list_elem_of_lookup in Hn' as [j Hj]. assert (n' ∈ section_names) as Hn' by by eapply list_elem_of_lookup_2.
      destruct (decide (j < i)%nat) as [Hji|Hji]; [apply (Hfirst j n' Hj Hji); by apply Hpre|].
      destruct (decide (j = i)) as [->|Hne]; [assert (n' = n) as -> by congruence; lia|].
      apply (unhidden i j n n' Hi Hj ltac:(lia)). eapply prefix_longest; [done|done|lia].
    + apply list_find_None in Ef. split; [|done]. intros n Hn Hc. rewrite List.Forall_forall in Ef.
      apply (Ef n); [by apply list_elem_of_In|]. by apply Hpre.
Qed.

Lemma type_by_name_spec_witness :
  find_section (lit "xdp_syn") = find_section (lit "xdp") /\
  ((forall n, n ∈ section_names -> find_section (sec n) = Some n) /\
   libbpf_prog_type_by_name (Some (lit "xdp_syn")) = Ok (6, 0) /\ libbpf_attach_type_by_name (Some (lit "sk_skb/stream_verdict")) = Ok 5).
Proof.
  split; [vm_compute; reflexivity|]. assert (str_ok (lit "xdp_syn")) as H by (repeat constructor; discriminate).
  split; [exact (proj1 (type_by_name_spec (lit "xdp_syn") H))|]. split; vm_compute; reflexivity.
Defined.

(** The list of names fits its buffer, terminator included. *)
Lemma type_names_fit attach_type : exists text, libbpf_get_type_names true attach_type = Some text /\
  zlen text < zlen section_names * MAX_TYPE_NAME_SIZE /\
  text = concat (List.map (fun n => 32 :: sec n) (filter (fun n => attach_type = true -> is_attachable n = true) section_names)).
Proof. destruct attach_type; eexists; (split; [vm_compute; reflexivity|]); vm_compute; by split. Qed.
