(* ===== verification/Probes.v ===== *)
(** * Feature probes (src/libbpf/src/libbpf_probes.c)

    Whether the kernel knows a type of program, a type of map or a helper: each
    probe tries and looks at what happens. *)

From S2P Require Export Scan BpfCalls SecNames ElfObject.
From stdpp Require Import gmap list.
Open Scope Z_scope.

Definition EOPNOTSUPP := 95.
Definition BPF_F_NO_PREALLOC := 1.

Definition map_types : list str := List.map lit
  ["UNSPEC"; "HASH"; "ARRAY"; "PROG_ARRAY"; "PERF_EVENT_ARRAY"; "PERCPU_HASH"; "PERCPU_ARRAY"; "STACK_TRACE";
   "CGROUP_ARRAY"; "LRU_HASH"; "LRU_PERCPU_HASH"; "LPM_TRIE"; "ARRAY_OF_MAPS"; "HASH_OF_MAPS"; "DEVMAP"; "SOCKMAP";
   "CPUMAP"; "XSKMAP"; "SOCKHASH"; "CGROUP_STORAGE"; "REUSEPORT_SOCKARRAY"; "PERCPU_CGROUP_STORAGE"; "QUEUE"; "STACK"]%string.
Definition BPF_MAP_TYPE (name : String.string) : Z := number map_types name.
Arguments BPF_MAP_TYPE name%_string_scope.

(** ** Text *)

(** Is [pattern] in the text? *)
Fixpoint grep (buffer pattern : str) : bool :=
  bool_decide (pattern `prefix_of` buffer) || match buffer with [] => false | _ :: buffer => grep buffer pattern end.

(** ** Probes *)

Definition BPF_MOV64_IMM (dst imm : Z) : bpf_insn := Insn 183 dst 0 0 imm.
Definition BPF_EXIT_INSN : bpf_insn := Insn 149 0 0 0 0.
Definition BPF_EMIT_CALL (func : Z) : bpf_insn := Insn 133 0 0 0 func.

Section probes.
Context {K : Type} `{Kernel bpf_insn K}.
(** The allocator, the bound of [EAGAIN]s, the text in a log the kernel has
    written to, [uname]'s release, the name of a device and up to so many bytes
    of a file. *)
Context (alloc : nat -> Z -> bool) (fuel : nat) (log_text : K -> str)
  (release : option str) (if_indextoname : Z -> option str) (read_file : str -> nat -> option (list Z)).

Definition get_kernel_version : Z := default 0 (
  release ← release;
  '(version, s) ← scan_int release; s ← scan_dot s;
  '(subversion, s) ← scan_int s; s ← scan_dot s;
  '(patchlevel, _) ← scan_int s;
  Some (Z.shiftl version 16 + Z.shiftl subversion 8 + patchlevel)).

(** A buffer of eight bytes that is read into and ended with NUL. *)
Definition get_vendor_id (ifindex : Z) : option Z :=
  match if_indextoname ifindex with
  | None => Some (-1)
  | Some ifname =>
      match read_file (take 63 (lit "/sys/class/net/" ++ ifname ++ lit "/device/vendor")) 8 with
      | None => Some (-1)
      | Some buf => if (8 <=? length buf)%nat then Some (-1) else s ← cstr (buf ++ [0]); Some (s32 (strtol s))
      end
  end.

(** The result of the load, and the text in the log. *)
Definition probe_load (prog_type : Z) (insns : list bpf_insn) (log_buf : bool) (buf_len ifindex : Z) (k : K) : option (result Z * str * K) :=
  let expected := if prog_type =? BPF_PROG_TYPE "CGROUP_SOCK_ADDR" then BPF_ATTACH "CGROUP_INET4_CONNECT" else 0 in
  let kver := if prog_type =? BPF_PROG_TYPE "KPROBE" then u32 get_kernel_version else 0 in
  '(fd, log, k) ← bpf_load_program_xattr alloc fuel
    (LoadProgAttr prog_type expected None insns (lit "GPL") kver ifindex 0 (InfoAttr None 0 0) (InfoAttr None 0 0) 0) log_buf buf_len k;
  let text := match log with Some true => log_text k | _ => [] end in
  Some (fd, text, match fd with Ok fd => sys_close fd k | Err _ => k end).

(** [errno] is set to 0 first. *)
Definition bpf_probe_prog_type (prog_type ifindex : Z) (k : K) : option (bool * K) :=
  let imm := if negb (ifindex =? 0) && (prog_type =? BPF_PROG_TYPE "SCHED_CLS") then 2 else 0 in
  '(r, _, k) ← probe_load prog_type [BPF_MOV64_IMM 0 imm; BPF_EXIT_INSN] false 0 ifindex k;
  let errno := match r with Ok _ => 0 | Err errno => errno end in
  Some (negb (errno =? EINVAL) && negb (errno =? EOPNOTSUPP), k).

(** Key and value sizes, entries and flags to try. *)
Definition probe_sizes (map_type : Z) : Z * Z * Z * Z :=
  if map_type =? BPF_MAP_TYPE "STACK_TRACE" then (4, 8, 1, 0)
  else if map_type =? BPF_MAP_TYPE "LPM_TRIE" then (8, 8, 1, BPF_F_NO_PREALLOC)
  else if (map_type =? BPF_MAP_TYPE "CGROUP_STORAGE") || (map_type =? BPF_MAP_TYPE "PERCPU_CGROUP_STORAGE") then (16, 8, 0, 0)
  else if (map_type =? BPF_MAP_TYPE "QUEUE") || (map_type =? BPF_MAP_TYPE "STACK") then (0, 4, 1, 0)
  else (4, 4, 1, 0).

(** [fd >= 0], the descriptor closed. *)
Definition closing (r : result Z) (k : K) : bool * K := match r with Ok fd => (true, sys_close fd k) | Err _ => (false, k) end.

Definition bpf_probe_map_type (map_type ifindex : Z) (k : K) : bool * K :=
  if (map_type =? BPF_MAP_TYPE "ARRAY_OF_MAPS") || (map_type =? BPF_MAP_TYPE "HASH_OF_MAPS") then
    if negb (ifindex =? 0) then (false, k) else
    match bpf_create_map (BPF_MAP_TYPE "HASH") 4 4 1 0 k with
    | (Err _, k) => (false, k)
    | (Ok fd_inner, k) =>
        let '(fd, k) := bpf_create_map_in_map map_type None 4 fd_inner 1 0 k in
        closing fd (sys_close fd_inner k)
    end
  else
    let '(key_size, value_size, max_entries, map_flags) := probe_sizes map_type in
    let '(fd, k) := bpf_create_map_xattr (CreateAttr None map_type map_flags key_size value_size max_entries 0 0 0 0 ifindex 0) k in
    closing fd k.

Definition bpf_probe_helper (id prog_type ifindex : Z) (k : K) : option (bool * K) :=
  '(_, buf, k) ← probe_load prog_type [BPF_EMIT_CALL id; BPF_EXIT_INSN] true 4096 ifindex k;
  let res := negb (grep buf (lit "invalid func ")) && negb (grep buf (lit "unknown func ")) in
  if ifindex =? 0 then Some (res, k) else
  vendor ← get_vendor_id ifindex;
  Some (if vendor =? 0x19ee then res && negb (grep buf (lit "not supported by FW")) && negb (grep buf (lit "unsupported function id")) else res, k).
End probes.

(** ** What probes leave and answer *)

Section answers.
Context {K : Type} `{KernelLaws bpf_insn K}.

Lemma opened_closed (k : K) fd k' : opened k (Ok fd) k' -> open_fds (sys_close fd k') = open_fds k.
Proof. intros (_ & Hn & E). rewrite close_open, E. set_solver. Qed.

(** The answer, and a descriptor more or less in between. *)
Lemma closed_after (k : K) r k' b k'' : opened k r k' -> closing r k' = (b, k'') ->
  open_fds k'' = open_fds k /\ (b = true <-> exists fd, r = Ok fd).
Proof.
  destruct r as [fd|err]; cbn [closing]; intros Ho [= <- <-].
  - split; [by apply opened_closed|]. split; [by exists fd|done].
  - split; [exact Ho|]. split; [done|by intros [? ?]].
Qed.

(** A load without information about functions or lines corrects nothing. *)
Lemma nothing_to_correct alloc rounds fuel n (la : bpf_load_program_attr bpf_insn) a errno f l (k : K) :
  ia_cnt (pl_func_info a) = 0 -> ia_cnt (pl_line_info a) = 0 ->
  correct_loop alloc (S rounds) fuel n la a errno f l k = Some (Corrected a errno k).
Proof. intros E1 E2. cbn [correct_loop]. rewrite E1, E2. cbn [Z.eqb negb]. rewrite !andb_false_r, !andb_false_l. by destruct (negb _). Qed.

(** What a probe loads. *)
Definition load_attr_of (prog_type expected kver ifindex : Z) (insns : list bpf_insn) (log_level : Z) : prog_load_attr bpf_insn :=
  ProgLoad prog_type insns (lit "GPL") log_level kver (obj_name None) ifindex expected 0 (InfoAttr None 0 0) (InfoAttr None 0 0).

Context (alloc : nat -> Z -> bool) (fuel : nat) (log_text : K -> str) (release : option str).

Definition expected_of (prog_type : Z) : Z := if prog_type =? BPF_PROG_TYPE "CGROUP_SOCK_ADDR" then BPF_ATTACH "CGROUP_INET4_CONNECT" else 0.
Definition kver_of (prog_type : Z) : Z := if prog_type =? BPF_PROG_TYPE "KPROBE" then u32 (get_kernel_version release) else 0.

Lemma probe_load_quiet prog_type insns ifindex (k : K) :
  probe_load alloc fuel log_text release prog_type insns false 0 ifindex k =
    ('(a, k) ← sys_bpf_prog_load fuel (load_attr_of prog_type (expected_of prog_type) (kver_of prog_type) ifindex insns 0) k;
     Some (an_ret a, [], match an_ret a with Ok fd => sys_close fd k | Err _ => k end)).
Proof.
  unfold probe_load, bpf_load_program_xattr, load_attr_of, expected_of, kver_of. cbn -[sys_bpf_prog_load correct_loop obj_name lit BPF_PROG_TYPE BPF_ATTACH].
  destruct (sys_bpf_prog_load _ _ _) as [[a k1]|]; [|done]. cbn [mbind option_bind].
  destruct (an_ret a) as [fd|errno]; [done|]. rewrite nothing_to_correct by done. done.
Qed.

Lemma probe_load_logged prog_type insns sz ifindex (k : K) : sz <> 0 ->
  probe_load alloc fuel log_text release prog_type insns true sz ifindex k =
    ('(a, k) ← sys_bpf_prog_load fuel (load_attr_of prog_type (expected_of prog_type) (kver_of prog_type) ifindex insns 0) k;
     match an_ret a with
     | Ok fd => Some (Ok fd, [], sys_close fd k)
     | Err _ =>
         '(b, k) ← sys_bpf_prog_load fuel (set_log_level (answered (load_attr_of prog_type (expected_of prog_type) (kver_of prog_type) ifindex insns 0) a) 1) k;
         Some (an_ret b, if an_log b then log_text k else [], match an_ret b with Ok fd => sys_close fd k | Err _ => k end)
     end).
Proof.
  intros Hsz. unfold probe_load, bpf_load_program_xattr, load_attr_of, expected_of, kver_of. rewrite (proj2 (Z.eqb_neq _ _) Hsz).
  cbn -[sys_bpf_prog_load correct_loop obj_name lit BPF_PROG_TYPE BPF_ATTACH].
  destruct (sys_bpf_prog_load _ _ _) as [[a k1]|]; [|done]. cbn [mbind option_bind].
  destruct (an_ret a) as [fd|errno]; [done|]. rewrite nothing_to_correct by done. cbn [mbind option_bind negb orb Z.eqb].
  destruct (sys_bpf_prog_load _ _ k1) as [[b k2]|]; [|done]. cbn [mbind option_bind]. by destruct (an_log b).
Qed.
End answers.

(** Maps of maps need a map to hold. *)
Definition map_of_maps (map_type : Z) : Prop := map_type = BPF_MAP_TYPE "ARRAY_OF_MAPS" \/ map_type = BPF_MAP_TYPE "HASH_OF_MAPS".

(** What the kernel asks of the sizes of a map of each type. *)
Definition sizes_allowed (map_type : Z) (sizes : Z * Z * Z * Z) : Prop :=
  let '(key_size, value_size, max_entries, map_flags) := sizes in
  (map_type ∈ List.map BPF_MAP_TYPE ["QUEUE"; "STACK"]%string <-> key_size = 0) /\
  (map_type ∈ List.map BPF_MAP_TYPE ["CGROUP_STORAGE"; "PERCPU_CGROUP_STORAGE"]%string <-> max_entries = 0) /\
  (max_entries = 0 -> key_size = 16) /\
  (map_type = BPF_MAP_TYPE "STACK_TRACE" -> value_size mod 8 = 0 /\ key_size = 4) /\
  (map_type = BPF_MAP_TYPE "LPM_TRIE" -> map_flags = BPF_F_NO_PREALLOC /\ 5 <= key_size) /\ 0 < value_size.

#[export] Instance sizes_allowed_dec map_type sizes : Decision (sizes_allowed map_type sizes).
Proof. destruct sizes as [[[]]]. unfold sizes_allowed. apply _. Defined.

Lemma probe_sizes_allowed map_type : 0 <= map_type < 24 -> sizes_allowed map_type (probe_sizes map_type).
Proof.
  intros Hr. assert (Forall (fun n => sizes_allowed (Z.of_nat n) (probe_sizes (Z.of_nat n))) (seq 0 24)) as Hall.
  { apply (bool_decide_unpack _). vm_compute. exact I. }
  rewrite <- (Z2Nat.id map_type) by lia. apply (proj1 (List.Forall_forall _ _) Hall), in_seq. lia.
Qed.

(** Probing for a type of map leaves the descriptors as they were.  The answer
    is whether the kernel creates a map of the type, of sizes it allows; a map
    of maps also needs one to hold, and a device has none. *)
Theorem probe_map_type_spec {K : Type} `{KernelLaws bpf_insn K} map_type ifindex (k : K) : 0 <= map_type < 24 ->
  let '(b, k') := bpf_probe_map_type map_type ifindex k in
  open_fds k' = open_fds k /\
  (~ map_of_maps map_type -> exists key_size value_size max_entries map_flags,
    sizes_allowed map_type (key_size, value_size, max_entries, map_flags) /\
    (b = true <-> exists fd, (sys_map_create (MapCreate map_type key_size value_size max_entries map_flags 0 0 (repeat 0 16) ifindex 0 0 0) k).1 = Ok fd)) /\
  (map_of_maps map_type -> b = true <-> ifindex = 0 /\ exists inner k1 fd,
    sys_map_create (MapCreate (BPF_MAP_TYPE "HASH") 4 4 1 0 0 0 (repeat 0 16) 0 0 0 0) k = (Ok inner, k1) /\
    (sys_map_create (MapCreate map_type 4 4 1 0 (u32 inner) 0 (repeat 0 16) 0 0 0 0) k1).1 = Ok fd).
Proof.
  intros Hr. pose proof (probe_sizes_allowed _ Hr) as Hs. unfold bpf_probe_map_type.
  destruct ((map_type =? _) || (map_type =? _)) eqn:Em.
  - assert (map_of_maps map_type) as Hm by (unfold map_of_maps; apply orb_true_iff in Em as [E%Z.eqb_eq|E%Z.eqb_eq]; auto).
    destruct (Z.eqb_spec ifindex 0) as [->|Hi]; cbn [negb].
    2: { split; [done|]. split; [done|]. intros _. split; [done|]. by intros [? _]. }
    unfold bpf_create_map, bpf_create_map_in_map, bpf_create_map_in_map_node.
    destruct (bpf_create_map_xattr _ k) as [[inner|e] k1] eqn:E1; pose proof (create_map_opened _ _ _ _ E1) as Ho1;
      unfold bpf_create_map_xattr in E1; cbn in E1; change (u32 4) with 4 in E1; change (u32 1) with 1 in E1.
    2: { split; [exact Ho1|]. split; [done|]. intros _. split; [done|]. intros (_ & inner & k1' & fd & E & _). cbn in E. rewrite E1 in E. done. }
    cbn. pose proof (map_create_open (MapCreate map_type 4 4 1 0 (u32 inner) 0 (repeat 0 16) 0 0 0 0) k1) as Ho2.
    change (u32 4) with 4 in *. change (u32 1) with 1 in *. cbn in Ho2.
    destruct (sys_map_create _ k1) as [r k2] eqn:E2. destruct (closing r _) as [b k'] eqn:Ec. split; [|split; [done|]].
    + destruct Ho1 as (_ & Hn1 & O1). destruct r as [fd|e]; injection Ec as _ <-.
      * destruct Ho2 as (_ & Hn2 & O2). rewrite !close_open, O2, O1. set_solver.
      * rewrite close_open, Ho2, O1. set_solver.
    + intros _. split.
      * intros ->. destruct r as [fd|e]; [|done]. split; [done|]. exists inner, k1, fd. split; [exact E1|]. by rewrite E2.
      * intros (_ & inner' & k1' & fd & E & Eb). rewrite E1 in E. injection E as <- <-. rewrite E2 in Eb. cbn in Eb. subst r. by injection Ec.
  - assert (~ map_of_maps map_type) as Hm by (intros [E|E]; rewrite E in Em; vm_compute in Em; done).
    destruct (probe_sizes map_type) as [[[key_size value_size] max_entries] map_flags].
    destruct (bpf_create_map_xattr _ k) as [r k1] eqn:E1. pose proof (create_map_opened _ _ _ _ E1) as Ho.
    destruct (closing r k1) as [b k'] eqn:Ec. destruct (closed_after _ _ _ _ _ Ho Ec) as [Hf Hb]. split; [done|]. split; [|done].
    intros _. exists key_size, value_size, max_entries, map_flags. split; [done|]. unfold bpf_create_map_xattr in E1. cbn in E1. cbn. by rewrite E1.
Qed.

Lemma probe_map_type_spec_witness : let t := BPF_MAP_TYPE "HASH_OF_MAPS" in
  let '(b, k') := bpf_probe_map_type t 0 (ExKernel {[0; 1; 2]} []) in
  open_fds (I := bpf_insn) k' = open_fds (I := bpf_insn) (ExKernel {[0; 1; 2]} []) /\
  (~ map_of_maps t -> exists key_size value_size max_entries map_flags,
    sizes_allowed t (key_size, value_size, max_entries, map_flags) /\
    (b = true <-> exists fd, (sys_map_create (I := bpf_insn) (MapCreate t key_size value_size max_entries map_flags 0 0 (repeat 0 16) 0 0 0 0) (ExKernel {[0; 1; 2]} [])).1 = Ok fd)) /\
  (map_of_maps t -> b = true <-> 0 = 0 /\ exists inner k1 fd,
    sys_map_create (I := bpf_insn) (MapCreate (BPF_MAP_TYPE "HASH") 4 4 1 0 0 0 (repeat 0 16) 0 0 0 0) (ExKernel {[0; 1; 2]} []) = (Ok inner, k1) /\
    (sys_map_create (I := bpf_insn) (MapCreate t 4 4 1 0 (u32 inner) 0 (repeat 0 16) 0 0 0 0) k1).1 = Ok fd).
Proof. apply (probe_map_type_spec (BPF_MAP_TYPE "HASH_OF_MAPS") 0 (ExKernel {[0; 1; 2]} [])). vm_compute. split; [discriminate|reflexivity]. Defined.

(** Probing for a type of program or for a helper leaves the descriptors as
    they were.  A type is known unless loading fails with EINVAL or EOPNOTSUPP.
    A helper is unknown exactly if loading fails and the kernel, asked again
    with a log, says so there: without a log, as for a caller who may not load
    programs at all, every helper is reported as known. *)
Theorem probe_programs_spec {K : Type} `{KernelLaws bpf_insn K} alloc fuel log_text release if_indextoname read_file prog_type id (k : K) :
  (forall (a : prog_load_attr bpf_insn) (k : K), exists r k', sys_bpf_prog_load fuel a k = Some (r, k')) ->
  let attr imm := load_attr_of prog_type (expected_of prog_type) (kver_of release prog_type) 0 imm 0 in
  (exists b k', bpf_probe_prog_type alloc fuel log_text release prog_type 0 k = Some (b, k') /\ open_fds k' = open_fds k /\
    exists a k1, sys_bpf_prog_load fuel (attr [BPF_MOV64_IMM 0 0; BPF_EXIT_INSN]) k = Some (a, k1) /\
      (b = false <-> an_ret a = Err EINVAL \/ an_ret a = Err EOPNOTSUPP)) /\
  (exists b k', bpf_probe_helper alloc fuel log_text release if_indextoname read_file id prog_type 0 k = Some (b, k') /\ open_fds k' = open_fds k /\
    exists a k1, sys_bpf_prog_load fuel (attr [BPF_EMIT_CALL id; BPF_EXIT_INSN]) k = Some (a, k1) /\
      (b = false <-> (exists errno, an_ret a = Err errno) /\ exists c k2,
        sys_bpf_prog_load fuel (set_log_level (answered (attr [BPF_EMIT_CALL id; BPF_EXIT_INSN]) a) 1) k1 = Some (c, k2) /\ an_log c = true /\
        (grep (log_text k2) (lit "invalid func ") = true \/ grep (log_text k2) (lit "unknown func ") = true))).
Proof.
  intros Hfuel attr. split.
  - unfold bpf_probe_prog_type. cbn [Z.eqb negb andb]. rewrite probe_load_quiet.
    destruct (Hfuel (attr [BPF_MOV64_IMM 0 0; BPF_EXIT_INSN]) k) as (a & k1 & E). unfold attr in E. rewrite E. cbn [mbind option_bind].
    pose proof (prog_load_opened _ _ _ _ _ E) as Ho. eexists _, _. split; [done|]. split.
    + destruct (an_ret a) as [fd|err]; [by apply opened_closed|exact Ho].
    + exists a, k1. split; [done|]. destruct (an_ret a) as [fd|err]; [by split; [|intros [?|?]]|].
      destruct (Z.eqb_spec err EINVAL) as [->|N1]; [split; [by left|done]|].
      destruct (Z.eqb_spec err EOPNOTSUPP) as [->|N2]; [split; [by right|done]|]. split; [done|]. intros [[= ?]|[= ?]]; done.
  - unfold bpf_probe_helper. rewrite probe_load_logged by done.
    destruct (Hfuel (attr [BPF_EMIT_CALL id; BPF_EXIT_INSN]) k) as (a & k1 & E). unfold attr in E. rewrite E. cbn [mbind option_bind].
    pose proof (prog_load_opened _ _ _ _ _ E) as Ho. destruct (an_ret a) as [fd|err] eqn:Ea.
    + eexists _, _. split; [done|]. split; [by apply opened_closed|]. exists a, k1. split; [done|]. rewrite Ea. split; [done|]. by intros [[? ?] _].
    + destruct (Hfuel (set_log_level (answered (attr [BPF_EMIT_CALL id; BPF_EXIT_INSN]) a) 1) k1) as (c & k2 & E2). unfold attr in E2. rewrite E2.
      cbn [mbind option_bind]. pose proof (prog_load_opened _ _ _ _ _ E2) as Ho2. eexists _, _. split; [done|]. split.
      * destruct (an_ret c) as [fd|err2]; [|cbn in Ho, Ho2; congruence]. rewrite (opened_closed _ _ _ Ho2). exact Ho.
      * exists a, k1. split; [done|]. rewrite Ea. split.
        -- intros Hb. split; [by exists err|]. exists c, k2. split; [done|]. destruct (an_log c); [|by vm_compute in Hb]. split; [done|].
           apply andb_false_iff in Hb. rewrite !negb_false_iff in Hb. exact Hb.
        -- intros [_ (c' & k2' & E3 & Hlog & Hg)]. unfold attr in E3. rewrite E2 in E3. injection E3 as <- <-. rewrite Hlog.
           destruct Hg as [-> | ->]; [done|]. cbn [negb]. apply andb_false_r.
Qed.

(** A caller without the right to load programs: the helper 9999 is known. *)
Definition ex_refusing : ex_kernel := ExKernel {[0; 1; 2]} [(1, 0%nat); (1, 0%nat)].
Example ex_helper_known :
  fst <$> bpf_probe_helper (fun _ _ => true) 1 (fun _ => []) None (fun _ => None) (fun _ _ => None) 9999 (BPF_PROG_TYPE "XDP") 0 ex_refusing = Some true.
Proof. vm_compute. reflexivity. Qed.

(** Release strings, numbers and patterns. *)
Example ex_version : get_kernel_version (Some (lit "4.19.0-rc1+")) = 0x41300.
Proof. vm_compute. reflexivity. Qed.
Example ex_vendor : get_vendor_id (fun _ => Some (lit "eth0")) (fun _ _ => Some (lit "0x19ee" ++ [10])) 4 = Some 0x19ee.
Proof. vm_compute. reflexivity. Qed.

Lemma probe_programs_spec_witness :
  let attr imm := load_attr_of (BPF_PROG_TYPE "XDP") (expected_of (BPF_PROG_TYPE "XDP")) (kver_of None (BPF_PROG_TYPE "XDP")) 0 imm 0 in
  let log (k : ex_kernel) := lit "unknown func" in
  (exists b k', bpf_probe_prog_type (fun _ _ => true) 1 log None (BPF_PROG_TYPE "XDP") 0 ex_refusing = Some (b, k') /\
    open_fds (I := bpf_insn) k' = open_fds (I := bpf_insn) ex_refusing /\
    exists a k1, sys_bpf_prog_load 1 (attr [BPF_MOV64_IMM 0 0; BPF_EXIT_INSN]) ex_refusing = Some (a, k1) /\
      (b = false <-> an_ret a = Err EINVAL \/ an_ret a = Err EOPNOTSUPP)) /\
  (exists b k', bpf_probe_helper (fun _ _ => true) 1 log None (fun _ => None) (fun _ _ => None) 9999 (BPF_PROG_TYPE "XDP") 0 ex_refusing = Some (b, k') /\
    open_fds (I := bpf_insn) k' = open_fds (I := bpf_insn) ex_refusing /\
    exists a k1, sys_bpf_prog_load 1 (attr [BPF_EMIT_CALL 9999; BPF_EXIT_INSN]) ex_refusing = Some (a, k1) /\
      (b = false <-> (exists errno, an_ret a = Err errno) /\ exists c k2,
        sys_bpf_prog_load 1 (set_log_level (answered (attr [BPF_EMIT_CALL 9999; BPF_EXIT_INSN]) a) 1) k1 = Some (c, k2) /\ an_log c = true /\
        (grep (log k2) (lit "invalid func ") = true \/ grep (log k2) (lit "unknown func ") = true))).
Proof.
  apply (probe_programs_spec (fun _ _ => true) 1 (fun _ => lit "unknown func") None (fun _ => None) (fun _ _ => None) (BPF_PROG_TYPE "XDP") 9999 ex_refusing).
  intros a k. destruct (ex_kernel_answers 0 a k) as (r & k' & E & _). exists r, k'. exact E.
Defined.
