(* ===== verification/ObjAccess.v ===== *)
(** * Walking and asking an object (src/libbpf/src/libbpf.c)

    The iterators over programs and maps, the lookups, and the setters a caller
    may use between opening and loading.  A pointer to a program or map of the
    object is its position. *)

From S2P Require Export ObjLoadSpec.
Open Scope Z_scope.


Definition BPF_MAP_TYPE_PERF_EVENT_ARRAY := 4.

(** ** Programs *)

Definition __bpf_program__iter (p : option nat) (o : bpf_object) (forward : bool) : option nat :=
  let nr := length (programs o) in
  if (nr =? 0)%nat then None else
  match p with
  | None => if forward then Some 0%nat else Some (nr - 1)%nat
  | Some p =>
      let idx := Z.of_nat p + (if forward then 1 else -1) in
      if (Z.of_nat nr <=? idx) || (idx <? 0) then None else Some (Z.to_nat idx)
  end.

Definition is_storage (o : bpf_object) (i : nat) : bool :=
  match programs o !! i with Some p => bpf_program__is_function_storage o p | None => false end.

(** One step at least, then on over the storage of functions: each step but the
    last skips a program. *)
Fixpoint iter_programs (fuel : nat) (forward : bool) (p : option nat) (o : bpf_object) : option nat :=
  match fuel with
  | O => None
  | S fuel =>
      match __bpf_program__iter p o forward with
      | Some i => if is_storage o i then iter_programs fuel forward (Some i) o else Some i
      | None => None
      end
  end.

Definition bpf_program__next (prev : option nat) (o : bpf_object) : option nat :=
  iter_programs (S (length (programs o))) true prev o.
Definition bpf_program__prev (next : option nat) (o : bpf_object) : option nat :=
  iter_programs (S (length (programs o))) false next o.

(** What a loop from [p] on visits, at most [fuel] programs. *)
Fixpoint visited (next : option nat -> option nat) (fuel : nat) (p : option nat) : list nat :=
  match fuel with
  | O => []
  | S fuel => match next p with Some i => i :: visited next fuel (Some i) | None => [] end
  end.

(** [bpf_object__for_each_program]. *)
Definition for_each_program (o : bpf_object) : list nat :=
  visited (fun p => bpf_program__next p o) (length (programs o)) None.

Definition bpf_object__find_program_by_title (o : bpf_object) (title : str) : option nat :=
  snd <$> list_find (fun i => p_section_name <$> programs o !! i = Some title) (for_each_program o).

Definition bpf_program__nth_fd (p : bpf_program) (n : Z) : Z :=
  match p_instances p with
  | None => - EINVAL
  | Some fds =>
      match znth fds n with
      | None => - EINVAL
      | Some fd => if fd <? 0 then - ENOENT else fd
      end
  end.
Definition bpf_program__fd (p : bpf_program) : Z := bpf_program__nth_fd p 0.

Definition set_p_ifindex (p : bpf_program) i := Program (p_idx p) (p_name p) i (p_section_name p) (p_pin_name p) (p_insns p) (p_main_prog_cnt p) (p_type p) (p_reloc_desc p) (p_instances p) (p_attach_type p) (p_btf_fd p) (p_func_info p) (p_line_info p).
Definition bpf_program__set_type (p : bpf_program) t := Program (p_idx p) (p_name p) (p_ifindex p) (p_section_name p) (p_pin_name p) (p_insns p) (p_main_prog_cnt p) t (p_reloc_desc p) (p_instances p) (p_attach_type p) (p_btf_fd p) (p_func_info p) (p_line_info p).
Definition bpf_program__set_expected_attach_type (p : bpf_program) t := Program (p_idx p) (p_name p) (p_ifindex p) (p_section_name p) (p_pin_name p) (p_insns p) (p_main_prog_cnt p) (p_type p) (p_reloc_desc p) (p_instances p) t (p_btf_fd p) (p_func_info p) (p_line_info p).

(** Installing a preprocessor; [mem] is the allocator's answer. *)
Definition bpf_program__set_prep (mem : bool) (prep : Z -> option preprocessor) (p : bpf_program) (nr_instances : Z)
    (f : option preprocessor) : result (bpf_program * (Z -> option preprocessor)) :=
  match f with
  | None => Err (- EINVAL)
  | Some f =>
      if nr_instances <=? 0 then Err (- EINVAL) else
      match p_instances p with
      | Some _ => Err (- EINVAL)
      | None =>
          if negb mem then Err (- ENOMEM) else
          Ok (set_p_instances p (Some (repeat (-1) (Z.to_nat nr_instances))),
              fun idx => if idx =? p_idx p then Some f else prep idx)
      end
  end.

(** ** Maps *)

Definition __bpf_map__iter (m : nat) (o : bpf_object) (i : Z) : option nat :=
  let idx := Z.of_nat m + i in
  if (zlen (maps o) <=? Z.of_nat m) || (zlen (maps o) <=? idx) || (idx <? 0) then None else Some (Z.to_nat idx).

(** [obj->maps] is [NULL] while there are no maps. *)
Definition bpf_map__next (prev : option nat) (o : bpf_object) : option nat :=
  match prev with
  | None => if (length (maps o) =? 0)%nat then None else Some 0%nat
  | Some m => __bpf_map__iter m o 1
  end.
Definition bpf_map__prev (next : option nat) (o : bpf_object) : option nat :=
  match next with
  | None => if (length (maps o) =? 0)%nat then None else Some (length (maps o) - 1)%nat
  | Some m => __bpf_map__iter m o (-1)
  end.

Definition for_each_map (o : bpf_object) : list nat :=
  visited (fun m => bpf_map__next m o) (length (maps o)) None.

Definition bpf_object__find_map_by_name (o : bpf_object) (name : str) : option nat :=
  snd <$> list_find (fun i => (m ← maps o !! i; m_name m) = Some name) (for_each_map o).

Definition bpf_map__fd (m : option bpf_map) : Z := match m with Some m => m_fd m | None => - EINVAL end.
Definition bpf_object__find_map_fd_by_name (o : bpf_object) (name : str) : Z :=
  bpf_map__fd (i ← bpf_object__find_map_by_name o name; maps o !! i).
Definition bpf_object__find_map_by_offset (o : bpf_object) (offset : Z) : result nat :=
  match list_find (fun m => m_offset m = offset) (maps o) with Some (i, _) => Ok i | None => Err (- ENOENT) end.

Definition bpf_map__is_offload_neutral (m : bpf_map) : bool := def_type (m_def m) =? BPF_MAP_TYPE_PERF_EVENT_ARRAY.
Definition bpf_map__set_ifindex (m : bpf_map) i := Map (m_fd m) (m_name m) (m_offset m) i (m_inner_map_fd m) (m_def m) (m_btf_key_type_id m) (m_btf_value_type_id m).

Definition bpf_map__resize (m : bpf_map) (max_entries : Z) : result bpf_map :=
  if max_entries =? 0 then Err (- EINVAL) else
  if 0 <=? m_fd m then Err (- EBUSY) else
  let d := m_def m in
  Ok (Map (m_fd m) (m_name m) (m_offset m) (m_ifindex m) (m_inner_map_fd m)
    (MapDef (def_type d) (def_key_size d) (def_value_size d) max_entries (def_map_flags d)) (m_btf_key_type_id m) (m_btf_value_type_id m)).

Definition bpf_map__set_inner_map_fd (m : bpf_map) (fd : Z) : result bpf_map :=
  if negb (bpf_map_type__is_map_in_map (def_type (m_def m))) then Err (- EINVAL) else
  if negb (m_inner_map_fd m =? -1) then Err (- EINVAL) else
  Ok (Map (m_fd m) (m_name m) (m_offset m) (m_ifindex m) fd (m_def m) (m_btf_key_type_id m) (m_btf_value_type_id m)).

(** ** What is asked of a map, a program or an object; none is [NULL] *)

Definition bpf_map__def (m : option bpf_map) : result bpf_map_def := match m with Some m => Ok (m_def m) | None => Err (- EINVAL) end.
Definition bpf_map__name (m : option bpf_map) : option str := m ← m; m_name m.
Definition bpf_map__btf_key_type_id (m : option bpf_map) : Z := match m with Some m => m_btf_key_type_id m | None => 0 end.
Definition bpf_map__btf_value_type_id (m : option bpf_map) : Z := match m with Some m => m_btf_value_type_id m | None => 0 end.

Definition bpf_object__kversion (o : option bpf_object) : Z := match o with Some o => kern_version o | None => 0 end.
Definition bpf_object__btf (o : option bpf_object) : option btf := o ← o; o_btf o.
Definition btf__fd (b : btf) : Z := Btf.fd b.
Definition bpf_object__btf_fd (o : bpf_object) : Z := match o_btf o with Some b => btf__fd b | None => -1 end.

Definition bpf_program__set_ifindex (p : bpf_program) (ifindex : Z) : bpf_program := set_p_ifindex p ifindex.
(** [mem] is the allocator's answer. *)
Definition bpf_program__title (mem : bool) (p : bpf_program) (needs_copy : bool) : result str :=
  if needs_copy && negb mem then Err (- ENOMEM) else Ok (p_section_name p).
Definition bpf_program__is_type (p : option bpf_program) (type : Z) : bool := match p with Some p => p_type p =? type | None => false end.

(** [BPF_PROG_TYPE_FNS]: the functions for each [type]. *)
Definition bpf_program__set_TYPE (type : Z) (p : option bpf_program) : result bpf_program :=
  match p with None => Err (- EINVAL) | Some p => Ok (bpf_program__set_type p type) end.
Definition bpf_program__is_TYPE (type : Z) (p : option bpf_program) : bool := bpf_program__is_type p type.

(** ** What the loops visit *)

Definition programs_of (o : bpf_object) : list nat :=
  filter (fun i => is_storage o i = false) (seq 0 (length (programs o))).

Lemma iter_forward (o : bpf_object) fuel : forall i, (i <= length (programs o))%nat -> (length (programs o) - i < fuel)%nat ->
  iter_programs fuel true (match i with O => None | S i => Some i end) o =
  head (filter (fun j => is_storage o j = false) (seq i (length (programs o) - i))).
Proof.
  induction fuel as [|fuel IH]; intros i Hi Hf; [lia|]. cbn [iter_programs].
  assert (__bpf_program__iter (match i with O => None | S i => Some i end) o true =
    if decide (i < length (programs o))%nat then Some i else None) as ->.
  { unfold __bpf_program__iter. destruct (Nat.eqb_spec (length (programs o)) 0); [by rewrite decide_False by lia|].
    destruct i as [|i]; [by rewrite decide_True by lia|]. destruct (decide _).
    - destruct (Z.leb_spec (Z.of_nat (length (programs o))) (Z.of_nat i + 1)), (Z.ltb_spec (Z.of_nat i + 1) 0); try lia. cbn. f_equal. lia.
    - destruct (Z.leb_spec (Z.of_nat (length (programs o))) (Z.of_nat i + 1)); [done|lia]. }
  destruct (decide (i < length (programs o))%nat) as [Hlt|Hlt].
  - replace (length (programs o) - i)%nat with (S (length (programs o) - S i)) by lia. cbn [seq]. rewrite filter_cons.
    destruct (is_storage o i) eqn:Es; [|by rewrite decide_True].
    rewrite decide_False by congruence. apply (IH (S i)); lia.
  - replace (length (programs o) - i)%nat with 0%nat by lia. done.
Qed.

Definition before (i : nat) : option nat := match i with O => None | S i => Some i end.

Lemma head_filter_skip (P : nat -> Prop) `{!forall x, Decision (P x)} n : forall i k,
  head (filter P (seq i n)) = Some k ->
  P k /\ (i <= k < i + n)%nat /\ filter P (seq i n) = k :: filter P (seq (S k) (i + n - S k)).
Proof.
  induction n as [|n IH]; intros i k; cbn [seq]; [done|]. rewrite filter_cons. destruct (decide (P i)) as [Hp|Hp].
  - cbn. intros [= <-]. split; [done|]. split; [lia|]. by replace (i + S n - S i)%nat with n by lia.
  - intros Hk. destruct (IH (S i) k Hk) as (H1 & H2 & ->). split; [done|]. split; [lia|]. by replace (S i + n - S k)%nat with (i + S n - S k)%nat by lia.
Qed.

Lemma visited_programs (o : bpf_object) fuel : forall i, (i <= length (programs o))%nat -> (length (programs o) - i <= fuel)%nat ->
  visited (fun p => bpf_program__next p o) fuel (before i) =
  filter (fun j => is_storage o j = false) (seq i (length (programs o) - i)).
Proof.
  induction fuel as [|fuel IH]; intros i Hi Hf; cbn [visited].
  - by replace (length (programs o) - i)%nat with 0%nat by lia.
  - unfold bpf_program__next at 1. unfold before. rewrite iter_forward by lia.
    destruct (head _) as [k|] eqn:Eh.
    + destruct (head_filter_skip _ _ _ _ Eh) as (Hk & Hr & ->). f_equal. replace (i + (length (programs o) - i) - S k)%nat with (length (programs o) - S k)%nat by lia.
      apply (IH (S k)); lia.
    + by destruct (filter _ _).
Qed.

Lemma elem_of_programs_of (o : bpf_object) i : i ∈ programs_of o <-> is_storage o i = false /\ (i < length (programs o))%nat.
Proof. unfold programs_of. rewrite list_elem_of_filter, elem_of_seq. split; intros []; (split; [done|lia]). Qed.

(** A loop over the programs visits those that are not the storage of functions,
    once and in order. *)
Lemma for_each_program_spec (o : bpf_object) : for_each_program o = programs_of o.
Proof.
  unfold for_each_program, programs_of. change None with (before 0). rewrite visited_programs by lia. by rewrite Nat.sub_0_r.
Qed.

Lemma iter_backward (o : bpf_object) fuel : forall i, (i <= length (programs o))%nat -> (i < fuel)%nat ->
  iter_programs fuel false (Some i) o = last (filter (fun j => is_storage o j = false) (seq 0 i)) \/ programs o = [].
Proof.
  induction fuel as [|fuel IH]; intros i Hi Hf; [lia|]. cbn [iter_programs]. unfold __bpf_program__iter.
  destruct (Nat.eqb_spec (length (programs o)) 0) as [E|E]; [right; by apply nil_length_inv|]. left.
  destruct (Z.leb_spec (Z.of_nat (length (programs o))) (Z.of_nat i + -1)); [lia|]. cbn [orb].
  destruct i as [|i]; [done|]. destruct (Z.ltb_spec (Z.of_nat (S i) + -1) 0); [lia|].
  replace (Z.to_nat (Z.of_nat (S i) + -1)) with i by lia. rewrite seq_S, filter_app, Nat.add_0_l, filter_cons, filter_nil.
  destruct (is_storage o i) eqn:Es.
  - rewrite decide_False by congruence. rewrite app_nil_r. destruct (IH i ltac:(lia) ltac:(lia)) as [->|E']; [done|by rewrite E' in E].
  - by rewrite decide_True, last_snoc.
Qed.

(** Going back from a program visits those in front of it. *)
Lemma bpf_program__prev_spec (o : bpf_object) i : (i < length (programs o))%nat ->
  bpf_program__prev (Some i) o = last (filter (fun j => is_storage o j = false) (seq 0 i)).
Proof.
  intros Hi. unfold bpf_program__prev. destruct (iter_backward o (S (length (programs o))) i ltac:(lia) ltac:(lia)) as [->|E]; [done|].
  rewrite E in Hi. cbn in Hi. lia.
Qed.

Lemma visited_maps (o : bpf_object) fuel : forall i, (i <= length (maps o))%nat -> (length (maps o) - i <= fuel)%nat ->
  visited (fun m => bpf_map__next m o) fuel (before i) = seq i (length (maps o) - i).
Proof.
  induction fuel as [|fuel IH]; intros i Hi Hf; cbn [visited].
  - by replace (length (maps o) - i)%nat with 0%nat by lia.
  - assert (bpf_map__next (before i) o = if decide (i < length (maps o))%nat then Some i else None) as ->.
    { destruct i as [|i]; cbn.
      - destruct (Nat.eqb_spec (length (maps o)) 0); [by rewrite decide_False by lia|by rewrite decide_True by lia].
      - unfold __bpf_map__iter, zlen. destruct (Z.leb_spec (Z.of_nat (length (maps o))) (Z.of_nat i)); [lia|]. cbn [orb]. destruct (decide _).
        + destruct (Z.leb_spec (Z.of_nat (length (maps o))) (Z.of_nat i + 1)), (Z.ltb_spec (Z.of_nat i + 1) 0); try lia. cbn. f_equal. lia.
        + by destruct (Z.leb_spec (Z.of_nat (length (maps o))) (Z.of_nat i + 1)); [|lia]. }
    destruct (decide _) as [Hlt|Hlt].
    + replace (length (maps o) - i)%nat with (S (length (maps o) - S i)) by lia. cbn [seq]. f_equal. apply (IH (S i)); lia.
    + by replace (length (maps o) - i)%nat with 0%nat by lia.
Qed.

Lemma for_each_map_spec (o : bpf_object) : for_each_map o = seq 0 (length (maps o)).
Proof. unfold for_each_map. change None with (before 0). rewrite visited_maps by lia. by rewrite Nat.sub_0_r. Qed.

(** Installing a preprocessor leaves a program that can be loaded. *)
Lemma set_prep_fresh mem prep p nr f p' prep' :
  bpf_program__set_prep mem prep p nr f = Ok (p', prep') -> fresh_instances prep' p' /\ length (instances p') = Z.to_nat nr.
Proof.
  unfold bpf_program__set_prep. destruct f as [f|]; [|done]. destruct (Z.leb_spec nr 0); [done|]. destruct (p_instances p); [done|].
  destruct mem; [|done]. cbn [negb]. intros [= <- <-]. unfold fresh_instances, instances. cbn. rewrite Z.eqb_refl. split; [|apply repeat_length].
  split; [done|]. split; [by destruct (Z.to_nat nr) eqn:E; [lia|]|]. apply List.Forall_forall. by intros x ->%repeat_spec.
Qed.
