(* ===== verification/ObjList.v ===== *)
(** * The list of objects (src/libbpf/include/linux/list.h, libbpf.c)

    Circular lists linked through nodes inside the objects, on a store of
    nodes; [bpf_objects_list], what opening and closing do to it, and walking
    it. *)

From S2P Require Export Prelude.
From stdpp Require Import gmap.
Open Scope Z_scope.

(** ** Nodes *)

Record list_head := ListHead { next : Z; prev : Z }.
Abbreviation store := (gmap Z list_head).

(** [None] is an access to no node. *)
Definition set_next (a v : Z) (h : store) : option store := n ← h !! a; Some (<[a := ListHead v (prev n)]> h).
Definition set_prev (a v : Z) (h : store) : option store := n ← h !! a; Some (<[a := ListHead (next n) v]> h).

Definition INIT_LIST_HEAD (list : Z) (h : store) : option store :=
  h ← set_next list list h; set_prev list list h.

Definition __list_add (new prev next : Z) (h : store) : option store :=
  h ← set_prev next new h;
  h ← set_next new next h;
  h ← set_prev new prev h;
  set_next prev new h.

Definition list_add (new head : Z) (h : store) : option store :=
  n ← h !! head; __list_add new head (next n) h.

Definition __list_del (prev next : Z) (h : store) : option store :=
  h ← set_prev next prev h; set_next prev next h.

Definition LIST_POISON1 := 0x100.
Definition LIST_POISON2 := 0x200.

Definition list_del (entry : Z) (h : store) : option store :=
  n ← h !! entry;
  h ← __list_del (prev n) (next n) h;
  h ← set_next entry LIST_POISON1 h;
  set_prev entry LIST_POISON2 h.

(** ** Objects *)

Section objects.
(** Where [bpf_objects_list] is, and [list] in a [struct bpf_object]. *)
Context (bpf_objects_list off : Z).

(** [container_of]; an object is its address. *)
Definition list_entry (ptr : Z) : Z := ptr - off.

(** The end of [bpf_object__new], on a zeroed object, and of
    [bpf_object__close]. *)
Definition enter_object (obj : Z) (h : store) : option store :=
  let h := <[obj + off := ListHead 0 0]> h in
  h ← INIT_LIST_HEAD (obj + off) h;
  list_add (obj + off) bpf_objects_list h.
Definition leave_object (obj : Z) (h : store) : option store :=
  h ← list_del (obj + off) h; Some (delete (obj + off) h).

(** The outer option is undefined behaviour, the inner one [NULL]. *)
Definition bpf_object__next (prev : option Z) (h : store) : option (option Z) :=
  let from := match prev with None => bpf_objects_list | Some prev => prev + off end in
  n ← h !! from;
  let next := list_entry (next n) in
  Some (if next + off =? bpf_objects_list then None else Some next).

(** [bpf_object__for_each_safe]: the objects visited, in order. *)
Fixpoint for_each_safe (fuel : nat) (body : Z -> store -> option store) (pos tmp : option Z) (h : store) : option (list Z * store) :=
  match pos with
  | None => Some ([], h)
  | Some p =>
      match fuel with
      | O => None
      | S fuel =>
          h ← body p h;
          tmp' ← bpf_object__next tmp h;
          '(ps, h) ← for_each_safe fuel body tmp tmp' h;
          Some (p :: ps, h)
      end
  end.
Definition bpf_object__for_each_safe (fuel : nat) (body : Z -> store -> option store) (h : store) : option (list Z * store) :=
  pos ← bpf_object__next None h;
  tmp ← bpf_object__next pos h;
  for_each_safe fuel body pos tmp h.
End objects.

(** ** What a store represents *)

(** [y] follows [x]. *)
Definition linked (h : store) (x y : Z) : Prop := next <$> h !! x = Some y /\ prev <$> h !! y = Some x.

(** From [x] over [l] to [z]. *)
Fixpoint chain (h : store) (x : Z) (l : list Z) (z : Z) : Prop :=
  match l with
  | [] => linked h x z
  | y :: l => linked h x y /\ chain h y l z
  end.

Record represents (h : store) (head : Z) (l : list Z) : Prop := {
  rep_nodup : NoDup (head :: l);
  rep_nodes : dom h = list_to_set (head :: l);
  rep_chain : chain h head l head }.

Lemma chain_app h x l1 y l2 z : chain h x (l1 ++ y :: l2) z <-> chain h x l1 y /\ chain h y l2 z.
Proof. revert x. induction l1 as [|a l1 IH]; intros x; cbn [app chain]; [done|]. rewrite IH. tauto. Qed.

(** The first and the last step of a chain. *)
Lemma chain_first h x l z : chain h x l z -> next <$> h !! x = head (l ++ [z]).
Proof. by destruct l; cbn; [intros [? _]|intros [[? _] _]]. Qed.
Lemma chain_last h x l z : chain h x l z -> prev <$> h !! z = last (x :: l).
Proof. revert x. induction l as [|y l IH]; intros x; cbn [chain]; [by intros [_ ?]|]. intros [_ H]. rewrite (IH _ H). done. Qed.

(** A chain looks at where its nodes but the last point next, and where its
    nodes but the first point back. *)
Lemma chain_same h h' x l z : (forall a, a ∈ x :: l -> next <$> h' !! a = next <$> h !! a) ->
  (forall a, a ∈ l ++ [z] -> prev <$> h' !! a = prev <$> h !! a) -> chain h x l z -> chain h' x l z.
Proof.
  revert x. induction l as [|y l IH]; intros x Hn Hp; cbn [chain app] in *; unfold linked.
  - intros [? ?]. rewrite Hn, Hp by set_solver. done.
  - intros [[? ?] Hc]. rewrite (Hn x), (Hp y) by set_solver. split; [done|]. apply IH; [set_solver..|done].
Qed.

(** ** What the operations do to it *)

Lemma set_next_ok a v h : a ∈ dom h -> exists h', set_next a v h = Some h' /\ dom h' = dom h /\
  (forall b, next <$> h' !! b = if decide (b = a) then Some v else next <$> h !! b) /\ (forall b, prev <$> h' !! b = prev <$> h !! b).
Proof.
  intros [n En]%elem_of_dom. unfold set_next. rewrite En. cbn [mbind option_bind]. eexists. split; [done|]. split; [apply dom_insert_lookup_L; by eexists|].
  split; intros b; (destruct (decide (b = a)) as [->|Hne]; [by rewrite lookup_insert_eq, ?En|by rewrite lookup_insert_ne]).
Qed.

Lemma set_prev_ok a v h : a ∈ dom h -> exists h', set_prev a v h = Some h' /\ dom h' = dom h /\
  (forall b, next <$> h' !! b = next <$> h !! b) /\ (forall b, prev <$> h' !! b = if decide (b = a) then Some v else prev <$> h !! b).
Proof.
  intros [n En]%elem_of_dom. unfold set_prev. rewrite En. cbn [mbind option_bind]. eexists. split; [done|]. split; [apply dom_insert_lookup_L; by eexists|].
  split; intros b; (destruct (decide (b = a)) as [->|Hne]; [by rewrite lookup_insert_eq, ?En|by rewrite lookup_insert_ne]).
Qed.

(** Runs one write and keeps what it changes. *)
Ltac write_next H h :=
  match goal with |- context [set_next ?a ?v ?h0] =>
    let E := fresh in let D := fresh "D" in let N := fresh "N" in let P := fresh "P" in
    destruct (set_next_ok a v h0) as (h & E & D & N & P); [H|rewrite E; clear E; cbn [mbind option_bind]] end.
Ltac write_prev H h :=
  match goal with |- context [set_prev ?a ?v ?h0] =>
    let E := fresh in let D := fresh "D" in let N := fresh "N" in let P := fresh "P" in
    destruct (set_prev_ok a v h0) as (h & E & D & N & P); [H|rewrite E; clear E; cbn [mbind option_bind]] end.
(** A node after the writes. *)
Ltac after_writes := repeat match goal with
  | N : forall b, next <$> ?h !! b = _ |- context [next <$> ?h !! ?x] => rewrite (N x)
  | P : forall b, prev <$> ?h !! b = _ |- context [prev <$> ?h !! ?x] => rewrite (P x) end.

Lemma represents_head h head l : represents h head l -> exists n p, h !! head = Some (ListHead n p) /\ List.head (l ++ [head]) = Some n.
Proof.
  intros [_ _ Hc]. apply chain_first in Hc. destruct (h !! head) as [[n p]|] eqn:E.
  - exists n, p. split; [done|]. by destruct l.
  - by destruct l.
Qed.

(** From the first node on nothing but the way back to it changes. *)
Lemma chain_moved h h' x y l z : chain h x l z -> NoDup (l ++ [z]) ->
  next <$> h' !! y = List.head (l ++ [z]) ->
  (forall n, List.head (l ++ [z]) = Some n -> prev <$> h' !! n = Some y) ->
  (forall b, b ∈ l -> next <$> h' !! b = next <$> h !! b) ->
  (forall b, b ∈ l ++ [z] -> List.head (l ++ [z]) <> Some b -> prev <$> h' !! b = prev <$> h !! b) -> chain h' y l z.
Proof.
  intros Hc Hnd Hn Hp Hns Hps. destruct l as [|a l]; cbn [chain app List.head] in *; [by split; [|apply Hp]|].
  split; [by split; [|apply Hp]|]. destruct Hc as [_ Hc]. apply list.NoDup_cons in Hnd as [Ha Hnd].
  revert Hc. apply chain_same; [done|]. intros b Hb. apply Hps; [set_solver|]. intros [= <-]. done.
Qed.

(** A node written to is there. *)
Ltac node_there := repeat match goal with D : dom ?h = dom _ |- _ ∈ dom ?h => rewrite D; clear D end; done.

Lemma list_rcons_case {A} (l : list A) : l = [] \/ exists l' x, l = l' ++ [x].
Proof. induction l as [|x l _] using rev_ind; [by left|right; by exists l, x]. Qed.

Lemma nodup_ring (x : Z) l : NoDup (x :: l) -> NoDup (l ++ [x]).
Proof. intros H. eapply NoDup_Permutation_proper; [|exact H]. symmetry. apply Permutation_cons_append. Qed.

Lemma list_add_ok new head l h h0 : represents h head l -> new ∉ head :: l -> dom h0 = {[new]} ∪ dom h ->
  (forall b, b <> new -> h0 !! b = h !! b) -> exists h', list_add new head h0 = Some h' /\ represents h' head (new :: l).
Proof.
  intros Hr Hnew D0 H0. destruct (represents_head _ _ _ Hr) as (n & p & Eh & En). destruct Hr as [Hnd Hdom Hc].
  assert (n ∈ head :: l) as Hn by (destruct l; injection En as <-; set_solver).
  assert (head <> new /\ n <> new) as [Hne Hnn] by (split; intros ->; [by apply Hnew, list_elem_of_here|done]).
  assert (new ∈ dom h0 /\ head ∈ dom h0 /\ n ∈ dom h0) as (M1 & M2 & M3) by (rewrite D0, Hdom; set_solver).
  unfold list_add. rewrite H0 by done. rewrite Eh. cbn [mbind option_bind next]. unfold __list_add.
  write_prev node_there h1. write_next node_there h2. write_prev node_there h3. write_next node_there h4.
  exists h4. split; [done|]. split.
  - apply list.NoDup_cons in Hnd as [Hh Hnd]. rewrite !list.NoDup_cons. split; [|split]; [|by intros ?; apply Hnew; right|done].
    intros [->|?]%elem_of_cons; done.
  - rewrite D3, D2, D1, D, D0, Hdom. cbn. set_solver.
  - cbn [chain]. split; [split; after_writes; by repeat case_decide|]. apply (chain_moved h h4 head new l head Hc).
    + by apply nodup_ring.
    + after_writes. rewrite decide_False, decide_True by done. done.
    + rewrite En. intros n' [= <-]. after_writes. rewrite decide_False, decide_True by done. done.
    + intros b Hb. assert (b <> head /\ b <> new) as [? ?] by (apply list.NoDup_cons in Hnd as [? _]; set_solver).
      after_writes. rewrite !decide_False, H0 by done. done.
    + intros b Hb. rewrite En. intros Hbn. assert (b <> new) by (intros ->; set_solver).
      after_writes. rewrite !decide_False, H0 by congruence. done.
Qed.

(** Taking out a node: its neighbours point at each other. *)
Lemma chain_cut h h' c l1 x l2 z n : chain h c l1 x -> chain h x l2 z -> NoDup (c :: l1 ++ x :: l2) -> z ∉ l1 ++ x :: l2 ->
  List.head (l2 ++ [z]) = Some n ->
  (forall b, b <> x -> next <$> h' !! b = if decide (Some b = last (c :: l1)) then Some n else next <$> h !! b) ->
  (forall b, b <> x -> prev <$> h' !! b = if decide (b = n) then last (c :: l1) else prev <$> h !! b) ->
  chain h' c (l1 ++ l2) z.
Proof.
  intros H1 H2 Hnd Hz En Hn Hp.
  assert (NoDup (l2 ++ [z]) /\ x ∉ l2 ++ [z] /\ x ∉ c :: l1 /\ (forall b, b ∈ l2 -> b ∉ c :: l1)) as (Hnd2 & Hx2 & Hx1 & Hdisj).
  { change (c :: l1 ++ x :: l2) with ((c :: l1) ++ x :: l2) in Hnd. apply list.NoDup_app in Hnd as (_ & Hd & [Hx Hnd]%list.NoDup_cons).
    split_and!; [|set_solver|intros Hi; by apply (Hd _ Hi), list_elem_of_here|intros b Hb Hi; by apply (Hd _ Hi); right].
    apply list.NoDup_app. split; [done|]. split; [set_solver|apply NoDup_singleton]. }
  assert (exists p, last (c :: l1) = Some p) as [p Ep] by (destruct (last (c :: l1)) eqn:E; [by eexists|by apply last_None in E]).
  assert (p ∈ c :: l1) as Hpin by (apply last_Some in Ep as [? ->]; set_solver).
  assert (n ∈ l2 ++ [z]) as Hnin by (destruct l2; injection En as <-; set_solver).
  assert (chain h' p l2 z) as Htail.
  { apply (chain_moved h h' x p l2 z H2 Hnd2).
    - rewrite Hn, Ep by (intros ->; done). by rewrite decide_True.
    - rewrite En. intros ? [= <-]. rewrite Hp by (intros ->; done). by rewrite decide_True.
    - intros b Hb. rewrite Hn, decide_False; [done|rewrite Ep; intros [= ->]; by apply (Hdisj _ Hb)|intros ->; set_solver].
    - intros b Hb Hne. rewrite Hp, decide_False; [done|congruence|intros ->; done]. }
  destruct (list_rcons_case l1) as [->|(l1' & p' & ->)]; [by injection Ep as <-|].
  rewrite app_comm_cons, last_snoc in Ep. injection Ep as ->. rewrite <- app_assoc. cbn [app]. apply chain_app. split; [|done].
  apply chain_app in H1 as [H1 _]. revert H1. apply list.NoDup_cons in Hnd as [Hc Hnd]. rewrite <- app_assoc in Hnd. apply list.NoDup_app in Hnd as (_ & Hd & _).
  apply chain_same; intros a Ha.
  - rewrite Hn, decide_False; [done|rewrite app_comm_cons, last_snoc; intros [= ->]|intros ->; set_solver].
    apply elem_of_cons in Ha as [->|Ha]; [apply Hc; set_solver|]. apply (Hd _ Ha). set_solver.
  - rewrite Hp, decide_False; [done|intros ->|intros ->; set_solver].
    apply elem_of_app in Hnin as [Hi|Hi]; [apply (Hdisj _ Hi); set_solver|]. apply list_elem_of_singleton in Hi. subst. apply Hz. set_solver.
Qed.

Lemma list_del_ok h head l1 x l2 : represents h head (l1 ++ x :: l2) ->
  exists h', list_del x h = Some h' /\ represents (delete x h') head (l1 ++ l2).
Proof.
  intros [Hnd Hdom Hc]. apply chain_app in Hc as [H1 H2]. pose proof (chain_last _ _ _ _ H1) as Ep. pose proof (chain_first _ _ _ _ H2) as En.
  destruct (h !! x) as [[n p]|] eqn:Ex; [|by destruct l2]. cbn [fmap option_fmap option_map next prev] in Ep, En.
  assert (x ∈ dom h /\ n ∈ dom h /\ p ∈ dom h) as (M1 & M2 & M3).
  { split; [by eapply elem_of_dom_2|]. rewrite Hdom. split; [destruct l2; injection En as <-; set_solver|].
    symmetry in Ep. apply last_Some in Ep as [l' E]. destruct l'; injection E as -> ->; set_solver. }
  unfold list_del. rewrite Ex. cbn [mbind option_bind next prev]. unfold __list_del.
  write_prev node_there h1. write_next node_there h2. write_next node_there h3. write_prev node_there h4.
  exists h4. split; [done|]. split.
  - change (head :: l1 ++ x :: l2) with ((head :: l1) ++ x :: l2) in Hnd. apply list.NoDup_app in Hnd as (Ha & Hd & [_ Hb]%list.NoDup_cons).
    change (head :: l1 ++ l2) with ((head :: l1) ++ l2). apply list.NoDup_app. split_and!; [done| |done]. intros b Hb1 Hb2. apply (Hd _ Hb1). by right.
  - rewrite dom_delete_L, D2, D1, D0, D, Hdom. clear -Hnd. assert (x ∉ head :: l1 ++ l2); [|set_solver].
    revert Hnd. rewrite <- (Permutation_middle (head :: l1) l2 x). intros [? _]%list.NoDup_cons. done.
  - apply (chain_cut h _ head l1 x l2 head n H1 H2 Hnd); [|done| |].
    + by apply list.NoDup_cons in Hnd as [? _].
    + intros b Hb. rewrite <- Ep, lookup_delete_ne by congruence. after_writes.
      repeat case_decide; by simplify_eq.
    + intros b Hb. rewrite lookup_delete_ne by congruence. after_writes. repeat case_decide; try done.
Qed.

Lemma represents_empty h head : represents h head [] -> h = {[ head := ListHead head head ]}.
Proof.
  intros [_ Hd [Hn Hp]]. apply map_eq. intros a. destruct (decide (a = head)) as [->|Hne].
  - rewrite lookup_singleton_eq. by destruct (h !! head) as [[n p]|]; [injection Hn as ->; injection Hp as ->|].
  - rewrite lookup_singleton_ne by done. apply not_elem_of_dom. rewrite Hd. set_solver.
Qed.

(** ** Opening, closing and walking *)

Inductive command := Open (obj : Z) | Close (obj : Z).

Section spec.
Context (bpf_objects_list off : Z).
Local Abbreviation node := (fun obj => obj + off).

Definition exec (c : command) : store -> option store :=
  match c with Open obj => enter_object bpf_objects_list off obj | Close obj => leave_object off obj end.
Fixpoint exec_all (cs : list command) (h : store) : option store :=
  match cs with [] => Some h | c :: cs => h ← exec c h; exec_all cs h end.

(** The objects that are open, the youngest first. *)
Definition opened (c : command) (objs : list Z) : list Z :=
  match c with Open obj => obj :: objs | Close obj => filter (fun o => o <> obj) objs end.
Definition opened_all (cs : list command) (objs : list Z) : list Z := fold_left (fun objs c => opened c objs) cs objs.

(** A new object is new memory, an open one is closed. *)
Definition allowed (c : command) (objs : list Z) : Prop :=
  match c with Open obj => node obj ∉ bpf_objects_list :: map node objs | Close obj => obj ∈ objs end.
Fixpoint allowed_all (cs : list command) (objs : list Z) : Prop :=
  match cs with [] => True | c :: cs => allowed c objs /\ allowed_all cs (opened c objs) end.

Local Abbreviation holds h objs := (represents h bpf_objects_list (map node objs)).

Lemma node_inj objs : NoDup (map node objs) -> NoDup objs.
Proof using. apply NoDup_fmap_1. Qed.

Lemma close_split obj objs : NoDup objs -> obj ∈ objs -> exists l1 l2, objs = l1 ++ obj :: l2 /\ opened (Close obj) objs = l1 ++ l2.
Proof using.
  intros Hnd (l1 & l2 & ->)%list_elem_of_split. exists l1, l2. split; [done|]. cbn [opened].
  apply list.NoDup_app in Hnd as (_ & Hd & [Hx _]%list.NoDup_cons).
  assert (forall l : list Z, obj ∉ l -> filter (fun o => o <> obj) l = l) as Hid.
  { induction l as [|a l IH]; intros Hl; [done|]. rewrite filter_cons_True by (intros ->; apply Hl, list_elem_of_here). rewrite IH; [done|]. intros Hi. apply Hl. by right. }
  rewrite list.filter_app, filter_cons_False by auto. rewrite !Hid; [done..|]. intros Hi. apply (Hd _ Hi), list_elem_of_here.
Qed.

Lemma enter_ok obj objs h : holds h objs -> allowed (Open obj) objs ->
  exists h', enter_object bpf_objects_list off obj h = Some h' /\ holds h' (obj :: objs).
Proof using.
  intros Hr Hn. cbn [allowed] in Hn. unfold enter_object, INIT_LIST_HEAD. set (n := obj + off) in *.
  unfold set_next at 1. rewrite lookup_insert_eq. cbn [mbind option_bind]. rewrite insert_insert_eq.
  unfold set_prev at 1. rewrite lookup_insert_eq. cbn [mbind option_bind]. rewrite insert_insert_eq.
  apply (list_add_ok n _ _ h); [done..|apply dom_insert_L|]. intros b Hb. by rewrite lookup_insert_ne.
Qed.

Lemma leave_ok obj l1 l2 h : holds h (l1 ++ obj :: l2) -> exists h', leave_object off obj h = Some h' /\ holds h' (l1 ++ l2).
Proof using.
  rewrite map_app. cbn [map]. intros (h' & E & Hr)%list_del_ok. unfold leave_object. rewrite E. cbn [mbind option_bind].
  eexists. split; [done|]. by rewrite map_app.
Qed.

Lemma exec_all_ok cs : forall objs h, holds h objs -> allowed_all cs objs ->
  exists h', exec_all cs h = Some h' /\ holds h' (opened_all cs objs).
Proof using.
  induction cs as [|c cs IH]; intros objs h Hr Ha; cbn [exec_all]; [by exists h|]. destruct Ha as [Hc Ha].
  assert (exists h', exec c h = Some h' /\ holds h' (opened c objs)) as (h1 & E & Hr1).
  { destruct c as [obj|obj]; cbn [exec]; [by apply enter_ok|].
    assert (NoDup objs) as Hnd by (destruct Hr as [[_ Hnd]%list.NoDup_cons _ _]; by apply node_inj).
    destruct (close_split obj objs Hnd Hc) as (l1 & l2 & -> & ->). by apply leave_ok. }
  rewrite E. cbn [mbind option_bind]. by apply IH.
Qed.

(** The successor of an object, and of none. *)
Lemma next_ok h l1 l2 : holds h (l1 ++ l2) -> bpf_object__next bpf_objects_list off (last l1) h = Some (head l2).
Proof using.
  intros [Hnd _ Hc]. unfold bpf_object__next.
  assert (next <$> h !! (match last l1 with Some p => p + off | None => bpf_objects_list end) = head (map node l2 ++ [bpf_objects_list])) as E.
  { rewrite map_app in Hc. destruct (list_rcons_case l1) as [->|(l & p & ->)]; [by apply chain_first in Hc|].
    rewrite last_snoc. rewrite map_app, <- app_assoc in Hc. cbn [map app] in Hc. apply chain_app in Hc as [_ Hc]. by apply chain_first in Hc. }
  destruct (h !! _) as [nd|]; [|by destruct l2]. cbn [fmap option_fmap option_map mbind option_bind] in *. unfold list_entry. rewrite Z.sub_add.
  destruct l2 as [|o l2]; injection E as ->; [by rewrite Z.eqb_refl|].
  rewrite (proj2 (Z.eqb_neq _ _)). { cbn. do 2 f_equal. lia. }
  intros Heq. apply list.NoDup_cons in Hnd as [Hn _]. apply Hn. rewrite map_app. cbn [map]. rewrite <- Heq. set_solver.
Qed.

(** Closing each object as it is visited. *)
Lemma close_loop objs : forall fuel h, (length objs <= fuel)%nat -> holds h objs ->
  exists h', for_each_safe bpf_objects_list off fuel (leave_object off) (head objs) (head (tail objs)) h = Some (objs, h') /\ holds h' [].
Proof using.
  induction objs as [|o objs IH]; intros fuel h Hf Hr; [exists h; by destruct fuel|]. destruct fuel as [|fuel]; [cbn in Hf; lia|].
  cbn [for_each_safe head list.head tail]. destruct (leave_ok o [] objs h Hr) as (h1 & E & Hr1). rewrite E. cbn [mbind option_bind app] in *.
  assert (bpf_object__next bpf_objects_list off (head objs) h1 = Some (head (tail objs))) as ->.
  { destruct objs as [|t objs]; [by apply (next_ok h1 [] [])|]. by apply (next_ok h1 [t] objs). }
  cbn [mbind option_bind]. destruct (IH fuel h1) as (h2 & E2 & Hr2); [cbn in Hf; lia|done|]. rewrite E2. cbn [mbind option_bind]. by exists h2.
Qed.

(** C36. Whatever objects are opened and closed, the list holds those that are
    open, each once and the youngest first, and no node of another: walking
    meets them in that order and ends, also when the loop closes every object
    it meets, which leaves the list empty. *)
Theorem objects_refine cs : allowed_all cs [] ->
  let objs := opened_all cs [] in
  exists h, exec_all cs {[ bpf_objects_list := ListHead bpf_objects_list bpf_objects_list ]} = Some h /\
    NoDup objs /\ dom h = list_to_set (bpf_objects_list :: map node objs) /\
    (forall l1 l2, objs = l1 ++ l2 -> bpf_object__next bpf_objects_list off (last l1) h = Some (head l2)) /\
    exists h', bpf_object__for_each_safe bpf_objects_list off (length objs) (leave_object off) h = Some (objs, h') /\
      h' = {[ bpf_objects_list := ListHead bpf_objects_list bpf_objects_list ]}.
Proof using.
  intros Ha objs. destruct (exec_all_ok cs [] {[bpf_objects_list := ListHead bpf_objects_list bpf_objects_list]}) as (h & E & Hr); [|done|].
  { split; [by apply NoDup_singleton|by rewrite dom_singleton_L; cbn; set_solver|]. cbn. unfold linked. by rewrite lookup_singleton_eq. }
  exists h. fold objs in Hr. split; [done|]. pose proof Hr as [[_ Hnd]%list.NoDup_cons Hd _]. split; [by apply node_inj|]. split; [done|].
  split; [intros l1 l2 Eo; apply next_ok; by rewrite <- Eo|].
  unfold bpf_object__for_each_safe. pose proof (next_ok h [] objs Hr) as E1. cbn [last list.last] in E1. rewrite E1. cbn [mbind option_bind].
  assert (exists tmp, bpf_object__next bpf_objects_list off (head objs) h = Some tmp /\
    for_each_safe bpf_objects_list off (length objs) (leave_object off) (head objs) tmp h
      = for_each_safe bpf_objects_list off (length objs) (leave_object off) (head objs) (head (tail objs)) h) as (tmp & -> & El).
  { clearbody objs. destruct objs as [|o objs]; [by exists None|]. exists (head objs). split; [by apply (next_ok h [o] objs)|done]. }
  cbn [mbind option_bind]. rewrite El. destruct (close_loop objs (length objs) h) as (h' & -> & Hr'); [done..|]. exists h'. split; [done|].
  by apply represents_empty.
Qed.
End spec.

#[export] Instance allowed_dec bpf_objects_list off c objs : Decision (allowed bpf_objects_list off c objs).
Proof. destruct c; cbn; apply _. Defined.
#[export] Instance allowed_all_dec bpf_objects_list off cs : forall objs, Decision (allowed_all bpf_objects_list off cs objs).
Proof. induction cs; intros objs; cbn; apply _. Defined.

(** Two of three objects are left. *)
Definition ex_commands : list command := [Open 2000; Open 3000; Close 2000; Open 4000].

Lemma objects_refine_witness : let objs := [4000; 3000] in
  exists h, exec_all 1000 16 ex_commands {[ 1000 := ListHead 1000 1000 ]} = Some h /\
    NoDup objs /\ dom h = list_to_set (1000 :: map (fun obj => obj + 16) objs) /\
    (forall l1 l2, objs = l1 ++ l2 -> bpf_object__next 1000 16 (last l1) h = Some (head l2)) /\
    exists h', bpf_object__for_each_safe 1000 16 (length objs) (leave_object 16) h = Some (objs, h') /\
      h' = {[ 1000 := ListHead 1000 1000 ]}.
Proof.
  apply (objects_refine 1000 16 ex_commands), (bool_decide_unpack _). vm_compute. exact I.
Defined.

(** An object cannot be closed twice: its node is gone. *)
Example ex_close_twice : exec_all 1000 16 [Open 2000; Close 2000; Close 2000] {[ 1000 := ListHead 1000 1000 ]} = None.
Proof. vm_compute. reflexivity. Qed.
