(* ===== verification/ObjPriv.v ===== *)
(** * Private data of objects, maps and programs (src/libbpf/src/libbpf.c)

    A caller may hang a pointer on an object, a map or a program, with a
    function that is called when it is no longer there.  Calls of these
    functions are collected in order. *)

From S2P Require Export Prelude.
Open Scope Z_scope.

(** [NULL] is 0 for the data and [None] for the function, which is a number. *)
Record slot := Slot { priv : Z; clear_priv : option Z }.
Definition zeroed : slot := Slot 0 None.

(** A function called with its data. *)
Definition call := (Z * Z)%type.
Definition cleared (s : slot) : list call := match clear_priv s with Some f => [(f, priv s)] | None => [] end.

(** Each gives the calls and what the slot is then. *)
Definition bpf_object__set_priv (obj : slot) (value : Z) (clear : option Z) : list call * slot :=
  (if negb (priv obj =? 0) then cleared obj else [], Slot value clear).
Definition bpf_program__set_priv (prog : slot) (value : Z) (clear : option Z) : list call * slot :=
  (if negb (priv prog =? 0) then cleared prog else [], Slot value clear).
Definition bpf_map__set_priv (map : option slot) (value : Z) (clear : option Z) : result (list call * slot) :=
  match map with
  | None => Err (- EINVAL)
  | Some map => Ok (if negb (priv map =? 0) then cleared map else [], Slot value clear)
  end.

(** A pointer or the error [-EINVAL] for [NULL]. *)
Definition get_priv (s : option slot) : result Z := match s with Some s => Ok (priv s) | None => Err (- EINVAL) end.
Definition bpf_object__priv := get_priv.
Definition bpf_program__priv := get_priv.
Definition bpf_map__priv := get_priv.

(** The beginning of [bpf_program__exit]. *)
Definition exit_priv (prog : slot) : list call * slot := (cleared prog, zeroed).
(** The calls of [bpf_object__close]: the object's, its maps' and its
    programs'. *)
Definition close_priv (obj : slot) (maps programs : list slot) : list call :=
  cleared obj ++ List.concat (List.map cleared maps) ++ List.concat (List.map (fun p => (exit_priv p).1) programs).

(** ** Every value is cleared once *)

Fixpoint set_all (vs : list (Z * option Z)) (s : slot) : list call * slot :=
  match vs with
  | [] => ([], s)
  | (v, f) :: vs => let '(c, s) := bpf_object__set_priv s v f in let '(cs, s) := set_all vs s in (c ++ cs, s)
  end.

(** Data and function of one setting. *)
Definition owed (v : Z * option Z) : list call := cleared (Slot v.1 v.2).

(** From a new slot on, everything set is given to its function once, in the
    order of setting, by the next setting or when its owner is closed.  Only the
    last one is, too, when there is no data. *)
Theorem private_cleared vs v f : let '(cs, s) := set_all (vs ++ [(v, f)]) zeroed in
  cs ++ cleared s = List.concat (List.map owed (List.filter (fun x => negb (x.1 =? 0)) vs)) ++ owed (v, f).
Proof.
  assert (forall vs s, let '(cs, s') := set_all (vs ++ [(v, f)]) s in
    cs ++ cleared s' = (if negb (priv s =? 0) then cleared s else []) ++ List.concat (List.map owed (List.filter (fun x => negb (x.1 =? 0)) vs)) ++ owed (v, f)) as Hall.
  { induction vs0 as [|[v1 f1] vs0 IH]; intros s; cbn [app set_all bpf_object__set_priv].
    - by rewrite app_nil_r.
    - specialize (IH (Slot v1 f1)). destruct (set_all (vs0 ++ [(v, f)]) (Slot v1 f1)) as [cs s']. rewrite <- app_assoc, IH. f_equal.
      cbn [priv List.filter fst]. destruct (negb (v1 =? 0)); [|done]. cbn [List.map List.concat]. by rewrite <- app_assoc. }
  exact (Hall vs zeroed).
Qed.
