(* ===== verification/ProgLoad.v ===== *)
(** * Opening and loading in one call (src/libbpf/src/libbpf.c, [bpf_prog_load_xattr])

    The file is opened, its programs get their types, by the name of their
    section if the caller gives none, and the object is loaded. *)

From S2P Require Export ObjAccess SecNames.
Open Scope Z_scope.

Record bpf_prog_load_attr := ProgLoadAttr {
  xa_file : option str; xa_prog_type : Z; xa_expected_attach_type : Z; xa_ifindex : Z }.

Definition BPF_PROG_TYPE_UNSPEC := 0.

(** The file system and libelf: whether its version is known, the errno of opening a path, if it fails, and
    the ELF file of a path or a buffer with whether its header can be read. *)
Class ElfFiles := {
  elf_version : bool;
  file_open : str -> option Z;
  elf_begin : str -> option elf_file;
  elf_memory : list Z -> option elf_file;
  gelf_getehdr : elf_file -> bool }.

Section prog_load.
Context {K : Type} `{Kernel bpf_insn K}.
(** As for opening and loading. *)
Context (e : endian) (alloc : nat -> bool) (btf_alloc : Z -> bool) `{Qsort} `{ElfFiles}
  (bpf_load_btf : list Z -> result Z) (load_alloc : nat -> bool) (sys_alloc : nat -> nat -> Z -> bool)
  (junk : Z) (junk_log : nat -> bool) (fuel : nat).
Local Abbreviation LM := (ST (bpf_object * nat * K)).

(** [obj_buf] is empty when the file is at [path]. *)
Definition bpf_object__elf_init (path : str) (obj_buf : list Z) : result elf_file :=
  let from (elf : option elf_file) : result elf_file :=
    match elf with
    | None => Err (- LIBBPF_ERRNO__LIBELF)
    | Some elf => if negb (gelf_getehdr elf) then Err (- LIBBPF_ERRNO__FORMAT) else Ok elf
    end in
  if 0 <? zlen obj_buf then from (elf_memory obj_buf) else
  match file_open path with
  | Some errno => Err (- errno)
  | None => from (elf_begin path)
  end.

(** Opening, of which [__bpf_object__open] is the part that has an ELF file; the
    object is allocated first. *)
Definition open_object (path : str) (obj_buf : list Z) (needs_kver : bool) (flags : Z) : outcome bpf_object :=
  if negb elf_version then Some (Err (- LIBBPF_ERRNO__LIBELF)) else
  match bpf_object__elf_init path obj_buf with
  | Ok elf => __bpf_object__open e alloc btf_alloc elf bpf_load_btf needs_kver flags
  | Err err => Some (Err (if alloc 0%nat then err else - ENOMEM))
  end.

(** The type of a program. *)
Definition program_type (attr : bpf_prog_load_attr) (p : bpf_program) : result (Z * Z) :=
  if xa_prog_type attr =? BPF_PROG_TYPE_UNSPEC then libbpf_prog_type_by_name (Some (p_section_name p))
  else Ok (xa_prog_type attr, xa_expected_attach_type attr).

Definition typed (attr : bpf_prog_load_attr) (p : bpf_program) (t : Z * Z) : bpf_program :=
  bpf_program__set_expected_attach_type (bpf_program__set_type (set_p_ifindex p (xa_ifindex attr)) t.1) t.2.

Definition set_program_type (attr : bpf_prog_load_attr) (i : nat) : OM unit :=
  let* p := get_prog i in
  match program_type attr p with
  | Ok t => put_prog i (typed attr p t)
  | Err err => fail err
  end.

Definition set_map_ifindex (attr : bpf_prog_load_attr) (i : nat) : OM unit :=
  let* m := get_map i in
  if bpf_map__is_offload_neutral m then ret tt else put_map i (bpf_map__set_ifindex m (xa_ifindex attr)).

(** What is done with the opened object; the error is the caller's. *)
Definition prepare_and_load (attr : bpf_prog_load_attr) : LM Z :=
  let* o := in_obj obj in
  let* r := try (in_obj (each (set_program_type attr) (for_each_program o))) in
  match r with
  | Err _ => let* _ := bpf_object__close in fail (- EINVAL)
  | Ok _ =>
      let* _ := in_obj (each (set_map_ifindex attr) (for_each_map o)) in
      match head (for_each_program o) with
      | None => let* _ := bpf_object__close in fail (- ENOENT)
      | Some first =>
          let* r := try (bpf_object__load e load_alloc btf_alloc sys_alloc junk junk_log fuel (fun _ => None)) in
          match r with
          | Err _ => let* _ := bpf_object__close in fail (- EINVAL)
          | Ok _ => let* p := in_obj (get_prog first) in ret (bpf_program__fd p)
          end
      end
  end.

(** The error, or the object and the descriptor of its first program.  A
    positive error of opening is a pointer that is not an object. *)
Definition bpf_prog_load_xattr (attr : bpf_prog_load_attr) (k : K) : option (result (bpf_object * Z) * K) :=
  match xa_file attr with
  | None => Some (Err (- EINVAL), k)
  | Some file =>
      r ← open_object file [] (bpf_prog_type__needs_kver (xa_prog_type attr)) 0;
      match r with
      | Err err => if IS_ERR (ERR_PTR err) then Some (Err (- ENOENT), k) else None
      | Ok o =>
          '(r, (o, _, k)) ← prepare_and_load attr (o, 0%nat, k);
          Some (match r with Ok fd => Ok (o, fd) | Err err => Err err end, k)
      end
  end.

Definition bpf_prog_load (file : option str) (type : Z) : K -> option (result (bpf_object * Z) * K) :=
  bpf_prog_load_xattr (ProgLoadAttr file type 0 0).

(** The other ways to open an object; [NULL] is [None]. *)
Definition opened_as (path : str) (obj_buf : list Z) (needs_kver : bool) (flags : Z) : outcome (option bpf_object) :=
  r ← open_object path obj_buf needs_kver flags;
  Some (match r with Ok o => Ok (Some o) | Err err => Err err end).

Definition __bpf_object__open_xattr (file : option str) (prog_type flags : Z) : outcome (option bpf_object) :=
  match file with None => Some (Ok None) | Some file => opened_as file [] (bpf_prog_type__needs_kver prog_type) flags end.
Definition bpf_object__open_xattr (file : option str) (prog_type : Z) : outcome (option bpf_object) :=
  __bpf_object__open_xattr file prog_type 0.
Definition bpf_object__open (path : option str) : outcome (option bpf_object) := bpf_object__open_xattr path BPF_PROG_TYPE_UNSPEC.

(** [tmp_name] is the name made of the address and the size. *)
Definition bpf_object__open_buffer (obj_buf : option (list Z)) (name : option str) (tmp_name : str) : outcome (option bpf_object) :=
  match obj_buf with
  | None => Some (Ok None)
  | Some buf => if zlen buf <=? 0 then Some (Ok None) else opened_as (default tmp_name name) buf true 1
  end.
End prog_load.

(** ** The composition *)

(** The object [o] with its types. *)
Definition typed_program (attr : bpf_prog_load_attr) (o : bpf_object) (i : nat) (p : bpf_program) : bpf_program :=
  if is_storage o i then p else match program_type attr p with Ok t => typed attr p t | Err _ => p end.
Definition typed_map (attr : bpf_prog_load_attr) (m : bpf_map) : bpf_map :=
  if bpf_map__is_offload_neutral m then m else bpf_map__set_ifindex m (xa_ifindex attr).
Definition typed_object (attr : bpf_prog_load_attr) (o : bpf_object) : bpf_object :=
  set_maps (set_programs o (imap (typed_program attr o) (programs o))) (List.map (typed_map attr) (maps o)).

(** Every program that is loaded has a type. *)
Definition all_typed (attr : bpf_prog_load_attr) (o : bpf_object) : bool :=
  forallb (fun i => match programs o !! i with
    | Some p => is_storage o i || match program_type attr p with Ok _ => true | Err _ => false end
    | None => true end) (seq 0 (length (programs o))).

Section types.
Context (attr : bpf_prog_load_attr) (o : bpf_object) (n : nat).
Local Abbreviation OS := (bpf_object * nat)%type.

Definition has_type (i : nat) : Prop :=
  forall p, programs o !! i = Some p -> exists t, program_type attr p = Ok t.

(** The programs [l] are still without their types. *)
Record typing (l : list nat) (s : OS) : Prop := {
  ty_state : exists ps, s = (set_programs o ps, n) /\ length ps = length (programs o) /\
    forall i p, programs o !! i = Some p -> ps !! i = Some (if decide (i ∈ l) then p else typed_program attr o i p);
  ty_nodup : NoDup l;
  ty_in i : i ∈ l -> i ∈ programs_of o;
  ty_done i : i ∈ programs_of o -> i ∉ l -> has_type i
}.

(** Types have been set, perhaps not all. *)
Definition same_descriptors (s : OS) : Prop :=
  exists ps, s = (set_programs o ps, n) /\
    Forall2 (fun p q => p_instances q = p_instances p /\ p_btf_fd q = p_btf_fd p) (programs o) ps.

Lemma typed_same i p : p_instances (typed_program attr o i p) = p_instances p /\ p_btf_fd (typed_program attr o i p) = p_btf_fd p.
Proof. unfold typed_program. destruct (is_storage o i); [done|]. by destruct (program_type attr p). Qed.

Lemma typing_same l s : typing l s -> same_descriptors s.
Proof.
  intros [(ps & -> & Hl & Hps) _ _ _]. exists ps. split; [done|]. apply Forall2_same_length_lookup. split; [done|].
  intros i p q Hp Hq. rewrite (Hps i p Hp) in Hq. injection Hq as <-. destruct (decide _); [done|]. apply typed_same.
Qed.

Lemma set_types_run :
  runs False (fun _ s => same_descriptors s /\ all_typed attr o = false)
    (fun _ s => s = (set_programs o (imap (typed_program attr o) (programs o)), n) /\ all_typed attr o = true)
    (each (set_program_type attr) (for_each_program o)) (o, n).
Proof.
  rewrite for_each_program_spec. eapply run_mono; [apply (run_each _ _ typing)|].
  - intros i l s Hs. pose proof Hs as [(ps & -> & Hl & Hps) Hnd Hin Hdone]. apply list.NoDup_cons in Hnd as [Hni Hnd].
    destruct (proj1 (elem_of_programs_of o i) (Hin i ltac:(by left))) as [Hst Hlt].
    destruct (lookup_lt_is_Some_2 _ _ Hlt) as [p Hp]. pose proof (Hps i p Hp) as Hq. rewrite decide_True in Hq by by left.
    unfold set_program_type. apply run_bind. unfold runs at 1, get_prog, bind, obj, lift. cbn [fst set_programs programs]. rewrite Hq. cbn.
    destruct (program_type attr p) as [t|err] eqn:Et.
    + apply run_modify. cbn [fst snd]. split.
      * exists (<[i := typed attr p t]> ps). split; [done|]. split; [by rewrite length_insert|]. intros j pj Hj.
        destruct (decide (j = i)) as [->|Hne].
        -- rewrite (insert_same _ _ _ _ Hq), decide_False by done. assert (pj = p) as -> by congruence. unfold typed_program. by rewrite Hst, Et.
        -- rewrite list_lookup_insert_ne, (Hps j pj Hj) by done. f_equal.
           destruct (decide (j ∈ i :: l)) as [Hj1|Hj1], (decide (j ∈ l)) as [Hj2|Hj2]; try done; rewrite elem_of_cons in Hj1; tauto.
      * done.
      * intros j Hj. apply Hin. by right.
      * intros j Hj Hnj. destruct (decide (j = i)) as [->|Hne]; [intros q Eq; exists t; congruence|].
        apply Hdone; [done|]. rewrite elem_of_cons. tauto.
    + split; [by eapply typing_same|]. apply not_true_is_false. unfold all_typed. rewrite forallb_forall. intros Ha.
      specialize (Ha i (proj2 (in_seq (length (programs o)) 0 i) (conj (Nat.le_0_l i) Hlt))). by rewrite Hp, Hst, Et in Ha.
  - split; [| |done|done].
    + exists (programs o). split; [by rewrite set_programs_same|]. split; [done|]. intros i p Hp. rewrite Hp. f_equal.
      destruct (decide _) as [|Hi]; [done|]. unfold typed_program. rewrite elem_of_programs_of in Hi.
      destruct (is_storage o i) eqn:Es; [done|]. exfalso. apply Hi. split; [done|]. by eapply lookup_lt_Some.
    + apply list.NoDup_filter, list.NoDup_seq.
  - intros [] s [(ps & -> & Hl & Hps) _ _ Hdone]. split.
    + do 2 f_equal. apply list_eq. intros i. rewrite list_lookup_imap. destruct (programs o !! i) as [p|] eqn:Ep.
      * rewrite (Hps i p Ep), decide_False by (intros Hi; inversion Hi). done.
      * cbn. apply lookup_ge_None_2. apply lookup_ge_None_1 in Ep. lia.
    + unfold all_typed. rewrite forallb_forall. intros i Hi. destruct (programs o !! i) as [p|] eqn:Ep; [|done].
      destruct (is_storage o i) eqn:Es; [done|]. apply lookup_lt_Some in Ep as Hlt.
      destruct (Hdone i (proj2 (elem_of_programs_of o i) (conj Es Hlt)) ltac:(intros Hx; inversion Hx) p Ep) as [t ->]. done.
Qed.

(** Interfaces of maps. *)
Lemma set_ifindexes_run U E (P : unit -> OS -> Prop) (o1 : bpf_object) todo : forall k done,
  maps o1 = List.map (typed_map attr) done ++ drop k (maps o) -> length done = k -> (k + todo = length (maps o))%nat ->
  done = take k (maps o) ->
  P tt (set_maps o1 (List.map (typed_map attr) (maps o)), n) ->
  runs U E P (each (set_map_ifindex attr) (seq k todo)) (o1, n).
Proof.
  revert o1. induction todo as [|todo IH]; intros o1 k done Em Hk Hl Hd HP; cbn [seq each].
  - apply run_ret. assert (set_maps o1 (List.map (typed_map attr) (maps o)) = o1) as <-; [|done].
    assert (List.map (typed_map attr) (maps o) = maps o1) as ->; [|by destruct o1].
    rewrite Em, Hd, drop_ge, app_nil_r, take_ge by lia. done.
  - destruct (lookup_lt_is_Some_2 (maps o) k ltac:(lia)) as [m Hm].
    assert (maps o1 !! k = Some m) as Hm1.
    { rewrite Em, lookup_app_r by (rewrite List.length_map; lia). rewrite List.length_map, Hk, lookup_drop, Nat.sub_diag, Nat.add_0_r. done. }
    assert (<[k := typed_map attr m]> (maps o1) = List.map (typed_map attr) (take (S k) (maps o)) ++ drop (S k) (maps o)) as Ei.
    { rewrite Em, (drop_S _ _ _ Hm), insert_app_r_alt by (rewrite List.length_map; lia). rewrite List.length_map, Hk, Nat.sub_diag. cbn.
      rewrite (take_S_r _ _ _ Hm), List.map_app, <- app_assoc. by rewrite Hd. }
    apply run_bind. unfold set_map_ifindex. apply run_bind. unfold runs at 1, get_map, bind, obj, lift. cbn [fst]. rewrite Hm1. cbn.
    assert (length (take (S k) (maps o)) = S k) as Hlk by (rewrite length_take; lia).
    unfold typed_map in Ei at 1. destruct (bpf_map__is_offload_neutral m).
    + apply run_ret. rewrite list_insert_id in Ei by done. by apply (IH o1 (S k) (take (S k) (maps o))); [|done|lia|done|].
    + unfold put_map, upd. apply run_modify. cbn [fst snd]. by apply (IH _ (S k) (take (S k) (maps o))); [|done|lia|done|].
Qed.
End types.

(** ** An opened object without BTF information, prepared *)

Section opened.
Context (e : endian) (elf : elf_file) (flags : Z) (attr : bpf_prog_load_attr) (o : bpf_object).
Hypothesis Hopen : object_opened e elf flags o.

Lemma opened_map_ok : Forall (fun m => exists e data size, map_ok e data size m) (maps o).
Proof using Hopen.
  destruct (oo_maps _ _ _ _ Hopen) as [symtab Hm]. unfold maps_of in Hm. destruct (_ <? 0); [by rewrite Hm|].
  destruct Hm as (syms & data & _ & _ & [(ms & Hp & HF) _ _]). rewrite Hp. eapply Forall2_Forall_r; [exact HF|].
  apply Forall_forall. intros sym _ m (_ & _ & Hok & _). by do 3 eexists.
Qed.

Lemma opened_maps : Forall (fun m => m_fd m = -1) (maps o).
Proof using Hopen. eapply List.Forall_impl; [|exact opened_map_ok]. by intros m (e' & data & size & []). Qed.

Lemma opened_names : Forall (fun m => is_Some (m_name m)) (maps o).
Proof using Hopen. eapply List.Forall_impl; [|exact opened_map_ok]. by intros m (e' & data & size & []). Qed.

Lemma opened_instances : List.map instances (programs o) = List.map (fun _ => []) (programs o).
Proof using Hopen.
  apply map_ext_in. intros p Hp. unfold instances. pose proof (oo_ok _ _ _ _ Hopen) as Hok. rewrite List.Forall_forall in Hok.
  by rewrite (po_instances _ _ (Hok p Hp)).
Qed.

Lemma own_nothing (ms : list bpf_map) (ps : list bpf_program) o1 : maps o1 = ms -> programs o1 = ps ->
  Forall (fun m => m_fd m = -1) ms -> Forall (fun p => p_instances p = None) ps -> own o1 = [].
Proof using.
  clear. intros <- <- Hm Hp. unfold own.
  assert (concat (List.map instances (programs o1)) = []) as ->.
  { induction Hp as [|p ps Ep _ IH]; [done|]. cbn. unfold instances at 1. by rewrite Ep. }
  rewrite app_nil_r. apply nonneg_empty. apply Forall_map. exact Hm.
Qed.

Lemma opened_none : Forall (fun p => p_instances p = None /\ p_btf_fd p = -1) (programs o).
Proof using Hopen. eapply List.Forall_impl; [|exact (oo_ok _ _ _ _ Hopen)]. by intros p []. Qed.

(** Types and interfaces do not give an object descriptors. *)
Lemma own_prepared ps ms : Forall2 (fun p q => p_instances q = p_instances p /\ p_btf_fd q = p_btf_fd p) (programs o) ps ->
  Forall (fun m => m_fd m = -1) ms -> own (set_maps (set_programs o ps) ms) = [] /\ Forall (btf_fine (set_maps (set_programs o ps) ms)) ps.
Proof using Hopen.
  intros Hps Hms. assert (Forall (fun p => p_instances p = None /\ p_btf_fd p = -1) ps) as Hnone.
  { eapply Forall2_Forall_r; [exact Hps|]. eapply List.Forall_impl; [|exact opened_none]. intros p [E1 E2] q [-> ->]. done. }
  split.
  - eapply own_nothing; [done|done|exact Hms|]. eapply List.Forall_impl; [|exact Hnone]. by intros p [].
  - eapply List.Forall_impl; [|exact Hnone]. intros p []. by left.
Qed.

Lemma typed_maps : Forall (fun m => m_fd m = -1) (List.map (typed_map attr) (maps o)).
Proof using Hopen.
  apply Forall_map. eapply List.Forall_impl; [|exact opened_maps]. intros m Hm. unfold typed_map. by destruct (bpf_map__is_offload_neutral m).
Qed.

(** What the types leave of a program. *)
Lemma typed_code i p : p_insns (typed_program attr o i p) = p_insns p /\ p_reloc_desc (typed_program attr o i p) = p_reloc_desc p /\
  p_main_prog_cnt (typed_program attr o i p) = p_main_prog_cnt p /\
  p_func_info (typed_program attr o i p) = p_func_info p /\ p_line_info (typed_program attr o i p) = p_line_info p.
Proof using. unfold typed_program. destruct (is_storage o i); [done|]. by destruct (program_type attr p). Qed.

Lemma Forall_imap_typed (P Q : bpf_program -> Prop) : (forall i p, P p -> Q (typed_program attr o i p)) ->
  Forall P (programs o) -> Forall Q (imap (typed_program attr o) (programs o)).
Proof using.
  intros HPQ HP. apply Forall_lookup. intros i q Hq. rewrite list_lookup_imap in Hq. destruct (programs o !! i) as [p|] eqn:Ep; [|done].
  injection Hq as <-. apply HPQ. exact (proj1 (Forall_lookup _ _) HP i p Ep).
Qed.

Lemma typed_relocatable : Forall (fun p => NoDup (relo_insn <$> relocs p)) (programs o) -> relocatable (typed_object attr o).
Proof using Hopen.
  intros Hnd. split; cbn [typed_object set_maps set_programs programs].
  - eapply Forall_imap_typed; [|exact (oo_ok _ _ _ _ Hopen)]. intros i p [[(insns & E & Hne & Hrs) P2 P3] _ _ _].
    destruct (typed_code i p) as (E1 & E2 & E3 & _). split; rewrite ?E1, ?E2, ?E3; [|done|done].
    exists insns. split; [done|]. split; [done|]. intros rs Er. eapply List.Forall_impl; [|by apply Hrs].
    intros r. unfold relo_ok, zlen. cbn. by rewrite List.length_map.
  - eapply Forall_imap_typed; [|exact Hnd]. intros i p Hp. unfold relocs. by destruct (typed_code i p) as (_ & -> & _).
Qed.

Lemma typed_ready : Forall (load_ready (fun _ => None)) (programs (typed_object attr o)).
Proof using Hopen.
  eapply Forall_imap_typed; [|exact (oo_ok _ _ _ _ Hopen)]. intros i p [_ Ei Ef [E1 E2]].
  destruct (typed_code i p) as (_ & _ & _ & E3 & E4), (typed_same attr o i p) as [Es Eb].
  split; [unfold fresh_instances; by rewrite Es, Ei|congruence|rewrite E3, E1|rewrite E4, E2]; (split; [by left|done]).
Qed.
Lemma typed_sound : btf_sound e o -> btf_ready e (typed_object attr o).
Proof using Hopen.
  intros Hs. split; [exact Hs|]. split.
  - eapply Forall_imap_typed; [|exact (oo_ok _ _ _ _ Hopen)]. intros i p [_ _ _ [E1 E2]].
    destruct (typed_code i p) as (_ & _ & _ & E3 & E4). split; congruence.
  - cbn. apply Forall_map. eapply List.Forall_impl; [|exact opened_names]. intros m Hm. unfold typed_map. by destruct (bpf_map__is_offload_neutral m).
Qed.
End opened.

Section composed.
Context {K : Type} `{KernelLaws bpf_insn K}.
Context (e : endian) (alloc : nat -> bool) (btf_alloc : Z -> bool) `{Qsort} (load_alloc : nat -> bool)
  (sys_alloc : nat -> nat -> Z -> bool) (junk : Z) (junk_log : nat -> bool) (fuel : nat).
Context (elf : elf_file) (flags : Z) (attr : bpf_prog_load_attr) (o : bpf_object).
Hypothesis Hopen : object_opened e elf flags o.
Hypothesis Hreloc : Forall (fun p => NoDup (relo_insn <$> relocs p)) (programs o).
Hypothesis Hfuel : forall (a : prog_load_attr bpf_insn) (k : K), exists r k', sys_bpf_prog_load fuel a k = Some (r, k') /\
  0 <= an_func_rec r /\ 0 <= an_line_rec r.
Local Abbreviation LS := (bpf_object * nat * K)%type.

(** How the call ends, the error and the object with the descriptor.  The BTF
    information is part of the object. *)
Record load_refused (k : K) (err : Z) (k' : K) : Prop := {
  rf_open : open_fds k' = without_btf o (open_fds k);
  rf_err : err = - EINVAL \/ err = - ENOENT /\ programs_of o = [] /\ all_typed attr o = true
}.
Record load_done (k : K) (o' : bpf_object) (fd : Z) (k' : K) : Prop := {
  ld_typed : all_typed attr o = true;
  ld_loaded : object_loaded (K := K) (fun _ => None) (typed_object attr o) o';
  ld_nodup : NoDup (own o');
  ld_open : open_fds k' = open_fds k ∪ list_to_set (own o');
  ld_first : exists i p, head (programs_of o) = Some i /\ programs o' !! i = Some p /\ p_instances p = Some [fd]
}.

Lemma linked_not_nil fds text p : default [] (p_insns p) <> [] -> linked fds text p <> [].
Proof using.
  clear. unfold linked. intros Hne E. apply (f_equal length) in E. rewrite length_app in E. unfold link_insns in E.
  rewrite length_imap in E. destruct (default [] (p_insns p)); [done|]. cbn in E. lia.
Qed.

(** Closing on an error: nothing is open that was not. *)
Lemma holds_none (k k' : K) : rest_of (open_fds k) o (open_fds k') -> holds (open_fds k) (open_fds k') [] k'.
Proof using.
  clear. intros HR. split; [apply base.NoDup_nil_2|intros x Hx; inversion Hx| |intros x; split; [by left|]].
  - destruct HR as [->|(b & _ & _ & ->)]; [done|]. intros x. rewrite elem_of_difference. tauto.
  - intros [|Hx]; [done|inversion Hx].
Qed.

Lemma refuse_run {A} U (P : A -> LS -> Prop) err o' n k k' :
  (forall b, o_btf o = Some b -> fd b = -1 \/ 0 <= fd b /\ fd b ∈ open_fds k) ->
  own o' = [] -> o_btf o' = o_btf o -> Forall (btf_fine o') (programs o') -> rest_of (open_fds k) o (open_fds k') ->
  err = - EINVAL \/ err = - ENOENT /\ programs_of o = [] /\ all_typed attr o = true ->
  runs U (fun err s => load_refused k err s.2) P (let* _ := bpf_object__close in fail err) (o', n, k').
Proof using H0.
  intros Hbtf Eo Eb Hfine HR Herr. eapply run_seq.
  - eapply run_impl; [apply (object_close_run (open_fds k) (open_fds k') o' n k')|done|intros ? ? []|].
    + by rewrite Eb.
    + unfold rest_of. by rewrite Eb.
    + rewrite Eo. by apply holds_none.
    + done.
    + intros a s Ha. exact Ha.
  - intros [] [[o2 n2] k2] (_ & _ & _ & E2). apply run_fail. split; [|done]. cbn. rewrite E2. unfold without_btf. by rewrite Eb.
Qed.

Lemma prepare_run n k (U : Prop) :
  (forall b, o_btf o = Some b -> fd b = -1 \/ 0 <= fd b /\ fd b ∈ open_fds k) -> (has_btf o -> U \/ btf_sound e o) ->
  runs U (fun err s => load_refused k err s.2) (fun fd s => load_done k s.1.1 fd s.2)
    (prepare_and_load e btf_alloc load_alloc sys_alloc junk junk_log fuel attr) (o, n, k).
Proof using All.
  intros Hbtf HU. unfold prepare_and_load. apply obj_state, run_bind, run_try, in_obj_run.
  eapply run_impl; [apply (set_types_run attr o n)|done| |].
  - intros err s [(ps & -> & Hps) Ht].
    assert (set_programs o ps = set_maps (set_programs o ps) (maps o)) as -> by done.
    destruct (own_prepared e elf flags o Hopen ps (maps o) Hps (opened_maps e elf flags o Hopen)) as [E1 E2].
    apply refuse_run; [done|exact E1|done|exact E2|by left|by left].
  - intros [] s [-> Ht]. apply run_bind. rewrite for_each_map_spec. apply in_obj_run.
    apply (set_ifindexes_run attr o n U _ _ (set_programs o (imap (typed_program attr o) (programs o))) _ 0 []);
      [done|done|done|done|].
    assert (Forall2 (fun p q => p_instances q = p_instances p /\ p_btf_fd q = p_btf_fd p) (programs o)
      (imap (typed_program attr o) (programs o))) as Htp.
    { apply Forall2_same_length_lookup. split; [by rewrite length_imap|]. intros i p q Hp Hq. rewrite list_lookup_imap, Hp in Hq.
      injection Hq as <-. apply typed_same. }
    destruct (own_prepared e elf flags o Hopen _ _ Htp (typed_maps e elf flags attr o Hopen)) as [E1 E2].
    rewrite for_each_program_spec. destruct (head (programs_of o)) as [first|] eqn:Ef.
    + apply run_bind, run_try. change (set_maps (set_programs o _) _) with (typed_object attr o) in *.
      eapply run_impl; [apply (object_load_run (K := K) e load_alloc btf_alloc sys_alloc junk junk_log fuel (fun _ => None) (typed_object attr o) n k U)|..].
      * exact Hfuel.
      * exact (oo_loaded _ _ _ _ Hopen).
      * by apply (typed_relocatable e elf flags).
      * exact (typed_ready e elf flags attr o Hopen).
      * rewrite E1. apply base.NoDup_nil_2.
      * rewrite E1. intros x Hx. inversion Hx.
      * rewrite E1. intros b Hb Hp. destruct (Hbtf b Hb) as [|[_ Hin]]; [lia|]. split; [done|]. intros Hx. inversion Hx.
      * intros Hh. destruct (HU Hh) as [|Hs]; [by left|right]. by apply (typed_sound e elf flags).
      * done.
      * intros err [[o' n'] k'] (Hun & Eb' & Hk). unfold others in Hk. rewrite E1 in Hk. cbn in Hk. rewrite difference_empty_L in Hk.
        apply refuse_run; [done|by apply own_unloaded|exact Eb'| |exact Hk|by left].
        eapply List.Forall_impl; [|exact (proj2 Hun)]. intros p []. by left.
      * intros [] [[o' n'] k'] (Hl & Eb' & Hnd & Hk). unfold others in Hk. rewrite E1 in Hk. cbn in Hk. rewrite difference_empty_L in Hk.
        assert (first ∈ programs_of o) as Hin by by apply head_Some_elem_of.
        apply elem_of_programs_of in Hin as [Hst Hlt]. destruct (lookup_lt_is_Some_2 _ _ Hlt) as [p Hp].
        assert (programs (typed_object attr o) !! first = Some (typed_program attr o first p)) as Htyped.
        { cbn. by rewrite list_lookup_imap, Hp. }
        destruct (ol_programs _ _ _ Hl first _ Htyped) as (p' & fds & Hp' & Hfds & Hne & Hone & Hall).
        { unfold is_storage in Hst. rewrite Hp in Hst. rewrite <- Hst. unfold bpf_program__is_function_storage, typed_program. cbn.
          destruct (is_storage o first); [done|]. by destruct (program_type attr p). }
        destruct fds as [|fd [|]]; [done| |by specialize (Hone eq_refl)].
        apply run_bind, in_obj_run. unfold get_prog. apply run_bind. cbn. unfold lift, runs at 1. rewrite Hp'. apply run_ret.
        assert (0 <= fd) as Hfd.
        { specialize (Hall 0%nat fd eq_refl). cbn in Hall. unfold instance_loaded in Hall.
          destruct (linked _ _ _) as [|ins code] eqn:El; [|by destruct Hall]. exfalso. revert El.
          assert (program_ok o p) as [[(insns & E & Hcode & _) _ _] _ _ _] by exact (proj1 (Forall_lookup _ _) (oo_ok _ _ _ _ Hopen) _ _ Hp).
          destruct (typed_code attr o first p) as (Ec & _). apply linked_not_nil. rewrite Ec, E. done. }
        unfold bpf_program__fd, bpf_program__nth_fd. rewrite Hfds. cbn [znth]. change (znth [fd] 0) with (Some fd). cbn.
        destruct (Z.ltb_spec fd 0) as [|_]; [lia|]. split; [done|exact Hl|exact Hnd|exact Hk|]. exists first, p'. by split_and!.
    + apply refuse_run; [done|exact E1|done|exact E2|by left|]. right. split; [done|]. split; [|done].
      destruct (programs_of o); [done|discriminate Ef].
Qed.
End composed.

Lemma prog_load_xattr_run {K : Type} `{KernelLaws bpf_insn K} e alloc btf_alloc `{QsortLaws} `{ElfFiles} bpf_load_btf
  load_alloc sys_alloc junk junk_log fuel attr file elf o (k : K) :
  xa_file attr = Some file -> bpf_object__elf_init file [] = Ok elf ->
  (forall idx scn data, elf_getscn elf idx = Some scn -> scn_data scn = Some data -> zlen data < 2 ^ 31) ->
  open_object e alloc btf_alloc bpf_load_btf file [] (bpf_prog_type__needs_kver (xa_prog_type attr)) 0 = Some (Ok o) ->
  (forall b, o_btf o = Some b -> fd b = -1 \/ 0 <= fd b /\ fd b ∈ open_fds k) ->
  Forall (fun p => NoDup (relo_insn <$> relocs p)) (programs o) ->
  (forall (a : prog_load_attr bpf_insn) (k : K), exists r k', sys_bpf_prog_load fuel a k = Some (r, k') /\
    0 <= an_func_rec r /\ 0 <= an_line_rec r) ->
  match bpf_prog_load_xattr e alloc btf_alloc bpf_load_btf load_alloc sys_alloc junk junk_log fuel attr k with
  | Some (Ok (o', fd), k') => load_done attr o k o' fd k'
  | Some (Err err, k') => load_refused attr o k err k'
  | None => has_btf o /\ ~ btf_sound e o
  end.
Proof.
  intros Ef Ee Hsmall Eo Hbtf Hreloc Hfuel. unfold bpf_prog_load_xattr. rewrite Ef, Eo. cbn [mbind option_bind].
  unfold open_object in Eo. rewrite Ee in Eo. destruct elf_version; [|done]. cbn [negb] in Eo.
  destruct (open_opened e alloc btf_alloc elf bpf_load_btf _ 0 o Hsmall Eo) as [Hopen _].
  pose proof (fun U => prepare_run e alloc btf_alloc load_alloc sys_alloc junk junk_log fuel elf 0 attr o Hopen Hreloc Hfuel 0 k U Hbtf) as Hrun.
  pose proof (Hrun (has_btf o) (fun Hh => or_introl Hh)) as Hany. unfold runs in *.
  destruct (prepare_and_load _ _ _ _ _ _ _ _ _) as [[[fd|err] [[o' n'] k']]|]; [exact Hany|exact Hany|]. split; [exact Hany|].
  intros Hs. exact (Hrun False (fun _ => or_intror Hs)).
Qed.


(** The object of [ElfObject], whose program stands in section xdp. *)
Definition ex_attr (prog_type : Z) : bpf_prog_load_attr := ProgLoadAttr (Some (lit "f.o")) prog_type 0 0.
#[export] Instance ex_files : ElfFiles := {
  elf_version := true;
  file_open path := if decide (path = lit "f.o") then None else Some ENOENT;
  elf_begin _ := Some (ex_elf 5 16);
  elf_memory _ := Some (ex_elf 5 16);
  gelf_getehdr _ := true }.
Definition ex_prog_load (attr : bpf_prog_load_attr) (script : list (Z * nat)) :=
  bpf_prog_load_xattr LE ElfObject.ex_alloc ex_btf_alloc (H0 := insertion_sort) ex_load_btf ElfObject.ex_alloc ex_load_alloc
    0 ex_quiet 1 attr (ex_kernel_at script).

Example ex_typed : match ex_prog_load (ex_attr 0) [] with
  | Some (Ok (o', fd), k') => List.map p_type (programs o') = [6; 0] /\ own o' = [3; 4; 5] /\ fd = 5
  | _ => False
  end.
Proof. vm_compute. by split_and!. Qed.


(** A file that is not there. *)
Example ex_no_file : ex_prog_load (ProgLoadAttr (Some (lit "g.o")) 0 0 0) [] = Some (Err (- ENOENT), ex_kernel_at []).
Proof. vm_compute. reflexivity. Qed.
