(* ===== verification/ProgMaps.v ===== *)
(** * The maps the BPF programs declare (src/src/syncookie.c, src/common/xdp_stats_kern.h, src/loader/xdp_prog_kern.c)

    A program declares its maps as structures in a section; the library reads
    them back from the object file and has the kernel create them.  Here the
    declarations meet the loader: the structure of the programs is longer than
    the library's, and what the kernel is asked for is what was declared. *)

From S2P Require Import Probes ProgLoad.
From S2P Require Headers XdpLink Loader XdpStats.
From stdpp Require Import list.
Open Scope Z_scope.

(** [struct bpf_map_def] of src/headers/bpf_helpers.h, of seven words. *)
Record declared_map := DeclaredMap {
  type : Z; key_size : Z; value_size : Z; max_entries : Z; map_flags : Z; inner_map_idx : Z; numa_node : Z }.
Definition sizeof_declared_map := 28.

(** Fields a declaration leaves out are zero. *)
Definition connections_table : declared_map := DeclaredMap (BPF_MAP_TYPE "LPM_TRIE") Headers.sizeof_connection_t 1 1000 0 0 0.
Definition xdp_stats_map : declared_map := DeclaredMap (BPF_MAP_TYPE "PERCPU_ARRAY") 4 16 XdpStats.XDP_ACTION_MAX 0 0 0.
(** The copy in src/loader/xdp_prog_kern.c. *)
Definition prog_stats_map : declared_map := DeclaredMap (BPF_MAP_TYPE "PERCPU_ARRAY") 4 16 XdpStats.XDP_ACTION_MAX 0 0 0.

(** ** The section *)

Definition declared_words (d : declared_map) : list Z :=
  [type d; key_size d; value_size d; max_entries d; map_flags d; inner_map_idx d; numa_node d].
Definition declared_bytes (e : endian) (d : declared_map) : list Z := encode_words e (declared_words d).
Definition maps_section (e : endian) (ds : list declared_map) : list Z := flat_map (declared_bytes e) ds.

Definition declared_ok (d : declared_map) : Prop := Forall (in_range 32) (declared_words d).
(** What the library knows of it. *)
Definition known_part (d : declared_map) : bpf_map_def := MapDef (type d) (key_size d) (value_size d) (max_entries d) (map_flags d).

Lemma zlen_declared e d : zlen (declared_bytes e d) = sizeof_declared_map.
Proof. unfold declared_bytes. by rewrite zlen_encode_words. Qed.

Lemma get_bytes_middle pre bs post n : (n <= length bs)%nat -> get_bytes (pre ++ bs ++ post) (zlen pre) n = Some (take n bs).
Proof.
  intros Hn. rewrite <- (Z.add_0_r (zlen pre)), get_bytes_app_r by lia. unfold get_bytes, zlen. rewrite length_app, decide_True by lia.
  change (Z.to_nat 0) with 0%nat. by rewrite drop_0, take_app_le.
Qed.

Lemma load_nth_word e ws i w post : znth ws i = Some w -> in_range 32 w -> load e 4 (encode_words e ws ++ post) (4 * i) = Some w.
Proof.
  intros Hi Hw. pose proof (znth_Some_range _ _ _ Hi) as Hr. unfold znth in Hi. case_decide; [|done].
  rewrite <- (take_drop_middle _ _ _ Hi). unfold encode_words. rewrite flat_map_app, <- app_assoc.
  assert (4 * i = zlen (encode_words e (take (Z.to_nat i) ws))) as ->.
  { rewrite zlen_encode_words. unfold zlen in *. rewrite length_take. lia. }
  by apply load_encode_words.
Qed.

(** The five words the library knows, and the two behind them. *)
Definition known_words (d : declared_map) : list Z := [type d; key_size d; value_size d; max_entries d; map_flags d].
Lemma declared_split e d : declared_bytes e d = encode_words e (known_words d) ++ encode_words e [inner_map_idx d; numa_node d].
Proof. unfold encode_words. by rewrite <- flat_map_app. Qed.
Lemma length_words e ws : length (encode_words e ws) = (4 * length ws)%nat.
Proof. pose proof (zlen_encode_words e ws) as E. unfold zlen in E. lia. Qed.

Lemma declared_known e pre d post : declared_ok d -> map_def_at e (pre ++ declared_bytes e d ++ post) (zlen pre) 20 = Some (known_part d).
Proof.
  intros Hd. unfold map_def_at. rewrite declared_split, <- app_assoc, get_bytes_middle, take_ge by (rewrite length_words; cbn; lia).
  cbn [mbind option_bind]. change (repeat 0 (20 - 20)) with (@nil Z). set (ws := known_words d).
  unfold declared_ok, declared_words in Hd. rewrite !list.Forall_cons in Hd. destruct Hd as (H1 & H2 & H3 & H4 & H5 & _).
  rewrite (load_nth_word e ws 0 _ [] eq_refl H1 : load _ _ _ 0 = _), (load_nth_word e ws 1 _ [] eq_refl H2 : load _ _ _ 4 = _),
    (load_nth_word e ws 2 _ [] eq_refl H3 : load _ _ _ 8 = _), (load_nth_word e ws 3 _ [] eq_refl H4 : load _ _ _ 12 = _),
    (load_nth_word e ws 4 _ [] eq_refl H5 : load _ _ _ 16 = _). done.
Qed.

Lemma declared_rest e pre d post :
  get_bytes (pre ++ declared_bytes e d ++ post) (zlen pre + sizeof_bpf_map_def) 8 = Some (encode_words e [inner_map_idx d; numa_node d]).
Proof.
  rewrite declared_split, <- app_assoc, app_assoc.
  replace (zlen pre + sizeof_bpf_map_def) with (zlen (pre ++ encode_words e (known_words d))).
  - rewrite get_bytes_middle by (rewrite length_words; cbn; lia). by rewrite take_ge by (rewrite length_words; cbn; lia).
  - by rewrite zlen_app, zlen_encode_words.
Qed.

Lemma words_zero e ws : Forall (in_range 32) ws -> Forall (fun b => b = 0) (encode_words e ws) -> Forall (fun w => w = 0) ws.
Proof.
  intros Hr Hz. rewrite Forall_lookup in Hr |- *. intros i w Hi. specialize (Hr i w Hi).
  pose proof (load_nth_word e ws (Z.of_nat i) w []) as E. rewrite app_nil_r in E.
  unfold znth in E. rewrite decide_True, Nat2Z.id in E by lia. specialize (E Hi Hr). unfold load in E.
  destruct (get_bytes _ _ _) as [bs|] eqn:Eb; [|done]. cbn in E. injection E as <-.
  assert (bs = repeat 0 4) as ->; [|by destruct e].
  assert (Forall (fun b => b = 0) bs) as Hbs.
  { unfold get_bytes in Eb. case_decide; [|done]. injection Eb as <-. by apply Forall_take, Forall_drop. }
  assert (length bs = 4%nat) as Hl.
  { unfold get_bytes in Eb. case_decide as Hc; [|done]. injection Eb as <-. unfold zlen in Hc. rewrite length_take, length_drop. lia. }
  destruct bs as [|b0 [|b1 [|b2 [|b3 [|]]]]]; try done. rewrite !list.Forall_cons in Hbs. by destruct Hbs as (-> & -> & -> & -> & _).
Qed.

(** ** An object with these maps *)

Section opened.
Context (e : endian) (elf : elf_file) (flags : Z) (o : bpf_object) (ds : list declared_map).
Hypothesis Hopen : object_opened e elf flags o.
Hypothesis Hsection : (scn ← elf_getscn elf (maps_shndx (o_efile o)); scn_data scn) = Some (maps_section e ds).
Hypothesis Hcount : length (maps o) = length ds.

Lemma zlen_section l : zlen (maps_section e l) = sizeof_declared_map * zlen l.
Proof using.
  clear. induction l as [|d l IH]; [done|]. unfold maps_section in *. cbn [flat_map]. rewrite zlen_app, zlen_declared, IH. unfold zlen. cbn [length]. lia.
Qed.

(** A map of the object has the definition declared at its place; where the
    rest must be zero, it is. *)
Lemma opened_map m i d : m ∈ maps o -> ds !! i = Some d -> declared_ok d -> m_offset m = sizeof_declared_map * Z.of_nat i ->
  m_fd m = -1 /\ m_def m = known_part d /\ (Z.land flags MAPS_RELAX_COMPAT = 0 -> inner_map_idx d = 0 /\ numa_node d = 0).
Proof using Hopen Hsection Hcount.
  intros Hm Hd Hok Hoff. destruct (oo_maps _ _ _ _ Hopen) as [symtab Hmaps]. unfold maps_of in Hmaps.
  destruct (Z.ltb_spec (maps_shndx (o_efile o)) 0) as [|_]; [rewrite Hmaps in Hm; inversion Hm|].
  destruct Hmaps as (syms & data & _ & Ed & [(ms & Hp & Hall) _ _]). rewrite Hsection in Ed. injection Ed as <-.
  rewrite Hp in Hm. apply list_elem_of_lookup in Hm as [j Hj].
  destruct (Forall2_lookup_r _ _ _ _ _ Hall Hj) as (sym & Hsym & (_ & _ & [Mfd _ _ Mdef] & Hx)).
  assert (zlen (map_syms elf syms (maps_shndx (o_efile o))) = zlen ds) as En.
  { unfold zlen. rewrite (Forall2_length _ _ _ Hall), <- (Permutation_length Hp), Hcount. done. }
  assert (0 < zlen ds) as Hpos by (apply lookup_lt_Some in Hd; unfold zlen; lia).
  rewrite zlen_section, En, Z.div_mul in Mdef, Hx by lia. change (Z.to_nat (Z.min sizeof_declared_map 20)) with 20%nat in Mdef.
  assert (maps_section e ds = maps_section e (take i ds) ++ declared_bytes e d ++ maps_section e (drop (S i) ds)) as Es.
  { rewrite <- (take_drop_middle _ _ _ Hd) at 1. unfold maps_section. by rewrite flat_map_app. }
  assert (m_offset m = zlen (maps_section e (take i ds))) as Eo.
  { rewrite zlen_section, Hoff. unfold zlen. rewrite length_take. apply lookup_lt_Some in Hd. do 2 f_equal. lia. }
  rewrite Es, Eo, declared_known in Mdef by done. split; [done|]. split; [by injection Mdef|]. intros Hs%Z.eqb_eq.
  destruct (Hx Hs ltac:(done)) as (bs & Eb & Hz). rewrite Es, Eo in Eb. change (Z.to_nat (sizeof_declared_map - sizeof_bpf_map_def)) with 8%nat in Eb.
  rewrite declared_rest in Eb. injection Eb as <-. apply (words_zero e [inner_map_idx d; numa_node d]) in Hz.
  - rewrite !list.Forall_cons in Hz. tauto.
  - unfold declared_ok, declared_words in Hok. rewrite !list.Forall_cons in Hok. destruct Hok as (_ & _ & _ & _ & _ & H6 & H7 & _). rewrite !list.Forall_cons. by split_and!.
Qed.
End opened.

(** ** Loading the program *)

(** C3. The library never loads an object that declares [connections_table], whoever
    declares what else: what it asks the kernel for is what the program's section
    says, a trie without [BPF_F_NO_PREALLOC], and a kernel creates tries only
    with it.  The error is that of a load that failed, and nothing is left open;
    only unsound BTF information can make the call leave its objects instead. *)
Theorem connections_table_refused {K : Type} `{KernelLaws bpf_insn K} e alloc btf_alloc `{QsortLaws} `{ElfFiles} bpf_load_btf
  load_alloc sys_alloc junk junk_log fuel attr file elf o (k : K) ds i m :
  (forall a (k : K), mc_map_type a = BPF_MAP_TYPE "LPM_TRIE" -> Z.land (mc_map_flags a) BPF_F_NO_PREALLOC = 0 ->
    exists errno k', sys_map_create a k = (Err errno, k')) ->
  xa_file attr = Some file -> bpf_object__elf_init file [] = Ok elf ->
  (forall idx scn data, elf_getscn elf idx = Some scn -> scn_data scn = Some data -> zlen data < 2 ^ 31) ->
  open_object e alloc btf_alloc bpf_load_btf file [] (bpf_prog_type__needs_kver (xa_prog_type attr)) 0 = Some (Ok o) ->
  (forall b, o_btf o = Some b -> fd b = -1 \/ 0 <= fd b /\ fd b ∈ open_fds k) ->
  Forall (fun p => NoDup (relo_insn <$> relocs p)) (programs o) ->
  (forall (a : prog_load_attr bpf_insn) (k : K), exists r k', sys_bpf_prog_load fuel a k = Some (r, k') /\
    0 <= an_func_rec r /\ 0 <= an_line_rec r) ->
  (scn ← elf_getscn elf (maps_shndx (o_efile o)); scn_data scn) = Some (maps_section e ds) -> length (maps o) = length ds ->
  ds !! i = Some connections_table -> m ∈ maps o -> m_offset m = sizeof_declared_map * Z.of_nat i ->
  match bpf_prog_load_xattr e alloc btf_alloc bpf_load_btf load_alloc sys_alloc junk junk_log fuel attr k with
  | Some (Ok _, _) => False
  | Some (Err err, k') => load_refused attr o k err k'
  | None => has_btf o /\ ~ btf_sound e o
  end.
Proof.
  intros Htrie Ef Ee Hsmall Eo Hbtf Hreloc Hfuel Hsec Hcount Hd Hm Hoff.
  pose proof Eo as Eo'. unfold open_object in Eo'. rewrite Ee in Eo'. destruct elf_version; [|done]. cbn [negb] in Eo'.
  destruct (open_opened e alloc btf_alloc elf bpf_load_btf _ 0 o Hsmall Eo') as [Hopen _].
  assert (declared_ok connections_table) as Hok by (repeat constructor; vm_compute; congruence).
  destruct (opened_map e elf 0 o ds Hopen Hsec Hcount m i _ Hm Hd Hok Hoff) as (Hfd & Hdef & _).
  pose proof (prog_load_xattr_run e alloc btf_alloc bpf_load_btf load_alloc sys_alloc junk junk_log fuel attr file elf o k
    Ef Ee Hsmall Eo Hbtf Hreloc Hfuel) as Hr.
  destruct (bpf_prog_load_xattr _ _ _ _ _ _ _ _ _ _ _) as [[[[o' fd]|err] k']|]; [|exact Hr..].
  apply list_elem_of_lookup in Hm as [j Hj].
  destruct (ol_maps _ _ _ (ld_loaded _ _ _ _ _ _ Hr) j (typed_map attr m)) as (m' & _ & Hc).
  { change (maps (typed_object attr o)) with (typed_map attr <$> maps o). by rewrite list_lookup_fmap, Hj. }
  assert (m_fd (typed_map attr m) = -1 /\ m_def (typed_map attr m) = known_part connections_table) as [Hfd' Hdef']
    by (unfold typed_map; by destruct (bpf_map__is_offload_neutral m)).
  destruct (mc_granted _ _ Hc ltac:(lia)) as (a & k1 & k2 & Ea & Ht & _ & _ & _ & Hfl & _). rewrite Hdef' in Ht, Hfl.
  destruct (Htrie a k1 Ht ltac:(by rewrite Hfl)) as (errno & k3 & E3). congruence.
Qed.

(** *** The counters of the reader *)

(** What the kernel reports of a map created as declared. *)
Definition reported (d : declared_map) : XdpLink.bpf_map_info := XdpLink.MapInfo (type d) (key_size d) (value_size d) (max_entries d).

(** The reader of the statistics accepts the map of either program as the kernel
    reports it, and reads it as an array with a value for every CPU. *)
Theorem stats_map_accepted get_info fd :
  0 <= fd -> get_info fd = Ok (reported xdp_stats_map) ->
  XdpLink.check_map_fd_info get_info fd Loader.stats_map_expect = CmdLine.EXIT_OK /\
  XdpLink.mi_type (reported xdp_stats_map) = XdpStats.BPF_MAP_TYPE_PERCPU_ARRAY /\ prog_stats_map = xdp_stats_map.
Proof.
  intros Hfd E. unfold XdpLink.check_map_fd_info. destruct (Z.ltb_spec fd 0); [lia|]. rewrite E. by vm_compute.
Qed.

Lemma stats_map_accepted_witness : XdpLink.check_map_fd_info (fun _ => Ok (reported xdp_stats_map)) 3 Loader.stats_map_expect = CmdLine.EXIT_OK.
Proof. apply (stats_map_accepted (fun _ => Ok (reported xdp_stats_map)) 3); [lia|reflexivity]. Defined.

(** ** A kernel with tries, and the object of the program *)

Record trie_kernel := TrieKernel { inner : ex_kernel }.
Definition on_inner {A} (f : ex_kernel -> A * ex_kernel) (k : trie_kernel) : A * trie_kernel := let '(a, k) := f (inner k) in (a, TrieKernel k).

#[export] Instance trie_kernel_ops : Kernel bpf_insn trie_kernel := {
  sys_map_create a k :=
    if (mc_map_type a =? BPF_MAP_TYPE "LPM_TRIE") && (Z.land (mc_map_flags a) BPF_F_NO_PREALLOC =? 0) then (Err EINVAL, k)
    else on_inner (@sys_map_create bpf_insn _ _ a) k;
  sys_prog_load a := on_inner (sys_prog_load a);
  sys_close fd k := TrieKernel (@sys_close bpf_insn _ _ fd (inner k)) }.

#[export] Instance trie_kernel_laws : KernelLaws bpf_insn trie_kernel.
Proof.
  refine (Build_KernelLaws bpf_insn trie_kernel _ (fun k => ek_open (inner k)) _ _ _); [| |done]; intros a k.
  - pose proof (map_create_open (I := bpf_insn) a (inner k)) as Hl. cbn -[BPF_MAP_TYPE] in *. destruct (_ && _); [done|]. unfold on_inner.
    destruct (ex_ask (inner k)) as [[[fd|errno] rec] k']; exact Hl.
  - pose proof (prog_load_open (I := bpf_insn) a (inner k)) as Hl. cbn in *. unfold on_inner. cbn.
    destruct (ex_ask (inner k)) as [[[fd|errno] rec] k']; exact Hl.
Defined.

Lemma trie_kernel_answers fuel (a : prog_load_attr bpf_insn) (k : trie_kernel) : exists r k',
  sys_bpf_prog_load (S fuel) a k = Some (r, k') /\ 0 <= an_func_rec r /\ 0 <= an_line_rec r.
Proof.
  cbn. pose proof (ex_ask_open (inner k)) as Hk. unfold on_inner. cbn. destruct (ex_ask (inner k)) as [[[fd|errno] rec] k']; cbn.
  - eexists _, _. split; [done|]. by destruct Hk as (_ & _ & _ & ?).
  - destruct Hk as (_ & Hne & Hrec). apply Z.eqb_neq in Hne. rewrite Hne. eexists _, _. by split.
Qed.

Definition syn_strptr (sec off : Z) : option str :=
  if negb (sec =? 3) then None else
  nth_error [lit ""; lit "syncookie"; lit "maps"; lit ".symtab"; lit ".strtab"; lit "syncookie_fn"; lit "xdp_stats_map"; lit "connections_table"] (Z.to_nat off).
Definition syn_sym (data : list Z) (i : Z) : option elf_sym := nth_error [Sym 0 0 0 0; Sym 5 16 1 0; Sym 6 16 2 0; Sym 7 16 2 28] (Z.to_nat i).
Definition syn_scns : list elf_scn :=
  [Scn (Some (Shdr 1 SHT_PROGBITS 6 16 0 0 0)) (Some (ex_insn_bytes 0xb7 0 0 2 ++ ex_insn_bytes 0x95 0 0 0));
   Scn (Some (Shdr 2 SHT_PROGBITS 3 56 0 0 0)) (Some (maps_section LE [xdp_stats_map; connections_table]));
   Scn (Some (Shdr 4 3 0 0 0 0 0)) (Some []);
   Scn (Some (Shdr 3 SHT_SYMTAB 0 96 3 0 24)) (Some (repeat 0 96))].
Definition syn_elf : elf_file := ElfFile ET_REL EM_BPF ELFDATA2LSB 3 true syn_scns syn_strptr syn_sym (fun _ _ => None).
#[local] Instance syn_files : ElfFiles := {
  elf_version := true; file_open _ := None; elf_begin _ := Some syn_elf; elf_memory _ := None; gelf_getehdr _ := true }.

Definition syn_open : outcome bpf_object := open_object LE ElfObject.ex_alloc ex_btf_alloc (H0 := insertion_sort) ex_load_btf (lit "syncookie.o") [] false 0.
Definition syn_object : bpf_object := match syn_open with Some (Ok o) => o | _ => ex_object end.
Definition syn_load (k : trie_kernel) :=
  bpf_prog_load_xattr LE ElfObject.ex_alloc ex_btf_alloc (H0 := insertion_sort) ex_load_btf ElfObject.ex_alloc ex_load_alloc
    0 ex_quiet 1 (ProgLoadAttr (Some (lit "syncookie.o")) 6 0 0) k.

Example syn_opened : List.map m_def (maps syn_object) = [known_part xdp_stats_map; known_part connections_table] /\ length (programs syn_object) = 1%nat.
Proof. vm_compute. by split. Qed.

Lemma syn_small idx scn data : elf_getscn syn_elf idx = Some scn -> scn_data scn = Some data -> zlen data < 2 ^ 31.
Proof.
  unfold elf_getscn. destruct (idx =? 0); [done|]. cbn [syn_elf elf_scns]. unfold znth. case_decide; [|done].
  intros Hin%list_elem_of_lookup_2 Hd. assert (forallb (fun s => match scn_data s with Some d => zlen d <? 2 ^ 31 | None => true end) syn_scns = true) as Hall
    by (vm_compute; reflexivity).
  rewrite forallb_forall in Hall. specialize (Hall scn (proj1 (list_elem_of_In _ _) Hin)). rewrite Hd in Hall. by apply Z.ltb_lt.
Qed.

Lemma connections_table_refused_witness :
  match syn_load (TrieKernel (ex_kernel_at [])) with
  | Some (Ok _, _) => False
  | Some (Err err, k') => load_refused (ProgLoadAttr (Some (lit "syncookie.o")) 6 0 0) syn_object (TrieKernel (ex_kernel_at [])) err k'
  | None => has_btf syn_object /\ ~ btf_sound LE syn_object
  end.
Proof.
  assert (exists m, maps syn_object !! 1%nat = Some m /\ m_offset m = 28) as (m & Hm & Ho) by (eexists; split; vm_compute; reflexivity).
  apply (connections_table_refused (K := trie_kernel) LE ElfObject.ex_alloc ex_btf_alloc (Q := insertion_sort) ex_load_btf ElfObject.ex_alloc ex_load_alloc 0 ex_quiet 1
    (ProgLoadAttr (Some (lit "syncookie.o")) 6 0 0) (lit "syncookie.o") syn_elf syn_object (TrieKernel (ex_kernel_at [])) [xdp_stats_map; connections_table] 1 m).
  - intros a k Ht Hf. exists EINVAL, k. unfold sys_map_create, trie_kernel_ops. rewrite Ht, Hf. reflexivity.
  - reflexivity.
  - reflexivity.
  - exact syn_small.
  - vm_compute. reflexivity.
  - intros b Hb. vm_compute in Hb. discriminate.
  - vm_compute. repeat constructor.
  - intros a k. apply trie_kernel_answers.
  - vm_compute. reflexivity.
  - vm_compute. reflexivity.
  - reflexivity.
  - by eapply list_elem_of_lookup_2.
  - exact Ho.
Defined.
