(* ===== verification/Pinning.v ===== *)
(** * Pinning programs and maps (src/libbpf/src/libbpf.c)

    Programs, maps and whole objects are pinned to and unpinned from paths in a
    BPF file system; what was pinned before an error is unpinned again. *)

From S2P Require Export ObjAccess.
From Stdlib Require Import DecimalString DecimalNat.
From stdpp Require Import list.
Open Scope Z_scope.

Definition BPF_FS_MAGIC := 0xcafe4a11.
Definition PATH_MAX := 4096.
Definition ENAMETOOLONG := 36.
Definition SLASH := 47.

(** ** The file system *)

(** [statfs] gives the type of the file system of a directory. *)
Class FileSystem (K : Type) := {
  sys_statfs : str -> K -> result Z;
  sys_obj_pin : Z -> str -> K -> result unit * K;
  sys_unlink : str -> K -> result unit * K;
  sys_mkdir : str -> K -> result unit * K;
  sys_rmdir : str -> K -> result unit * K }.

(** [s] without the slashes at its end. *)
Fixpoint rstrip (s : str) : str :=
  match s with
  | [] => []
  | c :: s => match rstrip s with [] => if c =? SLASH then [] else [c] | s' => c :: s' end
  end.

(** The place of the last slash. *)
Definition last_slash (s : str) : option nat := last (filter (fun i => s !! i = Some SLASH) (seq 0 (length s))).

(** [dirname]. *)
Definition root_of (slashes : nat) : str := if (slashes =? 2)%nat then lit "//" else lit "/".
Definition dirname (path : str) : str :=
  match path, rstrip path with
  | [], _ => lit "."
  | _, [] => root_of (length path)
  | _, q => match last_slash q with
      | None => lit "."
      | Some i => match rstrip (take i q) with [] => root_of (S i) | d => d end
      end
  end.

(** [%d] of a number that is not negative. *)
Definition decimal (n : nat) : str := lit (NilEmpty.string_of_uint (Nat.to_uint n)).

(** [snprintf(buf, PATH_MAX, "%s/%s", path, name)]. *)
Definition entry_path (path name : str) : result str :=
  let s := path ++ [SLASH] ++ name in
  if 2 ^ 31 <=? zlen s then Err (- EINVAL)
  else if PATH_MAX <=? zlen s then Err (- ENAMETOOLONG)
  else Ok s.

Section pin.
Context {K : Type} `{FileSystem K}.
(** The allocator's answers. *)
Context (alloc : nat -> bool).

Abbreviation PM := (ST (nat * K)).

Definition of_result {A} (r : result A) : PM A := match r with Ok a => ret a | Err err => fail err end.
Definition pin_malloc : PM unit := fun '(n, k) => Some (if alloc n then Ok tt else Err (- ENOMEM), (S n, k)).
(** A call that fails with its [errno]. *)
Definition pin_sys (f : K -> result unit * K) : PM unit := fun '(n, k) =>
  let '(r, k) := f k in Some (match r with Ok _ => Ok tt | Err errno => Err (- errno) end, (n, k)).

Definition check_path (path : option str) : PM unit :=
  match path with
  | None => fail (- EINVAL)
  | Some path =>
      let* _ := pin_malloc in
      let* s := get in
      match sys_statfs (dirname path) s.2 with
      | Err errno => fail (- errno)
      | Ok type => if type =? BPF_FS_MAGIC then ret tt else fail (- EINVAL)
      end
  end.

Definition make_dir (path : str) : PM unit := fun '(n, k) =>
  let '(r, k) := sys_mkdir path k in
  Some (match r with Ok _ => Ok tt | Err errno => if errno =? EEXIST then Ok tt else Err (- errno) end, (n, k)).

(** *** One file *)

(** The descriptor of an instance. *)
Definition instance_fd (prog : option bpf_program) (instance : Z) : result Z :=
  match prog with
  | None => Err (- EINVAL)
  | Some p => match znth (instances p) instance with Some fd => Ok fd | None => Err (- EINVAL) end
  end.

Definition bpf_program__pin_instance (prog : option bpf_program) (path : option str) (instance : Z) : PM unit :=
  let* _ := check_path path in
  let* fd := of_result (instance_fd prog instance) in
  let* path := lift path in
  pin_sys (sys_obj_pin fd path).

Definition bpf_program__unpin_instance (prog : option bpf_program) (path : option str) (instance : Z) : PM unit :=
  let* _ := check_path path in
  let* _ := of_result (instance_fd prog instance) in
  let* path := lift path in
  pin_sys (sys_unlink path).

Definition bpf_map__pin (map : option bpf_map) (path : option str) : PM unit :=
  let* _ := check_path path in
  match map with
  | None => fail (- EINVAL)
  | Some m => let* path := lift path in pin_sys (sys_obj_pin (m_fd m) path)
  end.

Definition bpf_map__unpin (map : option bpf_map) (path : option str) : PM unit :=
  let* _ := check_path path in
  match map with
  | None => fail (- EINVAL)
  | Some m => let* path := lift path in pin_sys (sys_unlink path)
  end.

(** *** Several files *)

(** A loop that pins; on an error what follows the label. *)
Fixpoint pin_each {I} (pin : I -> PM unit) (unwind : I -> PM unit) (l : list I) : PM unit :=
  match l with
  | [] => ret tt
  | i :: l =>
      let* r := try (pin i) in
      match r with
      | Ok _ => pin_each pin unwind l
      | Err err => let* _ := unwind i in fail err
      end
  end.

(** What unpins ignores errors. *)
Definition quietly (c : PM unit) : PM unit := let* _ := try c in ret tt.

(** Instance [i] of a program. *)
Definition at_instance (p : bpf_program) (path : str)
    (f : option bpf_program -> option str -> Z -> PM unit) (i : nat) : PM unit :=
  let* buf := of_result (entry_path path (decimal i)) in f (Some p) (Some buf) (Z.of_nat i).

Definition bpf_program__pin (prog : option bpf_program) (path : option str) : PM unit :=
  let* _ := check_path path in
  match prog with
  | None => fail (- EINVAL)
  | Some p =>
      let nr := length (instances p) in
      if (nr =? 0)%nat then fail (- EINVAL)
      else if (nr =? 1)%nat then bpf_program__pin_instance prog path 0
      else
        let* path := lift path in
        let* _ := make_dir path in
        pin_each (at_instance p path bpf_program__pin_instance)
          (fun i =>
             let* _ := each (fun i => quietly (at_instance p path bpf_program__unpin_instance i)) (reverse (seq 0 i)) in
             quietly (pin_sys (sys_rmdir path)))
          (seq 0 nr)
  end.

Definition bpf_program__unpin (prog : option bpf_program) (path : option str) : PM unit :=
  let* _ := check_path path in
  match prog with
  | None => fail (- EINVAL)
  | Some p =>
      let nr := length (instances p) in
      if (nr =? 0)%nat then fail (- EINVAL)
      else if (nr =? 1)%nat then bpf_program__unpin_instance prog path 0
      else
        let* path := lift path in
        let* _ := each (at_instance p path bpf_program__unpin_instance) (seq 0 nr) in
        pin_sys (sys_rmdir path)
  end.

(** *** Objects *)

(** Map [i] of the object. *)
Definition at_map (o : bpf_object) (path : str) (f : option bpf_map -> option str -> PM unit) (i : nat) : PM unit :=
  let* m := lift (maps o !! i) in
  let* name := lift (m_name m) in
  let* buf := of_result (entry_path path name) in
  f (Some m) (Some buf).

(** The maps in front of map [i], by [bpf_map__prev]. *)
Definition maps_before (o : bpf_object) (i : nat) : list nat :=
  visited (fun m => bpf_map__prev m o) (length (maps o)) (Some i).

Definition bpf_object__pin_maps (o : bpf_object) (path : str) : PM unit :=
  if negb (loaded o) then fail (- ENOENT) else
  let* _ := make_dir path in
  pin_each (at_map o path bpf_map__pin)
    (fun i => each (fun i => quietly (at_map o path bpf_map__unpin i)) (maps_before o i)) (for_each_map o).

Definition bpf_object__unpin_maps (o : bpf_object) (path : str) : PM unit :=
  each (at_map o path bpf_map__unpin) (for_each_map o).

Definition at_program (o : bpf_object) (path : str) (f : option bpf_program -> option str -> PM unit) (i : nat) : PM unit :=
  let* p := lift (programs o !! i) in
  let* buf := of_result (entry_path path (p_pin_name p)) in
  f (Some p) (Some buf).

Definition programs_before (o : bpf_object) (i : nat) : list nat :=
  visited (fun p => bpf_program__prev p o) (length (programs o)) (Some i).

Definition bpf_object__pin_programs (o : bpf_object) (path : str) : PM unit :=
  if negb (loaded o) then fail (- ENOENT) else
  let* _ := make_dir path in
  pin_each (at_program o path bpf_program__pin)
    (fun i => each (fun i => quietly (at_program o path bpf_program__unpin i)) (programs_before o i)) (for_each_program o).

Definition bpf_object__unpin_programs (o : bpf_object) (path : str) : PM unit :=
  each (at_program o path bpf_program__unpin) (for_each_program o).

Definition bpf_object__pin (o : bpf_object) (path : str) : PM unit :=
  let* _ := bpf_object__pin_maps o path in
  let* r := try (bpf_object__pin_programs o path) in
  match r with
  | Ok _ => ret tt
  | Err err => let* _ := quietly (bpf_object__unpin_maps o path) in fail err
  end.
End pin.

(** ** Paths *)

(** A name of a directory entry. *)
Definition name_ok (name : str) : Prop := name <> [] /\ (SLASH ∉ name).

Lemma rstrip_snoc s c : rstrip (s ++ [c]) = if c =? SLASH then rstrip s else s ++ [c].
Proof.
  induction s as [|b s IH]; cbn [rstrip app]; [done|]. rewrite IH. destruct (c =? SLASH); [done|]. by destruct s.
Qed.

Lemma last_slash_entry path name : (SLASH ∉ name) -> last_slash (path ++ [SLASH] ++ name) = Some (length path).
Proof.
  intros Hn. unfold last_slash. rewrite length_app, seq_app, filter_app. cbn [length app seq Nat.add]. rewrite filter_cons.
  assert ((path ++ SLASH :: name) !! length path = Some SLASH) as El by by rewrite lookup_app_r, Nat.sub_diag by lia.
  rewrite decide_True by done.
  assert (filter (fun i => (path ++ SLASH :: name) !! i = Some SLASH) (seq (S (length path)) (length name)) = []) as ->.
  { apply elem_of_nil_inv. intros i [Hc Hi]%list_elem_of_filter. apply elem_of_seq in Hi. rewrite lookup_app_r, lookup_cons_ne_0 in Hc by lia.
    apply Hn. by eapply list_elem_of_lookup_2. }
  apply last_snoc.
Qed.

Lemma dirname_last p q i : rstrip p = q -> q <> [] -> last_slash q = Some i ->
  dirname p = match rstrip (take i q) with [] => root_of (S i) | d => d end.
Proof. intros Eq Hne El. destruct p; cbn [dirname]; [by subst q|]. rewrite Eq. destruct q; [done|]. by rewrite El. Qed.

(** The directory of an entry does not depend on its name. *)
Definition dir_of (path : str) : str := match rstrip path with [] => root_of (S (length path)) | d => d end.

Lemma dirname_entry path name : name_ok name -> dirname (path ++ [SLASH] ++ name) = dir_of path.
Proof.
  intros [Hne Hn]. destruct name as [|c name' _] using rev_ind; [done|]. clear Hne.
  assert ((c =? SLASH) = false) as Hc.
  { apply Z.eqb_neq. intros ->. apply Hn, elem_of_app. right. by left. }
  assert (rstrip (path ++ [SLASH] ++ name' ++ [c]) = path ++ [SLASH] ++ name' ++ [c]) as Er.
  { rewrite !app_assoc, rstrip_snoc, Hc. by rewrite <- !app_assoc. }
  erewrite dirname_last; [|exact Er|by destruct path|exact (last_slash_entry path _ Hn)]. by rewrite take_app_length.
Qed.

Lemma decimal_ok n : name_ok (decimal n).
Proof.
  unfold name_ok, decimal. assert (forall d, SLASH ∉ lit (NilEmpty.string_of_uint d)) as Hs.
  { induction d; cbn; [by apply not_elem_of_nil|..]; (apply not_elem_of_cons; split; [done|done]). }
  split; [|apply Hs]. intros E. assert (Nat.to_uint n = Decimal.Nil) as En by (by destruct (Nat.to_uint n)).
  pose proof (Unsigned.to_of (Nat.to_uint n)) as Et. rewrite Unsigned.of_to, En in Et. done.
Qed.

Lemma entry_path_ok path name p : entry_path path name = Ok p -> p = path ++ [SLASH] ++ name.
Proof. unfold entry_path. destruct (_ <=? _); [done|]. destruct (_ <=? _); [done|]. by intros [= <-]. Qed.

(** The names a program is pinned under. *)
Lemma slash_to_underscore_ok section_name : section_name <> [] -> name_ok (slash_to_underscore section_name).
Proof.
  intros Hne. split; [by destruct section_name|]. unfold slash_to_underscore. rewrite list_elem_of_In, in_map_iff.
  unfold SLASH. intros (c & Hc & _). destruct (Z.eqb_spec c 47); [done|congruence].
Qed.

(** ** Going back *)

Section filters.
Context (P : nat -> Prop) `{forall i, Decision (P i)}.

Lemma filter_seq_S n : filter P (seq 0 (S n)) = filter P (seq 0 n) ++ (if decide (P n) then [n] else []).
Proof. rewrite seq_S, filter_app, Nat.add_0_l, filter_cons, filter_nil. by destruct (decide _). Qed.

Lemma filter_seq_prefix n : forall d a rest, filter P (seq 0 n) = d ++ a :: rest -> d = filter P (seq 0 a).
Proof.
  induction n as [|n IH]; intros d a rest E; [by destruct d|]. rewrite filter_seq_S in E. destruct (decide (P n)).
  - destruct rest as [|b rest _] using rev_ind.
    + by apply app_inj_tail in E as [<- <-].
    + rewrite app_comm_cons, app_assoc in E. apply app_inj_tail in E as [E _]. by eapply IH.
  - rewrite app_nil_r in E. by eapply IH.
Qed.

Lemma filter_seq_last n j : last (filter P (seq 0 n)) = Some j -> (j < n)%nat /\ filter P (seq 0 n) = filter P (seq 0 j) ++ [j].
Proof.
  intros El. apply last_Some in El as [d Ed]. pose proof (filter_seq_prefix _ _ _ _ Ed) as ->. split; [|done].
  assert (j ∈ filter P (seq 0 n)) as [_ Hj]%list_elem_of_filter by (rewrite Ed; apply elem_of_app; right; by left).
  apply elem_of_seq in Hj. lia.
Qed.
End filters.

Lemma seq_prefix n d a rest : seq 0 n = d ++ a :: rest -> d = seq 0 a.
Proof.
  intros E. assert (forall k, seq 0 k = filter (fun _ => True) (seq 0 k)) as Hf by (intros k; generalize (seq 0 k); intros l; induction l as [|b l IH]; [done|]; by rewrite filter_cons, decide_True, <- IH).
  rewrite Hf in E. rewrite Hf. by eapply filter_seq_prefix.
Qed.

Lemma maps_before_spec o i : (i < length (maps o))%nat -> maps_before o i = reverse (seq 0 i).
Proof.
  unfold maps_before. assert (forall fuel i, (i <= fuel)%nat -> (i < length (maps o))%nat ->
    visited (fun m => bpf_map__prev m o) fuel (Some i) = reverse (seq 0 i)) as Hv; [|intros Hi; apply Hv; lia].
  clear i. induction fuel as [|fuel IH]; intros i Hf Hi; [by replace i with 0%nat by lia|].
  cbn [visited]. unfold bpf_map__prev, __bpf_map__iter, zlen.
  rewrite !(proj2 (Z.leb_gt _ _)) by lia. cbn [orb]. destruct i as [|i]; [done|].
  rewrite (proj2 (Z.ltb_ge _ _)) by lia. replace (Z.to_nat (Z.of_nat (S i) + -1)) with i by lia.
  rewrite IH, seq_S, reverse_snoc by lia. done.
Qed.

Lemma programs_before_spec o i : (i < length (programs o))%nat ->
  programs_before o i = reverse (filter (fun j => is_storage o j = false) (seq 0 i)).
Proof.
  unfold programs_before. assert (forall fuel i, (i <= fuel)%nat -> (i < length (programs o))%nat ->
    visited (fun p => bpf_program__prev p o) fuel (Some i) = reverse (filter (fun j => is_storage o j = false) (seq 0 i))) as Hv;
    [|intros Hi; apply Hv; lia].
  induction fuel as [|fuel IH]; intros j Hf Hj; [by replace j with 0%nat by lia|].
  cbn [visited]. rewrite bpf_program__prev_spec by done.
  destruct (last _) as [k|] eqn:El.
  - destruct (filter_seq_last _ _ _ El) as [Hk ->]. rewrite reverse_snoc, IH by lia. done.
  - apply last_None in El. by rewrite El.
Qed.

(** ** The pins *)

(** A path names a file; pinned files hold descriptors. *)
Class FileSystemLaws (K F : Type) `{FileSystem K} `{Countable F} := {
  file_of : str -> F;
  pins : K -> gmap F Z;
  pin_law fd p k : match sys_obj_pin fd p k with
    | (Ok _, k') => pins k !! file_of p = None /\ pins k' = <[file_of p := fd]> (pins k)
    | (Err _, k') => pins k' = pins k
    end;
  (** What is pinned can be unpinned. *)
  unlink_law p k : match sys_unlink p k with
    | (Ok _, k') => pins k' = delete (file_of p) (pins k)
    | (Err _, k') => pins k' = pins k /\ pins k !! file_of p = None
    end;
  mkdir_pins p k : pins (sys_mkdir p k).2 = pins k;
  rmdir_pins p k : pins (sys_rmdir p k).2 = pins k;
  pin_statfs fd p k d t : sys_statfs d k = Ok t -> sys_statfs d (sys_obj_pin fd p k).2 = Ok t;
  unlink_statfs p k d t : sys_statfs d k = Ok t -> sys_statfs d (sys_unlink p k).2 = Ok t;
  mkdir_statfs p k d t : sys_statfs d k = Ok t -> sys_statfs d (sys_mkdir p k).2 = Ok t;
  (** A directory that holds something is not removed, nor that it was in. *)
  rmdir_statfs p k q t : is_Some (pins k !! file_of q) \/ dirname q = dirname p ->
    sys_statfs (dirname q) k = Ok t -> sys_statfs (dirname q) (sys_rmdir p k).2 = Ok t
}.

Section pinned.
Context {K F : Type} `{FileSystemLaws K F}.
Abbreviation PM := (ST (nat * K)).

Definition files (es : list (str * Z)) : list F := (fun e => file_of e.1) <$> es.

(** The entries [es], all new, have been added to the pins [m]. *)
Record grown (es : list (str * Z)) (m m' : gmap F Z) : Prop := {
  gr_nodup : NoDup (files es);
  gr_new : forall f, f ∈ files es -> m !! f = None;
  gr_entries : forall e, e ∈ es -> m' !! file_of e.1 = Some e.2;
  gr_others : forall f, (f ∉ files es) -> m' !! f = m !! f
}.

Lemma files_app es es' : files (es ++ es') = files es ++ files es'.
Proof. apply fmap_app. Qed.

Lemma elem_of_files e es : e ∈ es -> file_of e.1 ∈ files es.
Proof. intros He. apply list_elem_of_fmap. by exists e. Qed.

(** The pins [m] but for the files [fs]. *)
Definition without (fs : list F) (m : gmap F Z) : gmap F Z := filter (fun '(f, _) => f ∉ fs) m.

Lemma lookup_without fs m f : without fs m !! f = if decide (f ∈ fs) then None else m !! f.
Proof.
  unfold without. rewrite map_lookup_filter. destruct (m !! f) as [fd|]; cbn; [|by destruct (decide _)].
  unfold guard. destruct (decide (f ∉ fs)), (decide (f ∈ fs)); done.
Qed.

Lemma without_nil m : without [] m = m.
Proof. apply map_eq. intros f. rewrite lookup_without. destruct (decide _) as [Hf|]; [by apply not_elem_of_nil in Hf|done]. Qed.

Lemma without_app fs fs' m : without fs' (without fs m) = without (fs ++ fs') m.
Proof.
  apply map_eq. intros f. rewrite !lookup_without.
  destruct (decide (f ∈ fs')), (decide (f ∈ fs)), (decide (f ∈ fs ++ fs')) as [Hf|Hf]; try done; rewrite elem_of_app in Hf; tauto.
Qed.

Lemma without_perm fs fs' m : (forall f, f ∈ fs <-> f ∈ fs') -> without fs m = without fs' m.
Proof. intros Hf. apply map_eq. intros f. rewrite !lookup_without. by rewrite (decide_ext _ _ _ _ (Hf f)). Qed.

Lemma grown_without es m m' : grown es m m' -> without (files es) m' = m.
Proof.
  intros [G1 G2 G3 G4]. apply map_eq. intros f. rewrite lookup_without. destruct (decide (f ∈ files es)) as [Hf|Hf]; [by rewrite G2|by apply G4].
Qed.

Lemma grown_nil m : grown [] m m.
Proof. split; [apply NoDup_nil_2|intros f Hf|intros e He|done]; [by apply not_elem_of_nil in Hf|by apply not_elem_of_nil in He]. Qed.

Lemma grown_app es es' m m1 m2 : grown es m m1 -> grown es' m1 m2 -> grown (es ++ es') m m2.
Proof.
  intros [G1 G2 G3 G4] [I1 I2 I3 I4].
  assert (forall f, f ∈ files es -> (f ∉ files es')) as Hd.
  { intros f Hf Hf'. apply list_elem_of_fmap in Hf as (e & -> & He). specialize (I2 _ Hf'). by rewrite (G3 e He) in I2. }
  split.
  - rewrite files_app. apply NoDup_app. split_and!; [done| |done]. exact Hd.
  - intros f. rewrite files_app, elem_of_app. intros [Hf|Hf]; [by apply G2|].
    rewrite <- G4; [by apply I2|]. intros Hf'. by apply (Hd f).
  - intros e [He|He]%elem_of_app; [|by apply I3]. rewrite I4; [by apply G3|]. by apply Hd, elem_of_files.
  - intros f. rewrite files_app, elem_of_app. intros Hf. rewrite I4, G4 by tauto. done.
Qed.

Lemma grown_one p fd (m : gmap F Z) : m !! file_of p = None -> grown [(p, fd)] m (<[file_of p := fd]> m).
Proof.
  intros Hn. split; cbn.
  - apply NoDup_singleton.
  - by intros f ->%list_elem_of_singleton.
  - intros e ->%list_elem_of_singleton. apply lookup_insert_eq.
  - intros f Hf. rewrite list_elem_of_singleton in Hf. by rewrite lookup_insert_ne.
Qed.

Lemma grown_sub es m m' f : grown es m m' -> is_Some (m !! f) -> is_Some (m' !! f).
Proof. intros [G1 G2 G3 G4] [fd Hf]. rewrite G4; [by exists fd|]. intros Hin. by rewrite (G2 f Hin) in Hf. Qed.

(** *** One file *)

Section rules.
Context (alloc : nat -> bool).
Hypothesis Hmem : forall n, alloc n = true.

Definition okdir (p : str) (s : nat * K) : Prop := sys_statfs (dirname p) s.2 = Ok BPF_FS_MAGIC.

(** The directories of what stays pinned, and those of [base], stay. *)
Definition keeps (base : str) (s s' : nat * K) : Prop :=
  forall p, okdir p s -> is_Some (pins s.2 !! file_of p) /\ is_Some (pins s'.2 !! file_of p) \/ dirname p = base -> okdir p s'.

Lemma keeps_same base s s' : s'.2 = s.2 -> keeps base s s'.
Proof using. intros E p Hp _. unfold okdir in *. by rewrite E. Qed.

Lemma keeps_trans base s1 s2 s3 : keeps base s1 s2 -> keeps base s2 s3 ->
  (forall f, is_Some (pins s1.2 !! f) -> is_Some (pins s3.2 !! f) -> is_Some (pins s2.2 !! f)) -> keeps base s1 s3.
Proof using. intros K1 K2 Hm p Hp Hc. apply K2; [apply K1; [done|]|]; destruct Hc as [[H1' H2']|]; eauto. Qed.

(** An entry that has been pinned, in its directory. *)
Definition held (es : list (str * Z)) (s : nat * K) : Prop :=
  forall e, e ∈ es -> pins s.2 !! file_of e.1 = Some e.2 /\ okdir e.1 s.

Lemma held_keeps base es s s' : held es s -> keeps base s s' -> (forall e, e ∈ es -> pins s'.2 !! file_of e.1 = pins s.2 !! file_of e.1) -> held es s'.
Proof using.
  intros Hh Hk Hp e He. destruct (Hh e He) as [H1' H2']. rewrite (Hp e He). split; [done|]. apply Hk; [done|].
  left. rewrite (Hp e He), H1'. split; by exists e.2.
Qed.

Lemma held_app es es' s : held (es ++ es') s <-> held es s /\ held es' s.
Proof using.
  unfold held. split.
  - intros Hh. split; intros e He; apply Hh, elem_of_app; tauto.
  - intros [H1' H2'] e [He|He]%elem_of_app; auto.
Qed.

Lemma check_run U E (P : unit -> nat * K -> Prop) p s :
  (forall err s', s'.2 = s.2 -> E err s') -> (forall s', s'.2 = s.2 -> okdir p s -> P tt s') -> runs U E P (check_path alloc (Some p)) s.
Proof using Hmem.
  destruct s as [n k]. intros HE HP. unfold check_path, runs, pin_malloc, bind, get. rewrite Hmem. cbn.
  destruct (sys_statfs _ _) as [t|err] eqn:Et; [|by apply HE]. destruct (Z.eqb_spec t BPF_FS_MAGIC) as [->|]; [by apply HP|by apply HE].
Qed.

Lemma check_fine U E (P : unit -> nat * K -> Prop) p s :
  okdir p s -> (forall s', s'.2 = s.2 -> P tt s') -> runs U E P (check_path alloc (Some p)) s.
Proof using Hmem.
  destruct s as [n k]. intros Hd HP. unfold okdir in Hd. unfold check_path, runs, pin_malloc, bind, get. rewrite Hmem. cbn in *. rewrite Hd. by apply HP.
Qed.

Lemma of_result_run {A} U E (P : A -> nat * K -> Prop) (r : result A) s :
  (forall err, r = Err err -> E err s) -> (forall a, r = Ok a -> P a s) -> runs U E P (of_result r) s.
Proof using. destruct r; intros HE HP; [by apply HP|by apply HE]. Qed.

Lemma pin_sys_run base U E (P : unit -> nat * K -> Prop) fd p s : okdir p s ->
  (forall err s', pins s'.2 = pins s.2 -> keeps base s s' -> E err s') ->
  (forall s', grown [(p, fd)] (pins s.2) (pins s'.2) -> held [(p, fd)] s' -> keeps base s s' -> P tt s') ->
  runs U E P (pin_sys (sys_obj_pin fd p)) s.
Proof using.
  destruct s as [n k]. intros Hd HE HP. unfold runs, pin_sys. pose proof (pin_law fd p k) as Hl. pose proof (pin_statfs fd p k) as Hs.
  destruct (sys_obj_pin fd p k) as [[[]|err] k']; cbn in *.
  - destruct Hl as [Hn E']. apply HP; cbn; [rewrite E'; by apply grown_one| |by intros q Hq _; apply Hs].
    intros e ->%list_elem_of_singleton. cbn. rewrite E', lookup_insert_eq. split; [done|by apply Hs].
  - apply HE; [done|]. by intros q Hq _; apply Hs.
Qed.

Lemma unlink_run base U E (P : unit -> nat * K -> Prop) p s : is_Some (pins s.2 !! file_of p) ->
  (forall s', pins s'.2 = without [file_of p] (pins s.2) -> keeps base s s' -> P tt s') ->
  runs U E P (pin_sys (sys_unlink p)) s.
Proof using.
  destruct s as [n k]. intros [fd Hp] HP. unfold runs, pin_sys. pose proof (unlink_law p k) as Hl. pose proof (unlink_statfs p k) as Hs. cbn in Hp.
  destruct (sys_unlink p k) as [[[]|err] k']; cbn in *; [|by destruct Hl as [_ Hl]; rewrite Hl in Hp].
  apply HP; cbn; [|by intros q Hq _; apply Hs]. rewrite Hl. apply map_eq. intros f. rewrite lookup_without.
  destruct (decide (f = file_of p)) as [->|Hne].
  - rewrite lookup_delete_eq, decide_True; [done|by apply list_elem_of_singleton].
  - rewrite lookup_delete_ne, decide_False by (rewrite ?list_elem_of_singleton; done). done.
Qed.

Lemma make_dir_run base U E (P : unit -> nat * K -> Prop) p s :
  (forall (r : result unit) s', pins s'.2 = pins s.2 -> keeps base s s' -> match r with Ok _ => P tt s' | Err err => E err s' end) ->
  runs U E P (make_dir p) s.
Proof using.
  destruct s as [n k]. intros HP. unfold runs, make_dir. pose proof (mkdir_pins p k) as Hp. pose proof (mkdir_statfs p k) as Hs.
  destruct (sys_mkdir p k) as [[[]|err] k']; cbn in *.
  - apply (HP (Ok tt)); [done|]. by intros q Hq _; apply Hs.
  - destruct (err =? EEXIST); [apply (HP (Ok tt))|apply (HP (Err (- err)))]; try done; by intros q Hq _; apply Hs.
Qed.

Lemma rmdir_run base U E (P : unit -> nat * K -> Prop) p s : dirname p = base ->
  (forall (r : result unit) s', pins s'.2 = pins s.2 -> keeps base s s' -> match r with Ok _ => P tt s' | Err err => E err s' end) ->
  runs U E P (pin_sys (sys_rmdir p)) s.
Proof using.
  destruct s as [n k]. intros Eb HP. unfold runs, pin_sys. pose proof (rmdir_pins p k) as Hp. pose proof (rmdir_statfs p k) as Hs.
  assert (forall s', s'.2 = (sys_rmdir p k).2 -> keeps base (n, k) s') as Hk.
  { intros s' E' q Hq Hc. unfold okdir in *. rewrite E'. apply Hs; [|done]. cbn in *. destruct Hc as [[Hc _]|Hc]; [by left|right; congruence]. }
  destruct (sys_rmdir p k) as [[[]|err] k']; cbn in *; [apply (HP (Ok tt))|apply (HP (Err (- err)))]; try done; by apply Hk.
Qed.

Lemma quietly_run U E (P : unit -> nat * K -> Prop) c s :
  runs U (fun _ => P tt) P c s -> runs U E P (quietly c) s.
Proof using. intros Hc. apply run_bind, run_try. eapply run_impl; [exact Hc|done|done|]. by intros [] s'. Qed.
End rules.

(** *** Several files *)

Section each.
Context {I : Type} (pin unpin : I -> PM unit) (ent : I -> list (str * Z)) (extra : I -> nat * K -> Prop) (base : str).
(** An item pins its entries and unpins them, under a condition that stays. *)
Hypothesis Hextra : forall i s s', extra i s -> keeps base s s' -> extra i s'.
Hypothesis Hunpin : forall i s, held (ent i) s -> NoDup (files (ent i)) -> extra i s ->
  runs False (fun _ _ => False) (fun _ s' => pins s'.2 = without (files (ent i)) (pins s.2) /\ keeps base s s') (unpin i) s.

Definition entries (l : list I) : list (str * Z) := concat (List.map ent l).
Definition items_held (l : list I) (s : nat * K) : Prop := held (entries l) s /\ forall i, i ∈ l -> extra i s.

Lemma entries_app l l' : entries (l ++ l') = entries l ++ entries l'.
Proof using. unfold entries. by rewrite List.map_app, concat_app. Qed.

Lemma items_held_keeps l s s' : items_held l s -> keeps base s s' ->
  (forall e, e ∈ entries l -> pins s'.2 !! file_of e.1 = pins s.2 !! file_of e.1) -> items_held l s'.
Proof using Hextra. intros [H1' H2'] Hk Hp. split; [by eapply held_keeps|]. intros i Hi. eapply Hextra; [by apply H2'|done]. Qed.

Lemma unpin_each_run l : forall s, items_held l s -> NoDup (files (entries l)) ->
  runs False (fun _ _ => False) (fun _ s' => pins s'.2 = without (files (entries l)) (pins s.2) /\ keeps base s s') (each unpin l) s.
Proof using Hunpin Hextra.
  induction l as [|i l IH]; intros s [Hh He] Hnd; cbn [each].
  - apply run_ret. split; [by rewrite without_nil|by apply keeps_same].
  - change (entries (i :: l)) with (ent i ++ entries l) in *. apply held_app in Hh as [Hi Hl]. rewrite files_app in Hnd.
    apply NoDup_app in Hnd as (Hnd1 & Hd & Hnd2). eapply run_seq; [apply Hunpin; [done|done|apply He; by left]|].
    intros [] s1 [E1 K1]. eapply run_mono; [apply IH; [|done]|].
    + apply (items_held_keeps l s); [split; [done|]; intros j Hj; apply He; by right|done|].
      intros e Hin. rewrite E1, lookup_without, decide_False; [done|]. intros Hf. by apply (Hd _ Hf), elem_of_files.
    + intros [] s2 [E2 K2]. rewrite E2, E1. split; [by rewrite without_app, files_app|].
      apply (keeps_trans _ s s1 s2); [done|done|]. intros f _ Hf. rewrite E2, lookup_without in Hf. destruct (decide _); [by destruct Hf|done].
Qed.

Lemma elem_of_entries l e : e ∈ entries l <-> exists i, i ∈ l /\ e ∈ ent i.
Proof using.
  unfold entries. rewrite list_elem_of_In, in_concat. split.
  - intros (x & Hx & He). apply in_map_iff in Hx as (i & <- & Hi). exists i. by rewrite !list_elem_of_In.
  - intros (i & Hi & He). exists (ent i). rewrite <- !list_elem_of_In. split; [|done]. rewrite list_elem_of_In. apply in_map. by apply list_elem_of_In.
Qed.

Lemma entries_perm l l' : l ≡ₚ l' -> entries l ≡ₚ entries l'.
Proof using.
  unfold entries. induction 1 as [|i l l' _ IH|i j l|l1 l2 l3 _ IH1 _ IH2]; cbn; [done|by rewrite IH| |by rewrite IH1].
  rewrite !app_assoc. by rewrite (Permutation_app_comm (ent j)).
Qed.

Context (unwind : I -> PM unit) (l : list I).
Hypothesis Hpin : forall i s, i ∈ l -> runs False (fun _ s' => pins s'.2 = pins s.2 /\ keeps base s s')
  (fun _ s' => grown (ent i) (pins s.2) (pins s'.2) /\ held (ent i) s' /\ extra i s' /\ keeps base s s') (pin i) s.
Hypothesis Hunwind : forall d i rest s, l = d ++ i :: rest -> items_held d s -> NoDup (files (entries d)) ->
  runs False (fun _ _ => False) (fun _ s' => pins s'.2 = without (files (entries d)) (pins s.2) /\ keeps base s s') (unwind i) s.

Definition all_pinned (d : list I) (s0 s : nat * K) : Prop :=
  grown (entries d) (pins s0.2) (pins s.2) /\ items_held d s /\ keeps base s0 s.

Lemma pin_rest_run s0 : forall todo d s, l = d ++ todo -> all_pinned d s0 s ->
  runs False (fun _ s' => pins s'.2 = pins s0.2 /\ keeps base s0 s') (fun _ s' => all_pinned l s0 s') (pin_each pin unwind todo) s.
Proof using Hpin Hunwind Hextra.
  induction todo as [|i todo IH]; intros d s El (Hg & Hh & Hk); cbn [pin_each].
  - apply run_ret. rewrite app_nil_r in El. by subst d.
  - apply run_bind, run_try. eapply run_impl; [apply Hpin; rewrite El; apply elem_of_app; right; by left|done| |].
    + intros err s1 [E1 K1]. eapply run_seq.
      * eapply run_impl; [apply (Hunwind d i todo s1 El)|done|intros ? ? []|intros a s' Ha; exact Ha].
        -- apply (items_held_keeps d s); [done|done|]. intros e _. by rewrite E1.
        -- exact (gr_nodup _ _ _ Hg).
      * intros [] s2 [E2 K2]. apply run_fail.
        assert (pins s2.2 = pins s0.2) as E by (rewrite E2, E1; by apply grown_without). split; [done|].
        apply (keeps_trans _ s0 s s2); [done| |].
        -- apply (keeps_trans _ s s1 s2); [done|done|]. intros f. by rewrite E1.
        -- intros f Hf _. by eapply grown_sub.
    + intros [] s1 (G1 & H1' & X1 & K1). apply (IH (d ++ [i])); [by rewrite <- app_assoc|].
      assert (entries (d ++ [i]) = entries d ++ ent i) as Ee by (rewrite entries_app; unfold entries; cbn; by rewrite app_nil_r).
      assert (forall e, e ∈ entries d -> pins s1.2 !! file_of e.1 = pins s.2 !! file_of e.1) as Hsame.
      { intros e He. apply (gr_others _ _ _ G1). intros Hf. destruct (proj1 Hh e He) as [Hs _]. by rewrite (gr_new _ _ _ G1 _ Hf) in Hs. }
      destruct (items_held_keeps d s s1 Hh K1 Hsame) as [Hd Xd]. split; [rewrite Ee; by eapply grown_app|]. split.
      * split; [rewrite Ee; by apply held_app|]. intros j [Hj| ->%list_elem_of_singleton]%elem_of_app; [by apply Xd|done].
      * apply (keeps_trans _ s0 s s1); [done|done|]. intros f Hf _. by eapply grown_sub.
Qed.

Lemma pin_each_run s : runs False (fun _ s' => pins s'.2 = pins s.2 /\ keeps base s s') (fun _ s' => all_pinned l s s')
  (pin_each pin unwind l) s.
Proof using Hpin Hunwind Hextra.
  apply (pin_rest_run s l []); [done|]. split; [apply grown_nil|]. split; [|by apply keeps_same].
  split; [intros e He|intros i Hi]; [by apply not_elem_of_nil in He|by apply not_elem_of_nil in Hi].
Qed.
End each.

(** Undoing, last first, without regard to errors. *)
Lemma unpin_back_run {I} (unpin : I -> PM unit) ent extra base d s :
  (forall i s s', extra i s -> keeps base s s' -> extra i s') ->
  (forall i s, held (ent i) s -> NoDup (files (ent i)) -> extra i s ->
    runs False (fun _ s' => pins s'.2 = without (files (ent i)) (pins s.2) /\ keeps base s s')
      (fun _ s' => pins s'.2 = without (files (ent i)) (pins s.2) /\ keeps base s s') (unpin i) s) ->
  items_held ent extra d s -> NoDup (files (entries ent d)) ->
  runs False (fun _ _ => False) (fun _ s' => pins s'.2 = without (files (entries ent d)) (pins s.2) /\ keeps base s s')
    (each (fun i => quietly (unpin i)) (reverse d)) s.
Proof.
  intros Hx Hu [Hh He] Hnd. pose proof (entries_perm ent _ _ (reverse_Permutation d)) as Hp.
  assert (files (entries ent (reverse d)) ≡ₚ files (entries ent d)) as Hf by (unfold files; by rewrite Hp).
  eapply run_mono; [apply (unpin_each_run (fun i => quietly (unpin i)) ent extra base Hx)|].
  - intros i s1 H1' H2' H3'. apply quietly_run. eapply run_impl; [by apply Hu|done|done|done].
  - split; [intros e Hin; apply Hh; by rewrite <- Hp|]. intros i Hi. apply He. by apply elem_of_reverse.
  - by rewrite Hf.
  - intros [] s' [E Hk]. split; [|done]. rewrite E. apply without_perm. intros f. by rewrite Hf.
Qed.

(** *** Programs, maps and objects *)

Lemma znth_of_nat {A} (l : list A) i : znth l (Z.of_nat i) = l !! i.
Proof using. unfold znth. rewrite decide_True by lia. by rewrite Nat2Z.id. Qed.

Definition instance_path (path : str) (i : nat) : str := path ++ [SLASH] ++ decimal i.

(** What a program with these instances has under a path. *)
Definition program_entries (path : str) (fds : list Z) : list (str * Z) :=
  match fds with
  | [fd] => [(path, fd)]
  | fds => imap (fun i fd => (instance_path path i, fd)) fds
  end.

Section pinning.
Context (alloc : nat -> bool) (base : str).
Hypothesis Hmem : forall n, alloc n = true.

Local Abbreviation unchanged s := (fun _ s' => pins s'.2 = pins s.2 /\ keeps base s s').
Local Abbreviation gone es s := (fun _ s' => pins s'.2 = without (files es) (pins s.2) /\ keeps base s s').

Lemma keeps_shift s s0 s' : s0.2 = s.2 -> keeps base s0 s' -> keeps base s s'.
Proof using. unfold keeps, okdir. intros <-. done. Qed.

(** Checking a path, then one file. *)
Lemma pin_one_run U E (P : unit -> nat * K -> Prop) fd p s :
  (forall err s', pins s'.2 = pins s.2 -> keeps base s s' -> E err s') ->
  (forall s', grown [(p, fd)] (pins s.2) (pins s'.2) -> held [(p, fd)] s' -> keeps base s s' -> P tt s') ->
  runs U E P (let* _ := check_path alloc (Some p) in pin_sys (sys_obj_pin fd p)) s.
Proof using Hmem.
  intros HE HP. apply run_bind, check_run; [done|..].
  - intros err s' E'. apply HE; [by rewrite E'|by apply keeps_same].
  - intros s0 E0 Hd. apply (pin_sys_run base); [unfold okdir in *; by rewrite E0|..]; rewrite E0.
    + intros err s' Hp Hk. apply HE; [done|by eapply keeps_shift].
    + intros s' Hg Hh Hk. apply HP; [done|done|by eapply keeps_shift].
Qed.

Lemma unpin_one_run U E (P : unit -> nat * K -> Prop) fd p s : held [(p, fd)] s ->
  (forall s', pins s'.2 = without (files [(p, fd)]) (pins s.2) -> keeps base s s' -> P tt s') ->
  runs U E P (let* _ := check_path alloc (Some p) in pin_sys (sys_unlink p)) s.
Proof using Hmem.
  intros Hh HP. destruct (Hh (p, fd)) as [Hp Hd]; [by apply list_elem_of_singleton|]. apply run_bind, check_fine; [done|done|].
  intros s0 E0. apply (unlink_run base); rewrite E0; [by exists fd|]. intros s' Hs Hk. apply HP; [done|by eapply keeps_shift].
Qed.

Lemma pin_instance_shape p path i fd s : instances p !! i = Some fd ->
  bpf_program__pin_instance alloc (Some p) (Some path) (Z.of_nat i) s =
    (let* _ := check_path alloc (Some path) in pin_sys (sys_obj_pin fd path)) s /\
  bpf_program__unpin_instance alloc (Some p) (Some path) (Z.of_nat i) s =
    (let* _ := check_path alloc (Some path) in pin_sys (sys_unlink path)) s.
Proof using.
  intros Hi. unfold bpf_program__pin_instance, bpf_program__unpin_instance, instance_fd. rewrite znth_of_nat, Hi.
  unfold bind. split; by destruct (check_path _ _ _) as [[[[]|] ?]|].
Qed.

(** The instances of a program that has several. *)
Definition instance_entry (p : bpf_program) (path : str) (i : nat) : list (str * Z) :=
  [(instance_path path i, default 0 (instances p !! i))].
Definition instance_fine (p : bpf_program) (path : str) (i : nat) (s : nat * K) : Prop :=
  is_Some (instances p !! i) /\ entry_path path (decimal i) = Ok (instance_path path i).

Lemma instance_entries p path : (length (instances p) <> 1)%nat ->
  entries (instance_entry p path) (seq 0 (length (instances p))) = program_entries path (instances p).
Proof using.
  intros Hn. assert (program_entries path (instances p) = imap (fun i fd => (instance_path path i, fd)) (instances p)) as ->.
  { unfold program_entries. destruct (instances p) as [|fd [|]]; done. }
  unfold entries, instance_entry. generalize (instance_path path). generalize (instances p). clear. intros l g.
  apply list_eq. intros i. rewrite list_lookup_imap.
  assert (forall (l : list nat) (f : nat -> str * Z), concat (List.map (fun i => [f i]) l) = f <$> l) as ->.
  { intros k f. induction k as [|a k IH]; [done|]. cbn. by rewrite IH. }
  rewrite list_lookup_fmap. destruct (decide (i < length l)%nat) as [Hi|Hi].
  - rewrite lookup_seq_lt by done. destruct (lookup_lt_is_Some_2 _ _ Hi) as [fd Hfd]. cbn. by rewrite Hfd.
  - rewrite lookup_seq_ge, lookup_ge_None_2 by lia. done.
Qed.

Lemma at_instance_pin p path i s : (i < length (instances p))%nat ->
  runs False (unchanged s)
    (fun _ s' => grown (instance_entry p path i) (pins s.2) (pins s'.2) /\ held (instance_entry p path i) s' /\ instance_fine p path i s' /\ keeps base s s')
    (at_instance p path (bpf_program__pin_instance alloc) i) s.
Proof using Hmem.
  intros [fd Hi]%lookup_lt_is_Some_2. unfold at_instance, instance_entry, instance_fine. rewrite Hi. apply run_bind, of_result_run.
  - intros err _. split; [done|by apply keeps_same].
  - intros q Eq. pose proof (entry_path_ok _ _ _ Eq) as ->. unfold runs. rewrite (proj1 (pin_instance_shape p _ i fd s Hi)).
    apply pin_one_run; [done|]. intros s' Hg Hh Hk. cbn. split_and!; try done; by exists fd.
Qed.

Lemma at_instance_unpin p path i s : held (instance_entry p path i) s -> instance_fine p path i s ->
  runs False (fun _ _ => False) (gone (instance_entry p path i) s) (at_instance p path (bpf_program__unpin_instance alloc) i) s.
Proof using Hmem.
  intros Hh [[fd Hi] Eq]. unfold at_instance, instance_entry in *. rewrite Hi in Hh |- *. rewrite Eq. apply run_bind, run_ret.
  unfold runs. rewrite (proj2 (pin_instance_shape p _ i fd s Hi)). by apply (unpin_one_run _ _ _ fd).
Qed.

(** What a program needs to be unpinned. *)
Definition program_fine (p : bpf_program) (path : str) (s : nat * K) : Prop :=
  okdir path s /\ instances p <> [] /\
  ((length (instances p) <> 1)%nat -> forall i, (i < length (instances p))%nat -> entry_path path (decimal i) = Ok (instance_path path i)).

Lemma program_fine_keeps p path s s' : dirname path = base -> program_fine p path s -> keeps base s s' -> program_fine p path s'.
Proof using. intros Eb (Hd & Hn & Hi) Hk. split; [|done]. apply Hk; [done|by right]. Qed.

Lemma unwind_instances_run p path d a rest s : dirname path = base -> seq 0 (length (instances p)) = d ++ a :: rest ->
  items_held (instance_entry p path) (instance_fine p path) d s -> NoDup (files (entries (instance_entry p path) d)) ->
  runs False (fun _ _ => False) (gone (entries (instance_entry p path) d) s)
    (let* _ := each (fun i => quietly (at_instance p path (bpf_program__unpin_instance alloc) i)) (reverse (seq 0 a)) in
     quietly (pin_sys (sys_rmdir path))) s.
Proof using Hmem.
  intros Eb El Hh Hnd.
  rewrite <- (seq_prefix _ _ _ _ El). eapply run_seq.
  - apply (unpin_back_run (at_instance p path (bpf_program__unpin_instance alloc)) (instance_entry p path) (instance_fine p path) base); [done| |done|done].
    intros i s1 H1' _ H2'. eapply run_impl; [by apply at_instance_unpin|done|intros ? ? []|done].
  - intros [] s1 [E1 K1]. apply quietly_run. apply (rmdir_run base); [done|]. intros r s2 E2 K2.
    assert (pins s2.2 = without (files (entries (instance_entry p path) d)) (pins s.2) /\ keeps base s s2) as Hend; [|by destruct r].
    rewrite E2, E1. split.
    + done.
    + apply (keeps_trans _ s s1 s2); [done|done|]. intros f _. by rewrite E2.
Qed.

Lemma program_pin_run p path s : dirname path = base ->
  runs False (unchanged s)
    (fun _ s' => grown (program_entries path (instances p)) (pins s.2) (pins s'.2) /\ held (program_entries path (instances p)) s' /\
      program_fine p path s' /\ keeps base s s')
    (bpf_program__pin alloc (Some p) (Some path)) s.
Proof using Hmem.
  intros Eb. unfold bpf_program__pin. apply run_bind, check_run; [done|intros err s' E; split; [by rewrite E|by apply keeps_same]|].
  intros s0 E0 Hd. destruct (Nat.eqb_spec (length (instances p)) 0) as [|Hn0]; [split; [by rewrite E0|by apply keeps_same]|].
  assert (instances p <> []) as Hne by by destruct (instances p). destruct (Nat.eqb_spec (length (instances p)) 1) as [E1|Hn1].
  - destruct (instances p) as [|fd [|]] eqn:Ei; [done| |done]. unfold runs.
    pose proof (proj1 (pin_instance_shape p path 0 fd s0 ltac:(by rewrite Ei))) as Hs. change (Z.of_nat 0) with 0 in Hs. rewrite Hs. clear Hs. apply pin_one_run; rewrite E0.
    + intros err s' E Hk. split; [done|by eapply keeps_shift].
    + intros s' Hg Hh Hk. split; [done|]. split; [done|]. pose proof (keeps_shift _ _ _ E0 Hk) as Hk'. split; [|done].
      unfold program_fine. rewrite Ei. split; [apply Hk'; [done|by right]|]. by split.
  - apply run_bind, run_ret, run_bind, (make_dir_run base). intros r s1 E1 K1.
    pose proof (keeps_shift _ _ _ E0 K1) as K1'. rewrite E0 in E1. destruct r as [u|err]; [|done].
    eapply run_impl; [apply (pin_each_run (at_instance p path (bpf_program__pin_instance alloc)) (instance_entry p path) (instance_fine p path) base)|..].
    + done.
    + intros j s2 Hj. apply elem_of_seq in Hj. apply at_instance_pin. lia.
    + intros d a rest s2 El Hh Hnd. by apply (unwind_instances_run p path d a rest).
    + done.
    + intros err s2 [E2 K2]. split; [by rewrite E2|]. apply (keeps_trans _ s s1 s2); [done|done|]. intros f. by rewrite E1.
    + intros [] s2 (G2 & [Hh Hf] & K2). rewrite instance_entries in G2, Hh by done. rewrite E1 in G2. split; [done|]. split; [done|].
      assert (keeps base s s2) as K3 by (apply (keeps_trans _ s s1 s2); [done|done|]; intros f; by rewrite E1).
      split; [|done]. split; [apply K3; [done|by right]|]. split; [done|]. intros _ j Hj. apply Hf, elem_of_seq. lia.
Qed.

(** Unpinning removes the files, even where the directory cannot be removed. *)
Lemma program_unpin_run p path s : dirname path = base ->
  held (program_entries path (instances p)) s -> NoDup (files (program_entries path (instances p))) -> program_fine p path s ->
  runs False (fun err s' => gone (program_entries path (instances p)) s err s' /\ length (instances p) <> 1%nat)
    (gone (program_entries path (instances p)) s) (bpf_program__unpin alloc (Some p) (Some path)) s.
Proof using Hmem.
  intros Eb Hh Hnd (Hd & Hne & Hf). unfold bpf_program__unpin. apply run_bind, check_fine; [done|done|]. intros s0 E0.
  destruct (Nat.eqb_spec (length (instances p)) 0) as [Hz|Hn0]; [by destruct (instances p)|].
  destruct (Nat.eqb_spec (length (instances p)) 1) as [E1|Hn1].
  - destruct (instances p) as [|fd [|]] eqn:Ei; [done| |done]. unfold runs.
    pose proof (proj2 (pin_instance_shape p path 0 fd s0 ltac:(by rewrite Ei))) as Hs. change (Z.of_nat 0) with 0 in Hs. rewrite Hs. clear Hs. cbn [program_entries] in *.
    apply (unpin_one_run _ _ _ fd); [unfold held, okdir in *; by rewrite E0|]. rewrite E0. intros s' E Hk. split; [done|by eapply keeps_shift].
  - rewrite <- instance_entries in Hh, Hnd |- * by done. apply run_bind, run_ret. eapply run_seq.
    { eapply run_impl; [apply (unpin_each_run (at_instance p path (bpf_program__unpin_instance alloc)) (instance_entry p path) (instance_fine p path) base)
        |done|intros ? ? []|intros a s' Ha; exact Ha].
      - done.
      - intros j s1 H1' _ H2'. by apply at_instance_unpin.
      - split; [unfold held, okdir in *; by rewrite E0|]. intros j [_ Hj]%elem_of_seq. split; [apply lookup_lt_is_Some_2; lia|apply Hf; [done|lia]].
      - done. }
    intros [] s1 [E1 K1]. rewrite E0 in E1. apply (keeps_shift s) in K1; [|done]. apply (rmdir_run base); [done|]. intros r s2 E2 K2.
    assert (gone (entries (instance_entry p path) (seq 0 (length (instances p)))) s tt s2) as Hend; [|by destruct r].
    split; [by rewrite E2|]. apply (keeps_trans _ s s1 s2); [done|done|]. intros f _. by rewrite E2.
Qed.
End pinning.



Definition map_entry (path : str) (m : bpf_map) : list (str * Z) :=
  match m_name m with Some name => [(path ++ [SLASH] ++ name, m_fd m)] | None => [] end.
Definition map_entries (o : bpf_object) (path : str) (i : nat) : list (str * Z) :=
  default [] (map_entry path <$> maps o !! i).
Definition program_path (path : str) (p : bpf_program) : str := path ++ [SLASH] ++ p_pin_name p.
Definition programs_entries (o : bpf_object) (path : str) (i : nat) : list (str * Z) :=
  default [] ((fun p => program_entries (program_path path p) (instances p)) <$> programs o !! i).

(** What an object is pinned as: its maps, then its programs but for the
    storage of functions. *)
Definition object_entries (o : bpf_object) (path : str) : list (str * Z) :=
  entries (map_entries o path) (seq 0 (length (maps o))) ++ entries (programs_entries o path) (programs_of o).

Section object.
Context (alloc : nat -> bool) (o : bpf_object) (path : str).
Hypothesis Hmem : forall n, alloc n = true.
Hypothesis Hmaps : Forall (fun m => is_Some (m_name m)) (maps o).
Hypothesis Hprogs : Forall (fun p => name_ok (p_pin_name p)) (programs o).
Local Abbreviation base := (dir_of path).

Definition map_fine (i : nat) (s : nat * K) : Prop :=
  exists m name, maps o !! i = Some m /\ m_name m = Some name /\ entry_path path name = Ok (path ++ [SLASH] ++ name).
Definition prog_fine_at (i : nat) (s : nat * K) : Prop :=
  exists p, programs o !! i = Some p /\ entry_path path (p_pin_name p) = Ok (program_path path p) /\ program_fine p (program_path path p) s.

Lemma map_fine_keeps i s s' : map_fine i s -> keeps base s s' -> map_fine i s'.
Proof using. done. Qed.

Lemma prog_dirname i p : programs o !! i = Some p -> dirname (program_path path p) = base.
Proof using Hprogs. intros Hi. apply dirname_entry. exact (proj1 (Forall_lookup _ _) Hprogs i p Hi). Qed.

Lemma prog_fine_keeps i s s' : prog_fine_at i s -> keeps base s s' -> prog_fine_at i s'.
Proof using Hprogs.
  intros (p & Hp & Ep & Hf) Hk. exists p. split; [done|]. split; [done|]. eapply program_fine_keeps; [by eapply prog_dirname|done|done].
Qed.

Lemma at_map_pin i s : (i < length (maps o))%nat ->
  runs False (fun _ s' => pins s'.2 = pins s.2 /\ keeps base s s')
    (fun _ s' => grown (map_entries o path i) (pins s.2) (pins s'.2) /\ held (map_entries o path i) s' /\ map_fine i s' /\ keeps base s s')
    (at_map o path (bpf_map__pin alloc) i) s.
Proof using Hmem Hmaps.
  intros [m Hm]%lookup_lt_is_Some_2. destruct (proj1 (Forall_lookup _ _) Hmaps i m Hm) as [name En].
  unfold at_map, map_entries, map_fine, map_entry. rewrite Hm. cbn [fmap option_fmap option_map default]. rewrite En.
  apply run_bind, run_ret, run_bind. rewrite En. apply run_ret, run_bind, of_result_run.
  - intros err _. split; [done|by apply keeps_same].
  - intros q Eq. pose proof (entry_path_ok _ _ _ Eq) as ->. unfold bpf_map__pin. cbn [lift].
    apply (pin_one_run alloc base Hmem _ _ _ (m_fd m)); [done|]. intros s' Hg Hh Hk. cbn. split_and!; try done. by exists m, name.
Qed.

Lemma at_map_unpin i s : held (map_entries o path i) s -> map_fine i s ->
  runs False (fun _ _ => False) (fun _ s' => pins s'.2 = without (files (map_entries o path i)) (pins s.2) /\ keeps base s s')
    (at_map o path (bpf_map__unpin alloc) i) s.
Proof using Hmem.
  intros Hh (m & name & Hm & En & Eq). unfold at_map, map_entries, map_entry in *. rewrite Hm in Hh |- *. cbn in Hh |- *. rewrite En in Hh |- *.
  apply run_bind, run_ret, run_bind. rewrite En. apply run_ret. rewrite Eq. apply run_bind, run_ret. unfold bpf_map__unpin.
  by apply (unpin_one_run alloc base Hmem _ _ _ (m_fd m)).
Qed.

Lemma at_program_pin i s : (i < length (programs o))%nat ->
  runs False (fun _ s' => pins s'.2 = pins s.2 /\ keeps base s s')
    (fun _ s' => grown (programs_entries o path i) (pins s.2) (pins s'.2) /\ held (programs_entries o path i) s' /\ prog_fine_at i s' /\ keeps base s s')
    (at_program o path (bpf_program__pin alloc) i) s.
Proof using Hmem Hprogs.
  intros [p Hp]%lookup_lt_is_Some_2. unfold at_program, programs_entries, prog_fine_at. rewrite Hp. cbn [fmap option_fmap option_map default].
  apply run_bind, run_ret, run_bind, of_result_run.
  - intros err _. split; [done|by apply keeps_same].
  - intros q Eq. pose proof (entry_path_ok _ _ _ Eq) as ->. eapply run_mono; [apply program_pin_run; [done|by eapply prog_dirname]|].
    intros [] s' (Hg & Hh & Hf & Hk). cbn. split_and!; try done. by exists p.
Qed.

Lemma at_program_unpin i s : held (programs_entries o path i) s -> NoDup (files (programs_entries o path i)) -> prog_fine_at i s ->
  runs False (fun _ s' => (pins s'.2 = without (files (programs_entries o path i)) (pins s.2) /\ keeps base s s') /\
      exists p, programs o !! i = Some p /\ length (instances p) <> 1%nat)
    (fun _ s' => pins s'.2 = without (files (programs_entries o path i)) (pins s.2) /\ keeps base s s')
    (at_program o path (bpf_program__unpin alloc) i) s.
Proof using Hmem Hprogs.
  intros Hh Hnd (p & Hp & Eq & Hf). unfold at_program, programs_entries in *. rewrite Hp in Hh, Hnd |- *. cbn in Hh, Hnd |- *.
  apply run_bind, run_ret. rewrite Eq. apply run_bind, run_ret. eapply run_impl; [by apply (program_unpin_run alloc base Hmem); [by eapply prog_dirname|..]| |..].
  - done.
  - intros err s' [Hg Hl]. split; [exact Hg|]. by exists p.
  - done.
Qed.

Local Abbreviation pinned_maps := (all_pinned (map_entries o path) map_fine base (seq 0 (length (maps o)))).
Local Abbreviation pinned_programs := (all_pinned (programs_entries o path) prog_fine_at base (programs_of o)).

Lemma pin_maps_run s : loaded o = true ->
  runs False (fun _ s' => pins s'.2 = pins s.2 /\ keeps base s s') (fun _ s' => exists s0, pins s0.2 = pins s.2 /\ keeps base s s0 /\ pinned_maps s0 s')
    (bpf_object__pin_maps alloc o path) s.
Proof using Hmem Hmaps.
  intros Hl. unfold bpf_object__pin_maps. rewrite Hl. apply run_bind, (make_dir_run base). intros r s0 E0 K0.
  destruct r as [u|err]; [|done]. rewrite for_each_map_spec.
  eapply run_impl; [apply (pin_each_run (at_map o path (bpf_map__pin alloc)) (map_entries o path) map_fine base)|..].
  - done.
  - intros i s1 [_ Hi]%elem_of_seq. by apply at_map_pin.
  - intros d a rest s1 El Hh Hnd. assert (a < length (maps o))%nat as Ha.
    { assert (a ∈ seq 0 (length (maps o))) as [_ Ha]%elem_of_seq; [|done]. rewrite El. apply elem_of_app. right. by left. }
    rewrite maps_before_spec, <- (seq_prefix _ _ _ _ El) by done.
    apply (unpin_back_run (at_map o path (bpf_map__unpin alloc)) (map_entries o path) map_fine base); [done| |done|done].
    intros i s2 H2 _ H2'. eapply run_impl; [by apply at_map_unpin|done|intros ? ? []|done].
  - done.
  - intros err s1 [E1 K1]. split; [by rewrite E1|]. apply (keeps_trans _ s s0 s1); [done|done|]. intros f. by rewrite E0.
  - intros [] s1 Hp. by exists s0.
Qed.

Lemma pin_programs_run s : loaded o = true ->
  runs False (fun _ s' => pins s'.2 = pins s.2 /\ keeps base s s') (fun _ s' => exists s0, pins s0.2 = pins s.2 /\ keeps base s s0 /\ pinned_programs s0 s')
    (bpf_object__pin_programs alloc o path) s.
Proof using Hmem Hprogs.
  intros Hl. unfold bpf_object__pin_programs. rewrite Hl. apply run_bind, (make_dir_run base). intros r s0 E0 K0.
  destruct r as [u|err]; [|done]. rewrite for_each_program_spec.
  assert (forall i, i ∈ programs_of o -> (i < length (programs o))%nat) as Hlt by (intros i [_ Hi]%elem_of_programs_of; done).
  eapply run_impl; [apply (pin_each_run (at_program o path (bpf_program__pin alloc)) (programs_entries o path) prog_fine_at base)|..].
  - exact prog_fine_keeps.
  - intros i s1 Hi. by apply at_program_pin, Hlt.
  - intros d a rest s1 El Hh Hnd. assert (a < length (programs o))%nat as Ha by (apply Hlt; rewrite El; apply elem_of_app; right; by left).
    rewrite programs_before_spec by done. unfold programs_of in El. rewrite <- (filter_seq_prefix _ _ _ _ _ El).
    apply (unpin_back_run (at_program o path (bpf_program__unpin alloc)) (programs_entries o path) prog_fine_at base); [exact prog_fine_keeps| |done|done].
    intros i s2 H2 Hnd2 H2'. eapply run_impl; [by apply at_program_unpin|done|by intros ? ? []|done].
  - done.
  - intros err s1 [E1 K1]. split; [by rewrite E1|]. apply (keeps_trans _ s s0 s1); [done|done|]. intros f. by rewrite E0.
  - intros [] s1 Hp. by exists s0.
Qed.

Lemma unpin_maps_run s : items_held (map_entries o path) map_fine (seq 0 (length (maps o))) s ->
  NoDup (files (entries (map_entries o path) (seq 0 (length (maps o))))) ->
  runs False (fun _ _ => False) (fun _ s' => pins s'.2 = without (files (entries (map_entries o path) (seq 0 (length (maps o))))) (pins s.2) /\ keeps base s s')
    (bpf_object__unpin_maps alloc o path) s.
Proof using Hmem.
  intros Hh Hnd. unfold bpf_object__unpin_maps. rewrite for_each_map_spec. apply (unpin_each_run _ (map_entries o path) map_fine base); [done| |done|done].
  intros i s1 H1' _ H2'. by apply at_map_unpin.
Qed.

(** The whole object. *)
Record object_pinned (s s' : nat * K) : Prop := {
  op_grown : grown (object_entries o path) (pins s.2) (pins s'.2);
  op_maps : items_held (map_entries o path) map_fine (seq 0 (length (maps o))) s';
  op_programs : items_held (programs_entries o path) prog_fine_at (programs_of o) s'
}.

Lemma object_pin_run s : loaded o = true ->
  runs False (fun _ s' => pins s'.2 = pins s.2) (fun _ s' => object_pinned s s') (bpf_object__pin alloc o path) s.
Proof using All.
  intros Hl. unfold bpf_object__pin. eapply run_seq.
  { eapply run_impl; [by apply pin_maps_run|done|by intros err s' []|]. intros a s' Ha. exact Ha. }
  intros [] s1 (s0 & E0 & K0 & Hg & Hh & K1). rewrite E0 in Hg. apply run_bind, run_try.
  eapply run_impl; [by apply pin_programs_run|done|..].
  - intros err s2 [E2 K2]. apply run_bind, quietly_run. eapply run_impl; [apply unpin_maps_run|done|intros ? ? []|].
    + apply (items_held_keeps _ map_fine base map_fine_keeps _ s1); [done|done|]. intros e _. by rewrite E2.
    + exact (gr_nodup _ _ _ Hg).
    + intros [] s3 [E3 _]. apply run_fail. rewrite E3, E2. by apply grown_without.
  - intros [] s3 (s2 & E2 & K2 & Hg2 & Hh2 & K3). rewrite E2 in Hg2.
    assert (keeps base s1 s3) as K4.
    { apply (keeps_trans _ s1 s2 s3); [done|done|]. intros f. by rewrite E2. }
    split; [by eapply grown_app| |done]. apply (items_held_keeps _ map_fine base map_fine_keeps _ s1); [done|done|].
    intros e He. apply (gr_others _ _ _ Hg2). intros Hf. destruct (proj1 Hh e He) as [He1 _]. by rewrite (gr_new _ _ _ Hg2 _ Hf) in He1.
Qed.

Lemma object_unpin_run s s' : Forall (fun p => (length (instances p) <= 1)%nat) (programs o) -> object_pinned s s' ->
  runs False (fun _ _ => False) (fun _ s'' => pins s''.2 = pins s.2)
    (let* _ := bpf_object__unpin_programs alloc o path in bpf_object__unpin_maps alloc o path) s'.
Proof using All.
  intros Hone [Hg Hm Hp]. pose proof (gr_nodup _ _ _ Hg) as Hnd. unfold object_entries in Hnd. rewrite files_app in Hnd.
  apply NoDup_app in Hnd as (Hnd1 & Hd & Hnd2). eapply run_seq.
  - unfold bpf_object__unpin_programs. rewrite for_each_program_spec.
    apply (unpin_each_run _ (programs_entries o path) prog_fine_at base); [exact prog_fine_keeps| |done|done].
    intros i s1 H1' Hn H2'. eapply run_impl; [by apply at_program_unpin|done| |done].
    intros err s2 [_ (p & Hi & Hl)]. pose proof (proj1 (Forall_lookup _ _) Hone i p Hi) as Hle. cbn in Hle.
    destruct H2' as (p' & Hi' & _ & _ & Hne & _). assert (p' = p) as -> by congruence. destruct (instances p); [done|cbn in *; lia].
  - intros [] s1 [E1 K1]. eapply run_impl; [apply unpin_maps_run|done|done|].
    + apply (items_held_keeps _ map_fine base map_fine_keeps _ s'); [done|done|]. intros e He. rewrite E1, lookup_without, decide_False; [done|].
      intros Hf. by apply (Hd (file_of e.1)); [apply elem_of_files|].
    + done.
    + intros [] s2 [E2 _]. rewrite E2, E1, without_app, <- (grown_without _ _ _ Hg). apply without_perm. intros f.
      unfold object_entries. rewrite files_app, !elem_of_app. tauto.
Qed.
End object.

End pinned.


(** Unpinning the programs and maps of an object that was pinned gives back
    the pinned files there were, if no program has several instances. *)
Theorem object_unpin_spec {K F : Type} `{FileSystemLaws K F} alloc o path n (k : K) n' k' :
  (forall n, alloc n = true) -> loaded o = true ->
  Forall (fun m => is_Some (m_name m)) (maps o) -> Forall (fun p => name_ok (p_pin_name p)) (programs o) ->
  Forall (fun p => (length (instances p) <= 1)%nat) (programs o) ->
  bpf_object__pin alloc o path (n, k) = Some (Ok tt, (n', k')) ->
  exists n'' k'', (let* _ := bpf_object__unpin_programs alloc o path in bpf_object__unpin_maps alloc o path) (n', k') =
      Some (Ok tt, (n'', k'')) /\ pins k'' = pins k.
Proof.
  intros Hmem Hl Hmaps Hprogs Hone E. pose proof (object_pin_run alloc o path Hmem Hmaps Hprogs (n, k) Hl) as Hrun.
  unfold runs in Hrun. rewrite E in Hrun.
  destruct (run_elim _ _ _ _ (object_unpin_run alloc o path Hmem Hmaps Hprogs (n, k) (n', k') Hone Hrun)) as ([[]|err] & [n'' k''] & E' & Hr); [|done].
  by exists n'', k''.
Qed.

(** ** A file system to pin to *)

Record ex_fs := ExFs { fs_pins : gmap str Z; fs_dirs : gset str }.

#[export] Instance ex_fs_ops : FileSystem ex_fs := {
  sys_statfs d k := if decide (d ∈ fs_dirs k) then Ok BPF_FS_MAGIC else Err ENOENT;
  sys_obj_pin fd p k :=
    if fd <? 0 then (Err 9, k)
    else if decide (is_Some (fs_pins k !! p) \/ p ∈ fs_dirs k) then (Err EEXIST, k)
    else if decide (dirname p ∈ fs_dirs k) then (Ok tt, ExFs (<[p := fd]> (fs_pins k)) (fs_dirs k)) else (Err ENOENT, k);
  sys_unlink p k :=
    if decide (is_Some (fs_pins k !! p)) then (Ok tt, ExFs (delete p (fs_pins k)) (fs_dirs k)) else (Err ENOENT, k);
  sys_mkdir p k :=
    if decide (is_Some (fs_pins k !! p) \/ p ∈ fs_dirs k) then (Err EEXIST, k)
    else if decide (dirname p ∈ fs_dirs k) then (Ok tt, ExFs (fs_pins k) ({[p]} ∪ fs_dirs k)) else (Err ENOENT, k);
  sys_rmdir p k :=
    if decide (set_Exists (fun q => dirname q = p) (dom (fs_pins k) ∪ fs_dirs k)) then (Err 39, k)
    else (Ok tt, ExFs (fs_pins k) (fs_dirs k ∖ {[p]})) }.

#[export] Instance ex_fs_laws : FileSystemLaws ex_fs str.
Proof.
  unshelve refine {| file_of := fun p => p; pins := fs_pins |}.
  - intros fd p k. cbn. destruct (fd <? 0); [done|]. destruct (decide _) as [|Hn]; [done|]. destruct (decide _); [|done]. split; [|done].
    apply eq_None_not_Some. tauto.
  - intros p k. cbn. destruct (decide _) as [|Hn]; [done|]. split; [done|]. by apply eq_None_not_Some.
  - intros p k. cbn. destruct (decide _); [done|]. by destruct (decide _).
  - intros p k. cbn. by destruct (decide _).
  - intros fd p k d t. cbn. destruct (fd <? 0); [done|]. destruct (decide (_ \/ _)); [done|]. by destruct (decide (dirname p ∈ _)).
  - intros p k d t. cbn. by destruct (decide (is_Some _)).
  - intros p k d t. cbn. destruct (decide (_ \/ _)); [done|]. destruct (decide (dirname p ∈ _)); [|done]. cbn.
    destruct (decide (d ∈ fs_dirs k)); [|done]. rewrite decide_True by set_solver. done.
  - intros p k q t Hc. cbn. destruct (decide (set_Exists _ _)) as [|Hn]; [done|]. cbn.
    destruct (decide (dirname q ∈ fs_dirs k)) as [Hd|]; [|done]. rewrite decide_True; [done|]. apply elem_of_difference. split; [done|].
    rewrite elem_of_singleton. intros E. apply Hn. destruct Hc as [Hc|Hc].
    + exists q. split; [|done]. apply elem_of_union_l. by apply elem_of_dom.
    + exists (dirname q). split; [by apply elem_of_union_r|]. congruence.
Defined.

Definition ex_root : ex_fs := ExFs ∅ {[lit "/"; lit "/fs"]}.
Definition ex_taken : ex_fs := ExFs {[lit "/fs/o/m1" := 9]} {[lit "/"; lit "/fs"; lit "/fs/o"]}.
Definition ex_pin (k : ex_fs) := bpf_object__pin ElfObject.ex_alloc ex_loaded_object (lit "/fs/o") (0%nat, k).

Example ex_pinned : match ex_pin ex_root with
  | Some (Ok _, (_, k)) => map_to_list (fs_pins k) ≡ₚ [(lit "/fs/o/m0", 3); (lit "/fs/o/m1", 4); (lit "/fs/o/xdp", 5)]
  | _ => False
  end.
Proof. vm_compute. solve_Permutation. Qed.

(** The name of the second map is taken: the first map is unpinned again. *)
Example ex_pin_taken : match ex_pin ex_taken with
  | Some (Err err, (_, k)) => err = - EEXIST /\ map_to_list (fs_pins k) = [(lit "/fs/o/m1", 9)]
  | _ => False
  end.
Proof. vm_compute. by split. Qed.

Lemma ex_loaded_pinnable : loaded ex_loaded_object = true /\ Forall (fun m => is_Some (m_name m)) (maps ex_loaded_object) /\
  Forall (fun p => name_ok (p_pin_name p)) (programs ex_loaded_object) /\
  Forall (fun p => (length (instances p) <= 1)%nat) (programs ex_loaded_object).
Proof.
  assert (List.map m_name (maps ex_loaded_object) = [Some (lit "m0"); Some (lit "m1")]) as Em by (vm_compute; reflexivity).
  assert (List.map p_pin_name (programs ex_loaded_object) = [lit "xdp"; lit ".text"]) as Ep by (vm_compute; reflexivity).
  assert (List.map instances (programs ex_loaded_object) = [[5]; []]) as Ei by (vm_compute; reflexivity).
  split; [vm_compute; reflexivity|]. split; [|split].
  - apply (Forall_map m_name is_Some). rewrite Em. repeat constructor; done.
  - apply (Forall_map p_pin_name name_ok). rewrite Ep. repeat constructor; try done; intros Hin; apply list_elem_of_In in Hin; cbn in Hin; intuition discriminate.
  - apply (Forall_map instances (fun l => (length l <= 1)%nat)). rewrite Ei. repeat constructor.
Qed.


Definition ex_pinned_fs : nat * ex_fs := match ex_pin ex_root with Some (_, s) => s | None => (0%nat, ex_root) end.

Lemma object_unpin_spec_witness :
  exists n'' k'', (let* _ := bpf_object__unpin_programs ElfObject.ex_alloc ex_loaded_object (lit "/fs/o") in
      bpf_object__unpin_maps ElfObject.ex_alloc ex_loaded_object (lit "/fs/o")) (ex_pinned_fs.1, ex_pinned_fs.2) = Some (Ok tt, (n'', k'')) /\
    fs_pins k'' = fs_pins ex_root.
Proof.
  destruct ex_loaded_pinnable as (Hl & Hm & Hp & Hi).
  assert (ex_pin ex_root = Some (Ok tt, (ex_pinned_fs.1, ex_pinned_fs.2))) as E by (vm_compute; reflexivity).
  exact (object_unpin_spec (F := str) ElfObject.ex_alloc ex_loaded_object (lit "/fs/o") 0 ex_root ex_pinned_fs.1 ex_pinned_fs.2
    (fun _ => eq_refl) Hl Hm Hp Hi E).
Defined.
