(* ===== verification/ObjLoader.v ===== *)
(** * The loader on top of libbpf's objects (src/loader/xdp_loader.c, src/libbpf/src/libbpf.c)

    [Loader] is proved against the class [Libbpf] of operations on objects.
    Here these are the functions of libbpf themselves: opening and loading an
    ELF file, finding programs and pinning maps, on a kernel that has file
    descriptors, a file system of pins and devices. *)

From S2P Require Import ProgLoad Pinning.
From S2P Require CmdLine XdpLink Loader LinkNet.
From stdpp Require Import list.
Open Scope Z_scope.

(** ** What loading leaves alone

    [f] is a part of the kernel that no call of the loader of objects touches. *)

Section spares.
Context {X K T : Type} (U : Prop) (f : K -> T).
Definition spares {A} (c : ST (X * K) A) : Prop :=
  forall s, match c s with Some (_, s') => f s'.2 = f s.2 | None => U end.

Lemma spares_ret {A} (a : A) : spares (ret a).
Proof. done. Qed.
Lemma spares_fail {A} err : spares (fail (A := A) err).
Proof. done. Qed.
Lemma spares_get : spares get.
Proof. done. Qed.
Lemma spares_read {A} (o : option A) : (o = None -> U) -> spares (lift o).
Proof. intros HU s. unfold lift. destruct o; [done|]. by apply HU. Qed.
Lemma spares_bind {A B} (c : ST (X * K) A) (k : A -> ST (X * K) B) : spares c -> (forall a, spares (k a)) -> spares (bind c k).
Proof.
  intros Hc Hk s. unfold bind. specialize (Hc s). destruct (c s) as [[[a|e] s']|]; [|done..].
  specialize (Hk a s'). destruct (k a s') as [[r s'']|]; [congruence|done].
Qed.
Lemma spares_try {A} (c : ST (X * K) A) : spares c -> spares (try c).
Proof. intros Hc s. specialize (Hc s). unfold try. by destruct (c s) as [[r s']|]. Qed.
Lemma spares_every {A} (c : A -> ST (X * K) unit) l : (forall a, a ∈ l -> spares (c a)) -> spares (each c l).
Proof.
  induction l as [|a l IH]; intros Hc; cbn [each]; [apply spares_ret|]. apply spares_bind; [apply Hc; by left|].
  intros _. apply IH. intros b Hb. apply Hc. by right.
Qed.
Lemma spares_each {A} (c : A -> ST (X * K) unit) l : (forall a, spares (c a)) -> spares (each c l).
Proof. intros Hc. by apply spares_every. Qed.
End spares.

Lemma spares_lift {X K T A : Type} (f : K -> T) (o : option A) : spares (X := X) True f (lift o).
Proof. by apply spares_read. Qed.

Create HintDb spares.
#[export] Hint Resolve spares_ret spares_fail spares_get spares_lift spares_try spares_each : spares.

(** A computation built from parts that spare [f]. *)
Ltac spare := repeat first
  [ progress intros
  | solve [auto with spares]
  | simple apply spares_bind
  | simple apply spares_try
  | simple apply spares_each
  | match goal with |- spares _ _ (match ?x with _ => _ end) => destruct x end ].

Class BpfFrame {K T : Type} `{Kernel bpf_insn K} (f : K -> T) : Prop := {
  spare_map_create a k : f (sys_map_create a k).2 = f k;
  spare_prog_load a k : f (sys_prog_load a k).2 = f k;
  spare_close fd k : f (sys_close (I := bpf_insn) fd k) = f k }.
Class PinFrame {K T : Type} `{FileSystem K} (f : K -> T) : Prop := {
  spare_pin fd path k : f (sys_obj_pin fd path k).2 = f k;
  spare_unlink path k : f (sys_unlink path k).2 = f k;
  spare_mkdir path k : f (sys_mkdir path k).2 = f k }.

Section loading.
Context {K T : Type} (f : K -> T) `{BpfFrame K T f}.
Context (e : endian) (alloc : nat -> bool) (btf_alloc : Z -> bool) (sys_alloc : nat -> nat -> Z -> bool)
  (junk : Z) (junk_log : nat -> bool) (fuel : nat) (prep : Z -> option preprocessor).
Local Abbreviation spared := (spares (X := bpf_object * nat) True f).

Lemma spares_in_obj {A} (c : OM A) : spared (in_obj c).
Proof using. intros [s k]. unfold in_obj. destruct (c s) as [[r s']|]; done. Qed.
Lemma spares_sys {A} (g : K -> A * K) : (forall k, f (g k).2 = f k) -> spared (sys g).
Proof using. intros Hg [s k]. unfold sys. specialize (Hg k). by destruct (g k). Qed.
Hint Resolve spares_in_obj : spares.

Lemma spares_close fd : spared (close fd).
Proof using H0. apply spares_sys. intros k. apply spare_close. Qed.
Hint Resolve spares_close : spares.
Lemma spares_zclose fd : spared (zclose fd).
Proof using H0. unfold zclose. spare. Qed.
Hint Resolve spares_zclose : spares.

Lemma sys_bpf_prog_load_spares n : forall (a : prog_load_attr bpf_insn) (k : K),
  match sys_bpf_prog_load n a k with Some (_, k') => f k' = f k | None => True end.
Proof using H0.
  induction n as [|n IH]; intros a k; cbn [sys_bpf_prog_load]; [done|]. pose proof (spare_prog_load (f := f) a k) as Hl.
  destruct (sys_prog_load a k) as [r k1]. cbn [snd] in Hl. destruct (an_ret r) as [|errno]; [done|]. destruct (errno =? EAGAIN); [|done].
  specialize (IH a k1). destruct (sys_bpf_prog_load n a k1) as [[r2 k2]|]; [congruence|done].
Qed.

Lemma correct_loop_spares falloc rounds : forall n (la : bpf_load_program_attr bpf_insn) a errno fi li (k : K),
  match correct_loop falloc rounds fuel n la a errno fi li k with
  | Some (Corrected _ _ k') | Some (Done _ k') => f k' = f k
  | None => True
  end.
Proof using H0.
  induction rounds as [|rounds IH]; intros n la a errno fi li k; cbn [correct_loop]; [done|].
  destruct (negb _); [done|].
  assert (forall a fi li, match
    ('(r, k) ← sys_bpf_prog_load fuel a k;
     match an_ret r with
     | Ok fd => Some (Done (Ok fd) k)
     | Err errno => correct_loop falloc rounds fuel (S n) la (answered a r) errno fi li k
     end) with Some (Corrected _ _ k') | Some (Done _ k') => f k' = f k | None => True end) as Hr.
  { intros a' fi' li'. pose proof (sys_bpf_prog_load_spares fuel a' k) as Hk. destruct (sys_bpf_prog_load fuel a' k) as [[r k1]|]; [|done].
    cbn [mbind option_bind]. destruct (an_ret r); [done|]. rewrite <- Hk. apply IH. }
  destruct (_ && _).
  - destruct (alloc_zero_tailing_info _ _ _ _ _ _) as [[info|]|]; cbn [mbind option_bind]; [apply Hr|done..].
  - destruct (_ && _); [|done]. destruct (alloc_zero_tailing_info _ _ _ _ _ _) as [[info|]|]; cbn [mbind option_bind]; [apply Hr|done..].
Qed.

Lemma load_program_xattr_spares falloc (la : bpf_load_program_attr bpf_insn) log_buf sz (k : K) :
  match bpf_load_program_xattr falloc fuel la log_buf sz k with Some (_, k') => f k' = f k | None => True end.
Proof using H0.
  unfold bpf_load_program_xattr. destruct (negb _); [done|]. destruct (_ || _); [done|].
  set (attr := ProgLoad _ _ _ _ _ _ _ _ _ _ _). pose proof (sys_bpf_prog_load_spares fuel attr k) as Hk.
  destruct (sys_bpf_prog_load fuel attr k) as [[r k1]|]; [|done]. cbn [mbind option_bind]. destruct (an_ret r) as [|errno]; [done|].
  pose proof (correct_loop_spares falloc 2 0 la (answered attr r) errno false false k1) as Hc.
  destruct (correct_loop falloc 2 fuel 0 la (answered attr r) errno false false k1) as [[a2 errno2 k2|r2 k2]|]; cbn [mbind option_bind]; [|congruence|done].
  destruct (_ || _); [congruence|]. pose proof (sys_bpf_prog_load_spares fuel (set_log_level a2 1) k2) as Hk2.
  destruct (sys_bpf_prog_load fuel (set_log_level a2 1) k2) as [[r3 k3]|]; cbn; [congruence|done].
Qed.

Lemma spares_load_xattr la log_buf sz : spared (load_xattr sys_alloc junk_log fuel la log_buf sz).
Proof using H0.
  intros [[o n] k]. unfold load_xattr. pose proof (load_program_xattr_spares (sys_alloc n) la log_buf sz k) as Hk.
  by destruct (bpf_load_program_xattr _ _ _ _ _ _) as [[[r log] k']|].
Qed.
Hint Resolve spares_load_xattr : spares.

(** *** Loading, function by function *)

Lemma spares_probe_caps : spared (bpf_object__probe_caps sys_alloc junk_log fuel).
Proof using H0. unfold bpf_object__probe_caps, bpf_object__probe_name. spare. Qed.
Lemma spares_close_map i : spared (close_map i).
Proof using H0. unfold close_map. spare. Qed.
Hint Resolve spares_close_map : spares.
Lemma spares_create_map_xattr a : spared (sys (bpf_create_map_xattr a)).
Proof using H0. apply spares_sys. intros k. apply spare_map_create. Qed.
Hint Resolve spares_create_map_xattr : spares.
Lemma spares_create_map i a : spared (create_map i a).
Proof using H0. unfold create_map. spare. Qed.
Hint Resolve spares_create_map : spares.
Lemma spares_create_maps todo : forall a i, spared (create_maps e a i todo).
Proof using H0. induction todo as [|todo IH]; intros a i; cbn [create_maps]; spare. Qed.
Hint Resolve spares_create_maps : spares.
Lemma spares_load_failed la log_buf text : spared (load_failed sys_alloc junk_log fuel la log_buf text).
Proof using H0. unfold load_failed. spare. Qed.
Hint Resolve spares_load_failed : spares.
Lemma spares_load_program p insns lic kv : spared (load_program alloc sys_alloc junk_log fuel p insns lic kv).
Proof using H0. unfold load_program. spare. Qed.
Hint Resolve spares_load_program : spares.
Lemma spares_load_instance pi g lic kv i : spared (load_instance alloc sys_alloc junk_log fuel pi g lic kv i).
Proof using H0. unfold load_instance. spare. Qed.
Hint Resolve spares_load_instance : spares.
Lemma spares_bpf_program__load pi lic kv : spared (bpf_program__load alloc sys_alloc junk_log fuel prep pi lic kv).
Proof using H0. unfold bpf_program__load, load_instances. spare. Qed.
Hint Resolve spares_bpf_program__load : spares.
Lemma spares_load_prog pi : spared (load_prog alloc sys_alloc junk_log fuel prep pi).
Proof using H0. unfold load_prog. spare. Qed.
Hint Resolve spares_load_prog spares_probe_caps : spares.
Lemma spares_load_passes : spared (load_passes e alloc btf_alloc sys_alloc junk junk_log fuel prep).
Proof using H0. unfold load_passes, bpf_object__create_maps, bpf_object__load_progs. spare. Qed.
Hint Resolve spares_load_passes : spares.
Lemma spares_program_unload pi : spared (bpf_program__unload pi).
Proof using H0. unfold bpf_program__unload. spare. Qed.
Hint Resolve spares_program_unload : spares.
Lemma spares_object_unload : spared bpf_object__unload.
Proof using H0. unfold bpf_object__unload. spare. Qed.
Hint Resolve spares_object_unload : spares.
Lemma spares_object_load : spared (bpf_object__load e alloc btf_alloc sys_alloc junk junk_log fuel prep).
Proof using H0. unfold bpf_object__load. spare. Qed.
Lemma spares_object_close : spared bpf_object__close.
Proof using H0. unfold bpf_object__close, btf__free. spare. Qed.
End loading.
#[export] Hint Extern 1 (spares _ _ (bpf_object__load _ _ _ _ _ _ _ _)) => apply spares_object_load : spares.
#[export] Hint Extern 1 (spares _ _ bpf_object__close) => apply spares_object_close : spares.

Section prog_load.
Context {K T : Type} (f : K -> T) `{BpfFrame K T f}.
Context (e : endian) (alloc : nat -> bool) (btf_alloc : Z -> bool) `{Qsort} `{ElfFiles}
  (bpf_load_btf : list Z -> result Z) (load_alloc : nat -> bool) (sys_alloc : nat -> nat -> Z -> bool)
  (junk : Z) (junk_log : nat -> bool) (fuel : nat).
Hint Resolve spares_in_obj : spares.

Lemma prog_load_spares attr (k : K) :
  match bpf_prog_load_xattr e alloc btf_alloc bpf_load_btf load_alloc sys_alloc junk junk_log fuel attr k with
  | Some (_, k') => f k' = f k
  | None => True
  end.
Proof using H0.
  unfold bpf_prog_load_xattr. destruct (xa_file attr) as [file|]; [|done].
  destruct (open_object _ _ _ _ _ _ _ _) as [[o|err]|]; cbn [mbind option_bind]; [|by destruct (IS_ERR _)|done].
  assert (spares (X := bpf_object * nat) True f (prepare_and_load e btf_alloc load_alloc sys_alloc junk junk_log fuel attr)) as Hk by (unfold prepare_and_load; spare).
  specialize (Hk (o, 0%nat, k)). by destruct (prepare_and_load _ _ _ _ _ _ _ _ _) as [[r [[o' n'] k']]|].
Qed.
End prog_load.

Section pinning.
Context {K T : Type} (U : Prop) (f : K -> T) `{PinFrame K T f} (alloc : nat -> bool).
Local Abbreviation spared := (spares (X := nat) U f).

Lemma spares_of_result {A} (r : result A) : spared (of_result r).
Proof using. by destruct r. Qed.
Lemma spares_pin_malloc : spared (pin_malloc alloc).
Proof using. intros [n k]. unfold pin_malloc. by destruct (alloc n). Qed.
Lemma spares_pin_sys g : (forall k, f (g k).2 = f k) -> spared (pin_sys g).
Proof using. intros Hg [n k]. unfold pin_sys. specialize (Hg k). by destruct (g k) as [[]]. Qed.
Lemma spares_make_dir path : spared (make_dir path).
Proof using H0. intros [n k]. unfold make_dir. pose proof (spare_mkdir (f := f) path k) as Hk. by destruct (sys_mkdir path k). Qed.
Lemma spares_pin_one fd path : spared (pin_sys (sys_obj_pin fd path)).
Proof using H0. apply spares_pin_sys. intros k. apply spare_pin. Qed.
Lemma spares_unlink_one path : spared (pin_sys (sys_unlink path)).
Proof using H0. apply spares_pin_sys. intros k. apply spare_unlink. Qed.
Hint Resolve spares_of_result spares_pin_malloc spares_make_dir spares_pin_one spares_unlink_one : spares.
Lemma spares_there {A} (a : A) : spared (lift (Some a)).
Proof using. by apply spares_read. Qed.
Hint Resolve spares_there : spares.
Lemma spares_check_path path : spared (check_path alloc path).
Proof using. unfold check_path. spare. Qed.
Hint Resolve spares_check_path : spares.
Lemma spares_map_pin m path : spared (bpf_map__pin alloc (Some m) (Some path)).
Proof using H0. unfold bpf_map__pin. spare. Qed.
Lemma spares_map_unpin m path : spared (bpf_map__unpin alloc (Some m) (Some path)).
Proof using H0. unfold bpf_map__unpin. spare. Qed.
Hint Resolve spares_map_pin spares_map_unpin : spares.
Lemma spares_quietly c : spared c -> spared (quietly c).
Proof using. intros Hc. unfold quietly. spare. Qed.
Lemma spares_pin_each {I} (pin unwind : I -> ST (nat * K) unit) l :
  (forall i, i ∈ l -> spared (pin i)) -> (forall i, i ∈ l -> spared (unwind i)) -> spared (pin_each pin unwind l).
Proof using.
  induction l as [|i l IH]; intros Hp Hu; cbn [pin_each]; [auto with spares|].
  apply spares_bind; [apply spares_try, Hp; by left|]. intros [[]|err].
  - apply IH; intros j Hj; [apply Hp|apply Hu]; by right.
  - apply spares_bind; [apply Hu; by left|]. auto with spares.
Qed.

Lemma spares_bind_there {A B} (a : A) (k : A -> ST (nat * K) B) : spared (k a) -> spared (bind (lift (Some a)) k).
Proof using. intros Hk s. exact (Hk s). Qed.

(** Only a map without a name makes pinning leave its objects. *)
Context (o : bpf_object) (Hnames : Forall (fun m => m_name m = None -> U) (maps o)).

Lemma spares_at_map path g i : (forall m p, spared (g (Some m) (Some p))) -> (i < length (maps o))%nat -> spared (at_map o path g i).
Proof using Hnames.
  intros Hg Hi. destruct (lookup_lt_is_Some_2 _ _ Hi) as [m Hm]. pose proof (proj1 (Forall_lookup _ _) Hnames i m Hm) as Hn.
  unfold at_map. rewrite Hm. apply spares_bind_there, spares_bind; [by apply spares_read|]. spare.
Qed.

Lemma elem_of_for_each_map i : i ∈ for_each_map o -> (i < length (maps o))%nat.
Proof using. rewrite for_each_map_spec, elem_of_seq. lia. Qed.
Lemma elem_of_maps_before i j : (i < length (maps o))%nat -> j ∈ maps_before o i -> (j < length (maps o))%nat.
Proof using. intros Hi. rewrite maps_before_spec, elem_of_reverse, elem_of_seq by done. lia. Qed.

Lemma spares_pin_maps path : spared (bpf_object__pin_maps alloc o path).
Proof using H0 Hnames.
  unfold bpf_object__pin_maps. destruct (negb _); [apply spares_fail|]. apply spares_bind; [auto with spares|]. intros _.
  apply spares_pin_each; intros i Hi%elem_of_for_each_map; [apply spares_at_map; auto with spares|].
  apply spares_every. intros j Hj%elem_of_maps_before; [|done]. apply spares_quietly, spares_at_map; auto with spares.
Qed.
Lemma spares_unpin_maps path : spared (bpf_object__unpin_maps alloc o path).
Proof using H0 Hnames. unfold bpf_object__unpin_maps. apply spares_every. intros i Hi%elem_of_for_each_map. apply spares_at_map; auto with spares. Qed.
End pinning.

(** ** The programs of an object that was loaded *)

Lemma titles_ext (o1 o2 : bpf_object) title : programs_of o1 = programs_of o2 ->
  (forall i, p_section_name <$> programs o1 !! i = p_section_name <$> programs o2 !! i) ->
  bpf_object__find_program_by_title o1 title = bpf_object__find_program_by_title o2 title.
Proof.
  intros Ep Hs. unfold bpf_object__find_program_by_title. rewrite !for_each_program_spec, Ep.
  assert (forall l, list_find (fun i => p_section_name <$> programs o1 !! i = Some title) l = list_find (fun i => p_section_name <$> programs o2 !! i = Some title) l) as ->; [|done].
  induction l as [|i l IH]; [done|]. cbn. rewrite Hs, IH. done.
Qed.

Section found.
Context {K : Type} `{KernelLaws bpf_insn K} (attr : bpf_prog_load_attr) (o o' : bpf_object).

Lemma same_storage prep i : object_loaded (K := K) prep o o' -> is_storage o' i = is_storage o i.
Proof using.
  intros [(Ef & Eh & El & _) Hn _ _]. unfold is_storage. destruct (programs o !! i) as [p|] eqn:Ep.
  - destruct (Hn i p Ep) as (p' & -> & Ei & _). unfold bpf_program__is_function_storage. by rewrite Ei, Ef, Eh.
  - apply lookup_ge_None in Ep. rewrite <- El in Ep. apply lookup_ge_None in Ep. by rewrite Ep.
Qed.

Lemma same_programs prep : object_loaded (K := K) prep o o' -> programs_of o' = programs_of o.
Proof using.
  intros Hl. unfold programs_of. destruct (ol_same _ _ _ Hl) as (_ & _ & -> & _). apply list_filter_iff. intros i. by rewrite (same_storage prep i Hl).
Qed.

Lemma same_titles prep title : object_loaded (K := K) prep o o' ->
  bpf_object__find_program_by_title o' title = bpf_object__find_program_by_title o title.
Proof using.
  intros Hl. apply titles_ext; [by apply (same_programs prep)|]. intros i. destruct (programs o !! i) as [p|] eqn:Ep.
  - destruct (ol_named _ _ _ Hl i p Ep) as (p' & -> & _ & E). cbn. by rewrite E.
  - apply lookup_ge_None in Ep. destruct (ol_same _ _ _ Hl) as (_ & _ & El & _). rewrite <- El in Ep. apply lookup_ge_None in Ep. by rewrite Ep.
Qed.

Lemma typed_storage i : is_storage (typed_object attr o) i = is_storage o i.
Proof using.
  unfold is_storage. cbn. rewrite list_lookup_imap. destruct (programs o !! i) as [p|]; [|done]. cbn. unfold bpf_program__is_function_storage. cbn.
  assert (p_idx (typed_program attr o i p) = p_idx p) as ->; [|done]. unfold typed_program. destruct (is_storage o i); [done|]. by destruct (program_type attr p).
Qed.

Lemma typed_programs : programs_of (typed_object attr o) = programs_of o.
Proof using. unfold programs_of. cbn. rewrite length_imap. apply list_filter_iff. intros i. by rewrite typed_storage. Qed.

Lemma typed_section i p : p_section_name (typed_program attr o i p) = p_section_name p.
Proof using. unfold typed_program. destruct (is_storage o i); [done|]. by destruct (program_type attr p). Qed.

Lemma typed_titles title : bpf_object__find_program_by_title (typed_object attr o) title = bpf_object__find_program_by_title o title.
Proof using.
  apply titles_ext; [apply typed_programs|]. intros i. cbn. rewrite list_lookup_imap. destruct (programs o !! i) as [p|]; [|done]. cbn. by rewrite typed_section.
Qed.

(** Descriptor [fd] is what the kernel gave for program [i] of the file, with the
    code that relocation makes of it. *)
Definition program_of_file (i : nat) (fd : Z) : Prop :=
  exists p p', programs o !! i = Some p /\ programs o' !! i = Some p' /\ bpf_program__fd p' = fd /\
    let q := typed_program attr o i p in
    loaded_as (K := K) (typed_object attr o) q
      (linked (List.map m_fd (maps o')) (text_at (set_maps (typed_object attr o) (maps o')) i) q) fd.

Lemma loaded_program e elf flags k first k' i : object_opened e elf flags o -> load_done attr o k o' first k' -> i ∈ programs_of o ->
  exists fd, 0 <= fd /\ program_of_file i fd.
Proof using.
  intros Hopen [_ Hl _ _ _] Hi. apply elem_of_programs_of in Hi as [Hst Hlt]. destruct (lookup_lt_is_Some_2 _ _ Hlt) as [p Hp].
  assert (programs (typed_object attr o) !! i = Some (typed_program attr o i p)) as Htyped by (cbn; by rewrite list_lookup_imap, Hp).
  destruct (ol_programs _ _ _ Hl i _ Htyped) as (p' & fds & Hp' & Hfds & Hne & Hone & Hall).
  { pose proof (typed_storage i) as E. unfold is_storage at 1 in E. rewrite Htyped in E. congruence. }
  destruct fds as [|fd [|]]; [done| |by specialize (Hone eq_refl)]. specialize (Hall 0%nat fd eq_refl). cbn in Hall. unfold instance_loaded in Hall.
  destruct (linked _ _ _) as [|ins code] eqn:El.
  { exfalso. revert El. assert (program_ok o p) as [[(insns & E & Hcode & _) _ _] _ _ _] by exact (proj1 (Forall_lookup _ _) (oo_ok _ _ _ _ Hopen) _ _ Hp).
    destruct (typed_code attr o i p) as (Ec & _). apply linked_not_nil. rewrite Ec, E. done. }
  destruct Hall as [Hfd Has]. exists fd. split; [done|]. exists p, p'. split; [done|]. split; [done|].
  split; [unfold bpf_program__fd, bpf_program__nth_fd; rewrite Hfds; cbn; change (znth [fd] 0) with (Some fd); cbn; destruct (Z.ltb_spec fd 0); [lia|done]|].
  cbv zeta. by rewrite El.
Qed.
End found.

(** A descriptor is an [int]. *)
Lemma granted_int {K} `{Kernel bpf_insn K} o p code fd :
  (forall (a : prog_load_attr bpf_insn) (k : K) fd, an_ret (sys_prog_load a k).1 = Ok fd -> fd < 2 ^ 31) ->
  loaded_as (K := K) o p code fd -> fd < 2 ^ 31.
Proof. intros Hint (la & (a & k & k' & r & _ & E & Er) & _). apply (Hint a k). by rewrite E. Qed.

(** Every map of a loaded object has a name, so pinning it returns. *)
Section named.
Context {K : Type} `{KernelLaws bpf_insn K} `{!FileSystem K} (attr : bpf_prog_load_attr) (o o' : bpf_object) (e : endian) (elf : elf_file) (flags : Z).
Context (prep : Z -> option preprocessor) (pin_alloc : nat -> bool).
Hypothesis Hopen : object_opened e elf flags o.
Hypothesis Hl : object_loaded (K := K) prep (typed_object attr o) o'.

Lemma loaded_names : Forall (fun m => m_name m = None -> False) (maps o').
Proof using Hopen Hl.
  apply Forall_lookup. intros i m' Hm'. destruct (ol_same _ _ _ Hl) as (_ & _ & _ & El).
  assert (is_Some (maps (typed_object attr o) !! i)) as [m Hm] by (apply lookup_lt_is_Some; rewrite <- El; by eapply lookup_lt_Some).
  destruct (ol_maps _ _ _ Hl i m Hm) as (m2 & Hm2 & Hc). assert (m2 = m') as -> by congruence. rewrite (mc_name _ _ Hc).
  cbn in Hm. rewrite list_lookup_fmap in Hm. apply fmap_Some in Hm as (m0 & Hm0 & ->).
  pose proof (proj1 (Forall_lookup _ _) (opened_names _ _ _ _ Hopen) i m0 Hm0) as [name Hn].
  unfold typed_map. destruct (bpf_map__is_offload_neutral m0); cbn; by rewrite Hn.
Qed.

Lemma defined_of_spares {X T A} (f : K -> T) (c : ST (X * K) A) s : spares False f c -> is_Some (c s).
Proof using. intros Hc. specialize (Hc s). by destruct (c s). Qed.

Lemma trivial_frame : PinFrame (fun _ : K => tt).
Proof using. done. Qed.

Lemma pins_defined dir s : is_Some (bpf_object__unpin_maps pin_alloc o' dir s) /\ is_Some (bpf_object__pin_maps pin_alloc o' dir s).
Proof using Hopen Hl.
  pose proof trivial_frame as HF. split; eapply (defined_of_spares (fun _ => tt)); [apply spares_unpin_maps|apply spares_pin_maps]; done || apply loaded_names.
Qed.
End named.

(** ** The loader's operations on objects *)

Section over_objects.
Context {W : Type} `{KernelLaws bpf_insn W} `{FileSystem W}.
(** As for opening, loading and pinning; and what [access], [bpf_obj_get] and
    [bpf_obj_get_info_by_fd] answer. *)
Context (e : endian) (alloc : nat -> bool) (btf_alloc : Z -> bool) `{QsortLaws} `{ElfFiles}
  (bpf_load_btf : list Z -> result Z) (load_alloc : nat -> bool) (sys_alloc : nat -> nat -> Z -> bool)
  (junk : Z) (junk_log : nat -> bool) (fuel : nat) (pin_alloc : nat -> bool)
  (sys_access : str -> W -> Z) (obj_get : str -> W -> Z) (get_info : W -> Z -> result XdpLink.bpf_map_info).

Definition load_file (file : str) (type ifindex : Z) : W -> option (result (bpf_object * Z) * W) :=
  bpf_prog_load_xattr e alloc btf_alloc bpf_load_btf load_alloc sys_alloc junk junk_log fuel (ProgLoadAttr (Some file) type 0 ifindex).

(** The error, 0 for none, of a call on the file system. *)
Definition pin_error (c : ST (nat * W) unit) (w : W) : Z * W :=
  match c (0%nat, w) with
  | Some (Ok _, (_, w)) => (0, w)
  | Some (Err err, (_, w)) => (err, w)
  | None => (- EINVAL, w)
  end.

(** A call that leaves its objects counts as failed; the theorem says that none
    does.  Without an object [bpf_object__new] stands for the pointer that is
    not written. *)
#[local] Instance object_libbpf : Loader.Libbpf W bpf_object bpf_program := {
  Loader.bpf_prog_load_xattr file type ifindex w :=
    match load_file file type ifindex w with
    | Some (Ok (o, _), w) => ((0, o), w)
    | Some (Err err, w) => ((err, bpf_object__new), w)
    | None => ((- EINVAL, bpf_object__new), w)
    end;
  Loader.bpf_object__find_program_by_title o title := i ← bpf_object__find_program_by_title o title; programs o !! i;
  Loader.bpf_program__next o := i ← bpf_program__next None o; programs o !! i;
  Loader.bpf_program__title := p_section_name;
  Loader.bpf_program__fd p := s32 (bpf_program__fd p);
  Loader.access := sys_access;
  Loader.bpf_object__unpin_maps o dir := pin_error (bpf_object__unpin_maps pin_alloc o dir);
  Loader.bpf_object__pin_maps o dir := pin_error (bpf_object__pin_maps pin_alloc o dir);
  Loader.bpf_obj_get := obj_get;
  Loader.bpf_obj_get_info_by_fd := get_info }.

(** *** The laws the loader relies on *)

Context `{LinkNet.LinkKernel e W} (buf : list Z) (time : Z).
(** The calls on programs, maps and pins do not touch the devices. *)
Context `{!forall i, BpfFrame (fun w => LinkNet.k_attached w i)} `{!forall i, PinFrame (fun w => LinkNet.k_attached w i)}.

Lemma pin_error_link c i (w : W) : spares (X := nat) True (fun w => LinkNet.k_attached w i) c ->
  LinkNet.k_attached (pin_error c w).2 i = LinkNet.k_attached w i.
Proof using. intros Hc. specialize (Hc (0%nat, w)). unfold pin_error. by destruct (c (0%nat, w)) as [[[r|err] [n w']]|]. Qed.

Lemma any_names (o : bpf_object) : Forall (fun m => m_name m = None -> True) (maps o).
Proof using. by apply Forall_true. Qed.

Lemma object_libbpf_laws :
  @Loader.LibbpfLaws W bpf_object bpf_program object_libbpf (LinkNet.netlink_net e buf time) (LinkNet.netlink_net_laws e buf time).
Proof using H7 H8.
  split.
  - intros p. change (- 2 ^ 31 <= s32 (bpf_program__fd p) < 2 ^ 31). unfold s32. pose proof (wrap_range 32 (bpf_program__fd p + 2 ^ 31) ltac:(lia)). unfold in_range in *. lia.
  - intros file type ifindex w i. cbn -[load_file]. pose proof (prog_load_spares (fun w => LinkNet.k_attached w i) e alloc btf_alloc bpf_load_btf load_alloc sys_alloc junk junk_log fuel
      (ProgLoadAttr (Some file) type 0 ifindex) w) as Hk. change (bpf_prog_load_xattr _ _ _ _ _ _ _ _ _ _ w) with (load_file file type ifindex w) in Hk.
    by destruct (load_file file type ifindex w) as [[[[o fd]|err] w']|].
  - intros o dir w i. apply pin_error_link. exact (spares_unpin_maps True (fun w => LinkNet.k_attached w i) pin_alloc o (any_names o) dir).
  - intros o dir w i. apply pin_error_link. exact (spares_pin_maps True (fun w => LinkNet.k_attached w i) pin_alloc o (any_names o) dir).
Qed.

(** The program asked for, in the file. *)
Definition chosen (evs : list CmdLine.getopt_event) (o : bpf_object) : option nat :=
  match CmdLine.last_arg 2 evs with
  | Some (c :: sec) => bpf_object__find_program_by_title o (c :: sec)
  | _ => bpf_program__next None o
  end.

Lemma next_first (o : bpf_object) : bpf_program__next None o = head (programs_of o).
Proof using. unfold bpf_program__next. rewrite (iter_forward o (S (length (programs o))) 0) by lia. by rewrite Nat.sub_0_r. Qed.

Lemma chosen_in evs o i : chosen evs o = Some i -> i ∈ programs_of o.
Proof using.
  assert (bpf_program__next None o = Some i -> i ∈ programs_of o) as Hnext by (rewrite next_first; apply head_Some_elem_of).
  unfold chosen. destruct (CmdLine.last_arg 2 evs) as [[|c sec]|]; [exact Hnext| |exact Hnext].
  unfold bpf_object__find_program_by_title. rewrite for_each_program_spec. intros ([j k] & Hf & ->)%fmap_Some.
  apply list_find_Some in Hf as (Hj & _). by eapply list_elem_of_lookup_2.
Qed.

Lemma chosen_loaded evs attr o o' prep : object_loaded (K := W) prep (typed_object attr o) o' -> chosen evs o' = chosen evs o.
Proof using.
  intros Hl. unfold chosen. rewrite !next_first, (same_programs _ _ prep Hl), typed_programs.
  destruct (CmdLine.last_arg 2 evs) as [[|c sec]|]; [done| |done]. by rewrite (same_titles _ _ prep _ Hl), typed_titles.
Qed.

End over_objects.

(** ** A machine: two devices, descriptors and a file system *)

Record machine := Machine { devs : LinkNet.devices; fds : ex_kernel; files : ex_fs }.
Definition on_devs {A} (f : LinkNet.devices -> A * LinkNet.devices) (w : machine) : A * machine :=
  let '(a, d) := f (devs w) in (a, Machine d (fds w) (files w)).
Definition on_fds {A} (f : ex_kernel -> A * ex_kernel) (w : machine) : A * machine :=
  let '(a, k) := f (fds w) in (a, Machine (devs w) k (files w)).
Definition on_files {A} (f : ex_fs -> A * ex_fs) (w : machine) : A * machine :=
  let '(a, k) := f (files w) in (a, Machine (devs w) (fds w) k).

(** Descriptors run out before they are no [int]. *)
#[export] Instance machine_kernel : Kernel bpf_insn machine := {
  sys_map_create a := on_fds (@sys_map_create bpf_insn _ _ a);
  sys_prog_load a w := if ex_new_fd (fds w) <? 2 ^ 31 then on_fds (sys_prog_load a) w else (Answer (Err 24) 0 0 false, w);
  sys_close fd w := Machine (devs w) (@sys_close bpf_insn _ _ fd (fds w)) (files w) }.
#[export] Instance machine_files : FileSystem machine := {
  sys_statfs d w := sys_statfs d (files w);
  sys_obj_pin fd p := on_files (sys_obj_pin fd p);
  sys_unlink p := on_files (sys_unlink p);
  sys_mkdir p := on_files (sys_mkdir p);
  sys_rmdir p := on_files (sys_rmdir p) }.
#[export] Instance machine_netlink : Netlink.Rtnetlink machine := {
  libbpf_netlink_open w := Netlink.libbpf_netlink_open (Rtnetlink := LinkNet.dev_netlink LE) (devs w);
  nl_send b := on_devs (Netlink.nl_send (Rtnetlink := LinkNet.dev_netlink LE) b) }.

#[export] Instance machine_kernel_laws : KernelLaws bpf_insn machine.
Proof.
  refine (Build_KernelLaws bpf_insn machine _ (fun w => ek_open (fds w)) _ _ _); [| |done]; intros a w.
  - pose proof (map_create_open (I := bpf_insn) a (fds w)) as Hl. cbn in *. unfold on_fds. destruct (ex_ask (fds w)) as [[[fd|errno] rec] k']; exact Hl.
  - pose proof (prog_load_open (I := bpf_insn) a (fds w)) as Hl. cbn -[ex_new_fd] in *. unfold on_fds. destruct (_ <? _); [|done].
    cbn. destruct (ex_ask (fds w)) as [[[fd|errno] rec] k']; exact Hl.
Defined.

Lemma machine_answers n (a : prog_load_attr bpf_insn) (w : machine) : exists r w',
  sys_bpf_prog_load (S n) a w = Some (r, w') /\ 0 <= an_func_rec r /\ 0 <= an_line_rec r.
Proof.
  cbn -[ex_new_fd]. destruct (_ <? _); [|by eexists _, _].
  pose proof (ex_ask_open (fds w)) as Hk. unfold on_fds. cbn -[ex_new_fd]. destruct (ex_ask (fds w)) as [[[fd|errno] rec] k']; cbn -[ex_new_fd].
  - eexists _, _. split; [done|]. by destruct Hk as (_ & _ & _ & ?).
  - destruct Hk as (_ & Hne & Hrec). apply Z.eqb_neq in Hne. rewrite Hne. eexists _, _. by split.
Qed.

Lemma machine_int (a : prog_load_attr bpf_insn) (w : machine) fd : an_ret (sys_prog_load a w).1 = Ok fd -> fd < 2 ^ 31.
Proof.
  cbn -[ex_new_fd]. destruct (Z.ltb_spec (ex_new_fd (fds w)) (2 ^ 31)) as [Hlt|]; [|done]. unfold on_fds. cbn -[ex_new_fd].
  unfold ex_ask, ex_grant. destruct (ek_script (fds w)) as [|[errno rec] script]; [cbn -[ex_new_fd]; congruence|].
  destruct (_ || _); cbn -[ex_new_fd]; congruence.
Qed.

#[export] Instance machine_netlink_laws : Netlink.RtnetlinkLaws LE machine.
Proof.
  unshelve econstructor; [exact (fun i fd flags => on_devs (LinkNet.dev_set i fd flags))|..].
  - intros i fd flags w. exact (LinkNet.dev_error i fd flags (devs w)).
  - by intros w port [= <-].
  - intros b w port i fd flags seq [= <-] Hd. cbn. unfold on_devs. cbn. by rewrite Hd.
Defined.

#[export] Instance machine_link : LinkNet.LinkKernel LE machine.
Proof.
  unshelve refine {| LinkNet.k_attached w := LinkNet.dev_get (devs w); LinkNet.k_mode := fun _ flags => XdpLink.net_mode flags;
    LinkNet.k_supports := fun i _ => LinkNet.dev_known i; LinkNet.k_refuses := fun _ _ fd => XdpLink.net_refuses fd; LinkNet.k_prog_id := LinkNet.dev_id |}.
  - exact (@LinkNet.k_mode_requested LE LinkNet.devices _ _ (LinkNet.dev_kernel LE)).
  - exact (@LinkNet.k_refuses_nonneg LE LinkNet.devices _ _ (LinkNet.dev_kernel LE)).
  - exact (@LinkNet.k_refuses_not_exist LE LinkNet.devices _ _ (LinkNet.dev_kernel LE)).
  - intros w. exact (@LinkNet.k_attached_supported LE LinkNet.devices _ _ (LinkNet.dev_kernel LE) (devs w)).
  - exact (@LinkNet.k_prog_id_pos LE LinkNet.devices _ _ (LinkNet.dev_kernel LE)).
  - intros w. by exists 77.
  - intros i fd flags w Ha Hfd. exact (@LinkNet.k_set_link LE LinkNet.devices _ _ (LinkNet.dev_kernel LE) i fd flags (devs w) Ha Hfd).
  - intros w port seq Ho. destruct (@LinkNet.k_dump LE LinkNet.devices _ _ (LinkNet.dev_kernel LE) (devs w) port seq Ho) as (lss & Es & Hrest).
    exists lss. split; [|exact Hrest]. cbn -[Netlink.nl_send]. unfold machine_netlink, Netlink.nl_send, on_devs.
    change (let '(a, d) := Netlink.nl_send (Rtnetlink := LinkNet.dev_netlink LE) (Netlink.get_link_request LE seq) (devs w) in (a, Machine d (fds w) (files w))
      = (Ok (List.map (fun ls => Netlink.RecvOk (Netlink.links_bytes LE seq port ls)) lss ++ [Netlink.RecvOk (Netlink.done_msg LE seq port)]), w)).
    rewrite Es. by destruct w.
Defined.

(** The calls of one part do not touch the others. *)
#[export] Instance machine_bpf_frame i : BpfFrame (fun w : machine => LinkNet.k_attached w i).
Proof.
  split; [intros a w|intros a w|done]; cbn -[ex_new_fd]; unfold on_fds.
  - by destruct (let '(r, _, k) := ex_ask (fds w) in (r, k)).
  - destruct (_ <? _); [|done]. cbn. by destruct (let '(r, rec, k) := ex_ask (fds w) in (Answer r rec rec false, k)).
Defined.
#[export] Instance machine_pin_frame i : PinFrame (fun w : machine => LinkNet.k_attached w i).
Proof. split; [intros fd p w|intros p w|intros p w]; cbn; unfold on_files; repeat case_match; done. Defined.

(** Device 2 ran a generic program; [--force] puts the program in section xdp of
    f.o there.  Its maps are pinned below /sys/fs/bpf. *)
Definition machine_before : machine :=
  Machine LinkNet.busy_devices (ex_kernel_at []) (ExFs ∅ {[lit "/sys/fs/bpf"]}).
Definition machine_options : list CmdLine.getopt_event := [(100, lit "eth0"); (70, []); (1, lit "f.o"); (2, lit "xdp")].
Definition machine_access (p : str) (w : machine) : Z := if decide (is_Some (fs_pins (files w) !! p)) then 0 else -1.
Definition machine_net : XdpLink.XdpNet machine := LinkNet.netlink_net LE (repeat 170 4096) 9.
Definition machine_libbpf : Loader.Libbpf machine bpf_object bpf_program :=
  object_libbpf (Q := insertion_sort) (H3 := ex_files) LE ElfObject.ex_alloc ex_btf_alloc ex_load_btf ElfObject.ex_alloc ex_load_alloc 0 ex_quiet 1
    (fun _ => true) machine_access (fun _ _ => 3) (fun _ _ => Err EINVAL).
Definition machine_after : machine :=
  (@Loader.loader_main machine bpf_object bpf_program machine_net machine_libbpf CmdLine.eth0_only machine_options machine_before).2.

(** Loading took descriptors 3 and 4 for the maps and 5 for the program. *)
Example machine_ran : devs machine_after = (None, Some (CmdLine.XDP_FLAGS_DRV_MODE, 5)) /\
  fs_pins (files machine_after) !! lit "/sys/fs/bpf/eth0/m0" = Some 3 /\ fs_pins (files machine_after) !! lit "/sys/fs/bpf/eth0/m1" = Some 4.
Proof. split_and!; vm_compute; reflexivity. Qed.

Definition machine_load := load_file (Q := insertion_sort) (H3 := ex_files) LE ElfObject.ex_alloc ex_btf_alloc ex_load_btf ElfObject.ex_alloc ex_load_alloc 0 ex_quiet 1.

