(* ===== verification/PerfRing.v ===== *)
(** * Reading a perf ring (src/libbpf/src/libbpf.c, [bpf_perf_event_read_simple])

    The kernel writes records into a ring of pages behind a control page and
    advances [data_head]; the reader hands every record to a callback, copied
    when it wraps around the end, and advances [data_tail]. *)

From S2P Require Export Memory.
Open Scope Z_scope.

Definition LIBBPF_PERF_EVENT_DONE := 0.
Definition LIBBPF_PERF_EVENT_ERROR := -1.
Definition LIBBPF_PERF_EVENT_CONT := -2.

(** The caller's buffer for records that wrap around. *)
Record copy_buf := CopyBuf { copy_mem : option (list Z); copy_size : Z }.

(** A loop: it may end, leave its objects, or still be running. *)
Inductive progress (A : Type) :=
| Ended (a : A)
| Outside
| Running.
Arguments Ended {A} a.
Arguments Outside {A}.
Arguments Running {A}.

Section read.
(** The byte order, the answers of [malloc] and the bytes it gives, and the
    callback: its verdict on a record and what it leaves in its private data. *)
Context {S : Type} (e : endian) (alloc : nat -> bool) (junk : Z) (fn : list Z -> S -> Z * S).
(** The pages behind the control page. *)
Context (base : list Z) (mmap_size : Z).

(** The offset of [size] in [struct perf_event_header]. *)
Definition ehdr_size_off := 6.

(** A buffer of [size] bytes at least; [None] without memory. *)
Definition grow (size : Z) (c : copy_buf) (n : nat) : option copy_buf * nat :=
  if copy_size c <? size then
    if alloc n then (Some (CopyBuf (Some (repeat junk (Z.to_nat size))) size), Datatypes.S n) else (None, Datatypes.S n)
  else (Some c, n).

(** The record at [data_tail] in one piece. *)
Definition wrapped_record (off size : Z) (c : copy_buf) : option (list Z * copy_buf) :=
  let len_first := mmap_size - off in
  let len_secnd := size - len_first in
  mem ← copy_mem c;
  first ← get_bytes base off (Z.to_nat len_first);
  mem ← put_bytes mem 0 first;
  secnd ← get_bytes base 0 (Z.to_nat len_secnd);
  mem ← put_bytes mem len_first secnd;
  ehdr ← get_bytes mem 0 (Z.to_nat size);
  Some (ehdr, CopyBuf (Some mem) (copy_size c)).

(** The loop: what is returned, the tail, the buffer, the requests of memory and
    the private data. *)
Fixpoint read_events (fuel : nat) (data_head data_tail ret : Z) (c : copy_buf) (n : nat) (s : S) :
    progress (Z * Z * copy_buf * nat * S) :=
  match fuel with
  | O => Running
  | Datatypes.S fuel =>
      if data_head =? data_tail then Ended (ret, data_tail, c, n, s) else
      let off := Z.land data_tail (mmap_size - 1) in
      match load e 2 base (off + ehdr_size_off) with
      | None => Outside
      | Some size =>
          let next (ehdr : list Z) (c : copy_buf) (n : nat) :=
            let '(ret, s) := fn ehdr s in
            let data_tail := wrap 64 (data_tail + size) in
            if ret =? LIBBPF_PERF_EVENT_CONT then read_events fuel data_head data_tail ret c n s
            else Ended (ret, data_tail, c, n, s) in
          if mmap_size <? off + size then
            match grow size c n with
            | (None, n) => Ended (LIBBPF_PERF_EVENT_ERROR, data_tail, CopyBuf None 0, n, s)
            | (Some c, n) => match wrapped_record off size c with Some (ehdr, c) => next ehdr c n | None => Outside end
            end
          else match get_bytes base off (Z.to_nat size) with Some ehdr => next ehdr c n | None => Outside end
      end
  end.

(** The result, the new [data_tail], the buffer and the private data. *)
Definition bpf_perf_event_read_simple (fuel : nat) (data_head data_tail : Z) (c : copy_buf) (s : S) :=
  read_events fuel data_head data_tail LIBBPF_PERF_EVENT_CONT c 0 s.
End read.

(** ** What the kernel has written *)

Lemma wrap_mod j x : 0 <= j <= 64 -> wrap 64 x mod 2 ^ j = x mod 2 ^ j.
Proof.
  intros Hj. unfold wrap. replace (2 ^ 64) with (2 ^ j * 2 ^ (64 - j)) by (rewrite <- Z.pow_add_r by lia; f_equal; lia).
  pose proof (Z.pow_pos_nonneg 2 j ltac:(lia) ltac:(lia)). pose proof (Z.pow_pos_nonneg 2 (64 - j) ltac:(lia) ltac:(lia)).
  rewrite Z.rem_mul_r by lia. rewrite (Z.mul_comm (2 ^ j)), Z.mod_add by lia. apply Z.mod_mod. lia.
Qed.

(** A record: its header says how long it is, a multiple of the header. *)
Record record_ok (e : endian) (r : list Z) : Prop := {
  rc_size : load e 2 r ehdr_size_off = Some (zlen r);
  rc_align : zlen r mod 8 = 0
}.

Lemma record_length e r : record_ok e r -> 8 <= zlen r.
Proof.
  intros [Hs Ha]. assert (is_Some (load e 2 r ehdr_size_off)) as Hl by by eexists. rewrite load_is_Some in Hl.
  unfold ehdr_size_off in Hl. lia.
Qed.

Lemma get_bytes_intro m p n bs : 0 <= p -> p + Z.of_nat n <= zlen m -> length bs = n ->
  (forall i, 0 <= i < Z.of_nat n -> znth m (p + i) = znth bs i) -> get_bytes m p n = Some bs.
Proof.
  intros Hp Hn Hl Hi. unfold get_bytes. rewrite decide_True by lia. f_equal. apply list_eq. intros i. destruct (decide (i < n)%nat).
  - rewrite lookup_take_lt, lookup_drop by lia. specialize (Hi (Z.of_nat i) ltac:(lia)). unfold znth in Hi. rewrite !decide_True in Hi by lia.
    rewrite Nat2Z.id in Hi. rewrite <- Hi. f_equal. lia.
  - rewrite lookup_take_ge, lookup_ge_None_2 by lia. done.
Qed.

Section ring.
Context (e : endian) (base : list Z) (k : Z).
Local Abbreviation size := (2 ^ k).

(** From stream position [tail] on the ring holds the bytes [bs]. *)
Definition stream (tail : Z) (bs : list Z) : Prop :=
  forall i, 0 <= i < zlen bs -> znth base ((tail + i) mod size) = znth bs i.

(** The records between [tail] and [head]. *)
Record ring_holds (tail head : Z) (rs : list (list Z)) : Prop := {
  rg_tail : in_range 64 tail;
  rg_align : tail mod 8 = 0;
  rg_head : head = wrap 64 (tail + zlen (concat rs));
  rg_fits : zlen (concat rs) <= size;
  rg_records : Forall (record_ok e) rs;
  rg_stream : stream tail (concat rs)
}.

Hypothesis Hk : 3 <= k <= 63.
Hypothesis Hbase : zlen base = size.

Lemma size_range : 8 <= size < 2 ^ 64.
Proof using Hk. split; [change 8 with (2 ^ 3); apply Z.pow_le_mono_r; lia|apply Z.pow_lt_mono_r; lia]. Qed.

Lemma size_eight : size = 8 * 2 ^ (k - 3).
Proof using Hk. change 8 with (2 ^ 3). rewrite <- Z.pow_add_r by lia. f_equal. lia. Qed.

Lemma stream_app tail bs bs' : stream tail (bs ++ bs') -> stream tail bs /\ stream (wrap 64 (tail + zlen bs)) bs'.
Proof using Hk.
  intros Hs. split; intros i Hi.
  - rewrite Hs by (rewrite zlen_app; pose proof (zlen_nonneg bs'); lia). apply znth_app_l. lia.
  - rewrite Zplus_mod, wrap_mod, <- Zplus_mod by lia. rewrite <- Z.add_assoc, Hs by (rewrite zlen_app; pose proof (zlen_nonneg bs); lia).
    rewrite znth_app_r by lia. done.
Qed.

Lemma ring_next tail head r rs : ring_holds tail head (r :: rs) -> ring_holds (wrap 64 (tail + zlen r)) head rs.
Proof using Hk.
  intros [H1 H2 H3 H4 H5 H6]. cbn [concat] in *. rewrite zlen_app in H3, H4. pose proof (zlen_nonneg r). apply list.Forall_cons in H5 as [Hr Hrs].
  split; [apply wrap_range; lia| | | |done|by apply stream_app].
  - change 8 with (2 ^ 3). rewrite wrap_mod by lia. change (2 ^ 3) with 8. rewrite Zplus_mod, H2, (rc_align _ _ Hr). done.
  - by rewrite wrap_add_l, <- Z.add_assoc.
  - lia.
Qed.

(** The record at the tail. *)
Section record.
Context (tail : Z) (r : list Z).
Hypothesis Htail : 0 <= tail.
Hypothesis Halign : tail mod 8 = 0.
Hypothesis Hr : record_ok e r.
Hypothesis Hfits : zlen r <= size.
Hypothesis Hs : stream tail r.
Local Abbreviation off := (tail mod size).

Lemma off_mask : Z.land tail (size - 1) = off.
Proof using Hk. rewrite <- Z.land_ones by lia. by rewrite Z.ones_equiv, <- Z.sub_1_r. Qed.

(** A header does not wrap around. *)
Lemma off_range : 0 <= off /\ off + 8 <= size.
Proof using Hk Halign Htail.
  pose proof size_range. pose proof size_eight as E. pose proof (Z.mod_pos_bound tail size ltac:(lia)) as Hb. split; [lia|].
  assert (off mod 8 = 0) as Ho.
  { apply Z.mod_divide; [lia|]. apply Z.mod_divide in Halign as [q Hq]; [|lia]. exists (q - (tail / size) * 2 ^ (k - 3)).
    rewrite Z.mod_eq by lia. generalize (tail / size). intros d. rewrite E, Hq. ring. }
  apply Z.mod_divide in Ho as [q Hq]; [|lia]. assert (q < 2 ^ (k - 3)) by nia. nia.
Qed.

Lemma stream_at i : 0 <= i < zlen r -> znth base (if decide (off + i < size) then off + i else off + i - size) = znth r i.
Proof using Hs Hfits Hk.
  intros Hi. rewrite <- Hs by done. f_equal. pose proof size_range. pose proof (Z.mod_pos_bound tail size ltac:(lia)).
  rewrite Zplus_mod, (Z.mod_small i) by lia. destruct (decide _).
  - by rewrite (Z.mod_small (off + i)) by lia.
  - rewrite <- (Z.mod_add (off + i) (-1)) by lia. rewrite (Z.mod_small (off + i + -1 * size)) by lia. lia.
Qed.

Lemma stream_bytes p n bs : 0 <= p -> p + Z.of_nat n <= zlen r -> (off + p + Z.of_nat n <= size) ->
  get_bytes r p n = Some bs -> get_bytes base (off + p) n = Some bs.
Proof using Hs Hfits Hk Hbase.
  intros Hp Hn Ho Hg. pose proof size_range. pose proof (Z.mod_pos_bound tail size ltac:(lia)).
  apply get_bytes_intro; [lia|lia|by eapply length_get_bytes|]. intros i Hi.
  pose proof (stream_at (p + i) ltac:(lia)) as E. rewrite decide_True, Z.add_assoc in E by lia. rewrite E.
  unfold znth. rewrite !decide_True by lia. rewrite (get_bytes_lookup _ _ _ _ _ Hg) by lia. f_equal. lia.
Qed.

Lemma record_size : load e 2 base (off + ehdr_size_off) = Some (zlen r).
Proof using All.
  destruct Hr as [Hl _]. unfold load in *. destruct (get_bytes r _ _) as [bs|] eqn:E; [|done].
  pose proof (record_length e r Hr). pose proof off_range. unfold ehdr_size_off in *. by rewrite (stream_bytes 6 2 bs) by (done || lia).
Qed.

Lemma record_whole : off + zlen r <= size -> get_bytes base off (Z.to_nat (zlen r)) = Some r.
Proof using All.
  intros Ho. pose proof (zlen_nonneg r). rewrite <- (Z.add_0_r off). apply stream_bytes; [lia|lia|lia|].
  unfold get_bytes. rewrite decide_True by lia. rewrite drop_0, take_ge; [done|unfold zlen; lia].
Qed.

Lemma record_wrapped c : size < off + zlen r -> (exists mem, copy_mem c = Some mem /\ zlen r <= zlen mem) ->
  exists mem, wrapped_record base size off (zlen r) c = Some (r, CopyBuf (Some mem) (copy_size c)) /\
    forall mem0, copy_mem c = Some mem0 -> zlen mem = zlen mem0.
Proof using All.
  intros Ho (mem & Em & Hm). pose proof off_range as [Hoff _]. pose proof size_range. pose proof (Z.mod_pos_bound tail size ltac:(lia)).
  unfold wrapped_record. rewrite Em. cbn [mbind option_bind]. set (a := size - off). set (b := zlen r - a).
  assert (get_bytes base off (Z.to_nat a) = Some (take (Z.to_nat a) r)) as E1.
  { rewrite <- (Z.add_0_r off) at 1. apply stream_bytes; [lia|lia|lia|]. unfold get_bytes. rewrite decide_True by lia. by rewrite drop_0. }
  assert (get_bytes base 0 (Z.to_nat b) = Some (drop (Z.to_nat a) r)) as E2.
  { apply get_bytes_intro; [lia|lia|rewrite length_drop; unfold zlen in *; lia|]. intros i Hi.
    pose proof (stream_at (a + i) ltac:(lia)) as E. rewrite decide_False in E by lia. replace (off + (a + i) - size) with (0 + i) in E by lia.
    rewrite E. unfold znth. rewrite !decide_True by lia. rewrite lookup_drop. f_equal. lia. }
  rewrite E1. cbn [mbind option_bind].
  assert (zlen (take (Z.to_nat a) r) = a) as La by (unfold zlen in *; rewrite length_take; lia).
  assert (zlen (drop (Z.to_nat a) r) = b) as Lb by (unfold zlen in *; rewrite length_drop; lia).
  destruct (proj2 (put_bytes_is_Some mem 0 (take (Z.to_nat a) r))) as [m1 P1]; [lia|]. rewrite P1. cbn [mbind option_bind]. rewrite E2. cbn [mbind option_bind].
  pose proof (zlen_put_bytes _ _ _ _ P1) as L1.
  destruct (proj2 (put_bytes_is_Some m1 a (drop (Z.to_nat a) r))) as [m2 P2]; [lia|]. rewrite P2. cbn [mbind option_bind].
  pose proof (zlen_put_bytes _ _ _ _ P2) as L2.
  assert (get_bytes m2 0 (Z.to_nat (zlen r)) = Some r) as E3; [|rewrite E3; cbn; exists m2; split; [done|]; intros mem0 E0; congruence].
  unfold get_bytes. rewrite decide_True by lia. f_equal. rewrite drop_0.
  unfold put_bytes in P1. rewrite decide_True in P1 by lia. injection P1 as <-.
  unfold put_bytes in P2. rewrite decide_True in P2 by lia. injection P2 as <-. rewrite La, Lb. cbn [take app Z.to_nat].
  rewrite (take_app_length' (take (Z.to_nat a) r)) by (unfold zlen in *; lia).
  rewrite app_assoc, take_drop. apply take_app_length'. unfold zlen. lia.
Qed.
End record.
End ring.

(** ** What the reader does *)

Section reading.
Context {S : Type} (e : endian) (alloc : nat -> bool) (junk : Z) (fn : list Z -> S -> Z * S).

(** The callback goes on after each of these records; what it leaves. *)
Fixpoint all_cont (rs : list (list Z)) (s : S) : option S :=
  match rs with
  | [] => Some s
  | r :: rs => let '(ret, s) := fn r s in if ret =? LIBBPF_PERF_EVENT_CONT then all_cont rs s else None
  end.

(** How reading the records [rs] ends: the result, how many were taken off the
    ring, and the private data. *)
Inductive read_end (rs : list (list Z)) (s : S) : Z -> nat -> S -> Prop :=
| read_all s' : all_cont rs s = Some s' -> read_end rs s LIBBPF_PERF_EVENT_CONT (length rs) s'
| read_stopped j r s1 ret s' : rs !! j = Some r -> all_cont (take j rs) s = Some s1 -> fn r s1 = (ret, s') ->
    ret <> LIBBPF_PERF_EVENT_CONT -> read_end rs s ret (Datatypes.S j) s'
| read_no_memory j r s' : rs !! j = Some r -> all_cont (take j rs) s = Some s' -> (exists i, alloc i = false) ->
    read_end rs s LIBBPF_PERF_EVENT_ERROR j s'.

Lemma read_end_cons r rs s s1 ret j s' : fn r s = (LIBBPF_PERF_EVENT_CONT, s1) -> read_end rs s1 ret j s' ->
  read_end (r :: rs) s ret (Datatypes.S j) s'.
Proof.
  intros Hf [s2 H|j' r' s2 ret' s3 H1 H2 H3 H4|j' r' s2 H1 H2 H3].
  - apply (read_all (r :: rs)). cbn. by rewrite Hf.
  - eapply (read_stopped (r :: rs) s (Datatypes.S j')); [exact H1| |exact H3|done]. cbn. by rewrite Hf.
  - eapply (read_no_memory (r :: rs) s (Datatypes.S j')); [exact H1| |done]. cbn. by rewrite Hf.
Qed.

(** The buffer is as large as it says. *)
Definition copy_ok (c : copy_buf) : Prop :=
  0 < copy_size c -> exists mem, copy_mem c = Some mem /\ copy_size c <= zlen mem.

Context (base : list Z) (k : Z).
Hypothesis Hk : 3 <= k <= 63.
Hypothesis Hbase : zlen base = 2 ^ k.
Local Abbreviation holds := (ring_holds e base k).

Lemma ring_empty tail head rs : holds tail head rs -> head = tail <-> rs = [].
Proof using Hk.
  intros [H1 H2 H3 H4 H5 H6]. pose proof (size_range k Hk). split.
  - intros ->. destruct rs as [|r rs]; [done|]. exfalso. cbn [concat] in *. rewrite zlen_app in H3, H4.
    apply list.Forall_cons in H5 as [Hr _]. pose proof (record_length e r Hr). pose proof (zlen_nonneg (concat rs)).
    assert (wrap 64 (tail + (zlen r + zlen (concat rs))) = wrap 64 (tail + 0)) as E by (rewrite Z.add_0_r, (wrap_small _ tail) by done; congruence).
    unfold wrap in E. pose proof (Z.div_mod (tail + (zlen r + zlen (concat rs))) (2 ^ 64) ltac:(lia)).
    pose proof (Z.div_mod (tail + 0) (2 ^ 64) ltac:(lia)). unfold in_range in H1.
    assert ((tail + (zlen r + zlen (concat rs))) / 2 ^ 64 = (tail + 0) / 2 ^ 64 \/ (tail + (zlen r + zlen (concat rs))) / 2 ^ 64 >= (tail + 0) / 2 ^ 64 + 1
      \/ (tail + (zlen r + zlen (concat rs))) / 2 ^ 64 <= (tail + 0) / 2 ^ 64 - 1) as [|[|]] by lia; lia.
  - intros ->. cbn in H3. by rewrite Z.add_0_r, wrap_small in H3.
Qed.

(** The step: one record in one piece. *)
Lemma read_step fuel tail head r rs ret c n s : holds tail head (r :: rs) -> copy_ok c ->
  exists c' n', copy_ok c' /\
    ((read_events e alloc junk fn base (2 ^ k) (Datatypes.S fuel) head tail ret c n s =
        Ended (LIBBPF_PERF_EVENT_ERROR, tail, c', n', s) /\ exists i, alloc i = false) \/
     read_events e alloc junk fn base (2 ^ k) (Datatypes.S fuel) head tail ret c n s =
       let '(ret, s) := fn r s in
       if ret =? LIBBPF_PERF_EVENT_CONT then read_events e alloc junk fn base (2 ^ k) fuel head (wrap 64 (tail + zlen r)) ret c' n' s
       else Ended (ret, wrap 64 (tail + zlen r), c', n', s)).
Proof using Hk Hbase.
  intros Hh Hc. cbn [read_events].
  assert ((head =? tail) = false) as -> by (apply Z.eqb_neq; rewrite (ring_empty _ _ _ Hh); done).
  destruct Hh as [H1 H2 H3 H4 H5 H6]. cbn [concat] in *. rewrite zlen_app in H4. pose proof (zlen_nonneg (concat rs)).
  apply list.Forall_cons in H5 as [Hr _]. apply (stream_app base k Hk) in H6 as [H6 _]. unfold in_range in H1.
  rewrite off_mask by done. rewrite (record_size e base k Hk Hbase tail r) by (done || lia).
  pose proof (record_length e r Hr) as Hl. destruct (Z.ltb_spec (2 ^ k) (tail mod 2 ^ k + zlen r)) as [Hw|Hw].
  - unfold grow. destruct (Z.ltb_spec (copy_size c) (zlen r)) as [Hcs|Hcs].
    + destruct (alloc n) eqn:Ea; [|exists (CopyBuf None 0), (Datatypes.S n); split; [intros Hn; cbn in Hn; lia|left; split; [done|by exists n]]].
      destruct (record_wrapped e base k Hk Hbase tail r ltac:(lia) H2 Hr ltac:(lia) H6 (CopyBuf (Some (repeat junk (Z.to_nat (zlen r)))) (zlen r)) Hw)
        as (mem & E & Hm).
      { eexists. split; [done|]. unfold zlen. rewrite repeat_length. lia. }
      rewrite E. exists (CopyBuf (Some mem) (zlen r)), (Datatypes.S n). split; [|by right]. intros _. exists mem. split; [done|]. cbn.
      rewrite (Hm _ eq_refl). unfold zlen. rewrite repeat_length. lia.
    + destruct (Hc ltac:(lia)) as (mem0 & Em & Hml).
      destruct (record_wrapped e base k Hk Hbase tail r ltac:(lia) H2 Hr ltac:(lia) H6 c Hw) as (mem & E & Hm); [exists mem0; split; [done|lia]|].
      rewrite E. exists (CopyBuf (Some mem) (copy_size c)), n. split; [|by right]. intros _. exists mem. split; [done|]. cbn. rewrite (Hm _ Em). lia.
  - rewrite (record_whole e base k Hk Hbase tail r) by (done || lia). exists c, n. split; [done|by right].
Qed.

Lemma read_events_spec rs : forall fuel tail head c n s, (length rs < fuel)%nat -> holds tail head rs -> copy_ok c ->
  exists ret c' n' s' j, let tail' := wrap 64 (tail + zlen (concat (take j rs))) in
    read_events e alloc junk fn base (2 ^ k) fuel head tail LIBBPF_PERF_EVENT_CONT c n s = Ended (ret, tail', c', n', s') /\
    read_end rs s ret j s' /\ holds tail' head (drop j rs) /\ copy_ok c'.
Proof using Hk Hbase.
  induction rs as [|r rs IH]; intros fuel tail head c n s Hf Hh Hc; destruct fuel as [|fuel]; cbn [length] in Hf; try lia.
  - assert (wrap 64 (tail + 0) = tail) as Et by (rewrite Z.add_0_r; apply wrap_small, Hh).
    exists LIBBPF_PERF_EVENT_CONT, c, n, s, 0%nat. cbn -[wrap]. change (zlen []) with 0. rewrite Et.
    rewrite (proj2 (ring_empty _ _ _ Hh) eq_refl), Z.eqb_refl. split; [done|]. split; [by apply (read_all [])|]. split; [|done].
    by rewrite (proj2 (ring_empty _ _ _ Hh) eq_refl) in Hh.
  - destruct (read_step fuel tail head r rs LIBBPF_PERF_EVENT_CONT c n s Hh Hc) as (c1 & n1 & Hc1 & [[E Ha]|E]).
    + exists LIBBPF_PERF_EVENT_ERROR, c1, n1, s, 0%nat. cbn [take concat drop]. change (zlen []) with 0.
      rewrite Z.add_0_r, wrap_small by apply Hh. split; [exact E|]. split; [|by split]. by apply (read_no_memory (r :: rs) s 0 r).
    + rewrite E. destruct (fn r s) as [ret s1] eqn:Ef. destruct (Z.eqb_spec ret LIBBPF_PERF_EVENT_CONT) as [->|Hne].
      * destruct (IH fuel (wrap 64 (tail + zlen r)) head c1 n1 s1 ltac:(lia) (ring_next e base k Hk _ _ _ _ Hh) Hc1)
          as (ret & c' & n' & s' & j & E' & Hend & Hh' & Hc').
        exists ret, c', n', s', (Datatypes.S j). cbn [take concat drop]. rewrite zlen_app, Z.add_assoc. rewrite wrap_add_l in E', Hh'.
        split; [exact E'|]. split; [|by split]. by eapply read_end_cons.
      * exists ret, c1, n1, s1, 1%nat. cbn [take concat drop]. rewrite take_0. cbn [concat]. rewrite app_nil_r.
        split; [done|]. split; [by apply (read_stopped (r :: rs) s 0 r s)|]. split; [|done]. by apply (ring_next e base k Hk).
Qed.
End reading.

(** C29. Reading a ring with whole records ends, inside the ring and the copy buffer:
    the callback is handed the records in order, each in one piece also when it
    wraps around the end, up to the first on which it does not say to continue;
    the tail moves over exactly those, and the ring still holds the others.  Memory
    for a copy may run out, then its record stays in the ring. *)
Theorem read_simple_spec {S : Type} e alloc junk (fn : list Z -> S -> Z * S) base k tail head rs c s fuel :
  3 <= k <= 63 -> zlen base = 2 ^ k -> ring_holds e base k tail head rs -> copy_ok c -> (length rs < fuel)%nat ->
  exists ret c' n' s' j, let tail' := wrap 64 (tail + zlen (concat (take j rs))) in
    bpf_perf_event_read_simple e alloc junk fn base (2 ^ k) fuel head tail c s = Ended (ret, tail', c', n', s') /\
    read_end alloc fn rs s ret j s' /\ ring_holds e base k tail' head (drop j rs) /\ copy_ok c'.
Proof. intros Hk Hbase Hh Hc Hf. by apply read_events_spec. Qed.

(** C30. With memory, a callback that always continues is handed every record, and
    leaves the ring empty; with a record of size 0 it is called for ever. *)
Theorem read_drains {S : Type} e alloc junk (fn : list Z -> S -> Z * S) base k tail head c s :
  3 <= k <= 63 -> zlen base = 2 ^ k -> (forall i, alloc i = true) -> (forall r s, (fn r s).1 = LIBBPF_PERF_EVENT_CONT) -> copy_ok c ->
  (forall rs fuel, ring_holds e base k tail head rs -> (length rs < fuel)%nat ->
    exists c' n', bpf_perf_event_read_simple e alloc junk fn base (2 ^ k) fuel head tail c s =
      Ended (LIBBPF_PERF_EVENT_CONT, head, c', n', foldl (fun s r => (fn r s).2) s rs)) /\
  (in_range 64 tail -> head <> tail -> load e 2 base (tail mod 2 ^ k + ehdr_size_off) = Some 0 ->
    forall fuel, bpf_perf_event_read_simple e alloc junk fn base (2 ^ k) fuel head tail c s = Running).
Proof.
  intros Hk Hbase Hmem Hfn Hc. split.
  - intros rs fuel Hh Hf. destruct (read_events_spec e alloc junk fn base k Hk Hbase rs fuel tail head c 0 s Hf Hh Hc)
      as (ret & c' & n' & s' & j & E & Hend & _).
    exists c', n'. unfold bpf_perf_event_read_simple. rewrite E.
    assert (forall rs s, all_cont fn rs s = Some (foldl (fun s r => (fn r s).2) s rs)) as Hall.
    { clear -Hfn. induction rs as [|r rs IH]; intros s; [done|]. cbn. pose proof (Hfn r s) as Hr. destruct (fn r s) as [ret s1]. cbn in *. by rewrite Hr, IH. }
    destruct Hend as [s' H|j r s1 ret s' H1 H2 H3 H4|j r s' H1 H2 [i Hi]].
    + rewrite Hall in H. injection H as <-. by rewrite firstn_all, <- (rg_head _ _ _ _ _ _ Hh).
    + specialize (Hfn r s1). rewrite H3 in Hfn. done.
    + by rewrite Hmem in Hi.
  - intros Ht Hne Hz. unfold bpf_perf_event_read_simple. intros fuel. generalize 0%nat, s. induction fuel as [|fuel IH]; intros n s1; [done|].
    cbn [read_events]. rewrite (proj2 (Z.eqb_neq _ _)) by done. rewrite off_mask, Hz by done. pose proof (size_range k Hk).
    pose proof (Z.mod_pos_bound tail (2 ^ k) ltac:(lia)). rewrite Z.add_0_r, (proj2 (Z.ltb_ge _ _)) by lia.
    unfold get_bytes at 1. rewrite decide_True by (cbn; lia). pose proof (Hfn (take 0 (drop (Z.to_nat (tail mod 2 ^ k)) base)) s1) as Hr.
    change (Z.to_nat 0) with 0%nat. destruct (fn _ s1) as [ret s2]. cbn [fst] in Hr. subst ret. rewrite Z.eqb_refl.
    rewrite Z.add_0_r, wrap_small by done. apply IH.
Qed.

(** ** A ring of 32 bytes *)

(** A record of 24 bytes at position 16, wrapped around, and one of 8. *)
Definition ex_record (n : nat) (b : Z) : list Z := [9; 0; 0; 0; 0; 0; Z.of_nat n; 0] ++ repeat b (n - 8).
Definition ex_records : list (list Z) := [ex_record 24 7; ex_record 8 0].
Definition ex_ring : list Z := drop 16 (ex_record 24 7) ++ ex_record 8 0 ++ take 16 (ex_record 24 7).
(** The callback keeps the records. *)
Definition ex_keep (r : list Z) (s : list (list Z)) : Z * list (list Z) := (LIBBPF_PERF_EVENT_CONT, s ++ [r]).

Lemma ex_ring_holds : ring_holds LE ex_ring 5 16 48 ex_records.
Proof.
  split; [done|done|done|done| |].
  - repeat constructor.
  - assert (forallb (fun i => bool_decide (znth ex_ring ((16 + Z.of_nat i) mod 2 ^ 5) = znth (concat ex_records) (Z.of_nat i))) (seq 0 32) = true) as H
      by (vm_compute; reflexivity).
    intros i Hi. rewrite forallb_forall in H. specialize (H (Z.to_nat i) ltac:(rewrite in_seq; change (zlen (concat ex_records)) with 32 in Hi; lia)).
    apply bool_decide_eq_true in H. by rewrite Z2Nat.id in H by lia.
Qed.

Lemma ex_no_copy : copy_ok (CopyBuf None 0).
Proof. intros H. cbn in H. lia. Qed.

Lemma read_simple_spec_witness :
  exists ret c' n' s' j, let tail' := wrap 64 (16 + zlen (concat (take j ex_records))) in
    bpf_perf_event_read_simple LE (fun _ => true) 0 ex_keep ex_ring (2 ^ 5) 3 48 16 (CopyBuf None 0) [] = Ended (ret, tail', c', n', s') /\
    read_end (fun _ => true) ex_keep ex_records [] ret j s' /\ ring_holds LE ex_ring 5 tail' 48 (drop j ex_records) /\ copy_ok c'.
Proof.
  apply (read_simple_spec LE (fun _ => true) 0 ex_keep ex_ring 5 16 48 ex_records (CopyBuf None 0) [] 3);
    [lia|reflexivity|exact ex_ring_holds|exact ex_no_copy|cbn; lia].
Defined.

Lemma read_drains_witness :
  (exists c' n', bpf_perf_event_read_simple LE (fun _ => true) 0 ex_keep ex_ring (2 ^ 5) 3 48 16 (CopyBuf None 0) [] =
    Ended (LIBBPF_PERF_EVENT_CONT, 48, c', n', ex_records)) /\
  (forall fuel, bpf_perf_event_read_simple LE (fun _ => true) 0 ex_keep (repeat 0 32) (2 ^ 5) fuel 8 0 (CopyBuf None 0) [] = Running).
Proof.
  split.
  - apply (proj1 (read_drains LE (fun _ => true) 0 ex_keep ex_ring 5 16 48 (CopyBuf None 0) [] ltac:(lia) eq_refl (fun _ => eq_refl) (fun _ _ => eq_refl) ex_no_copy)
      ex_records 3%nat); [exact ex_ring_holds|cbn; lia].
  - apply (proj2 (read_drains LE (fun _ => true) 0 ex_keep (repeat 0 32) 5 0 8 (CopyBuf None 0) [] ltac:(lia) eq_refl (fun _ => eq_refl) (fun _ _ => eq_refl) ex_no_copy));
      [unfold in_range; lia|lia|vm_compute; reflexivity].
Defined.
