(* ===== verification/Xsk.v ===== *)
(** * AF_XDP rings (src/libbpf/src/xsk.h)

    A ring is shared by a producer and a consumer, one of them the kernel.
    Each side has a handle with its own copies of the two indices, which run
    through all 32-bit values and are reduced by the mask on access; a
    producer's [cached_cons] is a ring size ahead of the consumer.  The
    functions are modelled on the shared memory and the handle; [cstep] is one
    step of either side.  The specification is a bounded queue, [astep]: the
    two sides interleave in any order, each keeping to its own functions. *)

From S2P Require Export Prelude.

(** [struct xsk_ring_prod] and [struct xsk_ring_cons]; [producer], [consumer]
    and [ring] point into the shared memory. *)
Record xsk_ring := XskRing { cached_prod : Z; cached_cons : Z; mask : Z; size : Z }.

Record shared (A : Type) := Shared { producer : Z; consumer : Z; ring : list A }.
Arguments Shared {A} _ _ _.
Arguments producer {A} _.
Arguments consumer {A} _.
Arguments ring {A} _.

Section ring.
Context {A : Type}.
Implicit Types (r : xsk_ring) (sh : shared A).

(** The slot [&addrs[idx & mask]], for both kinds of entries of a producer. *)
Definition xsk_ring_prod__fill_addr r (idx : Z) : Z := Z.land idx (mask r).
Definition xsk_ring_prod__tx_desc r (idx : Z) : Z := Z.land idx (mask r).
Definition xsk_ring_cons__comp_addr r (idx : Z) : Z := Z.land idx (mask r).
Definition xsk_ring_cons__rx_desc r (idx : Z) : Z := Z.land idx (mask r).

Definition xsk_prod_nb_free r sh (nb : Z) : Z * xsk_ring :=
  let free_entries := cached_cons r ⊟ cached_prod r in
  if nb <=? free_entries then (free_entries, r)
  else
    let r := XskRing (cached_prod r) (consumer sh ⊞ size r) (mask r) (size r) in
    (cached_cons r ⊟ cached_prod r, r).

Definition xsk_cons_nb_avail r sh (nb : Z) : Z * xsk_ring :=
  let entries := cached_prod r ⊟ cached_cons r in
  let '(entries, r) :=
    if entries =? 0 then
      let r := XskRing (producer sh) (cached_cons r) (mask r) (size r) in
      (cached_prod r ⊟ cached_cons r, r)
    else (entries, r) in
  (if nb <? entries then nb else entries, r).

(** The number of entries and [*idx], if it is written; [nb] is a [size_t]. *)
Definition xsk_ring_prod__reserve r sh (nb : Z) : Z * option Z * xsk_ring :=
  let '(free, r) := xsk_prod_nb_free r sh (u32 nb) in
  if free <? nb then (0, None, r)
  else (nb, Some (cached_prod r), XskRing (cached_prod r ⊞ nb) (cached_cons r) (mask r) (size r)).

Definition xsk_ring_prod__submit sh (nb : Z) : shared A :=
  Shared (producer sh ⊞ nb) (consumer sh) (ring sh).

Definition xsk_ring_cons__peek r sh (nb : Z) : Z * option Z * xsk_ring :=
  let '(entries, r) := xsk_cons_nb_avail r sh (u32 nb) in
  if 0 <? entries then
    (entries, Some (cached_cons r),
     XskRing (cached_prod r) (cached_cons r ⊞ entries) (mask r) (size r))
  else (entries, None, r).

Definition xsk_ring_cons__release sh (nb : Z) : shared A :=
  Shared (producer sh) (consumer sh ⊞ nb) (ring sh).

(** ** The two sides *)

Record state := State { prod : xsk_ring; cons : xsk_ring; mem : shared A }.

(** An operation of either side.  [Write i v] fills the [i]-th entry that is
    reserved and not submitted, [Read i] reads the [i]-th that is peeked and
    not released. *)
Inductive op :=
| Reserve (nb : Z)
| Write (i : Z) (v : A)
| Submit (nb : Z)
| Peek (nb : Z)
| Read (i : Z)
| Release (nb : Z).

(** What an operation returns: a number of entries and their first index, an
    entry, or nothing. *)
Inductive out :=
| Entries (n : Z) (idx : option Z)
| Value (v : A)
| Done.

(** [None] is an access outside the ring. *)
Definition cstep (s : state) (o : op) : option (state * out) :=
  match o with
  | Reserve nb =>
      let '(n, idx, p) := xsk_ring_prod__reserve (prod s) (mem s) nb in
      Some (State p (cons s) (mem s), Entries n idx)
  | Write i v =>
      slots ← zset (ring (mem s)) (xsk_ring_prod__fill_addr (prod s) (producer (mem s) ⊞ i)) v;
      Some (State (prod s) (cons s) (Shared (producer (mem s)) (consumer (mem s)) slots), Done)
  | Submit nb => Some (State (prod s) (cons s) (xsk_ring_prod__submit (mem s) nb), Done)
  | Peek nb =>
      let '(n, idx, c) := xsk_ring_cons__peek (cons s) (mem s) nb in
      Some (State (prod s) c (mem s), Entries n idx)
  | Read i =>
      v ← znth (ring (mem s)) (xsk_ring_cons__comp_addr (cons s) (consumer (mem s) ⊞ i));
      Some (s, Value v)
  | Release nb => Some (State (prod s) (cons s) (xsk_ring_cons__release (mem s) nb), Done)
  end.

(** The handles after [xsk_umem__create] or [xsk_socket__create]: [cached_prod]
    is left as the caller had it, zero; the kernel starts both indices at zero. *)
Definition init_prod (n : Z) : xsk_ring := XskRing 0 n (n ⊟ 1) n.
Definition init_cons (n : Z) : xsk_ring := XskRing 0 0 (n ⊟ 1) n.
Definition init (slots : list A) : state :=
  State (init_prod (zlen slots)) (init_cons (zlen slots)) (Shared 0 0 slots).

(** ** The specification: a bounded queue *)

(** The entries in the order of their reservation: [taken] by the consumer,
    submitted and waiting in [queue], and [pending] at the producer, which may
    not have written them yet. *)
Record astate := AState { taken : list A; queue : list A; pending : list (option A) }.

Definition used (a : astate) : Z := zlen (taken a) + zlen (queue a) + zlen (pending a).

(** What a side may do: write and submit what it reserved, in order and after
    writing it; read and release what it peeked. *)
Definition legal (a : astate) (o : op) : Prop :=
  match o with
  | Reserve nb => 0 <= nb
  | Write i _ => 0 <= i < zlen (pending a)
  | Submit nb => 0 <= nb <= zlen (pending a) /\ Forall is_Some (take (Z.to_nat nb) (pending a))
  | Peek nb => 0 <= nb < 2 ^ 32
  | Read i => 0 <= i < zlen (taken a)
  | Release nb => 0 <= nb <= zlen (taken a)
  end.

(** [n] is the capacity; [base] the position of the first reserved entry, and
    [base'] that of the first entry not released. *)
Inductive astep (n : Z) (a : astate) : op -> out -> astate -> Prop :=
| a_reserve nb idx :
    used a + nb <= n ->
    astep n a (Reserve nb) (Entries nb (Some idx))
      (AState (taken a) (queue a) (pending a ++ repeat None (Z.to_nat nb)))
| a_full nb :
    n < used a + nb -> astep n a (Reserve nb) (Entries 0 None) a
| a_write i v p :
    zset (pending a) i (Some v) = Some p ->
    astep n a (Write i v) Done (AState (taken a) (queue a) p)
| a_submit nb vs p :
    pending a = map Some vs ++ p -> zlen vs = nb ->
    astep n a (Submit nb) Done (AState (taken a) (queue a ++ vs) p)
| a_peek nb k idx vs q :
    queue a = vs ++ q -> zlen vs = k -> 0 < k <= nb ->
    astep n a (Peek nb) (Entries k (Some idx)) (AState (taken a ++ vs) q (pending a))
| a_empty nb :
    nb = 0 \/ queue a = [] -> astep n a (Peek nb) (Entries 0 None) a
| a_read i v :
    znth (taken a) i = Some v -> astep n a (Read i) (Value v) a
| a_release nb vs t :
    taken a = vs ++ t -> zlen vs = nb ->
    astep n a (Release nb) Done (AState t (queue a) (pending a)).
End ring.
Arguments op : clear implicits.
Arguments out : clear implicits.
Arguments state : clear implicits.
Arguments astate : clear implicits.

(** ** The rings implement the queue *)

Definition entries {A} (a : astate A) : list (option A) :=
  map Some (taken a ++ queue a) ++ pending a.

(** The handles and the shared memory of [s] hold the queue [a] of capacity
    [n]: [base] counts the entries released so far, [cons_seen] those the
    producer knows of, [prod_seen] the entries the consumer knows of. *)
Record holds {A} (n : Z) (s : state A) (a : astate A) (base cons_seen prod_seen : Z) : Prop := {
  h_prod : prod s = XskRing (u32 (base + used a)) (u32 (cons_seen + n)) (n - 1) n;
  h_cons : cons s = XskRing (u32 prod_seen) (u32 (base + zlen (taken a))) (n - 1) n;
  h_producer : producer (mem s) = u32 (base + zlen (taken a) + zlen (queue a));
  h_consumer : consumer (mem s) = u32 base;
  h_size : zlen (ring (mem s)) = n;
  h_cons_seen : cons_seen <= base /\ base + used a <= cons_seen + n;
  h_prod_seen : base + zlen (taken a) <= prod_seen <= base + zlen (taken a) + zlen (queue a);
  h_slots j v : znth (entries a) j = Some (Some v) ->
    znth (ring (mem s)) ((base + j) mod n) = Some v
}.

Lemma mask_index n k x : n = 2 ^ k -> 0 <= k <= 31 -> Z.land (u32 x) (n - 1) = x mod n.
Proof.
  intros -> Hk. rewrite Z.sub_1_r, <- Z.ones_equiv, Z.land_ones by lia. unfold wrap.
  replace (2 ^ 32) with (2 ^ k * 2 ^ (32 - k)) by (rewrite <- Z.pow_add_r by lia; f_equal; lia).
  pose proof (Z.pow_pos_nonneg 2 k). pose proof (Z.pow_pos_nonneg 2 (32 - k)).
  rewrite Z.rem_mul_r by lia. rewrite (Z.mul_comm (2 ^ k) (_ mod _)), Z.mod_add by lia. apply Z.mod_mod. lia.
Qed.

Lemma zlen_map {A B} (f : A -> B) l : zlen (map f l) = zlen l.
Proof. unfold zlen. by rewrite length_map. Qed.

Lemma zlen_repeat {A} (x : A) k : zlen (repeat x k) = Z.of_nat k.
Proof. unfold zlen. by rewrite repeat_length. Qed.

Lemma zlen_entries {A} (a : astate A) : zlen (entries a) = used a.
Proof. unfold entries, used. by rewrite zlen_app, zlen_map, zlen_app. Qed.

(** Two positions less than a ring size apart are different slots. *)
Lemma slot_inj n x i j :
  0 < n -> 0 <= i < n -> 0 <= j < n -> (x + i) mod n = (x + j) mod n -> i = j.
Proof.
  intros Hn Hi Hj H. assert ((i - j) mod n = 0) as Hd.
  { replace (i - j) with ((x + i) - (x + j)) by lia. by rewrite Zminus_mod, H, Z.sub_diag, Zmod_0_l. }
  apply Z.mod_divide in Hd as [q Hq]; [|lia]. clear H. assert (-1 < q < 1) by nia. assert (q = 0) by lia. subst q. lia.
Qed.

Lemma all_Some {A} (l : list (option A)) : Forall is_Some l -> exists vs, l = map Some vs.
Proof.
  induction 1 as [|x l [v ->] _ [vs ->]]; [by exists []|by exists (v :: vs)].
Qed.

Section holds.
Context {A : Type} (n k : Z).
Hypothesis Hn : n = 2 ^ k.
Hypothesis Hk : 0 <= k <= 31.
Implicit Types (s : state A) (a : astate A).

(** The outcome of an operation: defined, allowed by the specification, with
    the index of the first entry, and leaving the queue represented. *)
Definition simulated s a (o : op A) : Prop :=
  exists s' res a', cstep s o = Some (s', res) /\ astep n a o res a' /\
    (exists base cs ps, holds n s' a' base cs ps) /\
    match o, res with
    | Reserve _, Entries _ (Some idx) => idx = producer (mem s) ⊞ zlen (pending a)
    | Peek _, Entries _ (Some idx) => idx = consumer (mem s) ⊞ zlen (taken a)
    | _, _ => True
    end.

Lemma n_range : 1 <= n <= 2 ^ 31.
Proof.
  rewrite Hn. split; [|apply Z.pow_le_mono_r; lia].
  pose proof (Z.pow_pos_nonneg 2 k). lia.
Qed.

Lemma used_nonneg a : 0 <= zlen (taken a) /\ 0 <= zlen (queue a) /\ 0 <= zlen (pending a).
Proof. split_and!; apply zlen_nonneg. Qed.

Lemma nb_free_spec s a base cs ps nb :
  holds n s a base cs ps ->
  exists cs' free, xsk_prod_nb_free (prod s) (mem s) nb = (free, XskRing (u32 (base + used a)) (u32 (cs' + n)) (n - 1) n)
    /\ cs' <= base /\ 0 <= free <= n - used a /\ base + used a + free = cs' + n /\
    (nb <= free \/ free = n - used a).
Proof.
  intros [Hp _ _ Hc _ [Hc1 Hc2] _ _]. pose proof n_range. pose proof (used_nonneg a). unfold xsk_prod_nb_free.
  rewrite Hp. cbn [cached_prod cached_cons mask size].
  assert (0 <= used a) by (unfold used; lia).
  rewrite wrap_sub_l, wrap_sub_r, (wrap_small 32) by (unfold in_range; lia).
  destruct (Z.leb_spec nb (cs + n - (base + used a))) as [Hle|Hgt].
  - exists cs, (cs + n - (base + used a)). split_and!; try done; try lia.
  - rewrite Hc, !wrap_add_l, wrap_sub_l, wrap_sub_r. rewrite (wrap_small 32 (base + n - _)) by (unfold in_range; lia).
    exists base, (base + n - (base + used a)). split_and!; try done; lia.
Qed.

Lemma nb_avail_spec s a base cs ps nb :
  holds n s a base cs ps -> 0 <= nb ->
  exists ps' avail, xsk_cons_nb_avail (cons s) (mem s) nb
      = (avail, XskRing (u32 ps') (u32 (base + zlen (taken a))) (n - 1) n)
    /\ base + zlen (taken a) + avail <= ps' <= base + zlen (taken a) + zlen (queue a)
    /\ 0 <= avail <= nb /\ (0 < avail \/ nb = 0 \/ zlen (queue a) = 0).
Proof.
  intros [_ Hc Hp _ _ [H1 H2] [H3 H4] _] Hnb. pose proof n_range. pose proof (used_nonneg a). unfold xsk_cons_nb_avail.
  rewrite Hc. cbn [cached_prod cached_cons mask size]. unfold used in *.
  rewrite wrap_sub_l, wrap_sub_r, (wrap_small 32) by (unfold in_range; lia).
  destruct (Z.eqb_spec (ps - (base + zlen (taken a))) 0) as [Hz|Hz].
  - rewrite Hp, wrap_sub_l, wrap_sub_r, (wrap_small 32 (_ - _)) by (unfold in_range; lia).
    exists (base + zlen (taken a) + zlen (queue a)). eexists. split; [done|].
    destruct (Z.ltb_spec nb (base + zlen (taken a) + zlen (queue a) - (base + zlen (taken a)))); lia.
  - exists ps. eexists. split; [done|]. destruct (Z.ltb_spec nb (ps - (base + zlen (taken a)))); lia.
Qed.

Lemma sim_reserve s a base cs ps nb : holds n s a base cs ps -> 0 <= nb -> simulated s a (Reserve nb).
Proof.
  intros H Hnb. destruct (nb_free_spec s a base cs ps (u32 nb) H) as (cs' & free & E & Hcs & Hf & Hb & Hd).
  pose proof n_range. pose proof (used_nonneg a). unfold simulated. cbn [cstep]. unfold xsk_ring_prod__reserve.
  rewrite E. destruct (Z.ltb_spec free nb) as [Hlt|Hge].
  - eexists _, _, a. split; [done|]. assert (n - used a < nb) as Hfull.
    { destruct Hd as [Hd|Hd]; [|lia]. destruct (decide (nb < 2 ^ 32)).
      - rewrite wrap_small in Hd by (unfold in_range; lia). lia.
      - unfold used in *. lia. }
    split; [apply a_full; lia|]. split; [|done]. exists base, cs', ps. destruct H. split; try done. split; [done|lia].
  - cbn [cached_prod cached_cons mask size]. eexists _, _, _. split; [done|].
    split; [apply a_reserve; lia|]. split.
    + exists base, cs', ps. destruct H as [P1 P2 P3 P4 P5 P6 P7 P8].
      assert (used (AState (taken a) (queue a) (pending a ++ repeat None (Z.to_nat nb))) = used a + nb) as Hu.
      { unfold used. cbn [taken queue pending]. rewrite zlen_app, zlen_repeat. lia. }
      split; cbn [prod cons mem taken queue pending]; rewrite ?Hu; try done; try lia.
      * f_equal. rewrite wrap_add_l. f_equal. lia.
      * unfold entries. cbn [taken queue pending]. intros j v Hj. apply P8. rewrite app_assoc in Hj. fold (entries a) in Hj.
        destruct (decide (j < zlen (entries a))); [by rewrite znth_app_l in Hj|].
        replace j with (zlen (entries a) + (j - zlen (entries a))) in Hj by lia.
        rewrite znth_app_r in Hj by lia. unfold znth in Hj. case_decide; [|done].
        apply list_elem_of_lookup_2, list_elem_of_In, repeat_spec in Hj. done.
    + destruct H as [_ _ P3 _ _ _ _ _]. rewrite P3, wrap_add_l. unfold used. f_equal. lia.
Qed.
Lemma slot_range x : 0 <= x mod n < n.
Proof. apply Z.mod_pos_bound. pose proof n_range. lia. Qed.

Lemma sim_write s a base cs ps i v :
  holds n s a base cs ps -> 0 <= i < zlen (pending a) -> simulated s a (Write i v).
Proof.
  intros [P1 P2 P3 P4 P5 P6 P7 P8] Hi. pose proof n_range. pose proof (used_nonneg a) as Hu0. pose proof slot_range as Hsr.
  assert (used a <= n) as Hu by lia.
  unfold simulated. cbn [cstep]. unfold xsk_ring_prod__fill_addr. rewrite P1, P3, wrap_add_l. cbn [mask].
  rewrite (mask_index n k) by done. set (x := _ + i).
  destruct (proj2 (zset_is_Some (ring (mem s)) (x mod n) v)) as [slots Es]; [by rewrite P5|].
  destruct (proj2 (zset_is_Some (pending a) i (Some v))) as [p Ep]; [done|].
  rewrite Es. cbn [mbind option_bind]. eexists _, _, _. split; [done|]. split; [by apply a_write|]. split; [|done].
  pose proof (zlen_zset _ _ _ _ Ep) as Hlp. exists base, cs, ps.
  split; cbn [prod cons mem taken queue pending ring producer consumer]; unfold used in *; cbn [taken queue pending];
    rewrite ?Hlp; try done.
  { by rewrite (zlen_zset _ _ _ _ Es). }
  intros j w Hj. rewrite (znth_zset _ _ _ _ _ Es). unfold entries in *. cbn [taken queue pending] in Hj.
  set (M := map Some (taken a ++ queue a)) in *.
  assert (zlen M = zlen (taken a) + zlen (queue a)) as HM by (unfold M; by rewrite zlen_map, zlen_app).
  pose proof (znth_Some_range _ _ _ Hj) as Hjr. rewrite zlen_app, HM, Hlp in Hjr.
  assert (x = base + (zlen M + i)) as -> by (unfold x; lia).
  case_decide as Hs.
  - apply slot_inj in Hs; [|lia..]. subst j. rewrite znth_app_r, (znth_zset _ _ _ _ _ Ep), decide_True in Hj by lia.
    congruence.
  - apply P8. destruct (decide (j < zlen M)); [by rewrite znth_app_l in Hj |- *|].
    replace j with (zlen M + (j - zlen M)) in Hj |- * by lia. rewrite znth_app_r in Hj |- * by lia.
    rewrite (znth_zset _ _ _ _ _ Ep), decide_False in Hj by (intros ->; apply Hs; f_equal; lia). done.
Qed.

Lemma sim_submit s a base cs ps nb :
  holds n s a base cs ps -> 0 <= nb <= zlen (pending a) -> Forall is_Some (take (Z.to_nat nb) (pending a)) ->
  simulated s a (Submit nb).
Proof.
  intros [P1 P2 P3 P4 P5 P6 P7 P8] Hnb Hw. apply all_Some in Hw as [vs Hvs].
  assert (pending a = map Some vs ++ drop (Z.to_nat nb) (pending a)) as Hp by by rewrite <- Hvs, take_drop.
  set (p := drop _ _) in *. assert (zlen vs = nb) as Hlv.
  { rewrite <- (zlen_map Some vs), <- Hvs. unfold zlen in *. rewrite length_take. lia. }
  unfold simulated. cbn [cstep]. eexists _, _, _. split; [done|]. split; [by apply (a_submit n a nb vs p)|]. split; [|done].
  assert (zlen (pending a) = nb + zlen p) as Hlp by (rewrite Hp, zlen_app, zlen_map; lia).
  exists base, cs, ps. unfold xsk_ring_prod__submit, used, entries in *.
  split; cbn [prod cons mem]; unfold used, entries; cbn [taken queue pending ring producer consumer]; rewrite ?zlen_app; try done; try lia.
  - rewrite P1. f_equal. f_equal. lia.
  - rewrite P3, wrap_add_l. f_equal. lia.
  - intros j v Hj. apply P8. rewrite Hp, app_assoc, <- map_app, <- app_assoc. done.
Qed.

Lemma sim_peek s a base cs ps nb :
  holds n s a base cs ps -> 0 <= nb < 2 ^ 32 -> simulated s a (Peek nb).
Proof.
  intros H Hnb. destruct (nb_avail_spec s a base cs ps nb H) as (ps' & av & E & Hps & Hav & Hz); [lia|].
  destruct H as [P1 P2 P3 P4 P5 P6 P7 P8]. pose proof (used_nonneg a) as Hu0.
  unfold simulated. cbn [cstep]. unfold xsk_ring_cons__peek. rewrite (wrap_small 32 nb) by done. rewrite E.
  cbn [cached_prod cached_cons mask size]. destruct (Z.ltb_spec 0 av) as [Hpos|Hneg].
  - set (vs := take (Z.to_nat av) (queue a)). set (q := drop (Z.to_nat av) (queue a)).
    assert (queue a = vs ++ q) as Hq by (unfold vs, q; by rewrite take_drop).
    assert (zlen vs = av) as Hlv by (unfold vs, zlen in *; rewrite length_take; lia).
    assert (zlen (queue a) = av + zlen q) as Hlq by (rewrite Hq, zlen_app; lia).
    eexists _, _, _. split; [done|]. split; [apply (a_peek n a nb av _ vs q); (done || lia)|]. split.
    + exists base, cs, ps'. unfold used, entries in *.
      split; cbn [prod cons mem]; unfold used, entries; cbn [taken queue pending ring producer consumer]; rewrite ?zlen_app; try done; try lia.
      * rewrite P1. f_equal. f_equal. lia.
      * f_equal. rewrite wrap_add_l. f_equal. lia.
      * rewrite P3. f_equal. lia.
      * intros j v Hj. apply P8. by rewrite Hq, app_assoc.
    + by rewrite P4, wrap_add_l.
  - assert (av = 0) as -> by lia. eexists _, _, a. split; [done|]. split.
    + apply a_empty. destruct Hz as [?|[?|Hz]]; [lia|by left|right].
      unfold zlen in Hz. destruct (queue a); [done|cbn in Hz; lia].
    + split; [|done]. exists base, cs, ps'. split; try done. cbn. lia.
Qed.

Lemma sim_read s a base cs ps i :
  holds n s a base cs ps -> 0 <= i < zlen (taken a) -> simulated s a (Read i).
Proof.
  intros [P1 P2 P3 P4 P5 P6 P7 P8] Hi. destruct (proj2 (znth_is_Some (taken a) i) Hi) as [v Ev].
  unfold simulated. cbn [cstep]. unfold xsk_ring_cons__comp_addr. rewrite P2, P4, wrap_add_l. cbn [mask].
  rewrite (mask_index n k) by done. rewrite (P8 i v).
  - cbn [mbind option_bind]. eexists _, _, a. split; [done|]. split; [by apply a_read|]. split; [|done].
    exists base, cs, ps. by split.
  - unfold entries. rewrite map_app, <- app_assoc, znth_app_l by (rewrite zlen_map; lia).
    unfold znth in *. case_decide; [|done]. change (map Some (taken a)) with (Some <$> taken a). by rewrite list_lookup_fmap, Ev.
Qed.

Lemma sim_release s a base cs ps nb :
  holds n s a base cs ps -> 0 <= nb <= zlen (taken a) -> simulated s a (Release nb).
Proof.
  intros [P1 P2 P3 P4 P5 P6 P7 P8] Hnb. pose proof (used_nonneg a) as Hu0.
  set (vs := take (Z.to_nat nb) (taken a)). set (t := drop (Z.to_nat nb) (taken a)).
  assert (taken a = vs ++ t) as Ht by (unfold vs, t; by rewrite take_drop).
  assert (zlen vs = nb) as Hlv by (unfold vs, zlen in *; rewrite length_take; lia).
  assert (zlen (taken a) = nb + zlen t) as Hlt by (rewrite Ht, zlen_app; lia).
  unfold simulated. cbn [cstep]. eexists _, _, _. split; [done|]. split; [by apply (a_release n a nb vs t)|]. split; [|done].
  exists (base + nb), cs, ps. unfold xsk_ring_cons__release, used, entries in *.
  split; cbn [prod cons mem]; unfold used, entries; cbn [taken queue pending ring producer consumer]; try done; try lia.
  - rewrite P1. f_equal. f_equal. lia.
  - rewrite P2. f_equal. f_equal. lia.
  - rewrite P3. f_equal. lia.
  - by rewrite P4, wrap_add_l.
  - intros j v Hj. replace (base + nb + j) with (base + (nb + j)) by lia. apply P8.
    rewrite Ht, <- app_assoc, map_app, <- app_assoc.
    replace (nb + j) with (zlen (map (@Some A) vs) + j) by (rewrite zlen_map; lia).
    rewrite znth_app_r; [done|]. apply znth_Some_range in Hj. lia.
Qed.

Lemma sim_step s a base cs ps o : holds n s a base cs ps -> legal a o -> simulated s a o.
Proof.
  intros H. destruct o; cbn [legal]; intros L.
  - by eapply sim_reserve.
  - by eapply sim_write.
  - destruct L. by eapply sim_submit.
  - by eapply sim_peek.
  - by eapply sim_read.
  - by eapply sim_release.
Qed.
End holds.

(** The two sides and the queue after any interleaving of legal operations. *)
Inductive reach {A} (n : Z) (slots : list A) : state A -> astate A -> Prop :=
| reach_init : reach n slots (init slots) (AState [] [] [])
| reach_step s a o s' res a' :
    reach n slots s a -> legal a o -> cstep s o = Some (s', res) -> astep n a o res a' ->
    reach n slots s' a'.

Lemma app_eq_length {A} (l1 l2 k1 k2 : list A) :
  l1 ++ l2 = k1 ++ k2 -> zlen l1 = zlen k1 -> l1 = k1 /\ l2 = k2.
Proof. unfold zlen. intros H Hl. apply app_inj_1; [lia|done]. Qed.

Lemma map_Some_inj {A} (l k : list A) : map Some l = map Some k -> l = k.
Proof. revert k. induction l as [|x l IH]; intros [|y k]; cbn; try done. intros [= -> ->%IH]. done. Qed.

(** The specification leaves no choice but the number of entries peeked. *)
Lemma astep_det {A} n (a : astate A) o res a1 a2 : astep n a o res a1 -> astep n a o res a2 -> a1 = a2.
Proof.
  intros H1 H2. destruct H1; inversion H2; subst; try done; try congruence; try lia.
  - match goal with E : pending a = _, E' : pending a = _ |- _ => rewrite E in E'; apply app_eq_length in E' as [Ev ->] end.
    + by apply map_Some_inj in Ev as ->.
    + rewrite !zlen_map. congruence.
  - match goal with E : queue a = _, E' : queue a = _ |- _ => rewrite E in E'; apply app_eq_length in E' as [-> ->] end;
      congruence.
  - match goal with E : taken a = _, E' : taken a = _ |- _ => rewrite E in E'; apply app_eq_length in E' as [-> ->] end;
      congruence.
Qed.

Lemma holds_init {A} n k (slots : list A) :
  n = 2 ^ k -> 0 <= k <= 31 -> zlen slots = n -> holds n (init slots) (AState [] [] []) 0 0 0.
Proof.
  intros Hn Hk Hs. pose proof (n_range n k Hn Hk) as Hr.
  assert (n ⊟ 1 = n - 1) as Hm by (apply wrap_small; unfold in_range; lia).
  assert (u32 (0 + n) = n) as Hw by (apply wrap_small; unfold in_range; lia).
  split; cbn [init prod cons mem taken queue pending ring producer consumer]; unfold init_prod, init_cons, used, entries;
    cbn [taken queue pending app map]; rewrite ?Hs, ?Hm, ?Hw; try done; change (@zlen A []) with 0;
    change (@zlen (option A) []) with 0; try lia.
  intros j v Hj%znth_Some_range. change (@zlen (option A) []) with 0 in Hj. lia.
Qed.

Lemma reach_holds {A} n k (slots : list A) s a :
  n = 2 ^ k -> 0 <= k <= 31 -> zlen slots = n -> reach n slots s a ->
  exists base cs ps, holds n s a base cs ps.
Proof.
  intros Hn Hk Hs. induction 1 as [|s a o s' res a' _ (base & cs & ps & IH) Hl Hc Hstep].
  - exists 0, 0, 0. by apply (holds_init n k).
  - destruct (sim_step n k Hn Hk s a base cs ps o IH Hl) as (s2 & res2 & a2 & Hc2 & Ha2 & Hh & _).
    rewrite Hc2 in Hc. injection Hc as -> ->. by rewrite (astep_det n a o res a' a2 Hstep Ha2).
Qed.

Lemma ring_run {A} n k (slots : list A) s a o :
  n = 2 ^ k -> 0 <= k <= 31 -> zlen slots = n -> reach n slots s a -> legal a o ->
  used a <= n /\
  exists s' res a', cstep s o = Some (s', res) /\ astep n a o res a' /\ reach n slots s' a' /\
    match o, res with
    | Reserve _, Entries _ (Some idx) => idx = producer (mem s) ⊞ zlen (pending a)
    | Peek _, Entries _ (Some idx) => idx = consumer (mem s) ⊞ zlen (taken a)
    | _, _ => True
    end.
Proof.
  intros Hn Hk Hs Hr Hl. destruct (reach_holds n k slots s a Hn Hk Hs Hr) as (base & cs & ps & H).
  destruct (sim_step n k Hn Hk s a base cs ps o H Hl) as (s' & res & a' & Hc & Ha & _ & Hi).
  split; [destruct (h_cons_seen _ _ _ _ _ _ H); lia|].
  exists s', res, a'. split_and!; [done|done|by apply (reach_step n slots s a o s' res a')|done].
Qed.

(** C11. However the two sides interleave their operations, each one stays inside
    the ring and does what it does to a bounded queue: a reservation is granted
    exactly when there is room, peeking gives the submitted entries in their
    order and gives one when there is one, and the index returned is that of
    the first entry concerned.  The ring size is a power of two; indices wrap
    around at 2^32. *)
Theorem ring_refines {A} n k (slots : list A) s a o :
  n = 2 ^ k -> 0 <= k <= 31 -> zlen slots = n -> reach n slots s a -> legal a o ->
  used a <= n /\
  exists s' res a', cstep s o = Some (s', res) /\ astep n a o res a' /\ reach n slots s' a' /\
    match o, res with
    | Reserve _, Entries _ (Some idx) => idx = producer (mem s) ⊞ zlen (pending a)
    | Peek _, Entries _ (Some idx) => idx = consumer (mem s) ⊞ zlen (taken a)
    | _, _ => True
    end.
Proof. apply ring_run. Qed.

(** Two entries reserved in a ring of two; a third does not fit. *)
Lemma ring_refines_witness :
  reach 2 [0; 0] (State (XskRing 2 2 1 2) (XskRing 0 0 1 2) (Shared 0 0 [0; 0])) (AState [] [] [None; None]) /\
  used (AState (A := Z) [] [] [None; None]) <= 2 /\
  exists s' res a',
    cstep (State (XskRing 2 2 1 2) (XskRing 0 0 1 2) (Shared 0 0 [0; 0])) (Reserve 1) = Some (s', res) /\
    astep 2 (AState (A := Z) [] [] [None; None]) (Reserve 1) res a' /\ reach 2 [0; 0] s' a' /\
    match res with
    | Entries _ (Some idx) => idx = 0 ⊞ zlen [@None Z; None]
    | _ => True
    end.
Proof.
  assert (reach 2 [0; 0] (State (XskRing 2 2 1 2) (XskRing 0 0 1 2) (Shared 0 0 [0; 0])) (AState [] [] [None; None])) as H.
  { apply (reach_step 2 [0; 0] (init [0; 0]) (AState [] [] []) (Reserve 2) _ (Entries 2 (Some 0))).
    - apply reach_init.
    - cbn. lia.
    - vm_compute. reflexivity.
    - apply (a_reserve 2 (AState (A := Z) [] [] []) 2 0). vm_compute. congruence. }
  split; [exact H|].
  assert (legal (AState (A := Z) [] [] [None; None]) (Reserve 1)) as Hl by (cbn; lia).
  assert (0 <= 1 <= 31) as Hk by lia.
  exact (ring_refines 2 1 [0; 0] _ _ (Reserve 1) eq_refl Hk eq_refl H Hl).
Defined.
