(* ===== verification/XskProg.v ===== *)
(** * The XDP program of an AF_XDP socket (src/libbpf/src/xsk.c)

    The program that redirects a queue to its socket, its two maps, and how a
    socket is entered in them.  The instructions are kept by the names of the
    macros that make them. *)

From S2P Require Export CString Prelude.
From stdpp Require Import gmap list.
Open Scope Z_scope.

(** ** The program *)

Definition XDP_ABORTED := 0.
Definition XDP_PASS := 2.
Definition BPF_FUNC_map_lookup_elem := 1.
Definition BPF_FUNC_redirect_map := 51.

(** Words of 32 bits are loaded and stored; a map's descriptor takes two places. *)
Inductive insn :=
| BPF_LDX_MEM_W (dst src : nat) (off : Z)
| BPF_STX_MEM_W (dst src : nat) (off : Z)
| BPF_MOV64_REG (dst src : nat)
| BPF_ALU64_ADD_IMM (dst : nat) (imm : Z)
| BPF_MOV32_IMM (dst : nat) (imm : Z)
| BPF_LD_MAP_FD (dst : nat) (fd : Z)
| BPF_LD_SECOND
| BPF_JEQ_IMM (dst : nat) (imm off : Z)
| BPF_EMIT_CALL (func : Z)
| BPF_EXIT_INSN.

Definition xsk_prog (qidconf_map_fd xsks_map_fd : Z) : list insn :=
  [ BPF_LDX_MEM_W 1 1 16;
    BPF_STX_MEM_W 10 1 (-4);
    BPF_MOV64_REG 2 10;
    BPF_ALU64_ADD_IMM 2 (-4);
    BPF_LD_MAP_FD 1 qidconf_map_fd; BPF_LD_SECOND;
    BPF_EMIT_CALL BPF_FUNC_map_lookup_elem;
    BPF_MOV64_REG 1 0;
    BPF_MOV32_IMM 0 0;
    BPF_JEQ_IMM 1 0 8;
    BPF_MOV32_IMM 0 2;
    BPF_LDX_MEM_W 1 1 0;
    BPF_JEQ_IMM 1 0 5;
    BPF_LD_MAP_FD 1 xsks_map_fd; BPF_LD_SECOND;
    BPF_LDX_MEM_W 2 10 (-4);
    BPF_MOV32_IMM 3 0;
    BPF_EMIT_CALL BPF_FUNC_redirect_map;
    BPF_EXIT_INSN ].

(** The machine: what a register may hold, the registers and the stack. *)
Inductive value := Num (x : Z) | Ctx | Stack (off : Z) | Map (fd : Z) | Elem (x : Z).
Record machine := Machine { regs : nat -> option value; stack : Z -> option Z }.

Section run.
(** The queue of the packet, an [int] element of a map of descriptor [fd], and
    the verdict of a redirection. *)
Context (rx_queue_index : Z) (lookup : Z -> Z -> option Z) (redirect : Z -> Z -> Z -> Z).

Definition set_reg (r : nat) (v : value) (m : machine) : machine := Machine (fun r' => if (r' =? r)%nat then Some v else regs m r') (stack m).

(** A word at a pointer; the context has the queue at offset 16. *)
Definition load_word (v : value) (off : Z) (m : machine) : option Z :=
  match v with
  | Ctx => if off =? 16 then Some rx_queue_index else None
  | Stack o => stack m (o + off)
  | Elem x => if off =? 0 then Some x else None
  | Num _ | Map _ => None
  end.

(** A call takes registers 1 to 5, which are lost, and gives register 0. *)
Definition clobber (m : machine) : machine := Machine (fun r => if ((1 <=? r) && (r <=? 5))%nat then None else regs m r) (stack m).

Definition call (func : Z) (m : machine) : option machine :=
  if func =? BPF_FUNC_map_lookup_elem then
    match regs m 1%nat, regs m 2%nat with
    | Some (Map fd), Some p =>
        key ← load_word p 0 m;
        Some (set_reg 0 (match lookup fd key with Some x => Elem x | None => Num 0 end) (clobber m))
    | _, _ => None
    end
  else if func =? BPF_FUNC_redirect_map then
    match regs m 1%nat, regs m 2%nat, regs m 3%nat with
    | Some (Map fd), Some (Num key), Some (Num flags) => Some (set_reg 0 (Num (redirect fd key flags)) (clobber m))
    | _, _, _ => None
    end
  else None.

(** One instruction; [None] is what the verifier refuses. *)
Inductive next := Go (pc : Z) (m : machine) | Exit (x : Z).

Definition step (i : insn) (pc : Z) (m : machine) : option next :=
  match i with
  | BPF_LDX_MEM_W dst src off => p ← regs m src; x ← load_word p off m; Some (Go (pc + 1) (set_reg dst (Num x) m))
  | BPF_STX_MEM_W dst src off =>
      p ← regs m dst;
      v ← regs m src;
      match p, v with
      | Stack o, Num x => Some (Go (pc + 1) (Machine (regs m) (fun o' => if o' =? o + off then Some x else stack m o')))
      | _, _ => None
      end
  | BPF_MOV64_REG dst src => v ← regs m src; Some (Go (pc + 1) (set_reg dst v m))
  | BPF_ALU64_ADD_IMM dst imm =>
      v ← regs m dst;
      match v with Stack o => Some (Go (pc + 1) (set_reg dst (Stack (o + imm)) m)) | _ => None end
  | BPF_MOV32_IMM dst imm => Some (Go (pc + 1) (set_reg dst (Num imm) m))
  | BPF_LD_MAP_FD dst fd => Some (Go (pc + 2) (set_reg dst (Map fd) m))
  | BPF_LD_SECOND => None
  | BPF_JEQ_IMM dst imm off =>
      v ← regs m dst;
      match v with
      | Num x => Some (Go (if x =? imm then pc + 1 + off else pc + 1) m)
      | Elem _ => if imm =? 0 then Some (Go (pc + 1) m) else None
      | _ => None
      end
  | BPF_EMIT_CALL func => m ← call func m; Some (Go (pc + 1) m)
  | BPF_EXIT_INSN => v ← regs m 0%nat; match v with Num x => Some (Exit x) | _ => None end
  end.

(** From instruction [pc]. *)
Fixpoint exec (fuel : nat) (prog : list insn) (pc : Z) (m : machine) : option Z :=
  match fuel with
  | O => None
  | S fuel =>
      i ← znth prog pc;
      n ← step i pc m;
      match n with Go pc m => exec fuel prog pc m | Exit x => Some x end
  end.

(** A program starts with its context and its stack. *)
Definition run_xdp (fuel : nat) (prog : list insn) : option Z :=
  exec fuel prog 0 (Machine (fun r => match r with 1 => Some Ctx | 10 => Some (Stack 0) | _ => None end)%nat (fun _ => None)).

(** The C program of the comment. *)
Definition xdp_sock_prog (qidconf_map xsks_map : Z) : Z :=
  match lookup qidconf_map rx_queue_index with
  | None => XDP_ABORTED
  | Some qidconf => if qidconf =? 0 then XDP_PASS else redirect xsks_map rx_queue_index 0
  end.
End run.

Lemma exec_go index lookup redirect fuel prog pc m i pc' m' : znth prog pc = Some i ->
  step index lookup redirect i pc m = Some (Go pc' m') ->
  exec index lookup redirect (S fuel) prog pc m = exec index lookup redirect fuel prog pc' m'.
Proof. intros Hi Hs. cbn [exec]. rewrite Hi. cbn [mbind option_bind]. by rewrite Hs. Qed.

Lemma call_lookup index lookup redirect pc m fd p key : regs m 1%nat = Some (Map fd) -> regs m 2%nat = Some p ->
  load_word index p 0 m = Some key ->
  step index lookup redirect (BPF_EMIT_CALL BPF_FUNC_map_lookup_elem) pc m =
  Some (Go (pc + 1) (set_reg 0 (match lookup fd key with Some x => Elem x | None => Num 0 end) (clobber m))).
Proof. intros H1 H2 H3. cbn [step call]. unfold call. rewrite Z.eqb_refl, H1, H2. cbn [mbind option_bind]. by rewrite H3. Qed.

(** One instruction. *)
Ltac exec_next := erewrite exec_go; [|reflexivity|first [reflexivity | apply call_lookup; reflexivity]].

Lemma xsk_prog_run index lookup redirect qidconf_map xsks_map :
  @run_xdp index lookup redirect (length (xsk_prog qidconf_map xsks_map)) (xsk_prog qidconf_map xsks_map) =
  Some (xdp_sock_prog index lookup redirect qidconf_map xsks_map).
Proof.
  unfold run_xdp, xdp_sock_prog. cbn [length xsk_prog].
  do 6 exec_next. destruct (lookup qidconf_map index) as [x|]; [|do 3 exec_next; reflexivity].
  do 6 exec_next. destruct (x =? 0); [reflexivity|]. do 4 exec_next. reflexivity.
Qed.

(** C31. The instructions that are loaded do what the C program they were made
    from says, within as many steps as there are instructions: a packet of a queue
    without entry is aborted, of a queue with value 0 passed, and otherwise
    redirected to the socket of the queue. *)
Theorem xsk_prog_spec index lookup redirect qidconf_map xsks_map :
  @run_xdp index lookup redirect (length (xsk_prog qidconf_map xsks_map)) (xsk_prog qidconf_map xsks_map) =
  Some (xdp_sock_prog index lookup redirect qidconf_map xsks_map).
Proof. apply xsk_prog_run. Qed.
