(* ===== verification/XskKernel.v ===== *)
(** * What AF_XDP sockets ask of the kernel

    The system calls of src/libbpf/src/xsk.c, with the calls it makes into the
    rest of the library, and what they do to the open descriptors, the contents
    of maps and the mappings of the process. *)

From S2P Require Export XskProg StateMonad.
From stdpp Require Import gmap list.
Open Scope Z_scope.

(** [struct xdp_ring_offset] of the four rings. *)
Record xdp_ring_offset := RingOffset { o_producer : Z; o_consumer : Z; o_desc : Z }.
Record xdp_mmap_offsets := MmapOffsets { off_rx : xdp_ring_offset; off_tx : xdp_ring_offset; off_fr : xdp_ring_offset; off_cr : xdp_ring_offset }.

(** The options that are set on a socket. *)
Inductive xdp_option :=
| XDP_UMEM_REG (addr len chunk_size headroom : Z)
| XDP_UMEM_FILL_RING (n : Z)
| XDP_UMEM_COMPLETION_RING (n : Z)
| XDP_RX_RING (n : Z)
| XDP_TX_RING (n : Z).

(** What an error of a system call gives is its [errno]; an error of a function
    of the library is what it returns. *)
Class XskKernel (K : Type) := {
  sys_socket : Z -> K -> result Z * K;
  sys_close : Z -> K -> K;
  sys_setsockopt : Z -> xdp_option -> K -> result unit * K;
  sys_getsockopt : Z -> K -> result xdp_mmap_offsets;
  sys_mmap : Z -> Z -> Z -> K -> result Z * K;            (* length, descriptor, page offset *)
  sys_munmap : Z -> Z -> K -> result unit * K;            (* address, length *)
  sys_bind : Z -> Z -> Z -> Z -> K -> result unit * K;    (* descriptor, interface, queue, flags *)
  if_nametoindex : str -> K -> result Z;
  ethtool_channels : Z -> str -> K -> result Z;           (* [max_combined] *)
  bpf_create_map_name : Z -> str -> Z -> K -> result Z * K; (* type, name, entries *)
  bpf_load_program : list insn -> K -> result Z * K;
  bpf_set_link_xdp_fd : Z -> Z -> Z -> K -> result unit * K;
  bpf_get_link_xdp_id : Z -> Z -> K -> result Z;
  bpf_prog_get_fd_by_id : Z -> K -> Z * K;
  bpf_prog_map_ids : Z -> K -> result (list Z);           (* of [bpf_obj_get_info_by_fd] *)
  bpf_map_get_fd_by_id : Z -> K -> result Z * K;          (* errno *)
  bpf_map_name : Z -> K -> result str;
  bpf_map_update_elem : Z -> Z -> Z -> K -> result unit * K }.

(** What a descriptor stands for. *)
Inductive file := MapFile (id : Z) | OtherFile.
#[export] Instance file_eq_dec : EqDecision file.
Proof. solve_decision. Defined.

(** The descriptors and maps. *)
Class XskKernelLaws (K : Type) `{XskKernel K} := {
  fds : K -> gmap Z file;
  mappings : K -> gmap Z Z;                               (* address and length *)
  page_size : Z;
  map_name_of : Z -> str;
  contents : K -> Z -> Z -> option Z;                     (* of a map's entry *)
  close_fds fd k : fds (sys_close fd k) = delete fd (fds k);
  close_rest fd k : mappings (sys_close fd k) = mappings k /\ contents (sys_close fd k) = contents k;
  socket_law d k : match sys_socket d k with
    | (Ok fd, k') => 0 <= fd /\ fds k !! fd = None /\ fds k' = <[fd := OtherFile]> (fds k) /\ mappings k' = mappings k
    | (Err _, k') => fds k' = fds k /\ mappings k' = mappings k end;
  setsockopt_law fd o k : let k' := (sys_setsockopt fd o k).2 in fds k' = fds k /\ mappings k' = mappings k;
  bind_law fd i q fl k : let k' := (sys_bind fd i q fl k).2 in fds k' = fds k /\ mappings k' = mappings k;
  mmap_law len fd pg k : match sys_mmap len fd pg k with
    | (Ok a, k') => mappings k !! a = None /\ a mod page_size = 0 /\ mappings k' = <[a := len]> (mappings k) /\ fds k' = fds k
    | (Err _, k') => mappings k' = mappings k /\ fds k' = fds k end;
  (** Only an address on a page, and only a mapping there. *)
  munmap_fds a len k : fds (sys_munmap a len k).2 = fds k;
  munmap_unaligned a len k : a mod page_size <> 0 -> mappings (sys_munmap a len k).2 = mappings k;
  munmap_whole a len k : a mod page_size = 0 -> mappings k !! a = Some len -> mappings (sys_munmap a len k).2 = delete a (mappings k);
  map_fd_law id k : match bpf_map_get_fd_by_id id k with
    | (Ok fd, k') => 0 <= fd /\ fds k !! fd = None /\ fds k' = <[fd := MapFile id]> (fds k) /\ contents k' = contents k
    | (Err _, k') => fds k' = fds k /\ contents k' = contents k end;
  map_name_law fd id k name : fds k !! fd = Some (MapFile id) -> bpf_map_name fd k = Ok name -> name = map_name_of id;
  update_law fd id key v k : fds k !! fd = Some (MapFile id) -> match bpf_map_update_elem fd key v k with
    | (Ok _, k') => fds k' = fds k /\ forall i j, contents k' i j = if decide (i = id /\ j = key) then Some v else contents k i j
    | (Err _, k') => fds k' = fds k /\ contents k' = contents k end
}.

(** ** A kernel *)

(** A script says which requests are refused, by errno; 0 is none.  A program
    that is attached has the maps 1 and 2. *)
Record ex_xdp := ExXdp {
  xk_fds : gmap Z file; xk_mappings : gmap Z Z; xk_contents : gmap (Z * Z) Z; xk_attached : bool; xk_script : list Z }.

Definition ex_answer (k : ex_xdp) : Z := default 0 (head (xk_script k)).
Definition ex_next (k : ex_xdp) : ex_xdp := ExXdp (xk_fds k) (xk_mappings k) (xk_contents k) (xk_attached k) (tail (xk_script k)).
Definition ex_ok (k : ex_xdp) : result unit * ex_xdp := (if ex_answer k =? 0 then Ok tt else Err (ex_answer k), ex_next k).

Definition ex_above (l : list Z) : Z := foldr Z.max 0 l + 1.
Definition ex_free_fd (k : ex_xdp) : Z := Z.max 3 (ex_above (map_to_list (xk_fds k)).*1).
Definition ex_free_page (k : ex_xdp) : Z := 4096 * ex_above (List.map (fun a => a / 4096) (map_to_list (xk_mappings k)).*1).

Definition ex_give_fd (f : file) (code : Z -> Z) (k : ex_xdp) : result Z * ex_xdp :=
  if ex_answer k =? 0 then
    (Ok (ex_free_fd k), ExXdp (<[ex_free_fd k := f]> (xk_fds k)) (xk_mappings k) (xk_contents k) (xk_attached k) (tail (xk_script k)))
  else (Err (code (ex_answer k)), ex_next k).

Definition ex_map_name (id : Z) : str := if id =? 1 then lit "qidconf_map" else if id =? 2 then lit "xsks_map" else lit "other".

#[export] Instance ex_xdp_ops : XskKernel ex_xdp := {
  sys_socket _ := ex_give_fd OtherFile (fun e => e);
  sys_close fd k := ExXdp (delete fd (xk_fds k)) (xk_mappings k) (xk_contents k) (xk_attached k) (xk_script k);
  sys_setsockopt _ _ := ex_ok;
  sys_getsockopt _ _ := let r := RingOffset 0 64 320 in Ok (MmapOffsets r r r r);
  sys_mmap len _ _ k :=
    if ex_answer k =? 0 then
      (Ok (ex_free_page k), ExXdp (xk_fds k) (<[ex_free_page k := len]> (xk_mappings k)) (xk_contents k) (xk_attached k) (tail (xk_script k)))
    else (Err (ex_answer k), ex_next k);
  sys_munmap a len k :=
    if a mod 4096 =? 0 then
      (Ok tt, if decide (xk_mappings k !! a = Some len) then
         ExXdp (xk_fds k) (delete a (xk_mappings k)) (xk_contents k) (xk_attached k) (xk_script k) else k)
    else (Err 22, k);
  sys_bind _ _ _ _ := ex_ok;
  if_nametoindex _ _ := Ok 4;
  ethtool_channels _ _ _ := Ok 4;
  bpf_create_map_name _ name _ := ex_give_fd (MapFile (if decide (name = lit "qidconf_map") then 1 else 2)) (fun _ => -1);
  bpf_load_program _ := ex_give_fd OtherFile (fun _ => -1);
  bpf_set_link_xdp_fd _ _ _ k :=
    let '(r, k) := ex_ok k in (r, ExXdp (xk_fds k) (xk_mappings k) (xk_contents k) (xk_attached k || match r with Ok _ => true | Err _ => false end) (xk_script k));
  bpf_get_link_xdp_id _ _ k := Ok (if xk_attached k then 1 else 0);
  bpf_prog_get_fd_by_id _ k := match ex_give_fd OtherFile (fun e => e) k with (Ok fd, k) => (fd, k) | (Err _, k) => (-1, k) end;
  bpf_prog_map_ids fd k := if fd <? 0 then Err (-1) else Ok [1; 2];
  bpf_map_get_fd_by_id id := ex_give_fd (MapFile id) (fun e => e);
  bpf_map_name fd k := match xk_fds k !! fd with Some (MapFile id) => Ok (ex_map_name id) | _ => Err (-1) end;
  bpf_map_update_elem fd key v k :=
    match xk_fds k !! fd with
    | Some (MapFile id) =>
        if ex_answer k =? 0 then
          (Ok tt, ExXdp (xk_fds k) (xk_mappings k) (<[(id, key) := v]> (xk_contents k)) (xk_attached k) (tail (xk_script k)))
        else (Err (-1), ex_next k)
    | _ => (Err (-1), k)
    end }.

Lemma ex_above_spec l x : x ∈ l -> x < ex_above l.
Proof.
  unfold ex_above. induction l as [|y l IH]; intros Hx; [by apply not_elem_of_nil in Hx|]. cbn.
  apply elem_of_cons in Hx as [->|Hx]; [lia|]. specialize (IH Hx). lia.
Qed.

Lemma ex_free_fd_spec k : 0 <= ex_free_fd k /\ xk_fds k !! ex_free_fd k = None.
Proof.
  unfold ex_free_fd. split; [lia|]. destruct (xk_fds k !! _) as [f|] eqn:E; [|done]. apply elem_of_map_to_list, (list_elem_of_fmap_2 fst), ex_above_spec in E.
  cbn in E. lia.
Qed.

Lemma ex_free_page_spec k : xk_mappings k !! ex_free_page k = None /\ ex_free_page k mod 4096 = 0.
Proof.
  split; [|unfold ex_free_page; by rewrite Z.mul_comm, Z.mod_mul].
  destruct (xk_mappings k !! _) as [len|] eqn:E; [|done]. apply elem_of_map_to_list, (list_elem_of_fmap_2 fst) in E. cbn [fst] in E.
  apply (list_elem_of_fmap_2 (fun a => a / 4096)), ex_above_spec in E. revert E. unfold ex_free_page. rewrite (Z.mul_comm 4096), Z.div_mul by done.
  intros E. change (List.map (fun a => a / 4096) (map_to_list (xk_mappings k)).*1) with ((fun a => a / 4096) <$> (map_to_list (xk_mappings k)).*1) in E. lia.
Qed.

Lemma ex_give_fd_spec f code k : match ex_give_fd f code k with
  | (Ok fd, k') => 0 <= fd /\ xk_fds k !! fd = None /\ xk_fds k' = <[fd := f]> (xk_fds k) /\ xk_mappings k' = xk_mappings k /\ xk_contents k' = xk_contents k
  | (Err _, k') => xk_fds k' = xk_fds k /\ xk_mappings k' = xk_mappings k /\ xk_contents k' = xk_contents k end.
Proof. unfold ex_give_fd. destruct (ex_free_fd_spec k). by destruct (ex_answer k =? 0). Qed.

#[export] Instance ex_xdp_laws : XskKernelLaws ex_xdp.
Proof.
  unshelve refine {| fds := xk_fds; mappings := xk_mappings; page_size := 4096; map_name_of := ex_map_name; contents k i j := xk_contents k !! (i, j) |}.
  - done.
  - done.
  - intros d k. pose proof (ex_give_fd_spec OtherFile (fun e => e) k) as Hg. cbn. destruct (ex_give_fd _ _ _) as [[fd|e] k']; tauto.
  - done.
  - done.
  - intros len fd pg k. cbn. destruct (ex_free_page_spec k). by destruct (ex_answer k =? 0).
  - intros a len k. cbn. destruct (_ =? 0); [|done]. cbn. by destruct (decide _).
  - intros a len k Ha. cbn. by rewrite (proj2 (Z.eqb_neq _ _)).
  - intros a len k Ha Hm. cbn. rewrite Ha. cbn. by rewrite decide_True.
  - intros id k. pose proof (ex_give_fd_spec (MapFile id) (fun e => e) k) as Hg. cbn. destruct (ex_give_fd _ _ _) as [[fd|e] k'].
    + destruct Hg as (H1 & H2 & H3 & _ & ->). by split_and!.
    + destruct Hg as (H1 & _ & ->). by split.
  - intros fd id k name Hf. cbn. rewrite Hf. by intros [= <-].
  - intros fd id key v k Hf. cbn. rewrite Hf. destruct (ex_answer k =? 0); [|done]. split; [done|]. intros i j. cbn.
    destruct (decide (i = id /\ j = key)) as [[-> ->]|Hne]; [by rewrite lookup_insert_eq|]. rewrite lookup_insert_ne; [done|]. intros [= -> ->]. by apply Hne.
Defined.
