(* ===== verification/XskMaps.v ===== *)
(** * The maps of an AF_XDP socket (src/libbpf/src/xsk.c)

    Loading the program and its maps, or finding those of the program that is
    attached already, and entering the socket's queue in them. *)

From S2P Require Export XskKernel.
From stdpp Require Import gmap list.
Open Scope Z_scope.

Definition AF_INET := 2.
Definition BPF_MAP_TYPE_ARRAY := 2.
Definition BPF_MAP_TYPE_XSKMAP := 17.
Definition EOPNOTSUPP := 95.
Definition qidconf_map : str := lit "qidconf_map".
Definition xsks_map : str := lit "xsks_map".

Record xsk_socket_config := SocketConfig { rx_size : Z; tx_size : Z; libbpf_flags : Z; xdp_flags : Z; bind_flags : Z }.

(** [struct xsk_socket], without the rings, which are the caller's. *)
Record xsk_socket := XskSocket {
  x_config : xsk_socket_config; x_fd : Z; ifindex : Z; prog_fd : Z; qidconf_map_fd : Z; xsks_map_fd : Z;
  queue_id : Z; ifname : str }.

Definition set_prog_fd (x : xsk_socket) fd := XskSocket (x_config x) (x_fd x) (ifindex x) fd (qidconf_map_fd x) (xsks_map_fd x) (queue_id x) (ifname x).
Definition set_qidconf_fd (x : xsk_socket) fd := XskSocket (x_config x) (x_fd x) (ifindex x) (prog_fd x) fd (xsks_map_fd x) (queue_id x) (ifname x).
Definition set_xsks_fd (x : xsk_socket) fd := XskSocket (x_config x) (x_fd x) (ifindex x) (prog_fd x) (qidconf_map_fd x) fd (queue_id x) (ifname x).

(** ** Calls *)

Section calls.
Context {X K : Type} `{XskKernel K}.
Local Abbreviation M := (ST (X * nat * K)).

(** The objects of the caller, the requests of memory and the kernel. *)
Definition xsk_calls {A} (f : K -> A * K) : M A := fun '(x, n, k) => let '(a, k) := f k in Some (Ok a, (x, n, k)).
Definition xsk_get : M X := fun s => Some (Ok s.1.1, s).
Definition xsk_set (f : X -> X) : M unit := fun '(x, n, k) => Some (Ok tt, (f x, n, k)).
Definition xsk_ask {A} (f : K -> A) : M A := fun s => Some (Ok (f s.2), s).
Definition xsk_malloc (alloc : nat -> bool) : M bool := fun '(x, n, k) => Some (Ok (alloc n), (x, S n, k)).
Definition xsk_close (fd : Z) : M unit := xsk_calls (fun k => (tt, sys_close fd k)).
Definition or_fail {A} (r : result A) : M A := match r with Ok a => ret a | Err e => fail e end.
(** With the errno of a system call. *)
Definition or_errno {A} (r : result A) : M A := match r with Ok a => ret a | Err errno => fail (- errno) end.
End calls.

Section maps.
Context {K : Type} `{XskKernel K}.
(** The allocator's answers; what [errno] is when [ioctl] succeeds. *)
Context (alloc : nat -> bool) (stale_errno : Z).

Abbreviation XM := (ST (xsk_socket * nat * K)).

Definition xsk_get_max_queues : XM Z :=
  let* x := xsk_get in
  let* r := xsk_calls (sys_socket AF_INET) in
  let* fd := or_errno r in
  let* r := xsk_ask (ethtool_channels fd (take 16 (ifname x))) in
  let* _ := xsk_close fd in
  match r with
  | Err errno => if errno =? EOPNOTSUPP then ret 1 else fail (- errno)
  | Ok max_combined => ret (if (max_combined =? 0) || (stale_errno =? EOPNOTSUPP) then 1 else s32 max_combined)
  end.

Definition xsk_create_bpf_maps : XM unit :=
  let* max_queues := xsk_get_max_queues in
  if max_queues <? 0 then fail max_queues else
  let* r := xsk_calls (bpf_create_map_name BPF_MAP_TYPE_ARRAY qidconf_map max_queues) in
  let* fd := or_fail r in
  let* _ := xsk_set (fun x => set_qidconf_fd x fd) in
  let* r := xsk_calls (bpf_create_map_name BPF_MAP_TYPE_XSKMAP xsks_map max_queues) in
  match r with
  | Err e => let* _ := xsk_close fd in fail e
  | Ok fd => xsk_set (fun x => set_xsks_fd x fd)
  end.

Definition xsk_delete_bpf_maps : XM unit :=
  let* x := xsk_get in
  let* _ := xsk_close (qidconf_map_fd x) in
  xsk_close (xsks_map_fd x).

Definition xsk_load_xdp_prog : XM unit :=
  let* x := xsk_get in
  let* r := xsk_calls (bpf_load_program (xsk_prog (qidconf_map_fd x) (xsks_map_fd x))) in
  let* fd := or_fail r in
  let* r := xsk_calls (bpf_set_link_xdp_fd (ifindex x) fd (xdp_flags (x_config x))) in
  match r with
  | Err e => let* _ := xsk_close fd in fail e
  | Ok _ => xsk_set (fun x => set_prog_fd x fd)
  end.

(** The maps in which the queue has been entered. *)
Record updated := Updated { qidconf_map_updated : bool; xsks_map_updated : bool }.

(** One map of the program. *)
Definition update_map (qidconf_value xsks_value : Z) (id : Z) (u : updated) : XM updated :=
  let* r := xsk_calls (bpf_map_get_fd_by_id id) in
  let* fd := or_errno r in
  let* r := xsk_ask (bpf_map_name fd) in
  let* name := or_fail r in
  let* x := xsk_get in
  if decide (name = qidconf_map) then
    let* r := xsk_calls (bpf_map_update_elem fd (queue_id x) qidconf_value) in
    let* _ := or_fail r in
    let* _ := xsk_set (fun x => set_qidconf_fd x fd) in
    ret (Updated true (xsks_map_updated u))
  else if decide (name = xsks_map) then
    let* r := xsk_calls (bpf_map_update_elem fd (queue_id x) xsks_value) in
    let* _ := or_fail r in
    let* _ := xsk_set (fun x => set_xsks_fd x fd) in
    ret (Updated (qidconf_map_updated u) true)
  else ret u.

(** The loop; the error of a map and what was updated by then. *)
Fixpoint update_maps (qidconf_value xsks_value : Z) (ids : list Z) (u : updated) : XM (result unit * updated) :=
  match ids with
  | [] => ret (if qidconf_map_updated u && xsks_map_updated u then Ok tt else Err (- ENOENT), u)
  | id :: ids =>
      let* r := try (update_map qidconf_value xsks_value id u) in
      match r with
      | Err e => ret (Err e, u)
      | Ok u => if qidconf_map_updated u && xsks_map_updated u then ret (Ok tt, u)
                else update_maps qidconf_value xsks_value ids u
      end
  end.

(** Behind the labels [out_maps] and [out_success]. *)
Definition reset_maps (u : updated) : XM unit :=
  let* x := xsk_get in
  let* _ := (if qidconf_map_updated u then
      let* _ := xsk_calls (bpf_map_update_elem (qidconf_map_fd x) (queue_id x) 0) in ret tt else ret tt) in
  if xsks_map_updated u then
    let* _ := xsk_calls (bpf_map_update_elem (xsks_map_fd x) (queue_id x) 0) in ret tt
  else ret tt.
Definition close_maps (u : updated) : XM unit :=
  let* x := xsk_get in
  let* _ := (if qidconf_map_updated u then xsk_close (qidconf_map_fd x) else ret tt) in
  if xsks_map_updated u then xsk_close (xsks_map_fd x) else ret tt.

Definition xsk_update_bpf_maps (qidconf_value xsks_value : Z) : XM unit :=
  let* x := xsk_get in
  let* r := xsk_ask (bpf_prog_map_ids (prog_fd x)) in
  let* _ := or_fail r in
  let* mem := xsk_malloc alloc in
  if negb mem then fail (- ENOMEM) else
  let* r := xsk_ask (bpf_prog_map_ids (prog_fd x)) in
  let* ids := or_fail r in
  let* ru := update_maps qidconf_value xsks_value ids (Updated false false) in
  let* _ := (match ru.1 with Ok _ => ret tt | Err _ => reset_maps ru.2 end) in
  let* _ := close_maps ru.2 in
  or_fail ru.1.

Definition xsk_setup_xdp_prog : XM unit :=
  let* x := xsk_get in
  let* r := xsk_ask (bpf_get_link_xdp_id (ifindex x) (xdp_flags (x_config x))) in
  let* prog_id := or_fail r in
  let prog_attached := prog_id =? 0 in
  let* _ := (if prog_attached then
      let* _ := xsk_create_bpf_maps in
      let* r := try xsk_load_xdp_prog in
      match r with
      | Ok _ => ret tt
      | Err e => let* _ := xsk_delete_bpf_maps in fail e
      end
    else
      let* fd := xsk_calls (bpf_prog_get_fd_by_id prog_id) in
      xsk_set (fun x => set_prog_fd x fd)) in
  let* x := xsk_get in
  let* r := try (xsk_update_bpf_maps 1 (x_fd x)) in
  match r with
  | Ok _ => ret tt
  | Err e =>
      let* x := xsk_get in
      let* _ := (if prog_attached then let* _ := xsk_close (prog_fd x) in xsk_delete_bpf_maps else ret tt) in
      fail e
  end.
End maps.

(** ** Entering a queue *)

Section update.
Context {K : Type} `{XskKernelLaws K}.
Context (q qidconf_value xsks_value : Z) (k0 : K) (ids : list Z).
Local Abbreviation XS := (xsk_socket * nat * K)%type.
(** No two maps of the program have one name. *)
Hypothesis Hnames : NoDup (map_name_of <$> ids).

(** Descriptor [fd], opened since, is map [id]. *)
Definition opened_map (k : K) (fd id : Z) : Prop := fds k0 !! fd = None /\ fds k !! fd = Some (MapFile id).

(** A map of that name that is open. *)
Definition entered (k : K) (v : list Z) (name : str) (fd : Z) : Prop :=
  exists id, id ∈ v /\ map_name_of id = name /\ opened_map k fd id.

(** After the maps [v]. *)
Record visited_maps (v : list Z) (u : updated) (s : XS) : Prop := {
  vm_queue : queue_id s.1.1 = q;
  vm_kept fd f : fds k0 !! fd = Some f -> fds s.2 !! fd = Some f;
  vm_new fd f : fds k0 !! fd = None -> fds s.2 !! fd = Some f -> exists id, id ∈ v /\ f = MapFile id;
  vm_once fd fd' id : opened_map s.2 fd id -> opened_map s.2 fd' id -> fd = fd';
  vm_qidconf : qidconf_map_updated u = true -> entered s.2 v qidconf_map (qidconf_map_fd s.1.1);
  vm_xsks : xsks_map_updated u = true -> entered s.2 v xsks_map (xsks_map_fd s.1.1);
  vm_contents i j : contents s.2 i j = (if decide (j = q /\ i ∈ ids /\ qidconf_map_updated u = true /\ map_name_of i = qidconf_map) then Some qidconf_value
    else if decide (j = q /\ i ∈ ids /\ xsks_map_updated u = true /\ map_name_of i = xsks_map) then Some xsks_value
    else contents k0 i j)
}.

Lemma names_inj i j : i ∈ ids -> j ∈ ids -> map_name_of i = map_name_of j -> i = j.
Proof using Hnames.
  intros [a Ha]%list_elem_of_lookup [b Hb]%list_elem_of_lookup E.
  assert (a = b) as -> by (eapply NoDup_lookup; [exact Hnames|by rewrite list_lookup_fmap, Ha|rewrite list_lookup_fmap, Hb; cbn; by rewrite E]).
  congruence.
Qed.

Lemma ids_nodup : NoDup ids.
Proof using Hnames. by eapply NoDup_fmap_1. Qed.

Lemma names_apart : qidconf_map <> xsks_map.
Proof using. by vm_compute. Qed.

Lemma entered_more k v v' name fd : (forall i, i ∈ v -> i ∈ v') -> entered k v name fd -> entered k v' name fd.
Proof using. intros Hv (id & Hi & Hn & Ho). exists id. auto. Qed.

Lemma visited_more v v' u s : (forall i, i ∈ v -> i ∈ v') -> visited_maps v u s -> visited_maps v' u s.
Proof using.
  intros Hv [V1 V2 V3 V4 V5 V6 V7]. split; try done.
  - intros fd f Hn Hf. destruct (V3 fd f Hn Hf) as (id & Hi & E). exists id. auto.
  - intros Hu. eapply entered_more; eauto.
  - intros Hu. eapply entered_more; eauto.
Qed.

(** A map that is opened stays described. *)
Lemma visited_open v id u x n k k' fd : (id ∉ v) -> fds k !! fd = None -> fds k' = <[fd := MapFile id]> (fds k) -> contents k' = contents k ->
  visited_maps v u (x, n, k) -> visited_maps (id :: v) u (x, n, k') /\ opened_map k' fd id.
Proof using.
  intros Hni Hn Ef Ec [V1 V2 V3 V4 V5 V6 V7]. cbn [fst snd] in *.
  assert (fds k0 !! fd = None) as Hn0.
  { destruct (fds k0 !! fd) as [f|] eqn:E; [|done]. apply V2 in E. congruence. }
  assert (forall fd' f, fds k0 !! fd' = None -> fds k' !! fd' = Some f -> fd' = fd /\ f = MapFile id \/ fds k !! fd' = Some f) as Hnew.
  { intros fd' f _ Hf. rewrite Ef in Hf. destruct (decide (fd' = fd)) as [->|Hne]; [left|right].
    - rewrite lookup_insert_eq in Hf. by injection Hf as <-.
    - by rewrite lookup_insert_ne in Hf. }
  assert (forall fd' i, opened_map k fd' i -> opened_map k' fd' i) as Hkeep.
  { intros fd' i [H1' H2']. split; [done|]. rewrite Ef, lookup_insert_ne; [done|]. intros ->. congruence. }
  assert (forall name fd', entered k v name fd' -> entered k' (id :: v) name fd') as Hent.
  { intros name fd' (i & Hi & En & Ho). exists i. split; [by right|]. split; [done|]. by apply Hkeep. }
  split; [split|]; cbn [fst snd]; try done.
  - intros fd' f Hf. rewrite Ef, lookup_insert_ne; [by apply V2|]. intros ->. congruence.
  - intros fd' f H1' H2'. destruct (Hnew _ _ H1' H2') as [[-> ->]|Hf]; [exists id; split; [by left|done]|].
    destruct (V3 _ _ H1' Hf) as (i & Hi & E). exists i. split; [by right|done].
  - assert (forall fd' i, opened_map k' fd' i -> fd' = fd /\ i = id \/ opened_map k fd' i /\ i <> id) as Hcase.
    { intros fd' i [H1' H2']. destruct (Hnew _ _ H1' H2') as [[-> E]|Hf]; [left; by injection E as ->|right].
      split; [by split|]. intros ->. destruct (V3 _ _ H1' Hf) as (i & Hi & E). injection E as ->. done. }
    intros fd1 fd2 i [[-> ->]|[Ho1 Hi1]]%Hcase [[-> ?]|[Ho2 Hi2]]%Hcase; try done; [by eapply V4].
  - intros Hu. by apply Hent, V5.
  - intros Hu. by apply Hent, V6.
  - intros i j. by rewrite Ec, V7.
  - split; [done|]. by rewrite Ef, lookup_insert_eq.
Qed.

(** One of the two maps is updated; which one, by name. *)
Lemma update_map_run v id u s : id ∈ ids -> (forall i, i ∈ v -> i ∈ ids) -> (id ∉ v) -> visited_maps v u s ->
  runs False (fun _ s' => visited_maps (id :: v) u s') (fun u' s' => visited_maps (id :: v) u' s')
    (update_map qidconf_value xsks_value id u) s.
Proof using Hnames.
  destruct s as [[x n] k]. intros Hid Hv Hni Hvis. unfold update_map. apply run_bind. unfold runs at 1, xsk_calls.
  pose proof (map_fd_law id k) as Hfd. destruct (bpf_map_get_fd_by_id id k) as [[fd|err] k1]; cbn [or_errno].
  2: { destruct Hfd as [Ef Ec]. apply run_bind, run_fail. apply (visited_more v); [by right|]. destruct Hvis as [V1 V2 V3 V4 V5 V6 V7].
    split; cbn [fst snd] in *; unfold entered, opened_map in *; rewrite ?Ef, ?Ec; auto. }
  destruct Hfd as (_ & Hn & Ef & Ec). destruct (visited_open v id u x n k k1 fd Hni Hn Ef Ec Hvis) as [Hvis1 Ho].
  apply run_bind, run_ret, run_bind. unfold runs at 1, xsk_ask. cbn [snd]. destruct (bpf_map_name fd k1) as [name|err] eqn:En; cbn [or_fail].
  2: by apply run_bind, run_fail.
  apply run_bind, run_ret, run_bind. unfold runs at 1, xsk_get. cbn [fst].
  pose proof (map_name_law fd id k1 name (proj2 Ho) En) as Ename. pose proof (vm_queue _ _ _ Hvis1) as Hq. cbn [fst] in Hq.
  assert (forall val (u' : updated) (f : xsk_socket -> xsk_socket),
    (forall k2, fds k2 = fds k1 -> (forall i j, contents k2 i j = if decide (i = id /\ j = q) then Some val else contents k1 i j) ->
      visited_maps (id :: v) u' (f x, n, k2)) ->
    runs False (fun _ s' => visited_maps (id :: v) u s') (fun u' s' => visited_maps (id :: v) u' s')
      (let* r := xsk_calls (bpf_map_update_elem fd (queue_id x) val) in let* _ := or_fail r in let* _ := xsk_set f in ret u') (x, n, k1)) as Hup.
  { intros val u' f Hok. apply run_bind. unfold runs at 1, xsk_calls. pose proof (update_law fd id (queue_id x) val k1 (proj2 Ho)) as Hl.
    destruct (bpf_map_update_elem fd (queue_id x) val k1) as [[[]|err] k2]; destruct Hl as [Ef2 Ec2]; cbn [or_fail].
    - apply run_bind, run_ret, run_bind. unfold runs at 1, xsk_set. apply run_ret, Hok; [done|]. intros i j. by rewrite Ec2, Hq.
    - apply run_bind, run_fail. destruct Hvis1 as [V1 V2 V3 V4 V5 V6 V7].
      split; cbn [fst snd] in *; unfold entered, opened_map in *; rewrite ?Ef2, ?Ec2; auto. }
  destruct (decide (name = qidconf_map)) as [E1|N1]; [|destruct (decide (name = xsks_map)) as [E2|N2]; [|by apply run_ret]].
  - apply (Hup qidconf_value (Updated true (xsks_map_updated u)) (fun x => set_qidconf_fd x fd)). intros k2 Ef2 Ec2.
    destruct Hvis1 as [V1 V2 V3 V4 V5 V6 V7]. split; cbn [fst snd qidconf_map_updated xsks_map_updated] in *; unfold entered, opened_map in *; rewrite ?Ef2; auto.
    + intros _. exists id. split; [by left|]. split; [congruence|exact Ho].
    + intros i j. rewrite Ec2, V7. destruct (decide (i = id /\ j = q)) as [[-> ->]|Hne].
      * rewrite decide_True; [done|]. split_and!; congruence || done.
      * destruct (decide (j = q /\ i ∈ ids /\ true = true /\ map_name_of i = qidconf_map)) as [(-> & Hi & _ & Hni')|Hno].
        -- exfalso. apply Hne. split; [|done]. apply names_inj; [done|done|congruence].
        -- rewrite (decide_False (P := j = q /\ i ∈ ids /\ qidconf_map_updated u = true /\ _)); [done|]. tauto.
  - apply (Hup xsks_value (Updated (qidconf_map_updated u) true) (fun x => set_xsks_fd x fd)). intros k2 Ef2 Ec2.
    destruct Hvis1 as [V1 V2 V3 V4 V5 V6 V7]. split; cbn [fst snd qidconf_map_updated xsks_map_updated] in *; unfold entered, opened_map in *; rewrite ?Ef2; auto.
    + intros _. exists id. split; [by left|]. split; [congruence|exact Ho].
    + intros i j. rewrite Ec2, V7. pose proof names_apart. destruct (decide (i = id /\ j = q)) as [[-> ->]|Hne].
      * rewrite decide_False by (intros (_ & _ & _ & E); congruence). rewrite decide_True; [done|]. split_and!; congruence || done.
      * destruct (decide (j = q /\ i ∈ ids /\ qidconf_map_updated u = true /\ _)) as [|_]; [done|].
        destruct (decide (j = q /\ i ∈ ids /\ true = true /\ map_name_of i = xsks_map)) as [(-> & Hi & _ & Hni')|Hno].
        -- exfalso. apply Hne. split; [|done]. apply names_inj; [done|done|congruence].
        -- rewrite decide_False; [done|]. tauto.
Qed.

Lemma update_maps_run : forall todo v u s, ids ≡ₚ todo ++ v -> visited_maps v u s ->
  runs False (fun _ _ => False)
    (fun ru s' => exists v', (forall i, i ∈ v' -> i ∈ ids) /\ visited_maps v' ru.2 s' /\
      (ru.1 = Ok tt -> qidconf_map_updated ru.2 = true /\ xsks_map_updated ru.2 = true))
    (update_maps qidconf_value xsks_value todo u) s.
Proof using Hnames.
  induction todo as [|id todo IH]; intros v u s Hp Hv; cbn [update_maps].
  - apply run_ret. exists v. split; [intros i Hi; by rewrite Hp|]. split; [done|]. cbn.
    destruct (qidconf_map_updated u), (xsks_map_updated u); done.
  - assert (id ∈ ids) as Hid by (rewrite Hp; by left).
    assert (forall i, i ∈ v -> i ∈ ids) as Hsub by (intros i Hi; rewrite Hp; apply elem_of_app; by right).
    pose proof ids_nodup as Hnd. rewrite Hp in Hnd. cbn in Hnd. apply list.NoDup_cons in Hnd as [Hni _].
    assert (forall i, i ∈ id :: v -> i ∈ ids) as Hsub' by (intros i [->|Hi]%elem_of_cons; auto).
    apply run_bind, run_try. eapply run_impl; [apply (update_map_run v); [done|done|intros Hi; apply Hni, elem_of_app; by right|exact Hv]|done| |].
    + intros err s' Hv'. apply run_ret. exists (id :: v). by split_and!.
    + intros u' s' Hv'. destruct (qidconf_map_updated u' && xsks_map_updated u') eqn:E.
      * apply run_ret. exists (id :: v). split; [done|]. split; [done|]. intros _. by apply andb_true_iff in E.
      * apply (IH (id :: v)); [|done]. rewrite Hp. cbn. by rewrite Permutation_middle.
Qed.

(** What is left open are maps of the program. *)
Definition leaves_maps (k : K) : Prop :=
  (forall fd f, fds k0 !! fd = Some f -> fds k !! fd = Some f) /\
  (forall fd f, fds k0 !! fd = None -> fds k !! fd = Some f -> exists id, id ∈ ids /\ f = MapFile id).

(** Only entries of the queue in the two maps have changed. *)
Definition touches (k : K) : Prop :=
  forall i j, contents k i j = contents k0 i j \/
    j = q /\ i ∈ ids /\ (map_name_of i = qidconf_map \/ map_name_of i = xsks_map).

Definition done_maps (u : updated) (s : XS) : Prop := exists v, (forall i, i ∈ v -> i ∈ ids) /\ visited_maps v u s.

Lemma done_touches u s : done_maps u s -> touches s.2.
Proof using.
  intros (v & _ & Hv) i j. rewrite (vm_contents _ _ _ Hv). destruct (decide _) as [(-> & Hi & _ & E)|_]; [by right; auto|].
  destruct (decide _) as [(-> & Hi & _ & E)|_]; [by right; auto|by left].
Qed.

(** Closing the two maps. *)
Lemma leave_maps_run u s0 s : done_maps u s0 -> s.1 = s0.1 -> fds s.2 = fds s0.2 ->
  runs False (fun _ _ => False) (fun _ s' => leaves_maps s'.2 /\ contents s'.2 = contents s.2 /\
      (qidconf_map_updated u = true -> xsks_map_updated u = true -> length ids = 2%nat -> fds s'.2 = fds k0))
    (close_maps u) s.
Proof using Hnames.
  destruct s as [[x n] k]. intros (v & Hsub & [V1 V2 V3 V4 V5 V6 V7]) Es Efs. cbn [fst snd] in *. rewrite <- Es in *. unfold entered, opened_map in *.
  rewrite <- Efs in *. cbn [fst] in *.
  assert (exists k', close_maps u (x, n, k) = Some (Ok tt, (x, n, k')) /\ contents k' = contents k /\
    forall fd, fds k' !! fd = if decide ((qidconf_map_updated u = true /\ fd = qidconf_map_fd x) \/ (xsks_map_updated u = true /\ fd = xsks_map_fd x)) then None else fds k !! fd)
    as (k' & E & Ec & Ef).
  { unfold close_maps, bind, xsk_get, xsk_close, xsk_calls. cbn.
    destruct (qidconf_map_updated u), (xsks_map_updated u); cbn; eexists; (split; [done|]);
      rewrite ?(proj2 (close_rest _ _)), ?close_fds; (split; [done|]); intros fd; rewrite ?lookup_delete; repeat case_decide; intuition congruence. }
  unfold runs. rewrite E. cbn [snd]. split; [|split; [done|]].
  - split.
    + intros fd f Hf. rewrite Ef, decide_False; [by apply V2|]. intros [[Hu ->]|[Hu ->]].
      * destruct (V5 Hu) as (id & _ & _ & Hn & _). congruence.
      * destruct (V6 Hu) as (id & _ & _ & Hn & _). congruence.
    + intros fd f Hn Hf. rewrite Ef in Hf. destruct (decide _); [done|]. destruct (V3 fd f Hn Hf) as (id & Hi & ->). exists id. auto.
  - intros Hq Hx Hl. destruct (V5 Hq) as (a & Ha & Na & Oa), (V6 Hx) as (b & Hb & Nb & Ob). apply map_eq. intros fd. rewrite Ef.
    destruct (decide _) as [[[_ ->]|[_ ->]]|Hd]; [by rewrite (proj1 Oa)|by rewrite (proj1 Ob)|].
    destruct (fds k0 !! fd) as [f|] eqn:E0; [by apply V2|]. destruct (fds k !! fd) as [f|] eqn:E1; [|done]. exfalso. apply Hd.
    destruct (V3 fd f E0 E1) as (id & Hi & ->). assert (id = a \/ id = b) as [->| ->].
    { pose proof names_apart. assert (a <> b) as Hne by congruence.
      assert ([a; b] ≡ₚ ids) as Hp.
      { apply submseteq_length_Permutation; [|cbn; lia].
        apply NoDup_submseteq; [apply list.NoDup_cons; split; [by rewrite list_elem_of_singleton|apply NoDup_singleton]|]. intros z Hz. rewrite !elem_of_cons in Hz. destruct Hz as [->|[->|Hz]]; [auto|auto|by apply not_elem_of_nil in Hz]. }
      apply Hsub in Hi. rewrite <- Hp in Hi. rewrite !elem_of_cons in Hi. destruct Hi as [?|[?|Hz]]; [auto|auto|by apply not_elem_of_nil in Hz]. }
    + left. split; [done|]. by apply (V4 fd _ a).
    + right. split; [done|]. by apply (V4 fd _ b).
Qed.

(** Taking the entries back. *)
Definition taken_back (k : K) : Prop :=
  (forall fd id k, fds k !! fd = Some (MapFile id) -> (bpf_map_update_elem fd q 0 k).1 = Ok tt) ->
  forall i j, contents k i j = contents k0 i j \/ contents k i j = Some 0.

Lemma reset_one fd id k : fds k !! fd = Some (MapFile id) -> exists r k', bpf_map_update_elem fd q 0 k = (r, k') /\ fds k' = fds k /\
  ((forall i j, contents k' i j = contents k i j) /\ r <> Ok tt \/
   (forall i j, contents k' i j = if decide (i = id /\ j = q) then Some 0 else contents k i j)).
Proof using.
  intros Hf. pose proof (update_law fd id q 0 k Hf) as Hl. destruct (bpf_map_update_elem fd q 0 k) as [[[]|e] k'];
    destruct Hl as [Ef Ec]; eexists _, k'; (split; [done|]); (split; [done|]).
  - right. intros i j. by rewrite Ec.
  - left. split; [|done]. intros i j. by rewrite Ec.
Qed.

Lemma reset_maps_run u s : done_maps u s ->
  runs False (fun _ _ => False) (fun _ s' => s'.1 = s.1 /\ fds s'.2 = fds s.2 /\ touches s'.2 /\ taken_back s'.2) (reset_maps u) s.
Proof using Hnames.
  destruct s as [[x n] k]. intros Hd. pose proof (done_touches _ _ Hd) as Ht. destruct Hd as (v & Hsub & [V1 V2 V3 V4 V5 V6 V7]). cbn [fst snd] in *.
  (* the entry of one map *)
  assert (forall (b : bool) fd k, (b = true -> exists id, id ∈ ids /\ (map_name_of id = qidconf_map \/ map_name_of id = xsks_map) /\ fds k !! fd = Some (MapFile id)) ->
    touches k -> exists k', (if b then let* _ := xsk_calls (bpf_map_update_elem fd (queue_id x) 0) in ret tt else ret tt) (x, n, k) = Some (Ok tt, (x, n, k')) /\
      fds k' = fds k /\ touches k' /\
      ((forall fd id k, fds k !! fd = Some (MapFile id) -> (bpf_map_update_elem fd q 0 k).1 = Ok tt) ->
        forall i j, contents k' i j = (if decide (b = true /\ fds k !! fd = Some (MapFile i) /\ j = q) then Some 0 else contents k i j))) as Hone.
  { intros b fd k1 Hb Ht1. destruct b.
    2: { exists k1. by split_and!. }
    destruct (Hb eq_refl) as (id & Hid & Hn & Hf). destruct (reset_one fd id k1 Hf) as (r & k2 & E & Ef & Hc). rewrite V1.
    exists k2. unfold bind, xsk_calls. rewrite E. split; [done|]. split; [done|]. split.
    - intros i j. destruct Hc as [[Hc _]|Hc]; rewrite Hc; [apply Ht1|]. destruct (decide _) as [[-> ->]|]; [right; auto|apply Ht1].
    - intros Hr i j. specialize (Hr fd id k1 Hf). rewrite E in Hr. cbn in Hr. destruct Hc as [[_ Hc]|Hc]; [done|]. rewrite Hc.
      destruct (decide (i = id /\ j = q)) as [[-> ->]|Hne]; [by rewrite decide_True|].
      rewrite decide_False; [done|]. intros (_ & E2 & ->). apply Hne. rewrite Hf in E2. by injection E2 as ->. }
  destruct (Hone (qidconf_map_updated u) (qidconf_map_fd x) k) as (k1 & E1 & F1 & T1 & R1).
  { intros Hu. destruct (V5 Hu) as (id & Hi & Hn & Ho). exists id. split_and!; [by apply Hsub|by left|apply Ho]. }
  { exact Ht. }
  destruct (Hone (xsks_map_updated u) (xsks_map_fd x) k1) as (k2 & E2 & F2 & T2 & R2).
  { intros Hu. rewrite F1. destruct (V6 Hu) as (id & Hi & Hn & Ho). exists id. split_and!; [by apply Hsub|by right|apply Ho]. }
  { exact T1. }
  unfold runs, reset_maps. unfold bind at 1, xsk_get at 1. cbn [fst]. unfold bind at 1. rewrite E1, E2. split; [done|]. cbn [snd].
  split; [by rewrite F2|]. split; [done|]. intros Hr i j. rewrite (R2 Hr), (R1 Hr).
  destruct (decide (xsks_map_updated u = true /\ _)) as [_|N1]; [by right|].
  destruct (decide (qidconf_map_updated u = true /\ _)) as [_|N2]; [by right|]. rewrite V7.
  destruct (decide (j = q /\ i ∈ ids /\ qidconf_map_updated u = true /\ _)) as [(-> & Hi & Hu & E)|_].
  { exfalso. apply N2. destruct (V5 Hu) as (id & Hid & En & Ho). assert (id = i) as -> by (apply names_inj; [by apply Hsub|done|congruence]).
    split_and!; [done|apply Ho|done]. }
  destruct (decide (j = q /\ i ∈ ids /\ xsks_map_updated u = true /\ _)) as [(-> & Hi & Hu & E)|_]; [|by left].
  exfalso. apply N1. destruct (V6 Hu) as (id & Hid & En & Ho). assert (id = i) as -> by (apply names_inj; [by apply Hsub|done|congruence]).
  split_and!; [done|rewrite F1; apply Ho|done].
Qed.
End update.

Lemma update_bpf_maps_run {K : Type} `{XskKernelLaws K} alloc qidconf_value xsks_value x n (k : K) ids :
  alloc n = true -> bpf_prog_map_ids (prog_fd x) k = Ok ids -> NoDup (map_name_of <$> ids) ->
  exists r x' n' k', xsk_update_bpf_maps alloc qidconf_value xsks_value (x, n, k) = Some (r, (x', n', k')) /\
    touches (queue_id x) k ids k' /\ leaves_maps k ids k' /\
    match r with
    | Ok _ => (exists i, i ∈ ids /\ map_name_of i = qidconf_map /\ contents k' i (queue_id x) = Some qidconf_value) /\
        (exists i, i ∈ ids /\ map_name_of i = xsks_map /\ contents k' i (queue_id x) = Some xsks_value) /\
        (length ids = 2%nat -> fds k' = fds k)
    | Err _ => taken_back (queue_id x) k k'
    end.
Proof.
  intros Ha Hids Hnames.
  assert (visited_maps (queue_id x) qidconf_value xsks_value k ids [] (Updated false false) (x, S n, k)) as Hv0.
  { split; cbn [fst snd qidconf_map_updated xsks_map_updated]; try done.
    - intros fd f Hn Hf. congruence.
    - intros fd fd' id [Hn Hf]. congruence.
    - intros i j. rewrite !decide_False by (intros (_ & _ & E & _); done). done. }
  unfold xsk_update_bpf_maps, bind at 1, xsk_get. cbn [fst snd]. unfold bind at 1, xsk_ask. cbn [snd]. rewrite Hids. unfold bind at 1. cbn [or_fail ret].
  unfold bind at 1, xsk_malloc. rewrite Ha. cbn [negb]. unfold bind at 1, xsk_ask. cbn [snd]. rewrite Hids. unfold bind at 1. cbn [or_fail ret].
  destruct (run_elim _ _ _ _ (update_maps_run (queue_id x) qidconf_value xsks_value k ids Hnames ids [] (Updated false false) (x, S n, k)
    ltac:(by rewrite app_nil_r) Hv0)) as ([[r u]|] & s1 & E1 & Hr1); [|done].
  destruct Hr1 as (v & Hsub & Hv & Hok). unfold bind at 1. rewrite E1. cbn [fst snd] in *.
  assert (done_maps (queue_id x) qidconf_value xsks_value k ids u s1) as Hd by by exists v.
  destruct r as [[]|e].
  - unfold bind at 1. cbn [ret].
    destruct (run_elim _ _ _ _ (leave_maps_run (queue_id x) qidconf_value xsks_value k ids Hnames u s1 s1 Hd eq_refl eq_refl))
      as ([[]|] & [[x' n'] k'] & E2 & Hr2); [|done]. unfold bind at 1. rewrite E2. destruct Hr2 as (Hl & Hc & Hf). cbn [snd] in *.
    exists (Ok tt), x', n', k'. split; [done|]. destruct (Hok eq_refl) as [Hq Hx]. rewrite Hc.
    split; [intros i j; rewrite Hc; by eapply done_touches|]. split; [done|]. pose proof (vm_contents _ _ _ _ _ _ _ _ Hv) as V7.
    split; [|split; [|by auto]].
    + destruct (vm_qidconf _ _ _ _ _ _ _ _ Hv Hq) as (i & Hi & En & _). exists i. split_and!; [by apply Hsub|done|].
      rewrite V7, decide_True; [done|]. split_and!; try done. by apply Hsub.
    + destruct (vm_xsks _ _ _ _ _ _ _ _ Hv Hx) as (i & Hi & En & _). exists i. split_and!; [by apply Hsub|done|]. pose proof names_apart.
      rewrite V7, decide_False by (intros (_ & _ & _ & E); congruence). rewrite decide_True; [done|]. split_and!; try done. by apply Hsub.
  - destruct (run_elim _ _ _ _ (reset_maps_run (queue_id x) qidconf_value xsks_value k ids Hnames u s1 Hd)) as ([[]|] & s2 & E2 & Hr2); [|done].
    destruct Hr2 as (Es & Ef & Ht & Hb). unfold bind at 1. rewrite E2.
    destruct (run_elim _ _ _ _ (leave_maps_run (queue_id x) qidconf_value xsks_value k ids Hnames u s1 s2 Hd Es Ef))
      as ([[]|] & [[x' n'] k'] & E3 & Hr3); [|done]. unfold bind at 1. rewrite E3. destruct Hr3 as (Hl & Hc & _). cbn [snd] in *.
    exists (Err e), x', n', k'. split; [done|]. split; [intros i j; rewrite Hc; apply Ht|]. split; [done|].
    intros Hr i j. rewrite Hc. by apply Hb.
Qed.

(** Entering a queue in the maps of the attached program ends.  Only the
    entries of the queue in maps named qidconf_map and xsks_map change; on success
    they are the values given, on an error what was entered is set to 0 again.
    Descriptors that were open stay so; the others opened are of maps of the
    program, and none is left of a program with just these two maps. *)
Theorem update_bpf_maps_spec {K : Type} `{XskKernelLaws K} alloc qidconf_value xsks_value x n (k : K) ids :
  alloc n = true -> bpf_prog_map_ids (prog_fd x) k = Ok ids -> NoDup (map_name_of <$> ids) ->
  exists r x' n' k', xsk_update_bpf_maps alloc qidconf_value xsks_value (x, n, k) = Some (r, (x', n', k')) /\
    touches (queue_id x) k ids k' /\ leaves_maps k ids k' /\
    match r with
    | Ok _ => (exists i, i ∈ ids /\ map_name_of i = qidconf_map /\ contents k' i (queue_id x) = Some qidconf_value) /\
        (exists i, i ∈ ids /\ map_name_of i = xsks_map /\ contents k' i (queue_id x) = Some xsks_value) /\
        (length ids = 2%nat -> fds k' = fds k)
    | Err _ => taken_back (queue_id x) k k'
    end.
Proof. apply update_bpf_maps_run. Qed.

(** ** A socket and its maps *)

Definition ex_xsk : xsk_socket := XskSocket (SocketConfig 64 64 0 0 0) 3 4 0 0 0 0 (lit "eth0").
Definition ex_xdp_at (attached : bool) (script : list Z) : ex_xdp := ExXdp {[3 := OtherFile]} ∅ ∅ attached script.
Definition ex_setup (script : list Z) := xsk_setup_xdp_prog (fun _ => true) 0 (ex_xsk, 0%nat, ex_xdp_at false script).

(** Without a program on the interface one is attached, with its maps; their
    descriptors and that of the program stay open and unknown to the socket. *)
Example ex_setup_leaks : match ex_setup [] with
  | Some (Ok _, (x, _, k)) => xk_contents k = {[(1, 0) := 1; (2, 0) := 3]} /\
      map_to_list (xk_fds k) ≡ₚ [(3, OtherFile); (4, MapFile 1); (5, MapFile 2); (6, OtherFile)] /\
      (prog_fd x, qidconf_map_fd x, xsks_map_fd x) = (6, 7, 8)
  | _ => False
  end.
Proof. vm_compute. split_and!; [reflexivity|solve_Permutation|reflexivity]. Qed.

(** When the queue cannot be entered the program stays attached. *)
Example ex_setup_stays : match ex_setup [0; 0; 0; 0; 0; 0; 1] with
  | Some (Err e, (x, _, k)) => e = -1 /\ xk_attached k = true
  | _ => False
  end.
Proof. vm_compute. by split. Qed.

Lemma update_bpf_maps_spec_witness :
  let x := set_prog_fd ex_xsk 7 in let k := ex_xdp_at true [] in
  exists r x' n' k', xsk_update_bpf_maps (fun _ => true) 1 3 (x, 0%nat, k) = Some (r, (x', n', k')) /\
    touches 0 k [1; 2] k' /\ leaves_maps k [1; 2] k' /\
    match r with
    | Ok _ => (exists i, i ∈ [1; 2] /\ map_name_of i = qidconf_map /\ contents k' i 0 = Some 1) /\
        (exists i, i ∈ [1; 2] /\ map_name_of i = xsks_map /\ contents k' i 0 = Some 3) /\
        (length [1; 2] = 2%nat -> fds k' = fds k)
    | Err _ => taken_back 0 k k'
    end.
Proof.
  intros x k. apply (update_bpf_maps_spec (fun _ => true) 1 3 x 0 k [1; 2]); [reflexivity|reflexivity|].
  apply (bool_decide_unpack _). vm_compute. exact I.
Defined.
