(* ===== verification/XskQueues.v ===== *)
(** * The queues of an AF_XDP socket (src/libbpf/src/xsk.c)

    The program of [xsk_load_xdp_prog] decides by its two maps what becomes of a
    packet; [xsk_update_bpf_maps] enters a queue in them.  Here the two are put
    together: what the library writes for a socket, the instructions it loaded
    read back for every packet. *)

From S2P Require Import XskProg XskMaps.
From stdpp Require Import gmap list.
Open Scope Z_scope.

Section queues.
Context {K : Type} `{XskKernelLaws K}.
(** The verdict of a redirection to what a map holds for the queue. *)
Context (redirect_to : option Z -> Z).

(** A packet of queue [j], by the program with the maps [iq] and [ix]. *)
Definition verdict (k : K) (iq ix j : Z) : option Z :=
  run_xdp j (contents k) (fun m key _ => redirect_to (contents k m key)) (length (xsk_prog iq ix)) (xsk_prog iq ix).

Lemma verdict_entries k iq ix j : verdict k iq ix j =
  Some match contents k iq j with
       | None => XDP_ABORTED
       | Some v => if v =? 0 then XDP_PASS else redirect_to (contents k ix j)
       end.
Proof. unfold verdict. by rewrite xsk_prog_run. Qed.

(** A map of the program is known by its name. *)
Lemma same_map (ids : list Z) i i' : NoDup (map_name_of <$> ids) -> i ∈ ids -> i' ∈ ids -> map_name_of i = map_name_of i' -> i = i'.
Proof.
  intros Hd (a & Ha)%list_elem_of_lookup (b & Hb)%list_elem_of_lookup E.
  assert (a = b) as ->; [|congruence]. apply (NoDup_lookup _ a b (map_name_of i) Hd); rewrite list_lookup_fmap; [by rewrite Ha|by rewrite Hb, E].
Qed.
End queues.


(** ** Two queues of an interface *)

(** Socket 3 is on queue 0; queue 1 has none. *)
Definition ex_entered : ex_xdp := ExXdp {[3 := OtherFile]} ∅ {[(1, 0) := 1; (2, 0) := 3; (1, 1) := 0]} true [].
Definition ex_redirect (entry : option Z) : Z := match entry with Some fd => if fd =? 0 then XDP_ABORTED else 100 + fd | None => XDP_ABORTED end.
Definition ex_queue (q : Z) : xsk_socket := XskSocket (SocketConfig 64 64 0 0 0) 5 4 7 0 0 q (lit "eth0").

