(* ===== verification/XskSocket.v ===== *)
(** * AF_XDP memory and sockets (src/libbpf/src/xsk.c)

    Registering a packet memory with its two rings and binding a socket with its
    own two: which descriptors and mappings they take, that the rings start as
    the ring functions expect, and what is given back on errors and on deletion. *)

From S2P Require Export XskMaps Xsk.
From stdpp Require Import gmap list.
Open Scope Z_scope.

Definition AF_XDP := 44.
Definition EFAULT := 14.
Definition XDP_PGOFF_RX_RING := 0.
Definition XDP_PGOFF_TX_RING := 0x80000000.
Definition XDP_UMEM_PGOFF_FILL_RING := 0x100000000.
Definition XDP_UMEM_PGOFF_COMPLETION_RING := 0x180000000.
Definition XSK_LIBBPF_FLAGS__INHIBIT_PROG_LOAD := 1.
Definition XSK_RING_CONS__DEFAULT_NUM_DESCS := 2048.
Definition XSK_RING_PROD__DEFAULT_NUM_DESCS := 2048.
Definition XSK_UMEM__DEFAULT_FRAME_SIZE := 2048.
Definition XSK_UMEM__DEFAULT_FRAME_HEADROOM := 0.
Definition sizeof_u64 := 8.
Definition sizeof_xdp_desc := 16.

Record xsk_umem_config := UmemConfig { fill_size : Z; comp_size : Z; frame_size : Z; frame_headroom : Z }.

(** A ring structure of the caller: the indices it caches, and where the
    producer, the consumer and the entries are mapped. *)
Record handle := Handle { h_ix : xsk_ring; h_producer : Z; h_consumer : Z; h_ring : Z }.

(** [fill] and [comp] are the addresses of the caller's structures. *)
Record xsk_umem := XskUmem {
  u_fill : Z; u_comp : Z; umem_area : Z; u_config : xsk_umem_config; u_fd : Z; refcount : Z }.
Definition set_refcount (u : xsk_umem) r := XskUmem (u_fill u) (u_comp u) (umem_area u) (u_config u) (u_fd u) r.

Definition xsk_set_umem_config (usr_cfg : option xsk_umem_config) : xsk_umem_config :=
  default (UmemConfig XSK_RING_PROD__DEFAULT_NUM_DESCS XSK_RING_CONS__DEFAULT_NUM_DESCS
    XSK_UMEM__DEFAULT_FRAME_SIZE XSK_UMEM__DEFAULT_FRAME_HEADROOM) usr_cfg.
Definition xsk_set_xdp_socket_config (usr_cfg : option xsk_socket_config) : xsk_socket_config :=
  default (SocketConfig XSK_RING_CONS__DEFAULT_NUM_DESCS XSK_RING_PROD__DEFAULT_NUM_DESCS 0 0 0) usr_cfg.

Definition xsk_umem__fd (u : option xsk_umem) : Z := match u with Some u => u_fd u | None => - EINVAL end.
Definition xsk_socket__fd (x : option xsk_socket) : Z := match x with Some x => x_fd x | None => - EINVAL end.

(** A producer's and a consumer's structure for the mapping at [map]. *)
Definition prod_ring (h : handle) (size map : Z) (off : xdp_ring_offset) : handle :=
  Handle (XskRing (cached_prod (h_ix h)) size (size ⊟ 1) size) (map + o_producer off) (map + o_consumer off) (map + o_desc off).
Definition cons_ring (h : handle) (size map : Z) (off : xdp_ring_offset) : handle :=
  Handle (XskRing (cached_prod (h_ix h)) (cached_cons (h_ix h)) (size ⊟ 1) size) (map + o_producer off) (map + o_consumer off) (map + o_desc off).

(** The length of a mapping, a [size_t]. *)
Definition ring_length (off : xdp_ring_offset) (size entry : Z) : Z := wrap 64 (o_desc off + size * entry).

Section socket.
Context {K : Type} `{XskKernel K}.
(** The allocator's answers, [errno] when [ioctl] succeeds, and [getpagesize]. *)
Context (alloc : nat -> bool) (stale_errno pagesize : Z).

Definition xsk_page_aligned (buffer : Z) : bool := Z.land buffer (pagesize - 1) =? 0.

(** A computation on one of two structures. *)
Definition set_fst {A B} (f : A -> A) (x : A * B) : A * B := (f x.1, x.2).
Definition set_snd {A B} (f : B -> B) (x : A * B) : A * B := (x.1, f x.2).

(** *** The memory *)

(** The caller's structures of the fill and the completion ring. *)
Abbreviation UM := (ST ((handle * handle) * nat * K)).

Definition umem_rings (u : xsk_umem) (size : Z) : UM unit :=
  let c := u_config u in
  let* r := xsk_calls (sys_setsockopt (u_fd u) (XDP_UMEM_REG (umem_area u) size (frame_size c) (frame_headroom c))) in
  let* _ := or_errno r in
  let* r := xsk_calls (sys_setsockopt (u_fd u) (XDP_UMEM_FILL_RING (fill_size c))) in
  let* _ := or_errno r in
  let* r := xsk_calls (sys_setsockopt (u_fd u) (XDP_UMEM_COMPLETION_RING (comp_size c))) in
  let* _ := or_errno r in
  let* r := xsk_ask (sys_getsockopt (u_fd u)) in
  let* off := or_errno r in
  let* r := xsk_calls (sys_mmap (ring_length (off_fr off) (fill_size c) sizeof_u64) (u_fd u) XDP_UMEM_PGOFF_FILL_RING) in
  let* map := or_errno r in
  let* _ := xsk_set (set_fst (fun h => prod_ring h (fill_size c) map (off_fr off))) in
  let* r := xsk_calls (sys_mmap (ring_length (off_cr off) (comp_size c) sizeof_u64) (u_fd u) XDP_UMEM_PGOFF_COMPLETION_RING) in
  match r with
  | Err errno =>
      let* _ := xsk_calls (sys_munmap (u_fill u) (ring_length (off_fr off) (fill_size c) sizeof_u64)) in
      fail (- errno)
  | Ok map => xsk_set (set_snd (fun h => cons_ring h (comp_size c) map (off_cr off)))
  end.

(** Addresses of 0 are [NULL]. *)
Definition xsk_umem__create (umem_ptr umem_area size fill comp : Z) (usr_config : option xsk_umem_config) : UM xsk_umem :=
  if (umem_area =? 0) || (umem_ptr =? 0) || (fill =? 0) || (comp =? 0) then fail (- EFAULT)
  else if (size =? 0) && negb (xsk_page_aligned umem_area) then fail (- EINVAL)
  else
    let* mem := xsk_malloc alloc in
    if negb mem then fail (- ENOMEM) else
    let* r := xsk_calls (sys_socket AF_XDP) in
    let* fd := or_errno r in
    let umem := XskUmem fill comp umem_area (xsk_set_umem_config usr_config) fd 0 in
    let* r := try (umem_rings umem size) in
    match r with
    | Ok _ => ret umem
    | Err err => let* _ := xsk_close fd in fail err
    end.

Definition xsk_umem__delete (umem : option xsk_umem) : UM unit :=
  match umem with
  | None => ret tt
  | Some u =>
      if negb (refcount u =? 0) then fail (- EBUSY) else
      let* hs := xsk_get in
      let* r := xsk_ask (sys_getsockopt (u_fd u)) in
      let* _ := (match r with
        | Ok off =>
            let* _ := xsk_calls (sys_munmap (h_ring hs.1) (ring_length (off_fr off) (fill_size (u_config u)) sizeof_u64)) in
            let* _ := xsk_calls (sys_munmap (h_ring hs.2) (ring_length (off_cr off) (comp_size (u_config u)) sizeof_u64)) in
            ret tt
        | Err _ => ret tt
        end) in
      xsk_close (u_fd u)
  end.

(** *** The socket *)

(** The caller's structures of the receive and the transmit ring, and the memory. *)
Abbreviation SM := (ST ((handle * handle) * xsk_umem * nat * K)).

(** A computation on the socket. *)
Definition on_socket (x : xsk_socket) (c : ST (xsk_socket * nat * K) unit) : SM xsk_socket := fun '(hs, n, k) =>
  '(r, (x, n, k)) ← c (x, n, k); Some (match r with Ok _ => Ok x | Err e => Err e end, (hs, n, k)).

Definition unmap_ring (ring_at : Z) (off : xdp_ring_offset) (size : Z) : SM unit :=
  let* _ := xsk_calls (sys_munmap ring_at (ring_length off size sizeof_xdp_desc)) in ret tt.

(** Binding the socket and its program. *)
Definition bind_socket (x : xsk_socket) : SM xsk_socket :=
  let c := x_config x in
  let* r := xsk_calls (sys_bind (x_fd x) (ifindex x) (queue_id x) (bind_flags c)) in
  let* _ := or_errno r in
  if Z.land (libbpf_flags c) XSK_LIBBPF_FLAGS__INHIBIT_PROG_LOAD =? 0
  then on_socket x (xsk_setup_xdp_prog alloc stale_errno)
  else ret x.

(** From the first option up to the label [out_socket]; [rx] and [tx] are not
    [NULL] here. *)
Definition socket_rings (x : xsk_socket) (rx tx : Z) : SM xsk_socket :=
  let c := x_config x in
  let* r := xsk_calls (sys_setsockopt (x_fd x) (XDP_RX_RING (rx_size c))) in
  let* _ := or_errno r in
  let* r := xsk_calls (sys_setsockopt (x_fd x) (XDP_TX_RING (tx_size c))) in
  let* _ := or_errno r in
  let* r := xsk_ask (sys_getsockopt (x_fd x)) in
  let* off := or_errno r in
  let* r := xsk_calls (sys_mmap (ring_length (off_rx off) (rx_size c) sizeof_xdp_desc) (x_fd x) XDP_PGOFF_RX_RING) in
  let* map := or_errno r in
  let* _ := xsk_set (set_fst (set_fst (fun h => cons_ring h (rx_size c) map (off_rx off)))) in
  let* r := xsk_calls (sys_mmap (ring_length (off_tx off) (tx_size c) sizeof_xdp_desc) (x_fd x) XDP_PGOFF_TX_RING) in
  match r with
  | Err errno => let* _ := unmap_ring rx (off_rx off) (rx_size c) in fail (- errno)
  | Ok map =>
      let* _ := xsk_set (set_fst (set_snd (fun h => prod_ring h (tx_size c) map (off_tx off)))) in
      let* r := try (bind_socket x) in
      match r with
      | Ok x => ret x
      | Err err =>
          let* _ := unmap_ring tx (off_tx off) (tx_size c) in
          let* _ := unmap_ring rx (off_rx off) (rx_size c) in
          fail err
      end
  end.

Definition get_refcount : SM Z := let* s := xsk_get in ret (refcount s.2).
Definition add_refcount (d : Z) : SM unit := xsk_set (set_snd (fun u => set_refcount u (s32 (refcount u + d)))).

(** The descriptor of the socket: that of the memory, or a new one. *)
Definition socket_fd (umem : xsk_umem) : SM Z :=
  let* n := get_refcount in
  let* _ := add_refcount 1 in
  if 0 <? n then let* r := xsk_calls (sys_socket AF_XDP) in or_errno r else ret (u_fd umem).

Definition named_socket (fd queue_id : Z) (name : str) (usr_config : option xsk_socket_config) : SM xsk_socket :=
  let* r := xsk_ask (if_nametoindex name) in
  let* index := or_errno r in
  ret (XskSocket (xsk_set_xdp_socket_config usr_config) fd index 0 0 0 queue_id (strncpy 16 name)).

Definition xsk_socket__create (xsk_ptr umem_at rx tx : Z) (name : str) (queue_id : Z)
    (usr_config : option xsk_socket_config) : SM xsk_socket :=
  if (umem_at =? 0) || (xsk_ptr =? 0) || (rx =? 0) || (tx =? 0) then fail (- EFAULT) else
  let* s := xsk_get in
  if negb (refcount s.2 =? 0) then fail (- EBUSY) else
  let* mem := xsk_malloc alloc in
  if negb mem then fail (- ENOMEM) else
  let* fd := socket_fd s.2 in
  let* r := try (let* x := named_socket fd queue_id name usr_config in socket_rings x rx tx) in
  match r with
  | Ok x => ret x
  | Err err =>
      let* _ := add_refcount (-1) in
      let* n := get_refcount in
      let* _ := (if n =? 0 then ret tt else xsk_close fd) in
      fail err
  end.

Definition xsk_socket__delete (xsk : option xsk_socket) : SM unit :=
  match xsk with
  | None => ret tt
  | Some x =>
      let* _ := try (on_socket x (xsk_update_bpf_maps alloc 0 0)) in
      let* s := xsk_get in
      let* r := xsk_ask (sys_getsockopt (x_fd x)) in
      let* _ := (match r with
        | Ok off =>
            let* _ := unmap_ring (h_ring s.1.1) (off_rx off) (rx_size (x_config x)) in
            unmap_ring (h_ring s.1.2) (off_tx off) (tx_size (x_config x))
        | Err _ => ret tt
        end) in
      let* _ := add_refcount (-1) in
      if x_fd x =? u_fd s.2 then ret tt else xsk_close (x_fd x)
  end.
End socket.

(** ** What a registration leaves *)

Section resources.
Context {K : Type} `{XskKernelLaws K}.
Context {X : Type}.
Implicit Types s : X * nat * K.

(** An option of a socket moves no descriptor and no mapping. *)
Lemma run_setsockopt U E (P : result unit -> X * nat * K -> Prop) fd o s :
  (forall r k, fds k = fds s.2 -> mappings k = mappings s.2 -> P r (s.1, k)) -> runs U E P (xsk_calls (sys_setsockopt fd o)) s.
Proof.
  destruct s as [[x n] k]. intros HP. unfold runs, xsk_calls. destruct (setsockopt_law fd o k) as [Ef Em].
  destruct (sys_setsockopt fd o k) as [r k']. by apply (HP r k').
Qed.

Lemma run_mmap U E (P : result Z -> X * nat * K -> Prop) len fd pg s :
  (forall e k, fds k = fds s.2 -> mappings k = mappings s.2 -> P (Err e) (s.1, k)) ->
  (forall a k, fds k = fds s.2 -> mappings s.2 !! a = None -> a mod page_size = 0 -> mappings k = <[a := len]> (mappings s.2) -> P (Ok a) (s.1, k)) ->
  runs U E P (xsk_calls (sys_mmap len fd pg)) s.
Proof.
  destruct s as [[x n] k]. intros HE HP. unfold runs, xsk_calls. pose proof (mmap_law len fd pg k) as Hm.
  destruct (sys_mmap len fd pg k) as [[a|e] k']; [destruct Hm as (? & ? & ? & ?); by apply (HP a k')|destruct Hm; by apply (HE e k')].
Qed.

Lemma run_munmap U E (P : result unit -> X * nat * K -> Prop) a len s :
  (forall r k, fds k = fds s.2 -> (a mod page_size <> 0 -> mappings k = mappings s.2) ->
    (a mod page_size = 0 -> mappings s.2 !! a = Some len -> mappings k = delete a (mappings s.2)) -> P r (s.1, k)) ->
  runs U E P (xsk_calls (sys_munmap a len)) s.
Proof.
  destruct s as [[x n] k]. intros HP. unfold runs, xsk_calls. pose proof (munmap_fds a len k) as Ef.
  pose proof (munmap_unaligned a len k) as Hu. pose proof (munmap_whole a len k) as Hw.
  destruct (sys_munmap a len k) as [r k']. by apply (HP r k').
Qed.

Lemma run_ask {A} U E (P : A -> X * nat * K -> Prop) f s : P (f s.2) s -> runs U E P (xsk_ask f) s.
Proof. by destruct s as [[x n] k]. Qed.

Lemma run_set U E (P : unit -> X * nat * K -> Prop) f x n k : P tt (f x, n, k) -> runs U E P (xsk_set f) (x, n, k).
Proof. done. Qed.

Lemma run_errno {A} U (E : Z -> X * nat * K -> Prop) (P : A -> X * nat * K -> Prop) r s :
  (forall e, E (- e) s) -> (forall a, r = Ok a -> P a s) -> runs U E P (or_errno r) s.
Proof. intros HE HP. destruct r as [a|e]; [by apply run_ret, HP|by apply run_fail]. Qed.
End resources.

(** ** The memory's life *)

Section umem.
Context {K : Type} `{XskKernelLaws K}.
Context (alloc : nat -> bool) (pagesize : Z) (off : xdp_mmap_offsets).
(** The layout of the rings is the kernel's. *)
Hypothesis Hoff : forall fd k o, sys_getsockopt fd k = Ok o -> o = off.

Definition fill_length (c : xsk_umem_config) : Z := ring_length (off_fr off) (fill_size c) sizeof_u64.
Definition comp_length (c : xsk_umem_config) : Z := ring_length (off_cr off) (comp_size c) sizeof_u64.

(** [k'] has two mappings more than [k], [a] and [b]. *)
Definition two_mappings (k k' : K) (a len b len' : Z) : Prop :=
  mappings k !! a = None /\ mappings k !! b = None /\ a <> b /\ a mod page_size = 0 /\ b mod page_size = 0 /\
  mappings k' = <[b := len']> (<[a := len]> (mappings k)).

(** All mappings are kept, but one may be more. *)
Definition one_mapping_left (k k' : K) (len : Z) : Prop :=
  mappings k' = mappings k \/ exists a, mappings k !! a = None /\ mappings k' = <[a := len]> (mappings k).

Lemma umem_rings_run u size hs n (k : K) :
  runs False
    (fun _ s => fds s.2 = fds k /\ s.1.2 = n /\ (u_fill u mod page_size <> 0 -> one_mapping_left k s.2 (fill_length (u_config u))))
    (fun _ s => fds s.2 = fds k /\ s.1.2 = n /\ exists a b, two_mappings k s.2 a (fill_length (u_config u)) b (comp_length (u_config u)) /\
      s.1.1 = (prod_ring hs.1 (fill_size (u_config u)) a (off_fr off), cons_ring hs.2 (comp_size (u_config u)) b (off_cr off)))
    (umem_rings u size) (hs, n, k).
Proof using Hoff.
  unfold umem_rings.
  assert (forall k', fds k' = fds k -> mappings k' = mappings k -> (fds k' = fds k /\ n = n /\
    (u_fill u mod page_size <> 0 -> one_mapping_left k k' (fill_length (u_config u))))) as Hback by (intros; split_and!; [done..|by left]).
  apply run_bind, run_setsockopt. cbn [fst snd]. intros r k1 F1 M1. apply run_bind, run_errno; [intros e; by apply Hback|intros _ _].
  apply run_bind, run_setsockopt. cbn [fst snd]. intros r2 k2 F2 M2. rewrite F1 in F2. rewrite M1 in M2.
  apply run_bind, run_errno; [intros e; by apply Hback|intros _ _].
  apply run_bind, run_setsockopt. cbn [fst snd]. intros r3 k3 F3 M3. rewrite F2 in F3. rewrite M2 in M3.
  apply run_bind, run_errno; [intros e; by apply Hback|intros _ _].
  apply run_bind, run_ask, run_bind, run_errno; [intros e; by apply Hback|]. intros o Eo%Hoff. subst o.
  apply run_bind, run_mmap; cbn [fst snd]; rewrite ?F3, ?M3.
  { intros e k4 F4 M4. apply run_bind, run_fail. by apply Hback. }
  intros a k4 F4 Ha Hal M4. apply run_bind, run_ret, run_bind. cbn [or_errno]. apply run_set, run_bind, run_mmap; cbn [fst snd]; rewrite ?F4, ?M4.
  - intros e k5 F5 M5. apply run_bind, run_munmap. cbn [fst snd]. rewrite F5, M5. intros r6 k6 F6 M6 _. apply run_fail. cbn [fst snd].
    split_and!; [done..|]. intros Hu. right. exists a. split; [done|]. by apply M6.
  - intros b k5 F5 Hb Hbl M5. apply run_set. cbn [fst snd]. split_and!; [done..|]. exists a, b. split; [|by destruct hs].
    destruct (decide (a = b)) as [->|Hab]; [by rewrite lookup_insert_eq in Hb|]. rewrite lookup_insert_ne in Hb by done. by split_and!.
Qed.

Context (umem_ptr umem_area size fill comp : Z) (usr_config : option xsk_umem_config).
Let c := xsk_set_umem_config usr_config.
Hypothesis Hargs : umem_area <> 0 /\ umem_ptr <> 0 /\ fill <> 0 /\ comp <> 0 /\ (size <> 0 \/ xsk_page_aligned pagesize umem_area = true).

(** What a registration that succeeds made. *)
Definition registered (hs : handle * handle) (k : K) (u : xsk_umem) (hs' : handle * handle) (k' : K) : Prop :=
  exists fd a b, 0 <= fd /\ fds k !! fd = None /\ fds k' = <[fd := OtherFile]> (fds k) /\
    two_mappings k k' a (fill_length c) b (comp_length c) /\ u = XskUmem fill comp umem_area c fd 0 /\
    hs' = (prod_ring hs.1 (fill_size c) a (off_fr off), cons_ring hs.2 (comp_size c) b (off_cr off)).

Lemma umem_create_run hs n (k : K) : alloc n = true ->
  runs False (fun _ s => s.1.2 = S n /\ fds s.2 = fds k /\ (fill mod page_size <> 0 -> one_mapping_left k s.2 (fill_length c)))
    (fun u s => s.1.2 = S n /\ registered hs k u s.1.1 s.2)
    (xsk_umem__create alloc pagesize umem_ptr umem_area size fill comp usr_config) (hs, n, k).
Proof using Hoff Hargs.
  intros Ha. unfold xsk_umem__create. destruct Hargs as (H1 & H2 & H3 & H4 & H5).
  rewrite !(proj2 (Z.eqb_neq _ _)) by done. cbn [orb].
  assert ((size =? 0) && negb (xsk_page_aligned pagesize umem_area) = false) as ->.
  { destruct H5 as [?| ->]; [by rewrite (proj2 (Z.eqb_neq _ _))|by rewrite andb_false_r]. }
  apply run_bind. unfold runs at 1, xsk_malloc. rewrite Ha. cbn [negb]. apply run_bind. unfold runs at 1, xsk_calls.
  pose proof (socket_law AF_XDP k) as Hs. destruct (sys_socket AF_XDP k) as [[fd|e] k1].
  2: { destruct Hs as [F1 M1]. apply run_bind, run_fail. cbn [fst snd]. split_and!; [done..|]. intros _. by left. }
  destruct Hs as (Hfd & Hn & F1 & M1). cbn [or_errno]. apply run_bind, run_ret, run_bind, run_try.
  eapply run_impl; [apply umem_rings_run|done|..]; cbn [u_config u_fill u_fd].
  - intros e [[hs1 n1] k2]. cbn [fst snd]. intros (F2 & -> & M2). apply run_bind. unfold runs at 1, xsk_close, xsk_calls. apply run_fail. cbn [fst snd].
    rewrite close_fds, F2, F1, delete_insert_eq, delete_id by done. split_and!; [done..|]. intros Hu. specialize (M2 Hu).
    unfold one_mapping_left in *. by rewrite (proj1 (close_rest fd k2)), <- M1.
  - intros [] [[hs1 n1] k2]. cbn [fst snd]. intros (F2 & -> & a & b & M2 & E). apply run_ret. cbn [fst snd]. split; [done|].
    exists fd, a, b. unfold two_mappings in *. rewrite M1 in M2. split_and!; try done; [by rewrite F2|apply M2..].
Qed.

Lemma umem_delete_run u hs n (k : K) : refcount u = 0 ->
  runs False (fun _ _ => False) (fun _ s => s.1 = (hs, n) /\ fds s.2 = delete (u_fd u) (fds k) /\
      (h_ring hs.1 mod page_size <> 0 -> h_ring hs.2 mod page_size <> 0 -> mappings s.2 = mappings k) /\
      (h_ring hs.1 mod page_size = 0 -> h_ring hs.2 mod page_size = 0 -> h_ring hs.1 <> h_ring hs.2 -> (exists o, sys_getsockopt (u_fd u) k = Ok o) ->
        mappings k !! h_ring hs.1 = Some (fill_length (u_config u)) -> mappings k !! h_ring hs.2 = Some (comp_length (u_config u)) ->
        mappings s.2 = delete (h_ring hs.2) (delete (h_ring hs.1) (mappings k))))
    (xsk_umem__delete (Some u)) (hs, n, k).
Proof using Hoff.
  intros Hr. unfold xsk_umem__delete. rewrite Hr. cbn [Z.eqb negb]. apply run_bind. unfold runs at 1, xsk_get. apply run_bind, run_ask. cbn [fst snd].
  apply run_bind. destruct (sys_getsockopt (u_fd u) k) as [o|e] eqn:Eo.
  - pose proof (Hoff _ _ _ Eo) as ->. apply run_bind, run_munmap. cbn [fst snd]. intros r1 k1 F1 M1 W1. apply run_bind, run_munmap. cbn [fst snd].
    intros r2 k2 F2 M2 W2. apply run_ret. unfold runs, xsk_close, xsk_calls. cbn [fst snd]. rewrite close_fds, F2, F1, (proj1 (close_rest _ _)).
    split_and!; [done..| |]; [intros A1 A2; by rewrite M2, M1|]. intros A1 A2 Hne _ L1 L2. rewrite <- (W1 A1 L1). apply W2; [done|].
    by rewrite (W1 A1 L1), lookup_delete_ne.
  - apply run_ret. unfold runs, xsk_close, xsk_calls. cbn [fst snd]. rewrite close_fds, (proj1 (close_rest _ _)). split_and!; [done..|].
    intros _ _ _ [o ?]. done.
Qed.
End umem.

Lemma mod_above a d p : a mod p = 0 -> (a + d) mod p = d mod p.
Proof.
  intros Ha. destruct (decide (p = 0)) as [->|Hp]; [rewrite !Z.mod_0_r in *; lia|].
  rewrite Z.add_mod, Ha, Z.add_0_l, Z.mod_mod by done. done.
Qed.

(** Registering a packet memory either opens one socket and maps two rings,
    and the caller's structures describe them: the addresses are those the kernel
    laid out, and structures that were zero start as a ring's should; or it fails
    and its socket is closed again, but a mapping can be left. *)
Theorem umem_create_spec {K : Type} `{XskKernelLaws K} alloc pagesize off umem_ptr umem_area size fill comp usr_config hs n (k : K) :
  (forall fd k o, sys_getsockopt fd k = Ok o -> o = off) -> alloc n = true ->
  umem_area <> 0 /\ umem_ptr <> 0 /\ fill <> 0 /\ comp <> 0 /\ (size <> 0 \/ xsk_page_aligned pagesize umem_area = true) ->
  let c := xsk_set_umem_config usr_config in
  let l1 := ring_length (off_fr off) (fill_size c) 8 in
  let l2 := ring_length (off_cr off) (comp_size c) 8 in
  exists r h1 h2 n' k', xsk_umem__create alloc pagesize umem_ptr umem_area size fill comp usr_config (hs, n, k) = Some (r, ((h1, h2), n', k')) /\
    match r with
    | Ok u => exists fd a b, fds k !! fd = None /\ fds k' = <[fd := OtherFile]> (fds k) /\ u = XskUmem fill comp umem_area c fd 0 /\
        mappings k !! a = None /\ mappings k !! b = None /\ a <> b /\ mappings k' = <[b := l2]> (<[a := l1]> (mappings k)) /\
        (h_producer h1, h_consumer h1, h_ring h1) = (a + o_producer (off_fr off), a + o_consumer (off_fr off), a + o_desc (off_fr off)) /\
        (h_producer h2, h_consumer h2, h_ring h2) = (b + o_producer (off_cr off), b + o_consumer (off_cr off), b + o_desc (off_cr off)) /\
        (h_ix hs.1 = XskRing 0 0 0 0 -> h_ix h1 = init_prod (fill_size c)) /\ (h_ix hs.2 = XskRing 0 0 0 0 -> h_ix h2 = init_cons (comp_size c))
    | Err _ => fds k' = fds k /\ (fill mod page_size <> 0 ->
        mappings k' = mappings k \/ exists a, mappings k !! a = None /\ mappings k' = <[a := l1]> (mappings k))
    end.
Proof.
  intros Hoff Ha Hargs c l1 l2.
  destruct (run_elim _ _ _ _ (umem_create_run alloc pagesize off Hoff umem_ptr umem_area size fill comp usr_config Hargs hs n k Ha))
    as (r & [[[h1 h2] n'] k'] & E & Hr). exists r, h1, h2, n', k'. split; [done|]. destruct r as [u|e]; [|exact (proj2 Hr)].
  destruct Hr as (_ & fd & a & b & _ & Hn & F & (A1 & A2 & A3 & _ & _ & A4) & U & Eh). injection Eh as -> ->.
  exists fd, a, b. split_and!; try done; cbn [prod_ring cons_ring h_ix]; intros E0; by rewrite E0.
Qed.

(** A packet memory that is registered and deleted leaves the descriptors as
    they were.  Its mappings go as well when the entries are at their start;
    elsewhere in the first page, where the kernel puts them, both stay. *)
Theorem umem_roundtrip {K : Type} `{XskKernelLaws K} alloc pagesize off umem_ptr umem_area size fill comp usr_config hs n (k : K) u hs' n' k' :
  (forall fd k, sys_getsockopt fd k = Ok off) -> alloc n = true ->
  umem_area <> 0 /\ umem_ptr <> 0 /\ fill <> 0 /\ comp <> 0 /\ (size <> 0 \/ xsk_page_aligned pagesize umem_area = true) ->
  xsk_umem__create alloc pagesize umem_ptr umem_area size fill comp usr_config (hs, n, k) = Some (Ok u, (hs', n', k')) ->
  exists k'', xsk_umem__delete (Some u) (hs', n', k') = Some (Ok tt, (hs', n', k'')) /\ fds k'' = fds k /\
    (o_desc (off_fr off) = 0 /\ o_desc (off_cr off) = 0 -> mappings k'' = mappings k) /\
    (o_desc (off_fr off) mod page_size <> 0 /\ o_desc (off_cr off) mod page_size <> 0 -> mappings k'' = mappings k' /\ mappings k'' <> mappings k).
Proof.
  intros Hok Ha Hargs E. assert (forall fd (k : K) o, sys_getsockopt fd k = Ok o -> o = off) as Hoff by (intros fd k2 o E2; rewrite Hok in E2; by injection E2).
  pose proof (umem_create_run alloc pagesize off Hoff umem_ptr umem_area size fill comp usr_config Hargs hs n k Ha) as Hc.
  unfold runs in Hc. rewrite E in Hc. cbn [fst snd] in Hc. destruct Hc as (_ & fd & a & b & _ & Hn & F & (A1 & A2 & A3 & A4 & A5 & A6) & -> & Eh').
  destruct (run_elim _ _ _ _ (umem_delete_run off Hoff (XskUmem fill comp umem_area (xsk_set_umem_config usr_config) fd 0) hs' n' k' eq_refl))
    as ([[]|] & [[hs2 n2] k2] & E2 & Hr); [|done]. destruct Hr as (Eh & F2 & M1 & M2). cbn [fst snd] in Eh, F2, M1, M2. injection Eh as -> ->. subst hs'.
  exists k2. split; [exact E2|]. cbn [u_fd u_config prod_ring cons_ring h_ring fst snd] in *. split; [by rewrite F2, F, delete_insert_eq, delete_id|]. split.
  - intros [D1 D2]. rewrite D1, D2, !Z.add_0_r in M2. rewrite A6 in M2.
    rewrite M2; [rewrite delete_insert_ne by done; rewrite !delete_insert_eq; rewrite (delete_id _ a) by done; by apply delete_id | done | done | done | by exists off |rewrite lookup_insert_ne by congruence|]; apply lookup_insert_eq.
  - intros [D1 D2]. rewrite !mod_above in M1 by done. rewrite (M1 D1 D2). split; [done|]. intros E3. rewrite A6 in E3.
    rewrite <- E3, lookup_insert_eq in A2. done.
Qed.

(** ** The socket's life *)

Section sockets.
Context {K : Type} `{XskKernelLaws K}.
Context (alloc : nat -> bool) (stale_errno : Z) (off : xdp_mmap_offsets).
Hypothesis Hoff : forall fd k o, sys_getsockopt fd k = Ok o -> o = off.

(** The rings of a socket, as its options say. *)
Definition rx_length (c : xsk_socket_config) : Z := ring_length (off_rx off) (rx_size c) sizeof_xdp_desc.
Definition tx_length (c : xsk_socket_config) : Z := ring_length (off_tx off) (tx_size c) sizeof_xdp_desc.

Definition given_back (u : xsk_umem) n (k : K) (rx tx : Z) (s : (handle * handle) * xsk_umem * nat * K) : Prop :=
  s.1.1.2 = u /\ s.1.2 = n /\ fds s.2 = fds k /\ (rx mod page_size <> 0 -> tx mod page_size <> 0 -> mappings k ⊆ mappings s.2).

Lemma socket_rings_run x rx tx hs u n (k : K) : Z.land (libbpf_flags (x_config x)) XSK_LIBBPF_FLAGS__INHIBIT_PROG_LOAD <> 0 ->
  runs False (fun _ => given_back u n k rx tx)
    (fun x' s => x' = x /\ s.1.1.2 = u /\ s.1.2 = n /\ fds s.2 = fds k /\ exists a b,
      two_mappings k s.2 a (rx_length (x_config x)) b (tx_length (x_config x)) /\
      s.1.1.1 = (cons_ring hs.1 (rx_size (x_config x)) a (off_rx off), prod_ring hs.2 (tx_size (x_config x)) b (off_tx off)))
    (socket_rings alloc stale_errno x rx tx) (hs, u, n, k).
Proof using Hoff.
  intros Hi. unfold socket_rings.
  assert (forall hs' k', fds k' = fds k -> (rx mod page_size <> 0 -> tx mod page_size <> 0 -> mappings k ⊆ mappings k') -> given_back u n k rx tx (hs', u, n, k')) as Hback.
  { intros hs' k' F M. by split_and!. }
  apply run_bind, run_setsockopt. cbn [fst snd]. intros r k1 F1 M1. apply run_bind, run_errno; [intros e; apply Hback; [done|by rewrite M1]|intros _ _].
  apply run_bind, run_setsockopt. cbn [fst snd]. intros r2 k2 F2 M2. rewrite F1 in F2. rewrite M1 in M2.
  apply run_bind, run_errno; [intros e; apply Hback; [done|by rewrite M2]|intros _ _].
  apply run_bind, run_ask, run_bind, run_errno; [intros e; apply Hback; [done|by rewrite M2]|]. intros o Eo%Hoff. subst o.
  apply run_bind, run_mmap; cbn [fst snd]; rewrite ?F2, ?M2.
  { intros e k4 F4 M4. apply run_bind, run_fail, Hback; [done|by rewrite M4]. }
  intros a k4 F4 Ha Hal M4. apply run_bind, run_ret, run_bind. apply run_set, run_bind, run_mmap; cbn [fst snd]; rewrite ?F4, ?M4.
  - intros e k5 F5 M5. apply run_bind. unfold unmap_ring. apply run_bind, run_munmap. cbn [fst snd]. rewrite F5, M5. intros r6 k6 F6 M6 _.
    apply run_ret, run_fail, Hback; [done|]. intros Hr _. rewrite M6 by done. by apply insert_subseteq.
  - intros b k5 F5 Hb Hbl M5. apply run_bind. apply run_set, run_bind, run_try. unfold bind_socket.
    assert (a <> b) as Hab by (intros ->; by rewrite lookup_insert_eq in Hb).
    assert (mappings k ⊆ mappings k5) as Hsub.
    { rewrite M5. etransitivity; [by apply (insert_subseteq _ a)|by apply insert_subseteq]. }
    apply run_bind. unfold runs at 1, xsk_calls. pose proof (bind_law (x_fd x) (ifindex x) (queue_id x) (bind_flags (x_config x)) k5) as [F6 M6].
    destruct (sys_bind _ _ _ _ k5) as [[[]|e] k6]; cbn [snd or_errno] in *.
    + rewrite (proj2 (Z.eqb_neq _ _)) by done. apply run_bind, run_ret, run_ret, run_ret. cbn [fst snd].
      split_and!; [done..|by rewrite F6|]. rewrite lookup_insert_ne in Hb by done. exists a, b. split; [|by destruct hs].
      split_and!; try done. by rewrite M6.
    + apply run_bind, run_fail, run_bind. unfold unmap_ring. apply run_bind, run_munmap. cbn [fst snd]. rewrite F6, M6, F5. intros r7 k7 F7 M7 _.
      apply run_ret, run_bind. apply run_bind, run_munmap. cbn [fst snd]. rewrite F7. intros r8 k8 F8 M8 _. apply run_ret, run_fail, Hback; [done|].
      intros Hr Ht. by rewrite M8, M7.
Qed.

Lemma socket_create_run xsk_ptr umem_at rx tx name queue_id usr_config hs u n (k : K) (c := xsk_set_xdp_socket_config usr_config) :
  alloc n = true -> refcount u = 0 -> umem_at <> 0 /\ xsk_ptr <> 0 /\ rx <> 0 /\ tx <> 0 ->
  Z.land (libbpf_flags c) XSK_LIBBPF_FLAGS__INHIBIT_PROG_LOAD <> 0 ->
  runs False (fun _ s => given_back u (S n) k rx tx s)
    (fun x s => fds s.2 = fds k /\ s.1.1.2 = set_refcount u 1 /\ x_fd x = u_fd u /\ x_config x = c /\ exists a b,
      two_mappings k s.2 a (rx_length c) b (tx_length c) /\
      s.1.1.1 = (cons_ring hs.1 (rx_size c) a (off_rx off), prod_ring hs.2 (tx_size c) b (off_tx off)))
    (xsk_socket__create alloc stale_errno xsk_ptr umem_at rx tx name queue_id usr_config) (hs, u, n, k).
Proof using Hoff.
  intros Ha Hr (H1 & H2 & H3 & H4) Hi.
  unfold xsk_socket__create. rewrite !(proj2 (Z.eqb_neq _ _)) by done. cbn [orb]. apply run_bind. unfold runs at 1, xsk_get. cbn [fst snd].
  rewrite Hr. cbn [Z.eqb negb]. apply run_bind. unfold runs at 1, xsk_malloc. rewrite Ha. cbn [negb]. apply run_bind. unfold socket_fd, get_refcount, add_refcount.
  apply run_bind, run_bind. unfold runs at 1, xsk_get. apply run_ret, run_bind. apply run_set.
  replace (set_snd _ _) with (hs, set_refcount u 1) by (unfold set_snd; cbn [fst snd]; by rewrite Hr). cbn [fst snd]. rewrite Hr. cbn [Z.ltb Z.compare]. apply run_ret, run_bind, run_try, run_bind.
  assert (set_refcount (set_refcount u 1) (s32 (refcount (set_refcount u 1) + -1)) = u) as Eback by (destruct u; cbn in *; by subst).
  assert (forall e s, given_back (set_refcount u 1) (S n) k rx tx s -> runs False (fun _ s => given_back u (S n) k rx tx s)
    (fun (x : xsk_socket) s => fds s.2 = fds k /\ s.1.1.2 = set_refcount u 1 /\ x_fd x = u_fd u /\ x_config x = c /\ exists a b,
      two_mappings k s.2 a (rx_length c) b (tx_length c) /\ s.1.1.1 = (cons_ring hs.1 (rx_size c) a (off_rx off), prod_ring hs.2 (tx_size c) b (off_tx off)))
    (let* _ := add_refcount (-1) in let* n := get_refcount in let* _ := (if n =? 0 then ret tt else xsk_close (u_fd u)) in fail e) s) as Herr.
  { intros e [[[hs1 u1] n1] k1] (U & N & F & M). cbn [fst snd] in *. subst u1. apply run_bind. unfold add_refcount. apply run_set.
    replace (set_snd _ _) with (hs1, u) by (unfold set_snd; cbn [fst snd]; by rewrite Eback).
    apply run_bind. unfold get_refcount. apply run_bind. unfold runs at 1, xsk_get. apply run_ret. cbn [fst snd]. rewrite Hr. apply run_bind, run_ret, run_fail.
    by split_and!. }
  unfold named_socket. apply run_bind, run_ask, run_bind, run_errno; cbn [fst snd].
  { intros e. apply Herr. unfold given_back. cbn [fst snd]. split_and!; reflexivity || intros; reflexivity. }
  intros index _. apply run_ret. eapply run_impl; [apply socket_rings_run; exact Hi|done| |].
  - intros e s Hg. by apply Herr.
  - intros x [[[hs1 u1] n1] k1] (-> & U & N & F & a & b & Hm & Eh). apply run_ret. cbn [fst snd x_fd x_config] in *. split_and!; try done. by exists a, b.
Qed.
End sockets.

(** C32. A socket that loads no program is created on the descriptor of its memory:
    it opens none of its own and the memory cannot be given to a second socket or
    deleted until this one is.  Its two rings are mapped and described to the
    caller; when creation fails the memory is free again. *)
Theorem socket_create_spec {K : Type} `{XskKernelLaws K} alloc stale_errno off xsk_ptr umem_at rx tx name queue_id usr_config hs u n (k : K) :
  (forall fd k o, sys_getsockopt fd k = Ok o -> o = off) -> alloc n = true -> refcount u = 0 ->
  umem_at <> 0 /\ xsk_ptr <> 0 /\ rx <> 0 /\ tx <> 0 ->
  let c := xsk_set_xdp_socket_config usr_config in
  Z.land (libbpf_flags c) XSK_LIBBPF_FLAGS__INHIBIT_PROG_LOAD <> 0 ->
  let l1 := ring_length (off_rx off) (rx_size c) 16 in
  let l2 := ring_length (off_tx off) (tx_size c) 16 in
  exists r h1 h2 u' n' k', xsk_socket__create alloc stale_errno xsk_ptr umem_at rx tx name queue_id usr_config (hs, u, n, k) = Some (r, ((h1, h2), u', n', k')) /\
    fds k' = fds k /\
    match r with
    | Ok x => x_fd x = u_fd u /\ x_config x = c /\ xsk_umem__delete (Some u') (hs, n, k') = Some (Err (- EBUSY), (hs, n, k')) /\
        xsk_socket__create alloc stale_errno xsk_ptr umem_at rx tx name queue_id usr_config (hs, u', n', k') = Some (Err (- EBUSY), (hs, u', n', k')) /\
        exists a b, mappings k !! a = None /\ mappings k !! b = None /\ a <> b /\ mappings k' = <[b := l2]> (<[a := l1]> (mappings k)) /\
        h_ring h1 = a + o_desc (off_rx off) /\ h_ring h2 = b + o_desc (off_tx off) /\
        (h_ix hs.1 = XskRing 0 0 0 0 -> h_ix h1 = init_cons (rx_size c)) /\ (h_ix hs.2 = XskRing 0 0 0 0 -> h_ix h2 = init_prod (tx_size c))
    | Err _ => u' = u /\ (rx mod page_size <> 0 -> tx mod page_size <> 0 -> mappings k ⊆ mappings k')
    end.
Proof.
  intros Hoff Ha Hr Hargs c Hi l1 l2. destruct (Hargs) as (H1 & H2 & H3 & H4).
  assert (forall u' n' (k' : K) hs', refcount u' <> 0 ->
    xsk_socket__create alloc stale_errno xsk_ptr umem_at rx tx name queue_id usr_config (hs', u', n', k') = Some (Err (- EBUSY), (hs', u', n', k'))) as Hbusy.
  { intros u' n' k' hs' Hn. unfold xsk_socket__create. rewrite !(proj2 (Z.eqb_neq _ _)) by done. cbn [orb]. unfold bind at 1, xsk_get. cbn [fst snd].
    by rewrite (proj2 (Z.eqb_neq _ _)). }
  destruct (run_elim _ _ _ _ (socket_create_run alloc stale_errno off Hoff xsk_ptr umem_at rx tx name queue_id usr_config hs u n k Ha Hr Hargs Hi))
    as ([x|e] & [[[[h1 h2] u'] n'] k'] & E & Hq); exists (Ok x) || exists (Err e); exists h1, h2, u', n', k'; (split; [done|]).
  - destruct Hq as (F & U & Hx & Hc & a & b & (A1 & A2 & A3 & _ & _ & A4) & Eh). cbn [fst snd] in *. subst u'. injection Eh as -> ->. split; [done|].
    split_and!; [done|done|done|by apply Hbusy|]. exists a, b. split_and!; try done; cbn [cons_ring prod_ring h_ix]; intros E0; by rewrite E0.
  - destruct Hq as (U & _ & F & M). by split_and!.
Qed.

(** ** A registration *)

Definition ex_offset := RingOffset 0 64 320.
Definition ex_offsets := MmapOffsets ex_offset ex_offset ex_offset ex_offset.
Definition ex_zero : handle := Handle (XskRing 0 0 0 0) 0 0 0.
Definition ex_umem_at (script : list Z) : ex_xdp := ExXdp ∅ ∅ ∅ false script.
Definition ex_umem_create (script : list Z) :=
  xsk_umem__create (fun _ => true) 4096 1 0x10000 0x4000 0x7ff0 0x7ff8 (Some (UmemConfig 4 8 2048 0)) ((ex_zero, ex_zero), 0%nat, ex_umem_at script).

(** The second mapping is refused. *)
Example ex_umem_leaks : match ex_umem_create [0; 0; 0; 0; 0; 12] with
  | Some (Err e, (_, _, k)) => e = -12 /\ map_to_list (xk_fds k) = [] /\ map_to_list (xk_mappings k) = [(4096, 352)]
  | _ => False
  end.
Proof. vm_compute. by split_and!. Qed.

Lemma umem_create_spec_witness :
  exists r h1 h2 n' k', ex_umem_create [] = Some (r, ((h1, h2), n', k')) /\
    match r with
    | Ok u => exists fd a b, fds (ex_umem_at []) !! fd = None /\ fds k' = <[fd := OtherFile]> (fds (ex_umem_at [])) /\
        u = XskUmem 0x7ff0 0x7ff8 0x10000 (UmemConfig 4 8 2048 0) fd 0 /\
        mappings (ex_umem_at []) !! a = None /\ mappings (ex_umem_at []) !! b = None /\ a <> b /\ mappings k' = <[b := 384]> (<[a := 352]> (mappings (ex_umem_at []))) /\
        (h_producer h1, h_consumer h1, h_ring h1) = (a + 0, a + 64, a + 320) /\
        (h_producer h2, h_consumer h2, h_ring h2) = (b + 0, b + 64, b + 320) /\
        (h_ix ex_zero = XskRing 0 0 0 0 -> h_ix h1 = init_prod 4) /\ (h_ix ex_zero = XskRing 0 0 0 0 -> h_ix h2 = init_cons 8)
    | Err _ => fds k' = fds (ex_umem_at []) /\ (0x7ff0 mod page_size <> 0 ->
        mappings k' = mappings (ex_umem_at []) \/ exists a, mappings (ex_umem_at []) !! a = None /\ mappings k' = <[a := 352]> (mappings (ex_umem_at [])))
    end.
Proof.
  apply (umem_create_spec (fun _ => true) 4096 ex_offsets 1 0x10000 0x4000 0x7ff0 0x7ff8 (Some (UmemConfig 4 8 2048 0)) (ex_zero, ex_zero) 0%nat (ex_umem_at [])).
  - intros fd k o E. injection E as <-. reflexivity.
  - reflexivity.
  - split; [lia|]. split; [lia|]. split; [lia|]. split; [lia|]. left. lia.
Defined.

Lemma umem_roundtrip_witness : match ex_umem_create [] with
  | Some (Ok u, (hs', n', k')) =>
      exists k'', xsk_umem__delete (Some u) (hs', n', k') = Some (Ok tt, (hs', n', k'')) /\ fds k'' = fds (ex_umem_at []) /\
        (o_desc ex_offset = 0 /\ o_desc ex_offset = 0 -> mappings k'' = mappings (ex_umem_at [])) /\
        (o_desc ex_offset mod page_size <> 0 /\ o_desc ex_offset mod page_size <> 0 -> mappings k'' = mappings k' /\ mappings k'' <> mappings (ex_umem_at []))
  | _ => False
  end.
Proof.
  destruct (ex_umem_create []) as [[[u|e] [[hs' n'] k']]|] eqn:E; [|vm_compute in E; discriminate E..].
  apply (umem_roundtrip (fun _ => true) 4096 ex_offsets 1 0x10000 0x4000 0x7ff0 0x7ff8 (Some (UmemConfig 4 8 2048 0)) (ex_zero, ex_zero) 0%nat (ex_umem_at [])).
  - reflexivity.
  - reflexivity.
  - split; [lia|]. split; [lia|]. split; [lia|]. split; [lia|]. left. lia.
  - exact E.
Defined.

Definition ex_umem : xsk_umem := XskUmem 0x7ff0 0x7ff8 0x10000 (UmemConfig 4 8 2048 0) 3 0.
Definition ex_bound : ex_xdp := ExXdp {[3 := OtherFile]} {[4096 := 352]} ∅ false [].
Definition ex_socket (u : xsk_umem) (hs : handle * handle) n k :=
  xsk_socket__create (fun _ => true) 0 1 0x9000 0x6ff0 0x6ff8 (lit "eth0") 0 (Some (SocketConfig 4 8 1 0 0)) (hs, u, n, k).

Lemma socket_create_spec_witness :
  exists r h1 h2 u' n' k', ex_socket ex_umem (ex_zero, ex_zero) 0%nat ex_bound = Some (r, ((h1, h2), u', n', k')) /\
    fds k' = fds ex_bound /\
    match r with
    | Ok x => x_fd x = 3 /\ x_config x = SocketConfig 4 8 1 0 0 /\ xsk_umem__delete (Some u') ((ex_zero, ex_zero), 0%nat, k') = Some (Err (- EBUSY), ((ex_zero, ex_zero), 0%nat, k')) /\
        ex_socket u' (ex_zero, ex_zero) n' k' = Some (Err (- EBUSY), ((ex_zero, ex_zero), u', n', k')) /\
        exists a b, mappings ex_bound !! a = None /\ mappings ex_bound !! b = None /\ a <> b /\ mappings k' = <[b := 448]> (<[a := 384]> (mappings ex_bound)) /\
        h_ring h1 = a + 320 /\ h_ring h2 = b + 320 /\
        (h_ix ex_zero = XskRing 0 0 0 0 -> h_ix h1 = init_cons 4) /\ (h_ix ex_zero = XskRing 0 0 0 0 -> h_ix h2 = init_prod 8)
    | Err _ => u' = ex_umem /\ (0x6ff0 mod page_size <> 0 -> 0x6ff8 mod page_size <> 0 -> mappings ex_bound ⊆ mappings k')
    end.
Proof.
  apply (socket_create_spec (fun _ => true) 0 ex_offsets 1 0x9000 0x6ff0 0x6ff8 (lit "eth0") 0 (Some (SocketConfig 4 8 1 0 0)) (ex_zero, ex_zero) ex_umem 0%nat ex_bound).
  - intros fd k o E. injection E as <-. reflexivity.
  - reflexivity.
  - reflexivity.
  - split; [lia|]. split; [lia|]. split; lia.
  - vm_compute. discriminate.
Defined.
