(* ===== verification/XskRings.v ===== *)
(** * The rings a packet memory and a socket are given (src/libbpf/src/xsk.c, xsk.h)

    [xsk_umem__create] and [xsk_socket__create] fill in the caller's ring
    structures, and the ring functions work on these.  Here both are put
    together: a structure that was zero before is one end of a bounded queue,
    whatever the other end does; one that was used before is not. *)

From S2P Require Import Xsk XskSocket.
Open Scope Z_scope.

(** The kernel's end of a ring starts at zero. *)
Definition shares_producer {A} (h : handle) (slots : list A) : state A := State (h_ix h) (init_cons (zlen slots)) (Shared 0 0 slots).
Definition shares_consumer {A} (h : handle) (slots : list A) : state A := State (init_prod (zlen slots)) (h_ix h) (Shared 0 0 slots).

(** From [s] on, every interleaving of the two ends is one of a queue. *)
Inductive runs_as {A} (n : Z) (s0 : state A) : state A -> astate A -> Prop :=
| runs_start : runs_as n s0 s0 (AState [] [] [])
| runs_next s a o s' res a' :
    runs_as n s0 s a -> legal a o -> cstep s o = Some (s', res) -> astep n a o res a' -> runs_as n s0 s' a'.

Definition is_queue {A} (n : Z) (s0 : state A) : Prop :=
  forall s a o, runs_as n s0 s a -> legal a o ->
    used a <= n /\
    exists s' res a', cstep s o = Some (s', res) /\ astep n a o res a' /\
      match o, res with
      | Reserve _, Entries _ (Some idx) => idx = producer (mem s) ⊞ zlen (pending a)
      | Peek _, Entries _ (Some idx) => idx = consumer (mem s) ⊞ zlen (taken a)
      | _, _ => True
      end.

Lemma runs_reach {A} n (slots : list A) s a : runs_as n (init slots) s a -> reach n slots s a.
Proof. induction 1; [apply reach_init|by eapply reach_step]. Qed.

Lemma init_is_queue {A} k (slots : list A) : 0 <= k <= 31 -> zlen slots = 2 ^ k -> is_queue (2 ^ k) (init slots).
Proof.
  intros Hk Hl s a o Hr%runs_reach Hlegal. destruct (ring_run (2 ^ k) k slots s a o eq_refl Hk Hl Hr Hlegal) as (Hu & s' & res & a' & E & Ha & _ & Hi).
  split; [done|]. by exists s', res, a'.
Qed.

(** An entry is reserved in a ring that is empty: none, or one in a slot the
    other end does not read first. *)
Definition misses {A} (s : state A) : Prop :=
  forall s' n idx, cstep s (Reserve 1) = Some (s', Entries n idx) ->
    idx = None \/ exists i, idx = Some i /\
      xsk_ring_prod__fill_addr (prod s') i <> xsk_ring_cons__comp_addr (cons s') (consumer (mem s')).

Lemma stale_misses {A} k c (slots : list A) : 0 <= k <= 31 -> zlen slots = 2 ^ k -> 0 < c <= 2 ^ k ->
  misses (State (XskRing c (2 ^ k) (2 ^ k ⊟ 1) (2 ^ k)) (init_cons (zlen slots)) (Shared 0 0 slots)).
Proof.
  intros Hk Hl Hc s' m idx. assert (1 <= 2 ^ k <= 2 ^ 31) as Hn by (split; [pose proof (Z.pow_pos_nonneg 2 k)|apply Z.pow_le_mono_r]; lia).
  assert (2 ^ k ⊟ 1 = 2 ^ k - 1) as Hm by (apply wrap_small; unfold in_range; lia).
  assert (2 ^ k ⊟ c = 2 ^ k - c) as Hf by (apply wrap_small; unfold in_range; lia).
  cbn [cstep prod cons Xsk.mem]. unfold xsk_ring_prod__reserve, xsk_prod_nb_free. cbn [cached_prod cached_cons mask size consumer].
  rewrite (wrap_small 32 1), Hf by (unfold in_range; lia). destruct (Z.leb_spec 1 (2 ^ k - c)) as [H1|H1].
  - replace (2 ^ k - c <? 1) with false by lia. intros [= <- <- <-]. right. exists c. split; [done|].
    cbn [prod cons Xsk.mem consumer]. unfold xsk_ring_prod__fill_addr, xsk_ring_cons__comp_addr, init_cons. cbn [mask]. rewrite Hl, Hm.
    rewrite <- (wrap_small 32 c), (mask_index (2 ^ k) k c), Z.mod_small, Z.land_0_l by (done || unfold in_range; lia). lia.
  - rewrite Z.add_0_l. assert (u32 (2 ^ k) = 2 ^ k) as -> by (apply wrap_small; unfold in_range; lia).
    cbn [cached_prod cached_cons]. rewrite Hf. replace (2 ^ k - c <? 1) with true by lia. intros [= <- <- <-]. by left.
Qed.

(** Indices that differ are taken for entries. *)
Definition phantom {A} (s : state A) : Prop := exists s' idx, cstep s (Peek 1) = Some (s', Entries 1 (Some idx)).

Lemma stale_phantom {A} p c m n prod' (sh : shared A) : in_range 32 p -> in_range 32 c -> p <> c -> phantom (State prod' (XskRing p c m n) sh).
Proof.
  unfold in_range. intros Hp Hc Hne. unfold phantom. cbn [cstep cons Xsk.mem]. unfold xsk_ring_cons__peek, xsk_cons_nb_avail. cbn [cached_prod cached_cons].
  assert (p ⊟ c <> 0) as Hd. { unfold wrap. intros E. apply Z.mod_divide in E as [q E]; [nia|lia]. }
  pose proof (wrap_range 32 (p - c)) as Hr. unfold in_range in Hr. rewrite (proj2 (Z.eqb_neq _ _)) by done. rewrite (wrap_small 32 1) by (unfold in_range; lia).
  destruct (Z.ltb_spec 1 (p ⊟ c)); [|replace (p ⊟ c) with 1 by lia]; by eexists _, _.
Qed.

(** The end of a ring its structure is filled in for. *)
Lemma prod_ring_queue {A} h k a o (slots : list A) : 0 <= k <= 31 -> zlen slots = 2 ^ k ->
  (cached_prod (h_ix h) = 0 -> is_queue (2 ^ k) (shares_producer (prod_ring h (2 ^ k) a o) slots)) /\
  (0 < cached_prod (h_ix h) <= 2 ^ k -> misses (shares_producer (prod_ring h (2 ^ k) a o) slots)).
Proof.
  intros Hk Hl. unfold shares_producer, prod_ring. cbn [h_ix]. split; [intros ->|intros Hc; by apply stale_misses].
  pose proof (init_is_queue k slots Hk Hl) as Hq. unfold init, init_prod in Hq. by rewrite Hl in *.
Qed.

Lemma cons_ring_queue {A} h k a o (slots : list A) : 0 <= k <= 31 -> zlen slots = 2 ^ k ->
  (cached_prod (h_ix h) = 0 -> cached_cons (h_ix h) = 0 -> is_queue (2 ^ k) (shares_consumer (cons_ring h (2 ^ k) a o) slots)) /\
  (in_range 32 (cached_prod (h_ix h)) -> in_range 32 (cached_cons (h_ix h)) -> cached_prod (h_ix h) <> cached_cons (h_ix h) ->
    phantom (shares_consumer (cons_ring h (2 ^ k) a o) slots)).
Proof.
  intros Hk Hl. unfold shares_consumer, cons_ring. cbn [h_ix]. split; [intros -> ->|intros; by apply stale_phantom].
  pose proof (init_is_queue k slots Hk Hl) as Hq. unfold init, init_cons in Hq. by rewrite Hl in *.
Qed.


(** The two rings of a socket likewise: the program consumes what is received
    and produces what is sent. *)
Theorem socket_rings_are_queues {K : Type} `{XskKernelLaws K} alloc stale_errno off xsk_ptr umem_at rx tx name queue_id usr_config hs u n (k : K)
    i j (rx_slots tx_slots : list Z) x h1 h2 u' n' k' :
  (forall fd k o, sys_getsockopt fd k = Ok o -> o = off) -> alloc n = true -> refcount u = 0 ->
  umem_at <> 0 /\ xsk_ptr <> 0 /\ rx <> 0 /\ tx <> 0 ->
  let c := xsk_set_xdp_socket_config usr_config in
  Z.land (libbpf_flags c) XSK_LIBBPF_FLAGS__INHIBIT_PROG_LOAD <> 0 ->
  rx_size c = 2 ^ i -> tx_size c = 2 ^ j -> 0 <= i <= 31 -> 0 <= j <= 31 -> zlen rx_slots = 2 ^ i -> zlen tx_slots = 2 ^ j ->
  xsk_socket__create alloc stale_errno xsk_ptr umem_at rx tx name queue_id usr_config (hs, u, n, k) = Some (Ok x, ((h1, h2), u', n', k')) ->
  (cached_prod (h_ix hs.1) = 0 -> cached_cons (h_ix hs.1) = 0 -> is_queue (2 ^ i) (shares_consumer h1 rx_slots)) /\
  (cached_prod (h_ix hs.2) = 0 -> is_queue (2 ^ j) (shares_producer h2 tx_slots)).
Proof.
  intros Hoff Ha Hr Hargs c Hf Hi Hj Ri Rj L1 L2 E.
  pose proof (socket_create_run alloc stale_errno off Hoff xsk_ptr umem_at rx tx name queue_id usr_config hs u n k Ha Hr Hargs Hf) as Hc.
  unfold runs in Hc. rewrite E in Hc. cbn [fst snd] in Hc. destruct Hc as (_ & _ & _ & _ & a & b & _ & Eh). injection Eh as -> ->.
  fold c. rewrite Hi, Hj. by split; [apply cons_ring_queue|apply prod_ring_queue].
Qed.

(** ** A memory registered with new structures, and with used ones *)

Definition used_handle : handle := Handle (XskRing 3 4 3 4) 0 0 0.
Definition ex_register (h : handle) :=
  xsk_umem__create (fun _ => true) 4096 1 0x10000 0x4000 0x7ff0 0x7ff8 (Some (UmemConfig 4 8 2048 0)) ((h, h), 0%nat, ex_umem_at []).

