(* ===== verification/ProgLinfo.v ===== *)
(** * Line information of a loaded program (src/libbpf/src/bpf_prog_linfo.c)

    The kernel reports, for a program, the line records in the order of its
    instructions and the addresses its compiler gave the instructions the
    records belong to, with the start and length of every function.
    [bpf_prog_linfo__new] copies them and finds the first record of every
    function; the two lookups find the record of an instruction or of an
    address.  The arrays of records are bytes with a record size; [None] is an
    access outside them. *)

From S2P Require Export Memory.

(** The fields of [struct bpf_prog_info] that are read; a pointer is the memory
    it points at, [None] if it is zero. *)
Record bpf_prog_info := ProgInfo {
  nr_line_info : Z; line_info_rec_size : Z; line_info : list Z;
  nr_jited_line_info : Z; jited_line_info_rec_size : Z; jited_line_info : option (list Z);
  nr_jited_ksyms : Z; jited_ksyms : option (list Z);
  nr_jited_func_lens : Z; jited_func_lens : option (list Z)
}.

(** [struct bpf_prog_linfo]; an array entry not written yet is [None]. *)
Record bpf_prog_linfo := ProgLinfo {
  raw_linfo : list Z;
  raw_jited_linfo : list Z;
  nr_jited_linfo_per_func : list (option Z);
  jited_linfo_func_idx : list (option Z);
  nr_linfo : Z;
  nr_jited_func : Z;
  rec_size : Z;
  jited_rec_size : Z
}.

Definition sizeof_bpf_prog_linfo := 48.
(** offsetof(struct bpf_line_info, file_name_off). *)
Definition offsetof_file_name_off := 4.

Section linfo.
Context (e : endian) (alloc : Z -> bool).

(** The loop over the records: [n] of them are left, [i] is the next one, at
    offset [p] of the addresses, and [last] the address of the one before.
    Returns the two arrays, [prev_i] and [f]. *)
Fixpoint dissect_loop (n : nat) (jited : list Z) (rec : Z) (ksym_func ksym_len : list Z) (nr_func : Z)
    (per idx : list (option Z)) (prev_i i f p last : Z)
    : option (option (list (option Z) * list (option Z) * Z * Z)) :=
  match n with
  | O => Some (Some (per, idx, prev_i, f))
  | S n =>
      if negb (f <? nr_func) then Some (Some (per, idx, prev_i, f)) else
      let p := p + rec in
      cur ← load e 8 jited p;
      k ← znth ksym_func f;
      if k =? cur then
        idx ← zset idx f (Some i);
        k' ← znth ksym_func (f - 1);
        l ← znth ksym_len (f - 1);
        if l <? u64 (last - k' + 1) then Some None else
        per ← zset per (f - 1) (Some (u32 (i - prev_i)));
        dissect_loop n jited rec ksym_func ksym_len nr_func per idx i (i + 1) (f + 1) p cur
      else if cur <=? last then Some None
      else dissect_loop n jited rec ksym_func ksym_len nr_func per idx prev_i (i + 1) f p cur
  end.

(** Returns the two arrays; [Some None] is -EINVAL. *)
Definition dissect_jited_func (l : bpf_prog_linfo) (ksym_func ksym_len : list Z)
    : option (option bpf_prog_linfo) :=
  k0 ← znth ksym_func 0;
  first ← load e 8 (raw_jited_linfo l) 0;
  if negb (k0 =? first) then Some None else
  idx ← zset (jited_linfo_func_idx l) 0 (Some 0);
  r ← dissect_loop (Z.to_nat (nr_linfo l - 1)) (raw_jited_linfo l) (jited_rec_size l)
        ksym_func ksym_len (nr_jited_func l) (nr_jited_linfo_per_func l) idx 0 1 1 0 first;
  match r with
  | None => Some None
  | Some (per, idx, prev_i, f) =>
      if negb (f =? nr_jited_func l) then Some None else
      per ← zset per (nr_jited_func l - 1) (Some (nr_linfo l ⊟ prev_i));
      Some (Some (ProgLinfo (raw_linfo l) (raw_jited_linfo l) per idx (nr_linfo l)
                    (nr_jited_func l) (rec_size l) (jited_rec_size l)))
  end.

(** [Some None] is NULL. *)
Definition bpf_prog_linfo__new (info : bpf_prog_info) : option (option bpf_prog_linfo) :=
  let nr := nr_line_info info in
  if nr =? 0 then Some None else
  if line_info_rec_size info <? offsetof_file_name_off then Some None else
  if negb (alloc sizeof_bpf_prog_linfo) then Some None else
  let rec := line_info_rec_size info in
  if negb (alloc (u32 (nr * rec))) then Some None else
  raw ← get_bytes (line_info info) 0 (Z.to_nat (u32 (nr * rec)));
  let l := ProgLinfo raw [] [] [] nr 0 rec 0 in
  let nr_func := nr_jited_ksyms info in
  match jited_line_info info, jited_ksyms info, jited_func_lens info with
  | Some jlines, Some ksyms, Some lens =>
      if (nr_func =? 0) || negb (nr_jited_line_info info =? nr)
         || (jited_line_info_rec_size info <? 8) || negb (nr_jited_func_lens info =? nr_func)
      then Some (Some l) else
      let jrec := jited_line_info_rec_size info in
      if negb (alloc (u32 (nr * jrec))) then Some None else
      jraw ← get_bytes jlines 0 (Z.to_nat (u32 (nr * jrec)));
      if negb (alloc (nr_func * 4)) then Some None else
      let uninit := repeat None (Z.to_nat nr_func) in
      dissect_jited_func (ProgLinfo raw jraw uninit uninit nr nr_func rec jrec) ksyms lens
  | _, _, _ => Some (Some l)
  end.

(** The loop of both lookups: [n] records are left, the key of the next one is
    the integer of [w] bytes at [p], and [raw] is its line record. *)
Fixpoint scan (w : nat) (m : list Z) (key : Z) (n : nat) (p step raw rec : Z) : option Z :=
  match n with
  | O => Some raw
  | S n =>
      k ← load e w m p;
      if key <? k then Some raw else scan w m key n (p + step) step (raw + rec) rec
  end.

(** Both return the offset of a line record; [Some None] is NULL. *)
Definition bpf_prog_linfo__lfind_addr_func (l : bpf_prog_linfo) (addr func_idx nr_skip : Z)
    : option (option Z) :=
  if nr_jited_func l <=? func_idx then Some None else
  slot ← znth (nr_jited_linfo_per_func l) func_idx;
  nr ← slot;
  if nr <=? nr_skip then Some None else
  slot ← znth (jited_linfo_func_idx l) func_idx;
  first ← slot;
  let start := first ⊞ nr_skip in
  let raw_jited := u32 (start * jited_rec_size l) in
  a ← load e 8 (raw_jited_linfo l) raw_jited;
  if addr <? a then Some None else
  raw ← scan 8 (raw_jited_linfo l) addr (Z.to_nat (nr ⊟ nr_skip)) raw_jited (jited_rec_size l)
          (u32 (start * rec_size l)) (rec_size l);
  Some (Some (raw - rec_size l)).

Definition bpf_prog_linfo__lfind (l : bpf_prog_linfo) (insn_off nr_skip : Z) : option (option Z) :=
  if nr_linfo l <=? nr_skip then Some None else
  let raw := u32 (nr_skip * rec_size l) in
  first ← load e 4 (raw_linfo l) raw;
  if insn_off <? first then Some None else
  raw ← scan 4 (raw_linfo l) insn_off (Z.to_nat (nr_linfo l ⊟ nr_skip)) raw (rec_size l) raw (rec_size l);
  Some (Some (raw - rec_size l)).
End linfo.

(** ** What the lookups find *)

(** The integer of [w] bytes at the start of record [i]. *)
Definition key_at (e : endian) (w : nat) (m : list Z) (rec i : Z) : Z := default 0 (load e w m (i * rec)).

(** Record [r] is the last one of those from [first] on, and before [limit],
    with a key up to [key] in front of any with a greater key. *)
Definition last_below (keys : Z -> Z) (first limit key r : Z) : Prop :=
  first <= r < limit /\ (forall i, first <= i <= r -> keys i <= key) /\
  (r + 1 < limit -> key < keys (r + 1)).

(** The functions of a program with [n] records at the addresses [addrs]: the
    records of function [f] are the [per f] ones from [first f] on.  Within
    every function but the last the addresses increase. *)
Definition functions (addrs : Z -> Z) (ksyms : list Z) (n m : Z) (first per : Z -> Z) : Prop :=
  first 0 = 0 /\
  (forall f, 0 <= f < m -> 0 < per f /\ 0 <= first f /\ znth ksyms f = Some (addrs (first f)) /\
     first f + per f = (if f =? m - 1 then n else first (f + 1))) /\
  (forall f i, 0 <= f < m - 1 -> first f <= i -> i + 1 < first f + per f -> addrs i < addrs (i + 1)).

(** An entry of an array that has been written. *)
Definition slot (l : list (option Z)) (f : Z) : Z :=
  match znth l f with Some (Some v) => v | _ => 0 end.

Lemma key_load e w m rec n i :
  Z.of_nat w <= rec -> n * rec <= zlen m -> 0 <= i < n ->
  load e w m (i * rec) = Some (key_at e w m rec i).
Proof.
  intros Hw Hm Hi. unfold key_at. destruct (load_ex e w m (i * rec)) as [v E]; [nia|nia|]. by rewrite E.
Qed.

(** ** Finding the functions *)

Section dissect.
Context (e : endian) (jited : list Z) (rec n m : Z) (ksyms lens : list Z).
Hypothesis Hrec : 8 <= rec.
Hypothesis Hn : 0 < n < 2 ^ 32.
Hypothesis Hj : n * rec <= zlen jited.
Hypothesis Hk : zlen ksyms = m.
Hypothesis Hl : zlen lens = m.

Let addrs := key_at e 8 jited rec.

(** The records before [i] belong to the first [f] functions, the last of which
    starts at [prev_i]. *)
Record dinv (per idx : list (option Z)) (prev_i i f : Z) : Prop := {
  d_f : 1 <= f <= m;
  d_i : 0 <= prev_i < i /\ i <= n;
  d_len : zlen per = m /\ zlen idx = m;
  d_idx g : 0 <= g < f -> znth idx g = Some (Some (slot idx g)) /\ 0 <= slot idx g /\
    znth ksyms g = Some (addrs (slot idx g));
  d_0 : slot idx 0 = 0;
  d_prev : slot idx (f - 1) = prev_i;
  d_per g : 0 <= g < f - 1 -> znth per g = Some (Some (slot per g)) /\ 0 < slot per g /\
    slot idx g + slot per g = slot idx (g + 1);
  d_inc g j : 0 <= g < f - 1 -> slot idx g <= j -> j + 1 < slot idx (g + 1) -> addrs j < addrs (j + 1)
}.

Lemma slot_set l i v l' g :
  zset l i (Some v) = Some l' -> slot l' g = if decide (i = g) then v else slot l g.
Proof. intros H. unfold slot. rewrite (znth_zset _ _ _ _ _ H). by case_decide. Qed.

(** Entering the next function at record [i]. *)
Lemma dinv_enter per idx per' idx' prev_i i f :
  dinv per idx prev_i i f -> f < m -> i < n -> znth ksyms f = Some (addrs i) ->
  (forall j, prev_i <= j -> j + 1 < i -> addrs j < addrs (j + 1)) ->
  zset idx f (Some i) = Some idx' -> zset per (f - 1) (Some (u32 (i - prev_i))) = Some per' ->
  dinv per' idx' i (i + 1) (f + 1).
Proof.
  intros D Hf Hi Hks Hinc Hidx Hper. destruct D as [Df [[Di0 Di1] Di2] [Dl1 Dl2] Dx D0 Dp Dpe Dinc].
  rewrite (wrap_small 32) in Hper by (unfold in_range; lia).
  split.
  - lia.
  - lia.
  - by rewrite (zlen_zset _ _ _ _ Hidx), (zlen_zset _ _ _ _ Hper).
  - intros g Hg. rewrite (slot_set _ _ _ _ g Hidx), (znth_zset _ _ _ _ _ Hidx).
    case_decide; subst; [split_and!; (done || lia)|]. apply Dx. lia.
  - rewrite (slot_set _ _ _ _ 0 Hidx), decide_False by lia. done.
  - rewrite (slot_set _ _ _ _ _ Hidx), decide_True by lia. done.
  - intros g Hg. rewrite !(slot_set _ _ _ _ _ Hidx), (slot_set _ _ _ _ _ Hper), (znth_zset _ _ _ _ _ Hper).
    rewrite (decide_False (P := f = g)) by lia. destruct (decide (f - 1 = g)) as [<-|Hne].
    + rewrite decide_True by lia. rewrite Dp. split_and!; (done || lia).
    + rewrite decide_False by lia. apply Dpe. lia.
  - intros g j Hg. rewrite !(slot_set _ _ _ _ _ Hidx). rewrite (decide_False (P := f = g)) by lia.
    destruct (decide (f = g + 1)) as [->|Hne].
    + replace g with (g + 1 - 1) by lia. rewrite Dp. apply Hinc.
    + apply Dinc. lia.
Qed.

Lemma dissect_loop_spec k per idx prev_i i f :
  dinv per idx prev_i i f -> i + Z.of_nat k = n ->
  (forall j, prev_i <= j -> j + 1 < i -> addrs j < addrs (j + 1)) ->
  exists r, dissect_loop e k jited rec ksyms lens m per idx prev_i i f ((i - 1) * rec) (addrs (i - 1)) = Some r /\
  forall per' idx' prev' f', r = Some (per', idx', prev', f') -> exists i', dinv per' idx' prev' i' f'.
Proof.
  revert per idx prev_i i f. induction k as [|k IH]; intros per idx prev_i i f D Hi Hinc; cbn [dissect_loop].
  { eexists; split; [done|]. intros ???? [= <- <- <- <-]. eauto. }
  pose proof D as [Df [Di _] [Dl1 Dl2] _ _ _ _ _].
  destruct (Z.ltb_spec f m) as [Hf|Hf]; cbn [negb]; cycle 1.
  { eexists; split; [done|]. intros ???? [= <- <- <- <-]. eauto. }
  replace ((i - 1) * rec + rec) with (i * rec) by lia.
  rewrite (key_load e 8 jited rec n i) by lia. cbn [mbind option_bind]. fold (addrs i).
  destruct (proj2 (znth_is_Some ksyms f)) as [kf Ekf]; [lia|]. rewrite Ekf. cbn [mbind option_bind].
  destruct (Z.eqb_spec kf (addrs i)) as [->|Hne].
  - destruct (proj2 (znth_is_Some ksyms (f - 1))) as [kp Ekp]; [lia|].
    destruct (proj2 (znth_is_Some lens (f - 1))) as [lp Elp]; [lia|].
    destruct (proj2 (zset_is_Some idx f (Some i))) as [idx' Eidx]; [lia|].
    destruct (proj2 (zset_is_Some per (f - 1) (Some (u32 (i - prev_i))))) as [per' Eper]; [lia|].
    rewrite Eidx, Ekp, Elp. cbn [mbind option_bind].
    destruct (lp <? _); [eexists; split; [done|by intros]|]. rewrite Eper. cbn [mbind option_bind].
    replace (i * rec) with ((i + 1 - 1) * rec) by lia. replace (addrs i) with (addrs (i + 1 - 1)) by (f_equal; lia).
    apply IH; [|lia|lia]. by apply (dinv_enter per idx per' idx' prev_i i f D); try lia.
  - destruct (Z.leb_spec (addrs i) (addrs (i - 1))) as [|Hlt]; [eexists; split; [done|by intros]|].
    replace (i * rec) with ((i + 1 - 1) * rec) by lia. replace (addrs i) with (addrs (i + 1 - 1)) by (f_equal; lia).
    apply IH; [|lia|].
    + destruct D as [? ? ? ? ? ? ? ?]. split; try done. lia.
    + intros j Hp Hj'. destruct (decide (j + 1 = i)) as [Hji|]; [|apply Hinc; lia].
      replace j with (i - 1) by lia. by replace (i - 1 + 1) with i by lia.
Qed.

(** When every function was found the records are divided among them. *)
Lemma dinv_functions per idx prev_i i per' :
  dinv per idx prev_i i m -> zset per (m - 1) (Some (n ⊟ prev_i)) = Some per' ->
  functions addrs ksyms n m (slot idx) (slot per') /\
  (forall f, 0 <= f < m -> znth idx f = Some (Some (slot idx f)) /\ znth per' f = Some (Some (slot per' f))).
Proof.
  intros D Hper. destruct D as [Df [[Di0 Di1] Di2] [Dl1 Dl2] Dx D0 Dp Dpe Dinc].
  rewrite (wrap_small 32) in Hper by (unfold in_range; lia). split; [split_and!; [done| |]|].
  - intros f Hf. rewrite (slot_set _ _ _ _ _ Hper). destruct (Dx f Hf) as (_ & H0 & Hks).
    destruct (Z.eqb_spec f (m - 1)) as [->|Hne].
    + rewrite decide_True by done. rewrite Dp in *. split_and!; (done || lia).
    + rewrite decide_False by lia. destruct (Dpe f ltac:(lia)) as (_ & ? & ?). done.
  - intros f j Hf. rewrite (slot_set _ _ _ _ _ Hper), decide_False by lia.
    destruct (Dpe f ltac:(lia)) as (_ & _ & ->). apply Dinc. lia.
  - intros f Hf. rewrite (slot_set _ _ _ _ _ Hper), (znth_zset _ _ _ _ _ Hper). split; [by apply Dx|].
    case_decide; [done|]. apply Dpe. lia.
Qed.
End dissect.

(** The object gives every function its records. *)
Definition has_functions (e : endian) (ksyms : list Z) (l : bpf_prog_linfo) : Prop :=
  let first := slot (jited_linfo_func_idx l) in
  let per := slot (nr_jited_linfo_per_func l) in
  functions (key_at e 8 (raw_jited_linfo l) (jited_rec_size l)) ksyms (nr_linfo l) (nr_jited_func l) first per /\
  forall f, 0 <= f < nr_jited_func l ->
    znth (jited_linfo_func_idx l) f = Some (Some (first f)) /\
    znth (nr_jited_linfo_per_func l) f = Some (Some (per f)).

Lemma zlen_repeat_None k : 0 <= k -> zlen (repeat (@None Z) (Z.to_nat k)) = k.
Proof. intros. unfold zlen. rewrite repeat_length. lia. Qed.

Lemma dissect_func_spec e raw jraw n m rec jrec ksyms lens :
  8 <= jrec -> 0 < n < 2 ^ 32 -> n * jrec <= zlen jraw -> zlen ksyms = m -> zlen lens = m -> 0 < m ->
  let uninit := repeat None (Z.to_nat m) in
  let l0 := ProgLinfo raw jraw uninit uninit n m rec jrec in
  exists r, dissect_jited_func e l0 ksyms lens = Some r /\
  forall l, r = Some l ->
    raw_linfo l = raw /\ raw_jited_linfo l = jraw /\ nr_linfo l = n /\ nr_jited_func l = m /\
    rec_size l = rec /\ jited_rec_size l = jrec /\ has_functions e ksyms l.
Proof.
  intros Hrec Hn Hj Hk Hl Hm. cbv zeta. unfold dissect_jited_func.
  cbn [raw_jited_linfo jited_linfo_func_idx nr_jited_linfo_per_func nr_linfo nr_jited_func rec_size jited_rec_size raw_linfo].
  destruct (proj2 (znth_is_Some ksyms 0)) as [k0 Ek0]; [lia|].
  rewrite Ek0. cbn [mbind option_bind].
  pose proof (key_load e 8 jraw jrec n 0 ltac:(lia) Hj ltac:(lia)) as L0. rewrite Z.mul_0_l in L0.
  rewrite L0. cbn [mbind option_bind].
  destruct (Z.eqb_spec k0 (key_at e 8 jraw jrec 0)) as [->|]; [|eexists; split; [done|by intros]].
  cbn [negb]. set (uninit := repeat None (Z.to_nat m)).
  assert (zlen uninit = m) as Hu by (apply zlen_repeat_None; lia).
  destruct (proj2 (zset_is_Some uninit 0 (Some 0))) as [idx Eidx]; [lia|]. rewrite Eidx. cbn [mbind option_bind].
  assert (dinv e jraw jrec n m ksyms uninit idx 0 1 1) as D.
  { split; try lia.
    - by rewrite (zlen_zset _ _ _ _ Eidx).
    - intros g Hg. assert (g = 0) as -> by lia.
      rewrite (slot_set _ _ _ _ _ Eidx), (znth_zset _ _ _ _ _ Eidx), !decide_True by lia. done.
    - by rewrite (slot_set _ _ _ _ _ Eidx), decide_True by lia.
    - by rewrite (slot_set _ _ _ _ _ Eidx), decide_True by lia. }
  destruct (dissect_loop_spec e jraw jrec n m ksyms lens ltac:(lia) Hn Hj Hk Hl (Z.to_nat (n - 1)) uninit idx 0 1 1 D)
    as (r & Hr & Hd); [lia|lia|].
  replace (0 : Z) with ((1 - 1) * jrec) in Hr at 2 by lia. replace (1 - 1) with 0 in Hr by lia.
  rewrite Z.mul_0_l in Hr. rewrite Hr. cbn [mbind option_bind].
  destruct r as [[[[per idx'] prev] f]|]; [|eexists; split; [done|by intros]].
  destruct (Hd per idx' prev f eq_refl) as [i' D'].
  destruct (Z.eqb_spec f m) as [->|]; [|eexists; split; [done|by intros]]. cbn [negb].
  destruct (proj2 (zset_is_Some per (m - 1) (Some (n ⊟ prev)))) as [per' Eper].
  { rewrite (proj1 (d_len _ _ _ _ _ _ _ _ _ _ _ D')). lia. }
  rewrite Eper. cbn [mbind option_bind]. eexists; split; [done|]. intros l [= <-].
  split_and!; [done..|].
  exact (dinv_functions e jraw jrec n m ksyms Hn per idx' prev i' per' D' Eper).
Qed.

(** ** The lookups *)

Section lookup.
Context (e : endian) (w : nat) (m : list Z) (rec n : Z).
Hypothesis Hrec : Z.of_nat w <= rec.
Hypothesis Hm : n * rec <= zlen m.

Let keys := key_at e w m rec.

Lemma scan_spec key k i raw rrec :
  0 <= i -> i + Z.of_nat k <= n ->
  exists c, scan e w m key k (i * rec) rec raw rrec = Some (raw + c * rrec) /\
    0 <= c <= Z.of_nat k /\ (forall j, i <= j < i + c -> keys j <= key) /\
    (c < Z.of_nat k -> key < keys (i + c)).
Proof.
  revert i raw. induction k as [|k IH]; intros i raw H0 Hi; cbn [scan].
  { exists 0. split_and!; [f_equal; lia|lia|lia|lia|lia]. }
  rewrite (key_load e w m rec n i) by (done || lia). cbn [mbind option_bind]. fold (keys i).
  destruct (Z.ltb_spec key (keys i)) as [Hlt|Hle].
  - exists 0. split_and!; [f_equal; lia|lia|lia|lia|]. intros _. by rewrite Z.add_0_r.
  - replace (i * rec + rec) with ((i + 1) * rec) by lia.
    destruct (IH (i + 1) (raw + rrec)) as (c & -> & Hc & Hb & Hs); [lia|lia|].
    exists (1 + c). split_and!; [f_equal; lia|lia|lia| |].
    + intros j Hj. destruct (decide (j = i)) as [->|]; [done|]. apply Hb. lia.
    + intros Hck. replace (i + (1 + c)) with (i + 1 + c) by lia. apply Hs. lia.
Qed.

(** A scan that starts at a record with a small enough key stops behind the
    last such record. *)
Lemma scan_last key first limit rrec :
  0 <= first < limit -> limit <= n -> keys first <= key ->
  exists r, scan e w m key (Z.to_nat (limit - first)) (first * rec) rec (first * rrec) rrec
      = Some (r * rrec + rrec) /\ last_below keys first limit key r.
Proof.
  intros Hf Hl Hk. destruct (scan_spec key (Z.to_nat (limit - first)) first (first * rrec) rrec)
    as (c & -> & Hc & Hb & Hs); [lia|lia|].
  assert (c <> 0). { intros ->. rewrite Z.add_0_r in Hs. specialize (Hs ltac:(lia)). lia. }
  exists (first + c - 1). split; [f_equal; lia|]. split_and!; [lia|lia| |].
  - intros j Hj. apply Hb. lia.
  - intros Hr. replace (first + c - 1 + 1) with (first + c) by lia. apply Hs. lia.
Qed.
End lookup.

Lemma functions_bound addrs ksyms n m first per f :
  functions addrs ksyms n m first per -> 0 <= f < m -> first f + per f <= n.
Proof.
  intros (_ & Hf & _) Hr. assert (forall k, (Z.of_nat k < m) -> first (m - 1 - Z.of_nat k) + per (m - 1 - Z.of_nat k) <= n) as H.
  { induction k as [|k IH]; intros Hk.
    - destruct (Hf (m - 1 - Z.of_nat 0) ltac:(lia)) as (_ & _ & _ & ->). by rewrite (proj2 (Z.eqb_eq _ _)) by lia.
    - destruct (Hf (m - 1 - Z.of_nat (S k)) ltac:(lia)) as (_ & _ & _ & ->). rewrite (proj2 (Z.eqb_neq _ _)) by lia.
      replace (m - 1 - Z.of_nat (S k) + 1) with (m - 1 - Z.of_nat k) by lia.
      destruct (Hf (m - 1 - Z.of_nat k) ltac:(lia)) as (? & _). specialize (IH ltac:(lia)). lia. }
  specialize (H (Z.to_nat (m - 1 - f)) ltac:(lia)). by replace (m - 1 - Z.of_nat (Z.to_nat (m - 1 - f))) with f in H by lia.
Qed.

(** The arrays have the sizes the kernel reports, and the tables of records are
    smaller than 4 GiB: their sizes are computed in 32 bits. *)
Definition info_wf (info : bpf_prog_info) : Prop :=
  0 <= nr_line_info info < 2 ^ 32 /\ 0 <= line_info_rec_size info /\
  nr_line_info info * line_info_rec_size info < 2 ^ 32 /\
  nr_line_info info * line_info_rec_size info <= zlen (line_info info) /\
  0 <= nr_jited_ksyms info /\
  (forall m, jited_line_info info = Some m ->
     nr_jited_line_info info * jited_line_info_rec_size info < 2 ^ 32 /\
     nr_jited_line_info info * jited_line_info_rec_size info <= zlen m) /\
  (forall ks, jited_ksyms info = Some ks -> zlen ks = nr_jited_ksyms info) /\
  (forall ls, jited_func_lens info = Some ls -> zlen ls = nr_jited_func_lens info).

Lemma zlen_get_bytes m p n bs : get_bytes m p (Z.to_nat n) = Some bs -> 0 <= n -> zlen bs = n.
Proof. intros H%length_get_bytes ?. unfold zlen. lia. Qed.

(** What [bpf_prog_linfo__new] makes of the information. *)
Lemma linfo_new_spec e alloc info :
  info_wf info -> (forall n, alloc n = true) ->
  exists r, bpf_prog_linfo__new e alloc info = Some r /\
  forall l, r = Some l ->
    0 < nr_linfo l < 2 ^ 32 /\ nr_linfo l = nr_line_info info /\
    4 <= rec_size l /\ nr_linfo l * rec_size l = zlen (raw_linfo l) /\ zlen (raw_linfo l) < 2 ^ 32 /\
    (nr_jited_func l <> 0 -> exists ksyms, jited_ksyms info = Some ksyms /\
       8 <= jited_rec_size l /\ nr_linfo l * jited_rec_size l = zlen (raw_jited_linfo l) /\
       zlen (raw_jited_linfo l) < 2 ^ 32 /\ has_functions e ksyms l).
Proof.
  intros (Hnr & Hrec & Hov & Hlen & Hks0 & Hj & Hk & Hlens) Ha. unfold bpf_prog_linfo__new. rewrite !Ha. cbn [negb].
  destruct (Z.eqb_spec (nr_line_info info) 0) as [|Hz]; [eexists; split; [done|by intros]|].
  unfold offsetof_file_name_off.
  destruct (Z.ltb_spec (line_info_rec_size info) 4) as [|H4]; [eexists; split; [done|by intros]|].
  rewrite (wrap_small 32 (nr_line_info info * line_info_rec_size info)) by (unfold in_range; nia).
  destruct (get_bytes_ex (line_info info) 0 (Z.to_nat (nr_line_info info * line_info_rec_size info)))
    as [raw Eraw]; [lia|nia|]. rewrite Eraw. cbn [mbind option_bind].
  apply zlen_get_bytes in Eraw; [|nia].
  assert (forall r, r = Some (ProgLinfo raw [] [] [] (nr_line_info info) 0 (line_info_rec_size info) 0) ->
    exists r', Some r = Some r' /\ forall l, r' = Some l ->
    0 < nr_linfo l < 2 ^ 32 /\ nr_linfo l = nr_line_info info /\
    4 <= rec_size l /\ nr_linfo l * rec_size l = zlen (raw_linfo l) /\ zlen (raw_linfo l) < 2 ^ 32 /\
    (nr_jited_func l <> 0 -> exists ksyms, jited_ksyms info = Some ksyms /\
       8 <= jited_rec_size l /\ nr_linfo l * jited_rec_size l = zlen (raw_jited_linfo l) /\
       zlen (raw_jited_linfo l) < 2 ^ 32 /\ has_functions e ksyms l)) as Hplain.
  { intros r ->. eexists; split; [done|]. intros l [= <-].
    cbn [nr_linfo rec_size raw_linfo nr_jited_func]. split_and!; try done; lia. }
  destruct (jited_line_info info) as [jl|]; [|by apply Hplain].
  destruct (jited_ksyms info) as [ks|]; [|by apply Hplain].
  destruct (jited_func_lens info) as [ls|]; [|by apply Hplain].
  destruct (Z.eqb_spec (nr_jited_ksyms info) 0) as [|Hm]; [by apply Hplain|].
  destruct (Z.eqb_spec (nr_jited_line_info info) (nr_line_info info)) as [Hjn|]; [|by apply Hplain].
  destruct (Z.ltb_spec (jited_line_info_rec_size info) 8) as [|H8]; [by apply Hplain|].
  destruct (Z.eqb_spec (nr_jited_func_lens info) (nr_jited_ksyms info)) as [Hln|]; [|by apply Hplain].
  cbn [negb orb]. destruct (Hj jl eq_refl) as [Hj1 Hj2]. rewrite Hjn in Hj1, Hj2.
  rewrite (wrap_small 32 (_ * _)) by (unfold in_range; nia).
  destruct (get_bytes_ex jl 0 (Z.to_nat (nr_line_info info * jited_line_info_rec_size info)))
    as [jraw Ejraw]; [lia|nia|]. rewrite Ejraw. cbn [mbind option_bind].
  apply zlen_get_bytes in Ejraw; [|nia].
  destruct (dissect_func_spec e raw jraw (nr_line_info info) (nr_jited_ksyms info) (line_info_rec_size info)
    (jited_line_info_rec_size info) ks ls) as (r & -> & Hr); [lia|lia|lia|by apply Hk|rewrite <- Hln; by apply Hlens|lia|].
  eexists; split; [done|]. intros l Hl. destruct (Hr l Hl) as (E1 & E2 & E3 & E4 & E5 & E6 & E7).
  rewrite E1, E2, E3, E5, E6. split_and!; try lia; try done. intros _. exists ks. split_and!; try done; lia.
Qed.

Lemma lfind_spec e l off skip :
  0 < nr_linfo l < 2 ^ 32 -> 4 <= rec_size l -> nr_linfo l * rec_size l = zlen (raw_linfo l) ->
  zlen (raw_linfo l) < 2 ^ 32 -> 0 <= skip ->
  let insns := key_at e 4 (raw_linfo l) (rec_size l) in
  (nr_linfo l <= skip \/ off < insns skip -> bpf_prog_linfo__lfind e l off skip = Some None) /\
  (skip < nr_linfo l -> insns skip <= off -> exists r,
     bpf_prog_linfo__lfind e l off skip = Some (Some (r * rec_size l)) /\
     last_below insns skip (nr_linfo l) off r).
Proof.
  intros Hn Hrec Hraw Hrawl Hs. cbv zeta. unfold bpf_prog_linfo__lfind.
  destruct (Z.leb_spec (nr_linfo l) skip) as [|Hlt]; [split; [done|lia]|].
  rewrite (wrap_small 32 (skip * rec_size l)) by (unfold in_range; nia).
  rewrite (key_load e 4 (raw_linfo l) (rec_size l) (nr_linfo l) skip) by lia. cbn [mbind option_bind].
  set (insns := key_at e 4 (raw_linfo l) (rec_size l)).
  fold (insns skip). destruct (Z.ltb_spec off (insns skip)) as [|Hle]; [split; [done|lia]|].
  split; [lia|]. intros _ _. rewrite (wrap_small 32 (nr_linfo l - skip)) by (unfold in_range; lia).
  destruct (scan_last e 4 (raw_linfo l) (rec_size l) (nr_linfo l) ltac:(lia) ltac:(lia) off skip (nr_linfo l)
    (rec_size l)) as (r & -> & Hr); [lia|lia|done|].
  exists r. split; [|done]. cbn [mbind option_bind]. do 2 f_equal. lia.
Qed.

Lemma lfind_addr_spec e l ksyms addr f skip :
  0 < nr_linfo l < 2 ^ 32 -> 4 <= rec_size l -> nr_linfo l * rec_size l = zlen (raw_linfo l) ->
  zlen (raw_linfo l) < 2 ^ 32 -> 8 <= jited_rec_size l ->
  nr_linfo l * jited_rec_size l = zlen (raw_jited_linfo l) -> zlen (raw_jited_linfo l) < 2 ^ 32 ->
  has_functions e ksyms l -> 0 <= f -> 0 <= skip ->
  let addrs := key_at e 8 (raw_jited_linfo l) (jited_rec_size l) in
  let first := slot (jited_linfo_func_idx l) in
  let per := slot (nr_jited_linfo_per_func l) in
  (nr_jited_func l <= f \/ per f <= skip \/ addr < addrs (first f + skip) ->
     bpf_prog_linfo__lfind_addr_func e l addr f skip = Some None) /\
  (f < nr_jited_func l -> skip < per f -> addrs (first f + skip) <= addr -> exists r,
     bpf_prog_linfo__lfind_addr_func e l addr f skip = Some (Some (r * rec_size l)) /\
     last_below addrs (first f + skip) (first f + per f) addr r).
Proof.
  intros Hn Hrec Hraw Hrawl Hjrec Hjraw Hjrawl [Hfn Hslots] Hf0 Hs. cbv zeta. unfold bpf_prog_linfo__lfind_addr_func.
  destruct (Z.leb_spec (nr_jited_func l) f) as [|Hf]; [split; [done|lia]|].
  destruct (Hslots f ltac:(lia)) as [E1 E2]. rewrite E1, E2. cbn [mbind option_bind].
  pose proof (functions_bound _ _ _ _ _ _ f Hfn ltac:(lia)) as Hb.
  destruct Hfn as (_ & Hfn & _). destruct (Hfn f ltac:(lia)) as (Hp & H0 & _ & _).
  set (first := slot (jited_linfo_func_idx l)) in *. set (per := slot (nr_jited_linfo_per_func l)) in *.
  set (addrs := key_at e 8 (raw_jited_linfo l) (jited_rec_size l)) in *.
  destruct (Z.leb_spec (per f) skip) as [|Hlt]; [split; [done|lia]|].
  rewrite (wrap_small 32 (first f + skip)) by (unfold in_range; lia).
  rewrite (wrap_small 32 (_ * jited_rec_size l)) by (unfold in_range; nia).
  rewrite (wrap_small 32 (_ * rec_size l)) by (unfold in_range; nia).
  rewrite (key_load e 8 (raw_jited_linfo l) (jited_rec_size l) (nr_linfo l)) by lia. cbn [mbind option_bind].
  fold addrs. destruct (Z.ltb_spec addr (addrs (first f + skip))) as [|Hle]; [split; [done|lia]|].
  split; [lia|]. intros _ _ _. rewrite (wrap_small 32 (per f - skip)) by (unfold in_range; lia).
  destruct (scan_last e 8 (raw_jited_linfo l) (jited_rec_size l) (nr_linfo l) ltac:(lia) ltac:(lia) addr
    (first f + skip) (first f + per f) (rec_size l)) as (r & Hscan & Hr); [lia|lia|done|].
  replace (first f + per f - (first f + skip)) with (per f - skip) in Hscan by lia.
  rewrite Hscan. exists r. split; [|done]. cbn [mbind option_bind]. do 2 f_equal. lia.
Qed.

(** C20. Line information that is accepted divides the records among the functions
    of the program.  The record found for an instruction is the last one whose
    offset is not beyond it; the record found for an address in a function is
    the last one of that function whose address is not beyond it.  Skipping
    everything, an unknown function and an offset or address in front of the
    first record give NULL.  All reads stay inside the arrays. *)
Theorem linfo_lookup_spec e alloc info :
  info_wf info -> (forall n, alloc n = true) ->
  exists r, bpf_prog_linfo__new e alloc info = Some r /\
  forall l, r = Some l ->
    let n := nr_linfo l in
    let insns := key_at e 4 (raw_linfo l) (rec_size l) in
    let addrs := key_at e 8 (raw_jited_linfo l) (jited_rec_size l) in
    (forall off skip, 0 <= skip ->
       (n <= skip \/ off < insns skip -> bpf_prog_linfo__lfind e l off skip = Some None) /\
       (skip < n -> insns skip <= off -> exists r,
          bpf_prog_linfo__lfind e l off skip = Some (Some (r * rec_size l)) /\ last_below insns skip n off r)) /\
    (nr_jited_func l <> 0 -> exists ksyms first per, jited_ksyms info = Some ksyms /\
       functions addrs ksyms n (nr_jited_func l) first per /\
       forall addr f skip, 0 <= f -> 0 <= skip ->
         (nr_jited_func l <= f \/ per f <= skip \/ addr < addrs (first f + skip) ->
            bpf_prog_linfo__lfind_addr_func e l addr f skip = Some None) /\
         (f < nr_jited_func l -> skip < per f -> addrs (first f + skip) <= addr -> exists r,
            bpf_prog_linfo__lfind_addr_func e l addr f skip = Some (Some (r * rec_size l)) /\
            last_below addrs (first f + skip) (first f + per f) addr r)).
Proof.
  intros Hwf Ha. destruct (linfo_new_spec e alloc info Hwf Ha) as (r & Hr & Hspec).
  exists r. split; [done|]. intros l Hl. destruct (Hspec l Hl) as (Hn & _ & Hrec & Hraw & Hrawl & Hjit). cbv zeta. split.
  - intros off skip Hs. by apply lfind_spec.
  - intros Hm. destruct (Hjit Hm) as (ksyms & Hks & Hjrec & Hjraw & Hjrawl & Hf).
    exists ksyms, (slot (jited_linfo_func_idx l)), (slot (nr_jited_linfo_per_func l)).
    split_and!; [done|apply Hf|]. intros addr f skip Hf0 Hs. by apply (lfind_addr_spec e l ksyms).
Qed.

(** Two functions at 1000 and 2000 with two records each. *)
Definition ex_info : bpf_prog_info :=
  ProgInfo 4 8 (flat_map (fun k => split LE 4 k ++ [0; 0; 0; 0]) [0; 2; 5; 7])
    4 8 (Some (flat_map (split LE 8) [1000; 1010; 2000; 2012])) 2 (Some [1000; 2000]) 2 (Some [50; 60]).

Lemma linfo_lookup_spec_witness :
  (exists l, bpf_prog_linfo__new LE (fun _ => true) ex_info = Some (Some l) /\
     bpf_prog_linfo__lfind_addr_func LE l 1005 0 0 = Some (Some 0) /\
     bpf_prog_linfo__lfind_addr_func LE l 2050 1 0 = Some (Some 24)) /\
  exists r, bpf_prog_linfo__new LE (fun _ => true) ex_info = Some r /\
  forall l, r = Some l ->
    let n := nr_linfo l in
    let insns := key_at LE 4 (raw_linfo l) (rec_size l) in
    let addrs := key_at LE 8 (raw_jited_linfo l) (jited_rec_size l) in
    (forall off skip, 0 <= skip ->
       (n <= skip \/ off < insns skip -> bpf_prog_linfo__lfind LE l off skip = Some None) /\
       (skip < n -> insns skip <= off -> exists r,
          bpf_prog_linfo__lfind LE l off skip = Some (Some (r * rec_size l)) /\ last_below insns skip n off r)) /\
    (nr_jited_func l <> 0 -> exists ksyms first per, jited_ksyms ex_info = Some ksyms /\
       functions addrs ksyms n (nr_jited_func l) first per /\
       forall addr f skip, 0 <= f -> 0 <= skip ->
         (nr_jited_func l <= f \/ per f <= skip \/ addr < addrs (first f + skip) ->
            bpf_prog_linfo__lfind_addr_func LE l addr f skip = Some None) /\
         (f < nr_jited_func l -> skip < per f -> addrs (first f + skip) <= addr -> exists r,
            bpf_prog_linfo__lfind_addr_func LE l addr f skip = Some (Some (r * rec_size l)) /\
            last_below addrs (first f + skip) (first f + per f) addr r)).
Proof.
  split.
  { eexists. split; [vm_compute; reflexivity|]. split; vm_compute; reflexivity. }
  assert (info_wf ex_info) as H.
  { unfold info_wf. split_and!; try (vm_compute; congruence).
    - intros x Hx. vm_compute in Hx. injection Hx as <-. split; vm_compute; congruence.
    - intros x Hx. vm_compute in Hx. injection Hx as <-. vm_compute. reflexivity.
    - intros x Hx. vm_compute in Hx. injection Hx as <-. vm_compute. reflexivity. }
  exact (linfo_lookup_spec LE (fun _ => true) ex_info H (fun _ => eq_refl)).
Defined.
