(* ===== verification/BtfGraph.v ===== *)
(** * BTF types as a graph (src/libbpf/src/btf.c)

    The records behind a type, the hashes and comparisons deduplication uses,
    and what it means for two types to be the same: their graphs of referenced
    types unfold alike.  Types are the decoded records [desc] of Btf.v. *)

From stdpp Require Export gmap.
From S2P Require Export Btf.

(** ** The records behind a type (include/uapi/linux/btf.h) *)

Record btf_enum := Enum { en_name_off : Z; en_val : Z }.
Record btf_array := Array { a_type : Z; a_index_type : Z; a_nelems : Z }.
Record btf_member := Member { m_name_off : Z; m_type : Z; m_offset : Z }.
Record btf_param := Param { p_name_off : Z; p_type : Z }.

#[export] Instance btf_enum_eq_dec : EqDecision btf_enum.
Proof. solve_decision. Defined.
#[export] Instance btf_array_eq_dec : EqDecision btf_array.
Proof. solve_decision. Defined.
#[export] Instance btf_member_eq_dec : EqDecision btf_member.
Proof. solve_decision. Defined.
#[export] Instance btf_param_eq_dec : EqDecision btf_param.
Proof. solve_decision. Defined.
#[export] Instance desc_eq_dec : EqDecision desc.
Proof. solve_decision. Defined.

Definition vlen (t : desc) : nat := Z.to_nat (BTF_INFO_VLEN (d_info t)).
Definition BTF_INFO_KFLAG (info : Z) : Z := Z.shiftr info 31.

(** Reading [n] records from the words behind a type; [None] reads past it. *)
Fixpoint read_enums (n : nat) (ws : list Z) : option (list btf_enum) :=
  match n, ws with
  | O, _ => Some []
  | S n, a :: b :: ws => l ← read_enums n ws; Some (Enum a b :: l)
  | S _, _ => None
  end.

Fixpoint read_members (n : nat) (ws : list Z) : option (list btf_member) :=
  match n, ws with
  | O, _ => Some []
  | S n, a :: b :: c :: ws => l ← read_members n ws; Some (Member a b c :: l)
  | S _, _ => None
  end.

Fixpoint read_params (n : nat) (ws : list Z) : option (list btf_param) :=
  match n, ws with
  | O, _ => Some []
  | S n, a :: b :: ws => l ← read_params n ws; Some (Param a b :: l)
  | S _, _ => None
  end.

Definition read_array (ws : list Z) : option btf_array :=
  match ws with a :: b :: c :: _ => Some (Array a b c) | _ => None end.

Definition read_int (ws : list Z) : option Z := match ws with w :: _ => Some w | [] => None end.

(** ** Hashes *)

Definition GOLDEN_RATIO_PRIME := 0x9e370001.
Definition hash_combine (h value : Z) : Z := u32 (h * 37 + value * GOLDEN_RATIO_PRIME).

Definition btf_hash_common (t : desc) : Z :=
  hash_combine (hash_combine (hash_combine 0 (d_name_off t)) (d_info t)) (d_size t).

Definition btf_hash_int (t : desc) : option Z :=
  info ← read_int (d_extra t); Some (hash_combine (btf_hash_common t) info).

Definition btf_hash_enum (t : desc) : option Z :=
  ms ← read_enums (vlen t) (d_extra t);
  Some (fold_left (fun h m => hash_combine (hash_combine h (en_name_off m)) (en_val m)) ms (btf_hash_common t)).

Definition btf_hash_struct (t : desc) : option Z :=
  ms ← read_members (vlen t) (d_extra t);
  Some (fold_left (fun h m => hash_combine (hash_combine h (m_name_off m)) (m_offset m)) ms (btf_hash_common t)).

Definition btf_hash_array (t : desc) : option Z :=
  a ← read_array (d_extra t);
  Some (hash_combine (hash_combine (hash_combine (btf_hash_common t) (a_type a)) (a_index_type a)) (a_nelems a)).

Definition btf_hash_fnproto (t : desc) : option Z :=
  ms ← read_params (vlen t) (d_extra t);
  Some (fold_left (fun h m => hash_combine (hash_combine h (p_name_off m)) (p_type m)) ms (btf_hash_common t)).

(** ** Comparisons; the records of both types are read for the [vlen] of the first *)

Definition btf_equal_common (t1 t2 : desc) : bool :=
  (d_name_off t1 =? d_name_off t2) && (d_info t1 =? d_info t2) && (d_size t1 =? d_size t2).

Definition btf_equal_int (t1 t2 : desc) : option bool :=
  if negb (btf_equal_common t1 t2) then Some false else
  info1 ← read_int (d_extra t1); info2 ← read_int (d_extra t2); Some (info1 =? info2).

Definition btf_equal_enum (t1 t2 : desc) : option bool :=
  if negb (btf_equal_common t1 t2) then Some false else
  m1 ← read_enums (vlen t1) (d_extra t1); m2 ← read_enums (vlen t1) (d_extra t2);
  Some (bool_decide (m1 = m2)).

Definition member_key (m : btf_member) : Z * Z := (m_name_off m, m_offset m).

Definition btf_shallow_equal_struct (t1 t2 : desc) : option bool :=
  if negb (btf_equal_common t1 t2) then Some false else
  m1 ← read_members (vlen t1) (d_extra t1); m2 ← read_members (vlen t1) (d_extra t2);
  Some (bool_decide (List.map member_key m1 = List.map member_key m2)).

Definition btf_equal_array (t1 t2 : desc) : option bool :=
  if negb (btf_equal_common t1 t2) then Some false else
  a1 ← read_array (d_extra t1); a2 ← read_array (d_extra t2);
  Some ((a_type a1 =? a_type a2) && (a_index_type a1 =? a_index_type a2) && (a_nelems a1 =? a_nelems a2)).

Definition btf_compat_array (t1 t2 : desc) : option bool :=
  if negb (btf_equal_common t1 t2) then Some false else
  a1 ← read_array (d_extra t1); a2 ← read_array (d_extra t2);
  Some (a_nelems a1 =? a_nelems a2).

Definition btf_equal_fnproto (t1 t2 : desc) : option bool :=
  if negb (btf_equal_common t1 t2) then Some false else
  m1 ← read_params (vlen t1) (d_extra t1); m2 ← read_params (vlen t1) (d_extra t2);
  Some (bool_decide (m1 = m2)).

Definition btf_compat_fnproto (t1 t2 : desc) : option bool :=
  if negb ((d_name_off t1 =? d_name_off t2) && (d_info t1 =? d_info t2)) then Some false else
  m1 ← read_params (vlen t1) (d_extra t1); m2 ← read_params (vlen t1) (d_extra t2);
  Some (bool_decide (List.map p_name_off m1 = List.map p_name_off m2)).

(** The kind of the structure a forward declaration stands for. *)
Definition btf_fwd_kind (t : desc) : Z :=
  if negb (BTF_INFO_KFLAG (d_info t) =? 0) then BTF_KIND_UNION else BTF_KIND_STRUCT.

(** ** Referenced types *)

(** The kinds that reference one type, in [t->type]. *)
Definition is_ref (k : Z) : bool :=
  (k =? BTF_KIND_CONST) || (k =? BTF_KIND_VOLATILE) || (k =? BTF_KIND_RESTRICT)
  || (k =? BTF_KIND_PTR) || (k =? BTF_KIND_TYPEDEF) || (k =? BTF_KIND_FUNC).

Definition is_composite (k : Z) : bool := (k =? BTF_KIND_STRUCT) || (k =? BTF_KIND_UNION).

(** The words of a record after [info] are numbered from 0: [t->type] (or
    [t->size]) first, the records behind the type next.  [id_slots] are the
    places of the ids among them, in the order [btf_dedup_ref_type] and
    [btf_dedup_remap_type] visit them. *)
Definition id_words (t : desc) : list Z := d_size t :: d_extra t.
Definition of_words (t : desc) (ws : list Z) : desc :=
  match ws with w :: ws => Desc (d_name_off t) (d_info t) w ws | [] => t end.

Definition type_slot : nat := 0.
Definition array_type_slot : nat := 1.
Definition array_index_type_slot : nat := 2.
Definition member_slots (n : nat) : list nat := (fun i => 3 * i + 2)%nat <$> seq 0 n.
Definition param_slots (n : nat) : list nat := (fun i => 2 * i + 2)%nat <$> seq 0 n.

Definition id_slots (t : desc) : list nat :=
  let k := d_kind t in
  if is_ref k then [type_slot]
  else if k =? BTF_KIND_ARRAY then [array_type_slot; array_index_type_slot]
  else if is_composite k then member_slots (vlen t)
  else if k =? BTF_KIND_FUNC_PROTO then type_slot :: param_slots (vlen t)
  else [].

(** The id in a slot, and the type with another id there. *)
Definition child (t : desc) (s : nat) : option Z := id_words t !! s.
Definition set_child (t : desc) (s : nat) (c : Z) : desc := of_words t (<[s := c]> (id_words t)).

(** The ids a type references. *)
Definition children (t : desc) : list Z := omap (child t) (id_slots t).

(** Everything but the ids. *)
Definition shape (t : desc) : desc :=
  of_words t (imap (fun i w => if decide (i ∈ id_slots t) then 0 else w) (id_words t)).

(** The record of type 0. *)
Definition void_desc : desc := Desc 0 0 0 [].
Definition rec_ok (t : desc) : Prop := t = void_desc \/ desc_ok t.

(** A list of types, [void] first, whose ids stay within the list. *)
Definition closed (G : list desc) : Prop :=
  forall x t c, znth G x = Some t -> c ∈ children t -> 0 <= c < zlen G.

(** ** When two types are the same

    [bisim G1 G2 R]: types related by [R] agree on everything but their ids,
    and the types they reference are related in turn. *)
Definition bisim (G1 G2 : list desc) (R : Z -> Z -> Prop) : Prop :=
  forall x y, R x y -> exists t1 t2, znth G1 x = Some t1 /\ znth G2 y = Some t2 /\
    shape t1 = shape t2 /\ Forall2 R (children t1) (children t2).

Definition same_type (G1 : list desc) (x : Z) (G2 : list desc) (y : Z) : Prop :=
  exists R, bisim G1 G2 R /\ R x y.

(** ** Words and slots *)

Lemma id_words_of_words t ws : ws <> [] -> id_words (of_words t ws) = ws.
Proof. by destruct ws. Qed.

Lemma of_id_words t : of_words t (id_words t) = t.
Proof. by destruct t. Qed.

Lemma of_words_fields t ws :
  d_name_off (of_words t ws) = d_name_off t /\ d_info (of_words t ws) = d_info t.
Proof. by destruct ws. Qed.

Lemma id_slots_info t t' : d_info t = d_info t' -> id_slots t = id_slots t'.
Proof. unfold id_slots, d_kind, vlen. by intros ->. Qed.

Lemma id_words_set t s c : id_words (set_child t s c) = <[s := c]> (id_words t).
Proof. apply id_words_of_words. by destruct s. Qed.

Lemma set_child_fields t s c :
  d_name_off (set_child t s c) = d_name_off t /\ d_info (set_child t s c) = d_info t.
Proof. apply of_words_fields. Qed.

Lemma id_slots_set t s c : id_slots (set_child t s c) = id_slots t.
Proof. apply id_slots_info, set_child_fields. Qed.

Lemma kind_set t s c : d_kind (set_child t s c) = d_kind t.
Proof. unfold d_kind. by rewrite (proj2 (set_child_fields t s c)). Qed.

Lemma child_set t s s' c :
  child (set_child t s c) s' = if decide (s = s') then (fun _ => c) <$> child t s' else child t s'.
Proof.
  unfold child. rewrite id_words_set. case_decide as E; [|by apply list_lookup_insert_ne].
  subst. destruct (id_words t !! s') eqn:Ew; cbn.
  - apply list_lookup_insert_eq. by eapply lookup_lt_Some.
  - rewrite lookup_ge_None in Ew |- *. by rewrite length_insert.
Qed.

Lemma id_words_shape t :
  id_words (shape t) = imap (fun i w => if decide (i ∈ id_slots t) then 0 else w) (id_words t).
Proof. by apply id_words_of_words. Qed.

Lemma shape_fields t : d_name_off (shape t) = d_name_off t /\ d_info (shape t) = d_info t.
Proof. apply of_words_fields. Qed.

Lemma desc_ext t1 t2 :
  d_name_off t1 = d_name_off t2 -> d_info t1 = d_info t2 -> id_words t1 = id_words t2 -> t1 = t2.
Proof. destruct t1, t2; unfold id_words; cbn. by intros -> -> [= -> ->]. Qed.

(** Two types have one shape when they agree on the words outside the slots. *)
Lemma shape_eq t1 t2 :
  shape t1 = shape t2 <->
  d_name_off t1 = d_name_off t2 /\ d_info t1 = d_info t2 /\
  length (d_extra t1) = length (d_extra t2) /\
  forall i, i ∉ id_slots t1 -> id_words t1 !! i = id_words t2 !! i.
Proof.
  split.
  - intros H.
    assert (d_name_off t1 = d_name_off t2) as Hn.
    { by rewrite <- (proj1 (shape_fields t1)), H, (proj1 (shape_fields t2)). }
    assert (d_info t1 = d_info t2) as Hi.
    { by rewrite <- (proj2 (shape_fields t1)), H, (proj2 (shape_fields t2)). }
    assert (id_words (shape t1) = id_words (shape t2)) as Hw by by rewrite H.
    rewrite !id_words_shape, (id_slots_info _ _ Hi) in Hw. split_and!; [done|done| |].
    + apply (f_equal length) in Hw. rewrite !length_imap in Hw. by injection Hw.
    + intros i Hni. apply (f_equal (fun l => l !! i)) in Hw. rewrite !list_lookup_imap in Hw.
      rewrite (id_slots_info _ _ Hi) in Hni.
      destruct (id_words t1 !! i), (id_words t2 !! i); cbn in Hw; try done.
      by case_decide.
  - intros (Hn & Hi & Hl & Hw). pose proof (id_slots_info _ _ Hi) as Hs.
    assert (id_words (shape t1) = id_words (shape t2)) as E.
    { rewrite !id_words_shape. apply list_eq. intros i. rewrite !list_lookup_imap, <- Hs.
      destruct (decide (i ∈ id_slots t1)) as [Hin|Hni]; [|by rewrite (Hw i Hni)].
      assert (length (id_words t1) = length (id_words t2)) as Hl' by (cbn; by rewrite Hl).
      destruct (id_words t1 !! i) eqn:E1, (id_words t2 !! i) eqn:E2; cbn.
      - done.
      - apply lookup_lt_Some in E1. apply lookup_ge_None in E2. lia.
      - apply lookup_lt_Some in E2. apply lookup_ge_None in E1. lia.
      - done. }
    apply desc_ext; [| |done].
    + by rewrite !(proj1 (shape_fields _)).
    + by rewrite !(proj2 (shape_fields _)).
Qed.

Lemma shape_slots t1 t2 : shape t1 = shape t2 -> id_slots t1 = id_slots t2.
Proof. intros (_ & Hi & _)%shape_eq. by apply id_slots_info. Qed.

Lemma shape_kind t1 t2 : shape t1 = shape t2 -> d_kind t1 = d_kind t2.
Proof. intros (_ & Hi & _)%shape_eq. unfold d_kind. by rewrite Hi. Qed.

Lemma shape_set t s c : s ∈ id_slots t -> shape (set_child t s c) = shape t.
Proof.
  intros Hs. apply shape_eq. rewrite id_slots_set, id_words_set.
  destruct (set_child_fields t s c) as [-> ->]. split_and!; [done|done| |].
  - pose proof (f_equal length (id_words_set t s c)) as H. rewrite length_insert in H. by injection H.
  - intros i Hi. apply list_lookup_insert_ne. by intros ->.
Qed.

(** ** The records of a well-formed type *)

Definition extra_words (t : desc) : nat :=
  let k := d_kind t in
  if is_ref k then 0%nat
  else if k =? BTF_KIND_ARRAY then 3%nat
  else if is_composite k then (3 * vlen t)%nat
  else if k =? BTF_KIND_FUNC_PROTO then (2 * vlen t)%nat
  else if k =? BTF_KIND_ENUM then (2 * vlen t)%nat
  else if k =? BTF_KIND_INT then 1%nat
  else 0%nat.

Lemma length_extra t : desc_ok t -> length (d_extra t) = extra_words t.
Proof.
  intros [_ Hn]. unfold desc_words, zlen in Hn. cbn [length] in Hn.
  unfold extra_words, info_size, is_ref, is_composite, vlen in *. fold (d_kind t) in Hn.
  assert (0 <= BTF_INFO_VLEN (d_info t)) by (apply Z.land_nonneg; right; done).
  unfold sizeof_btf_type, sizeof_btf_enum, sizeof_btf_array, sizeof_btf_member, sizeof_btf_param in Hn.
  set (n := BTF_INFO_VLEN (d_info t)) in *. clearbody n.
  assert (forall a b : Z, Ok a = Ok b -> a = b) as Inj by congruence.
  set (k := d_kind t) in *. clearbody k.
  repeat match type of Hn with
  | context [k =? ?b] =>
      destruct (Z.eqb_spec k b) as [Ek|];
      [subst k; cbn -[Z.mul Z.of_nat Nat.mul Z.to_nat Z.add] in *; apply Inj in Hn; lia
      |cbn [orb] in *]
  end; done.
Qed.

Lemma void_kind : d_kind void_desc = BTF_KIND_UNKN.
Proof. done. Qed.

Lemma slots_bound t s : rec_ok t -> s ∈ id_slots t -> (s < length (id_words t))%nat.
Proof.
  intros [-> | Hok] Hs; [by apply elem_of_nil in Hs|].
  unfold id_words. cbn [length]. rewrite (length_extra _ Hok). clear Hok.
  unfold id_slots, extra_words in *.
  destruct (is_ref _); [apply list_elem_of_singleton in Hs; unfold type_slot in *; lia|].
  destruct (_ =? BTF_KIND_ARRAY).
  { unfold array_type_slot, array_index_type_slot in Hs. rewrite !elem_of_cons, elem_of_nil in Hs. lia. }
  destruct (is_composite _); [|destruct (_ =? BTF_KIND_FUNC_PROTO); [|by apply elem_of_nil in Hs]].
  - apply list_elem_of_fmap in Hs as (i & -> & Hi). apply elem_of_seq in Hi. lia.
  - apply elem_of_cons in Hs as [-> |Hs]; [unfold type_slot; lia|].
    apply list_elem_of_fmap in Hs as (i & -> & Hi). apply elem_of_seq in Hi. lia.
Qed.

Lemma child_is_Some t s : rec_ok t -> s ∈ id_slots t -> is_Some (child t s).
Proof. intros. by apply lookup_lt_is_Some, slots_bound. Qed.

(** The ids, slot by slot. *)
Lemma children_slots t :
  rec_ok t -> Forall2 (fun s c => child t s = Some c) (id_slots t) (children t).
Proof.
  intros Hok. unfold children.
  assert (Forall (fun s => is_Some (child t s)) (id_slots t)) as H.
  { apply List.Forall_forall. intros s Hs%list_elem_of_In. exact (child_is_Some _ _ Hok Hs). }
  induction H as [|s ss [c Hc] _ IH]; cbn; [constructor|]. rewrite Hc. by constructor.
Qed.

Lemma elem_of_children t c : c ∈ children t <-> exists s, s ∈ id_slots t /\ child t s = Some c.
Proof. unfold children. apply list_elem_of_omap. Qed.

Lemma rec_ok_set t s c : rec_ok t -> s ∈ id_slots t -> in_range 32 c -> rec_ok (set_child t s c).
Proof.
  intros [-> | [Hw Hn]] Hs Hc; [by apply elem_of_nil in Hs|]. right.
  destruct (set_child_fields t s c) as [En Ei]. pose proof (id_words_set t s c) as Ew.
  change (desc_words (set_child t s c)) with
    (d_name_off (set_child t s c) :: d_info (set_child t s c) :: id_words (set_child t s c)) in *.
  unfold desc_ok, desc_words in *. fold (id_words t) in *. fold (id_words (set_child t s c)).
  rewrite En, Ei, Ew, !zlen_cons in *. split.
  - inversion_clear Hw as [|? ? H1 H2]. inversion_clear H2 as [|? ? H3 H4].
    repeat constructor; try apply H1; try apply H3. by apply Forall_insert.
  - rewrite Hn. f_equal. f_equal. unfold zlen. rewrite length_insert. cbn [id_words length]. lia.
Qed.

Lemma children_range t c : rec_ok t -> c ∈ children t -> in_range 32 c.
Proof.
  intros [-> | Hok] Hc; [by apply elem_of_nil in Hc|]. apply elem_of_children in Hc as (s & _ & Hs).
  destruct (desc_ok_ranges _ Hok) as [H1 H2]. assert (Forall (in_range 32) (id_words t)) as H by by constructor.
  rewrite Forall_lookup in H. eauto.
Qed.

(** ** What the comparisons decide *)

(** The records of a list of the right length, with their words. *)
Lemma read_members_spec n ws :
  length ws = (3 * n)%nat -> exists ms, read_members n ws = Some ms /\
    forall ws' ms', length ws' = (3 * n)%nat -> read_members n ws' = Some ms' ->
      (List.map member_key ms = List.map member_key ms' <->
       forall q, (forall i, (i < n)%nat -> q <> 3 * i + 1)%nat -> ws !! q = ws' !! q).
Proof.
  revert ws. induction n as [|n IH]; intros [|a [|b [|c ws]]] Hl; try (cbn in Hl; lia).
  - exists []. split; [done|]. intros ws' ms' Hl' [= <-]. destruct ws'; [|cbn in Hl'; lia]. done.
  - destruct (IH ws) as (ms & E & H); [cbn in Hl; lia|]. exists (Member a b c :: ms). cbn. rewrite E.
    split; [done|]. intros [|a' [|b' [|c' ws']]] ms0 Hl' E'; try (cbn in Hl'; lia). cbn in E'.
    destruct (read_members n ws') as [ms'|] eqn:E2; [|done]. injection E' as <-.
    specialize (H ws' ms' ltac:(cbn in Hl'; lia) E2). cbn. split.
    + intros [= -> -> Hk] [|[|[|q]]] Hq; cbn; try done.
      * by destruct (Hq 0%nat); [lia|].
      * apply (proj1 H Hk). intros i Hi. specialize (Hq (S i)). lia.
    + intros Hq. pose proof (Hq 0%nat ltac:(lia)) as Ha. pose proof (Hq 2%nat ltac:(lia)) as Hc.
      injection Ha as ->. injection Hc as ->. unfold member_key at 1 3. cbn. f_equal. apply H.
      intros q Hn. apply (Hq (3 + q)%nat). intros [|i] Hi; [lia|]. specialize (Hn i). lia.
Qed.

Lemma read_params_spec n ws :
  length ws = (2 * n)%nat -> exists ps, read_params n ws = Some ps /\
    forall ws' ps', length ws' = (2 * n)%nat -> read_params n ws' = Some ps' ->
      (ps = ps' <-> ws = ws') /\
      (List.map p_name_off ps = List.map p_name_off ps' <->
       forall q, (forall i, (i < n)%nat -> q <> 2 * i + 1)%nat -> ws !! q = ws' !! q).
Proof.
  revert ws. induction n as [|n IH]; intros [|a [|b ws]] Hl; try (cbn in Hl; lia).
  - exists []. split; [done|]. intros ws' ms' Hl' [= <-]. destruct ws'; [|cbn in Hl'; lia]. done.
  - destruct (IH ws) as (ms & E & H); [cbn in Hl; lia|]. exists (Param a b :: ms). cbn. rewrite E.
    split; [done|]. intros [|a' [|b' ws']] ms0 Hl' E'; try (cbn in Hl'; lia). cbn in E'.
    destruct (read_params n ws') as [ms'|] eqn:E2; [|done]. injection E' as <-.
    destruct (H ws' ms' ltac:(cbn in Hl'; lia) E2) as [H1 H2]. cbn. split; [split|split].
    + intros [= -> -> Hk]. by rewrite (proj1 H1 Hk).
    + intros [= -> -> Hk]. by rewrite (proj2 H1 Hk).
    + intros [= -> Hk] [|[|q]] Hq; cbn; try done.
      * by destruct (Hq 0%nat); [lia|].
      * apply (proj1 H2 Hk). intros i Hi. specialize (Hq (S i)). lia.
    + intros Hq. pose proof (Hq 0%nat ltac:(lia)) as Ha. injection Ha as ->. f_equal. apply H2.
      intros q Hn. apply (Hq (2 + q)%nat). intros [|i] Hi; [lia|]. specialize (Hn i). lia.
Qed.

Lemma read_enums_spec n ws :
  length ws = (2 * n)%nat -> exists es, read_enums n ws = Some es /\
    forall ws' es', length ws' = (2 * n)%nat -> read_enums n ws' = Some es' -> (es = es' <-> ws = ws').
Proof.
  revert ws. induction n as [|n IH]; intros [|a [|b ws]] Hl; try (cbn in Hl; lia).
  - exists []. split; [done|]. intros ws' ms' Hl' [= <-]. by destruct ws'; [|cbn in Hl'; lia].
  - destruct (IH ws) as (ms & E & H); [cbn in Hl; lia|]. exists (Enum a b :: ms). cbn. rewrite E.
    split; [done|]. intros [|a' [|b' ws']] ms0 Hl' E'; try (cbn in Hl'; lia). cbn in E'.
    destruct (read_enums n ws') as [ms'|] eqn:E2; [|done]. injection E' as <-.
    specialize (H ws' ms' ltac:(cbn in Hl'; lia) E2). split.
    + intros [= -> -> Hk]. by rewrite (proj1 H Hk).
    + intros [= -> -> Hk]. by rewrite (proj2 H Hk).
Qed.

Lemma equal_common_spec t1 t2 :
  btf_equal_common t1 t2 = true <->
  d_name_off t1 = d_name_off t2 /\ d_info t1 = d_info t2 /\ d_size t1 = d_size t2.
Proof. unfold btf_equal_common. rewrite !andb_true_iff, !Z.eqb_eq. tauto. Qed.

Lemma length_extra_info t1 t2 :
  desc_ok t1 -> desc_ok t2 -> d_info t1 = d_info t2 -> length (d_extra t1) = length (d_extra t2).
Proof.
  intros H1 H2 Hi. rewrite (length_extra _ H1), (length_extra _ H2). unfold extra_words, d_kind, vlen.
  by rewrite Hi.
Qed.

Lemma desc_eq_words t1 t2 :
  d_name_off t1 = d_name_off t2 -> d_info t1 = d_info t2 -> d_size t1 = d_size t2 ->
  t1 = t2 <-> d_extra t1 = d_extra t2.
Proof. destruct t1, t2; cbn. intros -> -> ->. split; [by intros [= ->]|by intros ->]. Qed.

Lemma not_common t1 t2 : btf_equal_common t1 t2 = false -> t1 <> t2.
Proof. intros H ->. rewrite (proj2 (equal_common_spec t2 t2)) in H by done. done. Qed.

Lemma shape_common t1 t2 :
  type_slot ∉ id_slots t1 -> shape t1 = shape t2 -> btf_equal_common t1 t2 = true.
Proof.
  intros Hs (Hn & Hi & _ & Hw)%shape_eq. specialize (Hw 0%nat Hs). injection Hw as Hz.
  by apply equal_common_spec.
Qed.

Lemma kind_slots t :
  (d_kind t = BTF_KIND_INT \/ d_kind t = BTF_KIND_ENUM \/ d_kind t = BTF_KIND_FWD ->
    id_slots t = []) /\
  (is_ref (d_kind t) = true -> id_slots t = [type_slot]) /\
  (d_kind t = BTF_KIND_ARRAY -> id_slots t = [array_type_slot; array_index_type_slot]) /\
  (is_composite (d_kind t) = true -> id_slots t = member_slots (vlen t)) /\
  (d_kind t = BTF_KIND_FUNC_PROTO -> id_slots t = type_slot :: param_slots (vlen t)).
Proof.
  unfold id_slots. split_and!.
  - by intros [-> |[-> | ->]].
  - by intros ->.
  - by intros ->.
  - intros H. destruct (is_ref _) eqn:Er; [exfalso|destruct (_ =? _) eqn:Ea; [exfalso|by rewrite H]].
    + unfold is_ref, is_composite in *. rewrite !orb_true_iff, !Z.eqb_eq in *.
      unfold BTF_KIND_CONST, BTF_KIND_VOLATILE, BTF_KIND_RESTRICT, BTF_KIND_PTR, BTF_KIND_TYPEDEF,
        BTF_KIND_FUNC, BTF_KIND_STRUCT, BTF_KIND_UNION in *. lia.
    + apply Z.eqb_eq in Ea. by rewrite Ea in H.
  - by intros ->.
Qed.

Lemma not_slot_members t q :
  id_slots t = member_slots (vlen t) -> (S q ∉ id_slots t) <->
  forall i, (i < vlen t)%nat -> q <> (3 * i + 1)%nat.
Proof.
  intros ->. unfold member_slots. rewrite list_elem_of_fmap. split.
  - intros H i Hi ->. apply H. exists i. rewrite elem_of_seq. lia.
  - intros H (i & E & Hi). apply elem_of_seq in Hi. apply (H i); lia.
Qed.

Lemma not_slot_params t q :
  id_slots t = type_slot :: param_slots (vlen t) -> (S q ∉ id_slots t) <->
  forall i, (i < vlen t)%nat -> q <> (2 * i + 1)%nat.
Proof.
  intros ->. unfold param_slots, type_slot. rewrite not_elem_of_cons, list_elem_of_fmap. split.
  - intros [_ H] i Hi ->. apply H. exists i. rewrite elem_of_seq. lia.
  - intros H. split; [done|]. intros (i & E & Hi). apply elem_of_seq in Hi. apply (H i); lia.
Qed.

Section comparisons.
Context (t1 t2 : desc) (H1 : desc_ok t1) (H2 : desc_ok t2).

Lemma extra_lengths n :
  d_info t1 = d_info t2 -> extra_words t1 = n ->
  length (d_extra t1) = n /\ length (d_extra t2) = n.
Proof.
  intros Hi Hn. rewrite <- (length_extra_info _ _ H1 H2 Hi).
  rewrite (length_extra _ H1). done.
Qed.

(** References and forward declarations. *)
Lemma equal_common_ok :
  extra_words t1 = 0%nat -> btf_equal_common t1 t2 = bool_decide (t1 = t2).
Proof.
  intros Hk. destruct (btf_equal_common t1 t2) eqn:E; symmetry.
  - apply bool_decide_eq_true. apply equal_common_spec in E as (Hn & Hi & Hs).
    apply desc_eq_words; [done..|]. destruct (extra_lengths _ Hi Hk) as [E1 E2].
    by destruct (d_extra t1), (d_extra t2).
  - by apply bool_decide_eq_false, not_common.
Qed.

Lemma equal_int_ok :
  d_kind t1 = BTF_KIND_INT -> btf_equal_int t1 t2 = Some (bool_decide (t1 = t2)).
Proof.
  intros Hk. unfold btf_equal_int. destruct (btf_equal_common t1 t2) eqn:E; cbn [negb].
  - apply equal_common_spec in E as (Hn & Hi & Hs).
    destruct (extra_lengths 1 Hi) as [E1 E2]; [unfold extra_words; by rewrite Hk|].
    pose proof (desc_eq_words _ _ Hn Hi Hs) as Heq.
    destruct (d_extra t1) as [|a [|]]; try done. destruct (d_extra t2) as [|b [|]]; try done. cbn.
    f_equal. apply eq_bool_prop_intro. rewrite bool_decide_spec, Heq, Is_true_true, Z.eqb_eq.
    split; [by intros ->|by intros [= ->]].
  - f_equal. symmetry. by apply bool_decide_eq_false, not_common.
Qed.

Lemma equal_enum_ok :
  d_kind t1 = BTF_KIND_ENUM -> btf_equal_enum t1 t2 = Some (bool_decide (t1 = t2)).
Proof.
  intros Hk. unfold btf_equal_enum. destruct (btf_equal_common t1 t2) eqn:E; cbn [negb].
  - apply equal_common_spec in E as (Hn & Hi & Hs).
    destruct (extra_lengths (2 * vlen t1) Hi) as [E1 E2]; [unfold extra_words; by rewrite Hk|].
    destruct (read_enums_spec _ _ E1) as (m1 & -> & Hm).
    destruct (read_enums_spec _ _ E2) as (m2 & Em2 & _). rewrite Em2. cbn [mbind option_bind].
    f_equal. apply bool_decide_ext. rewrite (desc_eq_words _ _ Hn Hi Hs). by apply Hm.
  - f_equal. symmetry. by apply bool_decide_eq_false, not_common.
Qed.

Lemma composite_words : is_composite (d_kind t1) = true -> extra_words t1 = (3 * vlen t1)%nat.
Proof.
  unfold is_composite, extra_words. rewrite orb_true_iff, !Z.eqb_eq. by intros [-> | ->].
Qed.

Lemma shallow_equal_struct_ok :
  is_composite (d_kind t1) = true ->
  btf_shallow_equal_struct t1 t2 = Some (bool_decide (shape t1 = shape t2)).
Proof.
  intros Hk. pose proof (proj1 (proj2 (proj2 (proj2 (kind_slots t1)))) Hk) as Hs.
  unfold btf_shallow_equal_struct. destruct (btf_equal_common t1 t2) eqn:E; cbn [negb].
  - apply equal_common_spec in E as (Hn & Hi & Hz).
    destruct (extra_lengths _ Hi (composite_words Hk)) as [E1 E2].
    destruct (read_members_spec _ _ E1) as (m1 & -> & Hm).
    destruct (read_members_spec _ _ E2) as (m2 & Em2 & _). rewrite Em2. cbn [mbind option_bind].
    f_equal. apply bool_decide_ext. rewrite (Hm _ _ E2 Em2), shape_eq. split.
    + intros Hq. split_and!; [done|done|lia|]. intros [|q] Hnq; [unfold id_words; by rewrite Hz|].
      apply Hq. by apply not_slot_members.
    + intros (_ & _ & _ & Hw) q Hq. apply (Hw (S q)). by apply not_slot_members.
  - f_equal. symmetry. apply bool_decide_eq_false. intros Hsh. apply shape_common in Hsh; [by rewrite Hsh in E|].
    rewrite Hs. unfold member_slots, type_slot. rewrite list_elem_of_fmap. intros (i & ? & _). lia.
Qed.

Lemma equal_array_ok :
  d_kind t1 = BTF_KIND_ARRAY ->
  btf_equal_array t1 t2 = Some (bool_decide (t1 = t2)) /\
  btf_compat_array t1 t2 = Some (bool_decide (shape t1 = shape t2)).
Proof.
  intros Hk. pose proof (proj1 (proj2 (proj2 (kind_slots t1))) Hk) as Hs.
  unfold btf_equal_array, btf_compat_array. destruct (btf_equal_common t1 t2) eqn:E; cbn [negb].
  - apply equal_common_spec in E as (Hn & Hi & Hz).
    destruct (extra_lengths 3 Hi) as [E1 E2]; [unfold extra_words; by rewrite Hk|].
    pose proof (desc_eq_words _ _ Hn Hi Hz) as Heq. pose proof (shape_eq t1 t2) as Hsh. unfold id_words in Hsh.
    destruct (d_extra t1) as [|a1 [|b1 [|c1 [|]]]]; try done.
    destruct (d_extra t2) as [|a2 [|b2 [|c2 [|]]]]; try done. cbn.
    split; f_equal; apply eq_bool_prop_intro; rewrite bool_decide_spec, Is_true_true.
    + rewrite Heq, !andb_true_iff, !Z.eqb_eq. split; [by intros [[-> ->] ->]|by intros [= -> -> ->]].
    + rewrite Hsh, Z.eqb_eq, Hs. split.
      * intros ->. split_and!; try done.
        intros [|[|[|[|i]]]] Hni; cbn; try done; [by f_equal|..];
          by destruct Hni; rewrite !elem_of_cons; auto.
      * intros (_ & _ & _ & Hw). specialize (Hw 3%nat). cbn in Hw. apply Some_inj, Hw.
        by rewrite !elem_of_cons, elem_of_nil; intros [|[|]].
  - split; f_equal; symmetry; apply bool_decide_eq_false; [by apply not_common|].
    intros Hsh. apply shape_common in Hsh; [by rewrite Hsh in E|].
    by rewrite Hs, !elem_of_cons, elem_of_nil; intros [|[|]].
Qed.

Lemma equal_fnproto_ok :
  d_kind t1 = BTF_KIND_FUNC_PROTO ->
  btf_equal_fnproto t1 t2 = Some (bool_decide (t1 = t2)) /\
  btf_compat_fnproto t1 t2 = Some (bool_decide (shape t1 = shape t2)).
Proof.
  intros Hk. pose proof (proj2 (proj2 (proj2 (proj2 (kind_slots t1)))) Hk) as Hs.
  assert (extra_words t1 = (2 * vlen t1)%nat) as Hx by (unfold extra_words; by rewrite Hk).
  unfold btf_equal_fnproto, btf_compat_fnproto. split.
  - destruct (btf_equal_common t1 t2) eqn:E; cbn [negb].
    + apply equal_common_spec in E as (Hn & Hi & Hz). destruct (extra_lengths _ Hi Hx) as [E1 E2].
      destruct (read_params_spec _ _ E1) as (m1 & -> & Hm).
      destruct (read_params_spec _ _ E2) as (m2 & Em2 & _). rewrite Em2. cbn [mbind option_bind].
      f_equal. apply bool_decide_ext. rewrite (desc_eq_words _ _ Hn Hi Hz). by apply Hm.
    + f_equal. symmetry. by apply bool_decide_eq_false, not_common.
  - destruct (_ && _) eqn:E; cbn [negb].
    + apply andb_true_iff in E as [Hn%Z.eqb_eq Hi%Z.eqb_eq]. destruct (extra_lengths _ Hi Hx) as [E1 E2].
      destruct (read_params_spec _ _ E1) as (m1 & -> & Hm).
      destruct (read_params_spec _ _ E2) as (m2 & Em2 & _). rewrite Em2. cbn [mbind option_bind].
      f_equal. apply bool_decide_ext. destruct (Hm _ _ E2 Em2) as [_ ->]. rewrite shape_eq. split.
      * intros Hq. split_and!; [done|done|lia|]. intros [|q] Hnq.
        -- by destruct Hnq; rewrite Hs; apply elem_of_cons; left.
        -- apply Hq. by apply not_slot_params.
      * intros (_ & _ & _ & Hw) q Hq. apply (Hw (S q)). by apply not_slot_params.
    + f_equal. symmetry. apply bool_decide_eq_false. intros (Hn & Hi & _)%shape_eq.
      by rewrite Hn, Hi, !Z.eqb_refl in E.
Qed.
End comparisons.

Lemma hashes_defined t :
  desc_ok t ->
  (d_kind t = BTF_KIND_INT -> is_Some (btf_hash_int t)) /\
  (d_kind t = BTF_KIND_ENUM -> is_Some (btf_hash_enum t)) /\
  (is_composite (d_kind t) = true -> is_Some (btf_hash_struct t)) /\
  (d_kind t = BTF_KIND_ARRAY -> is_Some (btf_hash_array t)) /\
  (d_kind t = BTF_KIND_FUNC_PROTO -> is_Some (btf_hash_fnproto t)).
Proof.
  intros Hok. pose proof (length_extra _ Hok) as Hl.
  unfold btf_hash_int, btf_hash_enum, btf_hash_struct, btf_hash_array, btf_hash_fnproto.
  split_and!; intros Hk.
  - unfold extra_words in Hl. rewrite Hk in Hl. destruct (d_extra t); [done|]. by eexists.
  - unfold extra_words in Hl. rewrite Hk in Hl. destruct (read_enums_spec _ _ Hl) as (? & -> & _). by eexists.
  - rewrite (composite_words _ Hk) in Hl. destruct (read_members_spec _ _ Hl) as (? & -> & _). by eexists.
  - unfold extra_words in Hl. rewrite Hk in Hl. by destruct (d_extra t) as [|? [|? [|]]].
  - unfold extra_words in Hl. rewrite Hk in Hl. destruct (read_params_spec _ _ Hl) as (? & -> & _). by eexists.
Qed.

(** ** Sameness is an equivalence *)

Lemma same_unfold G1 x G2 y :
  same_type G1 x G2 y -> exists t1 t2, znth G1 x = Some t1 /\ znth G2 y = Some t2 /\
    shape t1 = shape t2 /\ Forall2 (fun a b => same_type G1 a G2 b) (children t1) (children t2).
Proof.
  intros (R & HR & Hxy). destruct (HR _ _ Hxy) as (t1 & t2 & E1 & E2 & Hs & Hc).
  exists t1, t2. split_and!; [done..|]. eapply Forall2_impl; [|exact Hc]. intros a b Hab. by exists R.
Qed.

(** A relation whose types' children are related or already known to be the same. *)
Lemma same_upto G1 G2 (R : Z -> Z -> Prop) :
  (forall x y, R x y -> exists t1 t2, znth G1 x = Some t1 /\ znth G2 y = Some t2 /\
    shape t1 = shape t2 /\
    Forall2 (fun a b => R a b \/ same_type G1 a G2 b) (children t1) (children t2)) ->
  forall x y, R x y -> same_type G1 x G2 y.
Proof.
  intros H x y Hxy. exists (fun a b => R a b \/ same_type G1 a G2 b). split; [|by left].
  intros a b [Hab|Hab]; [by apply H|]. destruct (same_unfold _ _ _ _ Hab) as (t1 & t2 & E1 & E2 & Hs & Hc).
  exists t1, t2. split_and!; [done..|]. eapply Forall2_impl; [|exact Hc]. intros; by right.
Qed.

Lemma same_sym G1 x G2 y : same_type G1 x G2 y -> same_type G2 y G1 x.
Proof.
  intros (R & HR & Hxy). exists (flip R). split; [|done]. intros a b Hab.
  destruct (HR _ _ Hab) as (t1 & t2 & E1 & E2 & Hs & Hc). exists t2, t1. split_and!; [done..|].
  by apply Forall2_flip.
Qed.

Lemma same_trans G1 x G2 y G3 z : same_type G1 x G2 y -> same_type G2 y G3 z -> same_type G1 x G3 z.
Proof.
  intros (R & HR & Hxy) (Q & HQ & Hyz). exists (fun a c => exists b, R a b /\ Q b c). split; [|eauto].
  intros a c (b & Hab & Hbc). destruct (HR _ _ Hab) as (t1 & t2 & E1 & E2 & Hs & Hc).
  destruct (HQ _ _ Hbc) as (t2' & t3 & E2' & E3 & Hs' & Hc'). assert (t2' = t2) as -> by congruence.
  exists t1, t3. split_and!; [done..|by rewrite Hs|]. clear -Hc Hc'. revert Hc'.
  generalize (children t3). induction Hc as [|p q ps qs Hpq _ IH]; intros cs Hc'.
  - by inversion Hc'.
  - inversion_clear Hc' as [|? r ? rs]. constructor; eauto.
Qed.

Lemma same_refl G x : closed G -> 0 <= x < zlen G -> same_type G x G x.
Proof.
  intros Hcl Hx. exists (fun a b => a = b /\ 0 <= a < zlen G). split; [|done].
  intros a b [<- Ha]. apply znth_is_Some in Ha as [t Et]. exists t, t. split_and!; [done..|].
  assert (forall c, c ∈ children t -> 0 <= c < zlen G) as Hc by (intros c; by apply (Hcl _ _ _ Et)).
  revert Hc. induction (children t) as [|c cs IH]; intros Hc; constructor.
  - split; [done|]. apply Hc. by left.
  - apply IH. intros. apply Hc. by right.
Qed.

Lemma same_range G1 x G2 y : same_type G1 x G2 y -> 0 <= x < zlen G1 /\ 0 <= y < zlen G2.
Proof.
  intros (t1 & t2 & E1 & E2 & _)%same_unfold. apply znth_Some_range in E1, E2. done.
Qed.

Lemma same_shape G1 x G2 y t1 t2 :
  same_type G1 x G2 y -> znth G1 x = Some t1 -> znth G2 y = Some t2 -> shape t1 = shape t2.
Proof. intros (t1' & t2' & E1 & E2 & Hs & _)%same_unfold ? ?. congruence. Qed.

(** Equal records of a closed graph are one type. *)
Lemma same_eq G x y t : closed G -> znth G x = Some t -> znth G y = Some t -> same_type G x G y.
Proof.
  intros Hcl Hx Hy. apply (same_upto G G (fun a b => a = x /\ b = y)); [|done].
  intros a b [-> ->]. exists t, t. split_and!; [done..|].
  assert (forall c, c ∈ children t -> 0 <= c < zlen G) as Hc by (intros c; by apply (Hcl _ _ _ Hx)).
  revert Hc. induction (children t) as [|c cs IH]; intros Hc; constructor.
  - right. apply same_refl; [done|]. apply Hc. by left.
  - apply IH. intros. apply Hc. by right.
Qed.

(** Redirecting a reference to a type that is the same leaves every type the same. *)
Lemma same_set_child G x t s c c' G' :
  closed G -> rec_ok t -> znth G x = Some t -> s ∈ id_slots t -> child t s = Some c ->
  same_type G c G c' -> zset G x (set_child t s c') = Some G' ->
  forall y, 0 <= y < zlen G -> same_type G y G' y.
Proof.
  intros Hcl Hok Hx Hs Hc Hcc HG y Hy.
  apply (same_upto G G' (fun a b => same_type G a G b)); [clear y Hy|by apply same_refl].
  intros a b Hab. destruct (same_unfold _ _ _ _ Hab) as (t1 & t2 & E1 & E2 & Hsh & Hch).
  rewrite (znth_zset _ _ _ _ _ HG). case_decide as Eb.
  - subst b. assert (t2 = t) as -> by congruence. exists t1, (set_child t s c').
    split_and!; [done..|by rewrite shape_set|].
    assert (Forall2 (fun a b => same_type G a G b) (children t) (children (set_child t s c'))) as Hch'.
    { unfold children. rewrite id_slots_set.
      assert (forall s', s' ∈ id_slots t -> is_Some (child t s')) as Hsome.
      { intros s' Hs'. exact (child_is_Some _ _ Hok Hs'). }
      assert (forall s' c', s' ∈ id_slots t -> child t s' = Some c' -> 0 <= c' < zlen G) as Hr.
      { intros s' d Hs' Hd. apply (Hcl _ _ _ Hx). apply elem_of_children. eauto. }
      revert Hsome Hr. clear -Hcl Hc Hcc. induction (id_slots t) as [|s' ss IH]; intros Hsome Hr; [constructor|].
      cbn [omap list_omap]. rewrite child_set. destruct (Hsome s') as [d Hd]; [by left|]. rewrite Hd.
      assert (Forall2 (fun a b => same_type G a G b) (omap (child t) ss) (omap (child (set_child t s c')) ss)) as IH'.
      { apply IH; intros; [apply Hsome|eapply Hr; [|done]]; by right. }
      case_decide as Es; cbn; constructor; try done.
      - subst. by assert (d = c) as -> by congruence.
      - apply same_refl; [done|]. eapply Hr; [by left|done]. }
    clear -Hch Hch'. revert Hch'. generalize (children (set_child t s c')).
    induction Hch as [|p q ps qs Hpq _ IH]; intros cs Hc'; [by inversion Hc'|].
    inversion_clear Hc' as [|? r ? rs]. constructor; [|by apply IH]. left. by eapply same_trans.
  - exists t1, t2. split_and!; [done..|]. eapply Forall2_impl; [|exact Hch]. by left.
Qed.

(** The comparisons decide equality of records, and the shallow ones equality
    up to the referenced ids. *)
Theorem comparisons_decide t1 t2 :
  desc_ok t1 -> desc_ok t2 ->
  (d_kind t1 = BTF_KIND_INT -> btf_equal_int t1 t2 = Some (bool_decide (t1 = t2))) /\
  (d_kind t1 = BTF_KIND_ENUM -> btf_equal_enum t1 t2 = Some (bool_decide (t1 = t2))) /\
  (is_ref (d_kind t1) || (d_kind t1 =? BTF_KIND_FWD) = true ->
    btf_equal_common t1 t2 = bool_decide (t1 = t2)) /\
  (is_composite (d_kind t1) = true ->
    btf_shallow_equal_struct t1 t2 = Some (bool_decide (shape t1 = shape t2))) /\
  (d_kind t1 = BTF_KIND_ARRAY -> btf_equal_array t1 t2 = Some (bool_decide (t1 = t2)) /\
    btf_compat_array t1 t2 = Some (bool_decide (shape t1 = shape t2))) /\
  (d_kind t1 = BTF_KIND_FUNC_PROTO -> btf_equal_fnproto t1 t2 = Some (bool_decide (t1 = t2)) /\
    btf_compat_fnproto t1 t2 = Some (bool_decide (shape t1 = shape t2))).
Proof.
  intros H1 H2. split_and!; intros Hk.
  - by apply equal_int_ok.
  - by apply equal_enum_ok.
  - apply equal_common_ok; [done..|]. unfold extra_words. apply orb_true_iff in Hk as [-> |Hk%Z.eqb_eq]; [done|].
    by rewrite Hk.
  - by apply shallow_equal_struct_ok.
  - by apply equal_array_ok.
  - by apply equal_fnproto_ok.
Qed.


(** ** Examples *)

Definition kind_info (k n : Z) : Z := Z.shiftl k 24 + n.
Definition ex_int : desc := Desc 1 (kind_info BTF_KIND_INT 0) 4 [32].
Definition ex_node (val next : Z) : desc := Desc 5 (kind_info BTF_KIND_STRUCT 2) 16 [10; val; 0; 14; next; 64].
Definition ex_ptr (t : Z) : desc := Desc 0 (kind_info BTF_KIND_PTR 0) t [].

Lemma comparisons_decide_witness :
  is_composite (d_kind (ex_node 1 3)) = true /\
  btf_shallow_equal_struct (ex_node 1 3) (ex_node 4 6) =
    Some (bool_decide (shape (ex_node 1 3) = shape (ex_node 4 6))).
Proof.
  assert (forallb desc_okb [ex_node 1 3; ex_node 4 6] = true) as H by (vm_compute; reflexivity).
  pose proof (descs_okb_ok _ H) as Hok.
  assert (desc_ok (ex_node 1 3)) as H1 by (exact (Forall_inv Hok)).
  assert (desc_ok (ex_node 4 6)) as H2 by (exact (Forall_inv (Forall_inv_tail Hok))).
  assert (is_composite (d_kind (ex_node 1 3)) = true) as Hc by (vm_compute; reflexivity).
  split; [exact Hc|].
  exact (proj1 (proj2 (proj2 (proj2 (comparisons_decide _ _ H1 H2)))) Hc).
Defined.
