(* ===== verification/BtfDedup.v ===== *)
(** * Deduplication of BTF types (src/libbpf/src/btf.c, [btf__dedup])

    [struct btf_dedup] and its passes over the types: primitive types, structs
    and unions, references, compaction and the final renumbering.  The types
    are modified in place, so every function takes and returns the state, also
    when it fails; [None] is an access outside an array or a loop that does
    not end. *)

From S2P Require Export BtfGraph StateMonad.

Definition BTF_DEDUP_TABLE_DEFAULT_SIZE := Z.shiftl 1 14.
Definition BTF_DEDUP_TABLE_MAX_SIZE_LOG : nat := 31.
Definition BTF_UNPROCESSED_ID := 2 ^ 32 - 1.
Definition BTF_IN_PROGRESS_ID := 2 ^ 32 - 2.

Definition sizeof_btf_dedup := 88.
Definition sizeof_btf_dedup_node := 16.
Definition sizeof_u32 := 4.

Record btf_dedup_opts := Dedup_opts { dedup_table_size : Z; dont_resolve_fwds : bool }.

(** [struct btf_dedup] with the types of its [btf], [btf_void] first.  A bucket
    of the table lists its candidates, the newest first; [hypot_list] holds
    its [hypot_cnt] first entries.  [type_len] is the header's field and
    [requests] the number of allocations asked for so far. *)
Record dedup := Dedup {
  d_types : list desc;
  d_map : list Z;
  hypot_map : list Z;
  hypot_list : list Z;
  hypot_cap : Z;
  dedup_table : gmap Z (list Z);
  type_len : Z;
  requests : nat
}.

Definition set_types (d : dedup) v :=
  Dedup v (d_map d) (hypot_map d) (hypot_list d) (hypot_cap d) (dedup_table d) (type_len d) (requests d).
Definition set_map (d : dedup) v :=
  Dedup (d_types d) v (hypot_map d) (hypot_list d) (hypot_cap d) (dedup_table d) (type_len d) (requests d).
Definition set_hypot (d : dedup) v l :=
  Dedup (d_types d) (d_map d) v l (hypot_cap d) (dedup_table d) (type_len d) (requests d).
Definition set_cap (d : dedup) v :=
  Dedup (d_types d) (d_map d) (hypot_map d) (hypot_list d) v (dedup_table d) (type_len d) (requests d).
Definition set_table (d : dedup) v :=
  Dedup (d_types d) (d_map d) (hypot_map d) (hypot_list d) (hypot_cap d) v (type_len d) (requests d).
Definition set_type_len (d : dedup) v :=
  Dedup (d_types d) (d_map d) (hypot_map d) (hypot_list d) (hypot_cap d) (dedup_table d) v (requests d).
Definition count_request (d : dedup) :=
  Dedup (d_types d) (d_map d) (hypot_map d) (hypot_list d) (hypot_cap d) (dedup_table d) (type_len d)
    (S (requests d)).

(** ** Computations on the state *)

Abbreviation M := (ST dedup).
Definition undefined {A} : M A := fun d => None.

Definition get_type (id : Z) : M desc := fun d => lift (znth (d_types d) id) d.
Definition get_map (id : Z) : M Z := fun d => lift (znth (d_map d) id) d.
Definition get_hypot (id : Z) : M Z := fun d => lift (znth (hypot_map d) id) d.
Definition put_type (id : Z) (t : desc) : M unit := fun d =>
  ts ← zset (d_types d) id t; Some (Ok tt, set_types d ts).
Definition put_map (id v : Z) : M unit := fun d =>
  m ← zset (d_map d) id v; Some (Ok tt, set_map d m).

(** The ids [1 .. nr_types]. *)
Definition all_ids (d : dedup) : list Z := List.map Z.of_nat (seq 1 (pred (length (d_types d)))).
Definition each_type (f : Z -> M unit) : M unit := fun d => each f (all_ids d) d.

Section dedup.
(** Whether the allocator grants its [n]-th request, and the options. *)
Context (alloc : nat -> Z -> bool) (opts : btf_dedup_opts).

Definition malloc (size : Z) : M unit := fun d =>
  if alloc (requests d) size then Some (Ok tt, count_request d)
  else Some (Err (- ENOMEM), count_request d).

(** ** The table of candidates and the hypothetical map *)

Definition bucket (hash : Z) : Z := Z.land hash (dedup_table_size opts - 1).

Definition for_each_dedup_cand (hash : Z) : M (list Z) := fun d =>
  Some (Ok (default [] (dedup_table d !! bucket hash)), d).

Definition btf_dedup_table_add (hash type_id : Z) : M unit :=
  let* _ := malloc sizeof_btf_dedup_node in
  fun d => Some (Ok tt, set_table d
    (<[bucket hash := type_id :: default [] (dedup_table d !! bucket hash)]> (dedup_table d))).

Definition btf_dedup_hypot_map_add (from_id to_id : Z) : M unit := fun d =>
  let store : M unit := fun d =>
    h ← zset (hypot_map d) from_id to_id; Some (Ok tt, set_hypot d h (hypot_list d ++ [from_id])) in
  if zlen (hypot_list d) =? hypot_cap d then
    let cap := hypot_cap d + Z.max 16 (hypot_cap d / 2) in
    (let* _ := malloc (sizeof_u32 * cap) in store) (set_cap d cap)
  else store d.

Fixpoint unmap_all (l : list Z) (h : list Z) : option (list Z) :=
  match l with
  | [] => Some h
  | i :: l => h ← zset h i BTF_UNPROCESSED_ID; unmap_all l h
  end.

Definition btf_dedup_clear_hypot_map : M unit := fun d =>
  h ← unmap_all (hypot_list d) (hypot_map d); Some (Ok tt, set_hypot d h []).

Definition btf_dedup_table_free : M unit := fun d => Some (Ok tt, set_table d ∅).

(** ** Primitive types *)

(** The first candidate that compares equal. *)
Fixpoint find_cand (equal : desc -> option bool) (cands : list Z) : M (option Z) :=
  match cands with
  | [] => ret None
  | c :: cands =>
      let* cand := get_type c in
      let* eq := lift (equal cand) in
      if eq then ret (Some c) else find_cand equal cands
  end.

(** [d->map\[type_id\] = new_id], and a type mapped to itself is a candidate. *)
Definition map_type (type_id new_id h : Z) : M unit :=
  let* _ := put_map type_id new_id in
  if type_id =? new_id then btf_dedup_table_add h type_id else ret tt.

(** Maps a type to the first candidate equal to it, or to itself. *)
Definition map_equal (type_id : Z) (hash : option Z) (equal : desc -> option bool) : M Z :=
  let* h := lift hash in
  let* cands := for_each_dedup_cand h in
  let* cand := find_cand equal cands in
  let new_id := default type_id cand in
  let* _ := map_type type_id new_id h in
  ret new_id.

Definition btf_dedup_prim_type (type_id : Z) : M unit :=
  let* t := get_type type_id in
  let k := d_kind t in
  if is_ref k || (k =? BTF_KIND_ARRAY) || is_composite k || (k =? BTF_KIND_FUNC_PROTO) then ret tt
  else if k =? BTF_KIND_INT then
    let* _ := map_equal type_id (btf_hash_int t) (btf_equal_int t) in ret tt
  else if k =? BTF_KIND_ENUM then
    let* _ := map_equal type_id (btf_hash_enum t) (btf_equal_enum t) in ret tt
  else if k =? BTF_KIND_FWD then
    let* _ := map_equal type_id (Some (btf_hash_common t)) (fun c => Some (btf_equal_common t c)) in ret tt
  else fail (- EINVAL).

Definition btf_dedup_prim_types : M unit := each_type btf_dedup_prim_type.

(** ** Resolving ids *)

(** [d->map\[type_id\] <= BTF_MAX_NR_TYPES]. *)
Definition is_type_mapped (v : Z) : bool := v <=? BTF_MAX_NR_TYPES.

Fixpoint resolve_loop (fuel : nat) (m : list Z) (type_id : Z) : option Z :=
  match fuel with
  | O => None
  | S fuel =>
      v ← znth m type_id;
      if is_type_mapped v && negb (v =? type_id) then resolve_loop fuel m v else Some type_id
  end.

Definition resolve_type_id (type_id : Z) : M Z := fun d =>
  lift (resolve_loop (length (d_map d)) (d_map d) type_id) d.

Definition resolve_fwd_id (type_id : Z) : M Z :=
  let* t := get_type type_id in
  if negb (d_kind t =? BTF_KIND_FWD) then ret type_id else
  let* r := resolve_type_id type_id in
  let* t := get_type r in
  if negb (d_kind t =? BTF_KIND_FWD) then ret r else ret type_id.

(** ** Equivalence of two type graphs *)

(** The ids in these slots, pair by pair. *)
Fixpoint all_equiv (equiv : Z -> Z -> M bool) (cand_type canon_type : desc) (slots : list nat) : M bool :=
  match slots with
  | [] => ret true
  | s :: slots =>
      let* cand_id := lift (child cand_type s) in
      let* canon_id := lift (child canon_type s) in
      let* eq := equiv cand_id canon_id in
      if eq then all_equiv equiv cand_type canon_type slots else ret false
  end.

(** The FWD against STRUCT/UNION rule applies. *)
Definition fwd_pair (cand_kind canon_kind : Z) : bool :=
  negb (dont_resolve_fwds opts) && ((cand_kind =? BTF_KIND_FWD) || (canon_kind =? BTF_KIND_FWD))
  && negb (cand_kind =? canon_kind).

Definition fwd_matches (cand_type canon_type : desc) : bool :=
  if d_kind cand_type =? BTF_KIND_FWD then btf_fwd_kind cand_type =? d_kind canon_type
  else btf_fwd_kind canon_type =? d_kind cand_type.

(** The [switch] over the kind of two types with one name and one [info]. *)
Definition equiv_kind (equiv : Z -> Z -> M bool) (cand_type canon_type : desc) : M bool :=
  let k := d_kind cand_type in
  if k =? BTF_KIND_INT then lift (btf_equal_int cand_type canon_type)
  else if k =? BTF_KIND_ENUM then lift (btf_equal_enum cand_type canon_type)
  else if k =? BTF_KIND_FWD then ret (btf_equal_common cand_type canon_type)
  else if is_ref k then all_equiv equiv cand_type canon_type [type_slot]
  else if k =? BTF_KIND_ARRAY then
    let* c := lift (btf_compat_array cand_type canon_type) in
    if negb c then ret false
    else all_equiv equiv cand_type canon_type [array_index_type_slot; array_type_slot]
  else if is_composite k then
    let* c := lift (btf_shallow_equal_struct cand_type canon_type) in
    if negb c then ret false
    else all_equiv equiv cand_type canon_type (member_slots (vlen cand_type))
  else if k =? BTF_KIND_FUNC_PROTO then
    let* c := lift (btf_compat_fnproto cand_type canon_type) in
    if negb c then ret false
    else all_equiv equiv cand_type canon_type (type_slot :: param_slots (vlen cand_type))
  else fail (- EINVAL).

Fixpoint btf_dedup_is_equiv (fuel : nat) (cand_id canon_id : Z) : M bool :=
  match fuel with
  | O => undefined
  | S fuel =>
      let* r1 := resolve_type_id cand_id in
      let* r2 := resolve_type_id canon_id in
      if r1 =? r2 then ret true else
      let* canon_id := resolve_fwd_id canon_id in
      let* hypot_type_id := get_hypot canon_id in
      if hypot_type_id <=? BTF_MAX_NR_TYPES then ret (hypot_type_id =? cand_id) else
      let* _ := btf_dedup_hypot_map_add canon_id cand_id in
      let* cand_type := get_type cand_id in
      let* canon_type := get_type canon_id in
      if negb (d_name_off cand_type =? d_name_off canon_type) then ret false else
      if fwd_pair (d_kind cand_type) (d_kind canon_type) then ret (fwd_matches cand_type canon_type) else
      if negb (d_info cand_type =? d_info canon_type) then ret false else
      equiv_kind (btf_dedup_is_equiv fuel) cand_type canon_type
  end.

(** ** Structs and unions *)

Definition merge_one (cand_type_id : Z) : M unit :=
  let* targ_type_id := get_hypot cand_type_id in
  let* t_id := resolve_type_id targ_type_id in
  let* c_id := resolve_type_id cand_type_id in
  let* t := get_type t_id in
  let* c := get_type c_id in
  let t_kind := d_kind t in
  let c_kind := d_kind c in
  let* _ :=
    if negb (t_kind =? BTF_KIND_FWD) && (c_kind =? BTF_KIND_FWD) then put_map c_id t_id
    else if (t_kind =? BTF_KIND_FWD) && negb (c_kind =? BTF_KIND_FWD) then put_map t_id c_id
    else ret tt in
  let* mc := get_map c_id in
  let* mt := get_map t_id in
  if is_composite t_kind && negb (c_kind =? BTF_KIND_FWD) && is_type_mapped mc && negb (is_type_mapped mt)
  then put_map t_id c_id else ret tt.

Definition btf_dedup_merge_hypot_map : M unit := fun d => each merge_one (hypot_list d) d.

(** The loop over the candidates of a struct or union [t]. *)
Fixpoint struct_cand (type_id : Z) (t : desc) (cands : list Z) : M Z :=
  match cands with
  | [] => ret type_id
  | c :: cands =>
      let* cand_type := get_type c in
      let* same := lift (btf_shallow_equal_struct t cand_type) in
      if negb same then struct_cand type_id t cands else
      let* _ := btf_dedup_clear_hypot_map in
      let* eq := (fun d => btf_dedup_is_equiv (S (length (hypot_map d))) type_id c d) in
      if negb eq then struct_cand type_id t cands else
      let* _ := btf_dedup_merge_hypot_map in
      ret c
  end.

Definition btf_dedup_struct_type (type_id : Z) : M unit :=
  let* m := get_map type_id in
  if m <=? BTF_MAX_NR_TYPES then ret tt else
  let* t := get_type type_id in
  if negb (is_composite (d_kind t)) then ret tt else
  let* h := lift (btf_hash_struct t) in
  let* cands := for_each_dedup_cand h in
  let* new_id := struct_cand type_id t cands in
  map_type type_id new_id h.

Definition btf_dedup_struct_types : M unit := each_type btf_dedup_struct_type.

(** ** Reference types *)

(** Replaces the id in a slot by the canonical one. *)
Definition ref_slot (ref_type : Z -> M Z) (type_id : Z) (s : nat) : M unit :=
  let* t := get_type type_id in
  let* id := lift (child t s) in
  let* ref_type_id := ref_type id in
  let* t := get_type type_id in
  put_type type_id (set_child t s ref_type_id).

Fixpoint btf_dedup_ref_type (fuel : nat) (type_id : Z) : M Z :=
  match fuel with
  | O => undefined
  | S fuel =>
      let* m := get_map type_id in
      if m =? BTF_IN_PROGRESS_ID then fail (- ELOOP) else
      if m <=? BTF_MAX_NR_TYPES then resolve_type_id type_id else
      let* t := get_type type_id in
      let* _ := put_map type_id BTF_IN_PROGRESS_ID in
      let k := d_kind t in
      if is_ref k then
        let* _ := each (ref_slot (btf_dedup_ref_type fuel) type_id) [type_slot] in
        let* t := get_type type_id in
        map_equal type_id (Some (btf_hash_common t)) (fun c => Some (btf_equal_common t c))
      else if k =? BTF_KIND_ARRAY then
        let* _ := each (ref_slot (btf_dedup_ref_type fuel) type_id) [array_type_slot; array_index_type_slot] in
        let* t := get_type type_id in
        map_equal type_id (btf_hash_array t) (btf_equal_array t)
      else if k =? BTF_KIND_FUNC_PROTO then
        let* _ := each (ref_slot (btf_dedup_ref_type fuel) type_id) (type_slot :: param_slots (vlen t)) in
        let* t := get_type type_id in
        map_equal type_id (btf_hash_fnproto t) (btf_equal_fnproto t)
      else fail (- EINVAL)
  end.

Definition btf_dedup_ref_types : M unit := fun d =>
  (let* _ := each_type (fun id => let* _ := btf_dedup_ref_type (S (length (d_map d))) id in ret tt) in
   btf_dedup_table_free) d.

(** ** Compaction and renumbering *)

(** [next_type_id] and the space taken so far go from one type to the next. *)
Fixpoint compact_loop (ids : list Z) (next_type_id p : Z) : M (Z * Z) :=
  match ids with
  | [] => ret (next_type_id, p)
  | i :: ids =>
      let* m := get_map i in
      if negb (m =? i) then compact_loop ids next_type_id p else
      let* t := get_type i in
      match info_size (d_info t) with
      | Err e => fail e
      | Ok len =>
          let* _ := put_type next_type_id t in
          let* _ := (fun d => h ← zset (hypot_map d) i next_type_id;
                              Some (Ok tt, set_hypot d h (hypot_list d))) in
          compact_loop ids (next_type_id + 1) (p + len)
      end
  end.

Definition btf_dedup_compact_types : M unit := fun d =>
  let start := set_hypot d (0 :: repeat BTF_UNPROCESSED_ID (pred (length (d_types d)))) (hypot_list d) in
  (let* (next_type_id, p) := compact_loop (all_ids d) 1 0 in
   let* _ := (fun d => Some (Ok tt, set_type_len (set_types d (take (Z.to_nat next_type_id) (d_types d))) p)) in
   malloc (sizeof_pointer * next_type_id)) start.

Definition btf_dedup_remap_type_id (type_id : Z) : M Z :=
  let* resolved_type_id := resolve_type_id type_id in
  let* new_type_id := get_hypot resolved_type_id in
  if BTF_MAX_NR_TYPES <? new_type_id then fail (- EINVAL) else ret new_type_id.

Definition remap_slot (type_id : Z) (s : nat) : M unit :=
  let* t := get_type type_id in
  let* id := lift (child t s) in
  let* r := btf_dedup_remap_type_id id in
  put_type type_id (set_child t s r).

Definition btf_dedup_remap_type (type_id : Z) : M unit :=
  let* t := get_type type_id in
  let k := d_kind t in
  if (k =? BTF_KIND_INT) || (k =? BTF_KIND_ENUM) then ret tt
  else if (k =? BTF_KIND_FWD) || is_ref k then each (remap_slot type_id) [type_slot]
  else if k =? BTF_KIND_ARRAY then each (remap_slot type_id) [array_type_slot; array_index_type_slot]
  else if is_composite k then each (remap_slot type_id) (member_slots (vlen t))
  else if k =? BTF_KIND_FUNC_PROTO then each (remap_slot type_id) (type_slot :: param_slots (vlen t))
  else fail (- EINVAL).

Definition btf_dedup_remap_types : M unit := each_type btf_dedup_remap_type.

(** The passes over the types, in order. *)
Definition btf_dedup_types : M unit :=
  let* _ := btf_dedup_prim_types in
  let* _ := btf_dedup_struct_types in
  let* _ := btf_dedup_ref_types in
  let* _ := btf_dedup_compact_types in
  btf_dedup_remap_types.
End dedup.

(** ** Setting up *)

(** The closest power of two not below [size], up to [2^max_size_log]. *)
Fixpoint roundup_loop (fuel i : nat) (size : Z) : Z :=
  match fuel with
  | O => Z.shiftl 1 (Z.of_nat i)
  | S fuel => if Z.shiftl 1 (Z.of_nat i) <? size then roundup_loop fuel (S i) size else Z.shiftl 1 (Z.of_nat i)
  end.
Definition roundup_pow2_max (size : Z) (max_size_log : nat) : Z := roundup_loop max_size_log 0 size.

Definition dedup_opts (opts : option btf_dedup_opts) : btf_dedup_opts :=
  let sz := match opts with
            | Some o => if dedup_table_size o =? 0 then BTF_DEDUP_TABLE_DEFAULT_SIZE else dedup_table_size o
            | None => BTF_DEDUP_TABLE_DEFAULT_SIZE
            end in
  Dedup_opts (roundup_pow2_max sz BTF_DEDUP_TABLE_MAX_SIZE_LOG)
    match opts with Some o => dont_resolve_fwds o | None => false end.

(** The state before the first pass. *)
Definition dedup_init (types : list desc) (requests : nat) : dedup :=
  let nr_types := pred (length types) in
  Dedup types (0 :: repeat BTF_UNPROCESSED_ID nr_types) (repeat BTF_UNPROCESSED_ID (S nr_types))
    [] 0 ∅ 0 requests.

Definition btf_dedup_new (alloc : nat -> Z -> bool) (types : list desc) (opts : option btf_dedup_opts) :
    result (dedup * btf_dedup_opts) :=
  let o := dedup_opts opts in
  let n := zlen types in
  if negb (alloc 0%nat sizeof_btf_dedup) then Err (- ENOMEM) else
  if negb (alloc 1%nat (dedup_table_size o * sizeof_pointer)) then Err (- ENOMEM) else
  if negb (alloc 2%nat (sizeof_u32 * n)) then Err (- ENOMEM) else
  if negb (alloc 3%nat (sizeof_u32 * n)) then Err (- ENOMEM) else
  Ok (dedup_init types 4, o).
