(* ===== verification/BtfRoots.v ===== *)
(** * The map from types to their canonical representatives

    [d->map] of deduplication as a forest: following it from any id ends at a
    root ([resolve_type_id] terminates), and the updates the passes make keep
    it so. *)

From S2P Require Export BtfDedup.

(** An id that [resolve_type_id] does not go on from. *)
Definition stop (m : list Z) (r : Z) : Prop :=
  exists v, znth m r = Some v /\ (is_type_mapped v = false \/ v = r).

(** Following the map from [x] ends at [r]. *)
Inductive Root (m : list Z) : Z -> Z -> Prop :=
| Root_here r : stop m r -> Root m r r
| Root_step x v r : znth m x = Some v -> is_type_mapped v = true -> v <> x -> Root m v r -> Root m x r.

Definition rooted (m : list Z) : Prop := forall x, 0 <= x < zlen m -> exists r, Root m x r.

(** A map of [n] ids: void is its own representative. *)
Record map_ok (n : Z) (m : list Z) : Prop := {
  mo_len : zlen m = n;
  mo_zero : znth m 0 = Some 0;
  mo_range x v : znth m x = Some v ->
    0 <= v < n \/ v = BTF_UNPROCESSED_ID \/ v = BTF_IN_PROGRESS_ID;
  mo_small : n <= BTF_MAX_NR_TYPES + 1;
  mo_rooted : rooted m
}.

Lemma Root_stop m x r : Root m x r -> stop m r.
Proof. by induction 1. Qed.

Lemma stop_step m x v : stop m x -> znth m x = Some v -> is_type_mapped v = true -> v <> x -> False.
Proof. intros (w & Hw & Hs) Hv Hm Hne. assert (w = v) as -> by congruence. destruct Hs; congruence. Qed.

Lemma Root_det m x r r' : Root m x r -> Root m x r' -> r = r'.
Proof.
  intros H. revert r'. induction H as [r Hs|x v r Hv Hm Hne Hr IH]; intros r' H'.
  - inversion H'; subst; [done|]. exfalso. eauto using stop_step.
  - inversion H'; subst; [exfalso; eauto using stop_step|]. apply IH. congruence.
Qed.

Lemma stop_range m r : stop m r -> 0 <= r < zlen m.
Proof. intros (v & Hv & _). by eapply znth_Some_range. Qed.

Lemma Root_range m x r : Root m x r -> 0 <= x < zlen m /\ 0 <= r < zlen m.
Proof.
  intros H. split; [|by eapply stop_range, Root_stop].
  inversion H; subst; [by apply stop_range|by eapply znth_Some_range].
Qed.

Lemma Root_of_stop m r x : stop m r -> Root m r x -> x = r.
Proof. intros Hs Hr. eapply Root_det; [done|]. by apply Root_here. Qed.

(** ** Redirecting an id *)

(** The new value is a mark, the id itself or a root. *)
Definition redirect (m : list Z) (x v : Z) : Prop :=
  v = x \/ is_type_mapped v = false \/ (v <> x /\ stop m v).

Lemma rooted_update m x v m' : redirect m x v -> zset m x v = Some m' -> rooted m -> rooted m'.
Proof.
  intros Hv Hm' Hr y Hy. rewrite (zlen_zset _ _ _ _ Hm') in Hy. destruct (Hr y Hy) as [r H].
  assert (forall z, znth m' z = if decide (x = z) then Some v else znth m z) as Hz by (intros; by apply znth_zset).
  assert (exists r', Root m' x r') as Hx.
  { destruct (is_type_mapped v) eqn:Em.
    - destruct Hv as [-> |[?|[Hne (w & Hw & Hs)]]]; [|congruence|].
      + exists x. apply Root_here. exists x. rewrite Hz, decide_True by done. auto.
      + exists v. eapply Root_step; [by rewrite Hz, decide_True|done|done|].
        apply Root_here. exists w. by rewrite Hz, decide_False by done.
    - exists x. apply Root_here. exists v. rewrite Hz, decide_True by done. auto. }
  clear Hy. induction H as [y (w & Hw & Hs)|y w r Hw Hm Hne _ IH].
  - destruct (decide (x = y)) as [-> |Hne]; [done|]. exists y. apply Root_here. exists w.
    by rewrite Hz, decide_False.
  - destruct (decide (x = y)) as [-> |Hn]; [done|]. destruct IH as [r' Hr'].
    exists r'. eapply Root_step; [by rewrite Hz, decide_False|done..].
Qed.

Lemma map_ok_update n m x v m' :
  map_ok n m -> x <> 0 -> redirect m x v -> zset m x v = Some m' ->
  0 <= v < n \/ v = BTF_UNPROCESSED_ID \/ v = BTF_IN_PROGRESS_ID -> map_ok n m'.
Proof.
  intros H Hx Hr Hm' Hv. split.
  - rewrite (zlen_zset _ _ _ _ Hm'). apply H.
  - rewrite (znth_zset _ _ _ _ _ Hm'), decide_False by done. apply H.
  - intros y w. rewrite (znth_zset _ _ _ _ _ Hm'). case_decide; [by intros [= <-]|apply H].
  - apply H.
  - eapply rooted_update; [done..|apply H].
Qed.

(** ** Resolution terminates *)

(** [Path m x l r]: the ids met from [x] on, up to the root. *)
Inductive Path (m : list Z) : Z -> list Z -> Z -> Prop :=
| Path_here r : stop m r -> Path m r [r] r
| Path_step x v l r : znth m x = Some v -> is_type_mapped v = true -> v <> x ->
    Path m v l r -> Path m x (x :: l) r.

Lemma Root_Path m x r : Root m x r -> exists l, Path m x l r.
Proof. induction 1 as [|x v r Hv Hm Hne _ [l IH]]; eauto using Path. Qed.

Lemma Path_det m x l r l' r' : Path m x l r -> Path m x l' r' -> l = l'.
Proof.
  intros H. revert l' r'. induction H as [r Hs|x v l r Hv Hm Hne Hr IH]; intros l' r' H'.
  - inversion H'; subst; [done|]. exfalso. eauto using stop_step.
  - inversion H'; subst; [exfalso; eauto using stop_step|]. f_equal. eapply IH.
    by assert (v0 = v) as -> by congruence.
Qed.

Lemma Path_suffix m x l r y : Path m x l r -> y ∈ l -> exists l1 l2, l = l1 ++ l2 /\ Path m y l2 r.
Proof.
  induction 1 as [r Hs|x v l r Hv Hm Hne Hr IH].
  - intros ->%list_elem_of_singleton. exists [], [r]. split; [done|by constructor].
  - intros [-> |Hy]%elem_of_cons.
    + exists [], (x :: l). split; [done|]. by econstructor.
    + destruct (IH Hy) as (l1 & l2 & -> & H). by exists (x :: l1), l2.
Qed.

Lemma Path_NoDup m x l r : Path m x l r -> NoDup l.
Proof.
  induction 1 as [r Hs|x v l r Hv Hm Hne Hr IH].
  - apply NoDup_singleton.
  - constructor; [|done]. intros Hx. destruct (Path_suffix _ _ _ _ _ Hr Hx) as (l1 & l2 & -> & H).
    assert (Path m x (x :: l1 ++ l2) r) as H' by by econstructor.
    pose proof (Path_det _ _ _ _ _ _ H H') as E. apply (f_equal length) in E.
    cbn in E. rewrite length_app in E. lia.
Qed.

Lemma Path_range m x l r y : Path m x l r -> y ∈ l -> 0 <= y < zlen m.
Proof.
  induction 1 as [r Hs|x v l r Hv Hm Hne Hr IH].
  - intros ->%list_elem_of_singleton. by apply stop_range.
  - intros [-> |Hy]%elem_of_cons; [by eapply znth_Some_range|auto].
Qed.

Lemma Path_length m x l r : Path m x l r -> (length l <= length m)%nat.
Proof.
  intros H. rewrite <- (length_seq (length m) 0), <- (length_map Z.of_nat).
  apply NoDup_incl_length; [apply NoDup_ListNoDup; by eapply Path_NoDup|].
  intros y Hy%list_elem_of_In. apply in_map_iff. exists (Z.to_nat y).
  pose proof (Path_range _ _ _ _ _ H Hy) as Hr. unfold zlen in Hr. split; [lia|]. apply in_seq. lia.
Qed.

Lemma resolve_Path m x l r fuel :
  Path m x l r -> (length l <= fuel)%nat -> resolve_loop fuel m x = Some r.
Proof.
  intros H. revert fuel. induction H as [r (v & Hv & Hs)|x v l r Hv Hm Hne Hr IH]; intros [|fuel] Hf;
    cbn in Hf; try lia; cbn [resolve_loop]; rewrite Hv; cbn [mbind option_bind].
  - destruct Hs as [-> | ->]; [done|]. by rewrite Z.eqb_refl, andb_false_r.
  - rewrite Hm. destruct (Z.eqb_spec v x) as [|]; [done|]. cbn. apply IH. lia.
Qed.

(** From every id the loop of [resolve_type_id] ends at its root. *)
Lemma resolve_root n m x :
  map_ok n m -> 0 <= x < n -> exists r, resolve_loop (length m) m x = Some r /\ Root m x r /\ 0 <= r < n.
Proof.
  intros H Hx. destruct (mo_rooted _ _ H x) as [r Hr]; [by rewrite (mo_len _ _ H)|].
  destruct (Root_Path _ _ _ Hr) as [l Hl]. exists r. split_and!.
  - eapply resolve_Path; [done|]. by eapply Path_length.
  - done.
  - apply Root_range in Hr. rewrite (mo_len _ _ H) in Hr. lia.
  - apply Root_range in Hr. rewrite (mo_len _ _ H) in Hr. lia.
Qed.

Lemma mapped_spec n m x v :
  map_ok n m -> znth m x = Some v -> is_type_mapped v = true <-> 0 <= v < n.
Proof.
  intros H Hv. pose proof (mo_range _ _ H _ _ Hv) as Hr. pose proof (mo_small _ _ H).
  unfold is_type_mapped, BTF_MAX_NR_TYPES, BTF_UNPROCESSED_ID, BTF_IN_PROGRESS_ID in *. lia.
Qed.
