(* ===== verification/BtfDedupInv.v ===== *)
(** * Invariants of deduplication

    What a pass does to the state as a pre- and postcondition ([run]), the
    invariants all passes keep, and the pass over the primitive types. *)

From S2P Require Export BtfRoots.

(** ** Total correctness of a pass

    [run E P c d]: from [d], [c] ends; with [P] on success, with [E] on an
    error. *)
Abbreviation run := (runs False).

Section gets.
Context {A : Type} (E : Z -> dedup -> Prop) (P : A -> dedup -> Prop).

Lemma run_get_type (k : desc -> M A) x t d :
  znth (d_types d) x = Some t -> run E P (k t) d -> run E P (bind (get_type x) k) d.
Proof. intros Ht H. apply run_bind. unfold runs, get_type. by rewrite Ht. Qed.

Lemma run_get_map (k : Z -> M A) x v d :
  znth (d_map d) x = Some v -> run E P (k v) d -> run E P (bind (get_map x) k) d.
Proof. intros Ht H. apply run_bind. unfold runs, get_map. by rewrite Ht. Qed.

Lemma run_get_hypot (k : Z -> M A) x v d :
  znth (hypot_map d) x = Some v -> run E P (k v) d -> run E P (bind (get_hypot x) k) d.
Proof. intros Ht H. apply run_bind. unfold runs, get_hypot. by rewrite Ht. Qed.

Lemma run_lift_bind {B} (k : B -> M A) o b d :
  o = Some b -> run E P (k b) d -> run E P (bind (lift o) k) d.
Proof. intros -> H. by apply run_bind. Qed.
End gets.

(** ** Well-formed types *)

(** Types numbered as in [btf->types]: [btf_void], then well-formed records
    that reference types of the list; a forward declaration has no size. *)
Record graph_ok (G : list desc) : Prop := {
  go_void : znth G 0 = Some void_desc;
  go_rec x t : 0 < x -> znth G x = Some t -> desc_ok t;
  go_closed : closed G;
  go_small : zlen G <= BTF_MAX_NR_TYPES + 1;
  go_fwd x t : znth G x = Some t -> d_kind t = BTF_KIND_FWD -> d_size t = 0
}.

Definition is_prim (k : Z) : bool := (k =? BTF_KIND_INT) || (k =? BTF_KIND_ENUM) || (k =? BTF_KIND_FWD).
Definition is_reference (k : Z) : bool := is_ref k || (k =? BTF_KIND_ARRAY) || (k =? BTF_KIND_FUNC_PROTO).

Lemma graph_rec_ok G x t : graph_ok G -> znth G x = Some t -> rec_ok t.
Proof.
  intros H Ht. destruct (decide (x = 0)) as [-> |].
  - left. rewrite (go_void _ H) in Ht. congruence.
  - right. apply (go_rec _ H x t); [|done]. apply znth_Some_range in Ht. lia.
Qed.

Lemma graph_kind_nonzero G x t : graph_ok G -> znth G x = Some t -> d_kind t <> BTF_KIND_UNKN -> x <> 0.
Proof. intros H Ht Hk ->. rewrite (go_void _ H) in Ht. injection Ht as <-. by apply Hk. Qed.

Lemma kinds_of t :
  desc_ok t -> is_prim (d_kind t) = true \/ is_composite (d_kind t) = true \/ is_reference (d_kind t) = true.
Proof.
  intros [_ Hn]. unfold info_size in Hn. fold (d_kind t) in Hn.
  unfold is_prim, is_composite, is_reference, is_ref.
  repeat match type of Hn with
  | context [d_kind t =? ?b] => destruct (d_kind t =? b); cbn [orb] in *
  end; rewrite ?orb_true_r; auto. done.
Qed.

(** ** Distinct ids *)

Lemma NoDup_ids_length (l : list Z) n :
  NoDup l -> (forall x, x ∈ l -> 0 <= x < n) -> zlen l <= Z.max 0 n.
Proof.
  intros Hl Hr.
  assert (length l <= length (List.map Z.of_nat (seq 0 (Z.to_nat n))))%nat as H.
  { apply NoDup_incl_length; [by apply NoDup_ListNoDup|].
    intros y Hy%list_elem_of_In. apply in_map_iff. exists (Z.to_nat y).
    specialize (Hr _ Hy). split; [lia|]. apply in_seq. lia. }
  rewrite length_map, length_seq in H. unfold zlen. lia.
Qed.

Lemma all_ids_spec d x : x ∈ all_ids d <-> 0 < x < zlen (d_types d).
Proof.
  unfold all_ids, zlen. rewrite list_elem_of_In, in_map_iff. setoid_rewrite in_seq. split.
  - intros (i & <- & Hi). lia.
  - intros Hx. exists (Z.to_nat x). lia.
Qed.

Lemma all_ids_NoDup d : NoDup (all_ids d).
Proof.
  unfold all_ids. generalize 1%nat. generalize (pred (length (d_types d))).
  induction n as [|n IH]; intros i; cbn; constructor; [|apply IH].
  rewrite list_elem_of_In, in_map_iff. intros (j & Hj & [Hi _]%in_seq). lia.
Qed.

(** ** The state between the passes *)

Section invariants.
Context (alloc : nat -> Z -> bool) (opts : btf_dedup_opts).
(** The types before deduplication, and numbers that may rank them. *)
Context (G0 : list desc) (rank : Z -> nat).
Local Abbreviation n := (zlen G0).
Local Abbreviation exact := (dont_resolve_fwds opts = true).

(** References lead to lower ranks: no type is defined through references to
    itself alone. *)
Definition ranked : Prop := forall x t c tc,
  znth G0 x = Some t -> is_reference (d_kind t) = true -> c ∈ children t ->
  znth G0 c = Some tc -> is_reference (d_kind tc) = true -> (rank c < rank x)%nat.

(** [moved]: forward declarations may have been mapped to structs. *)
Record sinv (moved : Prop) (d : dedup) : Prop := {
  si_len : zlen (d_types d) = n;
  si_graph : graph_ok (d_types d);
  si_shape x t : znth (d_types d) x = Some t -> exists t0, znth G0 x = Some t0 /\ shape t = shape t0;
  si_map : map_ok n (d_map d);
  si_table b l c : dedup_table d !! b = Some l -> c ∈ l -> 0 < c < n /\
    (znth (d_map d) c = Some c \/
     moved /\ exists t, znth (d_types d) c = Some t /\ d_kind t = BTF_KIND_FWD);
  si_same x v : exact -> znth (d_map d) x = Some v -> 0 <= v < n ->
    same_type (d_types d) x (d_types d) v;
  si_keeps x : exact -> 0 <= x < n -> same_type G0 x (d_types d) x
}.

(** Every id is mapped or has not been looked at. *)
Definition settled (d : dedup) : Prop :=
  forall x v, znth (d_map d) x = Some v -> 0 <= v < n \/ v = BTF_UNPROCESSED_ID.

Definition mapped (d : dedup) (x : Z) : Prop := exists v, znth (d_map d) x = Some v /\ 0 <= v < n.

(** The representatives chosen in [d] are kept, forward declarations aside. *)
Definition frozen (d d' : dedup) : Prop := forall x v t,
  znth (d_map d) x = Some v -> 0 <= v < n -> znth G0 x = Some t -> d_kind t <> BTF_KIND_FWD ->
  znth (d_map d') x = Some v.

(** Failing leaves every type what it was. *)
Definition fails (e : Z) (d : dedup) : Prop :=
  ((e = - ENOMEM /\ exists k size, alloc k size = false) \/ (e = - ELOOP /\ ~ ranked)) /\
  (exact -> forall x, 0 <= x < n -> same_type G0 x (d_types d) x).

Lemma si_ids moved d x : sinv moved d -> 0 <= x < n -> exists t v,
  znth (d_types d) x = Some t /\ znth (d_map d) x = Some v.
Proof.
  intros H Hx. assert (is_Some (znth (d_types d) x)) as [t Ht] by (apply znth_is_Some; by rewrite (si_len _ _ H)).
  assert (is_Some (znth (d_map d) x)) as [v Hv].
  { apply znth_is_Some. by rewrite (mo_len _ _ (si_map _ _ H)). }
  eauto.
Qed.

Lemma si_kind moved d x t t0 :
  sinv moved d -> znth (d_types d) x = Some t -> znth G0 x = Some t0 -> d_kind t = d_kind t0.
Proof.
  intros H Ht Ht0. destruct (si_shape _ _ H _ _ Ht) as (t0' & E & Hs).
  assert (t0' = t0) as -> by congruence. by apply shape_kind.
Qed.

Lemma si_Root moved d x r : sinv moved d -> exact -> Root (d_map d) x r -> same_type (d_types d) x (d_types d) r.
Proof.
  intros H He Hr. pose proof (Root_range _ _ _ Hr) as Hrr. rewrite (mo_len _ _ (si_map _ _ H)) in Hrr.
  induction Hr as [r|x v r Hv Hm Hne Hr IH].
  - apply same_refl; [apply H|]. rewrite (si_len _ _ H). lia.
  - apply (mapped_spec _ _ _ _ (si_map _ _ H) Hv) in Hm.
    eapply same_trans; [by apply (si_same _ _ H)|]. apply IH. lia.
Qed.

(** Only counters and the hypothetical map changed. *)
Definition same_core (d d' : dedup) : Prop :=
  d_types d' = d_types d /\ d_map d' = d_map d /\ dedup_table d' = dedup_table d.

Lemma sinv_core moved d d' : same_core d d' -> sinv moved d -> sinv moved d'.
Proof. intros (E1 & E2 & E3) []. split; rewrite ?E1, ?E2, ?E3; assumption. Qed.

Lemma fails_nomem moved d k size : sinv moved d -> alloc k size = false -> fails (- ENOMEM) (count_request d).
Proof. intros H Ha. split; [left; split; eauto|]. intros He x Hx. by apply (si_keeps _ _ H). Qed.

Lemma run_malloc moved (P : unit -> dedup -> Prop) size d :
  sinv moved d -> P tt (count_request d) -> run fails P (malloc alloc size) d.
Proof.
  intros H HP. unfold runs, malloc. destruct (alloc _ _) eqn:Ea; [done|]. by eapply fails_nomem.
Qed.

Lemma run_resolve {A} moved E (P : A -> dedup -> Prop) (k : Z -> M A) x d :
  sinv moved d -> 0 <= x < n ->
  (forall r, Root (d_map d) x r -> 0 <= r < n -> run E P (k r) d) ->
  run E P (bind (resolve_type_id x) k) d.
Proof.
  intros H Hx Hk. destruct (resolve_root _ _ _ (si_map _ _ H) Hx) as (r & Hr & HR & Hrr).
  apply run_bind. unfold runs, resolve_type_id. rewrite Hr. by apply Hk.
Qed.

(** Mapping an id: to itself, to a mark or to a root that is the same type. *)
Lemma sinv_put_map moved d x v m :
  sinv moved d -> x <> 0 -> redirect (d_map d) x v -> zset (d_map d) x v = Some m ->
  0 <= v < n \/ v = BTF_IN_PROGRESS_ID ->
  (forall w, znth (d_map d) x = Some w -> w = x -> moved /\
    exists t, znth (d_types d) x = Some t /\ d_kind t = BTF_KIND_FWD) ->
  (exact -> 0 <= v < n -> same_type (d_types d) x (d_types d) v) ->
  sinv moved (set_map d m).
Proof.
  intros H Hx Hr Hm Hv Hfwd Hs. destruct H as [H1 H2 H3 H4 H5 H6 H7].
  split; cbn [d_types d_map dedup_table set_map]; try done.
  - eapply map_ok_update; [done..|]. tauto.
  - intros b l c Hb Hc. destruct (H5 b l c Hb Hc) as [Hr' [Hcc|?]]; [|by auto]. split; [done|].
    rewrite (znth_zset _ _ _ _ _ Hm). case_decide as Exc; [|by auto]. subst c. right. by eapply Hfwd.
  - intros y w He. rewrite (znth_zset _ _ _ _ _ Hm). case_decide as Exy; [|by apply H6].
    subst y. intros [= ->] Hw. by apply Hs.
Qed.

(** *** Mapping a type to an equal candidate *)

Lemma find_cand_spec moved (P : option Z -> Prop) E t equal l d :
  sinv moved d -> (forall c, desc_ok c -> equal c = Some (bool_decide (t = c))) ->
  (forall c, c ∈ l -> 0 < c < n) ->
  ((forall c, c ∈ l -> znth (d_types d) c <> Some t) -> P None) ->
  (forall c, c ∈ l -> znth (d_types d) c = Some t -> P (Some c)) ->
  run E (fun o d' => d' = d /\ P o) (find_cand equal l) d.
Proof.
  intros H Heq Hl HN HS. induction l as [|c l IH].
  { apply run_ret. split; [done|]. apply HN. intros c Hc. by apply elem_of_nil in Hc. }
  cbn [find_cand].
  pose proof (Hl c ltac:(by left)) as Hc. destruct (si_ids _ _ c H ltac:(lia)) as (tc & _ & Htc & _).
  eapply run_get_type; [done|].
  eapply run_lift_bind; [apply Heq, (go_rec _ (si_graph _ _ H) c); [lia|done]|].
  case_bool_decide as Et.
  - subst tc. apply run_ret. split; [done|]. apply HS; [by left|done].
  - apply IH.
    + intros. apply Hl. by right.
    + intros Hno. apply HN. intros c' [-> |Hc']%elem_of_cons; [congruence|by apply Hno].
    + intros c' Hc'. apply HS. by right.
Qed.

Definition same_hypot (d d' : dedup) : Prop :=
  hypot_map d' = hypot_map d /\ hypot_list d' = hypot_list d.

(** What mapping type [x] changes. *)
Definition maps (d : dedup) (x r : Z) (d' : dedup) : Prop :=
  zset (d_map d) x r = Some (d_map d') /\ 0 <= r < n /\ d_types d' = d_types d /\ same_hypot d d'.

(** A type mapped to itself joins the candidates for its hash. *)
Definition filed (d : dedup) (x r h : Z) (d' : dedup) : Prop :=
  dedup_table d' =
    if decide (x = r)
    then <[bucket opts h := x :: default [] (dedup_table d !! bucket opts h)]> (dedup_table d)
    else dedup_table d.

(** [r] is an equal candidate, or [x] itself when there is none. *)
Definition chosen (d : dedup) (x : Z) (t : desc) (h r : Z) : Prop :=
  (r = x /\ forall c, c ∈ default [] (dedup_table d !! bucket opts h) -> znth (d_types d) c <> Some t) \/
  (r <> x /\ znth (d_types d) r = Some t /\ znth (d_map d) r = Some r).

Lemma cands_range moved d h c :
  sinv moved d -> c ∈ default [] (dedup_table d !! bucket opts h) -> 0 < c < n.
Proof.
  intros H Hc. destruct (dedup_table d !! bucket opts h) eqn:E; [|by apply elem_of_nil in Hc].
  by apply (si_table _ _ H _ _ _ E Hc).
Qed.

Lemma map_type_spec moved x r h d t :
  sinv moved d -> 0 < x < n -> znth (d_types d) x = Some t -> (moved -> d_kind t <> BTF_KIND_FWD) ->
  znth (d_map d) x <> Some x ->
  r = x \/ (r <> x /\ znth (d_map d) r = Some r) ->
  (exact -> 0 <= r < n -> same_type (d_types d) x (d_types d) r) -> 0 <= r < n ->
  run fails (fun _ d' => sinv moved d' /\ maps d x r d' /\ filed d x r h d') (map_type alloc opts x r h) d.
Proof.
  intros H Hx Ht Hfwd Hum Hr Hs Hrr. unfold map_type. apply run_bind.
  destruct (proj2 (zset_is_Some (d_map d) x r)) as [m Hm]; [rewrite (mo_len _ _ (si_map _ _ H)); lia|].
  assert (sinv moved (set_map d m)) as H'.
  { apply (sinv_put_map moved d x r); [done|lia| |done|by left| |done].
    - destruct Hr as [-> |[? Hr]]; [by left|]. right; right. split; [done|]. exists r. auto.
    - by intros w Hw ->. }
  unfold runs at 1, put_map. rewrite Hm. cbn [mbind option_bind].
  assert (maps d x r (set_map d m)) as Hmaps by (split; [exact Hm|split_and!; [lia..|done|by split]]).
  destruct (Z.eqb_spec x r) as [<-|Hxr]; [|apply run_ret; split; [done|split; [done|]];
    unfold filed; by rewrite decide_False].
  unfold btf_dedup_table_add. apply run_bind. eapply run_malloc; [done|]. cbn.
  split; [|split; [split; [exact Hm|split_and!; [lia..|done|by split]]|unfold filed; by rewrite decide_True]].
  destruct H' as [H1 H2 H3 H4 H5 H6 H7]. cbn in *. split; cbn; try done.
  intros b l c. destruct (decide (bucket opts h = b)) as [<-|Hb].
  - rewrite lookup_insert_eq. intros [= <-] [-> |Hc]%elem_of_cons.
    + split; [lia|]. left. by rewrite (znth_zset _ _ _ _ _ Hm), decide_True.
    + destruct (dedup_table d !! bucket opts h) eqn:E; [|by apply elem_of_nil in Hc]. by eapply H5.
  - rewrite lookup_insert_ne by done. apply H5.
Qed.

Lemma map_equal_spec moved t hash equal x d :
  sinv moved d -> 0 < x < n -> znth (d_types d) x = Some t -> is_Some hash ->
  (forall c, desc_ok c -> equal c = Some (bool_decide (t = c))) ->
  (moved -> d_kind t <> BTF_KIND_FWD) -> ~ mapped d x ->
  run fails (fun r d' => sinv moved d' /\ maps d x r d' /\
    exists h, hash = Some h /\ filed d x r h d' /\ chosen d x t h r) (map_equal alloc opts x hash equal) d.
Proof.
  intros H Hx Ht [h ->] Heq Hfwd Hum. unfold map_equal. eapply run_lift_bind; [done|].
  apply run_bind. unfold runs at 1, for_each_dedup_cand. apply run_bind.
  eapply run_mono; [eapply (find_cand_spec moved (fun o => exists r, default x o = r /\ 0 <= r < n /\
    (r = x \/ r <> x /\ znth (d_map d) r = Some r) /\ znth (d_types d) r = Some t /\ chosen d x t h r));
    [done|done|intros c; exact (cands_range moved d h c H)| |]|].
  - intros Hno. exists x. do 2 (split; [done || lia|]). split; [by left|]. split; [done|]. by left.
  - intros c Hc Htc. exists c. cbn. pose proof (cands_range _ _ _ _ H Hc).
    assert (znth (d_map d) c = Some c) as Hmc.
    { destruct (dedup_table d !! bucket opts h) as [l|] eqn:E; [|by apply elem_of_nil in Hc].
      destruct (si_table _ _ H _ _ _ E Hc) as [_ [Hm|(Hm & tc & Htc' & Hk)]]; [done|].
      exfalso. apply (Hfwd Hm). by assert (tc = t) as -> by congruence. }
    assert (c <> x) as Hcx by (intros ->; apply Hum; exists x; split; [done|lia]).
    do 2 (split; [done || lia|]). split; [by right|]. split; [done|]. by right.
  - intros o d' [-> (r & Hor & Hrr & Hr & Htr & Hch)]. cbn zeta. rewrite Hor. apply run_bind.
    eapply run_mono; [eapply (map_type_spec moved x r h d t); try done|].
    + intros Hxx. apply Hum. exists x. split; [done|lia].
    + intros He _. by apply (same_eq _ _ _ t); [apply (si_graph _ _ H)|..].
    + intros [] d' (H' & Hm & Hf). apply run_ret. split; [done|]. split; [done|]. by exists h.
Qed.

Lemma maps_lookup d x r d' y :
  maps d x r d' -> znth (d_map d') y = if decide (x = y) then Some r else znth (d_map d) y.
Proof. intros (Hm & _). by apply znth_zset. Qed.

Lemma maps_mapped d x r d' y : maps d x r d' -> mapped d y \/ y = x -> mapped d' y.
Proof.
  intros Hm Hy. unfold mapped. rewrite (maps_lookup _ _ _ _ _ Hm). case_decide as E.
  - exists r. split; [done|apply Hm].
  - destruct Hy as [Hy| ->]; done.
Qed.

Lemma maps_settled d x r d' : maps d x r d' -> settled d -> settled d'.
Proof.
  intros Hm Hs y v. rewrite (maps_lookup _ _ _ _ _ Hm). case_decide as E; [|apply Hs].
  intros [= <-]. left. apply Hm.
Qed.

Lemma unprocessed_not_mapped moved d x :
  sinv moved d -> znth (d_map d) x = Some BTF_UNPROCESSED_ID -> ~ mapped d x.
Proof.
  intros H Hu (v & Hv & Hr). assert (v = BTF_UNPROCESSED_ID) as -> by congruence.
  pose proof (mo_small _ _ (si_map _ _ H)). unfold BTF_UNPROCESSED_ID, BTF_MAX_NR_TYPES in *. lia.
Qed.

(** *** The primitive types *)

Definition fresh_hypot (d : dedup) : Prop :=
  hypot_list d = [] /\ hypot_map d = repeat BTF_UNPROCESSED_ID (Z.to_nat n).

Definition prim_hash (t : desc) : option Z :=
  if d_kind t =? BTF_KIND_INT then btf_hash_int t
  else if d_kind t =? BTF_KIND_ENUM then btf_hash_enum t
  else Some (btf_hash_common t).

Definition in_bucket (d : dedup) (h c : Z) : Prop := c ∈ default [] (dedup_table d !! bucket opts h).

(** The types from [todo] on are left.  The others are mapped to a candidate
    with the same record, the only one of its kind. *)
Record prim_inv (todo : list Z) (d : dedup) : Prop := {
  pi_sinv : sinv False d;
  pi_types : d_types d = G0;
  pi_hypot : fresh_hypot d;
  pi_settled : settled d;
  pi_NoDup : NoDup todo;
  pi_todo x : x ∈ todo -> 0 < x < n /\ znth (d_map d) x = Some BTF_UNPROCESSED_ID;
  pi_done x t : x ∉ todo -> znth G0 x = Some t -> is_prim (d_kind t) = true -> mapped d x;
  pi_canon x t : x ∉ todo -> znth G0 x = Some t -> is_prim (d_kind t) = true -> exists r h,
    znth (d_map d) x = Some r /\ znth (d_map d) r = Some r /\ znth G0 r = Some t /\
    prim_hash t = Some h /\ in_bucket d h r;
  pi_unique r r' t : znth (d_map d) r = Some r -> znth (d_map d) r' = Some r' ->
    znth G0 r = Some t -> znth G0 r' = Some t -> is_prim (d_kind t) = true -> r = r'
}.

Lemma filed_grows d x r h d' h' c : filed d x r h d' -> in_bucket d h' c -> in_bucket d' h' c.
Proof.
  unfold filed, in_bucket. intros ->. case_decide; [|done].
  destruct (decide (bucket opts h = bucket opts h')) as [<-|].
  - rewrite lookup_insert_eq. by right.
  - by rewrite lookup_insert_ne.
Qed.

Lemma filed_self d x h d' : filed d x x h d' -> in_bucket d' h x.
Proof. unfold filed, in_bucket. rewrite decide_True by done. intros ->. rewrite lookup_insert_eq. by left. Qed.

Lemma prim_inv_maps x todo r h t d d' :
  prim_inv (x :: todo) d -> sinv False d' -> maps d x r d' ->
  znth G0 x = Some t -> is_prim (d_kind t) = true -> prim_hash t = Some h ->
  filed d x r h d' -> chosen d x t h r -> prim_inv todo d'.
Proof.
  intros [H1 H2 H3 H4 H5 H6 H7 H8 H9] H Hm Ht Hk Hh Hf Hch. inversion_clear H5 as [|? ? Hx Hnd].
  destruct (H6 x ltac:(by left)) as [Hxr Hxu].
  assert (forall y, znth (d_map d) y = Some y -> y ∉ x :: todo) as Hself.
  { intros y Hy [_ Hyu]%H6. assert (y = BTF_UNPROCESSED_ID) as -> by congruence.
    apply znth_Some_range in Hy. pose proof (mo_small _ _ (si_map _ _ H1)).
    rewrite (mo_len _ _ (si_map _ _ H1)) in Hy. unfold BTF_UNPROCESSED_ID, BTF_MAX_NR_TYPES in *. lia. }
  assert (forall y, y ∉ todo -> y <> x -> y ∉ x :: todo) as Htodo by (by intros y ? ? [?|?]%elem_of_cons).
  split; try done.
  - destruct Hm as (_ & _ & -> & _). done.
  - destruct Hm as (_ & _ & _ & E1 & E2). unfold fresh_hypot. by rewrite E1, E2.
  - by eapply maps_settled.
  - intros y Hy. destruct (H6 y ltac:(by right)) as [Hr Hu]. split; [done|].
    rewrite (maps_lookup _ _ _ _ _ Hm), decide_False; [done|]. by intros ->.
  - intros y ty Hy Hty Hky. eapply maps_mapped; [done|]. destruct (decide (y = x)) as [|Hne]; [by right|left].
    eapply H7; [|done..]. by intros [? | ?]%elem_of_cons.
  - intros y ty Hy Hty Hky. destruct (decide (y = x)) as [-> |Hne].
    + assert (ty = t) as -> by congruence. exists r, h. rewrite !(maps_lookup _ _ _ _ _ Hm), decide_True by done.
      split; [done|]. destruct Hch as [[-> _]|(Hrx & Hrt & Hrr)].
      * rewrite decide_True by done. do 3 (split; [done|]). by eapply filed_self.
      * rewrite decide_False by done. rewrite H2 in Hrt. do 3 (split; [done|]).
        destruct (H8 r t (Hself _ Hrr) Hrt Hk) as (r2 & h2 & E1 & _ & _ & E2 & E3).
        assert (r2 = r) as -> by congruence. assert (h2 = h) as -> by congruence. by eapply filed_grows.
    + destruct (H8 y ty (Htodo _ Hy Hne) Hty Hky) as (q & hq & E1 & E2 & E3 & E4 & E5). exists q, hq.
      rewrite !(maps_lookup _ _ _ _ _ Hm), !decide_False; [|by intros <-; apply (Hself x E2); left|by intros <-].
      do 4 (split; [done|]). by eapply filed_grows.
  - assert (forall q tq, q <> x -> znth (d_map d) q = Some q -> znth G0 q = Some tq -> tq = t -> r = x -> False) as Hno.
    { intros q tq Hq Eq Etq -> Hrx. destruct Hch as [[_ Hno]|[? _]]; [|done].
      destruct (H8 q t (Hself _ Eq) Etq Hk) as (q2 & h2 & E1 & _ & _ & E2 & E3).
      assert (q2 = q) as -> by congruence. assert (h2 = h) as -> by congruence.
      apply (Hno q E3). by rewrite H2. }
    intros q q' tq. rewrite !(maps_lookup _ _ _ _ _ Hm). repeat case_decide; subst; try done.
    + intros [= ->] ? ? ? ?. exfalso. eapply Hno; try done; congruence.
    + intros ? [= ->] ? ? ?. exfalso. eapply Hno; try done; congruence.
    + apply H9.
Qed.

Lemma prim_inv_skip x todo t d :
  prim_inv (x :: todo) d -> znth G0 x = Some t -> is_prim (d_kind t) = false -> prim_inv todo d.
Proof.
  intros [H1 H2 H3 H4 H5 H6 H7 H8 H9] Hx Hk. inversion_clear H5 as [|? ? Hnx Hnd]. split; try done.
  - intros y Hy. apply H6. by right.
  - intros y ty Hy Hty Hky. destruct (decide (y = x)) as [-> |Hne]; [congruence|].
    eapply H7; [|done..]. by intros [? | ?]%elem_of_cons.
  - intros y ty Hy Hty Hky. destruct (decide (y = x)) as [-> |Hne]; [congruence|].
    eapply H8; [|done..]. by intros [? | ?]%elem_of_cons.
Qed.

Lemma prim_type_spec x todo d :
  prim_inv (x :: todo) d -> run fails (fun _ => prim_inv todo) (btf_dedup_prim_type alloc opts x) d.
Proof.
  intros H. destruct (pi_todo _ _ H x) as [Hx Hu]; [by left|]. pose proof (pi_sinv _ _ H) as Hs.
  destruct (si_ids _ _ x Hs ltac:(lia)) as (t & v & Ht & _).
  assert (desc_ok t) as Hok by (eapply go_rec; [apply (si_graph _ _ Hs)|..]; [|done]; lia).
  assert (znth G0 x = Some t) as Ht0 by (by rewrite <- (pi_types _ _ H)).
  unfold btf_dedup_prim_type. eapply run_get_type; [done|]. cbn zeta.
  assert (forall hash equal, is_Some hash -> is_prim (d_kind t) = true -> hash = prim_hash t ->
    (forall c, desc_ok c -> equal c = Some (bool_decide (t = c))) ->
    run fails (fun _ => prim_inv todo) (let* _ := map_equal alloc opts x hash equal in ret tt) d) as Hmap.
  { intros hash equal Hh Hk Ehash Heq. apply run_bind. eapply run_mono.
    { eapply (map_equal_spec False t); try done. by apply (unprocessed_not_mapped False). }
    intros r d' (H' & Hm & h & Eh & Hf & Hch). apply run_ret. eapply prim_inv_maps; try done. congruence. }
  destruct (hashes_defined _ Hok) as (Hint & Henum & _).
  pose proof (kinds_of _ Hok) as Hkind.
  destruct (is_ref _ || _ || _ || _) eqn:Eref.
  { apply run_ret. eapply prim_inv_skip; [done..|]. unfold is_prim, is_ref, is_composite in *.
    rewrite !orb_true_iff, !Z.eqb_eq in Eref.
    repeat (destruct Eref as [Eref|Eref] || (rewrite Eref; done)). }
  destruct (Z.eqb_spec (d_kind t) BTF_KIND_INT) as [Ei|Ni].
  { apply Hmap; [auto|by rewrite Ei|unfold prim_hash; by rewrite Ei|]. intros c Hc. by apply equal_int_ok. }
  destruct (Z.eqb_spec (d_kind t) BTF_KIND_ENUM) as [Ee|Ne].
  { apply Hmap; [auto|by rewrite Ee|unfold prim_hash; by rewrite Ee|]. intros c Hc. by apply equal_enum_ok. }
  destruct (Z.eqb_spec (d_kind t) BTF_KIND_FWD) as [Ef|Nf].
  { apply Hmap; [by eexists|by rewrite Ef|unfold prim_hash; by rewrite Ef|]. intros c Hc. f_equal. apply equal_common_ok; [done..|].
    unfold extra_words. by rewrite Ef. }
  exfalso. rewrite !orb_false_iff in Eref. destruct Eref as [[[E1 E2] E3] E4].
  unfold is_prim, is_reference in Hkind. rewrite E1, E2, E3, E4, !orb_true_iff, !Z.eqb_eq in Hkind.
  destruct Hkind as [[[?|?]|?]|[?|[[?|?]|?]]]; done.
Qed.

Lemma prim_types_spec d :
  prim_inv (all_ids d) d -> run fails (fun _ => prim_inv []) (btf_dedup_prim_types alloc opts) d.
Proof.
  intros H. unfold btf_dedup_prim_types, each_type.
  apply (run_each _ _ prim_inv); [|done]. intros x l d' Hl. by apply prim_type_spec.
Qed.

End invariants.
