(* ===== verification/BtfEquiv.v ===== *)
(** * Deduplication of structs and unions

    [btf_dedup_is_equiv] ends, and the pairs it records are the same types
    when it answers yes and forward declarations are left alone; merging the
    pairs into the map keeps the invariants. *)

From S2P Require Export BtfDedupInv.

Section equiv.
Context (alloc : nat -> Z -> bool) (opts : btf_dedup_opts) (G0 : list desc) (rank : Z -> nat).
Local Abbreviation n := (zlen G0).
Local Abbreviation exact := (dont_resolve_fwds opts = true).
Local Abbreviation sinv := (sinv opts G0).
Local Abbreviation fails := (fails alloc opts G0 rank).
Local Abbreviation mapped := (mapped G0).
Local Abbreviation settled := (settled G0).
Local Abbreviation frozen := (frozen G0).

(** The hypothetical map holds a pair for each id of the list. *)
Record hinv (d : dedup) : Prop := {
  hi_len : zlen (hypot_map d) = n;
  hi_NoDup : NoDup (hypot_list d);
  hi_in c : c ∈ hypot_list d -> exists v, znth (hypot_map d) c = Some v /\ 0 <= v < n;
  hi_out c v : znth (hypot_map d) c = Some v -> c ∈ hypot_list d \/ v = BTF_UNPROCESSED_ID
}.

(** [canon] is taken for [cand]. *)
Definition hyp (d : dedup) (cand canon : Z) : Prop :=
  canon ∈ hypot_list d /\ znth (hypot_map d) canon = Some cand.

Lemma hi_range d c : hinv d -> c ∈ hypot_list d -> 0 <= c < n.
Proof.
  intros H Hc. destruct (hi_in _ H _ Hc) as (v & Hv & _). apply znth_Some_range in Hv.
  by rewrite (hi_len _ H) in Hv.
Qed.

Lemma hinv_length d : hinv d -> 0 <= n -> zlen (hypot_list d) <= n.
Proof.
  intros H Hn. pose proof (NoDup_ids_length (hypot_list d) n (hi_NoDup _ H)) as Hl.
  assert (zlen (hypot_list d) <= Z.max 0 n); [|lia]. apply Hl. intros c. by apply hi_range.
Qed.

(** Pairs are only added. *)
Definition grows (d d' : dedup) : Prop :=
  same_core d d' /\ zlen (hypot_list d) <= zlen (hypot_list d') /\
  forall x y, hyp d x y -> hyp d' x y.

Lemma grows_refl d : grows d d.
Proof. split; [split_and!; done|]. split; [lia|auto]. Qed.

Lemma grows_trans d1 d2 d3 : grows d1 d2 -> grows d2 d3 -> grows d1 d3.
Proof.
  intros ((A1 & A2 & A3) & B & C) ((D1 & D2 & D3) & E & F).
  split; [split_and!; congruence|]. split; [lia|auto].
Qed.

(** Types taken for each other, or known to be the same. *)
Definition related (d : dedup) (x y : Z) : Prop :=
  same_type (d_types d) x (d_types d) y \/ hyp d x y.

(** The pairs recorded since [d] agree up to their ids, and their ids are related. *)
Definition justified (d d' : dedup) : Prop := forall x y, hyp d' x y -> hyp d x y \/
  exists t1 t2, znth (d_types d') x = Some t1 /\ znth (d_types d') y = Some t2 /\
    shape t1 = shape t2 /\ Forall2 (related d') (children t1) (children t2).

Lemma related_grows d d' x y : grows d d' -> related d x y -> related d' x y.
Proof. intros ((E & _) & _ & Hg) [H|H]; [left|right]; [by rewrite E|auto]. Qed.

Lemma justified_refl d : justified d d.
Proof. intros x y. by left. Qed.

Lemma justified_trans d1 d2 d3 : grows d2 d3 -> justified d1 d2 -> justified d2 d3 -> justified d1 d3.
Proof.
  intros Hg H12 H23 x y [H|H]%H23; [|by right]. destruct (H12 _ _ H) as [?|(t1 & t2 & E1 & E2 & Hs & Hc)]; [by left|].
  right. pose proof Hg as ((Et & _) & _). exists t1, t2. rewrite Et. split_and!; [done..|].
  eapply Forall2_impl; [|exact Hc]. intros. by eapply related_grows.
Qed.

(** Justified pairs from an empty map are the same types. *)
Lemma justified_same d d' x y :
  hypot_list d = [] -> justified d d' -> hyp d' x y -> same_type (d_types d') x (d_types d') y.
Proof.
  intros Hd Hj. apply (same_upto _ _ (hyp d')). clear x y. intros x y Hxy.
  destruct (Hj _ _ Hxy) as [[H _]|(t1 & t2 & E1 & E2 & Hs & Hc)]; [rewrite Hd in H; by apply elem_of_nil in H|].
  exists t1, t2. split_and!; [done..|]. eapply Forall2_impl; [|exact Hc]. intros a b [?|?]; auto.
Qed.

(** *** Recording a pair *)

Lemma hypot_add_spec (P : unit -> dedup -> Prop) moved x y d :
  sinv moved d -> hinv d -> 0 <= x < n -> 0 <= y < n -> znth (hypot_map d) y = Some BTF_UNPROCESSED_ID ->
  (forall d', hinv d' -> grows d d' -> zlen (hypot_list d') = zlen (hypot_list d) + 1 -> hyp d' x y ->
    (forall a b, hyp d' a b -> hyp d a b \/ a = x /\ b = y) -> P tt d') ->
  run fails P (btf_dedup_hypot_map_add alloc y x) d.
Proof.
  intros Hs H Hx Hy Hu HP.
  assert (y ∉ hypot_list d) as Hny.
  { intros Hin. destruct (hi_in _ H _ Hin) as (v & Hv & Hr). assert (v = BTF_UNPROCESSED_ID) as -> by congruence.
    pose proof (mo_small _ _ (si_map _ _ _ _ Hs)). unfold BTF_UNPROCESSED_ID, BTF_MAX_NR_TYPES in *. lia. }
  destruct (proj2 (zset_is_Some (hypot_map d) y x)) as [h Hh]; [by rewrite (hi_len _ H)|].
  assert (forall d', same_core d d' -> hypot_map d' = h -> hypot_list d' = hypot_list d ++ [y] -> P tt d') as Hgo.
  { intros d' Hc Eh El. pose proof (fun z => znth_zset _ _ _ _ z Hh) as Hz. rewrite <- Eh in Hz.
    apply HP.
    - split.
      + rewrite Eh, (zlen_zset _ _ _ _ Hh). apply H.
      + rewrite El. apply list.NoDup_app. split_and!; [apply H| |apply NoDup_singleton].
        intros c Hc' ->%list_elem_of_singleton. done.
      + intros c. rewrite El, elem_of_app, list_elem_of_singleton, Hz. intros [Hin| ->].
        * rewrite decide_False by (by intros ->). by apply (hi_in _ H).
        * rewrite decide_True by done. eauto.
      + intros c v. rewrite Hz, El, elem_of_app, list_elem_of_singleton. case_decide as E; [by auto|].
        intros Hc'. destruct (hi_out _ H _ _ Hc'); auto.
    - split; [done|]. rewrite El, zlen_app. split; [unfold zlen; cbn; lia|].
      intros a b [Hin Hm]. split; [rewrite El; apply elem_of_app; by left|]. rewrite Hz, decide_False; [done|].
      by intros ->.
    - rewrite El, zlen_app. done.
    - split; [rewrite El; apply elem_of_app; right; by left|]. by rewrite Hz, decide_True.
    - intros a b [Hin Hm]. rewrite El, elem_of_app, list_elem_of_singleton in Hin. rewrite Hz in Hm.
      case_decide as E; [right; split; congruence|]. left. split; [|done]. by destruct Hin as [?| ->]. }
  unfold btf_dedup_hypot_map_add, run. destruct (_ =? hypot_cap d).
  - set (cap := hypot_cap d + _). unfold bind. cbv beta zeta.
    assert (sinv moved (set_cap d cap)) as Hs' by (eapply sinv_core; [|exact Hs]; split_and!; done).
    unfold malloc. destruct (alloc _ _) eqn:Ea.
    + cbn. rewrite Hh. cbn. by apply Hgo.
    + eapply fails_nomem; [exact Hs'|exact Ea].
  - cbv beta zeta. cbn. rewrite Hh. cbn. by apply Hgo.
Qed.

(** *** The traversal *)

Lemma run_resolve_fwd {A} moved E (P : A -> dedup -> Prop) (k : Z -> M A) y d :
  sinv moved d -> 0 <= y < n ->
  (forall y', 0 <= y' < n -> (exact -> y' = y) -> y' = y \/ Root (d_map d) y y' -> run E P (k y') d) ->
  run E P (bind (resolve_fwd_id y) k) d.
Proof.
  intros H Hy Hk. destruct (si_ids _ _ _ _ y H Hy) as (t & _ & Ht & _).
  apply run_bind. unfold resolve_fwd_id. eapply run_get_type; [done|].
  destruct (Z.eqb_spec (d_kind t) BTF_KIND_FWD) as [Ek|]; cbn [negb]; [|by apply run_ret, Hk; auto].
  eapply run_resolve; [done..|]. intros r HR Hr. destruct (si_ids _ _ _ _ r H Hr) as (tr & _ & Htr & _).
  eapply run_get_type; [done|].
  destruct (Z.eqb_spec (d_kind tr) BTF_KIND_FWD) as [Ekr|Ekr]; cbn [negb]; apply run_ret, Hk; auto.
  intros He. destruct Ekr. rewrite <- Ek. symmetry. apply shape_kind.
  eapply same_shape; [|exact Ht|exact Htr]. by eapply si_Root.
Qed.

(** What [equiv x y] gives, from [d]. *)
Definition eq_post (d : dedup) (x y : Z) (b : bool) (d' : dedup) : Prop :=
  hinv d' /\ grows d d' /\ (b = true -> exact -> related d' x y /\ justified d d').

Definition equiv_upto (moved : Prop) (m : Z) (equiv : Z -> Z -> M bool) : Prop := forall x y d,
  sinv moved d -> hinv d -> 0 <= x < n -> 0 <= y < n -> n - zlen (hypot_list d) < m ->
  run fails (eq_post d x y) (equiv x y) d.

Lemma all_equiv_spec moved m equiv t1 t2 slots d :
  equiv_upto moved m equiv -> sinv moved d -> hinv d -> n - zlen (hypot_list d) < m ->
  (forall s, s ∈ slots -> exists a b, child t1 s = Some a /\ child t2 s = Some b /\ 0 <= a < n /\ 0 <= b < n) ->
  run fails (fun b d' => hinv d' /\ grows d d' /\ (b = true -> exact -> justified d d' /\
    forall s x y, s ∈ slots -> child t1 s = Some x -> child t2 s = Some y -> related d' x y))
    (all_equiv equiv t1 t2 slots) d.
Proof.
  intros Heq. revert d. induction slots as [|s slots IH]; intros d Hs Hh Hm Hc.
  { apply run_ret. split_and!; [done|apply grows_refl|]. intros _ _. split; [apply justified_refl|].
    intros s x y Hin. by apply elem_of_nil in Hin. }
  destruct (Hc s) as (x & y & Ex & Ey & Hx & Hy); [by left|].
  cbn [all_equiv]. eapply run_lift_bind; [done|]. eapply run_lift_bind; [done|].
  apply run_bind. eapply run_mono; [by apply Heq|]. intros [] d1 (Hh1 & Hg1 & Hr1); cycle 1.
  { apply run_ret. split_and!; [done..|]. intros; done. }
  eapply run_mono; [apply IH; [by eapply sinv_core; [apply Hg1|]|done| |]|].
  - destruct Hg1 as (_ & Hl & _). lia.
  - intros s' Hs'. apply Hc. by right.
  - intros b d2 (Hh2 & Hg2 & Hr2). split_and!; [done|by eapply grows_trans|]. intros Hb He.
    destruct (Hr1 eq_refl He) as [Hrel Hj1]. destruct (Hr2 Hb He) as [Hj2 Hall].
    split; [by eapply justified_trans|]. intros s' x' y' [-> |Hs']%elem_of_cons Ex' Ey'.
    + assert (x' = x) as -> by congruence. assert (y' = y) as -> by congruence. by eapply related_grows.
    + by eapply Hall.
Qed.

Lemma children_related (R : Z -> Z -> Prop) t1 t2 :
  rec_ok t1 -> rec_ok t2 -> id_slots t1 = id_slots t2 ->
  (forall s x y, s ∈ id_slots t1 -> child t1 s = Some x -> child t2 s = Some y -> R x y) ->
  Forall2 R (children t1) (children t2).
Proof.
  intros H1 H2 Hs HR. pose proof (children_slots _ H1) as C1. pose proof (children_slots _ H2) as C2.
  rewrite <- Hs in C2. revert C1 C2 HR. generalize (children t1) (children t2). clear.
  induction (id_slots t1) as [|s ss IH]; intros l1 l2 C1 C2 HR; inversion_clear C1; inversion_clear C2; constructor.
  - eapply HR; [by left|done..].
  - eapply IH; [done..|]. intros. eapply HR; [by right|done..].
Qed.

Lemma children_in_range moved d x t s c :
  sinv moved d -> znth (d_types d) x = Some t -> s ∈ id_slots t -> child t s = Some c -> 0 <= c < n.
Proof.
  intros H Ht Hs Hc. rewrite <- (si_len _ _ _ _ H). apply (go_closed _ (si_graph _ _ _ _ H) _ _ _ Ht).
  apply elem_of_children. eauto.
Qed.

Lemma ref_shape t1 t2 :
  desc_ok t1 -> desc_ok t2 -> is_ref (d_kind t1) = true -> d_name_off t1 = d_name_off t2 ->
  d_info t1 = d_info t2 -> shape t1 = shape t2.
Proof.
  intros H1 H2 Hr Hn Hi. assert (length (d_extra t1) = 0%nat) as L1.
  { rewrite (length_extra _ H1). unfold extra_words. by rewrite Hr. }
  pose proof (length_extra_info _ _ H1 H2 Hi) as L2. apply shape_eq. split_and!; [done..|].
  intros [|i] Hni.
  - destruct Hni. rewrite (proj1 (proj2 (kind_slots t1)) Hr). by left.
  - by destruct (d_extra t1) eqn:E1, (d_extra t2) eqn:E2; unfold id_words; rewrite ?E1, ?E2.
Qed.

(** The [switch] over the kinds, for two types with one name and one [info]. *)
Lemma equiv_kind_spec moved m equiv x y t1 t2 d :
  equiv_upto moved m equiv -> sinv moved d -> hinv d -> n - zlen (hypot_list d) < m ->
  znth (d_types d) x = Some t1 -> znth (d_types d) y = Some t2 -> x <> 0 ->
  d_name_off t1 = d_name_off t2 -> d_info t1 = d_info t2 ->
  run fails (fun b d' => hinv d' /\ grows d d' /\ (b = true -> exact -> justified d d' /\
    shape t1 = shape t2 /\ Forall2 (related d') (children t1) (children t2)))
    (equiv_kind equiv t1 t2) d.
Proof.
  intros Heq Hs Hh Hm Ht1 Ht2 Hx Hn Hi. pose proof (id_slots_info _ _ Hi) as Hsl.
  pose proof (si_graph _ _ _ _ Hs) as Hg.
  assert (desc_ok t1) as Hok1 by (apply (go_rec _ Hg x); [apply znth_Some_range in Ht1; lia|done]).
  assert (desc_ok t2) as Hok2.
  { destruct (graph_rec_ok _ _ _ Hg Ht2) as [E|]; [|done]. exfalso. destruct Hok1 as [_ Hsz].
    by rewrite Hi, E in Hsz. }
  assert (forall slots, (forall s, s ∈ slots <-> s ∈ id_slots t1) -> shape t1 = shape t2 ->
    run fails (fun b d' => hinv d' /\ grows d d' /\ (b = true -> exact -> justified d d' /\
      shape t1 = shape t2 /\ Forall2 (related d') (children t1) (children t2)))
      (all_equiv equiv t1 t2 slots) d) as Hall.
  { intros slots Hslots Hsh. eapply run_mono; [apply (all_equiv_spec moved m); [done..|]|].
    { intros s Hin%Hslots. destruct (child_is_Some t1 s (or_intror Hok1) Hin) as [a Ha].
      pose proof Hin as Hin2. rewrite Hsl in Hin2.
      destruct (child_is_Some t2 s (or_intror Hok2) Hin2) as [b Hb]. exists a, b.
      pose proof (children_in_range _ _ _ _ _ _ Hs Ht1 Hin Ha).
      pose proof (children_in_range _ _ _ _ _ _ Hs Ht2 Hin2 Hb). auto. }
    intros b d' (Hh' & Hg' & Hb). split_and!; [done..|]. intros Eb He. destruct (Hb Eb He) as [Hj Hr].
    split_and!; [done..|]. apply children_related; [by right..|done|]. intros s a c Hin. apply Hr. by apply Hslots. }
  assert (forall b, id_slots t1 = [] -> (b = true -> t1 = t2) ->
    run fails (fun b d' => hinv d' /\ grows d d' /\ (b = true -> exact -> justified d d' /\
      shape t1 = shape t2 /\ Forall2 (related d') (children t1) (children t2))) (ret b) d) as Hleaf.
  { intros b Hnil Hb. apply run_ret. split_and!; [done|apply grows_refl|]. intros ->%Hb _.
    split_and!; [apply justified_refl|done|]. unfold children. rewrite Hnil. constructor. }
  destruct (kind_slots t1) as (Kleaf & Kref & Karr & Kcomp & Kfn).
  assert (forall f slots, f = Some (bool_decide (shape t1 = shape t2)) ->
    (forall s, s ∈ slots <-> s ∈ id_slots t1) ->
    run fails (fun b d' => hinv d' /\ grows d d' /\ (b = true -> exact -> justified d d' /\
      shape t1 = shape t2 /\ Forall2 (related d') (children t1) (children t2)))
      (let* c := lift f in if negb c then ret false else all_equiv equiv t1 t2 slots) d) as Hcompat.
  { intros f slots -> Hslots. eapply run_lift_bind; [done|]. case_bool_decide; cbn [negb]; [by apply Hall|].
    apply run_ret. split_and!; [done|apply grows_refl|done]. }
  unfold equiv_kind. cbv zeta. destruct (Z.eqb_spec (d_kind t1) BTF_KIND_INT) as [Ei|Ni].
  { rewrite equal_int_ok by done. apply (Hleaf (bool_decide (t1 = t2))); [by auto|].
    by intros ?%bool_decide_eq_true. }
  destruct (Z.eqb_spec (d_kind t1) BTF_KIND_ENUM) as [Ee|Ne].
  { rewrite equal_enum_ok by done. apply (Hleaf (bool_decide (t1 = t2))); [by auto|].
    by intros ?%bool_decide_eq_true. }
  destruct (Z.eqb_spec (d_kind t1) BTF_KIND_FWD) as [Ef|Nf].
  { rewrite equal_common_ok by (done || unfold extra_words; by rewrite Ef). apply Hleaf; [by auto|].
    by intros ?%bool_decide_eq_true. }
  destruct (is_ref (d_kind t1)) eqn:Er.
  { apply Hall; [intros s; by rewrite (Kref eq_refl)|]. by apply ref_shape. }
  destruct (Z.eqb_spec (d_kind t1) BTF_KIND_ARRAY) as [Ea|Na].
  { apply Hcompat; [by apply equal_array_ok|]. intros s. rewrite (Karr Ea), !elem_of_cons. tauto. }
  destruct (is_composite (d_kind t1)) eqn:Ec.
  { apply Hcompat; [by apply shallow_equal_struct_ok|]. intros s. by rewrite (Kcomp eq_refl). }
  destruct (Z.eqb_spec (d_kind t1) BTF_KIND_FUNC_PROTO) as [Ep|Np].
  { apply Hcompat; [by apply equal_fnproto_ok|]. intros s. by rewrite (Kfn Ep). }
  exfalso. pose proof (kinds_of _ Hok1) as Hk. unfold is_prim, is_reference in Hk.
  rewrite Er, Ec, !orb_true_iff, !Z.eqb_eq in Hk. destruct Hk as [[[?|?]|?]|[?|[[?|?]|?]]]; done.
Qed.

(** From any two ids the traversal ends: each level records a new pair. *)
Lemma is_equiv_spec moved fuel : equiv_upto moved (Z.of_nat fuel) (btf_dedup_is_equiv alloc opts fuel).
Proof.
  induction fuel as [|fuel IH]; intros x y d Hs Hh Hx Hy Hm.
  { pose proof (hinv_length _ Hh ltac:(lia)). lia. }
  cbn [btf_dedup_is_equiv].
  eapply run_resolve; [done..|]. intros rx Hrx Hrxr. eapply run_resolve; [done..|]. intros ry Hry Hryr.
  destruct (Z.eqb_spec rx ry) as [<-|Hne].
  { apply run_ret. split_and!; [done|apply grows_refl|]. intros _ He. split; [|apply justified_refl]. left.
    eapply same_trans; [by eapply si_Root|]. apply same_sym. by eapply si_Root. }
  eapply run_resolve_fwd; [done..|]. intros y' Hy' Hyy HyR.
  assert (is_Some (znth (hypot_map d) y')) as [v Hv] by (apply znth_is_Some; by rewrite (hi_len _ Hh)).
  eapply run_get_hypot; [done|]. destruct (Z.leb_spec v BTF_MAX_NR_TYPES) as [Hle|Hgt].
  { apply run_ret. split_and!; [done|apply grows_refl|]. intros ->%Z.eqb_eq He. rewrite (Hyy He) in Hv.
    split; [|apply justified_refl]. right. split; [|done]. destruct (hi_out _ Hh _ _ Hv) as [|Hu]; [by subst|].
    unfold BTF_UNPROCESSED_ID, BTF_MAX_NR_TYPES in *. lia. }
  assert (znth (hypot_map d) y' = Some BTF_UNPROCESSED_ID) as Hu.
  { destruct (hi_out _ Hh _ _ Hv) as [Hin| ->]; [|done]. destruct (hi_in _ Hh _ Hin) as (w & Hw & Hr).
    pose proof (mo_small _ _ (si_map _ _ _ _ Hs)). assert (w = v) as -> by congruence. lia. }
  apply run_bind. eapply hypot_add_spec; [done|done|exact Hx|done|done|].
  intros d1 Hh1 Hg1 Hl1 Hp1 Hnew. pose proof (sinv_core _ _ _ _ _ (proj1 Hg1) Hs) as Hs1.
  destruct (si_ids _ _ _ _ x Hs1 Hx) as (t1 & _ & Ht1 & _). destruct (si_ids _ _ _ _ y' Hs1 Hy') as (t2 & _ & Ht2 & _).
  eapply run_get_type; [done|]. eapply run_get_type; [done|].
  destruct (Z.eqb_spec (d_name_off t1) (d_name_off t2)) as [Hn|]; cbn [negb]; cycle 1.
  { apply run_ret. by split_and!. }
  destruct (fwd_pair _ _ _) eqn:Ef.
  { apply run_ret. split_and!; [done..|]. intros _ He. unfold fwd_pair in Ef. by rewrite He in Ef. }
  destruct (Z.eqb_spec (d_info t1) (d_info t2)) as [Hi|]; cbn [negb]; cycle 1.
  { apply run_ret. by split_and!. }
  assert (x <> 0) as Hx0.
  { intros ->. apply Hne. assert (stop (d_map d) 0) as H0.
    { exists 0. split; [apply (mo_zero _ _ (si_map _ _ _ _ Hs))|by right]. }
    pose proof (si_graph _ _ _ _ Hs1) as Hgr. assert (y' = 0) as ->.
    { destruct (decide (y' = 0)) as [|Hy0]; [done|]. exfalso.
      destruct (go_rec _ Hgr y' t2) as [_ Hsz]; [lia|done|].
      rewrite (go_void _ Hgr) in Ht1. injection Ht1 as <-. by rewrite <- Hi in Hsz. }
    rewrite (Root_of_stop _ _ _ H0 Hrx). destruct HyR as [<-|HyR].
    - symmetry. by apply (Root_of_stop (d_map d)).
    - by eapply Root_det. }
  eapply run_mono; [eapply equiv_kind_spec; [exact IH|done|done|lia|done..]|].
  intros b d2 (Hh2 & Hg2 & Hb). pose proof (grows_trans _ _ _ Hg1 Hg2) as Hg.
  split_and!; [done..|]. intros Eb He. destruct (Hb Eb He) as (Hj & Hsh & Hc).
  pose proof Hg2 as ((Et & _) & _ & Hmono). split.
  - right. rewrite <- (Hyy He). by apply Hmono.
  - intros a c Hac. destruct (Hj _ _ Hac) as [H1|?]; [|by right]. destruct (Hnew _ _ H1) as [?|[-> ->]]; [by left|].
    right. exists t1, t2. by rewrite Et.
Qed.

(** *** Forgetting the pairs *)

Lemma unmap_all_spec l h :
  (forall c, c ∈ l -> 0 <= c < zlen h) -> exists h', unmap_all l h = Some h' /\ zlen h' = zlen h /\
    forall y v, znth h' y = Some v -> v = BTF_UNPROCESSED_ID \/ ((y ∉ l) /\ znth h y = Some v).
Proof.
  revert h. induction l as [|c l IH]; intros h Hl; cbn [unmap_all].
  { exists h. split_and!; [done|done|]. intros y v Hy. right. split; [apply not_elem_of_nil|done]. }
  destruct (proj2 (zset_is_Some h c BTF_UNPROCESSED_ID)) as [h1 Hh1]; [apply Hl; by left|].
  pose proof (zlen_zset _ _ _ _ Hh1) as E. rewrite Hh1. cbn [mbind option_bind].
  destruct (IH h1) as (h' & -> & E' & Hh').
  { intros. rewrite E. apply Hl. by right. }
  exists h'. split_and!; [done|congruence|]. intros y v Hy. destruct (Hh' _ _ Hy) as [?|[Hnl Hy1]]; [by left|].
  rewrite (znth_zset _ _ _ _ _ Hh1) in Hy1. case_decide as Ec; [left; congruence|]. right. split; [|done].
  intros [Hin|Hin]%elem_of_cons; congruence.
Qed.

Lemma clear_spec d :
  hinv d -> run fails (fun _ d' => hinv d' /\ same_core d d' /\ hypot_list d' = []) btf_dedup_clear_hypot_map d.
Proof.
  intros H. destruct (unmap_all_spec (hypot_list d) (hypot_map d)) as (h & Hh & El & Hy).
  { intros c Hc. rewrite (hi_len _ H). exact (hi_range _ _ H Hc). }
  unfold runs, btf_dedup_clear_hypot_map. rewrite Hh. cbn [mbind option_bind]. split_and!; [|done..].
  split; cbn.
  - by rewrite El, (hi_len _ H).
  - constructor.
  - intros c Hc. by apply elem_of_nil in Hc.
  - intros c v Hc. right. destruct (Hy _ _ Hc) as [?|[Hn Hm]]; [done|].
    by destruct (hi_out _ H _ _ Hm).
Qed.

(** *** Merging the pairs into the map *)

(** The map only changes for forward declarations and for ids not yet mapped,
    which do not become their own representatives. *)
Definition merged (d d' : dedup) : Prop :=
  d_types d' = d_types d /\
  (forall x, mapped d x -> mapped d' x) /\ (settled d -> settled d') /\
  (forall x, znth (d_map d') x = Some x -> znth (d_map d) x = Some x) /\
  (forall x v t, znth (d_map d) x = Some v -> 0 <= v < n -> znth (d_types d) x = Some t ->
    d_kind t <> BTF_KIND_FWD -> znth (d_map d') x = Some v).

Lemma merged_refl d : merged d d.
Proof. split_and!; auto. Qed.

Lemma merged_trans d1 d2 d3 : merged d1 d2 -> merged d2 d3 -> merged d1 d3.
Proof.
  intros (A1 & A4 & A5 & A6 & A7) (B1 & B4 & B5 & B6 & B7).
  split_and!; [congruence|auto|auto|auto|].
  intros x v t Hx Hv Ht Hk. eapply B7; [by eapply A7|done|by rewrite A1|done].
Qed.

Lemma put_root_spec d x r t :
  sinv True d -> stop (d_map d) r -> r <> x -> x <> 0 -> 0 <= x < n -> 0 <= r < n ->
  znth (d_types d) x = Some t -> d_kind t = BTF_KIND_FWD \/ ~ mapped d x ->
  (exact -> same_type (d_types d) x (d_types d) r) ->
  run fails (fun _ d' => sinv True d' /\ merged d d' /\ same_hypot d d') (put_map x r) d.
Proof.
  intros H Hr Hne Hx Hxr Hrr Ht Hk Hs.
  destruct (proj2 (zset_is_Some (d_map d) x r)) as [m Hm]; [rewrite (mo_len _ _ (si_map _ _ _ _ H)); lia|].
  pose proof (fun z => znth_zset _ _ _ _ z Hm) as Hz.
  unfold runs, put_map. rewrite Hm. cbn [mbind option_bind]. split.
  - apply (sinv_put_map alloc opts G0 rank True d x r); [done|done| |done|by left| |by auto].
    + right; right. by split.
    + intros w Hw ->. split; [done|]. exists t. split; [done|]. destruct Hk as [?|Hk]; [done|].
      exfalso. apply Hk. exists x. by split.
  - split; [|by split]. split_and!; cbn; try done.
    + intros y (v & Hv & Hvr). exists (if decide (x = y) then r else v). cbn. rewrite Hz. by case_decide.
    + intros Hset y v. cbn. rewrite Hz. case_decide; [intros [= <-]; by left|apply Hset].
    + intros y. rewrite Hz. case_decide as E; [|done]. intros [= ->]. congruence.
    + intros y v ty Hy Hv Hty Hky. rewrite Hz. rewrite decide_False; [done|]. intros ->.
      destruct Hk as [Hk|Hk]; [by assert (ty = t) as -> by congruence|]. apply Hk. by exists v.
Qed.

Lemma merge_one_spec d y :
  sinv True d -> hinv d -> y ∈ hypot_list d ->
  (exact -> forall a b, hyp d a b -> same_type (d_types d) a (d_types d) b) ->
  run fails (fun _ d' => sinv True d' /\ merged d d' /\ same_hypot d d') (merge_one y) d.
Proof.
  intros H Hh Hy Hsame. pose proof (hi_range _ _ Hh Hy) as Hyr. destruct (hi_in _ Hh _ Hy) as (v & Hv & Hvr).
  unfold merge_one. eapply run_get_hypot; [done|].
  eapply run_resolve; [done..|]. intros tr HRt Htr. eapply run_resolve; [done..|]. intros cr HRc Hcr.
  destruct (si_ids _ _ _ _ tr H Htr) as (t & mt & Ht & Hmt). destruct (si_ids _ _ _ _ cr H Hcr) as (c & mc & Hc & Hmc).
  eapply run_get_type; [done|]. eapply run_get_type; [done|]. cbv zeta.
  assert (exact -> same_type (d_types d) tr (d_types d) cr) as Htc.
  { intros He. eapply same_trans; [apply same_sym; by eapply si_Root|].
    eapply same_trans; [|by eapply si_Root]. apply Hsame; [done|]. by split. }
  pose proof (si_graph _ _ _ _ H) as Hgr.
  assert (forall d1, sinv True d1 -> merged d d1 -> same_hypot d d1 -> is_composite (d_kind t) && negb (d_kind c =? BTF_KIND_FWD) = false ->
    run fails (fun _ d' => sinv True d' /\ merged d d' /\ same_hypot d d')
      (let* mc := get_map cr in let* mt := get_map tr in
       if is_composite (d_kind t) && negb (d_kind c =? BTF_KIND_FWD) && is_type_mapped mc && negb (is_type_mapped mt)
       then put_map tr cr else ret tt) d1) as Hskip.
  { intros d1 H1 Hm1 Hsh Hf. destruct (si_ids _ _ _ _ tr H1 Htr) as (? & mt1 & _ & Hmt1).
    destruct (si_ids _ _ _ _ cr H1 Hcr) as (? & mc1 & _ & Hmc1).
    eapply run_get_map; [done|]. eapply run_get_map; [done|]. rewrite Hf. cbn [andb]. by apply run_ret. }
  destruct (Z.eqb_spec (d_kind t) BTF_KIND_FWD) as [Kt|Kt], (Z.eqb_spec (d_kind c) BTF_KIND_FWD) as [Kc|Kc]; cbn [negb andb].
  - apply run_bind, run_ret. apply Hskip; [done|apply merged_refl|by split|]. by rewrite Kt.
  - apply run_bind. eapply run_mono; [eapply put_root_spec; try done|].
    + by eapply Root_stop.
    + intros ->. congruence.
    + eapply graph_kind_nonzero; [done..|]. by rewrite Kt.
    + by left.
    + intros _ d1 (H1 & Hm1 & Hsh1). apply Hskip; [done..|]. by rewrite Kt.
  - apply run_bind. eapply run_mono; [eapply put_root_spec; try done|].
    + by eapply Root_stop.
    + intros ->. congruence.
    + eapply graph_kind_nonzero; [done..|]. by rewrite Kc.
    + by left.
    + intros He. apply same_sym. by apply Htc.
    + intros _ d1 (H1 & Hm1 & Hsh1). apply Hskip; [done..|]. by rewrite andb_false_r.
  - apply run_bind, run_ret. eapply run_get_map; [done|]. eapply run_get_map; [done|].
    rewrite andb_true_r. destruct (_ && _ && _) eqn:Ec; [|apply run_ret; split_and!; [done|apply merged_refl|by split]].
    apply andb_true_iff in Ec as [[Ec Emc]%andb_true_iff Emt%negb_true_iff].
    eapply put_root_spec; try done.
    + by eapply Root_stop.
    + intros ->. congruence.
    + eapply graph_kind_nonzero; [done..|]. intros E. by rewrite E in Ec.
    + right. intros (w & Hw & Hr). assert (w = mt) as -> by congruence.
      by rewrite (proj2 (mapped_spec _ _ _ _ (si_map _ _ _ _ H) Hw) Hr) in Emt.
Qed.

Lemma hinv_same d d' : same_hypot d d' -> hinv d -> hinv d'.
Proof. intros [E1 E2] []. split; rewrite ?E1, ?E2; assumption. Qed.

Lemma merge_spec d :
  sinv True d -> hinv d -> (exact -> forall a b, hyp d a b -> same_type (d_types d) a (d_types d) b) ->
  run fails (fun _ d' => sinv True d' /\ merged d d' /\ same_hypot d d') btf_dedup_merge_hypot_map d.
Proof.
  intros H Hh Hs. unfold btf_dedup_merge_hypot_map. eapply run_mono.
  { apply (run_each _ _ (fun l d' => (sinv True d' /\ merged d d' /\ same_hypot d d') /\
      forall y, y ∈ l -> y ∈ hypot_list d)).
    - intros y l d1 [(H1 & Hm1 & Hsh1) Hl]. eapply run_mono.
      { apply merge_one_spec; [done|by eapply hinv_same| |].
        - destruct Hsh1 as [_ ->]. apply Hl. by left.
        - destruct Hsh1 as [E1 E2]. destruct Hm1 as (Et & _). unfold hyp. by rewrite Et, E1, E2. }
      intros [] d2 (H2 & Hm2 & Hsh2). split; [|intros z Hz; apply Hl; by right].
      split_and!; [done|by eapply merged_trans|]. destruct Hsh1, Hsh2. split; congruence.
    - split; [|done]. split_and!; [done|apply merged_refl|by split]. }
  by intros [] d' [? _].
Qed.

(** *** Looking for an equivalent struct or union *)

Lemma core_merged d d' : same_core d d' -> merged d d'.
Proof.
  intros (E1 & E2 & _). split_and!; [done|unfold BtfDedupInv.mapped; by rewrite E2|
    unfold BtfDedupInv.settled; by rewrite E2|by rewrite E2|by rewrite E2].
Qed.

Lemma struct_cand_spec x t cands d :
  sinv True d -> hinv d -> 0 < x < n -> znth (d_types d) x = Some t -> is_composite (d_kind t) = true ->
  ~ mapped d x ->
  (forall c, c ∈ cands -> 0 < c < n /\ (znth (d_map d) c = Some c \/
    exists tc, znth (d_types d) c = Some tc /\ d_kind tc = BTF_KIND_FWD)) ->
  run fails (fun r d' => sinv True d' /\ hinv d' /\ merged d d' /\ 0 <= r < n /\
    (r = x \/ r <> x /\ znth (d_map d') r = Some r) /\
    (exact -> same_type (d_types d') x (d_types d') r))
    (struct_cand alloc opts x t cands) d.
Proof.
  revert d. induction cands as [|c cands IH]; intros d H Hh Hx Ht Hk Hum Hc.
  { apply run_ret. do 2 (split; [done|]). split; [apply merged_refl|]. split; [lia|]. split; [by left|].
    intros _. apply same_refl; [apply (si_graph _ _ _ _ H)|]. rewrite (si_len _ _ _ _ H). lia. }
  cbn [struct_cand]. pose proof (si_graph _ _ _ _ H) as Hgr.
  destruct (Hc c) as [Hcr Hcm]; [by left|]. destruct (si_ids _ _ _ _ c H ltac:(lia)) as (tc & mc & Htc & Hmc).
  assert (desc_ok t) as Hok by (apply (go_rec _ Hgr x); [lia|done]).
  assert (desc_ok tc) as Hokc by (apply (go_rec _ Hgr c); [lia|done]).
  eapply run_get_type; [done|]. eapply run_lift_bind; [by apply shallow_equal_struct_ok|].
  assert (forall c, c ∈ cands -> 0 < c < n /\ (znth (d_map d) c = Some c \/
    exists tc, znth (d_types d) c = Some tc /\ d_kind tc = BTF_KIND_FWD)) as Hc' by (intros; apply Hc; by right).
  case_bool_decide as Hsh; cbn [negb]; [|by apply IH].
  pose proof (shape_kind _ _ Hsh) as Hkc. destruct Hcm as [Hcm|(tc' & Htc' & Hfwd)]; cycle 1.
  { exfalso. assert (tc' = tc) as -> by congruence. by rewrite Hkc, Hfwd in Hk. }
  apply run_bind. eapply run_mono; [by apply clear_spec|]. intros [] d1 (Hh1 & Hco1 & Hl1).
  pose proof (sinv_core _ _ _ _ _ Hco1 H) as H1. pose proof Hco1 as (Et1 & Em1 & _).
  apply run_bind. eapply run_mono; [apply (is_equiv_spec True); [done|done|lia|lia|]|].
  { rewrite Hl1. pose proof (hi_len _ Hh1) as Hlen. unfold zlen in *. cbn [length]. lia. }
  intros b d2 (Hh2 & Hg2 & Hb). pose proof (proj1 Hg2) as Hco2. pose proof (sinv_core _ _ _ _ _ Hco2 H1) as H2.
  pose proof Hco2 as (Et2 & Em2 & _). assert (d_types d2 = d_types d) as Et by congruence.
  assert (d_map d2 = d_map d) as Em by congruence.
  assert (merged d d2) as Hm2 by (apply core_merged; destruct Hco1 as (_ & _ & ?), Hco2 as (_ & _ & ?); split_and!; congruence).
  destruct b; cbn [negb]; cycle 1.
  { eapply run_mono; [apply IH; try done|].
    - by rewrite Et.
    - unfold BtfDedupInv.mapped. by rewrite Em.
    - by rewrite Et, Em.
    - intros r d3 (? & ? & ? & ?). do 2 (split; [done|]). split; [by eapply merged_trans|done]. }
  assert (exact -> same_type (d_types d2) x (d_types d2) c /\
    forall a b, hyp d2 a b -> same_type (d_types d2) a (d_types d2) b) as Hsame.
  { intros He. destruct (Hb eq_refl He) as [Hr Hj]. split; [|intros a b'; by eapply justified_same].
    destruct Hr as [|Hr]; [done|by eapply justified_same]. }
  apply run_bind. eapply run_mono; [apply merge_spec; [done..|]|].
  { intros He. by apply Hsame. }
  intros [] d3 (H3 & Hm3 & Hsh3). apply run_ret. split; [done|]. split; [by eapply hinv_same|].
  split; [by eapply merged_trans|]. split; [lia|]. split.
  - right. split; [intros ->; apply Hum; exists x; split; [done|lia]|].
    destruct Hm3 as (_ & _ & _ & _ & Hfix). eapply (Hfix c c tc); [by rewrite Em|lia|by rewrite Et|].
    intros E. by rewrite Hkc, E in Hk.
  - intros He. destruct Hm3 as (-> & _). by destruct (Hsame He).
Qed.

(** The structs and unions from [todo] on are left. *)
Record struct_inv (ds : dedup) (todo : list Z) (d : dedup) : Prop := {
  st_sinv : sinv True d;
  st_hinv : hinv d;
  st_types : d_types d = G0;
  st_settled : settled d;
  st_todo x : x ∈ todo -> 0 < x < n;
  st_prim x t : znth G0 x = Some t -> is_prim (d_kind t) = true -> mapped d x;
  st_done x t : x ∉ todo -> znth G0 x = Some t -> is_composite (d_kind t) = true -> mapped d x;
  st_frozen : frozen ds d
}.

Lemma struct_inv_skip ds x todo t d :
  struct_inv ds (x :: todo) d -> znth G0 x = Some t -> (is_composite (d_kind t) = true -> mapped d x) ->
  struct_inv ds todo d.
Proof.
  intros [H1 H2 H3 H4 H5 H6 H7 H8] Ht Hm. split; try done; [intros y Hy; apply H5; by right|].
  intros y ty Hy Hty Hky. destruct (decide (y = x)) as [-> |Hne].
  - apply Hm. by assert (t = ty) as -> by congruence.
  - eapply H7; [|done..]. by intros [?|?]%elem_of_cons.
Qed.

Lemma struct_type_spec ds x todo d :
  struct_inv ds (x :: todo) d -> run fails (fun _ => struct_inv ds todo) (btf_dedup_struct_type alloc opts x) d.
Proof.
  intros H. pose proof (st_todo _ _ _ H x ltac:(by left)) as Hx. pose proof (st_sinv _ _ _ H) as Hs.
  destruct (si_ids _ _ _ _ x Hs ltac:(lia)) as (t & m & Ht & Hm).
  assert (znth G0 x = Some t) as Ht0 by (by rewrite <- (st_types _ _ _ H)).
  unfold btf_dedup_struct_type. eapply run_get_map; [done|]. fold (is_type_mapped m).
  destruct (is_type_mapped m) eqn:Em.
  { apply run_ret. eapply struct_inv_skip; [done..|]. intros _. exists m. split; [done|].
    by apply (mapped_spec _ _ _ _ (si_map _ _ _ _ Hs) Hm). }
  eapply run_get_type; [done|]. destruct (is_composite (d_kind t)) eqn:Ek; cbn [negb]; cycle 1.
  { apply run_ret. eapply struct_inv_skip; [done..|]. by rewrite Ek. }
  assert (desc_ok t) as Hok by (apply (go_rec _ (si_graph _ _ _ _ Hs) x); [lia|done]).
  destruct (proj1 (proj2 (proj2 (hashes_defined _ Hok))) Ek) as [h Hh].
  eapply run_lift_bind; [done|]. apply run_bind. unfold runs at 1, for_each_dedup_cand.
  apply run_bind. eapply run_mono; [apply struct_cand_spec; try done; [apply H| |]|].
  - intros (v & Hv & Hr). assert (v = m) as -> by congruence.
    by rewrite (proj2 (mapped_spec _ _ _ _ (si_map _ _ _ _ Hs) Hv) Hr) in Em.
  - intros c Hc. destruct (dedup_table d !! bucket opts h) as [l|] eqn:E; [|by apply elem_of_nil in Hc].
    destruct (si_table _ _ _ _ Hs _ _ _ E Hc) as [? [?|[_ ?]]]; auto.
  - intros r d1 (Hs1 & Hh1 & Hm1 & Hr & Hrr & Hsame). pose proof Hm1 as (Et1 & Hmap1 & Hset1 & Hself1 & Hfix1).
    eapply run_mono; [eapply (map_type_spec _ _ _ _ True x r h d1 t); try done|].
    + by rewrite Et1.
    + intros _ E. by rewrite E in Ek.
    + intros Hxx%Hself1. assert (m = x) as -> by congruence. unfold is_type_mapped in Em.
      pose proof (mo_small _ _ (si_map _ _ _ _ Hs)). lia.
    + by auto.
    + intros [] d2 (Hs2 & Hm2 & _). pose proof Hm2 as (_ & _ & Et2 & Hsh2).
      destruct H as [H1 H2 H3 H4 H5 H6 H7 H8]. split; try done.
      * by eapply hinv_same.
      * congruence.
      * eapply maps_settled; [done|]. by apply Hset1.
      * intros y Hy. apply H5. by right.
      * intros y ty Hty Hky. eapply maps_mapped; [done|]. left. apply Hmap1. by eapply H6.
      * intros y ty Hy Hty Hky. eapply maps_mapped; [done|].
        destruct (decide (y = x)) as [-> |Hne]; [by right|left]. apply Hmap1. eapply H7; [|done..].
        by intros [?|?]%elem_of_cons.
      * intros y v ty Hy Hv Hty Hky. rewrite (maps_lookup _ _ _ _ _ _ Hm2), decide_False.
        -- eapply (Hfix1 y v ty); [by eapply H8|done|by rewrite H3|done].
        -- intros <-. pose proof (H8 _ _ _ Hy Hv Hty Hky) as Hxv. assert (v = m) as -> by congruence.
           by rewrite (proj2 (mapped_spec _ _ _ _ (si_map _ _ _ _ Hs) Hm) Hv) in Em.
Qed.

Lemma struct_types_spec ds d :
  struct_inv ds (all_ids d) d -> run fails (fun _ => struct_inv ds []) (btf_dedup_struct_types alloc opts) d.
Proof.
  intros H. unfold btf_dedup_struct_types, each_type.
  apply (run_each _ _ (struct_inv ds)); [|done]. intros x l d' Hl. by apply struct_type_spec.
Qed.

(** The pass over the primitive types leaves what this one starts from. *)
Lemma prim_struct d :
  prim_inv opts G0 [] d -> struct_inv d (all_ids d) d.
Proof.
  intros [H1 H2 [Hl Hm] H4 _ _ H7 _ _]. split.
  - destruct H1 as [A1 A2 A3 A4 A5 A6 A7]. split; try done.
    intros b l c Hb Hc. destruct (A5 b l c Hb Hc) as [? [?|[[] _]]]. auto.
  - split.
    + rewrite Hm. unfold zlen. rewrite repeat_length. pose proof (zlen_nonneg G0). unfold zlen in *. lia.
    + rewrite Hl. constructor.
    + rewrite Hl. intros c Hc. by apply elem_of_nil in Hc.
    + intros c v. rewrite Hm. intros Hv%znth_repeat_inv. by right.
  - done.
  - done.
  - intros x. rewrite all_ids_spec, H2. done.
  - intros x t Hx Hk. eapply H7; [apply not_elem_of_nil|done..].
  - intros x t Hx Ht Hk. exfalso. apply Hx. apply all_ids_spec. rewrite H2. pose proof (znth_Some_range _ _ _ Ht).
    assert (x <> 0); [|lia]. eapply graph_kind_nonzero; [apply (si_graph _ _ _ _ H1)|by rewrite H2|].
    intros E. by rewrite E in Hk.
  - by intros x v t Hx.
Qed.
End equiv.
