(* ===== verification/BtfRefs.v ===== *)
(** * Deduplication of reference types

    [btf_dedup_ref_type] ends, fails only on a type that references itself
    without a struct in between, and otherwise maps every type while each type
    stays the same. *)

From S2P Require Export BtfEquiv.

Section refs.
Context (alloc : nat -> Z -> bool) (opts : btf_dedup_opts) (G0 : list desc) (rank : Z -> nat).
Local Abbreviation n := (zlen G0).
Local Abbreviation exact := (dont_resolve_fwds opts = true).
Local Abbreviation sinv := (sinv opts G0).
Local Abbreviation fails := (fails alloc opts G0 rank).
Local Abbreviation mapped := (mapped G0).
Local Abbreviation ranked := (ranked G0 rank).

(** The ids of [stack] are in progress; types not looked at are as they were. *)
Record rinv (stack : list Z) (d : dedup) : Prop := {
  ri_sinv : sinv True d;
  ri_prog x : znth (d_map d) x = Some BTF_IN_PROGRESS_ID <-> x ∈ stack;
  ri_NoDup : NoDup stack;
  ri_fresh x : znth (d_map d) x = Some BTF_UNPROCESSED_ID -> znth (d_types d) x = znth G0 x;
  ri_ref x t : 0 <= x < n -> ~ mapped d x -> znth G0 x = Some t -> is_reference (d_kind t) = true
}.

Definition rframe (d d' : dedup) : Prop :=
  (forall x v, znth (d_map d) x = Some v -> 0 <= v < n -> znth (d_map d') x = Some v) /\
  (forall x, znth (d_map d') x = Some BTF_UNPROCESSED_ID -> znth (d_map d) x = Some BTF_UNPROCESSED_ID) /\
  (forall x, znth (d_map d) x <> Some BTF_UNPROCESSED_ID -> znth (d_types d') x = znth (d_types d) x).

Lemma rframe_mapped d d' x : rframe d d' -> mapped d x -> mapped d' x.
Proof. intros (H & _) (v & Hv & Hr). exists v. auto. Qed.

Lemma rframe_refl d : rframe d d.
Proof. split_and!; auto. Qed.

Lemma rframe_trans d1 d2 d3 : rframe d1 d2 -> rframe d2 d3 -> rframe d1 d3.
Proof.
  intros (A & B & C) (D & E & F). split_and!; auto. intros x Hx. rewrite F; auto.
Qed.

Lemma stack_range stack d x : rinv stack d -> x ∈ stack -> 0 <= x < n.
Proof.
  intros H Hx%(ri_prog _ _ H). apply znth_Some_range in Hx. by rewrite (mo_len _ _ (si_map _ _ _ _ (ri_sinv _ _ H))) in Hx.
Qed.

Lemma in_progress_not_mapped d x :
  sinv True d -> znth (d_map d) x = Some BTF_IN_PROGRESS_ID -> ~ mapped d x.
Proof.
  intros H Hx (v & Hv & Hr). assert (v = BTF_IN_PROGRESS_ID) as -> by congruence.
  pose proof (mo_small _ _ (si_map _ _ _ _ H)). unfold BTF_IN_PROGRESS_ID, BTF_MAX_NR_TYPES in *. lia.
Qed.

(** ** Rewriting one id *)

Lemma sinv_set_child moved d x t s c r ts :
  sinv moved d -> znth (d_types d) x = Some t -> s ∈ id_slots t -> child t s = Some c -> 0 <= r < n ->
  (exact -> same_type (d_types d) c (d_types d) r) ->
  zset (d_types d) x (set_child t s r) = Some ts -> sinv moved (set_types d ts).
Proof.
  intros H Ht Hs Hc Hr Hsame Hts. pose proof (si_graph _ _ _ _ H) as Hg.
  pose proof (graph_rec_ok _ _ _ Hg Ht) as Hok. pose proof (fun z => znth_zset _ _ _ _ z Hts) as Hz.
  assert (x <> 0) as Hx.
  { intros ->. rewrite (go_void _ Hg) in Ht. injection Ht as <-. by apply elem_of_nil in Hs. }
  assert (rec_ok (set_child t s r)) as Hok'.
  { apply rec_ok_set; [done..|]. pose proof (mo_small _ _ (si_map _ _ _ _ H)).
    unfold in_range, BTF_MAX_NR_TYPES in *. lia. }
  assert (forall y, exact -> 0 <= y < n -> same_type (d_types d) y ts y) as Hsy.
  { intros y He Hy. eapply same_set_child; [apply Hg|exact Hok|exact Ht|exact Hs|exact Hc|by apply Hsame|exact Hts|].
    by rewrite (si_len _ _ _ _ H). }
  split; cbn [d_types d_map dedup_table set_types].
  - rewrite (zlen_zset _ _ _ _ Hts). apply H.
  - split.
    + rewrite Hz, decide_False by done. apply Hg.
    + intros y ty Hy. rewrite Hz. case_decide; [|by apply (go_rec _ Hg)]. intros [= <-].
      destruct Hok' as [E|]; [|done]. rewrite <- (id_slots_set t s r), E in Hs. by apply elem_of_nil in Hs.
    + intros y ty cy. rewrite Hz, (zlen_zset _ _ _ _ Hts). case_decide; [|by apply (go_closed _ Hg)].
      intros [= <-] (s' & Hs' & Hcy)%elem_of_children. rewrite id_slots_set in Hs'.
      rewrite child_set in Hcy. rewrite (si_len _ _ _ _ H). case_decide as E.
      * destruct (child t s'); [|done]. injection Hcy as <-. lia.
      * eapply children_in_range; [exact H|exact Ht|exact Hs'|exact Hcy].
    + rewrite (zlen_zset _ _ _ _ Hts). apply Hg.
    + intros y ty. rewrite Hz. case_decide; [|by apply (go_fwd _ Hg)]. intros [= <-]. rewrite kind_set.
      intros Hk. exfalso. destruct (kind_slots t) as (Hn & _). rewrite Hn in Hs by auto. by apply elem_of_nil in Hs.
  - intros y ty. rewrite Hz. case_decide as E; [|by apply (si_shape _ _ _ _ H)]. intros [= <-]. subst y.
    rewrite shape_set by done. by apply (si_shape _ _ _ _ H).
  - apply H.
  - intros b l c' Hb Hc'. destruct (si_table _ _ _ _ H _ _ _ Hb Hc') as [? [?|(? & tc & Htc & Hk)]]; [by auto|].
    split; [done|]. right. split; [done|]. rewrite Hz. case_decide as E; [|by exists tc].
    exists (set_child t s r). split; [done|]. rewrite kind_set. subst. by assert (t = tc) as -> by congruence.
  - intros y v He Hv Hvr. assert (0 <= y < n) as Hy.
    { apply znth_Some_range in Hv. by rewrite (mo_len _ _ (si_map _ _ _ _ H)) in Hv. }
    eapply same_trans; [apply same_sym; by apply Hsy|]. eapply same_trans; [by eapply (si_same _ _ _ _ H)|by apply Hsy].
  - intros y He Hy. eapply same_trans; [by apply (si_keeps _ _ _ _ H)|by apply Hsy].
Qed.

(** What [ref_type] does when [m] levels of recursion are left. *)
Definition ref_upto (m : Z) (ref_type : Z -> M Z) : Prop := forall stack x d,
  rinv stack d -> 0 <= x < n -> n - zlen stack < m ->
  (ranked -> forall t y, znth G0 x = Some t -> is_reference (d_kind t) = true -> y ∈ stack -> (rank x < rank y)%nat) ->
  run fails (fun r d' => rinv stack d' /\ rframe d d' /\ 0 <= r < n /\ mapped d' x /\
    (exact -> same_type (d_types d') x (d_types d') r)) (ref_type x) d.

(** [x], on top of the stack, is having its slots [todo] rewritten. *)
Definition rewriting (x : Z) (stack : list Z) (t : desc) (d : dedup) (todo : list nat) (d' : dedup) : Prop :=
  rinv (x :: stack) d' /\ rframe d d' /\ NoDup todo /\ (forall s, s ∈ todo -> s ∈ id_slots t) /\
  exists t', znth (d_types d') x = Some t' /\ shape t' = shape t /\
    forall s, s ∈ todo -> child t' s = child t s.

Lemma ref_slot_spec m ref_type x stack t d s todo d' :
  ref_upto m ref_type -> n - zlen (x :: stack) < m -> znth G0 x = Some t -> is_reference (d_kind t) = true ->
  znth (d_map d) x = Some BTF_UNPROCESSED_ID ->
  (ranked -> forall y, y ∈ stack -> (rank x < rank y)%nat) ->
  rewriting x stack t d (s :: todo) d' ->
  run fails (fun _ => rewriting x stack t d todo) (ref_slot ref_type x s) d'.
Proof.
  intros Href Hm Ht Hk Hu Hrank (H & Hf & Hnd & Hin & t' & Ht' & Hsh & Hch).
  inversion_clear Hnd as [|? ? Hns Hnd']. pose proof (ri_sinv _ _ H) as Hs.
  pose proof (shape_slots _ _ Hsh) as Hsl.
  assert (s ∈ id_slots t') as Hst by (rewrite Hsl; apply Hin; by left).
  destruct (child_is_Some t' s (graph_rec_ok _ _ _ (si_graph _ _ _ _ Hs) Ht') Hst) as [c Hc].
  assert (0 <= c < n) as Hcr by (eapply children_in_range; [exact Hs|exact Ht'|exact Hst|exact Hc]).
  unfold ref_slot. eapply run_get_type; [done|]. eapply run_lift_bind; [done|].
  apply run_bind. eapply run_mono; [apply (Href (x :: stack)); [done|done|done|]|].
  { intros Hr tc y Htc Hkc. intros Hy.
    assert (rank c < rank x)%nat as Hcx.
    { eapply (Hr x t c tc); try done. apply elem_of_children. exists s. rewrite <- Hsl. split; [done|].
      rewrite <- Hch by by left. done. }
    apply elem_of_cons in Hy as [-> |Hy]; [done|]. specialize (Hrank Hr y Hy). lia. }
  intros r d1 (H1 & Hf1 & Hrr & _ & Hsame).
  assert (znth (d_map d') x = Some BTF_IN_PROGRESS_ID) as Hx by (apply (ri_prog _ _ H); by left).
  assert (znth (d_types d1) x = Some t') as Ht1.
  { destruct Hf1 as (_ & _ & Hf1). rewrite Hf1; [done|]. rewrite Hx. by intros [= ?]. }
  eapply run_get_type; [done|].
  destruct (proj2 (zset_is_Some (d_types d1) x (set_child t' s r))) as [ts Hts]; [by eapply znth_Some_range|].
  pose proof (fun z => znth_zset _ _ _ _ z Hts) as Hz.
  unfold runs, put_type. rewrite Hts. cbn [mbind option_bind].
  assert (znth (d_map d1) x = Some BTF_IN_PROGRESS_ID) as Hx1 by (apply (ri_prog _ _ H1); by left).
  split; [|split; [|split; [done|split; [intros; apply Hin; by right|]]]].
  - pose proof H1 as [A1 A2 A3 A4 A5]. split; [by eapply sinv_set_child|done|done| |done].
    intros y Hy. cbn. rewrite Hz, decide_False; [by apply A4|]. intros <-. cbn in Hy. rewrite Hx1 in Hy. done.
  - destruct (rframe_trans _ _ _ Hf Hf1) as (F1 & F2 & F3). split_and!; [done..|].
    intros y Hy. cbn [d_types set_types]. rewrite Hz, decide_False; [by apply F3|]. by intros <-.
  - exists (set_child t' s r). cbn [d_types set_types]. rewrite Hz, decide_True by done. split; [done|].
    rewrite shape_set by done. split; [done|]. intros s' Hs'. rewrite child_set, decide_False; [|by intros ->].
    apply Hch. by right.
Qed.

Lemma ref_slots_spec m ref_type x stack t d slots d' :
  ref_upto m ref_type -> n - zlen (x :: stack) < m -> znth G0 x = Some t -> is_reference (d_kind t) = true ->
  znth (d_map d) x = Some BTF_UNPROCESSED_ID ->
  (ranked -> forall y, y ∈ stack -> (rank x < rank y)%nat) ->
  rewriting x stack t d slots d' ->
  run fails (fun _ => rewriting x stack t d []) (each (ref_slot ref_type x) slots) d'.
Proof.
  intros. apply (run_each _ _ (rewriting x stack t d)); [|done].
  intros s l d1 Hd1. by apply (ref_slot_spec m).
Qed.

(** The rewritten type is mapped to an equal one or to itself. *)
Lemma ref_map_spec x stack t d hash equal d' t' :
  rewriting x stack t d [] d' -> znth G0 x = Some t -> is_reference (d_kind t) = true ->
  znth (d_map d) x = Some BTF_UNPROCESSED_ID -> rinv stack d -> 0 < x < n ->
  znth (d_types d') x = Some t' -> is_Some hash ->
  (forall c, desc_ok c -> equal c = Some (bool_decide (t' = c))) ->
  run fails (fun r d' => rinv stack d' /\ rframe d d' /\ 0 <= r < n /\ mapped d' x /\
    (exact -> same_type (d_types d') x (d_types d') r)) (map_equal alloc opts x hash equal) d'.
Proof.
  intros (H & Hf & _ & _ & t2 & Ht2 & Hsh & _) Ht Hk Hu H0 Hx Ht' Hh Heq.
  assert (t2 = t') as -> by congruence. pose proof (ri_sinv _ _ H) as Hs.
  assert (znth (d_map d') x = Some BTF_IN_PROGRESS_ID) as Hp by (apply (ri_prog _ _ H); by left).
  eapply run_mono; [apply (map_equal_spec _ _ _ _ True t'); try done|].
  - intros _ E. rewrite (shape_kind _ _ Hsh) in E. by rewrite E in Hk.
  - by apply in_progress_not_mapped.
  - intros r d2 (H2 & Hm & _). pose proof Hm as (_ & Hr & Et & _).
    assert (forall y, znth (d_map d2) y = if decide (x = y) then Some r else znth (d_map d') y) as Hz.
    { intros y. by apply (maps_lookup _ _ _ _ _ _ Hm). }
    assert (r <> BTF_IN_PROGRESS_ID /\ r <> BTF_UNPROCESSED_ID) as [Hr1 Hr2].
    { pose proof (mo_small _ _ (si_map _ _ _ _ Hs)).
      unfold BTF_IN_PROGRESS_ID, BTF_UNPROCESSED_ID, BTF_MAX_NR_TYPES in *. lia. }
    pose proof (ri_NoDup _ _ H) as Hnd. inversion_clear Hnd as [|? ? Hns Hnd'].
    destruct H as [A1 A2 A3 A4 A5]. split; [split; try done|split; [|split; [done|split]]].
    + intros y. rewrite Hz. case_decide as E.
      * subst y. split; [congruence|]. by intros Hin.
      * rewrite A2, elem_of_cons. split; [by intros [?|?]; [congruence|]|by right].
    + intros y. rewrite Hz, Et. case_decide as E; [congruence|]. apply A4.
    + intros y ty Hy Hum. apply A5; [done|]. intros Hmy. apply Hum. eapply maps_mapped; [exact Hm|by left].
    + destruct Hf as (F1 & F2 & F3). split_and!.
      * intros y v Hy Hv. rewrite Hz, decide_False; [auto|]. intros <-.
        assert (v = BTF_UNPROCESSED_ID) as -> by congruence. pose proof (mo_small _ _ (si_map _ _ _ _ Hs)).
        unfold BTF_UNPROCESSED_ID, BTF_MAX_NR_TYPES in *. lia.
      * intros y. rewrite Hz. case_decide; [congruence|auto].
      * intros y Hy. rewrite Et. auto.
    + eapply maps_mapped; [exact Hm|by right].
    + intros He. eapply (si_same _ _ _ _ H2); [done| |done]. by rewrite Hz, decide_True.
Qed.

Lemma NoDup_slots k : NoDup (param_slots k).
Proof.
  unfold param_slots. apply NoDup_fmap_2; [|apply NoDup_seq]. intros i j. lia.
Qed.

Lemma rinv_start stack x d m :
  rinv stack d -> znth (d_map d) x = Some BTF_UNPROCESSED_ID -> 0 < x < n ->
  zset (d_map d) x BTF_IN_PROGRESS_ID = Some m -> rinv (x :: stack) (set_map d m).
Proof.
  intros H Hu Hx Hm. pose proof (fun z => znth_zset _ _ _ _ z Hm) as Hz. destruct H as [A1 A2 A3 A4 A5].
  split; cbn [d_map d_types set_map].
  - apply (sinv_put_map alloc opts G0 rank True d x BTF_IN_PROGRESS_ID); [done|lia| |done|by right| |].
    + right; left. done.
    + intros w Hw ->. assert (x = BTF_UNPROCESSED_ID) as -> by congruence.
      pose proof (mo_small _ _ (si_map _ _ _ _ A1)). unfold BTF_UNPROCESSED_ID, BTF_MAX_NR_TYPES in *. lia.
    + intros _ Hr. pose proof (mo_small _ _ (si_map _ _ _ _ A1)).
      unfold BTF_IN_PROGRESS_ID, BTF_MAX_NR_TYPES in *. lia.
  - intros y. rewrite Hz, elem_of_cons. case_decide as E; [|rewrite A2].
    + split; [by left|done].
    + split; [by right|by intros [?|?]; [congruence|]].
  - constructor; [|done]. intros Hin%A2. by rewrite Hu in Hin.
  - intros y. rewrite Hz. case_decide; [done|apply A4].
  - intros y ty Hy Hum. apply A5; [done|]. intros (v & Hv & Hr). apply Hum. exists v. split; [|done].
    cbn. rewrite Hz, decide_False; [done|]. intros <-. assert (v = BTF_UNPROCESSED_ID) as -> by congruence.
    pose proof (mo_small _ _ (si_map _ _ _ _ A1)). unfold BTF_UNPROCESSED_ID, BTF_MAX_NR_TYPES in *. lia.
Qed.

Lemma stack_length stack d : rinv stack d -> 0 <= n -> zlen stack <= n.
Proof.
  intros H Hn. pose proof (NoDup_ids_length stack n (ri_NoDup _ _ H)) as Hl.
  assert (zlen stack <= Z.max 0 n); [|lia]. apply Hl. intros x. exact (stack_range _ _ _ H).
Qed.

(** The recursion ends: the types in progress are distinct. *)
Lemma ref_type_spec fuel : ref_upto (Z.of_nat fuel) (btf_dedup_ref_type alloc opts fuel).
Proof.
  induction fuel as [|fuel IH]; intros stack x d H Hx Hm Hrank.
  { pose proof (stack_length _ _ H ltac:(lia)). lia. }
  cbn [btf_dedup_ref_type]. pose proof (ri_sinv _ _ H) as Hs. pose proof (si_graph _ _ _ _ Hs) as Hg.
  destruct (si_ids _ _ _ _ x Hs Hx) as (t & m & Ht & Hmx). eapply run_get_map; [done|].
  pose proof (mo_small _ _ (si_map _ _ _ _ Hs)) as Hsmall.
  destruct (Z.eqb_spec m BTF_IN_PROGRESS_ID) as [-> |Hnp].
  { split; [right; split; [done|]|by intros He z Hz; apply (si_keeps _ _ _ _ Hs)]. intros Hr. apply (ri_prog _ _ H) in Hmx as Hin.
    destruct (si_shape _ _ _ _ Hs _ _ Ht) as (t0 & Ht0 & _).
    assert (rank x < rank x)%nat; [|lia]. apply (Hrank Hr t0); [done| |done].
    apply (ri_ref _ _ H x); [done| |done]. by apply in_progress_not_mapped. }
  destruct (Z.leb_spec m BTF_MAX_NR_TYPES) as [Hle|Hgt].
  { destruct (resolve_root _ _ _ (si_map _ _ _ _ Hs) Hx) as (r & Hr & HR & Hrr).
    unfold runs, resolve_type_id. rewrite Hr. cbn. split; [done|]. split; [apply rframe_refl|]. split; [done|].
    split; [|intros He; by eapply si_Root]. exists m. split; [done|].
    apply (mapped_spec _ _ _ _ (si_map _ _ _ _ Hs) Hmx). unfold is_type_mapped. lia. }
  assert (m = BTF_UNPROCESSED_ID) as ->.
  { destruct (mo_range _ _ (si_map _ _ _ _ Hs) _ _ Hmx) as [?|[?|?]]; [lia|done|done]. }
  eapply run_get_type; [done|].
  assert (znth G0 x = Some t) as Ht0 by (by rewrite <- (ri_fresh _ _ H x Hmx)).
  assert (is_reference (d_kind t) = true) as Hk.
  { apply (ri_ref _ _ H x); [done| |done]. by eapply unprocessed_not_mapped. }
  assert (0 < x) as Hx0.
  { assert (x <> 0); [|lia]. eapply graph_kind_nonzero; [done..|]. intros E. by rewrite E in Hk. }
  assert (desc_ok t) as Hok by by eapply go_rec.
  destruct (proj2 (zset_is_Some (d_map d) x BTF_IN_PROGRESS_ID)) as [mp Hmp]; [by eapply znth_Some_range|].
  apply run_bind. unfold runs at 1, put_map. rewrite Hmp. cbn [mbind option_bind].
  pose proof (rinv_start _ _ _ _ H Hmx ltac:(lia) Hmp) as H1. set (d1 := set_map d mp) in *.
  assert (rframe d d1) as Hf1.
  { pose proof (fun z => znth_zset _ _ _ _ z Hmp) as Hz. split_and!; [..|done].
    - intros y v Hv Hr. cbn. rewrite Hz, decide_False; [done|]. intros <-.
      assert (v = BTF_UNPROCESSED_ID) as -> by congruence.
      unfold BTF_UNPROCESSED_ID, BTF_MAX_NR_TYPES in *. lia.
    - intros y. cbn. rewrite Hz. by case_decide. }
  assert (forall slots k hash equal,
    NoDup slots -> (forall s, s ∈ slots -> s ∈ id_slots t) ->
    (forall t', desc_ok t' -> d_kind t' = d_kind t -> k t' = map_equal alloc opts x (hash t') (equal t') /\
      is_Some (hash t') /\ forall c, desc_ok c -> equal t' c = Some (bool_decide (t' = c))) ->
    run fails (fun r d' => rinv stack d' /\ rframe d d' /\ 0 <= r < n /\ mapped d' x /\
      (exact -> same_type (d_types d') x (d_types d') r))
      (let* _ := each (ref_slot (btf_dedup_ref_type alloc opts fuel) x) slots in
       let* t := get_type x in k t) d1) as Hgo.
  { intros slots k hash equal Hnd Hin Hkk. apply run_bind. eapply run_mono.
    { apply (ref_slots_spec (Z.of_nat fuel) _ x stack t d slots); try done.
      - rewrite zlen_cons. lia.
      - intros Hr y. by apply (Hrank Hr t).
      - split_and!; try done. by exists t. }
    intros [] d2 Hd2. pose proof Hd2 as (H2 & _ & _ & _ & t2 & Ht2 & Hsh & _).
    eapply run_get_type; [done|]. destruct (Hkk t2) as (-> & Hh & Heq).
    - eapply go_rec; [apply (si_graph _ _ _ _ (ri_sinv _ _ H2))|exact Hx0|done].
    - by apply shape_kind.
    - eapply ref_map_spec; try done. lia. }
  cbv zeta. destruct (kind_slots t) as (_ & Kref & Karr & _ & Kfn).
  destruct (is_ref (d_kind t)) eqn:Er.
  { apply (Hgo _ _ (fun t => Some (btf_hash_common t)) (fun t c => Some (btf_equal_common t c))).
    - apply NoDup_singleton.
    - by rewrite (Kref eq_refl).
    - intros t' Hok' Hk'. split; [done|]. split; [by eexists|]. intros c Hc. f_equal.
      apply equal_common_ok; [done..|]. unfold extra_words. by rewrite Hk', Er. }
  destruct (Z.eqb_spec (d_kind t) BTF_KIND_ARRAY) as [Ea|Na].
  { apply (Hgo _ _ btf_hash_array btf_equal_array).
    - repeat constructor; rewrite ?elem_of_cons, ?elem_of_nil; [by intros [?|]|by intros ?].
    - by rewrite (Karr Ea).
    - intros t' Hok' Hk'. split; [done|]. split; [apply (hashes_defined _ Hok'); congruence|].
      intros c Hc. apply equal_array_ok; congruence. }
  destruct (Z.eqb_spec (d_kind t) BTF_KIND_FUNC_PROTO) as [Ep|Np].
  { apply (Hgo _ _ btf_hash_fnproto btf_equal_fnproto).
    - constructor; [|apply NoDup_slots]. unfold param_slots, type_slot.
      intros (i & Hi & _)%list_elem_of_fmap. lia.
    - by rewrite (Kfn Ep).
    - intros t' Hok' Hk'. split; [done|]. split; [apply (hashes_defined _ Hok'); congruence|].
      intros c Hc. apply equal_fnproto_ok; congruence. }
  exfalso. unfold is_reference in Hk. rewrite Er, !orb_true_iff, !Z.eqb_eq in Hk.
  destruct Hk as [[?|?]|?]; done.
Qed.

(** ** The pass over all types *)

Definition all_mapped (d : dedup) : Prop := forall x, 0 <= x < n -> mapped d x.

Lemma ref_types_spec d :
  rinv [] d -> run fails (fun _ d' => sinv True d' /\ all_mapped d' /\ frozen G0 d d') (btf_dedup_ref_types alloc opts) d.
Proof.
  intros H. unfold btf_dedup_ref_types. apply run_bind. eapply run_mono.
  { unfold each_type. apply (run_each _ _ (fun l d' => (rinv [] d' /\ rframe d d' /\ zlen (d_map d) = n) /\
      (forall x, x ∈ l -> 0 < x < n) /\ forall x, 0 <= x < n -> x ∉ l -> mapped d' x)).
    - intros x l d1 ((H1 & Hf1 & Hl) & Hin & Hd1). apply run_bind. eapply run_mono.
      { apply (ref_type_spec _ [] x d1); [done| | |].
        - specialize (Hin x ltac:(by left)). lia.
        - change (zlen []) with 0. unfold zlen in *. lia.
        - intros _ t y _ _ Hy. by apply elem_of_nil in Hy. }
      intros r d2 (H2 & Hf2 & _ & Hm2 & _). apply run_ret.
      split; [split; [done|split; [by eapply rframe_trans|done]]|]. split.
      + intros y Hy. apply Hin. by right.
      + intros y Hy Hny. destruct (decide (y = x)) as [-> |Hne]; [done|].
        eapply rframe_mapped; [exact Hf2|]. apply Hd1; [done|]. by intros [?|?]%elem_of_cons.
    - split; [split; [done|split; [apply rframe_refl|apply (si_map _ _ _ _ (ri_sinv _ _ H))]]|].
      pose proof (si_len _ _ _ _ (ri_sinv _ _ H)) as Hl. split.
      + intros x. by rewrite all_ids_spec, Hl.
      + intros x Hx. rewrite all_ids_spec, Hl. intros Hn. assert (x = 0) as -> by lia.
        exists 0. split; [apply (mo_zero _ _ (si_map _ _ _ _ (ri_sinv _ _ H)))|lia]. }
  intros [] d1 ((H1 & Hf1 & _) & _ & Hm). unfold runs, btf_dedup_table_free. split; [|split].
  - destruct (ri_sinv _ _ H1) as [A1 A2 A3 A4 A5 A6 A7]. split; try done.
  - intros x Hx. apply (Hm x Hx). apply not_elem_of_nil.
  - intros x v t Hx Hv _ _. by apply Hf1.
Qed.

(** The passes over primitive types and structs leave only references unmapped. *)
Lemma struct_ref ds d : struct_inv opts G0 ds [] d -> rinv [] d.
Proof.
  intros [H1 H2 H3 H4 H5 H6 H7 _]. split.
  - done.
  - intros x. split; [|intros Hx; by apply elem_of_nil in Hx]. intros Hx. exfalso.
    destruct (H4 _ _ Hx) as [Hr|Hr]; [|done]. pose proof (mo_small _ _ (si_map _ _ _ _ H1)).
    unfold BTF_IN_PROGRESS_ID, BTF_MAX_NR_TYPES in *. lia.
  - constructor.
  - intros x _. by rewrite H3.
  - intros x t Hx Hum Ht. destruct (decide (x = 0)) as [-> |Hx0].
    { destruct Hum. exists 0. split; [apply (mo_zero _ _ (si_map _ _ _ _ H1))|lia]. }
    assert (desc_ok t) as Hok.
    { apply (go_rec _ (si_graph _ _ _ _ H1) x); [lia|by rewrite H3]. }
    destruct (kinds_of _ Hok) as [Hp|[Hc|Hr]]; [| |done].
    + destruct Hum. by eapply H6.
    + destruct Hum. eapply H7; [apply not_elem_of_nil|done..].
Qed.
End refs.
