(* ===== verification/BtfCompact.v ===== *)
(** * Compaction and renumbering of deduplicated types

    The canonical types move to the front in order, and every reference is
    rewritten to the new id of its canonical type; deduplication as a whole
    then gives each type a final id under which it is the same type. *)

From S2P Require Export BtfRefs.

Section compact.
Context (alloc : nat -> Z -> bool) (opts : btf_dedup_opts) (G0 : list desc) (rank : Z -> nat).
Local Abbreviation n := (zlen G0).
Local Abbreviation exact := (dont_resolve_fwds opts = true).
Local Abbreviation sinv := (sinv opts G0).
Local Abbreviation all_mapped := (all_mapped G0).
Local Abbreviation ranked := (ranked G0 rank).

(** An error once compaction has begun. *)
Definition out_of_memory (e : Z) (d : dedup) : Prop := e = - ENOMEM /\ exists k size, alloc k size = false.

(** The state before compaction. *)
Context (d0 : dedup) (H0 : sinv True d0) (Hall : all_mapped d0).

(** An id that is its own representative. *)
Definition canonical (x : Z) : Prop := 0 < x /\ znth (d_map d0) x = Some x.

(** Types below [i] have been looked at and [next - 1] of them kept. *)
Record cinv (i next : Z) (d : dedup) : Prop := {
  ci_len : zlen (d_types d) = n;
  ci_map : d_map d = d_map d0;
  ci_hlen : zlen (hypot_map d) = n;
  ci_next : 1 <= next <= i;
  ci_i : i <= n;
  ci_types j : j = 0 \/ next <= j -> znth (d_types d) j = znth (d_types d0) j;
  ci_zero : znth (hypot_map d) 0 = Some 0;
  ci_done j : canonical j -> j < i -> exists k, znth (hypot_map d) j = Some k /\ 1 <= k < next /\
    znth (d_types d) k = znth (d_types d0) j;
  ci_other j v : 0 < j -> ~ canonical j \/ i <= j -> znth (hypot_map d) j = Some v -> v = BTF_UNPROCESSED_ID;
  ci_onto k : 1 <= k < next -> exists j, canonical j /\ j < i /\ znth (hypot_map d) j = Some k
}.

Lemma compact_loop_spec k : forall i next p d,
  cinv (Z.of_nat i) next d -> (i + k)%nat = Z.to_nat n ->
  run out_of_memory (fun r d' => cinv n (fst r) d') (compact_loop (List.map Z.of_nat (seq i k)) next p) d.
Proof.
  induction k as [|k IH]; intros i next p d H Hik; cbn [seq List.map compact_loop].
  { apply run_ret. assert (Z.of_nat i = n) as <-; [|done]. pose proof (ci_i _ _ _ H). lia. }
  assert (0 < Z.of_nat i < n) as Hi by (pose proof (ci_next _ _ _ H); lia).
  destruct (si_ids _ _ _ _ (Z.of_nat i) H0 ltac:(lia)) as (t & m & Ht & Hm).
  assert (znth (d_map d) (Z.of_nat i) = Some m) as Hm' by (by rewrite (ci_map _ _ _ H)).
  eapply run_get_map; [done|]. replace (Z.of_nat i + 1) with (Z.of_nat (S i)) in * by lia.
  destruct (Z.eqb_spec m (Z.of_nat i)) as [-> |Hne]; cbn [negb]; cycle 1.
  { apply IH; [|lia]. destruct H as [A1 A2 A3 A4 A5 A6 A7 A8 A9 A10]. split; try done; try lia.
    - intros j Hj Hji. apply A8; [done|]. destruct Hj as [_ Hj]. assert (j <> Z.of_nat i); [|lia].
      intros ->. congruence.
    - intros j v Hj Hc. apply A9; [done|]. destruct Hc; [by left|right; lia].
    - intros q Hq. destruct (A10 q Hq) as (j & ? & ? & ?). exists j. split; [done|split; [lia|done]]. }
  assert (canonical (Z.of_nat i)) as Hcan by (split; [lia|done]).
  assert (znth (d_types d) (Z.of_nat i) = Some t) as Ht'.
  { rewrite (ci_types _ _ _ H); [done|]. right. apply H. }
  eapply run_get_type; [done|].
  assert (desc_ok t) as Hok by (apply (go_rec _ (si_graph _ _ _ _ H0) (Z.of_nat i)); [lia|done]).
  rewrite (proj2 Hok). pose proof (ci_next _ _ _ H) as Hnx.
  destruct (proj2 (zset_is_Some (d_types d) next t)) as [ts Hts]; [rewrite (ci_len _ _ _ H); lia|].
  destruct (proj2 (zset_is_Some (hypot_map d) (Z.of_nat i) next)) as [h Hh]; [rewrite (ci_hlen _ _ _ H); lia|].
  pose proof (fun z => znth_zset _ _ _ _ z Hts) as Zt. pose proof (fun z => znth_zset _ _ _ _ z Hh) as Zh.
  apply run_bind. unfold runs at 1, put_type. rewrite Hts. cbn [mbind option_bind].
  apply run_bind. unfold runs at 1. cbn [hypot_map set_types]. rewrite Hh. cbn [mbind option_bind].
  apply IH; [|lia]. destruct H as [A1 A2 A3 A4 A5 A6 A7 A8 A9 A10]. split; cbn [d_types d_map hypot_map set_types set_hypot].
  - by rewrite (zlen_zset _ _ _ _ Hts).
  - done.
  - by rewrite (zlen_zset _ _ _ _ Hh).
  - lia.
  - lia.
  - intros j Hj. rewrite Zt, decide_False by lia. apply A6. lia.
  - rewrite Zh, decide_False by lia. done.
  - intros j Hj Hji. rewrite Zh. case_decide as E.
    + subst j. exists next. split; [done|]. split; [lia|]. by rewrite Zt, decide_True.
    + destruct (A8 j Hj ltac:(lia)) as (q & Hq & Hqn & Htq). exists q. split; [done|]. split; [lia|].
      by rewrite Zt, decide_False by lia.
  - intros j v Hj Hc. rewrite Zh. case_decide as E; [|apply A9; [done|]; destruct Hc; [by left|right; lia]].
    subst j. destruct Hc; [done|lia].
  - intros q Hq. destruct (decide (q = next)) as [-> |Hne].
    + exists (Z.of_nat i). rewrite Zh, decide_True by done. split; [done|split; [lia|done]].
    + destruct (A10 q ltac:(lia)) as (j & Hj & Hji & Hhj). exists j.
      rewrite Zh, decide_False by lia. split; [done|split; [lia|done]].
Qed.

(** What compaction leaves: each canonical type at its new id. *)
Record compacted (d : dedup) : Prop := {
  cp_next : 1 <= zlen (d_types d) <= n;
  cp_map : d_map d = d_map d0;
  cp_zero : znth (hypot_map d) 0 = Some 0;
  cp_void : znth (d_types d) 0 = Some void_desc;
  cp_done j : canonical j -> exists k, znth (hypot_map d) j = Some k /\ 1 <= k < zlen (d_types d) /\
    znth (d_types d) k = znth (d_types d0) j;
  cp_onto k : 1 <= k < zlen (d_types d) -> exists j, canonical j /\ znth (hypot_map d) j = Some k
}.

Lemma n_pos : 1 <= n.
Proof.
  pose proof (mo_zero _ _ (si_map _ _ _ _ H0)) as H. apply znth_Some_range in H.
  rewrite (mo_len _ _ (si_map _ _ _ _ H0)) in H. lia.
Qed.

Lemma compact_types_spec : run out_of_memory (fun _ => compacted) (btf_dedup_compact_types alloc) d0.
Proof.
  pose proof n_pos as Hn. pose proof (si_len _ _ _ _ H0) as Hlen.
  unfold btf_dedup_compact_types. cbv zeta. set (h := 0 :: repeat BTF_UNPROCESSED_ID (pred (length (d_types d0)))).
  assert (zlen h = n) as Hh.
  { unfold h. rewrite zlen_cons. unfold zlen in *. rewrite repeat_length. lia. }
  assert (forall j v, 0 < j -> znth h j = Some v -> v = BTF_UNPROCESSED_ID) as Hu.
  { intros j v Hj Hv. pose proof (znth_Some_range _ _ _ Hv) as Hr. rewrite Hh in Hr.
    change h with ([0] ++ repeat BTF_UNPROCESSED_ID (pred (length (d_types d0)))) in Hv.
    replace j with (zlen [0] + (j - 1)) in Hv by (unfold zlen; cbn; lia).
    rewrite znth_app_r, znth_repeat in Hv by (unfold zlen in *; lia). congruence. }
  apply run_bind. eapply run_mono.
  { unfold all_ids. change (List.map Z.of_nat (seq 1 (pred (length (d_types d0))))) with
      (List.map Z.of_nat (seq 1 (pred (length (d_types d0))))).
    apply (compact_loop_spec (pred (length (d_types d0))) 1 1 0); [|unfold zlen in *; lia].
    split; cbn [d_types d_map hypot_map set_hypot]; try done; try lia.
    - intros j [Hj _] Hji. lia.
    - intros j v Hj _. by apply Hu. }
  intros [next p] d1 H. cbn [fst] in H. apply run_bind. unfold runs at 1.
  set (d2 := set_type_len _ _). assert (compacted d2) as Hc.
  { pose proof (ci_next _ _ _ H). pose proof (ci_len _ _ _ H) as Hl1. unfold d2.
    assert (zlen (take (Z.to_nat next) (d_types d1)) = next) as Hz.
    { unfold zlen in *. rewrite length_take. lia. }
    destruct H as [A1 A2 A3 A4 A5 A6 A7 A8 A9 A10].
    split; cbn [d_types d_map hypot_map set_types set_type_len]; rewrite ?Hz; try done.
    - rewrite znth_take by lia. rewrite A6 by by left. apply (go_void _ (si_graph _ _ _ _ H0)).
    - intros j Hj. destruct (A8 j Hj) as (k & Hk & Hkn & Htk).
      { destruct Hj as [_ Hj]. apply znth_Some_range in Hj. rewrite (mo_len _ _ (si_map _ _ _ _ H0)) in Hj. lia. }
      exists k. split; [done|]. split; [done|]. by rewrite znth_take by lia.
    - intros k Hk. destruct (A10 k Hk) as (j & ? & _ & ?). by exists j. }
  unfold runs, malloc. destruct (alloc _ _) eqn:Ea.
  - destruct Hc. by split.
  - split; [done|]. eauto.
Qed.

(** ** New ids *)

(** [k] is the new id of [x]: that of its canonical type. *)
Definition new_id (h : list Z) (x k : Z) : Prop := exists r, Root (d_map d0) x r /\ znth h r = Some k.

Lemma canonical_root x r : 0 <= x < n -> Root (d_map d0) x r -> r = 0 \/ canonical r.
Proof.
  intros Hx Hr. destruct (Root_range _ _ _ Hr) as [_ Hrr]. rewrite (mo_len _ _ (si_map _ _ _ _ H0)) in Hrr.
  destruct (Hall r Hrr) as (v & Hv & Hvr). destruct (Root_stop _ _ _ Hr) as (w & Hw & Hs).
  assert (w = v) as -> by congruence. destruct Hs as [Hs| ->].
  - by rewrite (proj2 (mapped_spec _ _ _ _ (si_map _ _ _ _ H0) Hv) Hvr) in Hs.
  - destruct (decide (r = 0)); [by left|right]. split; [lia|done].
Qed.

Lemma new_id_total d x : compacted d -> 0 <= x < n -> exists k,
  new_id (hypot_map d) x k /\ 0 <= k < zlen (d_types d).
Proof.
  intros H Hx. destruct (mo_rooted _ _ (si_map _ _ _ _ H0) x) as [r Hr]; [by rewrite (mo_len _ _ (si_map _ _ _ _ H0))|].
  pose proof (cp_next _ H). destruct (canonical_root _ _ Hx Hr) as [-> |Hc].
  - exists 0. split; [|lia]. exists 0. split; [done|apply H].
  - destruct (cp_done _ H _ Hc) as (k & Hk & Hkr & _). exists k. split; [by exists r|lia].
Qed.

Lemma new_id_det h x k k' : new_id h x k -> new_id h x k' -> k = k'.
Proof. intros (r & Hr & Hk) (r' & Hr' & Hk'). assert (r' = r) as -> by by eapply Root_det. congruence. Qed.

Lemma new_id_void d : compacted d -> new_id (hypot_map d) 0 0.
Proof.
  intros H. exists 0. split; [|apply H]. apply Root_here. exists 0. split; [|by right].
  apply (mo_zero _ _ (si_map _ _ _ _ H0)).
Qed.

(** [t'] is [t] with its ids renumbered, those of the slots [todo] excepted. *)
Definition renumbered (h : list Z) (todo : list nat) (t t' : desc) : Prop :=
  shape t' = shape t /\ rec_ok t' /\ forall s c, child t s = Some c -> s ∈ id_slots t ->
    (s ∈ todo -> child t' s = Some c) /\
    ((s ∉ todo) -> exists c', child t' s = Some c' /\ new_id h c c').

(** The types from [todo] on keep their old ids. *)
Record remap_inv (h : list Z) (m : Z) (todo : list Z) (d : dedup) : Prop := {
  rm_len : zlen (d_types d) = m;
  rm_map : d_map d = d_map d0;
  rm_hypot : hypot_map d = h;
  rm_void : znth (d_types d) 0 = Some void_desc;
  rm_todo k : k ∈ todo -> 0 < k < m;
  rm_NoDup : NoDup todo;
  rm_types j k t : canonical j -> znth h j = Some k -> znth (d_types d0) j = Some t -> exists t',
    znth (d_types d) k = Some t' /\ (k ∈ todo -> t' = t) /\ ((k ∉ todo) -> renumbered h [] t t')
}.

Lemma renumbered_start h t : rec_ok t -> renumbered h (id_slots t) t t.
Proof. intros H. split; [done|]. split; [done|]. intros s c Hc Hs. by split. Qed.

Lemma run_remap_id {A} E (P : A -> dedup -> Prop) (k : Z -> M A) d h m c :
  d_map d = d_map d0 -> hypot_map d = h -> 0 <= c < n ->
  (forall c, 0 <= c < n -> exists c', new_id h c c' /\ 0 <= c' < m) -> m <= n ->
  (forall c', new_id h c c' -> 0 <= c' < m -> run E P (k c') d) ->
  run E P (bind (btf_dedup_remap_type_id c) k) d.
Proof.
  intros Em Eh Hc Htot Hm Hk. apply run_bind. unfold btf_dedup_remap_type_id.
  destruct (resolve_root _ _ _ (si_map _ _ _ _ H0) Hc) as (r & Hr & HR & _).
  apply run_bind. unfold runs at 1, resolve_type_id. rewrite Em, Hr. cbn [lift mbind option_bind].
  destruct (Htot c Hc) as (c' & (r' & HR' & Hc') & Hcr). assert (r' = r) as -> by by eapply Root_det.
  eapply run_get_hypot; [by rewrite Eh|]. pose proof (mo_small _ _ (si_map _ _ _ _ H0)).
  destruct (Z.ltb_spec BTF_MAX_NR_TYPES c'); [lia|]. apply run_ret, Hk; [by exists r|done].
Qed.

(** The slots of type [k], that was [j], one by one. *)
Definition remapping (h : list Z) (m k : Z) (t : desc) (todo : list Z) (slots : list nat) (d : dedup) : Prop :=
  zlen (d_types d) = m /\ d_map d = d_map d0 /\ hypot_map d = h /\ znth (d_types d) 0 = Some void_desc /\
  (exists t', znth (d_types d) k = Some t' /\ renumbered h slots t t') /\
  forall j q tq, canonical j -> znth h j = Some q -> q <> k -> znth (d_types d0) j = Some tq -> exists t',
    znth (d_types d) q = Some t' /\ (q ∈ todo -> t' = tq) /\ ((q ∉ todo) -> renumbered h [] tq t').

Lemma remap_slot_spec E h m k j t todo s slots d :
  (forall c, 0 <= c < n -> exists c', new_id h c c' /\ 0 <= c' < m) -> m <= n -> 0 < k ->
  znth (d_types d0) j = Some t -> s ∈ id_slots t -> (s ∉ slots) ->
  remapping h m k t todo (s :: slots) d ->
  run E (fun _ => remapping h m k t todo slots) (remap_slot k s) d.
Proof.
  intros Htot Hm Hk Ht Hs Hns (A1 & A2 & A3 & A4 & (t' & Ht' & Hsh & Hok & Hren) & A6).
  pose proof (graph_rec_ok _ _ _ (si_graph _ _ _ _ H0) Ht) as Hokt.
  destruct (child_is_Some t s Hokt Hs) as [c Hc].
  assert (0 <= c < n) as Hcr by (eapply children_in_range; [exact H0|exact Ht|exact Hs|exact Hc]).
  assert (child t' s = Some c) as Hc' by (by apply (Hren s c Hc Hs); left).
  unfold remap_slot. eapply run_get_type; [done|]. eapply run_lift_bind; [done|].
  eapply run_remap_id; [done|done|done|done|done|]. intros c' Hnew Hc'r.
  destruct (proj2 (zset_is_Some (d_types d) k (set_child t' s c'))) as [ts Hts]; [by eapply znth_Some_range|].
  pose proof (fun z => znth_zset _ _ _ _ z Hts) as Hz.
  unfold runs, put_type. rewrite Hts. cbn [mbind option_bind].
  assert (s ∈ id_slots t') as Hs' by by rewrite (shape_slots _ _ Hsh).
  unfold remapping. cbn [d_types d_map hypot_map set_types].
  split; [by rewrite (zlen_zset _ _ _ _ Hts)|]. split; [done|]. split; [done|].
  split; [rewrite Hz, decide_False by lia; done|]. split.
  - exists (set_child t' s c'). rewrite Hz, decide_True by done. split; [done|].
    split; [by rewrite shape_set|]. split.
    { apply rec_ok_set; [done..|]. pose proof (mo_small _ _ (si_map _ _ _ _ H0)).
      unfold in_range, BTF_MAX_NR_TYPES in *. lia. }
    intros s2 c2 Hc2 Hs2. rewrite child_set. case_decide as E2.
    + subst s2. split; [done|]. intros _. exists c'. rewrite Hc'. split; [done|].
      by assert (c2 = c) as -> by congruence.
    + destruct (Hren s2 c2 Hc2 Hs2) as [B1 B2]. split.
      * intros Hin. apply B1. by right.
      * intros Hni. apply B2. by intros [?|?]%elem_of_cons.
  - intros j' q tq Hj Hq Hqk Htq. destruct (A6 j' q tq Hj Hq Hqk Htq) as (t2 & Ht2 & ?).
    exists t2. by rewrite Hz, decide_False.
Qed.

Lemma remap_slots_spec E h m k j t todo slots d :
  (forall c, 0 <= c < n -> exists c', new_id h c c' /\ 0 <= c' < m) -> m <= n -> 0 < k ->
  znth (d_types d0) j = Some t -> NoDup slots -> (forall s, s ∈ slots -> s ∈ id_slots t) ->
  remapping h m k t todo slots d ->
  run E (fun _ => remapping h m k t todo []) (each (remap_slot k) slots) d.
Proof.
  intros Htot Hm Hk Ht Hnd Hin Hd. eapply run_mono.
  { apply (run_each _ _ (fun l d => remapping h m k t todo l d /\ NoDup l /\ forall s, s ∈ l -> s ∈ id_slots t)); [|done].
    intros s l d1 (Hd1 & Hnd1 & Hin1). inversion_clear Hnd1 as [|? ? Hns Hnd2]. eapply run_mono.
    { eapply (remap_slot_spec _ h m k j t todo s l); try done. apply Hin1. by left. }
    intros [] d2 Hd2. split; [done|]. split; [done|]. intros s' Hs'. apply Hin1. by right. }
  intros [] d1 Hd1. by destruct Hd1.
Qed.

(** A forward declaration's size is looked up as if it were an id: it is 0. *)
Lemma remap_fwd_spec E h m k t todo d :
  (forall c, 0 <= c < n -> exists c', new_id h c c' /\ 0 <= c' < m) -> m <= n -> new_id h 0 0 ->
  d_size t = 0 -> znth (d_types d) k = Some t -> remapping h m k t todo [] d ->
  run E (fun _ => remapping h m k t todo []) (each (remap_slot k) [type_slot]) d.
Proof.
  intros Htot Hm Hzero Hsz Ht Hd. pose proof Hd as (A1 & A2 & A3 & _). cbn [each].
  apply run_bind. unfold remap_slot. eapply run_get_type; [done|].
  eapply run_lift_bind; [unfold child, id_words; cbn; by rewrite Hsz|].
  eapply run_remap_id; [done|done|pose proof n_pos; lia|done|done|]. intros c' Hnew _.
  assert (c' = 0) as -> by by eapply new_id_det.
  assert (set_child t type_slot 0 = t) as ->.
  { apply desc_ext; [apply set_child_fields..|]. rewrite id_words_set. unfold id_words. cbn. by rewrite Hsz. }
  unfold runs at 1, put_type. destruct (proj2 (zset_is_Some (d_types d) k t)) as [ts Hts]; [by eapply znth_Some_range|].
  rewrite Hts. cbn [mbind option_bind]. apply run_ret. apply zset_Some in Hts as [Hr ->].
  rewrite list_insert_id; [by destruct d|]. unfold znth in Ht. by case_decide.
Qed.

Lemma remap_type_spec E h m k todo d :
  (forall c, 0 <= c < n -> exists c', new_id h c c' /\ 0 <= c' < m) -> m <= n -> new_id h 0 0 ->
  (forall k, 1 <= k < m -> exists j, canonical j /\ znth h j = Some k) ->
  remap_inv h m (k :: todo) d -> run E (fun _ => remap_inv h m todo) (btf_dedup_remap_type k) d.
Proof.
  intros Htot Hm Hzero Honto [A1 A2 A3 A4 A5 A6 A7]. pose proof (A5 k ltac:(by left)) as Hk.
  destruct (Honto k ltac:(lia)) as (j & Hj & Hjk).
  assert (0 <= j < n) as Hjr.
  { destruct Hj as [_ Hj]. apply znth_Some_range in Hj. by rewrite (mo_len _ _ (si_map _ _ _ _ H0)) in Hj. }
  destruct (si_ids _ _ _ _ j H0 Hjr) as (t & _ & Ht & _).
  destruct (A7 j k t Hj Hjk Ht) as (t' & Ht' & Htodo & _). rewrite (Htodo ltac:(by left)) in Ht'. clear t' Htodo.
  assert (desc_ok t) as Hok by (apply (go_rec _ (si_graph _ _ _ _ H0) j); [by destruct Hj|done]).
  inversion_clear A6 as [|? ? Hnk Hnd].
  assert (remapping h m k t todo (id_slots t) d) as Hstart.
  { split_and!; [done..| |].
    - exists t. split; [done|]. apply renumbered_start. by right.
    - intros j' q tq Hj' Hq Hqk Htq. destruct (A7 j' q tq Hj' Hq Htq) as (t2 & Ht2 & B1 & B2). exists t2.
      split; [done|]. split; [intros; apply B1; by right|]. intros Hni. apply B2. by intros [?|?]%elem_of_cons. }
  assert (forall d', remapping h m k t todo [] d' -> remap_inv h m todo d') as Hend.
  { intros d' (B1 & B2 & B3 & B4 & B5 & B6). split; try done; [intros q Hq; apply A5; by right|].
    intros j' q tq Hj' Hq Htq. destruct (decide (q = k)) as [-> |Hqk]; [|by apply (B6 j' q tq)].
    destruct (A7 j' k tq Hj' Hq Htq) as (t2 & Ht2 & C1 & _).
    assert (tq = t) as -> by (specialize (C1 ltac:(by left)); congruence).
    destruct B5 as (t3 & Ht3 & Hren). exists t3. by split. }
  assert (forall slots, slots = id_slots t -> NoDup slots ->
    run E (fun _ => remap_inv h m todo) (each (remap_slot k) slots) d) as Hslots.
  { intros slots -> Hnds. apply (run_mono False E (fun _ => remapping h m k t todo [])); [|intros [] d'; apply Hend].
    eapply (remap_slots_spec _ h m k j t todo); try done. lia. }
  destruct (kind_slots t) as (Kleaf & Kref & Karr & Kcomp & Kfn).
  unfold btf_dedup_remap_type. eapply run_get_type; [done|]. cbv zeta.
  destruct (_ || _) eqn:Elf.
  { rewrite orb_true_iff, !Z.eqb_eq in Elf. apply run_ret, Hend. by rewrite Kleaf in Hstart by tauto. }
  apply orb_false_iff in Elf as [Ni%Z.eqb_neq Ne%Z.eqb_neq].
  destruct (Z.eqb_spec (d_kind t) BTF_KIND_FWD) as [Ef|Nf]; cbn [orb].
  { apply (run_mono False E (fun _ => remapping h m k t todo [])); [|intros [] d'; apply Hend]. rewrite Kleaf in Hstart by auto.
    eapply remap_fwd_spec; try done. by apply (go_fwd _ (si_graph _ _ _ _ H0) j). }
  destruct (is_ref (d_kind t)) eqn:Er.
  { apply Hslots; [by rewrite Kref|apply NoDup_singleton]. }
  destruct (Z.eqb_spec (d_kind t) BTF_KIND_ARRAY) as [Ea|Na].
  { apply Hslots; [by rewrite Karr|].
    repeat constructor; rewrite ?elem_of_cons, ?elem_of_nil; [by intros [?|]|by intros ?]. }
  destruct (is_composite (d_kind t)) eqn:Ec.
  { apply Hslots; [by rewrite Kcomp|]. unfold member_slots.
    apply NoDup_fmap_2; [|apply NoDup_seq]. intros a b. lia. }
  destruct (Z.eqb_spec (d_kind t) BTF_KIND_FUNC_PROTO) as [Ep|Np].
  { apply Hslots; [by rewrite Kfn|]. constructor; [|apply NoDup_slots]. unfold param_slots, type_slot.
    intros (i & Hi & _)%list_elem_of_fmap. lia. }
  exfalso. pose proof (kinds_of _ Hok) as Hkk. unfold is_prim, is_reference in Hkk.
  rewrite Er, Ec, !orb_true_iff, !Z.eqb_eq in Hkk. destruct Hkk as [[[?|?]|?]|[?|[[?|?]|?]]]; done.
Qed.

Lemma remap_types_spec E d :
  compacted d ->
  run E (fun _ => remap_inv (hypot_map d) (zlen (d_types d)) []) btf_dedup_remap_types d.
Proof.
  intros H. unfold btf_dedup_remap_types, each_type.
  apply (run_each _ _ (remap_inv (hypot_map d) (zlen (d_types d)))).
  - intros k todo d1 Hd1. apply remap_type_spec; try done.
    + intros c Hc. by apply new_id_total.
    + apply H.
    + by apply new_id_void.
    + apply H.
  - split; try done; try apply H.
    + intros k. by rewrite all_ids_spec.
    + apply all_ids_NoDup.
    + intros j k t Hj Hk Ht. destruct (cp_done _ H j Hj) as (k' & Hk' & Hkr & Htk).
      assert (k' = k) as -> by congruence. exists t. split; [congruence|]. split; [done|].
      intros Hni. destruct Hni. apply all_ids_spec. lia.
Qed.

(** *** The final types *)

Section final.
Context (h : list Z) (d : dedup) (Hd : remap_inv h (zlen (d_types d)) [] d).
Local Abbreviation m := (zlen (d_types d)).
Context (Htot : forall c, 0 <= c < n -> exists c', new_id h c c' /\ 0 <= c' < m) (Hm : 1 <= m <= n).
Context (Honto : forall k, 1 <= k < m -> exists j, canonical j /\ znth h j = Some k) (Hzero : new_id h 0 0).

Lemma canonical_desc j : canonical j -> exists t, znth (d_types d0) j = Some t /\ desc_ok t /\ 0 <= j < n.
Proof.
  intros [Hj Hc]. pose proof (znth_Some_range _ _ _ Hc) as Hr. rewrite (mo_len _ _ (si_map _ _ _ _ H0)) in Hr.
  destruct (si_ids _ _ _ _ j H0 Hr) as (t & _ & Ht & _). exists t. split; [done|]. split; [|lia].
  by apply (go_rec _ (si_graph _ _ _ _ H0) j).
Qed.

Lemma final_desc k t' : 0 < k -> znth (d_types d) k = Some t' ->
  exists j t, canonical j /\ znth (d_types d0) j = Some t /\ desc_ok t /\ renumbered h [] t t'.
Proof.
  intros Hk Ht'. destruct (Honto k) as (j & Hj & Hjk); [apply znth_Some_range in Ht'; lia|].
  destruct (canonical_desc j Hj) as (t & Ht & Hok & _).
  destruct (rm_types _ _ _ _ Hd j k t Hj Hjk Ht) as (t2 & Ht2 & _ & Hren).
  exists j, t. split; [done|]. split; [done|]. split; [done|].
  assert (t' = t2) as -> by congruence. apply Hren, not_elem_of_nil.
Qed.

Lemma renumbered_children t t' :
  desc_ok t -> renumbered h [] t t' -> Forall2 (new_id h) (children t) (children t').
Proof.
  intros Hok (Hsh & Hok' & Hren). apply children_related; [by right|done|by rewrite (shape_slots _ _ Hsh)|].
  intros s x y Hs Hx Hy. destruct (Hren s x Hx Hs) as [_ Hn].
  destruct (Hn (not_elem_of_nil _)) as (y' & Hy' & Hnew). by assert (y = y') as -> by congruence.
Qed.

Lemma renumbered_desc_ok t t' : desc_ok t -> renumbered h [] t t' -> desc_ok t'.
Proof.
  intros Hok (Hsh & [E|Hok'] & _); [|done]. exfalso. apply shape_eq in Hsh as (_ & Hi & _).
  destruct Hok as [_ Hsz]. by rewrite <- Hi, E in Hsz.
Qed.

Lemma final_graph_ok : graph_ok (d_types d).
Proof.
  split.
  - apply Hd.
  - intros k t' Hk Ht'. destruct (final_desc k t' Hk Ht') as (j & t & _ & _ & Hok & Hren).
    by eapply renumbered_desc_ok.
  - intros k t' c' Ht' Hc'. pose proof (znth_Some_range _ _ _ Ht') as Hkr.
    destruct (decide (k = 0)) as [-> |Hk].
    { rewrite (rm_void _ _ _ _ Hd) in Ht'. injection Ht' as <-. by apply elem_of_nil in Hc'. }
    destruct (final_desc k t') as (j & t & _ & Ht & Hok & Hren); [lia|done|].
    pose proof (renumbered_children _ _ Hok Hren) as Hch. apply list_elem_of_lookup in Hc' as [i Hi].
    destruct (Forall2_lookup_r _ _ _ _ _ Hch Hi) as (c & Hc & Hnew).
    destruct (Htot c) as (c2 & Hnew2 & Hr).
    { rewrite <- (si_len _ _ _ _ H0). apply (go_closed _ (si_graph _ _ _ _ H0) _ _ _ Ht). by eapply list_elem_of_lookup_2. }
    by assert (c' = c2) as -> by by eapply new_id_det.
  - pose proof (mo_small _ _ (si_map _ _ _ _ H0)). lia.
  - intros k t' Ht' Hf. destruct (decide (k = 0)) as [-> |Hk].
    { rewrite (rm_void _ _ _ _ Hd) in Ht'. by injection Ht' as <-. }
    destruct (final_desc k t') as (j & t & _ & Ht & Hok & Hsh & _);
      [apply znth_Some_range in Ht'; lia|done|].
    pose proof (shape_kind _ _ Hsh) as Hkk. assert (d_kind t = BTF_KIND_FWD) as Hft by congruence.
    symmetry in Hsh. apply shape_common in Hsh.
    + apply equal_common_spec in Hsh as (_ & _ & <-). by apply (go_fwd _ (si_graph _ _ _ _ H0) j).
    + destruct (kind_slots t) as (-> & _); [|by auto]. apply not_elem_of_nil.
Qed.

Lemma final_same x k : exact -> 0 <= x < n -> new_id h x k -> same_type (d_types d0) x (d_types d) k.
Proof.
  intros He Hx Hk.
  exists (fun a b => exists y, same_type (d_types d0) a (d_types d0) y /\ new_id h y b). split.
  2:{ exists x. split; [|done]. apply same_refl; [apply (si_graph _ _ _ _ H0)|]. by rewrite (si_len _ _ _ _ H0). }
  clear x k Hx Hk. intros a b (y & Hay & r & Hr & Hb).
  pose proof (same_range _ _ _ _ Hay) as [_ Hy]. rewrite (si_len _ _ _ _ H0) in Hy.
  assert (same_type (d_types d0) a (d_types d0) r) as Har by (eapply same_trans; [done|by eapply si_Root]).
  destruct (same_unfold _ _ _ _ Har) as (ta & tr & Hta & Htr & Hsh & Hch).
  destruct (canonical_root y r Hy Hr) as [-> |Hc].
  - rewrite (go_void _ (si_graph _ _ _ _ H0)) in Htr. injection Htr as <-.
    exists ta, void_desc. split; [done|]. split; [|split; [done|]].
    2:{ cbn in Hch. inversion Hch. constructor. }
    assert (b = 0) as ->; [|apply Hd]. eapply new_id_det; [|exact Hzero]. exists 0. split; [|done].
    apply Root_here. by eapply Root_stop.
  - destruct (canonical_desc r Hc) as (t & Ht & Hok & _). assert (tr = t) as -> by congruence.
    destruct (rm_types _ _ _ _ Hd r b t Hc Hb Ht) as (t' & Ht' & _ & Hren).
    specialize (Hren (not_elem_of_nil _)). exists ta, t'. split; [done|]. split; [done|].
    split; [by rewrite Hsh, (proj1 Hren)|].
    pose proof (renumbered_children _ _ Hok Hren) as Hch2. revert Hch2. generalize (children t'). clear -Hch.
    induction Hch as [|p q ps qs Hpq _ IH]; intros cs Hc2; inversion_clear Hc2; constructor; eauto.
Qed.
End final.
End compact.

(** ** Deduplication as a whole *)

(** The final id of an original type, as [btf_dedup_remap_type_id] finds it. *)
Definition final_id (d : dedup) (x : Z) : option Z :=
  r ← resolve_loop (length (d_map d)) (d_map d) x; znth (hypot_map d) r.

Section whole.
Context (alloc : nat -> Z -> bool) (opts : btf_dedup_opts) (types : list desc) (requests : nat).
Context (H : graph_ok types).
Local Abbreviation n := (zlen types).
Local Abbreviation exact := (dont_resolve_fwds opts = true).

Lemma init_ok : prim_inv opts types (all_ids (dedup_init types requests)) (dedup_init types requests).
Proof.
  pose proof (go_void _ H) as H0. apply znth_Some_range in H0 as Hn. unfold dedup_init.
  set (nr := pred (length types)). set (m := 0 :: repeat BTF_UNPROCESSED_ID nr).
  assert (zlen m = n) as Hm.
  { unfold m. rewrite zlen_cons. unfold zlen, nr in *. rewrite repeat_length. lia. }
  assert (forall j v, znth m j = Some v -> j = 0 /\ v = 0 \/ 0 < j < n /\ v = BTF_UNPROCESSED_ID) as Hu.
  { intros j v Hv. pose proof (znth_Some_range _ _ _ Hv) as Hr. rewrite Hm in Hr.
    destruct (decide (j = 0)) as [-> |]; [left; split; [done|]; by injection Hv|right].
    change m with ([0] ++ repeat BTF_UNPROCESSED_ID nr) in Hv.
    replace j with (zlen [0] + (j - 1)) in Hv by (unfold zlen; cbn; lia).
    rewrite znth_app_r, znth_repeat in Hv by (unfold zlen, nr in *; lia). split; [lia|congruence]. }
  assert (forall j, 0 < j < n -> znth m j = Some BTF_UNPROCESSED_ID) as Hset.
  { intros j Hj. destruct (proj2 (znth_is_Some m j)) as [v Hv]; [lia|]. destruct (Hu _ _ Hv) as [[? _]|[_ ->]]; [lia|done]. }
  assert (forall x t, x ∉ all_ids (Dedup types m (repeat BTF_UNPROCESSED_ID (S nr)) [] 0 ∅ 0 requests) ->
    znth types x = Some t -> is_prim (d_kind t) = true -> False) as Hprim.
  { intros x t Hx Ht Hk. rewrite all_ids_spec in Hx. cbn in Hx. apply Hx.
    pose proof (znth_Some_range _ _ _ Ht). assert (x <> 0); [|lia]. eapply graph_kind_nonzero; [done..|].
    intros E. by rewrite E in Hk. }
  split; cbn [d_types d_map hypot_map hypot_list].
  - split; cbn [d_types d_map dedup_table]; try done.
    + eauto.
    + split; [done|done| |apply H|].
      * intros x v Hv. destruct (Hu _ _ Hv) as [[-> ->]|[_ ->]]; [left; lia|by right; left].
      * intros x Hx. exists x. apply Root_here. destruct (proj2 (znth_is_Some m x)) as [v Hv]; [done|].
        exists v. split; [done|]. destruct (Hu _ _ Hv) as [[-> ->]|[_ ->]]; [by right|by left].
    + intros x v He Hv Hr. destruct (Hu _ _ Hv) as [[-> ->]|[_ ->]].
      * by apply same_refl; [apply H|].
      * pose proof (go_small _ H). unfold BTF_UNPROCESSED_ID, BTF_MAX_NR_TYPES in *. lia.
    + intros x _ Hx. by apply same_refl; [apply H|].
  - done.
  - split; [done|]. cbn. f_equal. unfold zlen, nr in *. destruct (length types); [lia|]. cbn. by rewrite Nat2Z.id.
  - intros x v Hv. destruct (Hu _ _ Hv) as [[-> ->]|[_ ->]]; [left; lia|by right].
  - apply all_ids_NoDup.
  - intros x. rewrite all_ids_spec. cbn. intros Hx. split; [done|]. by apply Hset.
  - intros x t Hx Ht Hk. by destruct (Hprim x t Hx Ht Hk).
  - intros x t Hx Ht Hk. by destruct (Hprim x t Hx Ht Hk).
  - intros r r' t Hr _ Ht _ Hk. destruct (Hu _ _ Hr) as [[-> _]|[? ->]].
    + rewrite H0 in Ht. by injection Ht as <-.
    + pose proof (go_small _ H). unfold BTF_UNPROCESSED_ID, BTF_MAX_NR_TYPES in *. lia.
Qed.

(** How deduplication may fail: the allocator refuses, or some type references
    itself with no struct in between.  Then every type is still what it was. *)
Definition dedup_error (rank : Z -> nat) (e : Z) (d : dedup) : Prop :=
  (e = - ENOMEM /\ exists k size, alloc k size = false) \/
  (e = - ELOOP /\ ~ ranked types rank /\ (exact -> forall x, 0 <= x < n -> same_type types x (d_types d) x)).

Definition dedup_done (d : dedup) : Prop :=
  graph_ok (d_types d) /\ zlen (d_types d) <= n /\
  (forall x, 0 <= x < n -> exists k, final_id d x = Some k /\ 0 <= k < zlen (d_types d) /\
    (exact -> same_type types x (d_types d) k)) /\
  (forall x y t, znth types x = Some t -> znth types y = Some t ->
    d_kind t = BTF_KIND_INT \/ d_kind t = BTF_KIND_ENUM -> final_id d x = final_id d y).

(** Equal primitive types have one representative, and keep it. *)
Lemma prim_merged d d' x y t :
  prim_inv opts types [] d -> frozen types d d' -> map_ok n (d_map d') ->
  znth types x = Some t -> znth types y = Some t -> d_kind t = BTF_KIND_INT \/ d_kind t = BTF_KIND_ENUM ->
  exists r, Root (d_map d') x r /\ Root (d_map d') y r.
Proof.
  intros Hd Hf Hm Hx Hy Hk.
  assert (is_prim (d_kind t) = true) as Hp by (by destruct Hk as [-> | ->]).
  assert (d_kind t <> BTF_KIND_FWD) as Hnf by (by destruct Hk as [-> | ->]).
  assert (forall z, znth types z = Some t -> exists r, znth (d_map d) r = Some r /\ znth types r = Some t /\
    Root (d_map d') z r) as Hroot.
  { intros z Hz. destruct (pi_canon _ _ _ _ Hd z t (not_elem_of_nil _) Hz Hp) as (r & h & E1 & E2 & E3 & _).
    exists r. split; [done|]. split; [done|].
    assert (0 <= r < n) as Hr by by eapply znth_Some_range.
    assert (Root (d_map d') r r) as Hrr.
    { apply Root_here. exists r. split; [by eapply Hf|by right]. }
    destruct (decide (r = z)) as [-> |Hne]; [done|]. eapply Root_step; [by eapply Hf| |done|done].
    eapply mapped_spec; [done|by eapply (Hf z)|done]. }
  destruct (Hroot x Hx) as (r & A1 & A2 & A3), (Hroot y Hy) as (r' & B1 & B2 & B3). exists r. split; [done|].
  by rewrite (pi_unique _ _ _ _ Hd r r' t).
Qed.

Lemma dedup_run rank :
  run (dedup_error rank) (fun _ => dedup_done) (btf_dedup_types alloc opts) (dedup_init types requests).
Proof.
  assert (forall e d, fails alloc opts types rank e d -> dedup_error rank e d) as Hweak.
  { intros e d [[?|[? ?]] ?]; [by left|by right]. }
  unfold btf_dedup_types. apply run_bind. eapply run_weaken; [exact Hweak|].
  eapply run_mono; [apply prim_types_spec, init_ok|]. intros [] d1 Hd1.
  apply run_bind. eapply run_weaken; [exact Hweak|].
  eapply run_mono; [apply struct_types_spec; by apply prim_struct|]. intros [] d2 Hd2.
  apply run_bind. eapply run_weaken; [exact Hweak|].
  eapply run_mono; [apply ref_types_spec; by eapply struct_ref|]. intros [] d3 (Hd3 & Hall & Hfz3).
  assert (forall e d, out_of_memory alloc e d -> dedup_error rank e d) as Hmem by (by left).
  apply run_bind. eapply run_weaken; [exact Hmem|].
  eapply run_mono; [by eapply compact_types_spec|]. intros [] d4 Hd4.
  eapply run_mono; [by eapply remap_types_spec|]. intros [] d5 Hd5.
  pose proof (rm_len _ _ _ _ _ Hd5) as Hl5.
  assert (forall c, 0 <= c < n -> exists c', new_id d3 (hypot_map d4) c c' /\ 0 <= c' < zlen (d_types d5)) as Htot.
  { intros c Hc. rewrite Hl5. by eapply new_id_total. }
  pose proof (cp_next _ _ _ Hd4) as Hm. pose proof (cp_onto _ _ _ Hd4) as Honto.
  assert (new_id d3 (hypot_map d4) 0 0) as Hzero by by eapply new_id_void.
  rewrite <- Hl5 in Hd5, Hm, Honto.
  split; [by eapply final_graph_ok|]. split; [lia|]. split; cycle 1.
  { intros x y t Hx Hy Hk. unfold final_id. rewrite (rm_map _ _ _ _ _ Hd5).
    assert (frozen types d1 d3) as Hfz.
    { intros z v tz Hz Hv Htz Hkz. eapply Hfz3; try done. by eapply (st_frozen _ _ _ _ _ Hd2). }
    destruct (prim_merged d1 d3 x y t Hd1 Hfz (si_map _ _ _ _ Hd3) Hx Hy Hk) as (r & Rx & Ry).
    destruct (resolve_root _ _ x (si_map _ _ _ _ Hd3) ltac:(by eapply znth_Some_range)) as (rx & -> & Rx' & _).
    destruct (resolve_root _ _ y (si_map _ _ _ _ Hd3) ltac:(by eapply znth_Some_range)) as (ry & -> & Ry' & _).
    assert (rx = r) as -> by by eapply Root_det. by assert (ry = r) as -> by by eapply Root_det. }
  intros x Hx. destruct (Htot x Hx) as (k & Hk & Hkr). exists k. split; [|split; [done|]].
  - destruct (resolve_root _ _ _ (si_map _ _ _ _ Hd3) Hx) as (r & Hr & HR & _).
    destruct Hk as (r' & HR' & Hk). assert (r' = r) as -> by by eapply Root_det.
    unfold final_id. rewrite (rm_map _ _ _ _ _ Hd5), Hr. cbn [mbind option_bind].
    by rewrite (rm_hypot _ _ _ _ _ Hd5).
  - intros He. eapply same_trans; [by apply (si_keeps _ _ _ _ Hd3)|]. by eapply final_same.
Qed.
End whole.
