(* ===== verification/BtfDedupSpec.v ===== *)
(** * What deduplication promises

    [btf__dedup]'s passes over the types end, keep every type the same when
    forward declarations are left alone, and leave well-formed types. *)

From S2P Require Export BtfCompact.

(** The passes over these types, in a new state. *)
Definition dedup_types (alloc : nat -> Z -> bool) (opts : btf_dedup_opts) (types : list desc) (requests : nat) :
    option (result unit * dedup) :=
  btf_dedup_types alloc opts (dedup_init types requests).

(** Decides [graph_ok]. *)
Definition graph_okb (G : list desc) : bool :=
  match G with
  | t0 :: G' =>
      bool_decide (t0 = void_desc) && forallb desc_okb G'
      && forallb (fun t => forallb (fun c => (0 <=? c) && (c <? zlen G)) (children t)) G'
      && (zlen G <=? BTF_MAX_NR_TYPES + 1)
      && forallb (fun t => negb (d_kind t =? BTF_KIND_FWD) || (d_size t =? 0)) G'
  | [] => false
  end.

Lemma graph_okb_ok G : graph_okb G = true -> graph_ok G.
Proof.
  destruct G as [|t0 G']; [done|]. cbn [graph_okb]. rewrite !andb_true_iff.
  intros [[[[H0%bool_decide_eq_true Hok] Hcl] Hsm] Hfwd]. subst t0.
  pose proof (descs_okb_ok _ Hok) as Hok'. rewrite List.Forall_forall in Hok'. rewrite forallb_forall in Hcl, Hfwd.
  assert (forall x t, znth (void_desc :: G') x = Some t -> t = void_desc /\ x = 0 \/ In t G') as Hin.
  { intros x t Hx. unfold znth in Hx. case_decide; [|done]. destruct (Z.to_nat x) eqn:E; cbn in Hx.
    - left. split; [congruence|lia].
    - right. apply list_elem_of_In. by eapply list_elem_of_lookup_2. }
  split.
  - done.
  - intros x t Hx Ht. destruct (Hin _ _ Ht) as [[_ ?]|?]; [lia|auto].
  - intros x t c Ht Hc. destruct (Hin _ _ Ht) as [[-> _]|Ht']; [by apply elem_of_nil in Hc|].
    specialize (Hcl _ Ht'). rewrite forallb_forall in Hcl. apply list_elem_of_In in Hc. specialize (Hcl _ Hc). lia.
  - lia.
  - intros x t Ht Hk. destruct (Hin _ _ Ht) as [[-> _]|Ht']; [done|].
    specialize (Hfwd _ Ht'). rewrite Hk in Hfwd. cbn in Hfwd. lia.
Qed.

(** C7. Deduplication of the types always ends; it fails only when the allocator
    refuses or when no ranking makes every reference between reference types
    go down, that is when a type references itself with no struct in between. *)
Theorem dedup_total alloc opts types requests :
  graph_ok types ->
  exists r d, dedup_types alloc opts types requests = Some (r, d) /\
    match r with
    | Ok _ => True
    | Err e => (e = - ENOMEM /\ exists k size, alloc k size = false) \/
               (e = - ELOOP /\ forall rank, ~ ranked types rank)
    end.
Proof.
  intros H. pose proof (dedup_run alloc opts types requests H) as Hrun. unfold runs in Hrun.
  unfold dedup_types. destruct (btf_dedup_types _ _ _) as [[[a|e] d]|] eqn:E.
  - exists (Ok a), d. done.
  - exists (Err e), d. split; [done|]. destruct (Hrun (fun _ => 0%nat)) as [?|[He _]]; [by left|right].
    split; [done|]. intros rank. destruct (Hrun rank) as [[He' _]|(_ & ? & _)]; [by rewrite He in He'|done].
  - by destruct (Hrun (fun _ => 0%nat)).
Qed.

(** With [dont_resolve_fwds], deduplication loses nothing: each type has a
    final id under which it is the same type, references and all. *)
Theorem dedup_same alloc opts types requests d :
  graph_ok types -> dont_resolve_fwds opts = true ->
  dedup_types alloc opts types requests = Some (Ok tt, d) ->
  forall x, 0 <= x < zlen types -> exists k, final_id d x = Some k /\ same_type types x (d_types d) k.
Proof.
  intros H He E x Hx. pose proof (dedup_run alloc opts types requests H (fun _ => 0%nat)) as Hrun.
  unfold runs in Hrun. unfold dedup_types in E. rewrite E in Hrun. destruct Hrun as (_ & _ & Hf & _).
  destruct (Hf x Hx) as (k & Hk & _ & Hs). exists k. auto.
Qed.

(** C12. Under every option the final types are well-formed, not more than before,
    and every type has its final id among them. *)
Theorem dedup_well_formed alloc opts types requests d :
  graph_ok types -> dedup_types alloc opts types requests = Some (Ok tt, d) ->
  graph_ok (d_types d) /\ zlen (d_types d) <= zlen types /\
  forall x, 0 <= x < zlen types -> exists k, final_id d x = Some k /\ 0 <= k < zlen (d_types d).
Proof.
  intros H E. pose proof (dedup_run alloc opts types requests H (fun _ => 0%nat)) as Hrun.
  unfold runs in Hrun. unfold dedup_types in E. rewrite E in Hrun. destruct Hrun as (Hg & Hl & Hf & _).
  split; [done|]. split; [done|]. intros x Hx. destruct (Hf x Hx) as (k & Hk & Hkr & _). by exists k.
Qed.

(** Equal integers and equal enums end up as one type. *)
Theorem dedup_merges alloc opts types requests d x y t :
  graph_ok types -> dedup_types alloc opts types requests = Some (Ok tt, d) ->
  znth types x = Some t -> znth types y = Some t ->
  d_kind t = BTF_KIND_INT \/ d_kind t = BTF_KIND_ENUM -> final_id d x = final_id d y.
Proof.
  intros H E Hx Hy Hk. pose proof (dedup_run alloc opts types requests H (fun _ => 0%nat)) as Hrun.
  unfold runs in Hrun. unfold dedup_types in E. rewrite E in Hrun. destruct Hrun as (_ & _ & _ & Hm). by apply (Hm x y t).
Qed.

(** When a reference loop stops deduplication half-way, each type still is
    what it was. *)
Theorem dedup_loop_keeps alloc opts types requests d :
  graph_ok types -> dont_resolve_fwds opts = true ->
  dedup_types alloc opts types requests = Some (Err (- ELOOP), d) ->
  forall x, 0 <= x < zlen types -> same_type types x (d_types d) x.
Proof.
  intros H He E. pose proof (dedup_run alloc opts types requests H (fun _ => 0%nat)) as Hrun.
  unfold runs in Hrun. unfold dedup_types in E. rewrite E in Hrun. destruct Hrun as [[? _]|(_ & _ & Hk)]; [done|]. by apply Hk.
Qed.

(** ** Two compilation units

    Each declares [int] and a list node that points to itself; the second adds
    an array and a function type. *)

Definition ex_graph : list desc :=
  [void_desc; ex_int; ex_node 1 3; ex_ptr 2;
   ex_int; ex_node 4 6; ex_ptr 5; Desc 0 (kind_info BTF_KIND_ARRAY 0) 0 [4; 4; 3];
   Desc 0 (kind_info BTF_KIND_FUNC_PROTO 1) 6 [0; 7]].
Definition ex_dedup_alloc (k : nat) (size : Z) : bool := true.
Definition ex_dedup_opts : btf_dedup_opts := Dedup_opts 16 true.
Definition ex_result : list desc :=
  [void_desc; ex_int; ex_node 1 3; ex_ptr 2; Desc 0 (kind_info BTF_KIND_ARRAY 0) 0 [1; 1; 3];
   Desc 0 (kind_info BTF_KIND_FUNC_PROTO 1) 3 [0; 4]].
Definition final_state (c : option (result unit * dedup)) : dedup :=
  match c with Some (_, d) => d | None => dedup_init [] 0 end.
Definition ex_final : dedup :=
  final_state (dedup_types ex_dedup_alloc ex_dedup_opts ex_graph 4).

Example ex_dedup_types : d_types ex_final = ex_result.
Proof. vm_compute. reflexivity. Qed.

(** A qualifier of itself. *)
Definition ex_loop : list desc := [void_desc; ex_int; Desc 0 (kind_info BTF_KIND_CONST 0) 3 []; ex_ptr 2].
Definition ex_loop_final : dedup :=
  final_state (dedup_types ex_dedup_alloc ex_dedup_opts ex_loop 4).

Lemma dedup_total_witness :
  exists r d, dedup_types ex_dedup_alloc ex_dedup_opts ex_graph 4 = Some (r, d) /\
    match r with
    | Ok _ => True
    | Err e => (e = - ENOMEM /\ exists k size, ex_dedup_alloc k size = false) \/
               (e = - ELOOP /\ forall rank, ~ ranked ex_graph rank)
    end.
Proof.
  assert (graph_okb ex_graph = true) as H by (vm_compute; reflexivity).
  exact (dedup_total ex_dedup_alloc ex_dedup_opts ex_graph 4 (graph_okb_ok _ H)).
Defined.

Lemma dedup_same_witness :
  exists k, final_id ex_final 8 = Some k /\ same_type ex_graph 8 (d_types ex_final) k.
Proof.
  assert (0 <= 8 < zlen ex_graph) as Hx by (vm_compute; split; [discriminate|reflexivity]).
  assert (graph_okb ex_graph = true) as H by (vm_compute; reflexivity).
  assert (dedup_types ex_dedup_alloc ex_dedup_opts ex_graph 4 = Some (Ok tt, ex_final)) as E
    by (vm_compute; reflexivity).
  exact (dedup_same ex_dedup_alloc ex_dedup_opts ex_graph 4 ex_final (graph_okb_ok _ H) eq_refl E 8 Hx).
Defined.

Lemma dedup_well_formed_witness :
  graph_ok (d_types ex_final) /\ zlen (d_types ex_final) <= zlen ex_graph /\
  forall x, 0 <= x < zlen ex_graph -> exists k, final_id ex_final x = Some k /\ 0 <= k < zlen (d_types ex_final).
Proof.
  assert (graph_okb ex_graph = true) as H by (vm_compute; reflexivity).
  assert (dedup_types ex_dedup_alloc ex_dedup_opts ex_graph 4 = Some (Ok tt, ex_final)) as E
    by (vm_compute; reflexivity).
  exact (dedup_well_formed ex_dedup_alloc ex_dedup_opts ex_graph 4 ex_final (graph_okb_ok _ H) E).
Defined.

Lemma dedup_merges_witness : final_id ex_final 1 = final_id ex_final 4.
Proof.
  assert (graph_okb ex_graph = true) as H by (vm_compute; reflexivity).
  assert (dedup_types ex_dedup_alloc ex_dedup_opts ex_graph 4 = Some (Ok tt, ex_final)) as E
    by (vm_compute; reflexivity).
  assert (d_kind ex_int = BTF_KIND_INT) as Hk by (vm_compute; reflexivity).
  exact (dedup_merges ex_dedup_alloc ex_dedup_opts ex_graph 4 ex_final 1 4 ex_int (graph_okb_ok _ H) E
    eq_refl eq_refl (or_introl Hk)).
Defined.

Lemma dedup_loop_keeps_witness :
  same_type ex_loop 3 (d_types ex_loop_final) 3.
Proof.
  assert (0 <= 3 < zlen ex_loop) as Hx by (vm_compute; split; [discriminate|reflexivity]).
  assert (graph_okb ex_loop = true) as H by (vm_compute; reflexivity).
  assert (dedup_types ex_dedup_alloc ex_dedup_opts ex_loop 4 = Some (Err (- ELOOP), ex_loop_final)) as E
    by (vm_compute; reflexivity).
  exact (dedup_loop_keeps ex_dedup_alloc ex_dedup_opts ex_loop 4 ex_loop_final (graph_okb_ok _ H) eq_refl E 3 Hx).
Defined.

(** *** Forward declarations

    Two structs called [foo], with members [a] and [b], behind the pointers of
    one struct; a second struct has a pointer to a declaration of [foo] in
    both places. *)

Definition ex_foo (member : Z) : desc := Desc 20 (kind_info BTF_KIND_STRUCT 1) 4 [member; 1; 0].
Definition ex_pair (p q : Z) : desc := Desc 24 (kind_info BTF_KIND_STRUCT 2) 16 [26; p; 0; 28; q; 64].
Definition ex_fwds : list desc :=
  [void_desc; ex_int; ex_foo 32; ex_pair 4 5; ex_ptr 9; ex_ptr 2;
   ex_pair 7 7; ex_ptr 8; Desc 20 (kind_info BTF_KIND_FWD 0) 0 []; ex_foo 30].
Definition ex_fwds_final (dont_resolve : bool) : dedup :=
  final_state (dedup_types ex_dedup_alloc (Dedup_opts 16 dont_resolve) ex_fwds 4).

(** Resolving forward declarations is not sound: the declaration stands for
    both structs, and [btf_dedup_merge_hypot_map] then maps one of them to the
    other although their members differ; with [dont_resolve_fwds] they stay
    apart. *)
Theorem fwd_resolution_merges_structs :
  graph_ok ex_fwds /\ shape (ex_foo 30) <> shape (ex_foo 32) /\
  final_id (ex_fwds_final false) 9 = final_id (ex_fwds_final false) 2 /\
  is_Some (final_id (ex_fwds_final false) 9) /\
  final_id (ex_fwds_final true) 9 <> final_id (ex_fwds_final true) 2.
Proof.
  assert (graph_okb ex_fwds = true) as H by (vm_compute; reflexivity).
  split; [exact (graph_okb_ok _ H)|]. split; [vm_compute; discriminate|].
  split; [vm_compute; reflexivity|]. split; [vm_compute; eexists; reflexivity|]. vm_compute. discriminate.
Qed.
