(* ===== verification/BtfStrings.v ===== *)
(** * Deduplication of BTF strings (src/libbpf/src/btf.c, [btf_dedup_strings])

    The index of the string table, the strings in use, the new table without
    duplicates and the rewriting of every offset in types and line
    information.  Types are decoded records; so is the line information, a
    list of sections. *)

From S2P Require Export BtfDedupSpec Qsort.

(** [struct btf_str_ptr]: [new_off] is not written before it is known. *)
Record btf_str_ptr := Str_ptr { sp_str : Z; sp_new_off : option Z; sp_used : bool }.
Definition sizeof_btf_str_ptr := 16.

(** [strcmp]. *)
Fixpoint strcmp (a b : str) : Z :=
  match a, b with
  | [], [] => 0
  | [], _ => -1
  | _, [] => 1
  | x :: a, y :: b => if x <? y then -1 else if y <? x then 1 else strcmp a b
  end.

(** A section of line information: its name and its records, word by word. *)
Record line_sec := Line_sec { ls_name_off : Z; ls_recs : list (list Z) }.

(** ** [btf_for_each_str_off] *)

Section each_str.
Context {S : Type} (fn : Z -> S -> outcome (Z * S)).

(** The words [slots] of a record. *)
Fixpoint words_strs (slots : list nat) (ws : list Z) (ctx : S) : outcome (list Z * S) :=
  match slots with
  | [] => Some (Ok (ws, ctx))
  | s :: slots =>
      off ← ws !! s;
      let? (off, ctx) := fn off ctx in
      words_strs slots (<[s := off]> ws) ctx
  end.

(** The places of [name_off] in the records behind a type. *)
Definition str_slots (t : desc) : list nat :=
  let k := d_kind t in
  if is_composite k then (fun i => 3 * i)%nat <$> seq 0 (vlen t)
  else if (k =? BTF_KIND_ENUM) || (k =? BTF_KIND_FUNC_PROTO) then (fun i => 2 * i)%nat <$> seq 0 (vlen t)
  else [].

Definition type_strs (t : desc) (ctx : S) : outcome (desc * S) :=
  let? (name_off, ctx) := fn (d_name_off t) ctx in
  let? (extra, ctx) := words_strs (str_slots t) (d_extra t) ctx in
  Some (Ok (Desc name_off (d_info t) (d_size t) extra, ctx)).

Fixpoint each_strs {A} (f : A -> S -> outcome (A * S)) (l : list A) (ctx : S) : outcome (list A * S) :=
  match l with
  | [] => Some (Ok ([], ctx))
  | a :: l =>
      let? (a, ctx) := f a ctx in
      let? (l, ctx) := each_strs f l ctx in
      Some (Ok (a :: l, ctx))
  end.

(** [file_name_off] and [line_off], words 1 and 2 of a record. *)
Definition line_sec_strs (sec : line_sec) (ctx : S) : outcome (line_sec * S) :=
  let? (name_off, ctx) := fn (ls_name_off sec) ctx in
  let? (recs, ctx) := each_strs (words_strs [1; 2]%nat) (ls_recs sec) ctx in
  Some (Ok (Line_sec name_off recs, ctx)).

(** The types behind [btf_void], then the line information, if any. *)
Definition btf_for_each_str_off (types : list desc) (ext : option (list line_sec)) (ctx : S) :
    outcome (list desc * option (list line_sec) * S) :=
  match types with
  | [] => None
  | void :: types =>
      let? (types, ctx) := each_strs type_strs types ctx in
      match ext with
      | None => Some (Ok (void :: types, None, ctx))
      | Some secs =>
          let? (secs, ctx) := each_strs line_sec_strs secs ctx in
          Some (Ok (void :: types, Some secs, ctx))
      end
  end.
End each_str.

(** ** The index *)

(** [bsearch] with [btf_dedup_str_ptr_cmp] in an index sorted by offset, where
    no two entries compare equal. *)
Definition bsearch (off : Z) (ptrs : list btf_str_ptr) : option nat :=
  fst <$> list_find (fun p => sp_str p = off) ptrs.

Definition btf_str_mark_as_used (off : Z) (ptrs : list btf_str_ptr) : outcome (Z * list btf_str_ptr) :=
  if off =? 0 then Some (Ok (off, ptrs)) else
  match bsearch off ptrs with
  | None => Some (Err (- EINVAL))
  | Some i => s ← ptrs !! i; Some (Ok (off, <[i := Str_ptr (sp_str s) (sp_new_off s) true]> ptrs))
  end.

Definition btf_str_remap_offset (off : Z) (ptrs : list btf_str_ptr) : outcome (Z * list btf_str_ptr) :=
  if off =? 0 then Some (Ok (off, ptrs)) else
  match bsearch off ptrs with
  | None => Some (Err (- EINVAL))
  | Some i => s ← ptrs !! i; new_off ← sp_new_off s; Some (Ok (new_off, ptrs))
  end.

Definition string_at (strs : list Z) (p : Z) : option str := cstr (drop (Z.to_nat p) strs).
Definition content (strs : list Z) (p : btf_str_ptr) : str := default [] (string_at strs (sp_str p)).

Definition str_sort_by_content (strs : list Z) (p1 p2 : btf_str_ptr) : Z :=
  strcmp (content strs p1) (content strs p2).
Definition str_sort_by_offset (p1 p2 : btf_str_ptr) : Z :=
  if negb (sp_str p1 =? sp_str p2) then if sp_str p1 <? sp_str p2 then -1 else 1 else 0.

Section strings.
Context (alloc : nat -> Z -> bool).

(** The loop over the table; every string takes at least one byte. *)
Fixpoint index_loop (fuel : nat) (strs : list Z) (p cap : Z) (ptrs : list btf_str_ptr) (requests : nat) :
    option (result (list btf_str_ptr) * nat) :=
  match fuel with
  | O => None
  | S fuel =>
      if negb (p <? zlen strs) then Some (Ok ptrs, requests) else
      let cnt := zlen ptrs in
      let grow := cap <? cnt + 1 in
      let cap := if grow then u32 (cap + Z.max (cnt / 2) 16) else cap in
      if grow && negb (alloc requests (sizeof_btf_str_ptr * cap)) then Some (Err (- ENOMEM), S requests) else
      s ← string_at strs p;
      index_loop fuel strs (p + zlen s + 1) cap (ptrs ++ [Str_ptr p None false])
        (if grow then S requests else requests)
  end.

(** *** Groups of equal strings *)

Definition set_new_off (off : Z) (s : btf_str_ptr) : btf_str_ptr := Str_ptr (sp_str s) (Some off) (sp_used s).

(** [ptrs\[j\].new_off = off] for [from <= j < to]. *)
Definition set_offs (from to : nat) (off : Z) (ptrs : list btf_str_ptr) : list btf_str_ptr :=
  imap (fun j s => if (from <=? j)%nat && (j <? to)%nat then set_new_off off s else s) ptrs.

Fixpoint group_loop (strs : list Z) (todo : list nat) (grp_idx : nat) (grp_used : bool)
    (tmp : list Z) (ptrs : list btf_str_ptr) : option (list Z * list btf_str_ptr) :=
  match todo with
  | [] => Some (tmp, ptrs)
  | i :: todo =>
      g ← ptrs !! grp_idx;
      let next := ptrs !! i in
      match next with
      | Some n =>
          if strcmp (content strs n) (content strs g) =? 0
          then group_loop strs todo grp_idx (grp_used || sp_used n) tmp ptrs
          else
            let '(tmp, ptrs) := if grp_used
              then (tmp ++ content strs g ++ [0], set_offs grp_idx i (zlen tmp) ptrs) else (tmp, ptrs) in
            group_loop strs todo i (sp_used n) tmp ptrs
      | None =>
          let '(tmp, ptrs) := if grp_used
            then (tmp ++ content strs g ++ [0], set_offs grp_idx i (zlen tmp) ptrs) else (tmp, ptrs) in
          group_loop strs todo grp_idx grp_used tmp ptrs
      end
  end.

Context `{Qsort}.

(** The new types, line information and string table.  Nothing of [btf] is
    written before every offset has been found in the index. *)
Definition btf_dedup_strings (types : list desc) (ext : option (list line_sec)) (strs : list Z)
    (requests : nat) : option (result (list desc * option (list line_sec) * list Z) * nat) :=
  match index_loop (S (length strs)) strs 0 0 [] requests with
  | None => None
  | Some (Err e, requests) => Some (Err e, requests)
  | Some (Ok ptrs, requests) =>
      if negb (alloc requests (zlen strs)) then Some (Err (- ENOMEM), S requests) else
      let requests := S requests in
      s0 ← ptrs !! 0%nat;
      let ptrs := <[0%nat := Str_ptr (sp_str s0) (sp_new_off s0) true]> ptrs in
      r ← btf_for_each_str_off btf_str_mark_as_used types ext ptrs;
      match r with
      | Err e => Some (Err e, requests)
      | Ok (_, _, ptrs) =>
          let ptrs := qsort (str_sort_by_content strs) ptrs in
          s0 ← ptrs !! 0%nat;
          '(tmp, ptrs) ← group_loop strs (seq 1 (length ptrs)) 0 (sp_used s0) [] ptrs;
          let ptrs := qsort str_sort_by_offset ptrs in
          r ← btf_for_each_str_off btf_str_remap_offset types ext ptrs;
          match r with
          | Err e => Some (Err e, requests)
          | Ok (types, ext, _) => Some (Ok (types, ext, tmp), requests)
          end
      end
  end.
End strings.

(** ** [strcmp] is an order *)

Lemma strcmp_values a b : strcmp a b = -1 \/ strcmp a b = 0 \/ strcmp a b = 1.
Proof.
  revert b. induction a as [|x a IH]; intros [|y b]; cbn; auto.
  destruct (x <? y); [auto|]. destruct (y <? x); auto.
Qed.

Lemma strcmp_eq a b : strcmp a b = 0 <-> a = b.
Proof.
  split.
  - revert b. induction a as [|x a IH]; intros [|y b]; cbn; try done.
    destruct (Z.ltb_spec x y); [done|]. destruct (Z.ltb_spec y x); [done|].
    intros ->%IH. f_equal. lia.
  - intros ->. induction b as [|y b IH]; [done|]. cbn. by rewrite Z.ltb_irrefl.
Qed.

Lemma strcmp_opp a b : strcmp b a = - strcmp a b.
Proof.
  revert b. induction a as [|x a IH]; intros [|y b]; cbn; try done.
  destruct (Z.ltb_spec x y), (Z.ltb_spec y x); try lia. apply IH.
Qed.

Lemma strcmp_trans a b c : strcmp a b <= 0 -> strcmp b c <= 0 -> strcmp a c <= 0.
Proof.
  revert b c. induction a as [|x a IH]; intros [|y b] [|z c]; cbn; try lia.
  destruct (Z.ltb_spec x y), (Z.ltb_spec y x), (Z.ltb_spec y z), (Z.ltb_spec z y),
    (Z.ltb_spec x z), (Z.ltb_spec z x); try lia. apply IH.
Qed.

Lemma strcmp_lt_trans a b c : strcmp a b < 0 -> strcmp b c <= 0 -> strcmp a c < 0.
Proof.
  intros Hab Hbc. pose proof (strcmp_trans a b c ltac:(lia) Hbc).
  destruct (decide (strcmp a c = 0)) as [E%strcmp_eq|]; [|lia]. subst c.
  rewrite strcmp_opp in Hbc. lia.
Qed.

(** ** Strings of a table *)

(** An offset where a string begins: 0, or behind a NUL. *)
Definition is_start (strs : list Z) (o : Z) : Prop :=
  0 <= o < zlen strs /\ (o = 0 \/ znth strs (o - 1) = Some 0).

Lemma string_at_spec strs p s :
  0 <= p -> string_at strs p = Some s ->
  p + zlen s < zlen strs /\ znth strs (p + zlen s) = Some 0 /\
  forall i, 0 <= i < zlen s -> znth strs (p + i) <> Some 0.
Proof.
  intros Hp. destruct (Z_of_nat_complete p Hp) as [n ->]. unfold string_at. rewrite Nat2Z.id. clear Hp. revert s.
  assert (forall l s, cstr l = Some s -> l !! length s = Some 0 /\ forall i, (i < length s)%nat -> l !! i <> Some 0) as H.
  { induction l as [|c l IH]; intros s; cbn; [done|]. destruct (Z.eqb_spec c 0) as [-> |Hc].
    { intros [= <-]. split; [done|cbn; lia]. }
   
    destruct (cstr l) as [s'|]; [|done]. intros [= <-]. destruct (IH s' eq_refl) as [H1 H2]. split; [done|].
    intros [|i] Hi; cbn; [congruence|]. apply H2. cbn in Hi. lia. }
  intros s [H1 H2]%H. rewrite lookup_drop in H1. unfold zlen. split_and!.
  - apply lookup_lt_Some in H1. lia.
  - unfold znth. rewrite decide_True by lia. by rewrite <- Nat2Z.inj_add, Nat2Z.id.
  - intros i Hi. unfold znth. rewrite decide_True by lia. specialize (H2 (Z.to_nat i) ltac:(lia)).
    rewrite lookup_drop in H2. by replace (Z.to_nat (Z.of_nat n + i)) with (n + Z.to_nat i)%nat by lia.
Qed.

Lemma string_at_defined strs p :
  znth strs (zlen strs - 1) = Some 0 -> 0 <= p < zlen strs -> is_Some (string_at strs p).
Proof.
  intros Hz Hp. unfold string_at. apply (cstr_is_Some _ (zlen strs - 1 - p)).
  rewrite znth_drop by lia. by replace (p + (zlen strs - 1 - p)) with (zlen strs - 1) by lia.
Qed.

(** ** The index *)

Definition str_total (strs : list Z) (ptrs : list btf_str_ptr) : Z :=
  foldr (fun p a => 1 + zlen (content strs p) + a) 0 ptrs.

(** An entry for each string of the table, in any order, with any marks. *)
Record index_ok (strs : list Z) (ptrs : list btf_str_ptr) : Prop := {
  ix_NoDup : NoDup (sp_str <$> ptrs);
  ix_start o : o ∈ sp_str <$> ptrs <-> is_start strs o;
  ix_total : str_total strs ptrs = zlen strs
}.

Lemma str_total_app strs l k : str_total strs (l ++ k) = str_total strs l + str_total strs k.
Proof. unfold str_total. induction l as [|a l IH]; cbn [app foldr]; [lia|]. rewrite IH. lia. Qed.

Lemma str_total_Permutation strs l k : Permutation l k -> str_total strs l = str_total strs k.
Proof. unfold str_total. induction 1; cbn [foldr]; lia. Qed.

Lemma str_total_nonneg strs l : 0 <= str_total strs l.
Proof. unfold str_total. induction l as [|p l IH]; cbn [foldr]; [lia|]. pose proof (zlen_nonneg (content strs p)). lia. Qed.

Lemma index_Permutation strs l k : Permutation l k -> index_ok strs k -> index_ok strs l.
Proof.
  intros HP [H1 H2 H3]. pose proof (fmap_Permutation sp_str _ _ HP) as HP'. split.
  - apply NoDup_ListNoDup. eapply Permutation_NoDup; [by symmetry|]. by apply NoDup_ListNoDup.
  - intros o. rewrite <- H2, !list_elem_of_In. split; apply Permutation_in; [done|by symmetry].
  - by rewrite (str_total_Permutation _ _ _ HP).
Qed.

(** Entries may be rewritten, their strings stay. *)
Lemma index_same_strs strs l k : sp_str <$> l = sp_str <$> k -> index_ok strs k -> index_ok strs l.
Proof.
  intros E [H1 H2 H3]. split; [by rewrite E|intros o; by rewrite E|]. rewrite <- H3. clear -E.
  revert k E. induction l as [|a l IH]; intros [|b k] E; try done. injection E as Ea El.
  unfold str_total in *. cbn [foldr]. rewrite (IH k) by done. unfold content. by rewrite Ea.
Qed.

Section index.
Context (alloc : nat -> Z -> bool) (strs : list Z) (Hz : znth strs (zlen strs - 1) = Some 0).

(** The entries of the strings before [p]. *)
Definition index_upto (p : Z) (ptrs : list btf_str_ptr) : Prop :=
  NoDup (sp_str <$> ptrs) /\ (forall o, o ∈ sp_str <$> ptrs <-> is_start strs o /\ o < p) /\
  str_total strs ptrs = p /\ (p <> 0 -> sp_str <$> ptrs !! 0%nat = Some 0) /\
  Forall (fun s => sp_used s = false) ptrs.

Lemma index_loop_spec fuel p cap ptrs requests :
  0 <= p <= zlen strs -> p = 0 \/ znth strs (p - 1) = Some 0 -> zlen strs - p < Z.of_nat fuel ->
  index_upto p ptrs ->
  exists r requests', index_loop alloc fuel strs p cap ptrs requests = Some (r, requests') /\
    match r with
    | Ok ptrs => index_ok strs ptrs /\ sp_str <$> ptrs !! 0%nat = Some 0 /\ Forall (fun s => sp_used s = false) ptrs
    | Err e => e = - ENOMEM /\ exists k size, alloc k size = false
    end.
Proof.
  revert p cap ptrs requests. induction fuel as [|fuel IH]; intros p cap ptrs requests Hp H0 Hf (Hnd & Hst & Ht & Hfst & Hun); [lia|].
  cbn [index_loop]. destruct (Z.ltb_spec p (zlen strs)) as [Hlt|Hge]; cbn [negb].
  - cbv zeta. set (grow := cap <? zlen ptrs + 1). set (cap' := if grow then _ else cap).
    destruct (grow && _) eqn:Eg.
    { exists (Err (- ENOMEM)), (Datatypes.S requests). split; [done|]. split; [done|].
      apply andb_true_iff in Eg as [_ Ea%negb_true_iff]. eauto. }
    destruct (string_at_defined strs p Hz) as [s Hs]; [lia|]. rewrite Hs. cbn [mbind option_bind].
    destruct (string_at_spec _ _ _ (proj1 Hp) Hs) as (Hend & Hnul & Hno). pose proof (zlen_nonneg s).
    apply IH.
    + lia.
    + right. by replace (p + zlen s + 1 - 1) with (p + zlen s) by lia.
    + lia.
    + split_and!.
      * rewrite fmap_app. apply list.NoDup_app. split_and!; [done| |apply NoDup_singleton].
        intros o [_ Ho]%Hst ->%list_elem_of_singleton. cbn in Ho. lia.
      * intros o. rewrite fmap_app, elem_of_app, Hst. cbn. rewrite list_elem_of_singleton. split.
        -- intros [[? ?]| ->]; [split; [done|lia]|]. split; [by split; [lia|]|lia].
        -- intros [Ho Hlo]. destruct (decide (o < p)) as [?|?]; [left; by split|right].
           destruct (decide (o = p)) as [|Hne]; [done|]. exfalso. destruct Ho as [Hor [-> |Hn]]; [lia|].
           apply (Hno (o - 1 - p)); [lia|]. by replace (p + (o - 1 - p)) with (o - 1) by lia.
      * rewrite str_total_app, Ht. unfold str_total, content. cbn. rewrite Hs. cbn. lia.
      * intros _. destruct (decide (p = 0)) as [-> |Hp0].
        -- destruct ptrs as [|q ptrs]; [done|]. exfalso. unfold str_total in Ht. cbn [foldr] in Ht.
           pose proof (str_total_nonneg strs ptrs). unfold str_total in *. pose proof (zlen_nonneg (content strs q)). lia.
        -- specialize (Hfst Hp0). by destruct ptrs.
      * apply List.Forall_app. split; [done|by constructor].
  - exists (Ok ptrs), requests. split; [done|]. split; [|split; [apply Hfst; apply znth_Some_range in Hz; lia|done]].
    split; [done| |lia].
    intros o. rewrite Hst. split; [by intros [? _]|]. intros Ho. split; [done|]. destruct Ho. lia.
Qed.
End index.

(** ** The offsets of types and line information *)

Definition rename_words (g : Z -> Z) (slots : list nat) (ws : list Z) : list Z :=
  imap (fun i w => if decide (i ∈ slots) then g w else w) ws.
Definition rename_type (g : Z -> Z) (t : desc) : desc :=
  Desc (g (d_name_off t)) (d_info t) (d_size t) (rename_words g (str_slots t) (d_extra t)).
Definition rename_line_sec (g : Z -> Z) (sec : line_sec) : line_sec :=
  Line_sec (g (ls_name_off sec)) (List.map (rename_words g [1; 2]%nat) (ls_recs sec)).

Definition word_offs (slots : list nat) (ws : list Z) : list Z := omap (fun s => ws !! s) slots.
Definition type_offs (t : desc) : list Z := [d_name_off t] ++ word_offs (str_slots t) (d_extra t).
Definition line_sec_offs (sec : line_sec) : list Z :=
  [ls_name_off sec] ++ flat_map (word_offs [1; 2]%nat) (ls_recs sec).

(** All of them, in the order [btf_for_each_str_off] visits them. *)
Definition str_offs (types : list desc) (ext : option (list line_sec)) : list Z :=
  flat_map type_offs (tail types) ++ flat_map line_sec_offs (default [] ext).

Definition rename_types (g : Z -> Z) (types : list desc) : list desc :=
  match types with [] => [] | void :: types => void :: List.map (rename_type g) types end.
Definition rename_ext (g : Z -> Z) (ext : option (list line_sec)) : option (list line_sec) :=
  List.map (rename_line_sec g) <$> ext.

(** Records long enough for [struct bpf_line_info_min]. *)
Definition line_sec_ok (sec : line_sec) : Prop := Forall (fun ws => (3 <= length ws)%nat) (ls_recs sec).

(** *** A traversal

    [fn] succeeds on [good] offsets, replacing them by [g] and establishing
    [D]; on another one it fails with [e], if [total]. *)
Section walk.
Context {S : Type} (fn : Z -> S -> outcome (Z * S)) (I : S -> Prop) (D : Z -> S -> Prop).
Context (good : Z -> Prop) `{forall o, Decision (good o)} (g : Z -> Z) (e : Z) (total : Prop).
Context (Hgood : forall o ctx, I ctx -> good o -> exists ctx', fn o ctx = Some (Ok (g o, ctx')) /\
  I ctx' /\ D o ctx' /\ forall o', D o' ctx -> D o' ctx').
Context (Hbad : total -> forall o ctx, I ctx -> ~ good o -> fn o ctx = Some (Err e)).

Definition walk {A} (c : S -> outcome (A * S)) (offs : list Z) (a : A) : Prop := forall ctx, I ctx ->
  (Forall good offs -> exists ctx', c ctx = Some (Ok (a, ctx')) /\ I ctx' /\
    Forall (fun o => D o ctx') offs /\ forall o, D o ctx -> D o ctx') /\
  (total -> ~ Forall good offs -> c ctx = Some (Err e)).

Lemma walk_ret {A} (a : A) : walk (fun ctx => Some (Ok (a, ctx))) [] a.
Proof. intros ctx HI. split; [intros _; exists ctx; auto|]. intros _ Hn. destruct Hn. constructor. Qed.

Lemma walk_fn o : walk (fn o) [o] (g o).
Proof.
  intros ctx HI. split.
  - intros Ho. apply Forall_inv in Ho. destruct (Hgood o ctx HI Ho) as (ctx' & ? & ? & ? & ?).
    exists ctx'. auto.
  - intros Htot Hn. apply Hbad; [done|done|]. intros Ho. apply Hn. by repeat constructor.
Qed.

Lemma walk_bind {A B} (c : S -> outcome (A * S)) (k : A -> S -> outcome (B * S)) offs offs' a b :
  walk c offs a -> walk (k a) offs' b ->
  walk (fun ctx => let? (a, ctx) := c ctx in k a ctx) (offs ++ offs') b.
Proof.
  intros Hc Hk ctx HI. destruct (Hc ctx HI) as [H1 H2]. split.
  - intros [Ho Ho']%List.Forall_app. destruct (H1 Ho) as (ctx1 & -> & HI1 & HD1 & Hm1). cbn [outcome_bind].
    destruct (Hk ctx1 HI1) as [H3 _]. destruct (H3 Ho') as (ctx2 & -> & HI2 & HD2 & Hm2).
    exists ctx2. split_and!; [done|done| |auto]. apply List.Forall_app. split; [|done].
    eapply List.Forall_impl; [|exact HD1]. auto.
  - intros Htot Hn. destruct (decide (Forall good offs)) as [Ho|Ho]; [|by rewrite H2].
    destruct (H1 Ho) as (ctx1 & -> & HI1 & _). cbn [outcome_bind]. apply Hk; [done|done|].
    intros Ho'. apply Hn. by apply List.Forall_app.
Qed.

Lemma walk_words slots ws :
  NoDup slots -> (forall s, s ∈ slots -> (s < length ws)%nat) ->
  walk (words_strs fn slots ws) (word_offs slots ws) (rename_words g slots ws).
Proof.
  revert ws. induction slots as [|s slots IH]; intros ws Hnd Hl.
  - assert (rename_words g [] ws = ws) as ->; [|apply walk_ret]. unfold rename_words. apply list_eq. intros i.
    rewrite list_lookup_imap. destruct (ws !! i); [|done]. cbn. by rewrite decide_False by apply not_elem_of_nil.
  - inversion_clear Hnd as [|? ? Hs Hnd']. destruct (lookup_lt_is_Some_2 ws s) as [o Ho]; [apply Hl; by left|].
    pose proof (walk_bind (fn o) (fun off => words_strs fn slots (<[s := off]> ws)) [o] (word_offs slots ws) (g o)
      (rename_words g (s :: slots) ws) (walk_fn o)) as Hw.
    unfold word_offs. cbn [omap list_omap words_strs]. rewrite Ho. cbn [mbind option_bind]. apply Hw.
    assert (word_offs slots ws = word_offs slots (<[s := g o]> ws)) as ->.
    { unfold word_offs. clear -Hs. induction slots as [|s' slots IH]; [done|]. cbn.
      rewrite list_lookup_insert_ne by (intros ->; apply Hs; by left). rewrite IH; [done|].
      intros ?. apply Hs. by right. }
    assert (rename_words g (s :: slots) ws = rename_words g slots (<[s := g o]> ws)) as ->.
    { unfold rename_words. apply list_eq. intros i. rewrite !list_lookup_imap. destruct (decide (s = i)) as [<-|Hne].
      - rewrite list_lookup_insert_eq by by eapply lookup_lt_Some. rewrite Ho. cbn.
        rewrite decide_True by by left. by rewrite decide_False.
      - rewrite list_lookup_insert_ne by done. destruct (ws !! i); [|done]. cbn. f_equal.
        apply decide_ext. rewrite elem_of_cons. split; [intros [?|?]; [congruence|done]|by right]. }
    apply IH; [done|]. intros s' Hs'. rewrite length_insert. apply Hl. by right.
Qed.

Lemma walk_each {A} (f : A -> S -> outcome (A * S)) (offs : A -> list Z) (mf : A -> A) l :
  (forall a, In a l -> walk (f a) (offs a) (mf a)) ->
  walk (each_strs f l) (flat_map offs l) (List.map mf l).
Proof.
  induction l as [|a l IH]; intros Hf; cbn [each_strs flat_map List.map]; [apply walk_ret|].
  apply (walk_bind (f a) (fun a ctx => let? (l, ctx) := each_strs f l ctx in Some (Ok (a :: l, ctx))) _ _ (mf a)).
  - apply Hf. by left.
  - rewrite <- (app_nil_r (flat_map offs l)).
    apply (walk_bind (each_strs f l) (fun l ctx => Some (Ok (mf a :: l, ctx))) _ _ (List.map mf l)).
    + apply IH. intros. apply Hf. by right.
    + apply walk_ret.
Qed.

Lemma str_slots_ok t :
  desc_ok t -> NoDup (str_slots t) /\ forall s, s ∈ str_slots t -> (s < length (d_extra t))%nat.
Proof.
  intros Hok. rewrite (length_extra _ Hok). unfold str_slots. destruct (is_composite (d_kind t)) eqn:Ec.
  - rewrite (composite_words _ Ec). split.
    + apply NoDup_fmap_2; [intros i j; lia|apply NoDup_seq].
    + intros s (i & -> & Hi)%list_elem_of_fmap. apply elem_of_seq in Hi. lia.
  - destruct (_ || _) eqn:Ee; [|split; [constructor|intros s Hs; by apply elem_of_nil in Hs]].
    assert (extra_words t = (2 * vlen t)%nat) as ->.
    { unfold extra_words. apply orb_true_iff in Ee as [Ee%Z.eqb_eq|Ee%Z.eqb_eq]; by rewrite Ee. }
    split.
    + apply NoDup_fmap_2; [intros i j; lia|apply NoDup_seq].
    + intros s (i & -> & Hi)%list_elem_of_fmap. apply elem_of_seq in Hi. lia.
Qed.

Lemma walk_type t : desc_ok t -> walk (type_strs fn t) (type_offs t) (rename_type g t).
Proof.
  intros Hok. destruct (str_slots_ok _ Hok) as [Hnd Hl]. unfold type_strs, type_offs.
  apply (walk_bind (fn (d_name_off t)) (fun name_off ctx =>
    let? (extra, ctx) := words_strs fn (str_slots t) (d_extra t) ctx in
    Some (Ok (Desc name_off (d_info t) (d_size t) extra, ctx))) _ _ (g (d_name_off t))); [apply walk_fn|].
  rewrite <- (app_nil_r (word_offs _ _)).
  apply (walk_bind (words_strs fn (str_slots t) (d_extra t)) (fun extra ctx =>
    Some (Ok (Desc (g (d_name_off t)) (d_info t) (d_size t) extra, ctx))) _ _ (rename_words g (str_slots t) (d_extra t))).
  - by apply walk_words.
  - apply walk_ret.
Qed.

Lemma walk_line_sec sec :
  line_sec_ok sec -> walk (line_sec_strs fn sec) (line_sec_offs sec) (rename_line_sec g sec).
Proof.
  intros Hok. unfold line_sec_strs, line_sec_offs.
  apply (walk_bind (fn (ls_name_off sec)) (fun name_off ctx =>
    let? (recs, ctx) := each_strs (words_strs fn [1; 2]%nat) (ls_recs sec) ctx in
    Some (Ok (Line_sec name_off recs, ctx))) _ _ (g (ls_name_off sec))); [apply walk_fn|].
  rewrite <- (app_nil_r (flat_map _ _)).
  apply (walk_bind (each_strs (words_strs fn [1; 2]%nat) (ls_recs sec)) (fun recs ctx =>
    Some (Ok (Line_sec (g (ls_name_off sec)) recs, ctx))) _ _ (List.map (rename_words g [1; 2]%nat) (ls_recs sec))).
  - apply walk_each. intros ws Hws. unfold line_sec_ok in Hok. rewrite List.Forall_forall in Hok.
    specialize (Hok _ Hws). apply walk_words.
    + repeat constructor; rewrite ?elem_of_cons, ?elem_of_nil; [by intros [?|]|by intros ?].
    + intros s. rewrite !elem_of_cons, elem_of_nil. lia.
  - apply walk_ret.
Qed.

(** The traversal visits [str_offs] in order. *)
Lemma walk_all types ext :
  types <> [] -> Forall desc_ok (tail types) -> Forall line_sec_ok (default [] ext) ->
  walk (btf_for_each_str_off fn types ext) (str_offs types ext) (rename_types g types, rename_ext g ext).
Proof.
  intros Hne Ht He. destruct types as [|void ts]; [done|]. unfold btf_for_each_str_off, str_offs.
  cbn [tail rename_types] in *. rewrite List.Forall_forall in Ht, He.
  destruct ext as [secs|]; cbn [default] in *.
  - apply (walk_bind (each_strs (type_strs fn) ts) (fun types ctx =>
      let? (secs, ctx) := each_strs (line_sec_strs fn) secs ctx in
      Some (Ok (void :: types, Some secs, ctx))) _ _ (List.map (rename_type g) ts)).
    + apply walk_each. intros t Hin. by apply walk_type, Ht.
    + rewrite <- (app_nil_r (flat_map _ _)).
      apply (walk_bind (each_strs (line_sec_strs fn) secs) (fun secs ctx =>
        Some (Ok (void :: List.map (rename_type g) ts, Some secs, ctx))) _ _ (List.map (rename_line_sec g) secs)).
      * apply walk_each. intros sec Hin. by apply walk_line_sec, He.
      * apply walk_ret.
  - apply (walk_bind (each_strs (type_strs fn) ts) (fun types ctx =>
      Some (Ok (void :: types, None, ctx))) _ _ (List.map (rename_type g) ts)).
    + apply walk_each. intros t Hin. by apply walk_type, Ht.
    + apply walk_ret.
Qed.
End walk.

(** *** Marking and remapping *)

Lemma bsearch_Some o ptrs :
  o ∈ sp_str <$> ptrs -> exists i s, bsearch o ptrs = Some i /\ ptrs !! i = Some s /\ sp_str s = o.
Proof.
  intros (s & -> & Hs)%list_elem_of_fmap. unfold bsearch.
  destruct (list_find _ ptrs) as [[i s']|] eqn:E.
  - apply list_find_Some in E as (Hi & Hs' & _). exists i, s'. by split_and!.
  - apply list_find_None in E. rewrite List.Forall_forall in E. apply list_elem_of_In in Hs. by destruct (E _ Hs).
Qed.

Lemma bsearch_None o ptrs : ~ o ∈ sp_str <$> ptrs -> bsearch o ptrs = None.
Proof.
  intros Ho. unfold bsearch. destruct (list_find _ ptrs) as [[i s]|] eqn:E; [|done].
  apply list_find_Some in E as (Hi & Hs & _). destruct Ho. apply list_elem_of_fmap.
  exists s. split; [done|]. by eapply list_elem_of_lookup_2.
Qed.

(** The entry for [o] is marked. *)
Definition marked (o : Z) (ptrs : list btf_str_ptr) : Prop :=
  exists s, s ∈ ptrs /\ sp_str s = o /\ sp_used s = true.

Definition mark (i : nat) (s : btf_str_ptr) (ptrs : list btf_str_ptr) : list btf_str_ptr :=
  <[i := Str_ptr (sp_str s) (sp_new_off s) true]> ptrs.

Lemma mark_strs i s ptrs : ptrs !! i = Some s -> sp_str <$> mark i s ptrs = sp_str <$> ptrs.
Proof. intros Hi. unfold mark. rewrite list_fmap_insert. cbn. apply list_insert_id. by rewrite list_lookup_fmap, Hi. Qed.

Lemma mark_marks i s ptrs : ptrs !! i = Some s -> marked (sp_str s) (mark i s ptrs).
Proof.
  intros Hi. exists (Str_ptr (sp_str s) (sp_new_off s) true). split; [|done]. eapply list_elem_of_lookup_2.
  apply list_lookup_insert_eq. by eapply lookup_lt_Some.
Qed.

Lemma mark_keeps o ptrs i s : ptrs !! i = Some s -> marked o ptrs -> marked o (mark i s ptrs).
Proof.
  intros Hi (s' & Hin & Hs' & Hu). apply list_elem_of_lookup in Hin as [j Hj]. destruct (decide (i = j)) as [<-|Hne].
  - assert (s' = s) as -> by congruence. subst o. by apply mark_marks.
  - exists s'. split; [|done]. eapply (list_elem_of_lookup_2 _ j). unfold mark. by rewrite list_lookup_insert_ne.
Qed.

(** Only [P] entries are marked. *)
Definition only_marked (P : Z -> Prop) (ptrs : list btf_str_ptr) : Prop := forall o, marked o ptrs -> P o.

Lemma mark_only (P : Z -> Prop) ptrs i s :
  ptrs !! i = Some s -> P (sp_str s) -> only_marked P ptrs -> only_marked P (mark i s ptrs).
Proof.
  intros Hi HP Ho o (s' & Hin & <- & Hu). apply list_elem_of_lookup in Hin as [j Hj]. unfold mark in Hj.
  destruct (decide (i = j)) as [<-|Hne].
  - rewrite list_lookup_insert_eq in Hj by by eapply lookup_lt_Some. by injection Hj as <-.
  - rewrite list_lookup_insert_ne in Hj by done. apply Ho. exists s'. split; [by eapply list_elem_of_lookup_2|done].
Qed.

Lemma mark_as_used_spec o ptrs :
  o <> 0 -> (exists i s, ptrs !! i = Some s /\ sp_str s = o /\ btf_str_mark_as_used o ptrs = Some (Ok (o, mark i s ptrs))) \/
    (~ o ∈ sp_str <$> ptrs /\ btf_str_mark_as_used o ptrs = Some (Err (- EINVAL))).
Proof.
  intros Hne. unfold btf_str_mark_as_used. destruct (Z.eqb_spec o 0) as [|_]; [done|].
  destruct (decide (o ∈ sp_str <$> ptrs)) as [Ho|Ho].
  - left. destruct (bsearch_Some _ _ Ho) as (i & s & -> & Hi & Hs). exists i, s. by rewrite Hi.
  - right. by rewrite bsearch_None.
Qed.

Section marking.
Context (keys : list Z) (types : list desc) (ext : option (list line_sec)).
Context (Hne : types <> []) (Ht : Forall desc_ok (tail types)) (He : Forall line_sec_ok (default [] ext)).

Lemma walk_mark :
  walk (fun ptrs => sp_str <$> ptrs = keys /\ marked 0 ptrs) marked (fun o => o = 0 \/ o ∈ keys) (- EINVAL) True
    (btf_for_each_str_off btf_str_mark_as_used types ext) (str_offs types ext) (rename_types id types, rename_ext id ext).
Proof using Hne Ht He.
  apply walk_all; [intros o; apply _| | |done..].
  - intros o ptrs [Hk H0] Ho. destruct (decide (o = 0)) as [-> |Hn]; [by exists ptrs|].
    destruct (mark_as_used_spec o ptrs Hn) as [(i & s & Hi & Hs & ->)|[Hno _]]; cycle 1.
    { destruct Hno. rewrite Hk. by destruct Ho. }
    exists (mark i s ptrs). split; [done|]. split; [split; [by rewrite mark_strs|by apply mark_keeps]|].
    split; [rewrite <- Hs; by apply mark_marks|]. intros o'. by apply mark_keeps.
  - intros _ o ptrs [Hk H0] Ho. assert (o <> 0) as Hn by (intros ->; apply Ho; by left).
    destruct (mark_as_used_spec o ptrs Hn) as [(i & s & Hi & Hs & _)|[_ ->]]; [|done].
    destruct Ho. right. rewrite <- Hk. apply list_elem_of_fmap. exists s. split; [done|]. by eapply list_elem_of_lookup_2.
Qed.

(** What is not visited is not marked. *)
Lemma walk_mark_only (P : Z -> Prop) `{forall o, Decision (P o)} :
  walk (fun ptrs => sp_str <$> ptrs = keys /\ only_marked P ptrs) (fun _ _ => True)
    (fun o => (o = 0 \/ o ∈ keys) /\ P o) 0 False
    (btf_for_each_str_off btf_str_mark_as_used types ext) (str_offs types ext) (rename_types id types, rename_ext id ext).
Proof using Hne Ht He.
  apply walk_all; [intros o; apply _| |done..].
  intros o ptrs [Hk H0] [Ho HP]. destruct (decide (o = 0)) as [-> |Hn]; [by exists ptrs|].
  destruct (mark_as_used_spec o ptrs Hn) as [(i & s & Hi & Hs & ->)|[Hno _]]; cycle 1.
  { destruct Hno. rewrite Hk. by destruct Ho. }
  exists (mark i s ptrs). split; [done|]. split; [|done]. split; [by rewrite mark_strs|].
  apply mark_only; [done|by rewrite Hs|done].
Qed.

(** Marking succeeds and marks exactly what is visited, or an offset is wrong. *)
Lemma mark_spec ptrs :
  sp_str <$> ptrs = keys -> marked 0 ptrs -> only_marked (fun o => o = 0) ptrs ->
  (exists a ptrs', btf_for_each_str_off btf_str_mark_as_used types ext ptrs = Some (Ok (a, ptrs')) /\
    sp_str <$> ptrs' = keys /\ forall o, marked o ptrs' <-> o = 0 \/ o ∈ str_offs types ext) \/
  (btf_for_each_str_off btf_str_mark_as_used types ext ptrs = Some (Err (- EINVAL)) /\
    exists o, o ∈ str_offs types ext /\ o <> 0 /\ ~ o ∈ keys).
Proof using Hne Ht He.
  intros Hk H0 Hon. destruct (walk_mark ptrs (conj Hk H0)) as [Hok Hbad].
  destruct (decide (Forall (fun o => o = 0 \/ o ∈ keys) (str_offs types ext))) as [Hall|Hn].
  - left. destruct (Hok Hall) as (ptrs' & E & [Hk' H0'] & Hm & _). exists (rename_types id types, rename_ext id ext), ptrs'.
    split; [done|]. split; [done|]. intros o. split.
    + destruct (walk_mark_only (fun o => o = 0 \/ o ∈ str_offs types ext) ptrs) as [Hok' _].
      { split; [done|]. intros o' Ho'. left. by apply Hon. }
      destruct Hok' as (ptrs2 & E2 & [_ Honly] & _); [|assert (ptrs2 = ptrs') as -> by congruence; apply Honly].
      apply List.Forall_forall. intros o' Ho'%list_elem_of_In. rewrite List.Forall_forall in Hall. split; [|by right].
      apply Hall. by apply list_elem_of_In.
    + intros [-> |Ho]; [done|]. rewrite List.Forall_forall in Hm. apply Hm. by apply list_elem_of_In.
  - right. split; [by apply Hbad|]. apply not_Forall_Exists in Hn; [|intros o; apply _].
    apply Exists_exists in Hn as (o & Ho%list_elem_of_In & Hno). exists o. split; [done|]. cbn in Hno. tauto.
Qed.
End marking.

(** The new offset of an old one. *)
Definition new_off_of (ptrs : list btf_str_ptr) (o : Z) : Z :=
  if o =? 0 then 0 else
  default 0 (i ← bsearch o ptrs; s ← ptrs !! i; sp_new_off s).

Lemma walk_remap (ptrs : list btf_str_ptr) types ext :
  types <> [] -> Forall desc_ok (tail types) -> Forall line_sec_ok (default [] ext) ->
  Forall (fun o => o = 0 \/ exists i s n, bsearch o ptrs = Some i /\ ptrs !! i = Some s /\ sp_new_off s = Some n)
    (str_offs types ext) ->
  btf_for_each_str_off btf_str_remap_offset types ext ptrs =
    Some (Ok (rename_types (new_off_of ptrs) types, rename_ext (new_off_of ptrs) ext, ptrs)).
Proof.
  intros Hne Ht He Hall.
  set (good := fun o => o = 0 \/ is_Some (i ← bsearch o ptrs; s ← ptrs !! i; sp_new_off s)).
  assert (walk (fun p => p = ptrs) (fun _ _ => True) good (- EINVAL) False
    (btf_for_each_str_off btf_str_remap_offset types ext) (str_offs types ext)
    (rename_types (new_off_of ptrs) types, rename_ext (new_off_of ptrs) ext)) as Hw.
  { apply walk_all; [intros o; unfold good; apply _| |done|done|done|done].
    intros o ? -> Ho. exists ptrs. split; [|auto]. unfold btf_str_remap_offset, new_off_of.
    destruct (Z.eqb_spec o 0) as [-> |Hn]; [done|]. destruct Ho as [|[n Hg]]; [done|]. rewrite Hg.
    destruct (bsearch o ptrs) as [i|]; [|done]. cbn in Hg |- *. destruct (ptrs !! i) as [s|]; [|done].
    cbn in Hg |- *. by rewrite Hg. }
  destruct (Hw ptrs eq_refl) as [Hok _]. destruct Hok as (p & -> & -> & _); [|done].
  eapply List.Forall_impl; [|exact Hall]. intros o [->|(i & s & nn & E1 & E2 & E3)]; [by left|right].
  rewrite E1. cbn. rewrite E2. cbn. rewrite E3. by eexists.
Qed.

(** ** The new table *)

(** The strings one behind the other, each with its terminator. *)
Definition table (ss : list str) : list Z := flat_map (fun s => s ++ [0]) ss.

Lemma table_app ss ss' : table (ss ++ ss') = table ss ++ table ss'.
Proof. apply flat_map_app. Qed.

Lemma table_last ss s : Forall str_ok ss -> str_ok s ->
  is_start (table (ss ++ [s])) (zlen (table ss)) /\ string_at (table (ss ++ [s])) (zlen (table ss)) = Some s.
Proof.
  intros Hss Hs. rewrite table_app. change (table [s]) with ((s ++ [0]) ++ []). rewrite app_nil_r. split.
  - split; [rewrite !zlen_app; unfold zlen; cbn; lia|].
    destruct (decide (zlen (table ss) = 0)) as [|Hne]; [by left|right].
    rewrite znth_app_l by lia. clear -Hne. induction ss as [|a ss IH]; [done|].
    cbn [table flat_map] in *. fold (table ss) in *. destruct (decide (zlen (table ss) = 0)) as [E|E].
    + unfold zlen in E. destruct (table ss); [|done]. rewrite app_nil_r, zlen_app. change (zlen [0]) with 1.
      replace (zlen a + 1 - 1) with (zlen a + 0) by lia. by rewrite znth_app_r.
    + rewrite zlen_app. pose proof (zlen_nonneg (table ss)).
      replace (zlen (a ++ [0]) + zlen (table ss) - 1) with (zlen (a ++ [0]) + (zlen (table ss) - 1)) by lia.
      rewrite znth_app_r by lia. by apply IH.
  - unfold string_at. unfold zlen. rewrite Nat2Z.id, drop_app_length. by apply cstr_app.
Qed.

Lemma start_app l k o : is_start l o -> is_start (l ++ k) o.
Proof.
  intros [Hr H]. split; [rewrite zlen_app; pose proof (zlen_nonneg k); lia|]. destruct H as [|H]; [by left|right].
  rewrite znth_app_l; [done|]. lia.
Qed.

Lemma string_at_app l k o s : string_at l o = Some s -> string_at (l ++ k) o = Some s.
Proof.
  unfold string_at. intros H.
  assert (forall l k s, cstr l = Some s -> cstr (l ++ k) = Some s) as Hc.
  { clear. induction l as [|c l IH]; intros k s; cbn; [done|]. destruct (c =? 0); [done|].
    destruct (cstr l) as [s'|]; [|done]. by rewrite (IH k s' eq_refl). }
  destruct (decide (Z.to_nat o <= length l)%nat) as [Hle|Hgt].
  - rewrite drop_app_le by done. by apply Hc.
  - rewrite drop_ge in H by lia. done.
Qed.

Lemma cstr_ok l s : cstr l = Some s -> str_ok s.
Proof.
  revert s. induction l as [|c l IH]; intros s; cbn; [done|]. destruct (Z.eqb_spec c 0) as [|Hc].
  - intros [= <-]. constructor.
  - destruct (cstr l) as [s'|]; [|done]. intros [= <-]. constructor; [done|by apply IH].
Qed.

(** In a table of distinct strings two offsets of one string are equal. *)
Lemma start_cons s ss o :
  str_ok s -> is_start (table (s :: ss)) o ->
  (o = 0 /\ string_at (table (s :: ss)) o = Some s) \/
  exists o', o = zlen s + 1 + o' /\ is_start (table ss) o' /\
    string_at (table (s :: ss)) o = string_at (table ss) o'.
Proof.
  intros Hs [Hr H]. cbn [table flat_map] in *. fold (table ss) in *. rewrite <- app_assoc in *. cbn [app] in *.
  destruct H as [-> |Hn].
  - left. split; [done|]. unfold string_at. cbn. by apply cstr_app.
  - right. destruct (decide (o - 1 < zlen s)) as [Hlt|Hge].
    { exfalso. rewrite znth_app_l in Hn by done. unfold znth in Hn. case_decide; [|done].
      unfold str_ok in Hs. rewrite Forall_lookup in Hs. by apply (Hs _ _ Hn). }
    exists (o - zlen s - 1). split; [lia|]. rewrite zlen_app, zlen_cons in Hr. split; [split; [lia|]|].
    + destruct (decide (o - zlen s - 1 = 0)); [by left|right].
      replace (o - 1) with (zlen s + (o - 1 - zlen s)) in Hn by lia. rewrite znth_app_r in Hn by lia.
      change (0 :: table ss) with ([0] ++ table ss) in Hn.
      replace (o - 1 - zlen s) with (zlen [0] + (o - zlen s - 1 - 1)) in Hn by (unfold zlen; cbn; lia).
      by rewrite znth_app_r in Hn by lia.
    + unfold string_at. f_equal. change (0 :: table ss) with ([0] ++ table ss). rewrite app_assoc.
      replace (Z.to_nat o) with (length (s ++ [0%Z]) + Z.to_nat (o - zlen s - 1))%nat
        by (rewrite length_app; unfold zlen in *; cbn; lia).
      by rewrite drop_app_add.
Qed.

Lemma start_in ss o : Forall str_ok ss -> is_start (table ss) o -> exists s, s ∈ ss /\ string_at (table ss) o = Some s.
Proof.
  intros Hss. revert o. induction Hss as [|s ss Hs _ IH]; intros o Ho; [destruct Ho as [Ho _]; unfold zlen in Ho; cbn in Ho; lia|].
  destruct (start_cons _ _ _ Hs Ho) as [[_ E]|(o' & _ & Ho' & E)].
  - exists s. split; [by left|done].
  - destruct (IH _ Ho') as (s' & Hin & E'). exists s'. split; [by right|congruence].
Qed.

Lemma table_distinct ss o1 o2 :
  Forall str_ok ss -> StronglySorted (fun a b => strcmp a b < 0) ss ->
  is_start (table ss) o1 -> is_start (table ss) o2 ->
  string_at (table ss) o1 = string_at (table ss) o2 -> o1 = o2.
Proof.
  intros Hss Hso. revert o1 o2 Hso. induction Hss as [|s ss Hs Hss IH]; intros o1 o2 Hso H1 H2 E.
  { destruct H1 as [H1 _]. unfold zlen in H1. cbn in H1. lia. }
  apply StronglySorted_inv in Hso as [Hso Hlt]. rewrite List.Forall_forall in Hlt.
  assert (forall o, is_start (table ss) o -> string_at (table ss) o <> Some s) as Hno.
  { intros o Ho Eo. destruct (start_in _ _ Hss Ho) as (s' & Hin & E'). assert (s' = s) as -> by congruence.
    apply list_elem_of_In in Hin. specialize (Hlt _ Hin). rewrite (proj2 (strcmp_eq s s) eq_refl) in Hlt. lia. }
  destruct (start_cons _ _ _ Hs H1) as [[-> E1]|(p1 & -> & P1 & E1)], (start_cons _ _ _ Hs H2) as [[-> E2]|(p2 & -> & P2 & E2)].
  - done.
  - exfalso. apply (Hno p2 P2). congruence.
  - exfalso. apply (Hno p1 P1). congruence.
  - f_equal. apply IH; [done|done|done|]. congruence.
Qed.

Section groups.
Context (strs : list Z) (L : list btf_str_ptr).
Context (Hsorted : StronglySorted (fun a b => str_sort_by_content strs a b <= 0) L).
Context (Hok : forall l, l ∈ L -> is_Some (string_at strs (sp_str l))).
Local Abbreviation cont := (content strs).

(** The entries with other new offsets. *)
Definition same_entries (ptrs : list btf_str_ptr) : Prop :=
  sp_str <$> ptrs = sp_str <$> L /\ sp_used <$> ptrs = sp_used <$> L.

(** The content of a used entry. *)
Definition in_use (s : str) : Prop := exists l, l ∈ L /\ sp_used l = true /\ cont l = s.

(** Entry [i] of the group that began at [grp] is next; the groups before have
    their place in [tmp]. *)
Record grp_inv (i grp : nat) (used : bool) (tmp : list Z) (ptrs : list btf_str_ptr) : Prop := {
  gi_same : same_entries ptrs;
  gi_bounds : (grp < i <= length L)%nat;
  gi_group j l g : (grp <= j < i)%nat -> L !! j = Some l -> L !! grp = Some g -> cont l = cont g;
  gi_used : used = true <-> exists j l, (grp <= j < i)%nat /\ L !! j = Some l /\ sp_used l = true;
  gi_done j s : (j < grp)%nat -> ptrs !! j = Some s -> sp_used s = true ->
    exists o, sp_new_off s = Some o /\ is_start tmp o /\ string_at tmp o = Some (cont s);
  gi_tmp : exists ss, tmp = table ss /\ Forall str_ok ss /\ StronglySorted (fun a b => strcmp a b < 0) ss /\
    (forall s g, s ∈ ss -> L !! grp = Some g -> strcmp s (cont g) < 0) /\
    Forall in_use ss /\ zlen tmp <= str_total strs (take grp L)
}.

(** Every used entry has its place. *)
Record grp_done (tmp : list Z) (ptrs : list btf_str_ptr) : Prop := {
  gd_same : same_entries ptrs;
  gd_done s : s ∈ ptrs -> sp_used s = true ->
    exists o, sp_new_off s = Some o /\ is_start tmp o /\ string_at tmp o = Some (cont s);
  gd_tmp : exists ss, tmp = table ss /\ Forall str_ok ss /\ StronglySorted (fun a b => strcmp a b < 0) ss /\
    Forall in_use ss /\ zlen tmp <= str_total strs L
}.

Lemma same_entry ptrs j s : same_entries ptrs -> ptrs !! j = Some s ->
  exists l, L !! j = Some l /\ sp_str s = sp_str l /\ sp_used s = sp_used l.
Proof.
  intros [E1 E2] Hj.
  assert (forall (A : Type) (f : btf_str_ptr -> A), f <$> ptrs = f <$> L -> f <$> ptrs !! j = f <$> L !! j) as Hf.
  { intros A f E. by rewrite <- !list_lookup_fmap, E. }
  apply Hf in E1, E2. rewrite Hj in E1, E2.
  destruct (L !! j) as [l|]; [|done]. cbn in E1, E2. exists l. split; [done|]. split; congruence.
Qed.

Lemma same_length ptrs : same_entries ptrs -> length ptrs = length L.
Proof. intros [E _]. apply (f_equal length) in E. by rewrite !length_fmap in E. Qed.

Lemma StronglySorted_snoc {A} (R : A -> A -> Prop) l a :
  StronglySorted R l -> (forall b, In b l -> R b a) -> StronglySorted R (l ++ [a]).
Proof.
  induction 1 as [|b l Hl IH Hb]; intros Ha; cbn; [by repeat constructor|].
  constructor; [apply IH; intros; apply Ha; by right|]. apply List.Forall_app. split; [done|].
  constructor; [|done]. apply Ha. by left.
Qed.

Lemma sorted_lookup i j a b : (i <= j)%nat -> L !! i = Some a -> L !! j = Some b -> strcmp (cont a) (cont b) <= 0.
Proof.
  intros Hij Ha Hb. destruct (decide (i = j)) as [->|Hne].
  { assert (a = b) as -> by congruence. by rewrite (proj2 (strcmp_eq _ _) eq_refl). }
  revert i j Hij Hne Ha Hb. induction Hsorted as [|c l Hl IH Hc]; intros i j Hij Hne Ha Hb; [done|].
  destruct j as [|j]; [lia|]. destruct i as [|i].
  - injection Ha as ->. rewrite List.Forall_forall in Hc. apply (Hc b). apply list_elem_of_In. by eapply list_elem_of_lookup_2.
  - apply (IH Hl ltac:(intros; apply Hok; by right) i j); [lia|lia|done|done].
Qed.

(** Closing the group [[grp, i)]. *)
Definition close (i grp : nat) (used : bool) (g : btf_str_ptr) (tmp : list Z) (ptrs : list btf_str_ptr) :
    list Z * list btf_str_ptr :=
  if used then (tmp ++ content strs g ++ [0], set_offs grp i (zlen tmp) ptrs) else (tmp, ptrs).

Lemma str_total_take i j : (i <= j)%nat -> str_total strs (take i L) <= str_total strs (take j L).
Proof.
  intros Hij. rewrite <- (take_drop i (take j L)). rewrite take_take, Nat.min_l by done.
  rewrite str_total_app. pose proof (str_total_nonneg strs (drop i (take j L))). lia.
Qed.

Lemma lookup_set_offs from to off ptrs j s' :
  set_offs from to off ptrs !! j = Some s' -> exists s, ptrs !! j = Some s /\
    s' = if (from <=? j)%nat && (j <? to)%nat then set_new_off off s else s.
Proof.
  unfold set_offs. rewrite list_lookup_imap. destruct (ptrs !! j) as [s|]; [|done].
  intros [= <-]. by exists s.
Qed.

Lemma same_set_offs from to off ptrs : same_entries ptrs -> same_entries (set_offs from to off ptrs).
Proof.
  intros [E1 E2]. split; [rewrite <- E1|rewrite <- E2]; apply list_eq; intros j;
    unfold set_offs; rewrite !list_lookup_fmap, list_lookup_imap; destruct (ptrs !! j) as [s|]; try done;
    cbn; by destruct (_ && _).
Qed.

Lemma close_spec i grp used g tmp ptrs tmp' ptrs' :
  grp_inv i grp used tmp ptrs -> L !! grp = Some g -> close i grp used g tmp ptrs = (tmp', ptrs') ->
  same_entries ptrs' /\
  (forall j s, (j < i)%nat -> ptrs' !! j = Some s -> sp_used s = true ->
    exists o, sp_new_off s = Some o /\ is_start tmp' o /\ string_at tmp' o = Some (cont s)) /\
  exists ss, tmp' = table ss /\ Forall str_ok ss /\ StronglySorted (fun a b => strcmp a b < 0) ss /\
    (forall s, s ∈ ss -> strcmp s (cont g) <= 0) /\ Forall in_use ss /\ zlen tmp' <= str_total strs (take i L).
Proof.
  intros [G1 G2 G3 G4 G5 (ss & -> & Hss & Hso & Hlt & Hus & Hlen)] Hg. unfold close.
  destruct (Hok g) as [sg Hsg]; [by eapply list_elem_of_lookup_2|].
  assert (cont g = sg) as Ecg by (unfold content; by rewrite Hsg). pose proof (cstr_ok _ _ Hsg) as Hsgok.
  destruct used; intros [= <- <-].
  - split; [by apply same_set_offs|]. change (cont g ++ [0]) with (cont g ++ [0]).
    assert (table ss ++ cont g ++ [0] = table (ss ++ [sg])) as ->.
    { rewrite table_app, Ecg. cbn. by rewrite app_nil_r. }
    destruct (table_last ss sg Hss Hsgok) as [Hst Hat]. split.
    + intros j s' Hj Hs' Hu. destruct (lookup_set_offs _ _ _ _ _ _ Hs') as (s & Hs & ->).
      destruct (Nat.leb_spec grp j) as [Hge|Hlt']; cbn [andb].
      * destruct (Nat.ltb_spec j i) as [_|]; [|lia]. exists (zlen (table ss)). split; [done|]. split; [done|].
        rewrite Hat. f_equal. destruct (same_entry _ _ _ G1 Hs) as (l & Hl & El & _).
        unfold content. cbn. rewrite El. fold (cont l). rewrite (G3 j l g); [done|lia|done|done].
      * destruct (G5 j s Hlt' Hs) as (o & Ho & Hso' & Hat'); [by rewrite Hu || done|].
        exists o. split; [done|]. rewrite table_app. split; [by apply start_app|by apply string_at_app].
    + exists (ss ++ [sg]). split; [done|]. split; [apply List.Forall_app; split; [done|by constructor]|]. split.
      { apply StronglySorted_snoc; [done|]. intros b Hb%list_elem_of_In. rewrite <- Ecg. by apply Hlt. }
      split.
      * intros s [Hs| ->%list_elem_of_singleton]%elem_of_app; [specialize (Hlt _ _ Hs Hg); lia|].
        by rewrite Ecg, (proj2 (strcmp_eq _ _) eq_refl).
      * split; [apply List.Forall_app; split; [done|]; constructor; [|done]|].
        { destruct (proj1 G4 eq_refl) as (j & l & Hj & Hl & Hu). exists l. split; [by eapply list_elem_of_lookup_2|].
          split; [done|]. by rewrite (G3 j l g). }
        rewrite table_app, zlen_app. change (table [sg]) with ((sg ++ [0]) ++ []). rewrite app_nil_r, zlen_app.
        change (zlen [0]) with 1. pose proof (str_total_take (S grp) i ltac:(lia)) as Ht.
        rewrite (take_S_r _ _ _ Hg), str_total_app in Ht. unfold str_total at 2 in Ht. cbn [foldr] in Ht.
        rewrite Ecg in Ht. lia.
  - split; [done|]. split.
    + intros j s Hj Hs Hu. destruct (decide (j < grp)%nat) as [Hlt'|Hge]; [by apply (G5 j)|].
      exfalso. destruct (same_entry _ _ _ G1 Hs) as (l & Hl & _ & El).
      assert (false = true) as []%diff_false_true. apply G4. exists j, l. split; [lia|]. split; [done|congruence].
    + exists ss. split; [done|]. split; [done|]. split; [done|]. split.
      * intros s Hs. specialize (Hlt _ _ Hs Hg). lia.
      * split; [done|]. pose proof (str_total_take grp i ltac:(lia)). lia.
Qed.

Lemma group_loop_spec k : forall i grp used tmp ptrs,
  grp_inv i grp used tmp ptrs -> (i + k = S (length L))%nat ->
  exists tmp' ptrs', group_loop strs (seq i k) grp used tmp ptrs = Some (tmp', ptrs') /\
    (k = 0%nat \/ grp_done tmp' ptrs').
Proof.
  induction k as [|k IH]; intros i grp used tmp ptrs H Hik; cbn [seq group_loop]; [by eauto|].
  pose proof (gi_bounds _ _ _ _ _ H) as Hb. pose proof (same_length _ (gi_same _ _ _ _ _ H)) as Hlen.
  destruct (lookup_lt_is_Some_2 ptrs grp) as [g Hg]; [lia|]. rewrite Hg. cbn [mbind option_bind].
  destruct (same_entry _ _ _ (gi_same _ _ _ _ _ H) Hg) as (lg & Hlg & Eg & _).
  assert (cont g = cont lg) as Ecg by (unfold content; by rewrite Eg).
  fold (close i grp used g tmp ptrs).
  assert (close i grp used g tmp ptrs = close i grp used lg tmp ptrs) as Eclose by (unfold close; by rewrite Ecg).
  destruct (close i grp used g tmp ptrs) as [tmp1 ptrs1] eqn:Ec. symmetry in Eclose.
  destruct (close_spec _ _ _ _ _ _ _ _ H Hlg Eclose) as (C1 & C2 & ss & C3 & C4 & C5 & C6 & C8 & C7).
  destruct (ptrs !! i) as [nx|] eqn:Ei.
  - destruct (same_entry _ _ _ (gi_same _ _ _ _ _ H) Ei) as (ln & Hln & En & Eu).
    assert (cont nx = cont ln) as Ecn by (unfold content; by rewrite En).
    destruct (Z.eqb_spec (strcmp (cont nx) (cont g)) 0) as [Heq|Hne].
    + apply strcmp_eq in Heq. destruct (IH (S i) grp (used || sp_used nx) tmp ptrs) as (t' & p' & E & Hd); [|lia|].
      { destruct H as [G1 G2 G3 G4 G5 G6]. split; try done.
        - apply lookup_lt_Some in Ei. lia.
        - intros j l g' Hj Hl Hg'. destruct (decide (j = i)) as [->|]; [|apply (G3 j); [lia|done|done]].
          congruence.
        - rewrite orb_true_iff, G4. split.
          + intros [(j & l & Hj & Hl & Hu)|Hu]; [exists j, l; split; [lia|done]|].
            exists i, ln. split; [lia|]. split; [done|congruence].
          + intros (j & l & Hj & Hl & Hu). destruct (decide (j = i)) as [->|].
            * right. congruence.
            * left. exists j, l. split; [lia|done]. }
      exists t', p'. split; [done|]. destruct Hd as [->|]; [|by right]. apply lookup_lt_Some in Ei. lia.
    + destruct (IH (S i) i (sp_used nx) tmp1 ptrs1) as (t' & p' & E & Hd); [|lia|].
      { split; try done.
        - apply lookup_lt_Some in Ei. lia.
        - intros j l g' Hj Hl Hg'. assert (j = i) as -> by lia. congruence.
        - split.
          + intros Hu. exists i, ln. split; [lia|]. split; [done|congruence].
          + intros (j & l & Hj & Hl & Hu). assert (j = i) as -> by lia. congruence.
        - exists ss. do 3 (split; [done|]). split; [|by split]. intros s g' Hs Hg'.
          assert (g' = ln) as -> by congruence. pose proof (sorted_lookup grp i lg ln ltac:(lia) Hlg Hln) as Hle.
          pose proof (C6 s Hs) as Hsg. destruct (decide (strcmp s (cont lg) < 0)); [by eapply strcmp_lt_trans|].
          assert (s = cont lg) as -> by (apply strcmp_eq; lia).
          assert (strcmp (cont lg) (cont ln) <> 0); [|lia]. rewrite strcmp_opp. rewrite Ecn, Ecg in Hne. lia. }
      exists t', p'. split; [done|]. destruct Hd as [->|]; [|by right]. apply lookup_lt_Some in Ei. lia.
  - apply lookup_ge_None in Ei. assert (i = length L) as -> by lia. assert (k = 0%nat) as -> by lia.
    cbn [seq group_loop]. exists tmp1, ptrs1. split; [done|]. right. split; [done| |].
    + intros s Hs Hu. apply list_elem_of_lookup in Hs as [j Hj]. apply (C2 j); [|done|done].
      apply lookup_lt_Some in Hj. by rewrite (same_length _ C1) in Hj.
    + exists ss. do 4 (split; [done|]). by rewrite firstn_all in C7.
Qed.
End groups.

Lemma NoDup_fmap_eq {A B} (f : A -> B) l x y : NoDup (f <$> l) -> x ∈ l -> y ∈ l -> f x = f y -> x = y.
Proof.
  intros Hnd Hx Hy E. apply list_elem_of_lookup in Hx as [i Hi], Hy as [j Hj].
  assert (i = j) as <-; [|congruence]. eapply NoDup_lookup; [exact Hnd| |].
  - rewrite list_lookup_fmap, Hi. cbn. by rewrite E.
  - by rewrite list_lookup_fmap, Hj.
Qed.

Lemma table_end ss : ss <> [] -> znth (table ss) (zlen (table ss) - 1) = Some 0.
Proof.
  intros Hne. destruct ss as [|s ss] using rev_ind; [done|]. rewrite table_app. cbn [table flat_map]. rewrite app_nil_r, app_assoc, !zlen_app.
  change (zlen [0]) with 1. replace (zlen (table ss) + zlen s + 1 - 1) with (zlen (table ss ++ s) + 0) by (rewrite zlen_app; lia).
  by rewrite znth_app_r.
Qed.

(** A sorted table that holds the empty string begins with it. *)
Lemma table_empty_first ss :
  StronglySorted (fun a b => strcmp a b < 0) ss -> [] ∈ ss ->
  is_start (table ss) 0 /\ string_at (table ss) 0 = Some [] /\ znth (table ss) 0 = Some 0.
Proof.
  intros Hso Hin. destruct ss as [|s ss]; [by apply elem_of_nil in Hin|].
  assert (s = []) as ->.
  { apply elem_of_cons in Hin as [->|Hin]; [done|]. apply StronglySorted_inv in Hso as [_ Hall].
    rewrite List.Forall_forall in Hall. apply list_elem_of_In in Hin. specialize (Hall _ Hin).
    by destruct s. }
  split; [|done]. split; [|by left]. cbn. rewrite zlen_cons. pose proof (zlen_nonneg (table ss)). fold (table ss). lia.
Qed.

(** ** The whole pass *)

Lemma only_unused o ptrs : Forall (fun s => sp_used s = false) ptrs -> ~ marked o ptrs.
Proof.
  intros Hall (s & Hs & _ & Hu). rewrite List.Forall_forall in Hall.
  rewrite Hall in Hu; [done|]. by apply list_elem_of_In.
Qed.

Lemma marked_same L ptrs o : same_entries L ptrs -> marked o L -> marked o ptrs.
Proof.
  intros Hsame (l & Hl & Ho & Hu). apply list_elem_of_lookup in Hl as [j Hj].
  pose proof (lookup_lt_Some _ _ _ Hj) as Hlt. rewrite <- (same_length _ _ Hsame) in Hlt.
  destruct (lookup_lt_is_Some_2 _ _ Hlt) as [s Hs].
  destruct (same_entry _ _ _ _ Hsame Hs) as (l' & Hl' & E1 & E2). assert (l' = l) as -> by congruence.
  exists s. split; [by eapply list_elem_of_lookup_2|]. split; congruence.
Qed.

Lemma marked_Permutation l k o : Permutation l k -> marked o l -> marked o k.
Proof. intros HP (s & Hs & Ho). exists s. split; [|done]. by rewrite <- HP. Qed.

(** A marked entry has its new offset in the index sorted again. *)
Lemma new_off_spec strs L tmp ptrs ptrs' o :
  NoDup (sp_str <$> L) -> grp_done strs L tmp ptrs -> Permutation ptrs' ptrs -> marked o L ->
  exists i s n, bsearch o ptrs' = Some i /\ ptrs' !! i = Some s /\ sp_new_off s = Some n /\
    is_start tmp n /\ string_at tmp n = Some (default [] (string_at strs o)).
Proof.
  intros Hnd [Hsame Hdone _] HP Hm. pose proof (marked_same _ _ _ Hsame Hm) as (s & Hs & <- & Hu).
  destruct Hsame as [Estr _].
  assert (s ∈ ptrs') as Hs' by by rewrite HP. destruct (bsearch_Some (sp_str s) ptrs') as (i & s' & Hb & Hi & E).
  { apply list_elem_of_fmap. by exists s. }
  assert (s' = s) as ->.
  { apply (NoDup_fmap_eq sp_str ptrs'); [|by eapply list_elem_of_lookup_2|done|done].
    eapply NoDup_ListNoDup, Permutation_NoDup; [symmetry; by apply fmap_Permutation|]. apply NoDup_ListNoDup. by rewrite Estr. }
  destruct (Hdone s Hs Hu) as (n & Hn & Hst & Hat). exists i, s, n. by split_and!.
Qed.

(** The strings in use, each once, and where they are now. *)
Record strings_deduped (types : list desc) (ext : option (list line_sec)) (strs : list Z)
    (types' : list desc) (ext' : option (list line_sec)) (strs' : list Z) (g : Z -> Z) : Prop := {
  sd_types : types' = rename_types g types;
  sd_ext : ext' = rename_ext g ext;
  sd_zero : g 0 = 0;
  sd_same o : o = 0 \/ o ∈ str_offs types ext ->
    is_start strs o /\ is_start strs' (g o) /\ string_at strs' (g o) = string_at strs o;
  sd_used n : is_start strs' n -> exists o, (o = 0 \/ o ∈ str_offs types ext) /\ g o = n;
  sd_distinct n1 n2 : is_start strs' n1 -> is_start strs' n2 -> string_at strs' n1 = string_at strs' n2 -> n1 = n2;
  sd_strs : strs_ok strs';
  sd_size : zlen strs' <= zlen strs
}.

Lemma sort_by_content_order strs :
  (forall a b, 0 <= str_sort_by_content strs a b \/ 0 <= str_sort_by_content strs b a) /\
  (forall a b, str_sort_by_content strs a b <= 0 \/ str_sort_by_content strs b a <= 0) /\
  (forall a b c, str_sort_by_content strs a b <= 0 -> str_sort_by_content strs b c <= 0 -> str_sort_by_content strs a c <= 0).
Proof.
  unfold str_sort_by_content. split; [|split].
  - intros a b. rewrite (strcmp_opp (content strs a)). lia.
  - intros a b. rewrite (strcmp_opp (content strs a)). lia.
  - intros a b c. apply strcmp_trans.
Qed.

(** The groups of the sorted index, from the first. *)
Lemma grouping_spec strs L s0 :
  StronglySorted (fun a b => str_sort_by_content strs a b <= 0) L ->
  (forall l, l ∈ L -> is_Some (string_at strs (sp_str l))) -> L !! 0%nat = Some s0 ->
  exists tmp ptrs, group_loop strs (seq 1 (length L)) 0 (sp_used s0) [] L = Some (tmp, ptrs) /\ grp_done strs L tmp ptrs.
Proof.
  intros Hs Hok H0. pose proof (lookup_lt_Some _ _ _ H0) as Hlen.
  destruct (group_loop_spec strs L Hs Hok (length L) 1 0 (sp_used s0) [] L) as (tmp & ptrs & E & [?|Hd]); [|lia|lia|by eauto].
  split.
  - by split.
  - lia.
  - intros j l g Hj Hl Hg. assert (j = 0)%nat as -> by lia. congruence.
  - split.
    + intros Hu. exists 0%nat, s0. split; [lia|done].
    + intros (j & l & Hj & Hl & Hu). assert (j = 0)%nat as -> by lia. congruence.
  - lia.
  - exists []. split; [done|]. split; [constructor|]. split; [constructor|]. split; [intros s g Hs'; by apply elem_of_nil in Hs'|].
    split; [constructor|]. done.
Qed.

Section whole.
Context (strs : list Z) (types : list desc) (ext : option (list line_sec)) (Hstrs : strs_ok strs).

(** From the marked index, sorted, to the deduplicated strings. *)
Lemma deduped_spec L tmp ptrs ptrs' :
  index_ok strs L -> (forall o, marked o L <-> o = 0 \/ o ∈ str_offs types ext) ->
  grp_done strs L tmp ptrs -> Permutation ptrs' ptrs ->
  strings_deduped types ext strs (rename_types (new_off_of ptrs') types) (rename_ext (new_off_of ptrs') ext) tmp (new_off_of ptrs').
Proof using Hstrs.
  intros Hix Hm Hd HP. destruct Hstrs as [Hz0 Hz].
  assert (forall o, o = 0 \/ o ∈ str_offs types ext -> is_start strs o) as Hstart.
  { intros o (s & Hs & <- & _)%Hm. apply (ix_start _ _ Hix). apply list_elem_of_fmap. by exists s. }
  assert (forall o, o = 0 \/ o ∈ str_offs types ext -> string_at strs o = Some (default [] (string_at strs o))) as Hdef.
  { intros o [Hr _]%Hstart. destruct (string_at_defined strs o Hz Hr) as [s ->]. done. }
  pose proof (fun o Ho => new_off_spec strs L tmp ptrs ptrs' o (ix_NoDup _ _ Hix) Hd HP (proj2 (Hm o) Ho)) as Hnew.
  destruct (gd_tmp _ _ _ _ Hd) as (ss & -> & Hss & Hso & Hus & Hlen).
  assert (string_at strs 0 = Some []) as H00.
  { unfold string_at. destruct strs as [|c strs']; [done|]. injection Hz0 as ->. done. }
  destruct (table_empty_first ss Hso) as (Hst0 & Hat0 & Hn0).
  { destruct (Hnew 0) as (_ & _ & n & _ & _ & _ & Hn & Hat); [by left|]. rewrite H00 in Hat.
    destruct (start_in _ _ Hss Hn) as (s & Hs & E). cbn in Hat. by assert (s = []) as <- by congruence. }
  assert (forall o, o = 0 \/ o ∈ str_offs types ext ->
    is_start (table ss) (new_off_of ptrs' o) /\ string_at (table ss) (new_off_of ptrs' o) = string_at strs o) as Hsame.
  { intros o Ho. unfold new_off_of. destruct (Z.eqb_spec o 0) as [-> |Hne]; [by rewrite H00|].
    destruct (Hnew o Ho) as (i & s & n & E1 & E2 & E3 & Hn & Hat). rewrite E1. cbn. rewrite E2. cbn. rewrite E3. cbn.
    split; [done|]. rewrite Hat. symmetry. by apply Hdef. }
  split; try done.
  - intros o Ho. split; [by apply Hstart|by apply Hsame].
  - intros n Hn. destruct (start_in _ _ Hss Hn) as (s & Hs & E). rewrite List.Forall_forall in Hus.
    destruct (Hus s) as (l & Hl & Hu & Ec); [by apply list_elem_of_In|].
    assert (sp_str l = 0 \/ sp_str l ∈ str_offs types ext) as Ho by (apply Hm; by exists l).
    exists (sp_str l). split; [done|]. destruct (Hsame _ Ho) as [H1 H2].
    apply (table_distinct ss); [done|done|done|done|]. rewrite H2, E, (Hdef _ Ho). by rewrite <- Ec.
  - intros n1 n2. by apply (table_distinct ss).
  - split; [done|]. apply table_end. intros ->. unfold is_start, zlen in Hst0. cbn in Hst0. lia.
  - rewrite <- (ix_total _ _ Hix). done.
Qed.
End whole.

(** Sorting by content, grouping, sorting by offset and rewriting. *)
Lemma rewrite_spec `{QsortLaws} ptrs types ext strs :
  types <> [] -> Forall desc_ok (tail types) -> Forall line_sec_ok (default [] ext) -> strs_ok strs ->
  index_ok strs ptrs -> (forall o, marked o ptrs <-> o = 0 \/ o ∈ str_offs types ext) ->
  exists s0 tmp ptrs', let L := qsort (str_sort_by_content strs) ptrs in
    L !! 0%nat = Some s0 /\
    group_loop strs (seq 1 (length L)) 0 (sp_used s0) [] L = Some (tmp, ptrs') /\
    exists g, strings_deduped types ext strs (rename_types g types) (rename_ext g ext) tmp g /\
      btf_for_each_str_off btf_str_remap_offset types ext (qsort str_sort_by_offset ptrs') =
        Some (Ok (rename_types g types, rename_ext g ext, qsort str_sort_by_offset ptrs')).
Proof.
  intros Hne Ht He Hstrs Hix Hm. set (L := qsort _ ptrs).
  assert (Permutation L ptrs) as HP by apply qsort_permutation.
  pose proof (index_Permutation _ _ _ HP Hix) as HixL.
  assert (forall o, marked o L <-> o = 0 \/ o ∈ str_offs types ext) as HmL.
  { intros o. rewrite <- Hm. split; apply marked_Permutation; [done|by symmetry]. }
  destruct (L !! 0%nat) as [s0|] eqn:E0; cycle 1.
  { destruct (proj2 (HmL 0)) as (s & Hs & _); [by left|]. destruct L; [by apply elem_of_nil in Hs|done]. }
  destruct (sort_by_content_order strs) as (O1 & O2 & O3).
  destruct (grouping_spec strs L s0) as (tmp & ptrs' & Eg & Hd); [apply qsort_sorted; auto; intros a b c _ _ _; apply O3| |done|].
  { intros l Hl. apply string_at_defined; [apply Hstrs|]. apply (ix_start _ _ HixL). apply list_elem_of_fmap. by exists l. }
  exists s0, tmp, ptrs'. split; [done|]. split; [done|]. set (ptrs2 := qsort _ ptrs').
  assert (Permutation ptrs2 ptrs') as HP2 by apply qsort_permutation.
  exists (new_off_of ptrs2). split; [by apply (deduped_spec strs types ext Hstrs L tmp ptrs')|].
  apply walk_remap; [done..|]. apply List.Forall_forall. intros o Ho%list_elem_of_In.
  right. destruct (new_off_spec strs L tmp ptrs' ptrs2 o (ix_NoDup _ _ HixL) Hd HP2) as (i & s & n & ? & ? & ? & _).
  { apply HmL. by right. }
  by exists i, s, n.
Qed.

(** What a run leaves. *)
Definition strings_post (alloc : nat -> Z -> bool) (types : list desc) (ext : option (list line_sec)) (strs : list Z)
    (r : result (list desc * option (list line_sec) * list Z)) : Prop :=
  match r with
  | Ok (types', ext', strs') => exists g, strings_deduped types ext strs types' ext' strs' g
  | Err e => (e = - ENOMEM /\ exists k size, alloc k size = false) \/
      (e = - EINVAL /\ exists o, o ∈ str_offs types ext /\ o <> 0 /\ ~ is_start strs o)
  end.

Lemma strings_run `{QsortLaws} alloc types ext strs requests :
  types <> [] -> Forall desc_ok (tail types) -> Forall line_sec_ok (default [] ext) -> strs_ok strs ->
  exists r requests', btf_dedup_strings alloc types ext strs requests = Some (r, requests') /\
    strings_post alloc types ext strs r.
Proof.
  intros Hne Ht He Hstrs. unfold btf_dedup_strings.
  destruct (index_loop_spec alloc strs (proj2 Hstrs) (S (length strs)) 0 0 [] requests) as (r & rq & -> & Hr).
  { split; [lia|apply zlen_nonneg]. } { by left. } { unfold zlen. lia. }
  { split; [constructor|]. split; [|by split]. intros o. split; [intros Ho; by apply elem_of_nil in Ho|intros [[? _] ?]; lia]. }
  destruct r as [ptrs|e]; [|exists (Err e), rq; split; [done|by left]]. destruct Hr as (Hix & H0 & Hun).
  destruct (alloc rq (zlen strs)) eqn:Ea; cbn [negb]; [|exists (Err (- ENOMEM)), (S rq); split; [done|left; eauto]].
  destruct (ptrs !! 0%nat) as [s0|] eqn:Es0; [|done]. cbn in H0. injection H0 as Hs0. cbn [mbind option_bind].
  fold (mark 0 s0 ptrs). pose proof (mark_strs _ _ _ Es0) as Hk.
  destruct (mark_spec (sp_str <$> ptrs) types ext Hne Ht He (mark 0 s0 ptrs) Hk)
    as [([types1 ext1] & ptrs1 & E & Hk1 & Hm) | (E & o & Ho & Hn0 & Hno)].
  - rewrite <- Hs0. by apply mark_marks.
  - apply mark_only; [done|done|]. intros o Ho. by destruct (only_unused o ptrs Hun).
  - rewrite E. cbn [mbind option_bind].
    destruct (rewrite_spec ptrs1 types ext strs Hne Ht He Hstrs) as (s1 & tmp & ptrs' & E1 & E2 & g & Hd & E3); [|done|].
    { by apply (index_same_strs strs _ ptrs). }
    rewrite E1. cbn [mbind option_bind]. rewrite E2. cbn [mbind option_bind]. rewrite E3. cbn [mbind option_bind].
    eexists _, _. split; [done|]. by exists g.
  - rewrite E. cbn. exists (Err (- EINVAL)), (S rq). split; [done|]. right. split; [done|]. exists o.
    split; [done|]. split; [done|]. intros Hst. apply Hno. by apply (ix_start _ _ Hix).
Qed.


(** *** An example *)

(** Two units with [int] under two offsets, and a string nobody uses. *)
Definition ex_strs : list Z := [0; 105; 110; 116; 0; 105; 110; 116; 0; 120; 0].
Definition ex_int_at (name_off : Z) : desc := Desc name_off (kind_info BTF_KIND_INT 0) 4 [32].
Definition ex_units : list desc := [void_desc; ex_int_at 1; ex_ptr 1; ex_int_at 5; ex_ptr 3].
Definition ex_ext : option (list line_sec) := Some [Line_sec 5 [[0; 1; 5; 7]]].

Example ex_dedup_strings :
  @btf_dedup_strings ex_dedup_alloc insertion_sort ex_units ex_ext ex_strs 4 =
  Some (Ok ([void_desc; ex_int_at 1; ex_ptr 1; ex_int_at 1; ex_ptr 3],
    Some [Line_sec 1 [[0; 1; 1; 7]]], [0; 105; 110; 116; 0]), 6%nat).
Proof. vm_compute. reflexivity. Qed.

(** An offset in the middle of a string is refused. *)
Example ex_dedup_strings_middle :
  @btf_dedup_strings ex_dedup_alloc insertion_sort [void_desc; ex_int_at 2] None ex_strs 4 = Some (Err (- EINVAL), 6%nat).
Proof. vm_compute. reflexivity. Qed.

Lemma ex_line_secs_ok : Forall line_sec_ok (default [] ex_ext).
Proof. repeat constructor. Qed.
Lemma ex_strs_ok : strs_ok ex_strs.
Proof. by split. Qed.

