(* ===== verification/BtfDedupAll.v ===== *)
(** * Deduplication as a whole (src/libbpf/src/btf.c, [btf__dedup])

    Strings first, then the passes over the types.  Types are compared by the
    strings they name, so that sameness does not depend on the string table. *)

From S2P Require Export BtfStrings.

(** [btf__dedup]: the result and what types, line information and string table
    are afterwards; [d] is freed. *)
Definition btf__dedup (alloc : nat -> Z -> bool) `{Qsort} (opts : option btf_dedup_opts) (types : list desc)
    (ext : option (list line_sec)) (strs : list Z) :
    option (result unit * (list desc * option (list line_sec) * list Z)) :=
  match btf_dedup_new alloc types opts with
  | Err _ => Some (Err (- EINVAL), (types, ext, strs))
  | Ok (d, opts) =>
      '(r, reqs) ← btf_dedup_strings alloc types ext strs (requests d);
      match r with
      | Err e => Some (Err e, (types, ext, strs))
      | Ok (types, ext, strs) =>
          let d := Dedup types (d_map d) (hypot_map d) (hypot_list d) (hypot_cap d) (dedup_table d) (type_len d) reqs in
          '(r, d) ← btf_dedup_types alloc opts d;
          Some (r, (d_types d, ext, strs))
      end
  end.

(** ** Sameness up to the string table *)

(** A record with the strings instead of their offsets and without ids. *)
Definition named_shape (strs : list Z) (t : desc) : desc * list (option str) :=
  (shape (rename_type (fun _ => 0) t), List.map (string_at strs) (type_offs t)).

Definition named_bisim (strs1 : list Z) (G1 : list desc) (strs2 : list Z) (G2 : list desc) (R : Z -> Z -> Prop) : Prop :=
  forall x y, R x y -> exists t1 t2, znth G1 x = Some t1 /\ znth G2 y = Some t2 /\
    named_shape strs1 t1 = named_shape strs2 t2 /\ Forall2 R (children t1) (children t2).

Definition same_named (strs1 : list Z) (G1 : list desc) (x : Z) (strs2 : list Z) (G2 : list desc) (y : Z) : Prop :=
  exists R, named_bisim strs1 G1 strs2 G2 R /\ R x y.

(** ** Renaming and ids do not meet *)

Lemma str_slots_info t t' : d_info t = d_info t' -> str_slots t = str_slots t'.
Proof. unfold str_slots, d_kind, vlen. by intros ->. Qed.

Lemma kind_cases t :
  is_composite (d_kind t) = true \/ d_kind t = BTF_KIND_ENUM \/ d_kind t = BTF_KIND_FUNC_PROTO \/ str_slots t = [].
Proof.
  unfold str_slots. destruct (is_composite _); [by left|right]. destruct (Z.eqb_spec (d_kind t) BTF_KIND_ENUM); [by left|right].
  destruct (Z.eqb_spec (d_kind t) BTF_KIND_FUNC_PROTO); [by left|by right].
Qed.

(** The place of an id behind a type is not the place of a name. *)
Lemma slots_apart t s : S s ∈ id_slots t -> s ∈ str_slots t -> False.
Proof.
  unfold id_slots, str_slots. destruct (kind_cases t) as [Hc|[Hk|[Hk|E]]]; [| | |unfold str_slots in E; rewrite E; intros _ Hs; by apply elem_of_nil in Hs].
  - rewrite Hc. assert (is_ref (d_kind t) = false /\ (d_kind t =? BTF_KIND_ARRAY) = false) as [-> ->].
    { unfold is_composite in Hc. apply orb_true_iff in Hc as [->%Z.eqb_eq| ->%Z.eqb_eq]; by split. }
    unfold member_slots. intros (i & Hi & _)%list_elem_of_fmap (j & Hj & _)%list_elem_of_fmap. lia.
  - rewrite Hk. cbn. intros Hs. by apply elem_of_nil in Hs.
  - rewrite Hk. cbn. unfold param_slots. intros [?|(i & Hi & _)%list_elem_of_fmap]%elem_of_cons (j & Hj & _)%list_elem_of_fmap; [done|lia].
Qed.

Lemma lookup_rename g t q :
  id_words (rename_type g t) !! q = match q with
    | O => Some (d_size t)
    | S s => (fun w => if decide (s ∈ str_slots t) then g w else w) <$> d_extra t !! s end.
Proof. destruct q as [|s]; [done|]. change (rename_words g (str_slots t) (d_extra t) !! s =
  ((fun w => if decide (s ∈ str_slots t) then g w else w) <$> d_extra t !! s)). unfold rename_words. by rewrite list_lookup_imap. Qed.

Lemma children_rename g t : children (rename_type g t) = children t.
Proof.
  unfold children. rewrite (id_slots_info (rename_type g t) t) by done.
  assert (forall s, s ∈ id_slots t -> child (rename_type g t) s = child t s) as Hc.
  { intros [|s] Hs; unfold child; rewrite lookup_rename; [done|]. cbn. destruct (d_extra t !! s); [|done]. cbn.
    rewrite decide_False; [done|]. intros ?. by eapply (slots_apart t s). }
  induction (id_slots t) as [|s l IH]; [done|]. cbn. rewrite (Hc s) by by left. rewrite IH; [done|].
  intros s' Hs'. apply Hc. by right.
Qed.

Lemma rename_rename f g t : rename_type f (rename_type g t) = rename_type (fun o => f (g o)) t.
Proof.
  unfold rename_type. cbn. f_equal. rewrite (str_slots_info _ t) by done. unfold rename_words. apply list_eq. intros i.
  rewrite !list_lookup_imap. destruct (d_extra t !! i); [|done]. cbn. by destruct (decide _).
Qed.

Lemma type_offs_rename g t : type_offs (rename_type g t) = List.map g (type_offs t).
Proof.
  unfold type_offs. cbn. f_equal. rewrite (str_slots_info _ t) by done. unfold word_offs.
  assert (forall s, s ∈ str_slots t -> rename_words g (str_slots t) (d_extra t) !! s = g <$> d_extra t !! s) as Hs.
  { intros s Hs. unfold rename_words. rewrite list_lookup_imap. destruct (d_extra t !! s); [|done]. cbn. by rewrite decide_True. }
  revert Hs. generalize (rename_words g (str_slots t) (d_extra t)). intros ws.
  induction (str_slots t) as [|s l IH]; intros Hs; [done|]. cbn. rewrite (Hs s) by by left. rewrite IH by (intros; apply Hs; by right).
  by destruct (d_extra t !! s).
Qed.

(** Renaming respects shapes, which determine the names. *)
Lemma shape_rename g t1 t2 : shape t1 = shape t2 -> shape (rename_type g t1) = shape (rename_type g t2).
Proof.
  intros (Hn & Hi & Hl & Hw)%shape_eq. apply shape_eq. cbn. rewrite Hn, (str_slots_info t1 t2) by done. split_and!; [done|done| |].
  - unfold rename_words. by rewrite !length_imap.
  - intros q Hq. rewrite (id_slots_info _ t1) in Hq by done. specialize (Hw q Hq). rewrite !lookup_rename.
    destruct q as [|s]; [cbn in Hw |- *; congruence|]. change (d_extra t1 !! s = d_extra t2 !! s) in Hw. by rewrite Hw, (str_slots_info t1 t2).
Qed.

Lemma shape_offs t1 t2 : shape t1 = shape t2 -> type_offs t1 = type_offs t2.
Proof.
  intros (Hn & Hi & Hl & Hw)%shape_eq. unfold type_offs, word_offs. rewrite Hn, (str_slots_info t1 t2) by done. f_equal.
  assert (forall s, s ∈ str_slots t2 -> d_extra t1 !! s = d_extra t2 !! s) as Hs.
  { intros s Hs. apply (Hw (S s)). intros Hid. apply (slots_apart t1 s Hid). by rewrite (str_slots_info t1 t2). }
  induction (str_slots t2) as [|s l IH]; [done|]. cbn. rewrite (Hs s) by by left. rewrite IH by (intros; apply Hs; by right). done.
Qed.

Lemma named_shape_shape strs t1 t2 : shape t1 = shape t2 -> named_shape strs t1 = named_shape strs t2.
Proof. intros H. unfold named_shape. by rewrite (shape_offs _ _ H), (shape_rename _ _ _ H). Qed.

Lemma named_shape_rename strs strs' g t :
  (forall o, o ∈ type_offs t -> string_at strs' (g o) = string_at strs o) ->
  named_shape strs' (rename_type g t) = named_shape strs t.
Proof.
  intros H. unfold named_shape. rewrite rename_rename, type_offs_rename. f_equal. rewrite List.map_map.
  apply List.map_ext_in. intros o Ho. apply H. by apply list_elem_of_In.
Qed.

(** ** Renamed types are well-formed *)

Lemma znth_map {A B} (f : A -> B) l i : znth (List.map f l) i = f <$> znth l i.
Proof. unfold znth. case_decide; [|done]. apply list_lookup_fmap. Qed.

Lemma rename_void g : g 0 = 0 -> rename_type g void_desc = void_desc.
Proof. intros H. unfold rename_type. cbn. by rewrite H. Qed.

Lemma rename_types_map g types :
  graph_ok types -> g 0 = 0 -> rename_types g types = List.map (rename_type g) types.
Proof.
  intros H Hg. pose proof (go_void _ H) as H0. destruct types as [|v types]; [done|]. injection H0 as ->.
  cbn [rename_types List.map]. by rewrite rename_void.
Qed.

Lemma desc_ok_rename g t :
  desc_ok t -> (forall o, o ∈ type_offs t -> in_range 32 (g o)) -> desc_ok (rename_type g t).
Proof.
  intros [Hw Hn] Hg. split; cycle 1.
  { cbn [rename_type d_info]. rewrite Hn. assert (length (d_extra (rename_type g t)) = length (d_extra t)) as E by apply length_imap.
    unfold desc_words. rewrite !zlen_cons. unfold zlen. rewrite E. reflexivity. }
  unfold desc_words in *. inversion Hw as [|? ? _ Hw1]; subst. inversion Hw1 as [|? ? Hi Hw2]; subst.
  inversion Hw2 as [|? ? Hz Hx]; subst. constructor; [apply Hg; by left|]. constructor; [done|]. constructor; [done|].
  apply List.Forall_forall. cbn [rename_type d_extra]. intros w [i Hi']%list_elem_of_In%list_elem_of_lookup. unfold rename_words in Hi'.
  rewrite list_lookup_imap in Hi'. destruct (d_extra t !! i) as [w'|] eqn:E; [|done]. cbn [fmap option_fmap option_map] in Hi'.
  revert Hi'. destruct (decide (i ∈ str_slots t)) as [Hs|Hs]; intros [= <-].
  - apply Hg. right. unfold word_offs. apply list_elem_of_omap. by exists i.
  - rewrite List.Forall_forall in Hx. apply Hx. apply list_elem_of_In. by eapply list_elem_of_lookup_2.
Qed.

Lemma type_offs_visited types ext x t o :
  0 < x -> znth types x = Some t -> o ∈ type_offs t -> o ∈ str_offs types ext.
Proof.
  intros Hx Ht Ho. unfold str_offs. apply elem_of_app. left. apply list_elem_of_In, in_flat_map. exists t.
  split; [|by apply list_elem_of_In]. unfold znth in Ht. case_decide; [|done]. destruct types as [|v types]; [done|].
  destruct (Z.to_nat x) eqn:E; [lia|]. apply list_elem_of_In. by eapply list_elem_of_lookup_2.
Qed.

Section renamed.
Context (types : list desc) (ext : option (list line_sec)) (strs : list Z).
Context (types' : list desc) (ext' : option (list line_sec)) (strs' : list Z) (g : Z -> Z).
Context (Hg : graph_ok types) (Hsd : strings_deduped types ext strs types' ext' strs' g).

Lemma renamed_types : types' = List.map (rename_type g) types.
Proof using Hg Hsd. rewrite (sd_types _ _ _ _ _ _ _ Hsd). by eapply rename_types_map, sd_zero. Qed.

Lemma visited_or_zero x t o : znth types x = Some t -> o ∈ type_offs t -> o = 0 \/ o ∈ str_offs types ext.
Proof using Hg.
  intros Ht Ho. pose proof (znth_Some_range _ _ _ Ht). destruct (decide (x = 0)) as [->|].
  - rewrite (go_void _ Hg) in Ht. injection Ht as <-. left. by apply list_elem_of_singleton in Ho.
  - right. eapply type_offs_visited; [|done|done]. lia.
Qed.

Lemma renamed_ok : zlen strs <= 2 ^ 32 -> graph_ok types'.
Proof using Hg Hsd.
  intros Hlen. rewrite renamed_types. destruct Hg as [H0 Hr Hc Hs Hf]. split.
  - rewrite znth_map, H0. cbn [fmap option_fmap option_map]. f_equal. by eapply rename_void, sd_zero.
  - intros x t' Hx. rewrite znth_map. destruct (znth types x) as [t|] eqn:Et; [|done]. intros [= <-].
    apply desc_ok_rename; [by apply (Hr x)|]. intros o Ho.
    destruct (sd_same _ _ _ _ _ _ _ Hsd o) as (_ & [Hb _] & _); [by eapply visited_or_zero|].
    pose proof (sd_size _ _ _ _ _ _ _ Hsd). unfold in_range. lia.
  - intros x t' c. rewrite znth_map. destruct (znth types x) as [t|] eqn:Et; [|done]. intros [= <-].
    rewrite children_rename. unfold zlen. rewrite List.length_map. exact (Hc x t c Et).
  - unfold zlen in *. by rewrite List.length_map.
  - intros x t'. rewrite znth_map. destruct (znth types x) as [t|] eqn:Et; [|done]. intros [= <-]. exact (Hf x t Et).
Qed.

(** Types of one graph the same as those renamed are the same by name. *)
Lemma renamed_same x G y : same_type types' x G y -> same_named strs types x strs' G y.
Proof using Hg Hsd.
  intros (R & HR & Hxy). exists R. split; [|done]. intros a b Hab. destruct (HR _ _ Hab) as (t' & t2 & E1 & E2 & Hs & Hc).
  rewrite renamed_types, znth_map in E1. destruct (znth types a) as [t1|] eqn:Et; [|done]. injection E1 as <-.
  exists t1, t2. split; [done|]. split; [done|]. rewrite <- (named_shape_shape _ _ _ Hs). rewrite children_rename in Hc. split; [|done].
  symmetry. apply named_shape_rename. intros o Ho.
  destruct (sd_same _ _ _ _ _ _ _ Hsd o) as (_ & _ & E); [by eapply visited_or_zero|done].
Qed.
End renamed.

(** ** The theorems *)

Lemma Some_eq_inj {A} (a b : A) : Some a = Some b -> a = b.
Proof. congruence. Qed.

Section top.
Context (alloc : nat -> Z -> bool) `{QsortLaws} (opts : option btf_dedup_opts).
Context (types : list desc) (ext : option (list line_sec)) (strs : list Z).
Context (Hg : graph_ok types) (He : Forall line_sec_ok (default [] ext)).
Context (Hstrs : strs_ok strs) (Hlen : zlen strs <= 2 ^ 32).

Lemma graph_records : types <> [] /\ Forall desc_ok (tail types).
Proof using Hg.
  pose proof (go_void _ Hg) as H0. destruct types as [|v ts]; [done|]. split; [done|]. apply List.Forall_forall.
  intros t [i Hi]%list_elem_of_In%list_elem_of_lookup. apply (go_rec _ Hg (Z.of_nat (S i))); [lia|].
  unfold znth. rewrite decide_True by lia. by rewrite Nat2Z.id.
Qed.

(** The parts of a run. *)
Lemma dedup_parts : exists r st, btf__dedup alloc opts types ext strs = Some (r, st) /\
  ((r = Err (- EINVAL) /\ st = (types, ext, strs) /\ exists k size, alloc k size = false) \/
   (exists e, r = Err e /\ st = (types, ext, strs) /\
     ((e = - ENOMEM /\ exists k size, alloc k size = false) \/
      (e = - EINVAL /\ exists o, o ∈ str_offs types ext /\ o <> 0 /\ ~ is_start strs o))) \/
   (exists types1 ext' strs' g reqs d, strings_deduped types ext strs types1 ext' strs' g /\
     dedup_types alloc (dedup_opts opts) types1 reqs = Some (r, d) /\ st = (d_types d, ext', strs'))).
Proof using All.
  destruct graph_records as [Hne Hds]. unfold btf__dedup.
  destruct (btf_dedup_new alloc types opts) as [[d0 o]|e] eqn:En; cycle 1.
  { eexists _, _. split; [done|]. left. split; [done|]. split; [done|]. unfold btf_dedup_new in En.
    destruct (alloc 0%nat _) eqn:E0; cbn [negb] in En; [|eauto]. destruct (alloc 1%nat _) eqn:E1; cbn [negb] in En; [|eauto].
    destruct (alloc 2%nat _) eqn:E2; cbn [negb] in En; [|eauto]. destruct (alloc 3%nat _) eqn:E3; cbn [negb] in En; [done|eauto]. }
  assert (d0 = dedup_init types 4 /\ o = dedup_opts opts) as [-> ->].
  { unfold btf_dedup_new in En. destruct (negb _); [done|]. destruct (negb _); [done|]. destruct (negb _); [done|].
    destruct (negb _); [done|]. split; congruence. }
  destruct (strings_run alloc types ext strs 4 Hne Hds He Hstrs) as ([[[types1 ext'] strs']|e] & reqs & Es & Hs);
    cbn [dedup_init requests] in Es |- *; rewrite Es; cbn [mbind option_bind]; cycle 1.
  { eexists _, _. split; [done|]. right. left. by exists e. }
  destruct Hs as [g Hsd]. pose proof (renamed_ok _ _ _ _ _ _ _ Hg Hsd Hlen) as Hg1.
  assert (length types1 = length types) as El by (rewrite (renamed_types _ _ _ _ _ _ _ Hg Hsd); apply List.length_map).
  assert (Dedup types1 (d_map (dedup_init types 4)) (hypot_map (dedup_init types 4)) (hypot_list (dedup_init types 4))
    (hypot_cap (dedup_init types 4)) (dedup_table (dedup_init types 4)) (type_len (dedup_init types 4)) reqs
    = dedup_init types1 reqs) as ->.
  { unfold dedup_init. cbn [d_map hypot_map hypot_list hypot_cap dedup_table type_len]. by rewrite El. }
  pose proof (dedup_run alloc (dedup_opts opts) types1 reqs Hg1 (fun _ => 0%nat)) as Hrun. unfold runs in Hrun.
  destruct (btf_dedup_types alloc (dedup_opts opts) (dedup_init types1 reqs)) as [[r d]|] eqn:Ed; [|done].
  cbn [mbind option_bind]. eexists _, _. split; [done|]. right. right.
  exists types1, ext', strs', g, reqs, d. split; [done|]. split; [done|done].
Qed.
End top.

Lemma ranked_renamed types g rank :
  graph_ok types -> g 0 = 0 -> ranked types rank -> ranked (List.map (rename_type g) types) rank.
Proof.
  intros Hg H0 Hr x t c tc. rewrite !znth_map. destruct (znth types x) as [t0|] eqn:Ex; [|done].
  destruct (znth types c) as [tc0|] eqn:Ec; [|done]. intros [= <-] Hk Hc [= <-] Hkc. rewrite children_rename in Hc.
  exact (Hr x t0 c tc0 Ex Hk Hc Ec Hkc).
Qed.


(** C6. With forward declarations left alone a successful [btf__dedup] loses
    nothing: every type has an id under which it is the same by name, the
    strings its graph names included; line information names what it named; the
    results are well-formed and not larger. *)
Theorem btf__dedup_same alloc `{QsortLaws} opts types ext strs types' ext' strs' :
  graph_ok types -> Forall line_sec_ok (default [] ext) -> strs_ok strs -> zlen strs <= 2 ^ 32 ->
  dont_resolve_fwds (dedup_opts opts) = true ->
  btf__dedup alloc opts types ext strs = Some (Ok tt, (types', ext', strs')) ->
  (forall x, 0 <= x < zlen types -> exists k, same_named strs types x strs' types' k) /\
  (exists g, ext' = rename_ext g ext /\ forall o, o ∈ flat_map line_sec_offs (default [] ext) ->
    string_at strs' (g o) = string_at strs o) /\
  graph_ok types' /\ strs_ok strs' /\ zlen types' <= zlen types /\ zlen strs' <= zlen strs.
Proof.
  intros Hg He Hs Hl Hf E'. destruct (dedup_parts alloc opts types ext strs Hg He Hs Hl)
    as (r & st & E & [(-> & _ & _)|[(e & -> & _ & _)|(types1 & ext1 & strs1 & g & reqs & d & Hsd & Ed & ->)]]);
    rewrite E in E'; [done|done|]. apply Some_eq_inj in E'. assert (r = Ok tt) as -> by congruence.
  assert (d_types d = types') as <- by congruence. assert (ext1 = ext') as -> by congruence.
  assert (strs1 = strs') as -> by congruence. clear E E'.
  pose proof (renamed_ok _ _ _ _ _ _ _ Hg Hsd Hl) as Hg1. pose proof (renamed_types _ _ _ _ _ _ _ Hg Hsd) as Et.
  assert (zlen types1 = zlen types) as Ezl by (rewrite Et; unfold zlen; by rewrite List.length_map).
  pose proof (dedup_run alloc (dedup_opts opts) types1 reqs Hg1 (fun _ => 0%nat)) as Hrun.
  unfold runs in Hrun. unfold dedup_types in Ed. rewrite Ed in Hrun. destruct Hrun as (Hgd & Hld & Hfin & _).
  split; [|split; [|split; [done|split; [by eapply sd_strs|split; [lia|by eapply sd_size]]]]].
  - intros x Hx. destruct (Hfin x ltac:(lia)) as (k & _ & _ & Hk). exists k. eapply renamed_same; [done|done|]. by apply Hk.
  - exists g. split; [by eapply sd_ext|]. intros o Ho.
    destruct (sd_same _ _ _ _ _ _ _ Hsd o) as (_ & _ & Eo); [|done]. right. unfold str_offs. apply elem_of_app. by right.
Qed.

(** ** The two units of [BtfStrings] *)

Definition ex_all_opts : option btf_dedup_opts := Some (Dedup_opts 16 true).
Definition ex_all_strs : list Z := [0; 105; 110; 116; 0].
Definition ex_all_types : list desc := [void_desc; ex_int_at 1; ex_ptr 1].

Example ex_btf__dedup :
  @btf__dedup ex_dedup_alloc insertion_sort ex_all_opts ex_units ex_ext ex_strs =
  Some (Ok tt, (ex_all_types, Some [Line_sec 1 [[0; 1; 1; 7]]], ex_all_strs)).
Proof. vm_compute. reflexivity. Qed.

Lemma ex_strs_short : zlen ex_strs <= 2 ^ 32.
Proof. by vm_compute. Qed.


Lemma btf__dedup_same_witness :
  exists k, same_named ex_strs ex_units 4 ex_all_strs ex_all_types k.
Proof.
  assert (0 <= 4 < zlen ex_units) as Hx by (vm_compute; split; [discriminate|reflexivity]).
  assert (graph_okb ex_units = true) as H by (vm_compute; reflexivity).
  assert (dont_resolve_fwds (dedup_opts ex_all_opts) = true) as Hf by reflexivity.
  destruct (btf__dedup_same ex_dedup_alloc ex_all_opts ex_units ex_ext ex_strs ex_all_types
    (Some [Line_sec 1 [[0; 1; 1; 7]]]) ex_all_strs (graph_okb_ok _ H) ex_line_secs_ok ex_strs_ok ex_strs_short Hf ex_btf__dedup) as [Hs _].
  exact (Hs 4 Hx).
Defined.
